(* ===== verification/_CoqProject ===== *)
-Q . S2P
Prelude.v
Params.v
CString.v
Cprintf.v
Uprintf.v
Spinlock.v
Rand.v
ProcState.v
Sched.v
Proc.v
ProcCalls.v
ProcSpec.v
ProcRefine.v
ProcThms.v
SchedThms.v
ProcLife.v
Kalloc.v
Vm.v
VmThms.v
VmSpace.v
VmCopy.v
VmGrow.v
VmProc.v
VmFork.v
Pipe.v
Sleeplock.v
Blocks.v
Bio.v
Log.v
LogThms.v
Fs.v
BlockLaws.v
FsBlocks.v
FsFile.v
FsWrite.v
FsThms.v
File.v
Syscall.v
Sysfile.v
SysfileThms.v
FileThms.v
Trap.v
TrapThms.v
Kbd.v
Console.v
ConsoleThms.v
Exec.v
ExecVm.v
ExecThms.v
Grep.v
Sh.v
ShThms.v
ShPrint.v
ShRun.v
Umalloc.v
Ulib.v
ShMain.v
Upgms.v
UpgmThms.v
Ports.v
Apic.v
Mp.v
Ide.v
IdeThms.v
Boot.v
Mkfs.v
Dinode.v
MkfsThms.v
MkfsImage.v
Asm.v
AsmThms.v
FileRead.v
ExecFile.v
Startup.v
