(* ===== verification/Prelude.v ===== *)
(** * A verification development for the xv6 operating system of this repository

    The repository is a teaching operating system for 32-bit x86: a kernel, the
    user library and some user programs, with changes made to it in a course
    (a scheduler with three queues, a log of system calls, line completion in
    the console, additional system calls).  This development translates the C
    code into Rocq functions and proves what makes its parts correct.

    ** How the code is modelled

    A C function becomes a function of the same name.  Integers are [Z] with
    the wrap-around of their C type written out ([u32], [s32] and the notations
    [+u], [-u], [+i], [-i]).  Code that changes state is a function in the
    monad [M S] of this file, over a record [S] of the variables the component
    owns; a result is [Ok] or [Fail], where failing stands for [panic], an
    undefined access, a point where the caller would have to wait, or the end of
    the fuel.  Loops that are not structural take fuel, chosen at the call as
    the number of iterations the loop can make (the length of a table, of a
    list or of the rest of a string, or a distance between two counters), and
    the theorems show that it is enough: [wp m Q s] says that [m] returns and
    that [Q] holds of the result.

    A component uses another through a class that states what it needs:
    [MemOps] and [FileOps] (the process code over memory and files), [BlockOps]
    with its laws [BlockLaws] (the file system over the log), [PageOps] (pipes
    over the page allocator), [ProgFile] (exec over the file system), [Ports]
    (the drivers over a device), [Usys] and its laws (user programs over the
    system calls).  The implementations are instances.  What the code relies on
    of hardware is a record of laws, with a device that satisfies it.

    ** The files

    - [Prelude], [Params]: integers, the monad and its logic, generic lemmas;
      the constants of param.h, mmu.h, memlayout.h, fs.h and fcntl.h.
    - [CString], [Cprintf], [Uprintf]: string.c over a byte memory; the
      formatting of console.c and of the user library's printf.c.
    - [Spinlock], [Sleeplock]: spinlock.c and sleeplock.c, and the machines in
      which cpus and processes interleave their steps.
    - [Rand]: rand.c.
    - [ProcState], [Sched], [Proc], [ProcCalls]: proc.c: the table, scheduling,
      the life of a process, and the additional calls.  [ProcSpec] is an
      abstract process manager with its invariants, [ProcRefine] the simulation
      of every critical section of proc.c by it, [ProcThms], [SchedThms] and
      [ProcLife] the theorems.
    - [Kalloc], [Vm]: kalloc.c and vm.c over a byte memory in which the free
      list and the page tables live.  [VmThms] has page tables as maps,
      [VmSpace] the pages that an address space owns, [VmCopy] the kernel's
      mappings and the copy of a space, [VmGrow] its growing and shrinking;
      [VmProc] and [VmFork] the process code over them.
    - [Pipe]: the ring buffer of pipe.c with readers and writers interleaved.
    - [Blocks], [Bio], [Log], [LogThms]: blocks of bytes; bio.c with memide.c;
      log.c and its crash safety.
    - [Fs], [BlockLaws], [FsBlocks], [FsFile], [FsWrite], [FsThms]: fs.c, the
      laws it needs of the block layer, and the contents of files.
    - [File], [FileThms], [Syscall], [Sysfile], [SysfileThms]: file.c and
      pipealloc; the checking of system call arguments; sysfile.c.
    - [Trap], [TrapThms]: sysproc.c, the dispatch of syscall.c, trap.c.
    - [Kbd], [Console], [ConsoleThms]: kbd.c and kbd.h; console.c and uartputc.
    - [Exec], [ExecVm], [ExecThms], [ExecFile]: exec.c over the file system and
      the virtual memory; the memory that it fills; what it makes of a file; and
      that fs.c and log.c give it the files by their names.
    - [Grep], [Ulib], [Umalloc], [Upgms], [UpgmThms]: grep.c, ulib.c, umalloc.c
      and the small user programs.  [FileRead]: such a program on a file of the
      kernel.
    - [Sh], [ShThms], [ShPrint], [ShRun], [ShMain]: sh.c and init.c.
    - [Ports], [Apic], [Mp], [Ide], [IdeThms]: the ports of x86.h; ioapic.c,
      picirq.c, lapic.c and uart.c; mp.c; ide.c.
    - [Boot], [Startup], [Asm], [AsmThms]: bootmain.c; startothers of main.c
      with entryother.S; swtch.S, trapasm.S, usys.S, vectors.pl and tvinit, over
      the part of the x86 that they use.
    - [Mkfs], [Dinode], [MkfsThms], [MkfsImage]: mkfs.c, inodes on disk, and the
      image that it writes.

    ** What the theorems show

    Concurrency: spinlocks and sleep locks exclude, under every interleaving; a
    pipe delivers its bytes in order and loses no wakeup; the disk driver serves
    the requests in order and refines the disk of memide.c; the processors that
    are started at boot all reach the scheduler.  Processes: the code refines
    the abstract manager, so that pids are unique, parents are alive, a process
    runs on at most one cpu, and a sleeping parent has no exited child; how many
    draws of the lottery a process wins; that killed processes do not return to
    user mode; that [sleep(n)] lasts [n] ticks.  Memory: fork gives the child a
    copy of the address space in pages of its own, sbrk grows and shrinks it,
    exec builds the space that the program file describes, and each either
    succeeds or gives every page back, with all other address spaces unchanged.
    Assembly: a context switch is a coroutine switch, a trap is transparent to
    the interrupted program, and a system call reaches its handler.  Storage:
    the buffer cache refines a plain store; a crash at any write of a commit
    leaves the old or the new contents; writing and reading files; the reference
    counts of open files; mkfs makes an image that the kernel mounts; the boot
    loader loads the kernel.  Input: the keyboard driver decodes the keys as
    they are labelled, and the console is a line editor.  User programs: the
    pattern matcher decides its language, grep selects lines, the allocator's
    blocks are apart, the shell's parser returns on every line and inverts a
    printer, a session of the shell runs the programs that are typed with the
    descriptors that their commands say, and cat prints a file of the kernel's
    disk.  Some theorems prove that the code goes wrong: an overflowing lottery,
    a full process table, kill(0), a log one block short, completion past the
    end of the input buffer, grep on a pipe.

    ** Bounds and fuel

    No theorem is about a bounded run: sequences of steps, of calls and of
    characters have any length, and the number of processes, cpus, blocks and
    pages is that of the source or any.  Fuel is part of the definition where
    the loop has a bound of its own ([namex_loop] takes one iteration for each
    character of the path, [readi_loop] one for each byte, [dirlookup_loop] one
    for each entry), and an argument where the bound is that of an input: the
    reads of a user program until the end of a file ([files_below]), the polls
    of a device ([polls], of which its laws say that they suffice), the draws of
    the lottery.

    ** Not modelled

    The start of the boot processor (bootasm.S, entry.S), the first program's
    stub initcode.S and the linker script, whose meaning is in machine state
    that no other part observes; main of main.c, which calls the initialisation
    of the parts once; consoleinit and panic.  The machine of [Asm] has no
    paging and checks no descriptors: addresses are those that the kernel
    maps.  A context switch is there the pair of the code that leaves a cpu and
    the code that resumes on it; in [Sched] the interrupt flag and [intena],
    which [Spinlock] has, are not part of the state.  foo.c and zombie.c, the
    test programs (usertests.c, forktest.c, stressfs.c, alarmtest.c, test.c) and
    headers with declarations only. *)

From Stdlib Require Export ZArith Lia String Ascii.
From stdpp Require Export base numbers list strings gmap.

(* Z arithmetic by default, with nat literals written n%nat. *)
#[global] Open Scope Z_scope.
#[global] Open Scope string_scope.
#[global] Open Scope list_scope.
#[global] Open Scope Z_scope.

(** ** Machine integers

    C values of width w are kept as [Z]; arithmetic that can leave the range
    is wrapped explicitly, as the x86 does. *)

Definition u32 (x : Z) : Z := x mod 4294967296.
Definition u16 (x : Z) : Z := x mod 65536.
Definition u8 (x : Z) : Z := x mod 256.
Definition s32 (x : Z) : Z := (x + 2147483648) mod 4294967296 - 2147483648.
Definition s16 (x : Z) : Z := (x + 32768) mod 65536 - 32768.
Definition s8 (x : Z) : Z := (x + 128) mod 256 - 128.

Declare Scope c_scope.
Delimit Scope c_scope with c.
Notation "x +u y" := (u32 (x + y)) (at level 50, left associativity) : c_scope.
Notation "x -u y" := (u32 (x - y)) (at level 50, left associativity) : c_scope.
Notation "x *u y" := (u32 (x * y)) (at level 40, left associativity) : c_scope.
Notation "x +i y" := (s32 (x + y)) (at level 50, left associativity) : c_scope.
Notation "x -i y" := (s32 (x - y)) (at level 50, left associativity) : c_scope.
Notation "x *i y" := (s32 (x * y)) (at level 40, left associativity) : c_scope.
#[global] Open Scope c_scope.

(** Linear arithmetic with division and modulus by constants. *)
Ltac zdm := Z.to_euclidean_division_equations; lia.

(** Case analysis on every integer comparison of the goal. *)
Ltac zcase1 :=
  match goal with
  | |- context [?x =? ?y] => destruct (Z.eqb_spec x y)
  | |- context [?x <? ?y] => destruct (Z.ltb_spec x y)
  | |- context [?x <=? ?y] => destruct (Z.leb_spec x y)
  end.
Ltac zcases := repeat (zcase1; cbn [andb orb negb]; try lia; try done).

Definition is_u32 (x : Z) : Prop := 0 ≤ x < 4294967296.
Definition is_i32 (x : Z) : Prop := -2147483648 ≤ x < 2147483648.
Definition is_u8 (x : Z) : Prop := 0 ≤ x < 256.

Create HintDb mach.
Create Rewrite HintDb mach_rw.

Lemma u32_range x : is_u32 (u32 x).
Proof. unfold is_u32, u32. zdm. Qed.
Lemma u32_id x : is_u32 x → u32 x = x.
Proof. unfold is_u32, u32. intros. by apply Z.mod_small. Qed.
Lemma s32_range x : is_i32 (s32 x).
Proof. unfold is_i32, s32. zdm. Qed.
Lemma s32_id x : is_i32 x → s32 x = x.
Proof. unfold is_i32, s32. intros. rewrite Z.mod_small; lia. Qed.
Lemma u8_range x : is_u8 (u8 x).
Proof. unfold is_u8, u8. zdm. Qed.
Lemma u32_s32 x : u32 (s32 x) = u32 x.
Proof. unfold u32, s32. zdm. Qed.
Lemma s32_u32 x : s32 (u32 x) = s32 x.
Proof. unfold u32, s32. zdm. Qed.

(** A 32-bit value has no bit at or above position 32. *)
Lemma u32_bits_above e i : is_u32 e → 32 ≤ i → Z.testbit e i = false.
Proof.
  unfold is_u32. intros He Hi.
  destruct (decide (e = 0)) as [->|]; [apply Z.bits_0|].
  apply Z.bits_above_log2; [lia|]. apply Z.log2_lt_pow2; [lia|].
  apply Z.lt_le_trans with (2 ^ 32); [simpl; lia|]. apply Z.pow_le_mono_r; lia.
Qed.
Lemma u32_of_bits x : (∀ i, 32 ≤ i → Z.testbit x i = false) → is_u32 x.
Proof.
  intros Hb. assert (x = u32 x) as ->; [|apply u32_range].
  unfold u32. change 4294967296 with (2 ^ 32). rewrite <-Z.land_ones by lia.
  apply Z.bits_inj'. intros i Hi. rewrite Z.land_spec, Z.testbit_ones_nonneg by lia.
  destruct (Z.ltb_spec i 32); [by rewrite andb_true_r|]. by rewrite Hb by lia.
Qed.
Lemma land_u32 a b : is_u32 a → is_u32 (Z.land a b).
Proof.
  intros Ha. apply u32_of_bits. intros i Hi.
  by rewrite Z.land_spec, u32_bits_above.
Qed.
Lemma lor_u32 a b : is_u32 a → is_u32 b → is_u32 (Z.lor a b).
Proof.
  intros Ha Hb. apply u32_of_bits. intros i Hi.
  by rewrite Z.lor_spec, !u32_bits_above.
Qed.
#[export] Hint Resolve land_u32 lor_u32 : mach.
#[export] Hint Resolve u32_range s32_range u8_range : mach.
#[export] Hint Rewrite u32_id s32_id using (unfold is_u32, is_i32 in *; lia) : mach_rw.

(** ** Results of kernel code

    [Ok a s] is a normal return with value [a] in state [s].  A [Fail] is a
    call to [panic] (with its message), a C-level undefined access (an index
    outside its array, a null dereference, a division by zero), or a point at
    which the calling process blocks. *)

Inductive fault :=
| Panic (msg : string)
| Undef (what : string)
| Blocked (chan : string)
| OutOfFuel.

Inductive res (S A : Type) :=
| Ok (a : A) (s : S)
| Fail (f : fault).
Arguments Ok {S A} _ _.
Arguments Fail {S A} _.

#[export] Instance fault_eq_dec : EqDecision fault.
Proof. solve_decision. Defined.

Definition M (S A : Type) : Type := S → res S A.

#[export] Instance M_ret {S} : MRet (M S) := λ A a s, Ok a s.
#[export] Instance M_bind {S} : MBind (M S) := λ A B k m s,
  match m s with
  | Ok a s' => k a s'
  | Fail f => Fail f
  end.

Definition fail {S A} (f : fault) : M S A := λ _, Fail f.
Definition panic {S A} (msg : string) : M S A := fail (Panic msg).
Definition get {S} : M S S := λ s, Ok s s.
Definition gets {S A} (f : S → A) : M S A := λ s, Ok (f s) s.
Definition put {S} (s : S) : M S unit := λ _, Ok tt s.
Definition modify {S} (f : S → S) : M S unit := λ s, Ok tt (f s).
Definition when {S} (b : bool) (m : M S unit) : M S unit :=
  if b then m else mret tt.
Definition of_option {S A} (f : fault) (o : option A) : M S A :=
  match o with Some a => mret a | None => fail f end.

Definition is_fail {S A} (r : res S A) : bool :=
  match r with Fail _ => true | _ => false end.

(** Total correctness: [wp m Q s] says that [m] run in [s] returns, without
    panicking or blocking, in a state and with a value satisfying [Q]. *)
Definition wp {S A} (m : M S A) (Q : A → S → Prop) (s : S) : Prop :=
  match m s with Ok a s' => Q a s' | Fail _ => False end.

Create HintDb wp.

Section wp.
Context {S : Type}.

Lemma wp_ret {A} (a : A) (Q : A → S → Prop) s : Q a s → wp (mret a) Q s.
Proof. done. Qed.

Lemma wp_bind {A B} (m : M S A) (k : A → M S B) Q s :
  wp m (λ a, wp (k a) Q) s → wp (m ≫= k) Q s.
Proof. unfold wp, mbind, M_bind. by destruct (m s). Qed.

Lemma wp_mono {A} (m : M S A) (Q R : A → S → Prop) s :
  wp m Q s → (∀ a s', Q a s' → R a s') → wp m R s.
Proof. unfold wp. destruct (m s); eauto. Qed.

Lemma wp_gets {A} (f : S → A) (Q : A → S → Prop) s :
  Q (f s) s → wp (gets f) Q s.
Proof. done. Qed.

Lemma wp_modify (f : S → S) (Q : unit → S → Prop) s :
  Q tt (f s) → wp (modify f) Q s.
Proof. done. Qed.

Lemma wp_when b (m : M S unit) (Q : unit → S → Prop) s :
  (b = true → wp m Q s) → (b = false → Q tt s) → wp (when b m) Q s.
Proof. unfold when. destruct b; intros H1 H2; [by apply H1 | by apply wp_ret, H2]. Qed.

Lemma wp_intro {A} (m : M S A) (Q : A → S → Prop) s a s' :
  m s = Ok a s' → Q a s' → wp m Q s.
Proof. unfold wp. by intros ->. Qed.

Lemma wp_elim {A} (m : M S A) (Q : A → S → Prop) s :
  wp m Q s → ∃ a s', m s = Ok a s' ∧ Q a s'.
Proof. unfold wp. destruct (m s); [eauto | done]. Qed.

Lemma bind_Ok {A B} (m : M S A) (k : A → M S B) s b s'' :
  (m ≫= k) s = Ok b s'' ↔ ∃ a s', m s = Ok a s' ∧ k a s' = Ok b s''.
Proof.
  unfold mbind, M_bind. destruct (m s) as [a s'|f]; split.
  - eauto.
  - intros (a0&s0&Heq&?). by simplify_eq.
  - done.
  - by intros (?&?&?&?).
Qed.
End wp.
#[export] Hint Resolve wp_ret wp_gets wp_modify : wp.

(** Inversion of successful runs. *)
Ltac inv_ok :=
  repeat match goal with
  | H : (_ ≫= _) _ = Ok _ _ |- _ => apply bind_Ok in H as (?&?&?&?)
  | H : mret _ _ = Ok _ _ |- _ => unfold mret, M_ret in H; simplify_eq
  | H : gets _ _ = Ok _ _ |- _ => unfold gets in H; simplify_eq
  | H : modify _ _ = Ok _ _ |- _ => unfold modify in H; simplify_eq
  | H : panic _ _ = Ok _ _ |- _ => discriminate H
  | H : fail _ _ = Ok _ _ |- _ => discriminate H
  end.

(** ** Sequences of steps *)

Section closure.
Context {A : Type} (R : A → A → Prop).

(** An invariant established initially and preserved by every step holds in
    every reachable state. *)
Lemma rtc_invariant (I : A → Prop) x y :
  (∀ a b, I a → R a b → I b) → I x → rtc R x y → I y.
Proof. intros Hstep HI Hr. induction Hr; eauto. Qed.
End closure.

(** ** Lists *)

Section lists.
Context {A : Type}.
Implicit Types l k : list A.

(** Overwrite the elements of [l] from position [n] on by [k]. *)
Definition splice (n : nat) (k l : list A) : list A :=
  take n l ++ k ++ drop (n + length k) l.

Lemma length_splice n k l :
  (n + length k ≤ length l)%nat → length (splice n k l) = length l.
Proof.
  intros. unfold splice. rewrite !length_app, length_take, length_drop. lia.
Qed.

Lemma take_drop_splice n k l :
  (n + length k ≤ length l)%nat → take (length k) (drop n (splice n k l)) = k.
Proof.
  intros. unfold splice.
  rewrite drop_app_ge by (rewrite length_take; lia).
  rewrite length_take, Nat.min_l, Nat.sub_diag by lia.
  by rewrite drop_0, take_app_length.
Qed.

Lemma lookup_splice_ne n k l i :
  (n + length k ≤ length l)%nat →
  (i < n ∨ n + length k ≤ i)%nat → splice n k l !! i = l !! i.
Proof.
  intros Hn [Hi|Hi]; unfold splice.
  - rewrite lookup_app_l by (rewrite length_take; lia).
    by rewrite lookup_take_lt.
  - rewrite lookup_app_r by (rewrite length_take; lia).
    rewrite length_take, Nat.min_l by lia.
    rewrite lookup_app_r by lia. rewrite lookup_drop. f_equal. lia.
Qed.

Lemma lookup_splice_eq n k l i :
  (n + length k ≤ length l)%nat →
  (n ≤ i < n + length k)%nat → splice n k l !! i = k !! (i - n)%nat.
Proof.
  intros Hn Hi. unfold splice.
  rewrite lookup_app_r by (rewrite length_take; lia).
  rewrite length_take, Nat.min_l by lia.
  by rewrite lookup_app_l by lia.
Qed.
Lemma alter_insert (f : A → A) l i x : l !! i = Some x → alter f i l = <[i:=f x]> l.
Proof.
  intros Hx. apply list_eq. intros j. rewrite list_lookup_alter.
  case_decide as Hij.
  - subst j. rewrite Hx, list_lookup_insert_eq; [done|]. by eapply lookup_lt_Some.
  - by rewrite list_lookup_insert_ne.
Qed.

Lemma filter_ne_id `{EqDecision A} l x : x ∉ l → filter (λ y, y ≠ x) l = l.
Proof.
  induction l as [|y l IH]; intros Hx; [done|].
  rewrite not_elem_of_cons in Hx. destruct Hx as [Hne Hx].
  rewrite filter_cons_True by congruence. by rewrite IH.
Qed.

Lemma length_filter_ne `{EqDecision A} l x :
  NoDup l → x ∈ l → S (length (filter (λ y, y ≠ x) l)) = length l.
Proof.
  induction l as [|y l IH]; intros Hnd Hx; [by apply not_elem_of_nil in Hx|].
  apply NoDup_cons in Hnd as [Hy Hnd]. destruct (decide (y = x)) as [->|Hne].
  - rewrite filter_cons_False by tauto. by rewrite filter_ne_id.
  - apply elem_of_cons in Hx as [->|Hx]; [done|].
    rewrite filter_cons_True by done. simpl. f_equal. auto.
Qed.

Lemma list_find_unique (P : A → Prop) `{!∀ x, Decision (P x)} l i x :
  l !! i = Some x → P x → (∀ j y, l !! j = Some y → P y → j = i) →
  list_find P l = Some (i, x).
Proof.
  intros Hi HP Hu. apply list_find_Some. split_and!; [done|done|].
  intros j y Hj Hlt Hy. specialize (Hu j y Hj Hy). lia.
Qed.
End lists.

Lemma filter_all {A} (P : A → Prop) `{!∀ x, Decision (P x)} (l : list A) :
  (∀ x, x ∈ l → P x) → filter P l = l.
Proof.
  induction l as [|x l IH]; intros Hl; [done|].
  rewrite filter_cons_True by (apply Hl; by left). f_equal. apply IH.
  intros y Hy. apply Hl. by right.
Qed.
Lemma filter_none {A} (P : A → Prop) `{!∀ x, Decision (P x)} (l : list A) :
  (∀ x, x ∈ l → ¬ P x) → filter P l = [].
Proof.
  induction l as [|x l IH]; intros Hl; [done|].
  rewrite filter_cons_False by (apply Hl; by left). apply IH.
  intros y Hy. apply Hl. by right.
Qed.

(** How many of the integers from 0 below [n] lie in an interval. *)
Lemma count_interval (P : Z → Prop) `{!∀ w, Decision (P w)} n a b :
  0 ≤ a → a ≤ b + 1 → b < n → (∀ w, 0 ≤ w < n → P w ↔ a ≤ w ≤ b) →
  length (filter P (seqZ 0 n)) = Z.to_nat (b - a + 1).
Proof.
  intros Ha Hab Hb HP.
  replace (seqZ 0 n) with (seqZ 0 (a + ((b - a + 1) + (n - b - 1)))) by (f_equal; lia).
  rewrite !seqZ_app, !filter_app, !length_app by lia.
  rewrite (filter_none P (seqZ 0 a)), (filter_all P (seqZ (0 + a) _)),
    (filter_none P (seqZ (0 + a + _) _)); simpl; [rewrite length_seqZ; lia|..];
    intros w Hw%elem_of_seqZ; rewrite HP by lia; lia.
Qed.

(** Properties of small ranges of integers by computation. *)
Lemma range_check (P : Z → bool) (n : nat) :
  forallb P (seqZ 0 (Z.of_nat n)) = true → ∀ c, 0 ≤ c < Z.of_nat n → P c = true.
Proof.
  intros Hall c Hc. rewrite forallb_forall in Hall. apply Hall.
  apply list_elem_of_In, elem_of_seqZ. lia.
Qed.

(** C string literals as sequences of bytes. *)
Fixpoint bytes (s : string) : list Z :=
  match s with
  | EmptyString => []
  | String c s' => Z.of_nat (nat_of_ascii c) :: bytes s'
  end.
