(* ===== verification/Params.v ===== *)
(** * Constants: [param.h], [mmu.h], [memlayout.h], [fs.h], [stat.h],
    [fcntl.h], [buf.h]; those of [syscall.h] and [traps.h] are in [Trap] *)

From S2P Require Import Prelude.

(** ** param.h *)
Definition NPROC : Z := 64.
Definition NLOGPAIR : Z := 1024.
Definition KSTACKSIZE : Z := 4096.
Definition NCPU : Z := 8.
Definition NOFILE : Z := 16.
Definition NFILE : Z := 100.
Definition NINODE : Z := 50.
Definition NDEV : Z := 10.
Definition ROOTDEV : Z := 1.
Definition MAXARG : Z := 32.
Definition MAXOPBLOCKS : Z := 10.
Definition LOGSIZE : Z := MAXOPBLOCKS * 3.
Definition NBUF : Z := MAXOPBLOCKS * 3.
Definition FSSIZE : Z := 1000.

(** ** mmu.h *)
Definition FL_IF : Z := 512.
Definition PGSIZE : Z := 4096.
Definition NPDENTRIES : Z := 1024.
Definition NPTENTRIES : Z := 1024.
Definition PTXSHIFT : Z := 12.
Definition PDXSHIFT : Z := 22.
Definition PTE_P : Z := 1.
Definition PTE_W : Z := 2.
Definition PTE_U : Z := 4.
Definition SEG_KCODE : Z := 1.
Definition SEG_KDATA : Z := 2.
Definition SEG_UCODE : Z := 3.
Definition SEG_UDATA : Z := 4.
Definition SEG_TSS : Z := 5.
Definition DPL_USER : Z := 3.

(** [PGROUNDUP] and [PGROUNDDOWN] on 32-bit values; the complement of a
    constant is taken at 32 bits. *)
Definition not32 (x : Z) : Z := u32 (Z.lnot x).
Definition PGROUNDUP (sz : Z) : Z := Z.land (sz +u PGSIZE -u 1) (not32 (PGSIZE - 1)).
Definition PGROUNDDOWN (a : Z) : Z := Z.land a (not32 (PGSIZE - 1)).
Definition PDX (va : Z) : Z := Z.land (Z.shiftr va PDXSHIFT) 1023.
Definition PTX (va : Z) : Z := Z.land (Z.shiftr va PTXSHIFT) 1023.
Definition PGADDR (d t o : Z) : Z :=
  Z.lor (Z.lor (u32 (Z.shiftl d PDXSHIFT)) (u32 (Z.shiftl t PTXSHIFT))) o.
Definition PTE_ADDR (pte : Z) : Z := Z.land pte (not32 4095).
Definition PTE_FLAGS (pte : Z) : Z := Z.land pte 4095.

(** ** memlayout.h *)
Definition EXTMEM : Z := 1048576.
Definition PHYSTOP : Z := 234881024.
Definition DEVSPACE : Z := 4261412864.
Definition KERNBASE : Z := 2147483648.
Definition KERNLINK : Z := KERNBASE + EXTMEM.
Definition V2P (a : Z) : Z := a -u KERNBASE.
Definition P2V (a : Z) : Z := a +u KERNBASE.

(** ** fs.h *)
Definition ROOTINO : Z := 1.
Definition BSIZE : Z := 512.
Definition NDIRECT : Z := 12.
Definition NINDIRECT : Z := BSIZE / 4.
Definition MAXFILE : Z := NDIRECT + NINDIRECT.
Definition IPB : Z := BSIZE / 64.
Definition BPB : Z := BSIZE * 8.
Definition DIRSIZ : Z := 14.

(** ** stat.h, fcntl.h, buf.h *)
Definition T_DIR : Z := 1.
Definition T_FILE : Z := 2.
Definition T_DEV : Z := 3.
Definition O_RDONLY : Z := 0.
Definition O_WRONLY : Z := 1.
Definition O_RDWR : Z := 2.
Definition O_CREATE : Z := 512.
Definition B_VALID : Z := 2.
Definition B_DIRTY : Z := 4.

(** ** Page arithmetic *)

Lemma land_page_mask a : is_u32 a → Z.land a (not32 4095) = a - a mod 4096.
Proof.
  intros Ha.
  replace (not32 4095) with (Z.ldiff (Z.ones 32) (Z.ones 12)) by reflexivity.
  assert (Z.land a (Z.ldiff (Z.ones 32) (Z.ones 12)) = Z.ldiff a (Z.ones 12)) as ->.
  { apply Z.bits_inj'. intros i Hi.
    rewrite Z.land_spec, !Z.ldiff_spec, !Z.testbit_ones_nonneg by lia.
    destruct (Z.ltb_spec i 32) as [|Hge]; [done|].
    by rewrite (u32_bits_above a i). }
  rewrite Z.ldiff_ones_r by lia. rewrite Z.shiftr_div_pow2, Z.shiftl_mul_pow2 by lia.
  change (2 ^ 12) with 4096. zdm.
Qed.

Lemma PGROUNDDOWN_eq a : is_u32 a → PGROUNDDOWN a = a - a mod PGSIZE.
Proof. apply land_page_mask. Qed.

Lemma PGROUNDUP_eq a :
  0 ≤ a ≤ 4294963200 - 1 → PGROUNDUP a = (a + 4095) / 4096 * 4096.
Proof.
  intros Ha. unfold PGROUNDUP, PGSIZE. change (4096 - 1) with 4095.
  rewrite (u32_id (a + 4096)) by (unfold is_u32; lia).
  rewrite u32_id by (unfold is_u32; lia).
  rewrite land_page_mask by (unfold is_u32; lia). zdm.
Qed.

Lemma PDX_eq va : PDX va = (va / 4194304) mod 1024.
Proof.
  unfold PDX, PDXSHIFT. change 1023 with (Z.ones 10).
  rewrite Z.land_ones, Z.shiftr_div_pow2 by lia. done.
Qed.
Lemma PTX_eq va : PTX va = (va / 4096) mod 1024.
Proof.
  unfold PTX, PTXSHIFT. change 1023 with (Z.ones 10).
  rewrite Z.land_ones, Z.shiftr_div_pow2 by lia. done.
Qed.
Lemma PTE_ADDR_eq pte : is_u32 pte → PTE_ADDR pte = pte - pte mod 4096.
Proof. apply land_page_mask. Qed.
Lemma PTE_FLAGS_eq pte : PTE_FLAGS pte = pte mod 4096.
Proof. unfold PTE_FLAGS. change 4095 with (Z.ones 12). by rewrite Z.land_ones by lia. Qed.
