(* ===== verification/CString.v ===== *)
(** * Memory and strings: [string.c]

    The routines of [string.c] over a byte-addressed memory.  A memory maps an
    address to the byte stored there (0 to 255); pointers are addresses. *)

From S2P Require Import Prelude.

Definition mem : Type := Z → Z.

Definition upd (m : mem) (a v : Z) : mem := λ x, if x =? a then v else m x.

(** The [n] bytes stored from address [a] on. *)
Fixpoint bytes_at (m : mem) (a : Z) (n : nat) : list Z :=
  match n with
  | O => []
  | S k => m a :: bytes_at m (a + 1) k
  end.

(** A memory that holds the bytes [l] from address [a] on, and [m] elsewhere. *)
Fixpoint store (m : mem) (a : Z) (l : list Z) : mem :=
  match l with
  | [] => m
  | v :: l' => store (upd m a v) (a + 1) l'
  end.

(** ** x86.h: string instructions used by memset *)

Fixpoint stosb (m : mem) (addr data : Z) (cnt : nat) : mem :=
  match cnt with
  | O => m
  | S k => stosb (upd m addr (u8 data)) (addr + 1) data k
  end.

Definition store32 (m : mem) (a v : Z) : mem :=
  upd (upd (upd (upd m a (u8 v)) (a + 1) (u8 (Z.shiftr v 8)))
    (a + 2) (u8 (Z.shiftr v 16))) (a + 3) (u8 (Z.shiftr v 24)).

Definition load32 (m : mem) (a : Z) : Z :=
  m a + 256 * m (a + 1) + 65536 * m (a + 2) + 16777216 * m (a + 3).

Fixpoint stosl (m : mem) (addr data : Z) (cnt : nat) : mem :=
  match cnt with
  | O => m
  | S k => stosl (store32 m addr data) (addr + 4) data k
  end.

(** ** string.c *)

Definition memset (m : mem) (dst c n : Z) : mem :=
  if (Z.rem (s32 dst) 4 =? 0) && (n mod 4 =? 0) then
    let c := Z.land c 255 in
    stosl m dst
      (Z.lor (Z.lor (Z.lor (Z.shiftl c 24) (Z.shiftl c 16)) (Z.shiftl c 8)) c)
      (Z.to_nat (n / 4))
  else stosb m dst c (Z.to_nat n).

Fixpoint memcmp_loop (m : mem) (s1 s2 : Z) (n : nat) : Z :=
  match n with
  | O => 0
  | S k =>
      if negb (m s1 =? m s2) then m s1 - m s2
      else memcmp_loop m (s1 + 1) (s2 + 1) k
  end.
Definition memcmp (m : mem) (v1 v2 n : Z) : Z := memcmp_loop m v1 v2 (Z.to_nat n).

(** [while(n-- > 0) *--d = *--s] *)
Fixpoint copy_down (m : mem) (d s : Z) (n : nat) : mem :=
  match n with
  | O => m
  | S k => copy_down (upd m (d - 1) (m (s - 1))) (d - 1) (s - 1) k
  end.
(** [while(n-- > 0) *d++ = *s++] *)
Fixpoint copy_up (m : mem) (d s : Z) (n : nat) : mem :=
  match n with
  | O => m
  | S k => copy_up (upd m d (m s)) (d + 1) (s + 1) k
  end.
Definition memmove (m : mem) (dst src n : Z) : mem :=
  if (src <? dst) && (src + n >? dst)
  then copy_down m (dst + n) (src + n) (Z.to_nat n)
  else copy_up m dst src (Z.to_nat n).

Fixpoint strncmp_loop (m : mem) (p q : Z) (n : nat) : Z :=
  match n with
  | O => 0
  | S k =>
      if negb (m p =? 0) && (m p =? m q)
      then strncmp_loop m (p + 1) (q + 1) k
      else m p - m q
  end.
Definition strncmp (m : mem) (p q n : Z) : Z := strncmp_loop m p q (Z.to_nat n).

Fixpoint strncpy_loop (m : mem) (s t : Z) (n : nat) : mem :=
  match n with
  | O => m
  | S k =>
      let c := m t in
      let m' := upd m s c in
      if c =? 0 then stosb m' (s + 1) 0 k
      else strncpy_loop m' (s + 1) (t + 1) k
  end.
Definition strncpy (m : mem) (s t n : Z) : mem := strncpy_loop m s t (Z.to_nat n).

Fixpoint safestrcpy_loop (m : mem) (s t : Z) (k : nat) : mem :=
  match k with
  | O => upd m s 0
  | S k' =>
      let c := m t in
      let m' := upd m s c in
      if c =? 0 then upd m' (s + 1) 0
      else safestrcpy_loop m' (s + 1) (t + 1) k'
  end.
Definition safestrcpy (m : mem) (s t n : Z) : mem :=
  if n <=? 0 then m else safestrcpy_loop m s t (Z.to_nat (n - 1)).

(** The loop of [strlen] is bounded by [fuel]; [None] when no NUL was seen. *)
Fixpoint strlen_loop (m : mem) (s n : Z) (fuel : nat) : option Z :=
  match fuel with
  | O => None
  | S k => if m (s + n) =? 0 then Some n else strlen_loop m s (n + 1) k
  end.
Definition strlen (fuel : nat) (m : mem) (s : Z) : option Z := strlen_loop m s 0 fuel.

(** ** Reference definitions on sequences of bytes *)

(** The bytes of a NUL-terminated string inside [l]. *)
Fixpoint cstr (l : list Z) : list Z :=
  match l with
  | [] => []
  | c :: l' => if c =? 0 then [] else c :: cstr l'
  end.

(** What a fixed-size field of [n] bytes holds after [strncpy] of the string
    [l]: at most [n] of its bytes, padded with NULs. *)
Definition padded (n : nat) (l : list Z) : list Z :=
  take n (cstr l ++ replicate n 0).

(** ** Lemmas *)

Lemma upd_eq m a v : upd m a v a = v.
Proof. unfold upd. by rewrite Z.eqb_refl. Qed.
Lemma upd_ne m a v x : x ≠ a → upd m a v x = m x.
Proof. unfold upd. intros. by rewrite (proj2 (Z.eqb_neq x a)). Qed.

Ltac solve_upd :=
  repeat (rewrite upd_eq || (rewrite upd_ne by lia)).

Lemma length_bytes_at m a n : length (bytes_at m a n) = n.
Proof. revert a. induction n; intros; simpl; auto. Qed.

Lemma bytes_at_ext m1 m2 a n :
  (∀ x, a ≤ x < a + Z.of_nat n → m1 x = m2 x) → bytes_at m1 a n = bytes_at m2 a n.
Proof.
  revert a. induction n as [|n IH]; intros a Hext; simpl; [done|].
  rewrite (Hext a) by lia. f_equal. apply IH. intros. apply Hext. lia.
Qed.

Lemma lookup_bytes_at m a n i :
  (i < n)%nat → bytes_at m a n !! i = Some (m (a + Z.of_nat i)).
Proof.
  revert a i. induction n as [|n IH]; intros a [|i] Hi; simpl; try lia.
  - do 2 f_equal. lia.
  - rewrite IH by lia. do 2 f_equal. lia.
Qed.

Lemma store_ne m a l x : (x < a ∨ a + Z.of_nat (length l) ≤ x) → store m a l x = m x.
Proof.
  revert m a. induction l as [|v l IH]; intros m a Hx; simpl in *; [done|].
  rewrite IH by lia. by rewrite upd_ne by lia.
Qed.

Lemma bytes_at_store m a l : bytes_at (store m a l) a (length l) = l.
Proof.
  revert m a. induction l as [|v l IH]; intros m a; simpl; [done|].
  rewrite IH. f_equal. rewrite store_ne by lia. by rewrite upd_eq.
Qed.

Lemma stosb_spec m a c n x :
  stosb m a c n x =
    if (a <=? x) && (x <? a + Z.of_nat n) then u8 c else m x.
Proof.
  revert m a. induction n as [|n IH]; intros m a; cbn [stosb].
  - destruct (Z.leb_spec a x), (Z.ltb_spec x (a + Z.of_nat 0)); simpl; try done; lia.
  - rewrite IH.
    destruct (Z.leb_spec (a + 1) x), (Z.ltb_spec x (a + 1 + Z.of_nat n)),
      (Z.leb_spec a x), (Z.ltb_spec x (a + Z.of_nat (S n)));
      simpl; try lia; try done.
    + by rewrite upd_ne by lia.
    + replace x with a by lia. by rewrite upd_eq.
    + by rewrite upd_ne by lia.
Qed.

(** The word that memset stores repeats its byte four times. *)
Lemma memset_word_bytes c :
  is_u8 c →
  let w := Z.lor (Z.lor (Z.lor (Z.shiftl c 24) (Z.shiftl c 16)) (Z.shiftl c 8)) c in
  u8 w = c ∧ u8 (Z.shiftr w 8) = c ∧ u8 (Z.shiftr w 16) = c ∧ u8 (Z.shiftr w 24) = c.
Proof.
  intros Hc w.
  pose proof (range_check (λ c,
    let w := Z.lor (Z.lor (Z.lor (Z.shiftl c 24) (Z.shiftl c 16)) (Z.shiftl c 8)) c in
    (u8 w =? c) && (u8 (Z.shiftr w 8) =? c) && (u8 (Z.shiftr w 16) =? c)
      && (u8 (Z.shiftr w 24) =? c)) 256 eq_refl c Hc) as Hall.
  cbv beta zeta in Hall. fold w in Hall.
  rewrite !andb_true_iff, !Z.eqb_eq in Hall. tauto.
Qed.

Lemma stosl_spec m a c n x :
  is_u8 c →
  stosl m a (Z.lor (Z.lor (Z.lor (Z.shiftl c 24) (Z.shiftl c 16)) (Z.shiftl c 8)) c) n x =
    if (a <=? x) && (x <? a + 4 * Z.of_nat n) then c else m x.
Proof.
  intros Hc. destruct (memset_word_bytes c Hc) as (H0&H1&H2&H3). revert H0 H1 H2 H3.
  set (w := Z.lor _ c). intros H0 H1 H2 H3.
  revert m a. induction n as [|n IH]; intros m a; cbn [stosl].
  - destruct (Z.leb_spec a x), (Z.ltb_spec x (a + 4 * Z.of_nat 0)); simpl; try done; lia.
  - rewrite IH. unfold store32. rewrite H0, H1, H2, H3. unfold upd.
    zcases.
Qed.

Lemma copy_up_spec m d s n x :
  ¬ (s < d < s + Z.of_nat n) →
  copy_up m d s n x =
    if (d <=? x) && (x <? d + Z.of_nat n) then m (s + (x - d)) else m x.
Proof.
  revert m d s. induction n as [|n IH]; intros m d s Hov; cbn [copy_up].
  - zcases.
  - rewrite IH by lia. unfold upd. zcases.
    all: f_equal; lia.
Qed.

Lemma copy_down_spec m d s n x :
  s < d →
  copy_down m d s n x =
    if (d - Z.of_nat n <=? x) && (x <? d) then m (s + (x - d)) else m x.
Proof.
  revert m d s. induction n as [|n IH]; intros m d s Hov; cbn [copy_down].
  - zcases.
  - rewrite IH by lia. unfold upd. zcases.
    all: f_equal; lia.
Qed.

Lemma stosb_zero_bytes m a n : bytes_at (stosb m a 0 n) a n = replicate n 0.
Proof.
  apply list_eq. intros i. destruct (decide (i < n)%nat) as [Hi|Hi].
  - rewrite lookup_bytes_at, lookup_replicate_2 by done. f_equal.
    rewrite stosb_spec. zcases.
  - rewrite lookup_ge_None_2 by (rewrite length_bytes_at; lia).
    by rewrite lookup_ge_None_2 by (rewrite length_replicate; lia).
Qed.

Lemma cstr_nonzero l : Forall (λ c, c ≠ 0) (cstr l).
Proof.
  induction l as [|c l IH]; simpl; [done|].
  destruct (Z.eqb_spec c 0); auto.
Qed.

Lemma length_cstr l : (length (cstr l) ≤ length l)%nat.
Proof. induction l as [|c l IH]; simpl; [done|]. destruct (c =? 0); simpl; lia. Qed.

Lemma length_padded n l : length (padded n l) = n.
Proof. unfold padded. rewrite length_take, length_app, length_replicate. lia. Qed.

Lemma padded_0 n l : padded n (0 :: l) = replicate n 0.
Proof. unfold padded. simpl. by rewrite take_ge by (rewrite length_replicate; lia). Qed.

Lemma padded_cons n c l : c ≠ 0 → padded (S n) (c :: l) = c :: padded n l.
Proof.
  intros Hc. unfold padded. cbn [cstr]. rewrite (proj2 (Z.eqb_neq c 0) Hc).
  cbn [app take]. f_equal.
  rewrite replicate_S_end, app_assoc, take_app_le; [done|].
  rewrite length_app, length_replicate. lia.
Qed.

Lemma cstr_app_zero l n : cstr (l ++ replicate n 0) = cstr l.
Proof.
  induction l as [|c l IH]; simpl.
  - by destruct n.
  - destruct (c =? 0); [done|]. by rewrite IH.
Qed.

Lemma cstr_take n l : Forall (λ c, c ≠ 0) l → cstr (take n l) = take n l.
Proof.
  intros Hl. revert n. induction Hl as [|c l Hc Hl IH]; intros [|n]; simpl; try done.
  rewrite (proj2 (Z.eqb_neq c 0) Hc). by rewrite IH.
Qed.

(** Reading back a padded field gives the string cut to the field's size. *)
Lemma cstr_padded n l : cstr (padded n l) = take n (cstr l).
Proof.
  unfold padded. rewrite take_app.
  destruct (decide (n ≤ length (cstr l))%nat) as [Hle|Hgt].
  - replace (n - length (cstr l))%nat with O by lia. rewrite take_0, app_nil_r.
    apply cstr_take, cstr_nonzero.
  - rewrite (take_ge (cstr l)) by lia.
    rewrite take_replicate, cstr_app_zero.
    rewrite <-(take_ge (cstr l) n) at 1 by lia.
    rewrite cstr_take by apply cstr_nonzero. by rewrite take_ge by lia.
Qed.

Lemma cstr_bytes_S m a n :
  cstr (bytes_at m a (S n)) = if m a =? 0 then [] else m a :: cstr (bytes_at m (a + 1) n).
Proof. done. Qed.

(** Two regions of memory do not overlap. *)
Definition disjoint_regions (a n b k : Z) : Prop := a + n ≤ b ∨ b + k ≤ a.

Lemma strncpy_loop_spec m s t n :
  disjoint_regions s (Z.of_nat n) t (Z.of_nat n) →
  bytes_at (strncpy_loop m s t n) s n = padded n (bytes_at m t n) ∧
  ∀ x, (x < s ∨ s + Z.of_nat n ≤ x) → strncpy_loop m s t n x = m x.
Proof.
  unfold disjoint_regions.
  revert m s t. induction n as [|n IH]; intros m s t Hov; cbn [strncpy_loop].
  { split; [done|auto]. }
  cbn [bytes_at].
  destruct (Z.eqb_spec (m t) 0) as [Hz|Hz].
  - rewrite Hz, padded_0. split.
    + simpl. f_equal; [|apply stosb_zero_bytes].
      rewrite stosb_spec. unfold upd. zcases.
    + intros x Hx. rewrite stosb_spec. unfold upd. zcases.
  - destruct (IH (upd m s (m t)) (s + 1) (t + 1)) as [Hb Ho]; [lia|].
    split.
    + rewrite padded_cons by done. f_equal.
      * rewrite Ho by lia. by rewrite upd_eq.
      * rewrite Hb. f_equal. apply bytes_at_ext. intros. by rewrite upd_ne by lia.
    + intros x Hx. rewrite Ho by lia. by rewrite upd_ne by lia.
Qed.

Lemma safestrcpy_loop_spec m s t k :
  disjoint_regions s (Z.of_nat (S k)) t (Z.of_nat k) →
  cstr (bytes_at (safestrcpy_loop m s t k) s (S k)) = cstr (bytes_at m t k) ∧
  (∃ i, (i ≤ k)%nat ∧ safestrcpy_loop m s t k (s + Z.of_nat i) = 0) ∧
  ∀ x, (x < s ∨ s + Z.of_nat (S k) ≤ x) → safestrcpy_loop m s t k x = m x.
Proof.
  unfold disjoint_regions.
  revert m s t. induction k as [|k IH]; intros m s t Hov.
  { split_and!; cbn [safestrcpy_loop bytes_at cstr].
    - by rewrite upd_eq.
    - exists O. split; [lia|]. unfold upd. zcases.
    - intros x Hx. by rewrite upd_ne by lia. }
  cbn [safestrcpy_loop]. rewrite (cstr_bytes_S _ s), (cstr_bytes_S m t).
  destruct (Z.eqb_spec (m t) 0) as [Hz|Hz].
  - split_and!.
    + unfold upd. rewrite Hz. zcases.
    + exists O. split; [lia|]. unfold upd. zcases.
    + intros x Hx. unfold upd. zcases.
  - destruct (IH (upd m s (m t)) (s + 1) (t + 1)) as (Hb&(i&Hi&H0)&Ho); [lia|].
    split_and!.
    + rewrite Ho by lia. rewrite upd_eq, (proj2 (Z.eqb_neq _ _) Hz). f_equal.
      rewrite Hb. f_equal. apply bytes_at_ext. intros. by rewrite upd_ne by lia.
    + exists (S i). split; [lia|]. rewrite <-H0. f_equal. lia.
    + intros x Hx. rewrite Ho by lia. by rewrite upd_ne by lia.
Qed.

Lemma strncmp_loop_zero m p q n :
  strncmp_loop m p q n = 0 ↔ cstr (bytes_at m p n) = cstr (bytes_at m q n).
Proof.
  revert p q. induction n as [|n IH]; intros p q; [done|].
  cbn [strncmp_loop]. rewrite !cstr_bytes_S.
  destruct (Z.eqb_spec (m p) 0) as [Hp|Hp]; cbn [negb andb].
  - rewrite Hp. destruct (Z.eqb_spec (m q) 0); split; (done || lia).
  - destruct (Z.eqb_spec (m p) (m q)) as [He|He].
    + rewrite <-He. rewrite (proj2 (Z.eqb_neq _ _) Hp). rewrite IH.
      split; [by intros ->|]. by intros [= ?].
    + split; [lia|]. destruct (Z.eqb_spec (m q) 0); [done|]. by intros [= ?].
Qed.

Lemma strlen_loop_spec m s n k fuel :
  (k < fuel)%nat →
  (∀ j, 0 ≤ j < Z.of_nat k → m (s + n + j) ≠ 0) → m (s + n + Z.of_nat k) = 0 →
  strlen_loop m s n fuel = Some (n + Z.of_nat k).
Proof.
  revert n fuel. induction k as [|k IH]; intros n [|fuel] Hf Hnz Hz; cbn [strlen_loop]; try lia.
  - replace (s + n + Z.of_nat 0) with (s + n) in Hz by lia. rewrite Hz. simpl. f_equal. lia.
  - pose proof (Hnz 0 ltac:(lia)) as H0. rewrite Z.add_0_r in H0.
    rewrite (proj2 (Z.eqb_neq _ _) H0).
    rewrite IH; [f_equal; lia|lia| |].
    + intros j Hj. replace (s + (n + 1) + j) with (s + n + (j + 1)) by lia. apply Hnz. lia.
    + rewrite <-Hz. f_equal. lia.
Qed.

(** ** What the routines compute *)

(** [memset] stores the low byte of [c] in exactly the [n] bytes from [dst],
    on the word-wise path as on the byte-wise one. *)
Lemma memset_correct m dst c n x :
  0 ≤ n →
  memset m dst c n x = if (dst <=? x) && (x <? dst + n) then u8 c else m x.
Proof.
  intros Hn. unfold memset.
  destruct (Z.rem (s32 dst) 4 =? 0); cbn [andb];
    [destruct (Z.eqb_spec (n mod 4) 0) as [Hm|Hm]|].
  - change 255 with (Z.ones 8). rewrite Z.land_ones by lia.
    change (c mod 2 ^ 8) with (u8 c).
    rewrite stosl_spec by auto with mach.
    replace (4 * Z.of_nat (Z.to_nat (n / 4))) with n by zdm. done.
  - rewrite stosb_spec. by rewrite Z2Nat.id by lia.
  - rewrite stosb_spec. by rewrite Z2Nat.id by lia.
Qed.

Lemma memmove_spec m dst src n x :
  0 ≤ n →
  memmove m dst src n x =
    if (dst <=? x) && (x <? dst + n) then m (src + (x - dst)) else m x.
Proof.
  intros Hn. unfold memmove. rewrite Z.gtb_ltb.
  destruct (Z.ltb_spec src dst), (Z.ltb_spec dst (src + n)); cbn [andb].
  2-4: rewrite copy_up_spec by lia; by rewrite Z2Nat.id by lia.
  rewrite copy_down_spec by lia. rewrite Z2Nat.id by lia.
  replace (dst + n - n) with dst by lia. zcases. f_equal. lia.
Qed.

(** [memmove] copies as if through a temporary array, also when the two
    regions overlap in either direction, and writes nothing else. *)
Theorem memmove_correct m dst src n x :
  0 ≤ n →
  memmove m dst src n x =
    if (dst <=? x) && (x <? dst + n) then m (src + (x - dst)) else m x.
Proof. apply memmove_spec. Qed.

(** Words in memory. *)
Lemma store32_ne m a v x : (x < a ∨ a + 4 ≤ x) → store32 m a v x = m x.
Proof. intros Hx. unfold store32. by rewrite !upd_ne by lia. Qed.
Lemma load32_ext m1 m2 a :
  (∀ x, a ≤ x < a + 4 → m1 x = m2 x) → load32 m1 a = load32 m2 a.
Proof. intros Hx. unfold load32. by rewrite !Hx by lia. Qed.
Lemma load32_store32 m a v : is_u32 v → load32 (store32 m a v) a = v.
Proof.
  unfold is_u32. intros Hv. unfold load32, store32. solve_upd. unfold u8.
  rewrite !Z.shiftr_div_pow2 by lia. change (2 ^ 8) with 256. change (2 ^ 16) with 65536.
  change (2 ^ 24) with 16777216. zdm.
Qed.

(** [strncmp] answers 0 exactly for strings equal up to their first [n] bytes. *)
Lemma strncmp_zero_iff m p q n :
  strncmp m p q n = 0 ↔
  cstr (bytes_at m p (Z.to_nat n)) = cstr (bytes_at m q (Z.to_nat n)).
Proof. apply strncmp_loop_zero. Qed.

(** [strncpy] between disjoint regions fills the destination with the string
    cut or NUL-padded to [n] bytes, and writes nothing else. *)
Lemma strncpy_correct m s t n :
  0 ≤ n → disjoint_regions s n t n →
  bytes_at (strncpy m s t n) s (Z.to_nat n) = padded (Z.to_nat n) (bytes_at m t (Z.to_nat n)) ∧
  ∀ x, (x < s ∨ s + n ≤ x) → strncpy m s t n x = m x.
Proof.
  intros Hn Hd. unfold strncpy.
  destruct (strncpy_loop_spec m s t (Z.to_nat n)) as [H1 H2].
  { by rewrite Z2Nat.id by lia. }
  split; [done|]. intros x Hx. apply H2. lia.
Qed.

(** [safestrcpy] always leaves a NUL inside the destination, copies the string
    cut to [n - 1] bytes, and writes nothing outside the destination. *)
Theorem safestrcpy_correct m s t n :
  0 < n → disjoint_regions s n t (n - 1) →
  let m' := safestrcpy m s t n in
  cstr (bytes_at m' s (Z.to_nat n)) = cstr (bytes_at m t (Z.to_nat (n - 1))) ∧
  (∃ i, 0 ≤ i < n ∧ m' (s + i) = 0) ∧
  ∀ x, (x < s ∨ s + n ≤ x) → m' x = m x.
Proof.
  intros Hn Hd m'. unfold m', safestrcpy. rewrite (proj2 (Z.leb_gt n 0)) by lia.
  destruct (safestrcpy_loop_spec m s t (Z.to_nat (n - 1))) as (H1&(i&Hi&H2)&H3).
  { rewrite Nat2Z.inj_succ, Z2Nat.id by lia. replace (Z.succ (n - 1)) with n by lia. done. }
  replace (Z.to_nat n) with (S (Z.to_nat (n - 1))) by lia.
  split_and!; [done| |].
  - exists (Z.of_nat i). split; [lia|done].
  - intros x Hx. apply H3. lia.
Qed.

(** [strlen] returns the distance of the first NUL as soon as the bound on its
    iterations exceeds that distance. *)
Lemma strlen_correct m s k fuel :
  (k < fuel)%nat →
  (∀ j, 0 ≤ j < Z.of_nat k → m (s + j) ≠ 0) → m (s + Z.of_nat k) = 0 →
  strlen fuel m s = Some (Z.of_nat k).
Proof.
  intros Hf Hnz Hz. unfold strlen.
  rewrite (strlen_loop_spec m s 0 k fuel); [f_equal; lia|done| |].
  - intros j Hj. rewrite Z.add_0_r. auto.
  - by rewrite Z.add_0_r.
Qed.

(** ** Witnesses *)

Definition demo_mem : mem := λ a, if (0 <=? a) && (a <? 4) then a + 1 else 0.

(** An overlapping move towards higher addresses. *)
Lemma memmove_correct_witness : memmove demo_mem 2 0 4 5 = 4.
Proof. rewrite memmove_correct by lia. reflexivity. Defined.

Lemma safestrcpy_correct_witness :
  let m' := safestrcpy demo_mem 16 0 4 in
  cstr (bytes_at m' 16 4) = [1; 2; 3] ∧ (∃ i, 0 ≤ i < 4 ∧ m' (16 + i) = 0).
Proof.
  destruct (safestrcpy_correct demo_mem 16 0 4) as (H1&H2&_).
  - lia.
  - unfold disjoint_regions. lia.
  - split; [exact H1|exact H2].
Defined.
