(* ===== verification/Cprintf.v ===== *)
(** * Formatted kernel output: [printint] and [cprintf] of console.c

    [cprintf] prints by emitting one character after the other; the model
    returns the sequence of characters passed to [consputc].
    A format that consumes a missing argument, or an argument of the wrong
    kind, reads unrelated stack memory: [None]. *)

From S2P Require Import Prelude Params.

Definition chr (c : ascii) : Z := Z.of_nat (nat_of_ascii c).

(** A C string literal, with the escapes the sources use. *)
Fixpoint lit (s : string) : list Z :=
  match s with
  | String "\" (String "n" s') => 10 :: lit s'
  | String "\" (String "t" s') => 9 :: lit s'
  | String "\" (String "x" (String "1" (String "B" s'))) => 27 :: lit s'
  | String c s' => chr c :: lit s'
  | EmptyString => []
  end.

(** The words that follow the format on the stack. *)
Inductive carg :=
| AInt (v : Z)                  (* an int or unsigned *)
| AStr (s : list Z)             (* a pointer to a string *)
| ANull.                        (* a null char pointer *)

(** The do-while loop that fills [buf] with the digits of [x], least
    significant first.  32 iterations are enough for any 32-bit value. *)
Fixpoint digit_loop (digits : list Z) (fuel : nat) (x base : Z) : list Z :=
  match fuel with
  | O => []
  | S k =>
      nth (Z.to_nat (x mod base)) digits 0 ::
      (if x / base =? 0 then [] else digit_loop digits k (x / base) base)
  end.

Definition digits : list Z := bytes "0123456789abcdef".

Definition printint (xx base sign : Z) : list Z :=
  let neg := negb (sign =? 0) && (xx <? 0) in
  let x := if neg then u32 (- xx) else u32 xx in
  let buf := digit_loop digits 32 x base in
  let buf := if neg then buf ++ [chr "-"] else buf in
  rev buf.

Fixpoint cprintf (fmt : list Z) (argp : list carg) : option (list Z) :=
  match fmt with
  | [] => Some []
  | c :: fmt1 =>
      if negb (c =? chr "%") then cons c <$> cprintf fmt1 argp
      else
        match fmt1 with
        | [] => Some []
        | c :: fmt2 =>
            if c =? chr "d" then
              match argp with
              | AInt v :: argp' => app (printint v 10 1) <$> cprintf fmt2 argp'
              | _ => None
              end
            else if (c =? chr "x") || (c =? chr "p") then
              match argp with
              | AInt v :: argp' => app (printint v 16 0) <$> cprintf fmt2 argp'
              | _ => None
              end
            else if c =? chr "s" then
              match argp with
              | AStr s :: argp' => app s <$> cprintf fmt2 argp'
              | ANull :: argp' => app (bytes "(null)") <$> cprintf fmt2 argp'
              | _ => None
              end
            else if c =? chr "%" then cons (chr "%") <$> cprintf fmt2 argp
            else app [chr "%"; c] <$> cprintf fmt2 argp
        end
  end.


(** ** Reading numbers back *)

(** The value of a digit character, in either case. *)
Definition digit_val (c : Z) : Z :=
  if (chr "0" <=? c) && (c <=? chr "9") then c - chr "0"
  else if (chr "a" <=? c) && (c <=? chr "f") then c - chr "a" + 10
  else if (chr "A" <=? c) && (c <=? chr "F") then c - chr "A" + 10
  else 0.

(** The number a sequence of digits stands for, least significant first. *)
Fixpoint value_rev (base : Z) (l : list Z) : Z :=
  match l with
  | [] => 0
  | c :: l' => digit_val c + base * value_rev base l'
  end.

(** The number a printed text stands for, with an optional minus sign. *)
Definition read_number (base : Z) (l : list Z) : Z :=
  match l with
  | c :: l' => if c =? chr "-" then - value_rev base (rev l') else value_rev base (rev l)
  | [] => 0
  end.

(** Both digit tables hold the digits 0 to 15, none of which reads as a sign. *)
Definition good_digits (digits : list Z) : Prop :=
  ∀ d, 0 ≤ d < 16 → digit_val (nth (Z.to_nat d) digits 0) = d ∧ nth (Z.to_nat d) digits 0 ≠ chr "-".

Lemma good_digits_check digits :
  forallb (λ d, (digit_val (nth (Z.to_nat d) digits 0) =? d) &&
    negb (nth (Z.to_nat d) digits 0 =? chr "-")) (seqZ 0 (Z.of_nat 16)) = true →
  good_digits digits.
Proof.
  intros Hall d Hd. pose proof (range_check _ 16 Hall d Hd) as H.
  cbv beta in H. rewrite andb_true_iff, negb_true_iff, Z.eqb_eq, Z.eqb_neq in H. done.
Qed.

Lemma digits_good : good_digits digits.
Proof. apply good_digits_check. reflexivity. Qed.

Section digit_loop.
Context (digits : list Z) (Hd : good_digits digits).

Lemma digit_loop_value fuel x base :
  2 ≤ base ≤ 16 → 0 ≤ x < base ^ Z.of_nat fuel →
  value_rev base (digit_loop digits fuel x base) = x.
Proof.
  intros Hb. revert x. induction fuel as [|k IH]; intros x Hx; cbn [digit_loop value_rev].
  { change (base ^ Z.of_nat 0) with 1 in Hx. lia. }
  pose proof (Z.mod_pos_bound x base ltac:(lia)) as Hm.
  rewrite (proj1 (Hd (x mod base) ltac:(lia))).
  pose proof (Z.div_mod x base ltac:(lia)) as Hdm.
  destruct (Z.eqb_spec (x / base) 0) as [Hz|Hz]; [simpl; lia|].
  rewrite IH; [lia|].
  rewrite Nat2Z.inj_succ, Z.pow_succ_r in Hx by lia. split.
  - apply Z.div_pos; lia.
  - apply Z.div_lt_upper_bound; lia.
Qed.

Lemma digit_loop_no_sign fuel x base :
  2 ≤ base ≤ 16 → Forall (λ c, c ≠ chr "-") (digit_loop digits fuel x base).
Proof.
  intros Hb. revert x. induction fuel as [|k IH]; intros x; cbn [digit_loop]; [done|].
  pose proof (Z.mod_pos_bound x base ltac:(lia)) as Hm.
  constructor; [apply (Hd (x mod base)); lia|].
  destruct (x / base =? 0); auto.
Qed.

Lemma digit_loop_nonempty fuel x base : digit_loop digits (S fuel) x base ≠ [].
Proof. done. Qed.

Lemma digit_loop_length fuel x base n :
  2 ≤ base ≤ 16 → (0 < n)%nat → 0 ≤ x < base ^ Z.of_nat n →
  (length (digit_loop digits fuel x base) ≤ n)%nat.
Proof.
  intros Hb. revert x n. induction fuel as [|k IH]; intros x n Hn Hx; cbn [digit_loop length]; [lia|].
  destruct n as [|[|n]]; [lia| |].
  - change (base ^ Z.of_nat 1) with (base ^ 1) in Hx. rewrite Z.pow_1_r in Hx.
    rewrite Z.div_small by lia. simpl. lia.
  - destruct (x / base =? 0); simpl; [lia|].
    cut (length (digit_loop digits k (x / base) base) ≤ S n)%nat; [lia|].
    apply IH; [lia|].
    rewrite (Nat2Z.inj_succ (S n)), Z.pow_succ_r in Hx by lia. split.
    + apply Z.div_pos; lia.
    + apply Z.div_lt_upper_bound; lia.
Qed.
End digit_loop.
Arguments digit_loop : simpl never.

(** The shape common to the two [printint] routines. *)
Definition print_number (digits : list Z) (neg : bool) (x base : Z) : list Z :=
  rev (if neg then digit_loop digits 32 x base ++ [chr "-"] else digit_loop digits 32 x base).

Lemma read_print_number digits neg x base :
  good_digits digits → 2 ≤ base ≤ 16 → is_u32 x →
  read_number base (print_number digits neg x base) = if neg then - x else x.
Proof.
  intros Hd Hb Hx. unfold print_number.
  assert (Hp : 0 ≤ x < base ^ Z.of_nat 32).
  { unfold is_u32 in Hx. split; [lia|].
    apply Z.lt_le_trans with (2 ^ 32); [simpl; lia|]. apply Z.pow_le_mono_l. lia. }
  pose proof (digit_loop_value digits Hd 32 x base Hb Hp) as Hv.
  pose proof (digit_loop_no_sign digits Hd 32 x base Hb) as Hs.
  pose proof (digit_loop_nonempty digits 31 x base) as Hne.
  destruct neg.
  - rewrite rev_app_distr. cbn [rev app read_number]. rewrite Z.eqb_refl.
    by rewrite rev_involutive, Hv.
  - set (buf := digit_loop digits 32 x base) in *.
    unfold read_number. destruct (rev buf) as [|c l] eqn:Hrev.
    + apply (f_equal (@rev Z)) in Hrev. rewrite rev_involutive in Hrev. done.
    + assert (c ≠ chr "-") as Hc.
      { rewrite Forall_forall in Hs. apply Hs, list_elem_of_In, in_rev.
        rewrite Hrev. by left. }
      rewrite (proj2 (Z.eqb_neq _ _) Hc), <-Hrev, rev_involutive. done.
Qed.

Lemma length_print_number digits neg x base n :
  2 ≤ base ≤ 16 → (0 < n)%nat → 0 ≤ x < base ^ Z.of_nat n →
  (length (print_number digits neg x base) ≤ n + (if neg then 1 else 0))%nat.
Proof.
  intros Hb Hn Hx. pose proof (digit_loop_length digits 32 x base n Hb Hn Hx).
  unfold print_number. rewrite length_rev. destruct neg; [rewrite length_app; cbn [length]|]; lia.
Qed.

(** The absolute value printed for [%d], and its sign. *)
Definition magnitude (xx : Z) : Z := if xx <? 0 then u32 (- xx) else u32 xx.

Lemma magnitude_spec xx :
  is_i32 xx →
  0 ≤ magnitude xx ≤ 2147483648 ∧ (if xx <? 0 then - magnitude xx else magnitude xx) = xx.
Proof.
  unfold is_i32, magnitude. intros Hx.
  destruct (Z.ltb_spec xx 0); rewrite u32_id; unfold is_u32; lia.
Qed.

(** A printed 32-bit integer reads back, whatever the table of digits. *)
Lemma print_decimal_reads digits xx :
  good_digits digits → is_i32 xx →
  read_number 10 (print_number digits (xx <? 0) (magnitude xx) 10) = xx ∧
  (length (print_number digits (xx <? 0)%Z (magnitude xx) 10) ≤ 11)%nat.
Proof.
  intros Hd Hx. destruct (magnitude_spec xx Hx) as [Hm Hv].
  rewrite read_print_number by (assumption || unfold is_u32; lia). split; [exact Hv|].
  pose proof (length_print_number digits (xx <? 0) (magnitude xx) 10 10
    ltac:(lia) ltac:(lia) ltac:(change (10 ^ Z.of_nat 10) with 10000000000; lia)).
  destruct (xx <? 0); lia.
Qed.

Lemma print_hex_reads digits xx :
  good_digits digits →
  read_number 16 (print_number digits false (u32 xx) 16) = u32 xx ∧
  (length (print_number digits false (u32 xx) 16) ≤ 8)%nat.
Proof.
  intros Hd. pose proof (u32_range xx) as Hur.
  rewrite read_print_number by (assumption || lia). split; [reflexivity|].
  pose proof (length_print_number digits false (u32 xx) 16 8
    ltac:(lia) ltac:(lia) ltac:(change (16 ^ Z.of_nat 8) with 4294967296; apply Hur)) as H8.
  cbv iota in H8. lia.
Qed.

Lemma printint_as_number xx :
  printint xx 10 1 = print_number digits (xx <? 0) (magnitude xx) 10 ∧
  printint xx 16 0 = print_number digits false (u32 xx) 16.
Proof. split; reflexivity. Qed.

(** What [%d] prints reads back as the integer, negative numbers and the most
    negative one included, and what [%x] and [%p] print reads back as the
    unsigned value; the text never exceeds the 16 bytes of [buf]. *)
Theorem printint_roundtrip xx :
  is_i32 xx →
  read_number 10 (printint xx 10 1) = xx ∧ (length (printint xx 10 1) ≤ 16)%nat ∧
  read_number 16 (printint xx 16 0) = u32 xx ∧ (length (printint xx 16 0) ≤ 16)%nat.
Proof.
  intros Hx. destruct (printint_as_number xx) as [-> ->].
  destruct (print_decimal_reads digits xx digits_good Hx) as [H1 H2].
  destruct (print_hex_reads digits xx digits_good) as [H3 H4].
  split_and!; [exact H1|lia|exact H3|lia].
Qed.

Lemma printint_roundtrip_witness :
  read_number 10 (printint (-2147483648) 10 1) = -2147483648 ∧
  printint (-2147483648) 10 1 = bytes "-2147483648".
Proof.
  split; [|vm_compute; reflexivity].
  apply (printint_roundtrip (-2147483648)). unfold is_i32. lia.
Defined.
