(* ===== verification/Uprintf.v ===== *)
(** * Formatted user output: [printint] and [printf] of printf.c

    The user library's formatting is a state machine over the format; the
    model returns the sequence of characters passed to [putc]. *)

From S2P Require Import Prelude Cprintf.

Definition digits : list Z := bytes "0123456789ABCDEF".

Definition printint (xx base sgn : Z) : list Z :=
  let neg := negb (sgn =? 0) && (xx <? 0) in
  let x := if neg then u32 (- xx) else u32 xx in
  let buf := digit_loop digits 32 x base in
  let buf := if neg then buf ++ [chr "-"] else buf in
  rev buf.

(** [state] is false for 0 and true for '%'. *)
Fixpoint printf_loop (state : bool) (fmt : list Z) (ap : list carg) : option (list Z) :=
  match fmt with
  | [] => Some []
  | c :: fmt' =>
      if negb state then
        if c =? chr "%" then printf_loop true fmt' ap
        else cons c <$> printf_loop false fmt' ap
      else if c =? chr "d" then
        match ap with
        | AInt v :: ap' => app (printint v 10 1) <$> printf_loop false fmt' ap'
        | _ => None
        end
      else if (c =? chr "x") || (c =? chr "p") then
        match ap with
        | AInt v :: ap' => app (printint v 16 0) <$> printf_loop false fmt' ap'
        | _ => None
        end
      else if c =? chr "s" then
        match ap with
        | AStr s :: ap' => app s <$> printf_loop false fmt' ap'
        | ANull :: ap' => app (bytes "(null)") <$> printf_loop false fmt' ap'
        | _ => None
        end
      else if c =? chr "c" then
        match ap with
        | AInt v :: ap' => cons (u8 v) <$> printf_loop false fmt' ap'
        | _ => None
        end
      else if c =? chr "%" then cons c <$> printf_loop false fmt' ap
      else app [chr "%"; c] <$> printf_loop false fmt' ap
  end.
Definition printf (fmt : list Z) (ap : list carg) : option (list Z) :=
  printf_loop false fmt ap.

(** Formats that do not use the directives on which the two engines differ:
    [%c], unknown to the kernel, and hexadecimal, printed in another case. *)
Fixpoint common_format (fmt : list Z) : bool :=
  match fmt with
  | [] => true
  | c :: fmt1 =>
      if negb (c =? chr "%") then common_format fmt1
      else
        match fmt1 with
        | [] => true
        | c :: fmt2 =>
            negb (c =? chr "c") && negb (c =? chr "x") && negb (c =? chr "p") && common_format fmt2
        end
  end.

Lemma digit_loop_decimal fuel x :
  digit_loop Cprintf.digits fuel x 10 = digit_loop digits fuel x 10.
Proof.
  revert x. induction fuel as [|k IH]; intros x; [done|]. unfold digit_loop; fold digit_loop.
  pose proof (range_check (λ d, nth (Z.to_nat d) Cprintf.digits 0 =?
    nth (Z.to_nat d) digits 0) 10 eq_refl (x mod 10) ltac:(zdm)) as Hd.
  apply Z.eqb_eq in Hd. rewrite Hd. by rewrite IH.
Qed.

Lemma printint_decimal_same xx : Cprintf.printint xx 10 1 = printint xx 10 1.
Proof. unfold Cprintf.printint, printint. by rewrite digit_loop_decimal. Qed.

(** The kernel's [cprintf] and the user library's state machine [printf] print
    the same text for every format made of the directives they share,
    incomplete formats ending in a single percent sign included. *)
Theorem printf_agrees fmt args :
  common_format fmt = true → cprintf fmt args = printf fmt args.
Proof.
  unfold printf.
  assert (Hgen : ∀ n fmt args, (length fmt ≤ n)%nat → common_format fmt = true →
    cprintf fmt args = printf_loop false fmt args).
  2: { eauto. }
  clear. induction n as [|n IH]; intros [|c fmt] args Hlen Hc; try done; simpl in Hlen; [lia|].
  cbn [cprintf printf_loop common_format negb] in *.
  destruct (c =? chr "%"); cbn [negb] in *.
  2: { rewrite IH by (done || lia). done. }
  destruct fmt as [|c' fmt]; [done|]. simpl in Hlen.
  cbn [printf_loop negb].
  apply andb_true_iff in Hc as [Hc Hrest]. apply andb_true_iff in Hc as [Hc Hp].
  apply andb_true_iff in Hc as [Hcc Hx].
  apply negb_true_iff in Hcc, Hx, Hp. rewrite Hcc, Hx, Hp. cbn [orb].
  assert (Hr : ∀ args, cprintf fmt args = printf_loop false fmt args)
    by (intros; apply IH; [lia|exact Hrest]).
  destruct (c' =? chr "d").
  { destruct args as [|[v| |] args]; [reflexivity| |reflexivity|reflexivity].
    rewrite printint_decimal_same, Hr. reflexivity. }
  destruct (c' =? chr "s").
  { destruct args as [|[v| |] args]; rewrite ?Hr; reflexivity. }
  destruct (Z.eqb_spec c' (chr "%")) as [->|]; rewrite Hr; reflexivity.
Qed.

Lemma printf_agrees_witness :
  cprintf (bytes "pid %d %s%%") [AInt (-7); AStr (bytes "sh")] =
  printf (bytes "pid %d %s%%") [AInt (-7); AStr (bytes "sh")].
Proof. apply (printf_agrees (bytes "pid %d %s%%")). vm_compute. reflexivity. Defined.
