(* ===== verification/Spinlock.v ===== *)
(** * Spin locks: [spinlock.c], [spinlock.h], and [mycpu] of proc.c

    The machine has one hardware thread per entry of [cpus].  A hardware
    thread [h] has its interrupt flag in [eflags] and answers [lapicid()] with
    its entry of [lapic]; [struct cpu]s and locks are shared memory.  The
    sequential routines come first; the second half interleaves the threads
    at the points where another thread can observe the lock. *)

From S2P Require Import Prelude Params.

(** [struct cpu], the fields that locking and scheduling use. *)
Record cpu := Cpu {
  apicid : Z;
  ncli : Z;                     (* depth of pushcli nesting *)
  intena : Z;                   (* were interrupts enabled before pushcli? *)
  cproc : option nat;           (* the process running on this cpu or null *)
}.

(** [struct spinlock] *)
Record spinlock := Spinlock {
  locked : Z;
  lname : string;
  lcpu : option nat;            (* index in [cpus] of the cpu holding the lock *)
  pcs : list Z;
}.

Record mach := Mach {
  cpus : list cpu;
  eflags : list Z;
  lapic : list Z;
  locks : list spinlock;
}.

Definition set_cpus (f : list cpu → list cpu) (m : mach) : mach :=
  Mach (f (cpus m)) (eflags m) (lapic m) (locks m).
Definition set_eflags (f : list Z → list Z) (m : mach) : mach :=
  Mach (cpus m) (f (eflags m)) (lapic m) (locks m).
Definition set_locks (f : list spinlock → list spinlock) (m : mach) : mach :=
  Mach (cpus m) (eflags m) (lapic m) (f (locks m)).

Definition with_ncli (n : Z) (c : cpu) : cpu := Cpu (apicid c) n (intena c) (cproc c).
Definition with_intena (i : Z) (c : cpu) : cpu := Cpu (apicid c) (ncli c) i (cproc c).
Definition with_cproc (p : option nat) (c : cpu) : cpu := Cpu (apicid c) (ncli c) (intena c) p.

(** ** Hardware access: x86.h, lapic.c *)

Definition readeflags (h : nat) : M mach Z :=
  m ← get; of_option (Undef "no such cpu") (eflags m !! h).
Definition cli (h : nat) : M mach unit :=
  modify (set_eflags (alter (λ e, Z.land e (not32 FL_IF)) h)).
Definition sti (h : nat) : M mach unit :=
  modify (set_eflags (alter (λ e, Z.lor e FL_IF) h)).
Definition lapicid (h : nat) : M mach Z :=
  m ← get; of_option (Undef "no such cpu") (lapic m !! h).

Definition interrupts_on (e : Z) : bool := negb (Z.land e FL_IF =? 0).

(** ** proc.c: mycpu *)

Definition mycpu (h : nat) : M mach nat :=
  e ← readeflags h;
  if interrupts_on e then panic "mycpu called with interrupts enabled\n"
  else
    id ← lapicid h;
    m ← get;
    match list_find (λ c, apicid c = id) (cpus m) with
    | Some (i, _) => mret i
    | None => panic "unknown apicid\n"
    end.

(** Read and update the [struct cpu] that [mycpu()] designates. *)
Definition mycpu_get (h : nat) : M mach cpu :=
  i ← mycpu h; m ← get; of_option (Undef "cpus") (cpus m !! i).
Definition mycpu_update (h : nat) (f : cpu → cpu) : M mach unit :=
  i ← mycpu h; modify (set_cpus (alter f i)).

(** ** spinlock.c *)

Definition initlock (name : string) (lk : spinlock) : spinlock :=
  Spinlock 0 name None (pcs lk).

Definition pushcli (h : nat) : M mach unit :=
  e ← readeflags h;
  cli h;;
  c ← mycpu_get h;
  when (ncli c =? 0) (mycpu_update h (with_intena (Z.land e FL_IF)));;
  mycpu_update h (λ c, with_ncli (ncli c + 1) c).

Definition popcli (h : nat) : M mach unit :=
  e ← readeflags h;
  if interrupts_on e then panic "popcli - interruptible"
  else
    mycpu_update h (λ c, with_ncli (ncli c - 1) c);;
    c ← mycpu_get h;
    if ncli c <? 0 then panic "popcli"
    else when ((ncli c =? 0) && negb (intena c =? 0)) (sti h).

(** Record the current call stack by following the %ebp chain in the memory
    [rd], which gives the word stored at an address. *)
Fixpoint callerpcs_loop (rd : Z → Z) (ebp : Z) (n : nat) : list Z :=
  match n with
  | O => []
  | S k =>
      if (ebp =? 0) || (ebp <? KERNBASE) || (ebp =? 4294967295) then replicate (S k) 0
      else rd (ebp + 4) :: callerpcs_loop rd (rd ebp) k
  end.
Definition getcallerpcs (rd : Z → Z) (v : Z) : list Z := callerpcs_loop rd (v -u 8) 10.

Definition get_lock (lk : nat) : M mach spinlock :=
  m ← get; of_option (Undef "lock") (locks m !! lk).

(** The source reads the two fields of the lock one after the other; here they
    are read at once.  The result is the same, as no other CPU stores this
    CPU's address in [cpu] or changes a lock that this CPU holds. *)
Definition holding (h lk : nat) : M mach bool :=
  pushcli h;;
  l ← get_lock lk;
  i ← mycpu h;
  popcli h;;
  mret (negb (locked l =? 0) && bool_decide (lcpu l = Some i)).

(** [acquire], cut at the points where the memory of the lock is accessed. *)
Definition acquire_enter (h lk : nat) : M mach unit :=
  pushcli h;;
  r ← holding h lk;
  if r : bool then panic "acquire" else mret tt.

(** [xchg(&lk->locked, 1)]: the old value. *)
Definition acquire_xchg (lk : nat) : M mach Z :=
  l ← get_lock lk;
  modify (set_locks (alter (λ l, Spinlock 1 (lname l) (lcpu l) (pcs l)) lk));;
  mret (locked l).

Definition acquire_record (rd : Z → Z) (v : Z) (h lk : nat) : M mach unit :=
  i ← mycpu h;
  modify (set_locks (alter (λ l, Spinlock (locked l) (lname l) (Some i) (getcallerpcs rd v)) lk)).

(** [acquire] when run alone: a lock that is taken keeps it spinning. *)
Definition acquire (rd : Z → Z) (v : Z) (h lk : nat) : M mach unit :=
  acquire_enter h lk;;
  old ← acquire_xchg lk;
  if negb (old =? 0) then fail (Blocked "spin")
  else acquire_record rd v h lk.

Definition release_enter (h lk : nat) : M mach unit :=
  r ← holding h lk;
  if negb r then panic "release"
  else modify (set_locks (alter (λ l, Spinlock (locked l) (lname l) None (<[0%nat:=0]> (pcs l))) lk)).

Definition release_store (lk : nat) : M mach unit :=
  modify (set_locks (alter (λ l, Spinlock 0 (lname l) (lcpu l) (pcs l)) lk)).

Definition release (h lk : nat) : M mach unit :=
  release_enter h lk;; release_store lk;; popcli h.

(** ** The sequential routines as equations *)

Lemma interrupts_off e : interrupts_on e = false ↔ Z.land e FL_IF = 0.
Proof. unfold interrupts_on. by rewrite negb_false_iff, Z.eqb_eq. Qed.

Lemma cli_clears e : interrupts_on (Z.land e (not32 FL_IF)) = false.
Proof.
  apply interrupts_off. rewrite <-Z.land_assoc.
  change (Z.land (not32 FL_IF) FL_IF) with 0. apply Z.land_0_r.
Qed.

Lemma cli_idle e : is_u32 e → interrupts_on e = false → Z.land e (not32 FL_IF) = e.
Proof.
  intros He Hoff. apply interrupts_off in Hoff.
  assert (Z.land e (not32 FL_IF) = Z.land e (Z.lxor (Z.ones 32) FL_IF)) as -> by done.
  apply Z.bits_inj'. intros i Hi.
  rewrite Z.land_spec, Z.lxor_spec, Z.testbit_ones_nonneg by lia.
  destruct (Z.testbit e i) eqn:Hb; [|done]. cbn [andb].
  assert (Z.testbit FL_IF i = false) as ->.
  { apply (f_equal (λ z, Z.testbit z i)) in Hoff.
    by rewrite Z.land_spec, Hb, Z.bits_0 in Hoff. }
  destruct (Z.ltb_spec i 32) as [|Hge]; [done|exfalso].
  by rewrite (u32_bits_above e i) in Hb.
Qed.

Lemma sti_cli e : is_u32 e → interrupts_on e = true → Z.lor (Z.land e (not32 FL_IF)) FL_IF = e.
Proof.
  intros He Hon. unfold interrupts_on in Hon. apply negb_true_iff, Z.eqb_neq in Hon.
  assert (H9 : Z.testbit e 9 = true).
  { destruct (Z.testbit e 9) eqn:Hb; [done|]. exfalso. apply Hon.
    apply Z.bits_inj'. intros i Hi. rewrite Z.land_spec, Z.bits_0.
    change FL_IF with (2 ^ 9). destruct (decide (i = 9)) as [->|Hne].
    - by rewrite Hb.
    - rewrite Z.pow2_bits_false by lia. apply andb_false_r. }
  apply Z.bits_inj'. intros i Hi. rewrite Z.lor_spec, Z.land_spec.
  change (not32 FL_IF) with (Z.lxor (Z.ones 32) (2 ^ 9)). change FL_IF with (2 ^ 9).
  rewrite Z.lxor_spec, Z.testbit_ones_nonneg by lia.
  destruct (decide (i = 9)) as [->|Hne].
  - by rewrite H9, Z.pow2_bits_true by lia.
  - rewrite Z.pow2_bits_false by lia. rewrite xorb_false_r, orb_false_r.
    destruct (Z.testbit e i) eqn:Hb; [|done]. cbn [andb].
    destruct (Z.ltb_spec i 32) as [|Hge]; [done|exfalso].
    by rewrite (u32_bits_above e i) in Hb.
Qed.

(** Every hardware thread finds its own [struct cpu]. *)
Record mach_ok (m : mach) : Prop := {
  ok_eflags : length (eflags m) = length (cpus m);
  ok_lapic : ∀ h c, cpus m !! h = Some c → lapic m !! h = Some (apicid c);
  ok_distinct : NoDup (apicid <$> cpus m);
  ok_u32 : Forall is_u32 (eflags m);
}.

Section routines.
Context (m : mach) (Hok : mach_ok m) (h : nat).
Context (c : cpu) (Hc : cpus m !! h = Some c) (e : Z) (He : eflags m !! h = Some e).

Lemma find_mycpu : list_find (λ c', apicid c' = apicid c) (cpus m) = Some (h, c).
Proof.
  apply list_find_unique; [done|done|]. intros j y Hj Hy.
  eapply (NoDup_lookup (apicid <$> cpus m)); [apply Hok| |].
  - rewrite list_lookup_fmap, Hj. simpl. by rewrite Hy.
  - by rewrite list_lookup_fmap, Hc.
Qed.

Lemma mycpu_eq : interrupts_on e = false → mycpu h m = Ok h m.
Proof using Hok Hc He.
  intros Hoff. unfold mycpu, readeflags, lapicid, mbind, M_bind, get, of_option.
  rewrite He. cbn. rewrite Hoff. cbn.
  rewrite (ok_lapic m Hok h c Hc). cbn. by rewrite find_mycpu.
Qed.
End routines.

(** The state after [pushcli] and after [popcli] by hardware thread [h]. *)
Definition pushed (e : Z) (c : cpu) : cpu :=
  Cpu (apicid c) (ncli c + 1) (if ncli c =? 0 then Z.land e FL_IF else intena c) (cproc c).
Definition push_mach (h : nat) (e : Z) (c : cpu) (m : mach) : mach :=
  Mach (<[h:=pushed e c]> (cpus m)) (<[h:=Z.land e (not32 FL_IF)]> (eflags m)) (lapic m) (locks m).
Definition pop_eflags (e : Z) (c : cpu) : Z :=
  if (ncli c - 1 =? 0) && negb (intena c =? 0) then Z.lor e FL_IF else e.
Definition pop_mach (h : nat) (e : Z) (c : cpu) (m : mach) : mach :=
  Mach (<[h:=with_ncli (ncli c - 1) c]> (cpus m)) (<[h:=pop_eflags e c]> (eflags m)) (lapic m) (locks m).

Lemma insert_apicid (l : list cpu) h c c' :
  l !! h = Some c → apicid c' = apicid c → apicid <$> <[h:=c']> l = apicid <$> l.
Proof.
  intros Hc Ha. rewrite list_fmap_insert, Ha. apply list_insert_id.
  by rewrite list_lookup_fmap, Hc.
Qed.

Lemma mach_ok_update m h c c' e' ls :
  mach_ok m → cpus m !! h = Some c → apicid c' = apicid c → is_u32 e' →
  mach_ok (Mach (<[h:=c']> (cpus m)) (<[h:=e']> (eflags m)) (lapic m) ls).
Proof.
  intros [Hl Hap Hd Hu] Hc Ha He. constructor; simpl.
  - by rewrite !length_insert.
  - intros j d Hj. rewrite list_lookup_insert in Hj. case_decide as Hij.
    + destruct Hij as [-> ?]. simplify_eq. rewrite Ha. eauto.
    + eauto.
  - by rewrite (insert_apicid _ _ c).
  - by apply Forall_insert.
Qed.

Lemma mach_ok_locks m f : mach_ok m → mach_ok (set_locks f m).
Proof. by intros [????]. Qed.

Lemma ok_eflags_u32 m h e : mach_ok m → eflags m !! h = Some e → is_u32 e.
Proof. intros Hok He. exact (Forall_lookup_1 _ _ _ _ (ok_u32 m Hok) He). Qed.

Lemma FL_IF_u32 : is_u32 FL_IF.
Proof. unfold is_u32, FL_IF. lia. Qed.
#[local] Hint Resolve ok_eflags_u32 FL_IF_u32 : mach.

Lemma mycpu_get_eq m h c e :
  mach_ok m → cpus m !! h = Some c → eflags m !! h = Some e → interrupts_on e = false →
  mycpu_get h m = Ok c m.
Proof.
  intros Hok Hc He Hoff. unfold mycpu_get, mbind, M_bind.
  rewrite (mycpu_eq m Hok h c Hc e He Hoff). cbn. by rewrite Hc.
Qed.

Lemma mycpu_update_eq m h f c e :
  mach_ok m → cpus m !! h = Some c → eflags m !! h = Some e → interrupts_on e = false →
  mycpu_update h f m = Ok tt (Mach (<[h:=f c]> (cpus m)) (eflags m) (lapic m) (locks m)).
Proof.
  intros Hok Hc He Hoff. unfold mycpu_update, mbind, M_bind.
  rewrite (mycpu_eq m Hok h c Hc e He Hoff).
  unfold modify, set_cpus. by rewrite (alter_insert _ _ _ c).
Qed.

Lemma readeflags_eq m h e : eflags m !! h = Some e → readeflags h m = Ok e m.
Proof. intros He. unfold readeflags, mbind, M_bind. cbn. by rewrite He. Qed.

Lemma mach_ok_cpu m h c c' :
  mach_ok m → cpus m !! h = Some c → apicid c' = apicid c →
  mach_ok (Mach (<[h:=c']> (cpus m)) (eflags m) (lapic m) (locks m)).
Proof.
  intros [Hl Hap Hd Hu] Hc Ha. constructor; simpl; [by rewrite length_insert| | |done].
  - intros j d Hj. rewrite list_lookup_insert in Hj. case_decide as Hij.
    + destruct Hij as [-> ?]. simplify_eq. rewrite Ha. eauto.
    + eauto.
  - by rewrite (insert_apicid _ _ c).
Qed.

Lemma mach_ok_eflags m h e :
  mach_ok m → is_u32 e → mach_ok (Mach (cpus m) (<[h:=e]> (eflags m)) (lapic m) (locks m)).
Proof.
  intros [Hl Hap Hd Hu] He. constructor; simpl; [by rewrite length_insert|done|done|].
  by apply Forall_insert.
Qed.

Lemma pushcli_eq m h c e :
  mach_ok m → cpus m !! h = Some c → eflags m !! h = Some e →
  pushcli h m = Ok tt (push_mach h e c m).
Proof.
  intros Hok Hc He. pose proof (ok_eflags_u32 m h e Hok He) as Hu.
  pose proof (lookup_lt_Some _ _ _ Hc) as Hlt.
  pose proof (lookup_lt_Some _ _ _ He) as Hlte.
  pose proof (cli_clears e) as Hoff.
  unfold pushcli, push_mach, pushed. set (e' := Z.land e (not32 FL_IF)) in *.
  assert (is_u32 e') by (unfold e'; auto with mach).
  unfold mbind at 1, M_bind at 1. rewrite (readeflags_eq m h e He).
  unfold cli, set_eflags, mbind at 1, M_bind at 1, modify at 1.
  rewrite (alter_insert _ _ _ e) by done. fold e'.
  set (m1 := Mach (cpus m) (<[h:=e']> (eflags m)) (lapic m) (locks m)).
  assert (Hok1 : mach_ok m1) by (by apply mach_ok_eflags).
  assert (He1 : eflags m1 !! h = Some e') by (by apply list_lookup_insert_eq).
  unfold mbind at 1, M_bind at 1. rewrite (mycpu_get_eq m1 h c e') by done.
  unfold mbind at 1, M_bind at 1.
  destruct (Z.eqb_spec (ncli c) 0) as [Hz|Hz]; cbn [when].
  - rewrite (mycpu_update_eq m1 h _ c e') by done.
    rewrite (mycpu_update_eq _ h _ (with_intena (Z.land e FL_IF) c) e');
      [|by eapply mach_ok_cpu|by apply list_lookup_insert_eq|done|done].
    simpl. by rewrite list_insert_insert_eq.
  - cbn. by rewrite (mycpu_update_eq m1 h _ c e').
Qed.

Lemma popcli_eq m h c e :
  mach_ok m → cpus m !! h = Some c → eflags m !! h = Some e →
  interrupts_on e = false → 0 < ncli c →
  popcli h m = Ok tt (pop_mach h e c m).
Proof.
  intros Hok Hc He Hoff Hn.
  pose proof (lookup_lt_Some _ _ _ Hc) as Hlt.
  pose proof (lookup_lt_Some _ _ _ He) as Hlte.
  unfold popcli, pop_mach, pop_eflags.
  unfold mbind at 1, M_bind at 1. rewrite (readeflags_eq m h e He), Hoff.
  unfold mbind at 1, M_bind at 1. rewrite (mycpu_update_eq m h _ c e) by done.
  unfold mbind at 1, M_bind at 1.
  erewrite mycpu_get_eq;
    [|by eapply mach_ok_cpu|by apply list_lookup_insert_eq|done|done].
  cbn [with_ncli ncli intena]. rewrite (proj2 (Z.ltb_ge _ _)) by lia.
  destruct ((ncli c - 1 =? 0) && negb (intena c =? 0)); cbn [when].
  - unfold sti, set_eflags, modify. cbn [eflags]. by rewrite (alter_insert _ _ _ e).
  - cbn. by rewrite (list_insert_id (eflags m)).
Qed.

Lemma push_mach_ok m h c e :
  mach_ok m → cpus m !! h = Some c → eflags m !! h = Some e →
  mach_ok (push_mach h e c m) ∧
  cpus (push_mach h e c m) !! h = Some (pushed e c) ∧
  eflags (push_mach h e c m) !! h = Some (Z.land e (not32 FL_IF)).
Proof.
  intros Hok Hc He. pose proof (ok_eflags_u32 m h e Hok He) as Hu. split_and!.
  - apply (mach_ok_update m h c); auto with mach.
  - apply list_lookup_insert_eq. by eapply lookup_lt_Some.
  - apply list_lookup_insert_eq. by eapply lookup_lt_Some.
Qed.

Lemma pop_mach_ok m h c e :
  mach_ok m → cpus m !! h = Some c → eflags m !! h = Some e →
  mach_ok (pop_mach h e c m) ∧
  cpus (pop_mach h e c m) !! h = Some (with_ncli (ncli c - 1) c) ∧
  eflags (pop_mach h e c m) !! h = Some (pop_eflags e c).
Proof.
  intros Hok Hc He. pose proof (ok_eflags_u32 m h e Hok He) as Hu. split_and!.
  - apply (mach_ok_update m h c); [done|done|done|].
    unfold pop_eflags. destruct (_ && _); auto with mach.
  - apply list_lookup_insert_eq. by eapply lookup_lt_Some.
  - apply list_lookup_insert_eq. by eapply lookup_lt_Some.
Qed.

(** A nested pushcli/popcli pair changes nothing. *)
Lemma push_pop_nested m h c e :
  mach_ok m → cpus m !! h = Some c → eflags m !! h = Some e →
  interrupts_on e = false → 0 < ncli c →
  (pushcli h;; popcli h) m = Ok tt m.
Proof.
  intros Hok Hc He Hoff Hn. pose proof (ok_eflags_u32 m h e Hok He) as Hu.
  pose proof (lookup_lt_Some _ _ _ Hc) as Hlt.
  pose proof (lookup_lt_Some _ _ _ He) as Hlte.
  unfold mbind, M_bind. rewrite (pushcli_eq m h c e) by done.
  unfold push_mach. rewrite (cli_idle e) by done.
  rewrite (list_insert_id (eflags m)) by done.
  rewrite (popcli_eq _ h (pushed e c) e); simpl.
  - unfold pop_mach, pop_eflags, pushed. simpl.
    rewrite (proj2 (Z.eqb_neq (ncli c + 1 - 1) 0)) by lia. simpl.
    rewrite list_insert_insert_eq, (list_insert_id (eflags m)) by done.
    rewrite (proj2 (Z.eqb_neq (ncli c) 0)) by lia.
    unfold with_ncli. simpl. replace (ncli c + 1 - 1) with (ncli c) by lia.
    destruct c as [a n i p]. simpl. rewrite list_insert_id by done. by destruct m.
  - by eapply mach_ok_cpu.
  - by apply list_lookup_insert_eq.
  - done.
  - done.
  - lia.
Qed.

(** [holding] with interrupts already off only looks at the lock. *)
Lemma holding_nested m h c e lk l :
  mach_ok m → cpus m !! h = Some c → eflags m !! h = Some e →
  interrupts_on e = false → 0 < ncli c → locks m !! lk = Some l →
  holding h lk m = Ok (negb (locked l =? 0) && bool_decide (lcpu l = Some h)) m.
Proof.
  intros Hok Hc He Hoff Hn Hl.
  pose proof (push_pop_nested m h c e Hok Hc He Hoff Hn) as Hpp.
  pose proof (ok_eflags_u32 m h e Hok He) as Hu.
  pose proof (lookup_lt_Some _ _ _ Hc) as Hlt.
  unfold holding. unfold mbind at 1, M_bind at 1.
  unfold mbind, M_bind in Hpp. rewrite (pushcli_eq m h c e) in Hpp |- * by done.
  unfold get_lock, mbind at 1, M_bind at 1, mbind at 1, M_bind at 1.
  unfold get at 1, of_option at 1. unfold push_mach at 1. cbn [locks]. rewrite Hl. cbn [mret M_ret].
  unfold mbind at 1, M_bind at 1.
  destruct (push_mach_ok m h c e Hok Hc He) as (Hok'&Hc'&He').
  rewrite (mycpu_eq _ Hok' h _ Hc' _ He' (cli_clears e)).
  unfold mbind at 1, M_bind at 1. by rewrite Hpp.
Qed.

(** ** Interleaving

    What a hardware thread is doing with locks: nothing in progress, or at one
    of the points inside [acquire] and [release]. *)

Inductive lock_op :=
| Idle
| Spinning (lk : nat)           (* in acquire, before a successful xchg *)
| Got (lk : nat)                (* xchg returned 0, lk->cpu not yet recorded *)
| Clearing (lk : nat)           (* in release, lk->cpu cleared, before the store of 0 *)
| Popping.                      (* in release, before popcli *)

Record thread := Thread { held : list nat; op : lock_op }.

Record sys := Sys { smach : mach; threads : list thread }.

(** The threads take turns; a step runs one thread to its next point.  A
    routine that panics has no step. *)
Inductive lock_step : sys → sys → Prop :=
| step_acquire m ts h t lk m' :
    ts !! h = Some t → op t = Idle → acquire_enter h lk m = Ok tt m' →
    lock_step (Sys m ts) (Sys m' (<[h:=Thread (held t) (Spinning lk)]> ts))
| step_spin m ts h t lk old m' :
    ts !! h = Some t → op t = Spinning lk → acquire_xchg lk m = Ok old m' → old ≠ 0 →
    lock_step (Sys m ts) (Sys m' ts)
| step_xchg m ts h t lk m' :
    ts !! h = Some t → op t = Spinning lk → acquire_xchg lk m = Ok 0 m' →
    lock_step (Sys m ts) (Sys m' (<[h:=Thread (held t) (Got lk)]> ts))
| step_record m ts h t lk rd v m' :
    ts !! h = Some t → op t = Got lk → acquire_record rd v h lk m = Ok tt m' →
    lock_step (Sys m ts) (Sys m' (<[h:=Thread (lk :: held t) Idle]> ts))
| step_release m ts h t lk m' :
    ts !! h = Some t → op t = Idle → release_enter h lk m = Ok tt m' →
    lock_step (Sys m ts) (Sys m' (<[h:=Thread (held t) (Clearing lk)]> ts))
| step_store m ts h t lk m' :
    ts !! h = Some t → op t = Clearing lk → release_store lk m = Ok tt m' →
    lock_step (Sys m ts)
      (Sys m' (<[h:=Thread (filter (λ x, x ≠ lk) (held t)) Popping]> ts))
| step_pop m ts h t m' :
    ts !! h = Some t → op t = Popping → popcli h m = Ok tt m' →
    lock_step (Sys m ts) (Sys m' (<[h:=Thread (held t) Idle]> ts))
| step_sti m ts h t m' :
    ts !! h = Some t → op t = Idle → held t = [] → sti h m = Ok tt m' →
    lock_step (Sys m ts) (Sys m' ts)
| step_cli m ts h t m' :
    ts !! h = Some t → cli h m = Ok tt m' →
    lock_step (Sys m ts) (Sys m' ts).

(** At boot every lock is free and no thread holds any. *)
Definition boot_lock (l : spinlock) : Prop := locked l = 0 ∧ lcpu l = None.
Definition lock_init (s : sys) : Prop :=
  mach_ok (smach s) ∧
  Forall (λ c, ncli c = 0) (cpus (smach s)) ∧
  Forall boot_lock (locks (smach s)) ∧
  threads s = replicate (length (cpus (smach s))) (Thread [] Idle).

(** *** The invariant *)

Definition pending (o : lock_op) : Z :=
  match o with Idle | Clearing _ => 0 | Spinning _ | Got _ | Popping => 1 end.

Definition owns (t : thread) (lk : nat) : Prop := lk ∈ held t ∨ op t = Got lk.
Definition recorded (t : thread) (lk : nat) : Prop := lk ∈ held t ∧ op t ≠ Clearing lk.

(** What holds of each thread on its own. *)
Record thread_ok (nlocks : nat) (c : cpu) (e : Z) (t : thread) : Prop := {
  th_ncli : ncli c = Z.of_nat (length (held t)) + pending (op t);
  th_off : 0 < ncli c → interrupts_on e = false;
  th_nodup : NoDup (held t);
  th_range : ∀ lk, owns t lk → (lk < nlocks)%nat;
  th_got : ∀ lk, op t = Got lk ∨ op t = Spinning lk → lk ∉ held t;
  th_clear : ∀ lk, op t = Clearing lk → lk ∈ held t;
}.

(** What holds of each lock. *)
Record lock_ok (ts : list thread) (lk : nat) (l : spinlock) : Prop := {
  lk_owner : locked l = 0 ↔ ∀ h t, ts !! h = Some t → ¬ owns t lk;
  lk_unique : ∀ h1 h2 t1 t2, ts !! h1 = Some t1 → ts !! h2 = Some t2 →
    owns t1 lk → owns t2 lk → h1 = h2;
  lk_cpu : ∀ h t, ts !! h = Some t → (lcpu l = Some h ↔ recorded t lk);
}.

Record lock_inv (s : sys) : Prop := {
  inv_mach : mach_ok (smach s);
  inv_len : length (threads s) = length (cpus (smach s));
  inv_threads : ∀ h c e t, cpus (smach s) !! h = Some c → eflags (smach s) !! h = Some e →
    threads s !! h = Some t → thread_ok (length (locks (smach s))) c e t;
  inv_locks : ∀ lk l, locks (smach s) !! lk = Some l → lock_ok (threads s) lk l;
}.

Lemma lock_init_inv s : lock_init s → lock_inv s.
Proof.
  intros (Hok&Hn&Hb&Ht). constructor; [done|..].
  - by rewrite Ht, length_replicate.
  - intros h c e t Hc He Hth. rewrite Ht in Hth.
    apply lookup_replicate in Hth as [-> ?].
    assert (ncli c = 0) by exact (Forall_lookup_1 _ _ _ _ Hn Hc).
    constructor; simpl; try done.
    + lia.
    + apply NoDup_nil_2.
    + intros lk [Hin|?]; [by apply not_elem_of_nil in Hin|done].
    + intros lk [?|?]; done.
  - intros lk l Hl. destruct (Forall_lookup_1 _ _ _ _ Hb Hl) as [Hl0 Hlc].
    rewrite Ht. constructor.
    + split; [|done]. intros _ h t Hth [Hin|?]; apply lookup_replicate in Hth as [-> ?]; [|done].
      by apply not_elem_of_nil in Hin.
    + intros h1 h2 t1 t2 H1 _ [Hin|?]; apply lookup_replicate in H1 as [-> ?]; [|done].
      by apply not_elem_of_nil in Hin.
    + intros h t Hth. apply lookup_replicate in Hth as [-> ?]. rewrite Hlc.
      split; [done|]. intros [Hin _]. by apply not_elem_of_nil in Hin.
Qed.

(** *** The routines in a machine satisfying the invariant *)

Definition held_by (l : spinlock) (h : nat) : bool :=
  negb (locked l =? 0) && bool_decide (lcpu l = Some h).

Lemma get_lock_None lk m : locks m !! lk = None → get_lock lk m = Fail (Undef "lock").
Proof. intros Hl. unfold get_lock, mbind, M_bind, get, of_option. by rewrite Hl. Qed.

Lemma acquire_enter_eq m h c e lk :
  mach_ok m → cpus m !! h = Some c → eflags m !! h = Some e → 0 ≤ ncli c →
  acquire_enter h lk m =
    match locks m !! lk with
    | Some l => if held_by l h then Fail (Panic "acquire") else Ok tt (push_mach h e c m)
    | None => Fail (Undef "lock")
    end.
Proof.
  intros Hok Hc He Hn. unfold acquire_enter. unfold mbind at 1, M_bind at 1.
  rewrite (pushcli_eq m h c e) by done.
  destruct (push_mach_ok m h c e Hok Hc He) as (Hok'&Hc'&He').
  destruct (locks m !! lk) as [l|] eqn:Hl.
  - unfold mbind at 1, M_bind at 1.
    rewrite (holding_nested _ h _ _ lk l Hok' Hc' He' (cli_clears e)); [|simpl; lia|done].
    unfold held_by. by destruct (_ && _).
  - unfold mbind at 1, M_bind at 1, holding. unfold mbind at 1, M_bind at 1.
    rewrite (pushcli_eq _ _ _ _ Hok' Hc' He'). unfold mbind at 1, M_bind at 1.
    by rewrite get_lock_None.
Qed.

Lemma release_enter_eq m h c e lk l :
  mach_ok m → cpus m !! h = Some c → eflags m !! h = Some e →
  interrupts_on e = false → 0 < ncli c → locks m !! lk = Some l →
  release_enter h lk m =
    if held_by l h
    then Ok tt (set_locks (<[lk:=Spinlock (locked l) (lname l) None (<[0%nat:=0]> (pcs l))]>) m)
    else Fail (Panic "release").
Proof.
  intros Hok Hc He Hoff Hn Hl. unfold release_enter, mbind, M_bind.
  rewrite (holding_nested _ h c e lk l) by done. fold (held_by l h).
  destruct (held_by l h); cbn [negb]; [|done].
  unfold modify, set_locks. by rewrite (alter_insert _ _ _ l).
Qed.

(** Outside any critical section [release] panics, whatever the lock. *)
Lemma release_enter_idle m h c e lk l m' :
  mach_ok m → cpus m !! h = Some c → eflags m !! h = Some e → ncli c = 0 →
  locks m !! lk = Some l → held_by l h = false → release_enter h lk m ≠ Ok tt m'.
Proof.
  intros Hok Hc He Hn Hl Hh. unfold release_enter, holding.
  unfold mbind at 1, M_bind at 1, mbind at 1, M_bind at 1.
  rewrite (pushcli_eq m h c e) by done.
  destruct (push_mach_ok m h c e Hok Hc He) as (Hok'&Hc'&He').
  unfold mbind at 1, M_bind at 1, get_lock at 1, mbind at 1, M_bind at 1, get at 1, of_option at 1.
  cbn [push_mach locks]. rewrite Hl. cbn [mret M_ret].
  unfold mbind at 1, M_bind at 1. rewrite (mycpu_eq _ Hok' h _ Hc' _ He' (cli_clears e)).
  unfold mbind at 1, M_bind at 1.
  rewrite (popcli_eq _ h _ _ Hok' Hc' He' (cli_clears e)) by (simpl; lia).
  cbn [mret M_ret]. fold (held_by l h). by rewrite Hh.
Qed.

Lemma lock_ok_other ts lk l h t t' :
  lock_ok ts lk l → ts !! h = Some t →
  (owns t' lk ↔ owns t lk) → (recorded t' lk ↔ recorded t lk) →
  lock_ok (<[h:=t']> ts) lk l.
Proof.
  intros [Ho Hu Hcp] Ht Hown Hrec. pose proof (lookup_lt_Some _ _ _ Ht) as Hlt.
  assert (Hlook : ∀ h0 t0, <[h:=t']> ts !! h0 = Some t0 →
    ∃ t1, ts !! h0 = Some t1 ∧ (owns t0 lk ↔ owns t1 lk) ∧ (recorded t0 lk ↔ recorded t1 lk)).
  { intros h0 t0 H0. rewrite list_lookup_insert in H0. case_decide as Hc; [|eauto].
    destruct Hc as [-> _]. simplify_eq. eauto. }
  constructor.
  - rewrite Ho. split.
    + intros Hall h0 t0 H0. apply Hlook in H0 as (t1&H1&->&_). eauto.
    + intros Hall h0 t0 H0. destruct (decide (h0 = h)) as [->|Hne].
      * simplify_eq. rewrite <-Hown. apply (Hall h). by apply list_lookup_insert_eq.
      * apply (Hall h0). by rewrite list_lookup_insert_ne.
  - intros h1 h2 t1 t2 H1 H2 O1 O2.
    apply Hlook in H1 as (t1'&H1&E1&_). apply Hlook in H2 as (t2'&H2&E2&_).
    apply (Hu h1 h2 t1' t2'); [done|done|by apply E1|by apply E2].
  - intros h0 t0 H0. apply Hlook in H0 as (t1&H1&_&->). eauto.
Qed.

(** A lock that only thread [h] can own, after a step of [h]. *)
Lemma lock_ok_mine ts lk l' h t t' :
  ts !! h = Some t → (∀ h0 t0, ts !! h0 = Some t0 → h0 ≠ h → ¬ owns t0 lk) →
  (locked l' = 0 ↔ ¬ owns t' lk) → (lcpu l' = Some h ↔ recorded t' lk) →
  (∀ h0 t0, ts !! h0 = Some t0 → h0 ≠ h → lcpu l' ≠ Some h0) →
  lock_ok (<[h:=t']> ts) lk l'.
Proof.
  intros Ht Hno Hl Hrec Hcp. pose proof (lookup_lt_Some _ _ _ Ht) as Hlt.
  assert (Hlook : ∀ h0 t0, <[h:=t']> ts !! h0 = Some t0 →
    (h0 = h ∧ t0 = t') ∨ (h0 ≠ h ∧ ts !! h0 = Some t0)).
  { intros h0 t0 H0. rewrite list_lookup_insert in H0. case_decide as Hc.
    - destruct Hc as [-> _]. simplify_eq. by left.
    - right. split; [|done]. intros ->. by destruct Hc. }
  constructor.
  - rewrite Hl. split.
    + intros Hn h0 t0 H0. destruct (Hlook _ _ H0) as [[-> ->]|[??]]; eauto.
    + intros Hall. apply (Hall h). by apply list_lookup_insert_eq.
  - intros h1 h2 t1 t2 H1 H2 O1 O2.
    destruct (Hlook _ _ H1) as [[-> ->]|[??]]; [|by destruct (Hno h1 t1)].
    destruct (Hlook _ _ H2) as [[-> ->]|[??]]; [done|by destruct (Hno h2 t2)].
  - intros h0 t0 H0. destruct (Hlook _ _ H0) as [[-> ->]|[Hne H0']]; [done|].
    split; [intros Hc; by destruct (Hcp h0 t0 H0' Hne)|].
    intros [Hin _]. destruct (Hno h0 t0 H0' Hne). by left.
Qed.

(** Rebuild the invariant after thread [h] changed its own [struct cpu], its
    flags and possibly the locks. *)
Lemma lock_inv_update m ts h c e t c' e' t' ls :
  lock_inv (Sys m ts) → cpus m !! h = Some c → eflags m !! h = Some e → ts !! h = Some t →
  apicid c' = apicid c → is_u32 e' → length ls = length (locks m) →
  thread_ok (length (locks m)) c' e' t' →
  (∀ lk l, ls !! lk = Some l → lock_ok (<[h:=t']> ts) lk l) →
  lock_inv (Sys (Mach (<[h:=c']> (cpus m)) (<[h:=e']> (eflags m)) (lapic m) ls) (<[h:=t']> ts)).
Proof.
  intros [Hok Hlen Hth Hlk] Hc He Ht Ha Hu Hls Hth' Hlk'. simpl in *. constructor; simpl.
  - by apply (mach_ok_update m h c).
  - by rewrite !length_insert.
  - intros h0 c0 e0 t0 H1 H2 H3. rewrite Hls.
    rewrite list_lookup_insert in H1. rewrite list_lookup_insert in H2.
    rewrite list_lookup_insert in H3.
    pose proof (lookup_lt_Some _ _ _ Hc). pose proof (lookup_lt_Some _ _ _ He).
    pose proof (lookup_lt_Some _ _ _ Ht).
    destruct (decide (h = h0)) as [->|Hne].
    + rewrite decide_True in H1 by done. rewrite decide_True in H2 by done.
      rewrite decide_True in H3 by done. by simplify_eq.
    + rewrite decide_False in H1 by tauto. rewrite decide_False in H2 by tauto.
      rewrite decide_False in H3 by tauto. eauto.
  - done.
Qed.

Lemma lock_inv_thread m ts h t :
  lock_inv (Sys m ts) → ts !! h = Some t →
  ∃ c e, cpus m !! h = Some c ∧ eflags m !! h = Some e ∧ thread_ok (length (locks m)) c e t.
Proof.
  intros [Hok Hlen Hth Hlk] Ht. simpl in *. pose proof (lookup_lt_Some _ _ _ Ht) as Hlt.
  destruct (lookup_lt_is_Some_2 (cpus m) h) as [c Hc]; [lia|].
  destruct (lookup_lt_is_Some_2 (eflags m) h) as [e He].
  { rewrite (ok_eflags m Hok). lia. }
  eauto 10.
Qed.

Lemma held_by_recorded ts lk l h t :
  lock_ok ts lk l → ts !! h = Some t → held_by l h = true ↔ recorded t lk.
Proof.
  intros Hl Ht. unfold held_by.
  rewrite andb_true_iff, negb_true_iff, Z.eqb_neq, bool_decide_eq_true.
  rewrite (lk_cpu _ _ _ Hl h t Ht). split; [tauto|]. intros Hr. split; [|done].
  rewrite (lk_owner _ _ _ Hl). intros Hno. apply (Hno h t Ht). left. apply Hr.
Qed.

Lemma ncli_nonneg n c e t : thread_ok n c e t → 0 ≤ ncli c.
Proof. intros [-> _ _ _ _ _]. destruct (op t); simpl; lia. Qed.

(** *** Every step preserves the invariant *)

Section steps.
Context (m : mach) (ts : list thread) (Hinv : lock_inv (Sys m ts)).
Context (h : nat) (t : thread) (Ht : ts !! h = Some t).

(** The state of a step that leaves the [struct cpu] and flags alone. *)
Lemma lock_inv_locks t' ls c e :
  cpus m !! h = Some c → eflags m !! h = Some e →
  length ls = length (locks m) → thread_ok (length (locks m)) c e t' →
  (∀ lk l, ls !! lk = Some l → lock_ok (<[h:=t']> ts) lk l) →
  lock_inv (Sys (set_locks (λ _, ls) m) (<[h:=t']> ts)).
Proof using Hinv Ht.
  intros Hc He Hls Ht' Hl.
  pose proof (lock_inv_update m ts h c e t c e t' ls Hinv Hc He Ht eq_refl
    (ok_eflags_u32 m h e (inv_mach _ Hinv) He) Hls Ht' Hl) as H.
  by rewrite (list_insert_id (cpus m)), (list_insert_id (eflags m)) in H by done.
Qed.

Lemma preserve_acquire lk m' :
  op t = Idle → acquire_enter h lk m = Ok tt m' →
  lock_inv (Sys m' (<[h:=Thread (held t) (Spinning lk)]> ts)).
Proof using Hinv Ht.
  intros Hop Hrun. destruct (lock_inv_thread m ts h t Hinv Ht) as (c&e&Hc&He&Hth).
  pose proof (inv_mach _ Hinv) as Hok. simpl in Hok.
  rewrite (acquire_enter_eq m h c e lk Hok Hc He (ncli_nonneg _ _ _ _ Hth)) in Hrun.
  destruct (locks m !! lk) as [l|] eqn:Hl; [|done].
  destruct (held_by l h) eqn:Hh; [done|]. injection Hrun as <-.
  pose proof (inv_locks _ Hinv lk l Hl) as Hlok. simpl in Hlok.
  assert (Hnh : lk ∉ held t).
  { intros Hin. assert (held_by l h = true); [|congruence].
    apply (held_by_recorded ts lk l h t Hlok Ht). split; [done|]. by rewrite Hop. }
  destruct Hth as [Hn Hoff Hnd Hr Hg Hcl]. rewrite Hop in *.
  apply (lock_inv_update m ts h c e t); try done.
  - pose proof (ok_eflags_u32 m h e Hok He). auto with mach.
  - constructor; simpl; try done.
    + simpl in Hn. lia.
    + intros _. apply cli_clears.
    + intros lk0 [Hin|?]; [|done]. apply Hr. by left.
    + intros lk0 [?|?]; congruence.
  - intros lk0 l0 Hl0. apply (lock_ok_other ts lk0 l0 h t); [by apply Hinv|done| |].
    + unfold owns. rewrite Hop. simpl. split; intros [?|?]; auto; done.
    + unfold recorded. rewrite Hop. simpl. split; intros [??]; done.
Qed.

Lemma acquire_xchg_eq lk l :
  locks m !! lk = Some l →
  acquire_xchg lk m =
    Ok (locked l) (set_locks (λ _, <[lk:=Spinlock 1 (lname l) (lcpu l) (pcs l)]> (locks m)) m).
Proof.
  intros Hl. unfold acquire_xchg, get_lock, mbind, M_bind, get, of_option.
  rewrite Hl. cbn [mret M_ret]. unfold modify, set_locks. by rewrite (alter_insert _ _ _ l).
Qed.

Lemma preserve_spin lk old m' :
  op t = Spinning lk → acquire_xchg lk m = Ok old m' → old ≠ 0 → lock_inv (Sys m' ts).
Proof using Hinv Ht.
  intros Hop Hrun Hold. destruct (lock_inv_thread m ts h t Hinv Ht) as (c&e&Hc&He&Hth).
  destruct (locks m !! lk) as [l|] eqn:Hl.
  2: { unfold acquire_xchg, mbind, M_bind in Hrun. by rewrite get_lock_None in Hrun. }
  rewrite (acquire_xchg_eq lk l Hl) in Hrun. injection Hrun as <- <-.
  pose proof (lock_inv_locks t (<[lk:=Spinlock 1 (lname l) (lcpu l) (pcs l)]> (locks m))
    c e Hc He) as H.
  rewrite (list_insert_id ts) in H by done. apply H; [by rewrite length_insert|done|].
  intros lk0 l0 H0. rewrite list_lookup_insert in H0. case_decide as Hd.
  - destruct Hd as [-> _]. injection H0 as <-.
    destruct (inv_locks _ Hinv _ _ Hl) as [Ho Hu Hcp]. simpl in *.
    constructor; simpl; [|done|done]. rewrite <-Ho. split; [done|]. intros; congruence.
  - by apply Hinv.
Qed.

Lemma preserve_xchg lk m' :
  op t = Spinning lk → acquire_xchg lk m = Ok 0 m' →
  lock_inv (Sys m' (<[h:=Thread (held t) (Got lk)]> ts)).
Proof using Hinv Ht.
  intros Hop Hrun. destruct (lock_inv_thread m ts h t Hinv Ht) as (c&e&Hc&He&Hth).
  pose proof (lookup_lt_Some _ _ _ Ht) as Hlt.
  destruct (locks m !! lk) as [l|] eqn:Hl.
  2: { unfold acquire_xchg, mbind, M_bind in Hrun. by rewrite get_lock_None in Hrun. }
  rewrite (acquire_xchg_eq lk l Hl) in Hrun. injection Hrun as Hz <-.
  destruct Hth as [Hn Hoff Hnd Hr Hg Hcl]. rewrite Hop in *.
  pose proof (Hg lk (or_intror eq_refl)) as Hnh.
  apply (lock_inv_locks _ _ c e); [done|done|by rewrite length_insert| |].
  - constructor; simpl; try done.
    + intros lk0 [Hin|[= <-]]; [apply Hr; by left|by eapply lookup_lt_Some].
    + intros lk0 [[= <-]|?]; done.
  - intros lk0 l0 H0. rewrite list_lookup_insert in H0. case_decide as Hd.
    + destruct Hd as [<- _]. injection H0 as <-.
      destruct (inv_locks _ Hinv _ _ Hl) as [Ho Hu Hcp]. simpl in *.
      pose proof (proj1 Ho Hz) as Hfree.
      apply (lock_ok_mine ts lk _ h t); simpl.
      * done.
      * intros. eauto.
      * split; [done|]. intros Hno. destruct Hno. by right.
      * rewrite (Hcp h t Ht). unfold recorded. simpl. tauto.
      * intros h0 t0 H0 Hne. rewrite (Hcp h0 t0 H0). intros [Hin _].
        apply (Hfree h0 t0 H0). by left.
    + apply (lock_ok_other ts lk0 l0 h t); [by apply Hinv|done| |].
      * unfold owns. rewrite Hop. simpl. split; intros [?|Heq]; auto; [|done].
        injection Heq as ->. destruct Hd. split; [done|by eapply lookup_lt_Some].
      * unfold recorded. rewrite Hop. simpl. split; intros [??]; done.
Qed.

Lemma preserve_record lk rd v m' :
  op t = Got lk → acquire_record rd v h lk m = Ok tt m' →
  lock_inv (Sys m' (<[h:=Thread (lk :: held t) Idle]> ts)).
Proof using Hinv Ht.
  intros Hop Hrun. destruct (lock_inv_thread m ts h t Hinv Ht) as (c&e&Hc&He&Hth).
  pose proof (lookup_lt_Some _ _ _ Ht) as Hlt.
  destruct Hth as [Hn Hoff Hnd Hr Hg Hcl]. rewrite Hop in *. simpl in Hn.
  pose proof (Hr lk (or_intror Hop)) as Hlk.
  destruct (lookup_lt_is_Some_2 _ _ Hlk) as [l Hl].
  unfold acquire_record, mbind, M_bind in Hrun.
  rewrite (mycpu_eq m (inv_mach _ Hinv) h c Hc e He (Hoff ltac:(lia))) in Hrun.
  unfold modify, set_locks in Hrun. rewrite (alter_insert _ _ _ l) in Hrun by done.
  injection Hrun as <-. pose proof (Hg lk (or_introl eq_refl)) as Hnh.
  apply (lock_inv_locks _ _ c e); [done|done|by rewrite length_insert| |].
  - constructor; simpl; try done.
    + lia.
    + apply NoDup_cons_2; done.
    + intros lk0 [Hin|?]; [|done]. simpl in Hin. apply Hr.
      apply elem_of_cons in Hin as [->|?]; [by right|by left].
    + intros lk0 [?|?]; done.
  - intros lk0 l0 H0. rewrite list_lookup_insert in H0. case_decide as Hd.
    + destruct Hd as [<- _]. injection H0 as <-.
      destruct (inv_locks _ Hinv _ _ Hl) as [Ho Hu Hcp]. simpl in *.
      assert (locked l ≠ 0) by (rewrite Ho; intros Hno; apply (Hno h t Ht); by right).
      apply (lock_ok_mine ts lk _ h t); simpl.
      * done.
      * intros h0 t0 H0 Hne O0. apply Hne, (Hu h0 h t0 t H0 Ht O0). by right.
      * split; [done|]. intros Hno. destruct Hno. left. simpl. left.
      * split; [|done]. intros _. split; [left|done].
      * intros. congruence.
    + apply (lock_ok_other ts lk0 l0 h t); [by apply Hinv|done| |].
      * unfold owns. rewrite Hop. simpl. rewrite elem_of_cons.
        split; [intros [[->|?]|?]; [by right|by left|done]|].
        intros [?|[= ->]]; left; [by right|by left].
      * unfold recorded. rewrite Hop. simpl. rewrite elem_of_cons.
        split; [intros [[->|?] _]|intros [? _]; split; [by right|done]]; [|done].
        destruct Hd. split; [done|by eapply lookup_lt_Some].
Qed.

Lemma preserve_release lk m' :
  op t = Idle → release_enter h lk m = Ok tt m' →
  lock_inv (Sys m' (<[h:=Thread (held t) (Clearing lk)]> ts)).
Proof using Hinv Ht.
  intros Hop Hrun. destruct (lock_inv_thread m ts h t Hinv Ht) as (c&e&Hc&He&Hth).
  pose proof (inv_mach _ Hinv) as Hok. simpl in Hok.
  destruct (locks m !! lk) as [l|] eqn:Hl.
  2: { unfold release_enter, holding, mbind, M_bind in Hrun.
       rewrite (pushcli_eq m h c e) in Hrun by done. by rewrite get_lock_None in Hrun. }
  pose proof (inv_locks _ Hinv _ _ Hl) as Hlok. simpl in Hlok.
  pose proof (held_by_recorded ts lk l h t Hlok Ht) as Hiff.
  destruct Hth as [Hn Hoff Hnd Hr Hg Hcl]. rewrite Hop in *. simpl in Hn.
  destruct (decide (ncli c = 0)) as [Hz|Hz].
  { destruct (held_by l h) eqn:Hh.
    - destruct (proj1 Hiff eq_refl) as [Hin _]. destruct (held t); [|simpl in Hn; lia].
      by apply not_elem_of_nil in Hin.
    - by destruct (release_enter_idle m h c e lk l m' Hok Hc He Hz Hl Hh). }
  rewrite (release_enter_eq m h c e lk l) in Hrun by (done || lia || (apply Hoff; lia)).
  destruct (held_by l h) eqn:Hh; [|done]. injection Hrun as <-.
  destruct (proj1 Hiff eq_refl) as [Hin _].
  apply (lock_inv_locks _ _ c e); [done|done|by rewrite length_insert| |].
  - constructor; simpl; try done.
    + intros lk0 [?|?]; [|done]. apply Hr. by left.
    + intros lk0 [?|?]; done.
    + intros lk0 [= <-]. done.
  - intros lk0 l0 H0. rewrite list_lookup_insert in H0. case_decide as Hd.
    + destruct Hd as [<- _]. injection H0 as <-. destruct Hlok as [Ho Hu Hcp].
      assert (locked l ≠ 0) by (rewrite Ho; intros Hno; apply (Hno h t Ht); by left).
      apply (lock_ok_mine ts lk _ h t); simpl.
      * done.
      * intros h0 t0 H0 Hne O0. apply Hne, (Hu h0 h t0 t H0 Ht O0). by left.
      * split; [done|]. intros Hno. destruct Hno. by left.
      * split; [done|]. intros [_ Hne]. done.
      * intros. done.
    + apply (lock_ok_other ts lk0 l0 h t); [by apply Hinv|done| |].
      * unfold owns. rewrite Hop. simpl. split; intros [?|?]; auto; done.
      * unfold recorded. rewrite Hop. simpl. split; intros [? ?]; split; auto; try done.
        intros [= ->]. destruct Hd. split; [done|by eapply lookup_lt_Some].
Qed.

Lemma preserve_store lk m' :
  op t = Clearing lk → release_store lk m = Ok tt m' →
  lock_inv (Sys m' (<[h:=Thread (filter (λ x, x ≠ lk) (held t)) Popping]> ts)).
Proof using Hinv Ht.
  intros Hop Hrun. destruct (lock_inv_thread m ts h t Hinv Ht) as (c&e&Hc&He&Hth).
  destruct Hth as [Hn Hoff Hnd Hr Hg Hcl]. rewrite Hop in *. simpl in Hn.
  pose proof (Hcl lk eq_refl) as Hin. pose proof (Hr lk (or_introl Hin)) as Hlk.
  destruct (lookup_lt_is_Some_2 _ _ Hlk) as [l Hl].
  unfold release_store, modify, set_locks in Hrun.
  rewrite (alter_insert _ _ _ l) in Hrun by done. injection Hrun as <-.
  pose proof (length_filter_ne (held t) lk Hnd Hin) as Hlen.
  apply (lock_inv_locks _ _ c e); [done|done|by rewrite length_insert| |].
  - constructor; simpl; try done.
    + lia.
    + by apply NoDup_filter.
    + intros lk0 [H0|?]; [|done]. simpl in H0. apply list_elem_of_filter in H0 as [_ ?].
      apply Hr. by left.
    + intros lk0 [?|?]; done.
  - intros lk0 l0 H0. rewrite list_lookup_insert in H0. case_decide as Hd.
    + destruct Hd as [<- _]. injection H0 as <-.
      destruct (inv_locks _ Hinv _ _ Hl) as [Ho Hu Hcp]. simpl in *.
      apply (lock_ok_mine ts lk _ h t); simpl.
      * done.
      * intros h0 t0 H0 Hne O0. apply Hne, (Hu h0 h t0 t H0 Ht O0). by left.
      * split; [|done]. intros _ [H0|?]; [|done]. simpl in H0.
        by apply list_elem_of_filter in H0 as [? _].
      * rewrite (Hcp h t Ht). unfold recorded. rewrite Hop. simpl.
        split; [by intros [_ ?]|]. intros [H0 _]. by apply list_elem_of_filter in H0 as [? _].
      * intros h0 t0 H0 Hne. rewrite (Hcp h0 t0 H0). intros [Hin0 _].
        apply Hne, (Hu h0 h t0 t H0 Ht); by left.
    + assert (lk0 ≠ lk).
      { intros ->. destruct Hd. split; [done|by eapply lookup_lt_Some]. }
      apply (lock_ok_other ts lk0 l0 h t); [by apply Hinv|done| |].
      * unfold owns. rewrite Hop. simpl. rewrite list_elem_of_filter.
        split; intros [?|?]; try done; left; tauto.
      * unfold recorded. rewrite Hop. simpl. rewrite list_elem_of_filter.
        split; intros [? ?]; split; try done; try tauto. congruence.
Qed.

Lemma preserve_pop m' :
  op t = Popping → popcli h m = Ok tt m' →
  lock_inv (Sys m' (<[h:=Thread (held t) Idle]> ts)).
Proof using Hinv Ht.
  intros Hop Hrun. destruct (lock_inv_thread m ts h t Hinv Ht) as (c&e&Hc&He&Hth).
  pose proof (inv_mach _ Hinv) as Hok. simpl in Hok.
  destruct Hth as [Hn Hoff Hnd Hr Hg Hcl]. rewrite Hop in *. simpl in Hn.
  rewrite (popcli_eq m h c e) in Hrun by (done || lia || (apply Hoff; lia)).
  injection Hrun as <-. apply (lock_inv_update m ts h c e t); try done.
  - apply (ok_eflags_u32 (pop_mach h e c m) h);
      by apply (pop_mach_ok m h c e Hok Hc He).
  - constructor; simpl; try done.
    + lia.
    + intros Hpos. unfold pop_eflags. rewrite (proj2 (Z.eqb_neq (ncli c - 1) 0)) by lia.
      apply Hoff. lia.
    + intros lk0 [?|?]; [|done]. apply Hr. by left.
    + intros lk0 [?|?]; done.
  - intros lk0 l0 H0. apply (lock_ok_other ts lk0 l0 h t); [by apply Hinv|done| |].
    + unfold owns. rewrite Hop. simpl. split; intros [?|?]; auto; done.
    + unfold recorded. rewrite Hop. simpl. split; intros [??]; done.
Qed.

Lemma preserve_flags f m' :
  (∀ e, is_u32 e → is_u32 (f e)) →
  (held t = [] ∧ op t = Idle ∨ ∀ e, interrupts_on e = false → interrupts_on (f e) = false) →
  modify (set_eflags (alter f h)) m = Ok tt m' → lock_inv (Sys m' ts).
Proof using Hinv Ht.
  intros Hf Hsafe Hrun. destruct (lock_inv_thread m ts h t Hinv Ht) as (c&e&Hc&He&Hth).
  pose proof (inv_mach _ Hinv) as Hok. simpl in Hok.
  unfold modify, set_eflags in Hrun. rewrite (alter_insert _ _ _ e) in Hrun by done.
  injection Hrun as <-. pose proof (ok_eflags_u32 m h e Hok He) as Hu.
  pose proof (lock_inv_update m ts h c e t c (f e) t (locks m) Hinv Hc He Ht eq_refl
    (Hf e Hu) eq_refl) as H.
  rewrite (list_insert_id (cpus m)), (list_insert_id ts) in H by done. apply H.
  - destruct Hth as [Hn Hoff Hnd Hr Hg Hcl]. constructor; try done.
    intros Hpos. destruct Hsafe as [[Hh Ho]|Hs]; [|auto].
    rewrite Hh, Ho in Hn. simpl in Hn. lia.
  - intros. by apply Hinv.
Qed.
End steps.

Lemma lock_step_inv s s' : lock_inv s → lock_step s s' → lock_inv s'.
Proof.
  intros Hinv Hstep. destruct Hstep.
  - eapply preserve_acquire; eauto.
  - eapply preserve_spin; eauto.
  - eapply preserve_xchg; eauto.
  - eapply preserve_record; eauto.
  - eapply preserve_release; eauto.
  - eapply preserve_store; eauto.
  - eapply preserve_pop; eauto.
  - eapply preserve_flags; [eauto..| |eassumption]; [eauto with mach|by left].
  - eapply preserve_flags; [eauto..| |eassumption]; [eauto with mach|].
    right. intros. apply cli_clears.
Qed.

Lemma reachable_inv s0 s : lock_init s0 → rtc lock_step s0 s → lock_inv s.
Proof.
  intros H0 Hr. eapply rtc_invariant; [|by apply lock_init_inv|done].
  intros a b. apply lock_step_inv.
Qed.

(** ** Theorems *)

(** C4. Mutual exclusion: in every reachable state of any interleaving of the
    hardware threads, a lock is held by at most one thread, the lock's
    [locked] word is set, and the holder runs with interrupts disabled. *)
Theorem mutual_exclusion s0 s h t lk :
  lock_init s0 → rtc lock_step s0 s →
  threads s !! h = Some t → lk ∈ held t →
  (∀ h' t', threads s !! h' = Some t' → lk ∈ held t' → h' = h) ∧
  (∃ l, locks (smach s) !! lk = Some l ∧ locked l ≠ 0) ∧
  (∃ e, eflags (smach s) !! h = Some e ∧ interrupts_on e = false).
Proof.
  intros H0 Hr Ht Hin. pose proof (reachable_inv s0 s H0 Hr) as Hinv.
  destruct s as [m ts]. simpl in *.
  destruct (lock_inv_thread m ts h t Hinv Ht) as (c&e&Hc&He&Hth).
  pose proof (th_range _ _ _ _ Hth lk (or_introl Hin)) as Hlk.
  destruct (lookup_lt_is_Some_2 _ _ Hlk) as [l Hl].
  destruct (inv_locks _ Hinv lk l Hl) as [Ho Hu _]. simpl in *. split_and!.
  - intros h' t' Ht' Hin'. apply (Hu h' h t' t); [done|done|by left|by left].
  - exists l. split; [done|]. rewrite Ho. intros Hno. apply (Hno h t Ht). by left.
  - exists e. split; [done|]. apply (th_off _ _ _ _ Hth).
    rewrite (th_ncli _ _ _ _ Hth). destruct (held t); [by apply not_elem_of_nil in Hin|].
    destruct (op t); simpl; lia.
Qed.

(** The panics of [acquire], [release], [popcli] and [mycpu] mark exactly
    the misuses they name: in a reachable state an idle thread enters
    [acquire] unless it already holds the lock, enters [release] if and only
    if it holds the lock, and the [popcli] that ends a [release] succeeds. *)
Theorem lock_discipline s0 s h t lk l :
  lock_init s0 → rtc lock_step s0 s →
  threads s !! h = Some t → locks (smach s) !! lk = Some l →
  (op t = Idle →
    (lk ∈ held t → acquire_enter h lk (smach s) = Fail (Panic "acquire")) ∧
    (lk ∉ held t → ∃ m', acquire_enter h lk (smach s) = Ok tt m') ∧
    (lk ∈ held t ↔ ∃ m', release_enter h lk (smach s) = Ok tt m')) ∧
  (op t = Popping → ∃ m', popcli h (smach s) = Ok tt m').
Proof.
  intros H0 Hr Ht Hl. pose proof (reachable_inv s0 s H0 Hr) as Hinv.
  destruct s as [m ts]. simpl in *. pose proof (inv_mach _ Hinv) as Hok. simpl in Hok.
  destruct (lock_inv_thread m ts h t Hinv Ht) as (c&e&Hc&He&Hth).
  pose proof (inv_locks _ Hinv lk l Hl) as Hlok. simpl in Hlok.
  pose proof (held_by_recorded ts lk l h t Hlok Ht) as Hiff.
  pose proof (ncli_nonneg _ _ _ _ Hth) as Hnn. split.
  - intros Hop.
    assert (Hheld : held_by l h = true ↔ lk ∈ held t).
    { rewrite Hiff. unfold recorded. rewrite Hop. split; [tauto|]. by intros ?. }
    rewrite (acquire_enter_eq m h c e lk Hok Hc He Hnn), Hl. split_and!.
    + intros Hin. by rewrite (proj2 Hheld Hin).
    + intros Hnin. destruct (held_by l h); [|eauto]. destruct Hnin. by apply Hheld.
    + split.
      * intros Hin. rewrite (release_enter_eq m h c e lk l); try done.
        -- rewrite (proj2 Hheld Hin). eauto.
        -- apply (th_off _ _ _ _ Hth). rewrite (th_ncli _ _ _ _ Hth), Hop.
           destruct (held t); [by apply not_elem_of_nil in Hin|simpl; lia].
        -- rewrite (th_ncli _ _ _ _ Hth), Hop.
           destruct (held t); [by apply not_elem_of_nil in Hin|simpl; lia].
      * intros [m' Hrun]. pose proof (preserve_release m ts Hinv h t Ht lk m' Hop Hrun) as Hi.
        destruct (lock_inv_thread m' _ h (Thread (held t) (Clearing lk)) Hi) as (c'&e'&_&_&Hth').
        { apply list_lookup_insert_eq. by eapply lookup_lt_Some. }
        exact (th_clear _ _ _ _ Hth' lk eq_refl).
  - intros Hop. pose proof (th_ncli _ _ _ _ Hth) as Hn. rewrite Hop in Hn. simpl in Hn.
    rewrite (popcli_eq m h c e); [eauto|done|done|done| |lia].
    apply (th_off _ _ _ _ Hth). lia.
Qed.

(** [n] nested pairs of [pushcli] and [popcli]. *)
Fixpoint nest (n h : nat) : M mach unit :=
  match n with
  | O => mret tt
  | S k => pushcli h;; nest k h;; popcli h
  end.

Lemma nest_inner n m h c e :
  mach_ok m → cpus m !! h = Some c → eflags m !! h = Some e →
  interrupts_on e = false → 0 < ncli c → nest n h m = Ok tt m.
Proof.
  intros Hok. revert m Hok c e. induction n as [|n IH]; intros m Hok c e Hc He Hoff Hn; [done|].
  cbn [nest]. pose proof (push_pop_nested m h c e Hok Hc He Hoff Hn) as Hpp.
  unfold mbind, M_bind in Hpp |- *. rewrite (pushcli_eq m h c e) in Hpp |- * by done.
  destruct (push_mach_ok m h c e Hok Hc He) as (Hok'&Hc'&He').
  rewrite (IH _ Hok' _ _ Hc' He' (cli_clears e)); [done|simpl; lia].
Qed.

(** [pushcli] and [popcli] are matched: any number of nested pairs, run on
    a cpu whose nesting count is consistent with its interrupt flag, leaves
    the interrupt flag, the nesting count, the locks and the other cpus as
    they were; only the saved [intena] of the cpu may differ. *)
Theorem pushcli_popcli_balanced n m h c e :
  mach_ok m → cpus m !! h = Some c → eflags m !! h = Some e →
  0 ≤ ncli c → (0 < ncli c → interrupts_on e = false) →
  ∃ i, nest n h m = Ok tt (set_cpus (<[h:=with_intena i c]>) m).
Proof.
  intros Hok Hc He Hnn Hoff. pose proof (ok_eflags_u32 m h e Hok He) as Hu.
  assert (Hsame : set_cpus (<[h:=with_intena (intena c) c]>) m = m).
  { unfold set_cpus, with_intena. destruct m as [cs es la ls], c as [a nc i p]. simpl in *.
    by rewrite list_insert_id. }
  destruct (decide (0 < ncli c)) as [Hp|Hz].
  { exists (intena c). rewrite Hsame. by eapply nest_inner; eauto. }
  destruct n as [|n]; [exists (intena c); by rewrite Hsame|].
  exists (Z.land e FL_IF). cbn [nest]. unfold mbind, M_bind.
  rewrite (pushcli_eq m h c e) by done.
  destruct (push_mach_ok m h c e Hok Hc He) as (Hok'&Hc'&He').
  rewrite (nest_inner n _ h _ _ Hok' Hc' He' (cli_clears e)) by (simpl; lia).
  rewrite (popcli_eq _ h _ _ Hok' Hc' He' (cli_clears e)) by (simpl; lia).
  unfold pop_mach, pop_eflags, push_mach, set_cpus, pushed, with_ncli, with_intena. simpl.
  rewrite !list_insert_insert_eq. assert (ncli c = 0) as Hc0 by lia. rewrite Hc0. simpl.
  destruct (interrupts_on e) eqn:Hon.
  - rewrite (sti_cli e) by done. unfold interrupts_on in Hon. rewrite Hon.
    by rewrite (list_insert_id (eflags m)).
  - rewrite (cli_idle e) by done. apply interrupts_off in Hon. rewrite Hon. simpl.
    by rewrite (list_insert_id (eflags m)).
Qed.

(** A witness machine: two cpus with interrupts on and one lock. *)
Definition demo_mach : mach :=
  Mach [Cpu 0 0 0 None; Cpu 1 0 0 None] [FL_IF; FL_IF] [0; 1]
    [initlock "demo" (Spinlock 7 "" None (replicate 10 0))].
Definition demo_sys : sys := Sys demo_mach [Thread [] Idle; Thread [] Idle].

Lemma demo_mach_ok : mach_ok demo_mach.
Proof.
  constructor; [done| | |].
  - intros [|[|h]] c Hc; [by simplify_eq/=|by simplify_eq/=|done].
  - apply NoDup_ListNoDup. repeat constructor; simpl; try tauto; lia.
  - repeat constructor; unfold is_u32, FL_IF; lia.
Defined.
Lemma demo_init : lock_init demo_sys.
Proof. split_and!; [apply demo_mach_ok|repeat constructor..|done]. Defined.

(** After thread 0 has acquired the lock. *)
Definition demo_locked : sys :=
  Sys (Mach [Cpu 0 1 FL_IF None; Cpu 1 0 0 None] [0; FL_IF] [0; 1]
        [Spinlock 1 "demo" (Some 0%nat) (replicate 10 0)])
      [Thread [0%nat] Idle; Thread [] Idle].

Lemma demo_reachable : rtc lock_step demo_sys demo_locked.
Proof.
  eapply rtc_l; [eapply (step_acquire _ _ 0 _ 0); vm_compute; reflexivity|].
  eapply rtc_l; [eapply (step_xchg _ _ 0 _ 0); vm_compute; reflexivity|].
  eapply rtc_l; [eapply (step_record _ _ 0 _ 0 (λ _, 0) 8); vm_compute; reflexivity|].
  apply rtc_refl.
Defined.

Lemma mutual_exclusion_witness :
  (∀ h' t', threads demo_locked !! h' = Some t' → 0%nat ∈ held t' → h' = 0%nat) ∧
  (∃ l, locks (smach demo_locked) !! 0%nat = Some l ∧ locked l ≠ 0) ∧
  (∃ e, eflags (smach demo_locked) !! 0%nat = Some e ∧ interrupts_on e = false).
Proof.
  apply (mutual_exclusion demo_sys demo_locked 0 (Thread [0%nat] Idle) 0);
    [apply demo_init|apply demo_reachable|reflexivity|left].
Defined.

Lemma lock_discipline_witness :
  acquire_enter 0 0 (smach demo_locked) = Fail (Panic "acquire") ∧
  ∃ m', acquire_enter 1 0 (smach demo_locked) = Ok tt m'.
Proof.
  split.
  - eapply (lock_discipline demo_sys demo_locked 0 (Thread [0%nat] Idle) 0);
      [apply demo_init|apply demo_reachable|reflexivity|reflexivity|reflexivity|left].
  - eapply (lock_discipline demo_sys demo_locked 1 (Thread [] Idle) 0);
      [apply demo_init|apply demo_reachable|reflexivity|reflexivity|reflexivity|].
    apply not_elem_of_nil.
Defined.

Lemma pushcli_popcli_balanced_witness :
  ∃ i, nest 3 0 demo_mach = Ok tt (set_cpus (<[0%nat:=with_intena i (Cpu 0 0 0 None)]>) demo_mach).
Proof.
  apply (pushcli_popcli_balanced 3 demo_mach 0 (Cpu 0 0 0 None) FL_IF);
    [apply demo_mach_ok|reflexivity|reflexivity|simpl; lia|simpl; lia].
Defined.
