(* ===== verification/Rand.v ===== *)
(** * Pseudo-random numbers: [rand.c]

    The Mersenne Twister MT19937 and the rejection sampling on top of it that
    the lottery scheduler draws its winner with.  On the i386 [long] has 32
    bits. *)

From S2P Require Import Prelude.

Definition N : Z := 624.
Definition MM : Z := 397.                (* the macro M of rand.c *)
Definition MATRIX_A : Z := 2567483615.
Definition UPPER_MASK : Z := 2147483648.
Definition LOWER_MASK : Z := 2147483647.
Definition TEMPERING_MASK_B : Z := 2636928640.
Definition TEMPERING_MASK_C : Z := 4022730752.
Definition RAND_MAX : Z := 2147483647.

Record rng := Rng { mt : list Z; mti : Z }.

(** Static initialisation: [mt] is zero, [mti] says it is not seeded. *)
Definition rng_boot : rng := Rng (replicate (Z.to_nat N) 0) (N + 1).

(** [mt[mti] = (69069 * mt[mti-1]) & 0xffffffff], starting from [x]. *)
Fixpoint seed_loop (x : Z) (n : nat) : list Z :=
  match n with
  | O => []
  | S k => let x' := Z.land (u32 (69069 * x)) 4294967295 in x' :: seed_loop x' k
  end.

Definition sgenrand (seed : Z) (_ : rng) : rng :=
  let x := Z.land seed 4294967295 in
  Rng (x :: seed_loop x (Z.to_nat N - 1)) N.

Definition mag01 (x : Z) : Z := if x =? 0 then 0 else MATRIX_A.

(** [y = (mt[kk]&UPPER_MASK)|(mt[nxt]&LOWER_MASK);
     mt[kk] = mt[src] ^ (y >> 1) ^ mag01[y & 0x1]] *)
Definition twist (l : list Z) (kk nxt src : nat) : list Z :=
  let y := Z.lor (Z.land (l !!! kk) UPPER_MASK) (Z.land (l !!! nxt) LOWER_MASK) in
  <[kk := Z.lxor (Z.lxor (l !!! src) (Z.shiftr y 1)) (mag01 (Z.land y 1))]> l.

Definition generate (l : list Z) : list Z :=
  let l := foldl (λ l kk, twist l kk (kk + 1) (kk + 397)) l (seq 0 227) in
  let l := foldl (λ l kk, twist l kk (kk + 1) (kk - 227)) l (seq 227 396) in
  twist l 623 0 396.

Definition temper (y : Z) : Z :=
  let y := Z.lxor y (Z.shiftr y 11) in
  let y := Z.lxor y (Z.land (u32 (Z.shiftl y 7)) TEMPERING_MASK_B) in
  let y := Z.lxor y (Z.land (u32 (Z.shiftl y 15)) TEMPERING_MASK_C) in
  Z.lxor y (Z.shiftr y 18).

Definition genrand : M rng Z := λ s,
  let s :=
    if N <=? mti s then
      let s := if mti s =? N + 1 then sgenrand 4357 s else s in
      Rng (generate (mt s)) 0
    else s in
  match mt s !! Z.to_nat (mti s) with
  | Some y => Ok (Z.land (temper y) RAND_MAX) (Rng (mt s) (mti s + 1))
  | None => Fail (Undef "mt index")
  end.

(** The do-while loop of [random_at_most], at most [fuel] draws. *)
Fixpoint draw (fuel : nat) (bound : Z) : M rng Z :=
  match fuel with
  | O => fail OutOfFuel
  | S k => x ← genrand; if bound <=? u32 x then draw k bound else mret x
  end.

Definition random_at_most (fuel : nat) (max : Z) : M rng Z :=
  let num_bins := u32 max +u 1 in
  let num_rand := u32 RAND_MAX +u 1 in
  if num_bins =? 0 then fail (Undef "division by zero")
  else
    let bin_size := num_rand / num_bins in
    let defect := num_rand mod num_bins in
    x ← draw fuel (num_rand -u defect);
    if bin_size =? 0 then fail (Undef "division by zero")
    else mret (s32 (u32 x / bin_size)).

(** ** The generator's invariant *)

Record rng_ok (s : rng) : Prop := {
  rng_len : length (mt s) = 624%nat;
  rng_words : Forall is_u32 (mt s);
  rng_mti : 0 ≤ mti s ≤ N ∨ mti s = N + 1;
}.

Lemma lxor_u32 a b : is_u32 a → is_u32 b → is_u32 (Z.lxor a b).
Proof.
  intros Ha Hb. apply u32_of_bits. intros i Hi. by rewrite Z.lxor_spec, !u32_bits_above.
Qed.
Lemma shiftr_u32 a n : 0 ≤ n → is_u32 a → is_u32 (Z.shiftr a n).
Proof.
  unfold is_u32. intros Hn Ha. rewrite Z.shiftr_div_pow2 by done.
  assert (0 < 2 ^ n) by (apply Z.pow_pos_nonneg; lia). split.
  - apply Z.div_pos; lia.
  - apply Z.div_lt_upper_bound; nia.
Qed.
Lemma mag01_u32 x : is_u32 (mag01 x).
Proof. unfold mag01, is_u32, MATRIX_A. destruct (x =? 0); lia. Qed.
#[export] Hint Resolve lxor_u32 shiftr_u32 mag01_u32 : mach.

Lemma lookup_total_u32 l i : Forall is_u32 l → is_u32 (l !!! i).
Proof.
  intros Hl. rewrite list_lookup_total_alt. destruct (l !! i) as [x|] eqn:Hx; simpl.
  - exact (Forall_lookup_1 _ _ _ _ Hl Hx).
  - unfold is_u32, inhabitant. simpl. lia.
Qed.
#[export] Hint Resolve lookup_total_u32 : mach.

Lemma twist_ok l kk nxt src :
  Forall is_u32 l → Forall is_u32 (twist l kk nxt src) ∧ length (twist l kk nxt src) = length l.
Proof.
  intros Hl. unfold twist. split; [|apply length_insert].
  apply Forall_insert; [done|].
  apply lxor_u32; [|auto with mach]. apply lxor_u32; [auto with mach|].
  apply shiftr_u32; [lia|]. auto with mach.
Qed.

Lemma twist_fold_ok l (f g : nat → nat) ks :
  Forall is_u32 l →
  Forall is_u32 (foldl (λ l kk, twist l kk (f kk) (g kk)) l ks) ∧
  length (foldl (λ l kk, twist l kk (f kk) (g kk)) l ks) = length l.
Proof.
  revert l. induction ks as [|k ks IH]; intros l Hl; [done|]. simpl.
  destruct (twist_ok l k (f k) (g k) Hl) as [Hw Hlen].
  destruct (IH _ Hw) as [Hw' Hlen']. split; [done|]. congruence.
Qed.

Lemma generate_ok l :
  Forall is_u32 l → Forall is_u32 (generate l) ∧ length (generate l) = length l.
Proof.
  intros Hl. unfold generate.
  destruct (twist_fold_ok l (λ k, k + 1)%nat (λ k, k + 397)%nat (seq 0 227) Hl) as [H1 L1].
  revert H1 L1. generalize (foldl (λ l0 kk, twist l0 kk (kk + 1) (kk + 397)) l (seq 0 227)).
  intros l1 H1 L1.
  destruct (twist_fold_ok l1 (λ k, k + 1)%nat (λ k, k - 227)%nat (seq 227 396) H1) as [H2 L2].
  revert H2 L2. generalize (foldl (λ l0 kk, twist l0 kk (kk + 1) (kk - 227)) l1 (seq 227 396)).
  intros l2 H2 L2.
  destruct (twist_ok l2 623 0 396 H2) as [H3 L3]. split; [done|]. congruence.
Qed.

Lemma seed_loop_ok x n : Forall is_u32 (seed_loop x n) ∧ length (seed_loop x n) = n.
Proof.
  revert x. induction n as [|n IH]; intros x; [done|]. cbn [seed_loop].
  destruct (IH (Z.land (u32 (69069 * x)) 4294967295)) as [H1 H2].
  split; [|simpl; by rewrite H2]. constructor; [auto with mach|done].
Qed.

Lemma sgenrand_ok seed s : rng_ok (sgenrand seed s).
Proof.
  unfold sgenrand. destruct (seed_loop_ok (Z.land seed 4294967295) (Z.to_nat N - 1)) as [H1 H2].
  constructor; cbn [mt mti].
  - cbn [length]. rewrite H2. reflexivity.
  - constructor; [|done]. rewrite Z.land_comm. apply land_u32. unfold is_u32. lia.
  - left. unfold N. lia.
Qed.

Lemma genrand_spec s :
  rng_ok s → wp genrand (λ x s', rng_ok s' ∧ 0 ≤ x ≤ RAND_MAX) s.
Proof.
  intros Hok. unfold wp, genrand.
  assert (Hfin : ∀ s, rng_ok s → 0 ≤ mti s < N →
    match match mt s !! Z.to_nat (mti s) with
      | Some y => Ok (Z.land (temper y) RAND_MAX) (Rng (mt s) (mti s + 1))
      | None => Fail (Undef "mt index")
      end with
    | Ok a s' => rng_ok s' ∧ 0 ≤ a ≤ RAND_MAX | Fail _ => False end).
  { clear. intros s [Hl Hw Hm] Hi.
    destruct (lookup_lt_is_Some_2 (mt s) (Z.to_nat (mti s))) as [y Hy]; [unfold N in *; lia|].
    rewrite Hy. split.
    - constructor; simpl; [done|done|unfold N in *; lia].
    - change RAND_MAX with (Z.ones 31). rewrite Z.land_ones by lia.
      change (Z.ones 31) with (2 ^ 31 - 1).
      pose proof (Z.mod_pos_bound (temper y) (2 ^ 31)). lia. }
  destruct (Z.leb_spec N (mti s)) as [Hge|Hlt].
  2: { apply Hfin; [done|]. destruct (rng_mti s Hok); unfold N in *; lia. }
  set (s1 := if mti s =? N + 1 then sgenrand 4357 s else s).
  assert (Hok1 : rng_ok s1) by (unfold s1; destruct (_ =? _); [apply sgenrand_ok|done]).
  destruct (generate_ok (mt s1) (rng_words s1 Hok1)) as [Hw Hl].
  apply Hfin; [|unfold N; simpl; lia].
  constructor; cbn [mt mti]; [|done|unfold N; lia].
  rewrite Hl. apply (rng_len s1 Hok1).
Qed.

Lemma rng_boot_ok : rng_ok rng_boot.
Proof.
  unfold rng_boot. constructor; cbn [mt mti]; [reflexivity| |by right].
  apply Forall_replicate. unfold is_u32. lia.
Qed.

(** ** Rejection sampling *)

(** The draws [random_at_most] accepts for a given [max], and what it makes of
    an accepted draw. *)
Definition bins (max : Z) : Z := max + 1.
Definition bin_size (max : Z) : Z := 2147483648 / bins max.
Definition accepted (max x : Z) : bool := x <? bin_size max * bins max.

(** The outputs of the generator from a state on. *)
Fixpoint outputs (n : nat) (s : rng) : list Z :=
  match n with
  | O => []
  | S k => match genrand s with Ok x s' => x :: outputs k s' | Fail _ => [] end
  end.

Lemma draw_first fuel bound s k x :
  rng_ok s → outputs fuel s !! k = Some x → x < bound →
  (∀ j y, (j < k)%nat → outputs fuel s !! j = Some y → bound ≤ y) →
  ∃ s', draw fuel bound s = Ok x s' ∧ rng_ok s'.
Proof.
  revert s k. induction fuel as [|fuel IH]; intros s k Hok Hk Hx Hbefore; [done|].
  cbn [draw]. unfold mbind, M_bind. cbn [outputs] in Hk, Hbefore.
  destruct (wp_elim _ _ _ (genrand_spec s Hok)) as (y&s1&Hg&Hok1&Hy). rewrite Hg in *.
  assert (u32 y = y) as Hu by (apply u32_id; unfold is_u32, RAND_MAX in *; lia).
  destruct k as [|k]; simpl in Hk.
  - injection Hk as ->. rewrite Hu, (proj2 (Z.leb_gt bound x)) by lia.
    exists s1. done.
  - pose proof (Hbefore O y ltac:(lia) eq_refl) as Hge.
    rewrite Hu, (proj2 (Z.leb_le bound y)) by lia.
    apply (IH s1 k); [done|done|done|]. intros j z Hj Hz. apply (Hbefore (S j) z); [lia|done].
Qed.

Lemma bin_size_bounds max :
  0 ≤ max ≤ RAND_MAX →
  1 ≤ bin_size max ∧ bin_size max * bins max ≤ 2147483648.
Proof.
  intros Hm. unfold bin_size, bins, RAND_MAX in *. split.
  - apply Z.div_le_lower_bound; lia.
  - rewrite Z.mul_comm. apply Z.mul_div_le. lia.
Qed.

Lemma random_at_most_unfold fuel max s :
  0 ≤ max ≤ RAND_MAX →
  random_at_most fuel max s =
    (x ← draw fuel (bin_size max * bins max); mret (s32 (u32 x / bin_size max))) s.
Proof.
  intros Hm. pose proof (bin_size_bounds max Hm) as [Hb1 Hb2].
  unfold random_at_most, bin_size, bins in *. unfold RAND_MAX in Hm.
  change (u32 RAND_MAX +u 1) with 2147483648.
  rewrite !(u32_id max) by (unfold is_u32; lia). rewrite u32_id by (unfold is_u32; lia).
  rewrite (proj2 (Z.eqb_neq (max + 1) 0)) by lia.
  rewrite (proj2 (Z.eqb_neq (2147483648 / (max + 1)) 0)) by lia.
  pose proof (Z.div_mod 2147483648 (max + 1) ltac:(lia)) as Hdm.
  pose proof (Z.mod_pos_bound 2147483648 (max + 1) ltac:(lia)).
  rewrite (u32_id (2147483648 - _)) by (unfold is_u32; lia).
  replace (2147483648 - 2147483648 mod (max + 1)) with (2147483648 / (max + 1) * (max + 1)) by lia.
  done.
Qed.

Lemma random_at_most_wp fuel max s k x :
  rng_ok s → 0 ≤ max ≤ RAND_MAX →
  outputs fuel s !! k = Some x → accepted max x = true →
  (∀ j y, (j < k)%nat → outputs fuel s !! j = Some y → accepted max y = false) →
  wp (random_at_most fuel max)
    (λ r s', r = x / bin_size max ∧ 0 ≤ r ≤ max ∧ rng_ok s') s.
Proof.
  intros Hok Hm Hk Hx Hbefore. pose proof (bin_size_bounds max Hm) as [Hb1 Hb2].
  unfold accepted in *. apply Z.ltb_lt in Hx.
  destruct (draw_first fuel (bin_size max * bins max) s k x Hok Hk Hx) as (s'&Hd&Hok').
  { intros j y Hj Hy. apply Z.ltb_ge. eauto. }
  unfold wp. rewrite random_at_most_unfold by done. unfold mbind, M_bind. rewrite Hd.
  cbn [mret M_ret].
  assert (0 ≤ x) as Hx0.
  { clear -Hk Hok. revert s k Hok Hk. induction fuel as [|fuel IH]; intros s k Hok Hk; [done|].
    cbn [outputs] in Hk.
    destruct (wp_elim _ _ _ (genrand_spec s Hok)) as (y&s1&Hg&Hok1&Hy). rewrite Hg in Hk.
    destruct k; simpl in Hk; [injection Hk as ->; lia|eauto]. }
  rewrite (u32_id x) by (unfold is_u32; lia).
  assert (0 ≤ x / bin_size max ≤ max) as Hr.
  { split; [apply Z.div_pos; lia|].
    apply Z.lt_succ_r. apply Z.div_lt_upper_bound; unfold bins in *; lia. }
  unfold RAND_MAX in Hm. rewrite s32_id by (unfold is_i32; lia). done.
Qed.

(** Sampling: for an admissible [max], if one of the first [fuel] outputs
    of the generator is accepted then [random_at_most] returns, the result is
    the bin of the first accepted output, and it lies in the closed interval
    from 0 to [max]. *)
Theorem random_at_most_returns fuel max s k x :
  rng_ok s → 0 ≤ max ≤ RAND_MAX →
  outputs fuel s !! k = Some x → accepted max x = true →
  (∀ j y, (j < k)%nat → outputs fuel s !! j = Some y → accepted max y = false) →
  wp (random_at_most fuel max)
    (λ r s', r = x / bin_size max ∧ 0 ≤ r ≤ max ∧ rng_ok s') s.
Proof. apply random_at_most_wp. Qed.

(** Uniformity: each result [r] from 0 to [max] has exactly [bin_size max]
    accepted outputs, the consecutive integers from [r * bin_size max] on. *)
Theorem random_at_most_uniform max r x :
  0 ≤ max ≤ RAND_MAX → 0 ≤ r ≤ max → 0 ≤ x →
  accepted max x = true ∧ x / bin_size max = r ↔
  r * bin_size max ≤ x < r * bin_size max + bin_size max.
Proof.
  intros Hm Hr Hx. pose proof (bin_size_bounds max Hm) as [Hb1 Hb2].
  unfold accepted. rewrite Z.ltb_lt. split.
  - intros [_ <-]. pose proof (Z.div_mod x (bin_size max) ltac:(lia)).
    pose proof (Z.mod_pos_bound x (bin_size max) ltac:(lia)). lia.
  - intros Hi. split; [unfold bins; nia|].
    symmetry. apply (Z.div_unique_pos _ _ _ (x - r * bin_size max)); lia.
Qed.

(** A negative [max] other than -1, which a sum of tickets that overflows
    an [int] produces, makes the loop reject every draw: whatever the number
    of iterations, [random_at_most] does not return.  For -1 it divides by
    zero. *)
Lemma random_at_most_negative fuel max s :
  rng_ok s → -2147483648 ≤ max < 0 →
  random_at_most fuel max s =
    Fail (if max =? -1 then Undef "division by zero" else OutOfFuel).
Proof.
  intros Hok Hm. unfold random_at_most. change (u32 RAND_MAX +u 1) with 2147483648.
  destruct (Z.eqb_spec max (-1)) as [->|Hne]; [done|].
  assert (u32 max +u 1 = 4294967296 + max + 1) as ->.
  { unfold u32. zdm. }
  rewrite (proj2 (Z.eqb_neq _ 0)) by lia.
  rewrite (Z.mod_small 2147483648) by lia. change (u32 (2147483648 - 2147483648)) with 0.
  unfold mbind, M_bind.
  assert (draw fuel 0 s = Fail OutOfFuel) as ->; [|done].
  revert s Hok. induction fuel as [|fuel IH]; intros s Hok; [done|].
  cbn [draw]. unfold mbind, M_bind.
  destruct (wp_elim _ _ _ (genrand_spec s Hok)) as (y&s1&Hg&Hok1&Hy). rewrite Hg.
  pose proof (u32_range y). unfold is_u32 in *.
  rewrite (proj2 (Z.leb_le 0 (u32 y))) by lia. auto.
Qed.

(** ** Witnesses *)

Definition demo_rng : rng := Rng (replicate 624 5) 0.

Lemma demo_rng_ok : rng_ok demo_rng.
Proof.
  unfold demo_rng. constructor; cbn [mt mti]; [reflexivity| |left; unfold N; lia].
  apply Forall_replicate. unfold is_u32. lia.
Defined.

Lemma random_at_most_returns_witness :
  wp (random_at_most 1 9)
    (λ r s', r = 21103317 / bin_size 9 ∧ 0 ≤ r ≤ 9 ∧ rng_ok s') demo_rng.
Proof.
  apply (random_at_most_returns 1 9 demo_rng 0 21103317).
  - apply demo_rng_ok.
  - unfold RAND_MAX. lia.
  - vm_compute. reflexivity.
  - vm_compute. reflexivity.
  - intros j y Hj. lia.
Defined.

Lemma random_at_most_uniform_witness :
  accepted 9 214748370 = true ∧ 214748370 / bin_size 9 = 1 ↔
  1 * bin_size 9 ≤ 214748370 < 1 * bin_size 9 + bin_size 9.
Proof. apply (random_at_most_uniform 9 1 214748370); unfold RAND_MAX; lia. Defined.
