(* ===== verification/ProcState.v ===== *)
(** * Process state: [proc.h] and the data of [proc.c]

    The process table and the globals of [proc.c] as one record, the
    interfaces through which process code uses memory management
    ([kalloc.c], [vm.c]) and files ([file.c], [fs.c], [log.c]), and the basic
    accessors.

    A [struct proc *] is the index of its slot in [ptable].  The kernel stack
    of a process is represented by what the code reads back from it: the trap
    frame and the saved context, whose [eip] and return address say where the
    process resumes.  [held] lists the spinlocks held by the executing cpu;
    its length is the cpu's [ncli] (see [Spinlock.v]). *)

From S2P Require Import Prelude Params CString Cprintf Rand.

Inductive procstate := UNUSED | EMBRYO | SLEEPING | RUNNABLE | RUNNING | ZOMBIE.
#[export] Instance procstate_eq_dec : EqDecision procstate.
Proof. solve_decision. Defined.

Definition PL1 : Z := 0.
Definition PL2 : Z := 1.
Definition PL3 : Z := 2.

(** Sleep channels: the null pointer, the address of a process slot, or the
    address of any other kernel object. *)
Inductive chan := NoChan | ChProc (i : nat) | ChAddr (a : Z).
#[export] Instance chan_eq_dec : EqDecision chan.
Proof. solve_decision. Defined.

(** The spinlocks that process code names, and any other by its address. *)
Inductive klock := L_ptable | L_pptable | L_tickslock | L_at (a : Z).
#[export] Instance klock_eq_dec : EqDecision klock.
Proof. solve_decision. Defined.

(** Code addresses found in a saved context. *)
Inductive code :=
| A_null
| A_forkret
| A_trapret
| A_sched                       (* after the swtch in sched *)
| A_yield                       (* sched was called from yield *)
| A_sleep (lk : klock)          (* sched was called from sleep(_, lk) *)
| A_exit.                       (* sched was called from exit *)
#[export] Instance code_eq_dec : EqDecision code.
Proof. solve_decision. Defined.

(** A saved context and the return address above it on the stack. *)
Record context := Context {
  c_edi : Z; c_esi : Z; c_ebx : Z; c_ebp : Z; c_eip : code; c_ret : code;
}.

(** Registers pushed by the hardware and by [alltraps]. *)
Record trapframe := TrapFrame {
  tf_edi : Z;
  tf_esi : Z;
  tf_ebp : Z;
  tf_oesp : Z;
  tf_ebx : Z;
  tf_edx : Z;
  tf_ecx : Z;
  tf_eax : Z;
  tf_gs : Z;
  tf_fs : Z;
  tf_es : Z;
  tf_ds : Z;
  tf_trapno : Z;
  tf_err : Z;
  tf_eip : Z;
  tf_cs : Z;
  tf_eflags : Z;
  tf_esp : Z;
  tf_ss : Z;
}.

(** Per-process state. *)
Record proc := Proc {
  p_sz : Z;   (* size of process memory (bytes) *)
  p_pgdir : Z;   (* page table *)
  p_kstack : Z;   (* bottom of kernel stack *)
  p_state : procstate;
  p_pid : Z;
  p_parent : option nat;   (* index of the parent in ptable *)
  p_tf_addr : Z;   (* address of the trap frame *)
  p_tf : trapframe;   (* contents of the trap frame *)
  p_context : context;   (* saved kernel context *)
  p_chan : chan;   (* if non-null, sleeping on chan *)
  p_killed : Z;
  p_ofile : list (option nat);   (* open files, indices in ftable *)
  p_cwd : option nat;   (* index in icache *)
  p_name : list Z;
  p_alarm_time : Z;
  p_sysclog : list (Z * Z);   (* (call number, return value) pairs *)
  p_priority : Z;
  p_clicks : Z;
  p_last_run : Z;
  p_arrival_time : Z;
  p_tickets : Z;
}.

(** The globals of [proc.c] and [trap.c], with the state of the components
    that process code calls. *)
Record pst (V F : Type) := Pst {
  ptable : list proc;
  pptable : list proc;   (* records of exited processes *)
  initproc : option nat;
  nextpid : Z;
  ticks : Z;
  running : list (option nat);   (* cpus[c].proc *)
  held : list klock;   (* locks held by the executing cpu *)
  rnd : rng;   (* state of rand.c *)
  console : list Z;   (* characters printed so far *)
  first : bool;   (* static in forkret *)
  vm : V;   (* memory *)
  fsys : F;   (* files *)
}.
Arguments Pst {V F}.
Arguments ptable {V F} _.
Arguments pptable {V F} _.
Arguments initproc {V F} _.
Arguments nextpid {V F} _.
Arguments ticks {V F} _.
Arguments running {V F} _.
Arguments held {V F} _.
Arguments rnd {V F} _.
Arguments console {V F} _.
Arguments first {V F} _.
Arguments vm {V F} _.
Arguments fsys {V F} _.

(** Field updates. *)
Definition set_tf_edi (v : Z) (t : trapframe) : trapframe :=
  TrapFrame v (tf_esi t) (tf_ebp t) (tf_oesp t) (tf_ebx t) (tf_edx t) (tf_ecx t) (tf_eax t) (tf_gs t) (tf_fs t) (tf_es t) (tf_ds t) (tf_trapno t) (tf_err t) (tf_eip t) (tf_cs t) (tf_eflags t) (tf_esp t) (tf_ss t).
Definition set_tf_esi (v : Z) (t : trapframe) : trapframe :=
  TrapFrame (tf_edi t) v (tf_ebp t) (tf_oesp t) (tf_ebx t) (tf_edx t) (tf_ecx t) (tf_eax t) (tf_gs t) (tf_fs t) (tf_es t) (tf_ds t) (tf_trapno t) (tf_err t) (tf_eip t) (tf_cs t) (tf_eflags t) (tf_esp t) (tf_ss t).
Definition set_tf_ebp (v : Z) (t : trapframe) : trapframe :=
  TrapFrame (tf_edi t) (tf_esi t) v (tf_oesp t) (tf_ebx t) (tf_edx t) (tf_ecx t) (tf_eax t) (tf_gs t) (tf_fs t) (tf_es t) (tf_ds t) (tf_trapno t) (tf_err t) (tf_eip t) (tf_cs t) (tf_eflags t) (tf_esp t) (tf_ss t).
Definition set_tf_oesp (v : Z) (t : trapframe) : trapframe :=
  TrapFrame (tf_edi t) (tf_esi t) (tf_ebp t) v (tf_ebx t) (tf_edx t) (tf_ecx t) (tf_eax t) (tf_gs t) (tf_fs t) (tf_es t) (tf_ds t) (tf_trapno t) (tf_err t) (tf_eip t) (tf_cs t) (tf_eflags t) (tf_esp t) (tf_ss t).
Definition set_tf_ebx (v : Z) (t : trapframe) : trapframe :=
  TrapFrame (tf_edi t) (tf_esi t) (tf_ebp t) (tf_oesp t) v (tf_edx t) (tf_ecx t) (tf_eax t) (tf_gs t) (tf_fs t) (tf_es t) (tf_ds t) (tf_trapno t) (tf_err t) (tf_eip t) (tf_cs t) (tf_eflags t) (tf_esp t) (tf_ss t).
Definition set_tf_edx (v : Z) (t : trapframe) : trapframe :=
  TrapFrame (tf_edi t) (tf_esi t) (tf_ebp t) (tf_oesp t) (tf_ebx t) v (tf_ecx t) (tf_eax t) (tf_gs t) (tf_fs t) (tf_es t) (tf_ds t) (tf_trapno t) (tf_err t) (tf_eip t) (tf_cs t) (tf_eflags t) (tf_esp t) (tf_ss t).
Definition set_tf_ecx (v : Z) (t : trapframe) : trapframe :=
  TrapFrame (tf_edi t) (tf_esi t) (tf_ebp t) (tf_oesp t) (tf_ebx t) (tf_edx t) v (tf_eax t) (tf_gs t) (tf_fs t) (tf_es t) (tf_ds t) (tf_trapno t) (tf_err t) (tf_eip t) (tf_cs t) (tf_eflags t) (tf_esp t) (tf_ss t).
Definition set_tf_eax (v : Z) (t : trapframe) : trapframe :=
  TrapFrame (tf_edi t) (tf_esi t) (tf_ebp t) (tf_oesp t) (tf_ebx t) (tf_edx t) (tf_ecx t) v (tf_gs t) (tf_fs t) (tf_es t) (tf_ds t) (tf_trapno t) (tf_err t) (tf_eip t) (tf_cs t) (tf_eflags t) (tf_esp t) (tf_ss t).
Definition set_tf_gs (v : Z) (t : trapframe) : trapframe :=
  TrapFrame (tf_edi t) (tf_esi t) (tf_ebp t) (tf_oesp t) (tf_ebx t) (tf_edx t) (tf_ecx t) (tf_eax t) v (tf_fs t) (tf_es t) (tf_ds t) (tf_trapno t) (tf_err t) (tf_eip t) (tf_cs t) (tf_eflags t) (tf_esp t) (tf_ss t).
Definition set_tf_fs (v : Z) (t : trapframe) : trapframe :=
  TrapFrame (tf_edi t) (tf_esi t) (tf_ebp t) (tf_oesp t) (tf_ebx t) (tf_edx t) (tf_ecx t) (tf_eax t) (tf_gs t) v (tf_es t) (tf_ds t) (tf_trapno t) (tf_err t) (tf_eip t) (tf_cs t) (tf_eflags t) (tf_esp t) (tf_ss t).
Definition set_tf_es (v : Z) (t : trapframe) : trapframe :=
  TrapFrame (tf_edi t) (tf_esi t) (tf_ebp t) (tf_oesp t) (tf_ebx t) (tf_edx t) (tf_ecx t) (tf_eax t) (tf_gs t) (tf_fs t) v (tf_ds t) (tf_trapno t) (tf_err t) (tf_eip t) (tf_cs t) (tf_eflags t) (tf_esp t) (tf_ss t).
Definition set_tf_ds (v : Z) (t : trapframe) : trapframe :=
  TrapFrame (tf_edi t) (tf_esi t) (tf_ebp t) (tf_oesp t) (tf_ebx t) (tf_edx t) (tf_ecx t) (tf_eax t) (tf_gs t) (tf_fs t) (tf_es t) v (tf_trapno t) (tf_err t) (tf_eip t) (tf_cs t) (tf_eflags t) (tf_esp t) (tf_ss t).
Definition set_tf_trapno (v : Z) (t : trapframe) : trapframe :=
  TrapFrame (tf_edi t) (tf_esi t) (tf_ebp t) (tf_oesp t) (tf_ebx t) (tf_edx t) (tf_ecx t) (tf_eax t) (tf_gs t) (tf_fs t) (tf_es t) (tf_ds t) v (tf_err t) (tf_eip t) (tf_cs t) (tf_eflags t) (tf_esp t) (tf_ss t).
Definition set_tf_err (v : Z) (t : trapframe) : trapframe :=
  TrapFrame (tf_edi t) (tf_esi t) (tf_ebp t) (tf_oesp t) (tf_ebx t) (tf_edx t) (tf_ecx t) (tf_eax t) (tf_gs t) (tf_fs t) (tf_es t) (tf_ds t) (tf_trapno t) v (tf_eip t) (tf_cs t) (tf_eflags t) (tf_esp t) (tf_ss t).
Definition set_tf_eip (v : Z) (t : trapframe) : trapframe :=
  TrapFrame (tf_edi t) (tf_esi t) (tf_ebp t) (tf_oesp t) (tf_ebx t) (tf_edx t) (tf_ecx t) (tf_eax t) (tf_gs t) (tf_fs t) (tf_es t) (tf_ds t) (tf_trapno t) (tf_err t) v (tf_cs t) (tf_eflags t) (tf_esp t) (tf_ss t).
Definition set_tf_cs (v : Z) (t : trapframe) : trapframe :=
  TrapFrame (tf_edi t) (tf_esi t) (tf_ebp t) (tf_oesp t) (tf_ebx t) (tf_edx t) (tf_ecx t) (tf_eax t) (tf_gs t) (tf_fs t) (tf_es t) (tf_ds t) (tf_trapno t) (tf_err t) (tf_eip t) v (tf_eflags t) (tf_esp t) (tf_ss t).
Definition set_tf_eflags (v : Z) (t : trapframe) : trapframe :=
  TrapFrame (tf_edi t) (tf_esi t) (tf_ebp t) (tf_oesp t) (tf_ebx t) (tf_edx t) (tf_ecx t) (tf_eax t) (tf_gs t) (tf_fs t) (tf_es t) (tf_ds t) (tf_trapno t) (tf_err t) (tf_eip t) (tf_cs t) v (tf_esp t) (tf_ss t).
Definition set_tf_esp (v : Z) (t : trapframe) : trapframe :=
  TrapFrame (tf_edi t) (tf_esi t) (tf_ebp t) (tf_oesp t) (tf_ebx t) (tf_edx t) (tf_ecx t) (tf_eax t) (tf_gs t) (tf_fs t) (tf_es t) (tf_ds t) (tf_trapno t) (tf_err t) (tf_eip t) (tf_cs t) (tf_eflags t) v (tf_ss t).
Definition set_tf_ss (v : Z) (t : trapframe) : trapframe :=
  TrapFrame (tf_edi t) (tf_esi t) (tf_ebp t) (tf_oesp t) (tf_ebx t) (tf_edx t) (tf_ecx t) (tf_eax t) (tf_gs t) (tf_fs t) (tf_es t) (tf_ds t) (tf_trapno t) (tf_err t) (tf_eip t) (tf_cs t) (tf_eflags t) (tf_esp t) v.
Definition set_sz (v : Z) (p : proc) : proc :=
  Proc v (p_pgdir p) (p_kstack p) (p_state p) (p_pid p) (p_parent p) (p_tf_addr p) (p_tf p) (p_context p) (p_chan p) (p_killed p) (p_ofile p) (p_cwd p) (p_name p) (p_alarm_time p) (p_sysclog p) (p_priority p) (p_clicks p) (p_last_run p) (p_arrival_time p) (p_tickets p).
Definition set_pgdir (v : Z) (p : proc) : proc :=
  Proc (p_sz p) v (p_kstack p) (p_state p) (p_pid p) (p_parent p) (p_tf_addr p) (p_tf p) (p_context p) (p_chan p) (p_killed p) (p_ofile p) (p_cwd p) (p_name p) (p_alarm_time p) (p_sysclog p) (p_priority p) (p_clicks p) (p_last_run p) (p_arrival_time p) (p_tickets p).
Definition set_kstack (v : Z) (p : proc) : proc :=
  Proc (p_sz p) (p_pgdir p) v (p_state p) (p_pid p) (p_parent p) (p_tf_addr p) (p_tf p) (p_context p) (p_chan p) (p_killed p) (p_ofile p) (p_cwd p) (p_name p) (p_alarm_time p) (p_sysclog p) (p_priority p) (p_clicks p) (p_last_run p) (p_arrival_time p) (p_tickets p).
Definition set_state (v : procstate) (p : proc) : proc :=
  Proc (p_sz p) (p_pgdir p) (p_kstack p) v (p_pid p) (p_parent p) (p_tf_addr p) (p_tf p) (p_context p) (p_chan p) (p_killed p) (p_ofile p) (p_cwd p) (p_name p) (p_alarm_time p) (p_sysclog p) (p_priority p) (p_clicks p) (p_last_run p) (p_arrival_time p) (p_tickets p).
Definition set_pid (v : Z) (p : proc) : proc :=
  Proc (p_sz p) (p_pgdir p) (p_kstack p) (p_state p) v (p_parent p) (p_tf_addr p) (p_tf p) (p_context p) (p_chan p) (p_killed p) (p_ofile p) (p_cwd p) (p_name p) (p_alarm_time p) (p_sysclog p) (p_priority p) (p_clicks p) (p_last_run p) (p_arrival_time p) (p_tickets p).
Definition set_parent (v : option nat) (p : proc) : proc :=
  Proc (p_sz p) (p_pgdir p) (p_kstack p) (p_state p) (p_pid p) v (p_tf_addr p) (p_tf p) (p_context p) (p_chan p) (p_killed p) (p_ofile p) (p_cwd p) (p_name p) (p_alarm_time p) (p_sysclog p) (p_priority p) (p_clicks p) (p_last_run p) (p_arrival_time p) (p_tickets p).
Definition set_tf_addr (v : Z) (p : proc) : proc :=
  Proc (p_sz p) (p_pgdir p) (p_kstack p) (p_state p) (p_pid p) (p_parent p) v (p_tf p) (p_context p) (p_chan p) (p_killed p) (p_ofile p) (p_cwd p) (p_name p) (p_alarm_time p) (p_sysclog p) (p_priority p) (p_clicks p) (p_last_run p) (p_arrival_time p) (p_tickets p).
Definition set_tf (v : trapframe) (p : proc) : proc :=
  Proc (p_sz p) (p_pgdir p) (p_kstack p) (p_state p) (p_pid p) (p_parent p) (p_tf_addr p) v (p_context p) (p_chan p) (p_killed p) (p_ofile p) (p_cwd p) (p_name p) (p_alarm_time p) (p_sysclog p) (p_priority p) (p_clicks p) (p_last_run p) (p_arrival_time p) (p_tickets p).
Definition set_context (v : context) (p : proc) : proc :=
  Proc (p_sz p) (p_pgdir p) (p_kstack p) (p_state p) (p_pid p) (p_parent p) (p_tf_addr p) (p_tf p) v (p_chan p) (p_killed p) (p_ofile p) (p_cwd p) (p_name p) (p_alarm_time p) (p_sysclog p) (p_priority p) (p_clicks p) (p_last_run p) (p_arrival_time p) (p_tickets p).
Definition set_chan (v : chan) (p : proc) : proc :=
  Proc (p_sz p) (p_pgdir p) (p_kstack p) (p_state p) (p_pid p) (p_parent p) (p_tf_addr p) (p_tf p) (p_context p) v (p_killed p) (p_ofile p) (p_cwd p) (p_name p) (p_alarm_time p) (p_sysclog p) (p_priority p) (p_clicks p) (p_last_run p) (p_arrival_time p) (p_tickets p).
Definition set_killed (v : Z) (p : proc) : proc :=
  Proc (p_sz p) (p_pgdir p) (p_kstack p) (p_state p) (p_pid p) (p_parent p) (p_tf_addr p) (p_tf p) (p_context p) (p_chan p) v (p_ofile p) (p_cwd p) (p_name p) (p_alarm_time p) (p_sysclog p) (p_priority p) (p_clicks p) (p_last_run p) (p_arrival_time p) (p_tickets p).
Definition set_ofile (v : list (option nat)) (p : proc) : proc :=
  Proc (p_sz p) (p_pgdir p) (p_kstack p) (p_state p) (p_pid p) (p_parent p) (p_tf_addr p) (p_tf p) (p_context p) (p_chan p) (p_killed p) v (p_cwd p) (p_name p) (p_alarm_time p) (p_sysclog p) (p_priority p) (p_clicks p) (p_last_run p) (p_arrival_time p) (p_tickets p).
Definition set_cwd (v : option nat) (p : proc) : proc :=
  Proc (p_sz p) (p_pgdir p) (p_kstack p) (p_state p) (p_pid p) (p_parent p) (p_tf_addr p) (p_tf p) (p_context p) (p_chan p) (p_killed p) (p_ofile p) v (p_name p) (p_alarm_time p) (p_sysclog p) (p_priority p) (p_clicks p) (p_last_run p) (p_arrival_time p) (p_tickets p).
Definition set_name (v : list Z) (p : proc) : proc :=
  Proc (p_sz p) (p_pgdir p) (p_kstack p) (p_state p) (p_pid p) (p_parent p) (p_tf_addr p) (p_tf p) (p_context p) (p_chan p) (p_killed p) (p_ofile p) (p_cwd p) v (p_alarm_time p) (p_sysclog p) (p_priority p) (p_clicks p) (p_last_run p) (p_arrival_time p) (p_tickets p).
Definition set_alarm_time (v : Z) (p : proc) : proc :=
  Proc (p_sz p) (p_pgdir p) (p_kstack p) (p_state p) (p_pid p) (p_parent p) (p_tf_addr p) (p_tf p) (p_context p) (p_chan p) (p_killed p) (p_ofile p) (p_cwd p) (p_name p) v (p_sysclog p) (p_priority p) (p_clicks p) (p_last_run p) (p_arrival_time p) (p_tickets p).
Definition set_sysclog (v : list (Z * Z)) (p : proc) : proc :=
  Proc (p_sz p) (p_pgdir p) (p_kstack p) (p_state p) (p_pid p) (p_parent p) (p_tf_addr p) (p_tf p) (p_context p) (p_chan p) (p_killed p) (p_ofile p) (p_cwd p) (p_name p) (p_alarm_time p) v (p_priority p) (p_clicks p) (p_last_run p) (p_arrival_time p) (p_tickets p).
Definition set_priority (v : Z) (p : proc) : proc :=
  Proc (p_sz p) (p_pgdir p) (p_kstack p) (p_state p) (p_pid p) (p_parent p) (p_tf_addr p) (p_tf p) (p_context p) (p_chan p) (p_killed p) (p_ofile p) (p_cwd p) (p_name p) (p_alarm_time p) (p_sysclog p) v (p_clicks p) (p_last_run p) (p_arrival_time p) (p_tickets p).
Definition set_clicks (v : Z) (p : proc) : proc :=
  Proc (p_sz p) (p_pgdir p) (p_kstack p) (p_state p) (p_pid p) (p_parent p) (p_tf_addr p) (p_tf p) (p_context p) (p_chan p) (p_killed p) (p_ofile p) (p_cwd p) (p_name p) (p_alarm_time p) (p_sysclog p) (p_priority p) v (p_last_run p) (p_arrival_time p) (p_tickets p).
Definition set_last_run (v : Z) (p : proc) : proc :=
  Proc (p_sz p) (p_pgdir p) (p_kstack p) (p_state p) (p_pid p) (p_parent p) (p_tf_addr p) (p_tf p) (p_context p) (p_chan p) (p_killed p) (p_ofile p) (p_cwd p) (p_name p) (p_alarm_time p) (p_sysclog p) (p_priority p) (p_clicks p) v (p_arrival_time p) (p_tickets p).
Definition set_arrival_time (v : Z) (p : proc) : proc :=
  Proc (p_sz p) (p_pgdir p) (p_kstack p) (p_state p) (p_pid p) (p_parent p) (p_tf_addr p) (p_tf p) (p_context p) (p_chan p) (p_killed p) (p_ofile p) (p_cwd p) (p_name p) (p_alarm_time p) (p_sysclog p) (p_priority p) (p_clicks p) (p_last_run p) v (p_tickets p).
Definition set_tickets (v : Z) (p : proc) : proc :=
  Proc (p_sz p) (p_pgdir p) (p_kstack p) (p_state p) (p_pid p) (p_parent p) (p_tf_addr p) (p_tf p) (p_context p) (p_chan p) (p_killed p) (p_ofile p) (p_cwd p) (p_name p) (p_alarm_time p) (p_sysclog p) (p_priority p) (p_clicks p) (p_last_run p) (p_arrival_time p) v.
Definition on_ptable {V F} (f : list proc → list proc) (s : pst V F) : pst V F :=
  Pst (f (ptable s)) (pptable s) (initproc s) (nextpid s) (ticks s) (running s) (held s) (rnd s) (console s) (first s) (vm s) (fsys s).
Definition on_pptable {V F} (f : list proc → list proc) (s : pst V F) : pst V F :=
  Pst (ptable s) (f (pptable s)) (initproc s) (nextpid s) (ticks s) (running s) (held s) (rnd s) (console s) (first s) (vm s) (fsys s).
Definition on_initproc {V F} (f : option nat → option nat) (s : pst V F) : pst V F :=
  Pst (ptable s) (pptable s) (f (initproc s)) (nextpid s) (ticks s) (running s) (held s) (rnd s) (console s) (first s) (vm s) (fsys s).
Definition on_nextpid {V F} (f : Z → Z) (s : pst V F) : pst V F :=
  Pst (ptable s) (pptable s) (initproc s) (f (nextpid s)) (ticks s) (running s) (held s) (rnd s) (console s) (first s) (vm s) (fsys s).
Definition on_ticks {V F} (f : Z → Z) (s : pst V F) : pst V F :=
  Pst (ptable s) (pptable s) (initproc s) (nextpid s) (f (ticks s)) (running s) (held s) (rnd s) (console s) (first s) (vm s) (fsys s).
Definition on_running {V F} (f : list (option nat) → list (option nat)) (s : pst V F) : pst V F :=
  Pst (ptable s) (pptable s) (initproc s) (nextpid s) (ticks s) (f (running s)) (held s) (rnd s) (console s) (first s) (vm s) (fsys s).
Definition on_held {V F} (f : list klock → list klock) (s : pst V F) : pst V F :=
  Pst (ptable s) (pptable s) (initproc s) (nextpid s) (ticks s) (running s) (f (held s)) (rnd s) (console s) (first s) (vm s) (fsys s).
Definition on_rnd {V F} (f : rng → rng) (s : pst V F) : pst V F :=
  Pst (ptable s) (pptable s) (initproc s) (nextpid s) (ticks s) (running s) (held s) (f (rnd s)) (console s) (first s) (vm s) (fsys s).
Definition on_console {V F} (f : list Z → list Z) (s : pst V F) : pst V F :=
  Pst (ptable s) (pptable s) (initproc s) (nextpid s) (ticks s) (running s) (held s) (rnd s) (f (console s)) (first s) (vm s) (fsys s).
Definition on_first {V F} (f : bool → bool) (s : pst V F) : pst V F :=
  Pst (ptable s) (pptable s) (initproc s) (nextpid s) (ticks s) (running s) (held s) (rnd s) (console s) (f (first s)) (vm s) (fsys s).
Definition on_vm {V F} (f : V → V) (s : pst V F) : pst V F :=
  Pst (ptable s) (pptable s) (initproc s) (nextpid s) (ticks s) (running s) (held s) (rnd s) (console s) (first s) (f (vm s)) (fsys s).
Definition on_fsys {V F} (f : F → F) (s : pst V F) : pst V F :=
  Pst (ptable s) (pptable s) (initproc s) (nextpid s) (ticks s) (running s) (held s) (rnd s) (console s) (first s) (vm s) (f (fsys s)).

(** ** Interfaces *)

(** What process code uses of [kalloc.c] and [vm.c]; addresses are integers
    and 0 is the null pointer. *)
Class MemOps (V : Type) := {
  kalloc : M V Z;
  kfree : Z → M V unit;
  setupkvm : M V Z;
  inituvm : Z → list Z → M V unit;
  allocuvm : Z → Z → Z → M V Z;
  deallocuvm : Z → Z → Z → M V Z;
  copyuvm : Z → Z → M V Z;
  freevm : Z → M V unit;
  switchuvm : Z → Z → M V unit;        (* kstack, pgdir *)
  switchkvm : M V unit;
}.

(** What process code uses of [file.c], [fs.c] and [log.c]; files and inodes
    are indices of their tables. *)
Class FileOps (F : Type) := {
  filedup : nat → M F nat;
  fileclose : nat → M F unit;
  idup : option nat → M F (option nat);
  iput : option nat → M F unit;
  namei : list Z → M F (option nat);
  begin_op : M F unit;
  end_op : M F unit;
  iinit : Z → M F unit;
  initlog : Z → M F unit;
}.

(** ** Accessors *)

Section access.
Context {V F : Type}.
Abbreviation PM := (M (pst V F)).

Definition lift_vm {A} (m : M V A) : PM A := λ s,
  match m (vm s) with
  | Ok a v => Ok a (on_vm (λ _, v) s)
  | Fail f => Fail f
  end.
Definition lift_fs {A} (m : M F A) : PM A := λ s,
  match m (fsys s) with
  | Ok a x => Ok a (on_fsys (λ _, x) s)
  | Fail f => Fail f
  end.
Definition lift_rnd {A} (m : M rng A) : PM A := λ s,
  match m (rnd s) with
  | Ok a x => Ok a (on_rnd (λ _, x) s)
  | Fail f => Fail f
  end.

(** [acquire] and [release] as seen by the cpu that runs the code: acquiring
    a lock it holds and releasing one it does not hold panic. *)
Definition acquire_lk (l : klock) : PM unit := λ s,
  if decide (l ∈ held s) then Fail (Panic "acquire")
  else Ok tt (on_held (cons l) s).
Definition release_lk (l : klock) : PM unit := λ s,
  if decide (l ∈ held s) then Ok tt (on_held (filter (λ k, k ≠ l)) s)
  else Fail (Panic "release").

(** [*p] and an assignment to fields of [*p], for a slot of the table. *)
Definition proc_get (i : nat) : PM proc := λ s,
  match ptable s !! i with
  | Some p => Ok p s
  | None => Fail (Undef "ptable.proc index")
  end.
Definition proc_upd (i : nat) (f : proc → proc) : PM unit := λ s,
  match ptable s !! i with
  | Some p => Ok tt (on_ptable (<[i := f p]>) s)
  | None => Fail (Undef "ptable.proc index")
  end.

(** Dereference of a pointer to a process. *)
Definition deref (o : option nat) : PM nat := of_option (Undef "null proc") o.

Definition print (fmt : string) (args : list carg) : PM unit := λ s,
  match cprintf (lit fmt) args with
  | Some out => Ok tt (on_console (λ o, (o ++ out)%list) s)
  | None => Fail (Undef "cprintf argument")
  end.

(** [myproc()]: the [proc] field of the executing cpu [c]. *)
Definition myproc (c : nat) : PM (option nat) := λ s,
  match running s !! c with
  | Some o => Ok o s
  | None => Fail (Panic "unknown apicid\n")
  end.
Definition curproc (c : nat) : PM nat := myproc c ≫= deref.
End access.
