(* ===== verification/Sched.v ===== *)
(** * Scheduling: the three queues, context switches, sleep and wakeup

    The scheduler of [proc.c]: one selection function per queue level
    ([sched_lottery], [sched_rr], [sched_hrrn]), the loop of [scheduler], the
    switch into a process ([run_proc]) and back ([sched]), [yield], [sleep]
    and [wakeup].

    A switch is split at [swtch]: [run_proc] runs up to the jump into the
    process and [run_proc_return] is the rest of it; [sched] runs up to the
    jump into the scheduler, and the code after its call is found by
    [resume] from the return address kept in the saved context. *)

From Stdlib Require Import SpecFloat.
From S2P Require Import Prelude Params CString Cprintf Rand ProcState.

(** [float] as IEEE single precision, every result rounded to 24 bits (an
    x87 unit may keep excess precision between the division and the
    comparison). *)
Definition float_of_int (z : Z) : spec_float := binary_normalize 24 128 z 0 false.
Definition float_div : spec_float → spec_float → spec_float := SFdiv 24 128.
Definition float_gt (x y : spec_float) : bool := SFltb y x.

(** ** Selection *)

(** [apply_aging], on the slot it is called with. *)
Definition apply_aging (ticks : Z) (p : proc) : proc :=
  let waiting_time := s32 (ticks -u p_last_run p) in
  if 2500 <? waiting_time then set_last_run (s32 ticks) (set_priority PL1 p) else p.

Definition runnable_pl1 (p : proc) : bool :=
  bool_decide (p_state p = RUNNABLE) && (p_priority p =? PL1).

(** The first loop of [sched_lottery]: the tickets in play. *)
Definition lottery_sum (l : list proc) : Z :=
  foldl (λ sum p, if runnable_pl1 p then sum +i p_tickets p else sum) 0 l.

(** The second loop: the first runnable process of the queue whose running
    sum is not below the winner. *)
Fixpoint lottery_pick (winner sum : Z) (i : nat) (l : list proc) : option nat :=
  match l with
  | [] => None
  | p :: l' =>
      if runnable_pl1 p then
        let sum := sum +i p_tickets p in
        if sum <? winner then lottery_pick winner sum (S i) l' else Some i
      else lottery_pick winner sum (S i) l'
  end.

(** The loop of [sched_rr] from slot [i] on: every visited slot is aged and
    the first runnable one is returned. *)
Fixpoint rr_loop (ticks : Z) (i : nat) (l : list proc) : option nat * list proc :=
  match l with
  | [] => (None, [])
  | p :: l' =>
      if (p_priority p =? PL2) || true then
        let p := apply_aging ticks p in
        if bool_decide (p_state p = RUNNABLE) then (Some i, p :: l')
        else let '(o, l'') := rr_loop ticks (S i) l' in (o, p :: l'')
      else let '(o, l'') := rr_loop ticks (S i) l' in (o, p :: l'')
  end.

(** The inner loop of [sched_hrrn]: the slot of largest response ratio. *)
Fixpoint hrrn_best (ticks : Z) (max_hrrn : spec_float) (victor : option nat)
    (i : nat) (l : list proc) : option nat :=
  match l with
  | [] => victor
  | p :: l' =>
      if bool_decide (p_state p = RUNNABLE) && (p_priority p =? PL3) then
        let waiting_time := s32 (ticks -u p_arrival_time p) in
        let hrrn := float_div (float_of_int waiting_time) (float_of_int (p_clicks p)) in
        if float_gt hrrn max_hrrn then hrrn_best ticks hrrn (Some i) (S i) l'
        else hrrn_best ticks max_hrrn victor (S i) l'
      else hrrn_best ticks max_hrrn victor (S i) l'
  end.

(** The outer loop: slots of the third queue are aged until one is runnable,
    which starts the search of the whole table (by the same pointer). *)
Fixpoint hrrn_loop (ticks : Z) (n i : nat) (l : list proc) : option nat * list proc :=
  match n with
  | O => (None, l)
  | S n' =>
      match l !! i with
      | None => (None, l)
      | Some p =>
          if p_priority p =? PL3 then
            let p := apply_aging ticks p in
            let l := <[i := p]> l in
            if bool_decide (p_state p = RUNNABLE) then
              (hrrn_best ticks (float_of_int (-1)) None 0 l, l)
            else hrrn_loop ticks n' (S i) l
          else hrrn_loop ticks n' (S i) l
      end
  end.

Section sched.
Context {V F : Type} `{!MemOps V, !FileOps F}.
Abbreviation PM := (M (pst V F)).

Definition sched_lottery (fuel : nat) : PM (option nat) :=
  tickets_sum ← gets (λ s, lottery_sum (ptable s));
  winner ← lift_rnd (random_at_most fuel tickets_sum);
  gets (λ s, lottery_pick winner 0 0 (ptable s)).

Definition sched_rr : PM (option nat) := λ s,
  let '(o, l) := rr_loop (ticks s) 0 (ptable s) in Ok o (on_ptable (λ _, l) s).

Definition sched_hrrn : PM (option nat) := λ s,
  let '(o, l) := hrrn_loop (ticks s) (length (ptable s)) 0 (ptable s) in
  Ok o (on_ptable (λ _, l) s).

(** The loop over [scheduler_level]. *)
Definition scheduler_pick (fuel : nat) : PM (option nat) :=
  o ← sched_lottery fuel;
  match o with
  | Some p => mret (Some p)
  | None =>
      o ← sched_rr;
      match o with
      | Some p => mret (Some p)
      | None => sched_hrrn
      end
  end.

(** ** Switching *)

Definition check_alarm (i : nat) : PM unit :=
  p ← proc_get i;
  t ← gets ticks;
  when ((u32 (p_alarm_time p) <=? t) && (0 <? p_alarm_time p)) (
    print "Alarm!!!\n" [];;
    proc_upd i (set_alarm_time 0)).

Definition set_running (c : nat) (o : option nat) : PM unit :=
  modify (on_running (<[c := o]>)).

(** [run_proc] up to [swtch]. *)
Definition run_proc (c i : nat) : PM unit :=
  t ← gets ticks;
  proc_upd i (λ p, set_last_run (s32 t) (set_clicks (p_clicks p +i 1) p));;
  set_running c (Some i);;
  p ← proc_get i;
  lift_vm (switchuvm (p_kstack p) (p_pgdir p));;
  proc_upd i (set_state RUNNING);;
  check_alarm i.

(** [run_proc] after [swtch]. *)
Definition run_proc_return (c : nat) : PM unit :=
  lift_vm switchkvm;;
  set_running c None.

(** One iteration of [scheduler] up to the switch into a process, which then
    holds [ptable.lock]; an iteration that finds none is complete. *)
Definition scheduler_enter (fuel c : nat) : PM (option nat) :=
  acquire_lk L_ptable;;
  o ← scheduler_pick fuel;
  match o with
  | Some i => run_proc c i;; mret (Some i)
  | None => release_lk L_ptable;; mret None
  end.

(** The rest of the iteration, when the process switches back. *)
Definition scheduler_return (c : nat) : PM unit :=
  run_proc_return c;;
  release_lk L_ptable.

(** [sched] up to [swtch], called from [from].  The state has no interrupt flag:
    the third panic of the source, "sched interruptible", is about a CPU that
    takes interrupts while it holds a lock, which [pushcli] in [acquire] rules
    out ([Spinlock]), and the flag [intena] of the CPU, which the source saves
    across the switch, is that of [Spinlock]'s CPUs. *)
Definition sched (c : nat) (from : code) : PM unit :=
  i ← curproc c;
  h ← gets held;
  if negb (bool_decide (L_ptable ∈ h)) then panic "sched ptable.lock"
  else if negb (bool_decide (length h = 1%nat)) then panic "sched locks"
  else
    p ← proc_get i;
    if bool_decide (p_state p = RUNNING) then panic "sched running"
    else
      proc_upd i (λ p, set_context
        (Context (c_edi (p_context p)) (c_esi (p_context p)) (c_ebx (p_context p))
           (c_ebp (p_context p)) A_sched from) p).

(** [yield] up to the switch and the rest of the scheduler's iteration. *)
Definition yield (c : nat) : PM unit :=
  acquire_lk L_ptable;;
  i ← curproc c;
  proc_upd i (set_state RUNNABLE);;
  sched c A_yield;;
  scheduler_return c.

(** [sleep(chan, lk)] up to the switch and the rest of the scheduler's
    iteration; a null [lk] is [None]. *)
Definition sleep (c : nat) (ch : chan) (lk : option klock) : PM unit :=
  o ← myproc c;
  match o, lk with
  | None, _ => panic "sleep"
  | _, None => panic "sleep without lk"
  | Some i, Some lk =>
      when (negb (bool_decide (lk = L_ptable))) (
        acquire_lk L_ptable;;
        release_lk lk);;
      proc_upd i (set_chan ch);;
      proc_upd i (set_state SLEEPING);;
      sched c (A_sleep lk);;
      scheduler_return c
  end.

Definition forkret : PM unit :=
  release_lk L_ptable;;
  f ← gets first;
  when f (
    modify (on_first (λ _, false));;
    lift_fs (iinit ROOTDEV);;
    lift_fs (initlog ROOTDEV)).

(** What the process chosen by the scheduler runs first: [forkret], the rest
    of [yield] or the rest of [sleep].  [exit] never comes back to life. *)
Definition resume (i : nat) : PM unit :=
  p ← proc_get i;
  match c_eip (p_context p), c_ret (p_context p) with
  | A_forkret, _ => forkret
  | A_sched, A_yield => release_lk L_ptable
  | A_sched, A_sleep lk =>
      proc_upd i (set_chan NoChan);;
      when (negb (bool_decide (lk = L_ptable))) (
        release_lk L_ptable;;
        acquire_lk lk)
  | A_sched, A_exit => panic "zombie exit"
  | _, _ => fail (Undef "eip")
  end.

Definition wakeup_proc (ch : chan) (p : proc) : proc :=
  if bool_decide (p_state p = SLEEPING) && bool_decide (p_chan p = ch)
  then set_state RUNNABLE p else p.

Definition wakeup1 (ch : chan) : PM unit :=
  modify (on_ptable (fmap (wakeup_proc ch))).

Definition wakeup (ch : chan) : PM unit :=
  acquire_lk L_ptable;;
  wakeup1 ch;;
  release_lk L_ptable.
End sched.
