(* ===== verification/Proc.v ===== *)
(** * Process lifecycle: [allocproc], [userinit], [growproc], [fork],
    [exit], [wait], [kill], and the process-related system calls of [proc.c]

    Every function is the whole function of the source, with the locks it
    takes, its early returns and its calls to other components; [exit],
    [wait] and the other functions that give up the cpu run up to the switch
    and through the rest of the scheduler's iteration (see [Sched.v]). *)

From S2P Require Import Prelude Params CString Cprintf Rand ProcState Sched.

(** [safestrcpy(dst, src, sizeof(name))] on two name fields laid out next to
    each other. *)
Definition copy_name (dst src : list Z) : list Z :=
  let m : mem := λ a, if a <? 0 then 0 else nth (Z.to_nat a) (dst ++ src) 0 in
  bytes_at (safestrcpy m 0 (Z.of_nat (length dst)) 16) 0 16.

Definition sizeof_trapframe : Z := 76.
Definition sizeof_context : Z := 20.

Definition context0 : context := Context 0 0 0 0 A_null A_null.
Definition trapframe0 : trapframe := TrapFrame 0 0 0 0 0 0 0 0 0 0 0 0 0 0 0 0 0 0 0.
(** The contents of a page fresh from [kalloc], which [kfree] filled with 1. *)
Definition junk : Z := 16843009.
Definition trapframe_junk : trapframe :=
  TrapFrame junk junk junk junk junk junk junk junk 257 257 257 257 junk junk junk 257
    junk junk 257.

(** ** Logs of system calls *)

Section logs.
Context {St : Type}.

(** Copy the used pairs of a log, in order, to the positions from [npair] on
    of another: [n] entries from entry [k], the source read through [src] and
    the destination written through [dst] at every iteration. *)
Fixpoint log_copy (src : M St (list (Z * Z))) (dst : nat → Z * Z → M St unit)
    (n k npair : nat) : M St nat :=
  match n with
  | O => mret npair
  | S n' =>
      l ← src;
      e ← of_option (Undef "sysclog index") (l !! k);
      if fst e =? 0 then log_copy src dst n' (S k) npair
      else dst npair e;; log_copy src dst n' (S k) (S npair)
  end.
End logs.

Definition log_put (k : nat) (e : Z * Z) (p : proc) : option proc :=
  if (k <? length (p_sysclog p))%nat then Some (set_sysclog (<[k := e]> (p_sysclog p)) p)
  else None.

Section proc.
Context {V F : Type} `{!MemOps V, !FileOps F}.
Abbreviation PM := (M (pst V F)).

(** Write one pair to the log of a process, of the table or of [pptable]. *)
Definition ptable_log_put (i k : nat) (e : Z * Z) : PM unit :=
  p ← proc_get i;
  p' ← of_option (Undef "sysclog index") (log_put k e p);
  proc_upd i (λ _, p').
Definition pptable_upd (i : nat) (f : proc → option proc) : PM unit := λ s,
  match pptable s !! i with
  | None => Fail (Undef "pptable.proc index")
  | Some p =>
      match f p with
      | None => Fail (Undef "sysclog index")
      | Some p' => Ok tt (on_pptable (<[i := p']>) s)
      end
  end.

(** [for(n = 0; n < NPROC; n++) if(pptable.proc[n].pid == 0) break;] *)
Definition pptable_slot : PM nat := gets (λ s,
  match list_find (λ p, p_pid p = 0) (pptable s) with
  | Some (i, _) => i
  | None => length (pptable s)
  end).

(** ** Creation *)

Definition allocproc : PM (option nat) :=
  acquire_lk L_ptable;;
  l ← gets ptable;
  match list_find (λ p, p_state p = UNUSED) l with
  | None =>
      (* p is &ptable.proc[NPROC] here, and is written to *)
      proc_upd (length l) (set_priority PL3);;
      release_lk L_ptable;;
      mret None
  | Some (i, _) =>
      t ← gets ticks;
      n ← gets nextpid;
      modify (on_nextpid (λ n, n +i 1));;
      proc_upd i (λ p,
        set_tickets 10 (set_last_run (s32 t) (set_arrival_time t (set_clicks 1
          (set_priority PL3 (set_pid n (set_state EMBRYO p)))))));;
      release_lk L_ptable;;
      k ← lift_vm kalloc;
      proc_upd i (set_kstack k);;
      if k =? 0 then
        proc_upd i (set_state UNUSED);;
        mret None
      else
        proc_upd i (λ p,
          set_context (Context 0 0 0 0 A_forkret A_trapret)
            (set_tf trapframe_junk
              (set_tf_addr (k +u KSTACKSIZE -u sizeof_trapframe) p)));;
        mret (Some i)
  end.

Definition initcode_tf : trapframe :=
  let ds := Z.lor (Z.shiftl SEG_UDATA 3) DPL_USER in
  set_tf_eip 0 (set_tf_esp PGSIZE (set_tf_eflags FL_IF (set_tf_ss ds (set_tf_es ds
    (set_tf_ds ds (set_tf_cs (Z.lor (Z.shiftl SEG_UCODE 3) DPL_USER) trapframe0)))))).

(** [initcode] is the linked image of initcode.S. *)
Definition userinit (initcode : list Z) : PM unit :=
  o ← allocproc;
  modify (on_initproc (λ _, o));;
  i ← deref o;
  pgdir ← lift_vm setupkvm;
  proc_upd i (set_pgdir pgdir);;
  if pgdir =? 0 then panic "userinit: out of memory?"
  else
    lift_vm (inituvm pgdir initcode);;
    proc_upd i (λ p,
      set_name (copy_name (p_name p) (bytes "initcode"))
        (set_tf initcode_tf (set_sz PGSIZE p)));;
    ip ← lift_fs (namei (bytes "/"));
    proc_upd i (set_cwd ip);;
    acquire_lk L_ptable;;
    proc_upd i (set_state RUNNABLE);;
    release_lk L_ptable.

Definition growproc (c : nat) (n : Z) : PM Z :=
  i ← curproc c;
  p ← proc_get i;
  let fin sz :=
    proc_upd i (set_sz sz);;
    lift_vm (switchuvm (p_kstack p) (p_pgdir p));;
    mret 0 in
  if 0 <? n then
    sz ← lift_vm (allocuvm (p_pgdir p) (p_sz p) (p_sz p +u n));
    if sz =? 0 then mret (-1) else fin (u32 sz)
  else if n <? 0 then
    sz ← lift_vm (deallocuvm (p_pgdir p) (p_sz p) (p_sz p +u n));
    if sz =? 0 then mret (-1) else fin (u32 sz)
  else fin (p_sz p).

(** The loop of [fork] over the descriptors, [n] of them from [fd] on. *)
Fixpoint fork_files (ofile : list (option nat)) (np fd : nat) : PM unit :=
  match ofile with
  | [] => mret tt
  | None :: ofile' => fork_files ofile' np (S fd)
  | Some f :: ofile' =>
      f' ← lift_fs (filedup f);
      proc_upd np (λ p, set_ofile (<[fd := Some f']> (p_ofile p)) p);;
      fork_files ofile' np (S fd)
  end.

Definition empty_log : list (Z * Z) := replicate (Z.to_nat NLOGPAIR) (0, 0).

(** [fork] after [allocproc] returned the slot [np]. *)
Definition fork_finish (i np : nat) : PM Z :=
  cur ← proc_get i;
  pgdir ← lift_vm (copyuvm (p_pgdir cur) (p_sz cur));
  proc_upd np (set_pgdir pgdir);;
  if pgdir =? 0 then
    n ← proc_get np;
    lift_vm (kfree (p_kstack n));;
    proc_upd np (λ p, set_state UNUSED (set_kstack 0 p));;
    mret (-1)
  else
    proc_upd np (λ p, set_tf (set_tf_eax 0 (p_tf cur)) (set_parent (Some i) (set_sz (p_sz cur) p)));;
    fork_files (p_ofile cur) np 0;;
    cwd ← lift_fs (idup (p_cwd cur));
    proc_upd np (λ p, set_name (copy_name (p_name p) (p_name cur)) (set_cwd cwd p));;
    n ← proc_get np;
    acquire_lk L_ptable;;
    proc_upd np (set_state RUNNABLE);;
    proc_upd np (set_sysclog empty_log);;
    release_lk L_ptable;;
    mret (p_pid n).

Definition fork (c : nat) : PM Z :=
  i ← curproc c;
  o ← allocproc;
  match o with
  | None => mret (-1)
  | Some np => fork_finish i np
  end.

(** ** Termination *)

(** The loop of [exit] that closes descriptors, [n] of them from [fd] on. *)
Fixpoint exit_close (i n fd : nat) : PM unit :=
  match n with
  | O => mret tt
  | S n' =>
      p ← proc_get i;
      (match p_ofile p !! fd with
       | Some (Some f) =>
           lift_fs (fileclose f);;
           proc_upd i (λ p, set_ofile (<[fd := None]> (p_ofile p)) p)
       | Some None => mret tt
       | None => fail (Undef "ofile index")
       end);;
      exit_close i n' (S fd)
  end.

(** [exit] before it takes [ptable.lock]. *)
Definition exit_files (i : nat) : PM unit :=
  init ← gets initproc;
  if bool_decide (Some i = init) then panic "init exiting"
  else
    exit_close i (Z.to_nat NOFILE) 0;;
    p ← proc_get i;
    lift_fs begin_op;;
    lift_fs (iput (p_cwd p));;
    lift_fs end_op;;
    proc_upd i (set_cwd None).

(** The channel that is the address of a process, or null. *)
Definition chan_of (o : option nat) : chan :=
  match o with Some i => ChProc i | None => NoChan end.

(** The loop of [exit] that passes the children of [i] to init: [n] slots
    from slot [k] on. *)
Fixpoint reparent (i n k : nat) : PM unit :=
  match n with
  | O => mret tt
  | S n' =>
      p ← proc_get k;
      init ← gets initproc;
      when (bool_decide (p_parent p = Some i)) (
        proc_upd k (set_parent init);;
        when (bool_decide (p_state p = ZOMBIE)) (wakeup1 (chan_of init)));;
      reparent i n' (S k)
  end.

Definition log_of (i : nat) : PM (list (Z * Z)) := p ← proc_get i; mret (p_sysclog p).

(** [exit] from taking [ptable.lock] to the call of [sched]. *)
Definition exit_locked (c i : nat) : PM unit :=
  acquire_lk L_ptable;;
  p ← proc_get i;
  wakeup1 (chan_of (p_parent p));;
  reparent i (Z.to_nat NPROC) 0;;
  acquire_lk L_pptable;;
  npptable ← pptable_slot;
  pptable_upd npptable (λ q, Some (set_pid (p_pid p) q));;
  log_copy (log_of i) (λ k e, pptable_upd npptable (log_put k e)) (Z.to_nat NLOGPAIR) 0 0;;
  release_lk L_pptable;;
  proc_upd i (set_state ZOMBIE);;
  sched c A_exit;;
  scheduler_return c.

Definition exit (c : nat) : PM unit :=
  i ← curproc c;
  exit_files i;;
  exit_locked c i.

(** [wait] frees the child in slot [k]. *)
Definition reap (k : nat) : PM Z :=
  p ← proc_get k;
  lift_vm (kfree (p_kstack p));;
  proc_upd k (set_kstack 0);;
  lift_vm (freevm (p_pgdir p));;
  proc_upd k (λ p, set_state UNUSED (set_killed 0 (set_name (<[0%nat := 0]> (p_name p))
    (set_parent None (set_pid 0 p)))));;
  release_lk L_ptable;;
  mret (p_pid p).

(** One iteration of the loop of [wait], entered with [ptable.lock] held:
    a result, or [None] when the process went to sleep and will run another
    iteration. *)
Definition wait_iter (c i : nat) : PM (option Z) :=
  l ← gets ptable;
  match list_find (λ p, p_parent p = Some i ∧ p_state p = ZOMBIE) l with
  | Some (k, _) => pid ← reap k; mret (Some pid)
  | None =>
      let havekids := bool_decide (Exists (λ p, p_parent p = Some i) l) in
      cur ← proc_get i;
      if negb havekids || negb (p_killed cur =? 0) then
        release_lk L_ptable;;
        mret (Some (-1))
      else
        sleep c (ChProc i) (Some L_ptable);;
        mret None
  end.

Definition wait (c : nat) : PM (option Z) :=
  i ← curproc c;
  acquire_lk L_ptable;;
  wait_iter c i.

Definition kill (pid : Z) : PM Z :=
  acquire_lk L_ptable;;
  l ← gets ptable;
  match list_find (λ p, p_pid p = pid) l with
  | None => release_lk L_ptable;; mret (-1)
  | Some (k, _) =>
      proc_upd k (set_killed 1);;
      p ← proc_get k;
      when (bool_decide (p_state p = SLEEPING)) (proc_upd k (set_state RUNNABLE));;
      init ← gets initproc;
      npair ← log_copy (log_of k)
        (λ n e, j ← deref init; ptable_log_put j n e) (Z.to_nat NLOGPAIR) 0 0;
      acquire_lk L_pptable;;
      npptable ← pptable_slot;
      pptable_upd npptable (λ q, Some (set_pid (p_pid p) q));;
      log_copy (log_of k) (λ n e, pptable_upd npptable (log_put n e))
        (Z.to_nat NLOGPAIR) 0 npair;;
      release_lk L_pptable;;
      release_lk L_ptable;;
      mret 0
  end.
End proc.
