(* ===== verification/ProcCalls.v ===== *)
(** * Process-related system calls and listings of [proc.c]

    [procdump], [count_num_of_digits], [set_alarm], [print_syscalls],
    [set_edx], [read_registers], [ps], [set_tickets] and [set_queue].  What
    they print goes to the console trace of the state. *)

From S2P Require Import Prelude Params CString Cprintf Rand Spinlock ProcState Sched Proc.

Definition state_index (st : procstate) : nat :=
  match st with
  | UNUSED => 0 | EMBRYO => 1 | SLEEPING => 2 | RUNNABLE => 3 | RUNNING => 4 | ZOMBIE => 5
  end.

(** [states] of [procdump]. *)
Definition states : list string :=
  ["unused"; "embryo"; "sleep "; "runble"; "run   "; "zombie"].

(** [names] of [print_syscalls]. *)
Definition names : list string :=
  [""; "fork"; "exit"; "wait"; "pipe"; "read";
   "kill"; "exec"; "fstat"; "chdir"; "dup"; "getpid"; "sbrk"; "sleep";
   "uptime"; "open"; "write"; "mknod"; "unlink"; "link"; "mkdir";
   "close"; "count_num_of_digits"; "set_alarm"; "print_syscalls";
   "set_edx"; "read_registers"].

(** A [char *] argument that points to a name field. *)
Definition name_arg (n : list Z) : carg := AStr (cstr n).

(** [while (n > 0) { count++; n = n / 10; }]; ten iterations are enough for
    an [int]. *)
Fixpoint digit_count (fuel : nat) (n count : Z) : Z :=
  match fuel with
  | O => count
  | S k => if 0 <? n then digit_count k (n / 10) (count + 1) else count
  end.

Section calls.
Context {V F : Type} `{!MemOps V, !FileOps F}.
Abbreviation PM := (M (pst V F)).

(** [for(i=0; i<10 && pc[i] != 0; i++) cprintf(" %p", pc[i]);] *)
Fixpoint print_pcs (pcs : list Z) : PM unit :=
  match pcs with
  | [] => mret tt
  | pc :: pcs' => if pc =? 0 then mret tt else print " %p" [AInt pc];; print_pcs pcs'
  end.

(** The loop of [procdump]; [stack] is the memory the saved frame pointers
    lead into. *)
Fixpoint procdump_loop (stack : mem) (l : list proc) : PM unit :=
  match l with
  | [] => mret tt
  | p :: l' =>
      if bool_decide (p_state p = UNUSED) then procdump_loop stack l'
      else
        let state := default "???" (states !! state_index (p_state p)) in
        print "%d %s %s" [AInt (p_pid p); AStr (bytes state); name_arg (p_name p)];;
        when (bool_decide (p_state p = SLEEPING))
          (print_pcs (getcallerpcs stack (c_ebp (p_context p) +u 8)));;
        print "\n" [];;
        procdump_loop stack l'
  end.
Definition procdump (stack : mem) : PM unit := gets ptable ≫= procdump_loop stack.

Definition count_num_of_digits (c : nat) : PM Z :=
  i ← curproc c;
  p ← proc_get i;
  let n := s32 (tf_ebx (p_tf p)) in
  let count := digit_count 10 n 0 in
  print "count of number %d digits: %d \n" [AInt n; AInt count];;
  mret count.

Definition set_alarm (c : nat) (time : Z) : PM unit :=
  if time <=? 0 then print "time should be bigger than zero, no alarm is set!\n" []
  else
    acquire_lk L_tickslock;;
    i ← curproc c;
    t ← gets ticks;
    proc_upd i (set_alarm_time (s32 (t +u (time / 10))));;
    release_lk L_tickslock.

(** The loop over the log of one process in [print_syscalls]; it ends at the
    first unused pair. *)
Fixpoint print_log (l : list (Z * Z)) : PM unit :=
  match l with
  | [] => mret tt
  | (callno, retval) :: l' =>
      if callno =? 0 then mret tt
      else
        (if Z.of_nat (length names) <? callno then
           print "\t%s:\t%d\n" [AStr (bytes "unknown"); AInt retval]
         else
           n ← of_option (Undef "names index") (names !! Z.to_nat callno);
           print "\t%s:\t%d\n" [AStr (bytes n); AInt retval]);;
        print_log l'
  end.
Fixpoint print_logs (l : list proc) : PM unit :=
  match l with
  | [] => mret tt
  | p :: l' =>
      if p_pid p =? 0 then print_logs l'
      else
        print "Proc %d\n" [AInt (p_pid p)];;
        print_log (p_sysclog p);;
        print_logs l'
  end.
Definition print_syscalls : PM Z :=
  acquire_lk L_ptable;;
  gets ptable ≫= print_logs;;
  release_lk L_ptable;;
  print "Terminated Processes: \n" [];;
  acquire_lk L_pptable;;
  gets pptable ≫= print_logs;;
  release_lk L_pptable;;
  mret 23.

Definition set_edx (c : nat) (value : Z) : PM Z :=
  acquire_lk L_ptable;;
  i ← curproc c;
  proc_upd i (λ p, set_tf (set_tf_edx (u32 value) (p_tf p)) p);;
  release_lk L_ptable;;
  mret 25.

Definition read_registers (c : nat) : PM Z :=
  acquire_lk L_ptable;;
  i ← curproc c;
  p ← proc_get i;
  let t := p_tf p in
  print "\x1B[32mEAX\x1B[37m:  \x1B[36m0x%x\x1B[0m\n" [AInt (tf_eax t)];;
  print "\x1B[32mEBX\x1B[37m:  \x1B[36m0x%x\x1B[0m\n" [AInt (tf_ebx t)];;
  print "\x1B[32mECX\x1B[37m:  \x1B[36m0x%x\x1B[0m\n" [AInt (tf_ecx t)];;
  print "\x1B[32mEDX\x1B[37m:  \x1B[36m0x%x\x1B[0m\n" [AInt (tf_edx t)];;
  print "\x1B[32mESI\x1B[37m:  \x1B[36m0x%x\x1B[0m\n" [AInt (tf_esi t)];;
  print "\x1B[32mEDI\x1B[37m:  \x1B[36m0x%x\x1B[0m\n" [AInt (tf_edi t)];;
  print "\x1B[32mEBP\x1B[37m:  \x1B[36m0x%x\x1B[0m\n" [AInt (tf_ebp t)];;
  print "\x1B[32mESP\x1B[37m:  \x1B[36m0x%x\x1B[0m\n" [AInt (tf_esp t)];;
  print "\x1B[32mEIP\x1B[37m:  \x1B[36m0x%x\x1B[0m\n" [AInt (tf_eip t)];;
  print "\x1B[32mEFLAGS\x1B[37m:  \x1B[36m0x%x\x1B[0m\n" [AInt (tf_eflags t)];;
  print "\x1B[32mSS\x1B[37m:  \x1B[36m0x%x\x1B[0m\n" [AInt (tf_ss t)];;
  print "\x1B[32mDS\x1B[37m:  \x1B[36m0x%x\x1B[0m\n" [AInt (tf_ds t)];;
  print "\x1B[32mES\x1B[37m:  \x1B[36m0x%x\x1B[0m\n" [AInt (tf_es t)];;
  print "\x1B[32mFS\x1B[37m:  \x1B[36m0x%x\x1B[0m\n" [AInt (tf_fs t)];;
  print "\x1B[32mGS\x1B[37m:  \x1B[36m0x%x\x1B[0m\n" [AInt (tf_gs t)];;
  release_lk L_ptable;;
  mret 26.

Definition ps_state : list string :=
  ["UNUSED"; "EMBRYO"; "SLEEPING"; "RUNNABLE"; "RUNNING"; "ZOMBIE"].
Definition ps_priority : list string := ["1"; "2"; "3"].
Fixpoint ps_loop (l : list proc) : PM unit :=
  match l with
  | [] => mret tt
  | p :: l' =>
      if p_pid p =? 0 then ps_loop l'
      else
        st ← of_option (Undef "state index") (ps_state !! state_index (p_state p));
        pr ← of_option (Undef "priority index")
               (if p_priority p <? 0 then None else ps_priority !! Z.to_nat (p_priority p));
        print "%s \t %d \t %s \t %s \t\t %d \t \n"
          [name_arg (p_name p); AInt (p_pid p); AStr (bytes st); AStr (bytes pr);
           AInt (p_arrival_time p)];;
        ps_loop l'
  end.
Definition ps : PM Z :=
  acquire_lk L_ptable;;
  print "name \t pid \t state \t\t priority \t create time \t \n" [];;
  gets ptable ≫= ps_loop;;
  release_lk L_ptable;;
  mret 27.

Definition set_tickets (c : nat) (value : Z) : PM Z :=
  if value <=? 0 then
    print "tickets value must be positive integer." [];;
    mret (-1)
  else
    acquire_lk L_ptable;;
    i ← curproc c;
    proc_upd i (ProcState.set_tickets value);;
    release_lk L_ptable;;
    mret 0.

Definition set_queue (c : nat) (value : Z) : PM Z :=
  if negb (value =? PL1) && negb (value =? PL2) && negb (value =? PL3) then
    print "queue priority entered is not defined." [];;
    mret (-1)
  else
    acquire_lk L_ptable;;
    i ← curproc c;
    proc_upd i (set_priority value);;
    release_lk L_ptable;;
    mret 0.
End calls.
