(* ===== verification/ProcSpec.v ===== *)
(** * What the process table promises: an abstract process manager

    The abstract state keeps, for every slot, what the rest of the kernel may
    rely on: state, pid, parent, sleep channel, and where the process resumes.
    Each rule is one atomic transition (a critical section under
    [ptable.lock]).  [ProcRefine.v] shows that the code of [proc.c] only makes
    these transitions; here are the invariants they keep. *)

From S2P Require Import Prelude ProcState Sched Proc.

Record pcore := PCore {
  k_state : procstate;
  k_pid : Z;
  k_parent : option nat;
  k_chan : chan;
  k_eip : code;
  k_ret : code;
}.

Record core := Core {
  procs : list pcore;
  oncpu : list (option nat);
  init : option nat;
  next : Z;
}.

Definition with_state (st : procstate) (p : pcore) : pcore :=
  PCore st (k_pid p) (k_parent p) (k_chan p) (k_eip p) (k_ret p).

Definition alive (p : pcore) : Prop :=
  k_state p = SLEEPING ∨ k_state p = RUNNABLE ∨ k_state p = RUNNING.

(** All sleepers on a channel become runnable. *)
Definition wake (ch : chan) (p : pcore) : pcore :=
  if bool_decide (k_state p = SLEEPING ∧ k_chan p = ch) then with_state RUNNABLE p else p.

(** The children of [i] become children of [j]. *)
Definition adopt (i : nat) (j : option nat) (p : pcore) : pcore :=
  if bool_decide (k_parent p = Some i)
  then PCore (k_state p) (k_pid p) j (k_chan p) (k_eip p) (k_ret p) else p.

Definition zombie_child (i : nat) (p : pcore) : Prop :=
  k_parent p = Some i ∧ k_state p = ZOMBIE.
#[export] Instance zombie_child_dec i p : Decision (zombie_child i p).
Proof. unfold zombie_child. apply _. Defined.

(** The table after [i] exited: its parent is woken, init inherits its
    children and is woken if one of them is a zombie, and [i] is a zombie. *)
Definition bereaved (i : nat) (par ini : option nat) (z : bool) (p : pcore) : pcore :=
  let p := adopt i ini (wake (chan_of par) p) in
  if z then wake (chan_of ini) p else p.
Definition exited (i : nat) (par ini : option nat) (l : list pcore) : list pcore :=
  let z := bool_decide (Exists (zombie_child i) l) in
  alter (λ p, PCore ZOMBIE (k_pid p) (k_parent p) (k_chan p) A_sched A_exit) i
    (bereaved i par ini z <$> l).

Inductive sstep : core → core → Prop :=
(** A free slot is taken, with the next pid ... *)
| S_alloc l r ini n i p :
    l !! i = Some p → k_state p = UNUSED → n < 2147483647 →
    sstep (Core l r ini n)
      (Core (<[i := PCore EMBRYO n (k_parent p) (k_chan p) A_forkret A_trapret]> l) r ini (n + 1))
(** ... or given back because there was no memory for its stack. *)
| S_alloc_fail l r ini n i p :
    l !! i = Some p → k_state p = UNUSED → n < 2147483647 →
    sstep (Core l r ini n)
      (Core (<[i := PCore UNUSED n (k_parent p) (k_chan p) (k_eip p) (k_ret p)]> l) r ini (n + 1))
| S_fork l r ini n c i np p :
    r !! c = Some (Some i) → l !! np = Some p → k_state p = EMBRYO →
    sstep (Core l r ini n)
      (Core (<[np := PCore RUNNABLE (k_pid p) (Some i) (k_chan p) (k_eip p) (k_ret p)]> l) r ini n)
| S_fork_fail l r ini n np p :
    l !! np = Some p → k_state p = EMBRYO →
    sstep (Core l r ini n) (Core (<[np := with_state UNUSED p]> l) r ini n)
| S_exit l r ini n c i p :
    r !! c = Some (Some i) → l !! i = Some p → ini ≠ Some i →
    sstep (Core l r ini n) (Core (exited i (k_parent p) ini l) (<[c := None]> r) ini n)
(** wait: a zombie child is freed ... *)
| S_reap l r ini n c i k p :
    r !! c = Some (Some i) → l !! k = Some p → zombie_child i p →
    sstep (Core l r ini n)
      (Core (<[k := PCore UNUSED 0 None (k_chan p) (k_eip p) (k_ret p)]> l) r ini n)
(** ... or the parent sleeps, but only when no child is a zombie. *)
| S_wait_sleep l r ini n c i p :
    r !! c = Some (Some i) → l !! i = Some p → Forall (λ q, ¬ zombie_child i q) l →
    sstep (Core l r ini n)
      (Core (<[i := PCore SLEEPING (k_pid p) (k_parent p) (ChProc i) A_sched (A_sleep L_ptable)]> l)
         (<[c := None]> r) ini n)
| S_sleep l r ini n c i p ch lk :
    r !! c = Some (Some i) → l !! i = Some p → (∀ j, ch ≠ ChProc j) →
    sstep (Core l r ini n)
      (Core (<[i := PCore SLEEPING (k_pid p) (k_parent p) ch A_sched (A_sleep lk)]> l)
         (<[c := None]> r) ini n)
| S_yield l r ini n c i p :
    r !! c = Some (Some i) → l !! i = Some p →
    sstep (Core l r ini n)
      (Core (<[i := PCore RUNNABLE (k_pid p) (k_parent p) (k_chan p) A_sched A_yield]> l)
         (<[c := None]> r) ini n)
| S_wakeup l r ini n ch :
    sstep (Core l r ini n) (Core (wake ch <$> l) r ini n)
| S_kill l r ini n k p :
    l !! k = Some p → k_state p = SLEEPING →
    sstep (Core l r ini n) (Core (<[k := with_state RUNNABLE p]> l) r ini n)
(** The scheduler of an idle cpu runs a runnable process, which stops being
    on a sleep channel if it was. *)
| S_run l r ini n c i p ch :
    r !! c = Some None → l !! i = Some p → k_state p = RUNNABLE →
    ch = k_chan p ∨ ch = NoChan →
    sstep (Core l r ini n)
      (Core (<[i := PCore RUNNING (k_pid p) (k_parent p) ch (k_eip p) (k_ret p)]> l)
         (<[c := Some i]> r) ini n).

(** Where a process that can be scheduled resumes. *)
Definition resumable (p : pcore) : Prop :=
  k_eip p = A_forkret ∨
  (k_eip p = A_sched ∧ (k_ret p = A_yield ∨ ∃ lk, k_ret p = A_sleep lk)).

(** ** The invariant *)

(** A process is in state RUNNING exactly when it is on a cpu, and on one
    cpu only. *)
Record cpu_inv (s : core) : Prop := {
  ci_running : ∀ c i, oncpu s !! c = Some (Some i) →
    ∃ p, procs s !! i = Some p ∧ k_state p = RUNNING;
  ci_oncpu : ∀ i p, procs s !! i = Some p → k_state p = RUNNING →
    ∃ c, oncpu s !! c = Some (Some i);
  ci_once : ∀ c c' i, oncpu s !! c = Some (Some i) → oncpu s !! c' = Some (Some i) → c = c';
}.

(** Parents are alive, free slots have none; init is alive and has none; a
    parent asleep in wait has no zombie child. *)
Record family_inv (s : core) : Prop := {
  ci_parent : ∀ i p j, procs s !! i = Some p → k_parent p = Some j →
    j ≠ i ∧ ∃ q, procs s !! j = Some q ∧ alive q;
  ci_free : ∀ i p, procs s !! i = Some p → k_state p = UNUSED ∨ k_state p = EMBRYO →
    k_parent p = None;
  ci_init : ∃ i p, init s = Some i ∧ procs s !! i = Some p ∧ alive p ∧ k_parent p = None;
  ci_wait : ∀ i p k q, procs s !! i = Some p → k_state p = SLEEPING → k_chan p = ChProc i →
    procs s !! k = Some q → ¬ zombie_child i q;
}.

(** Pids in use are positive, below the next one, and distinct. *)
Record pid_inv (s : core) : Prop := {
  ci_pid : ∀ i p, procs s !! i = Some p → k_state p ≠ UNUSED → 0 < k_pid p < next s;
  ci_unique : ∀ i j p q, procs s !! i = Some p → procs s !! j = Some q →
    k_state p ≠ UNUSED → k_state q ≠ UNUSED → k_pid p = k_pid q → i = j;
  ci_next : 0 < next s;
}.

(** A process that can be scheduled has somewhere to resume. *)
Definition resume_inv (s : core) : Prop :=
  ∀ i p, procs s !! i = Some p → alive p ∨ k_state p = EMBRYO → resumable p.

Record cinv (s : core) : Prop := {
  inv_cpu : cpu_inv s;
  inv_family : family_inv s;
  inv_pid : pid_inv s;
  inv_resume : resume_inv s;
}.

(** ** Preservation *)

(** Split lookups in updated tables. *)
Ltac tables :=
  repeat match goal with
  | H : <[_ := _]> _ !! _ = Some _ |- _ =>
      apply list_lookup_insert_Some in H as [(?&?&?)|(?&?)]; subst; simpl in *
  | H : (_ <$> _) !! _ = Some _ |- _ =>
      apply list_lookup_fmap_Some in H as (?&?&?); subst; simpl in *
  end; simplify_eq/=.

Lemma wake_keeps ch p :
  k_pid (wake ch p) = k_pid p ∧ k_parent (wake ch p) = k_parent p ∧
  k_chan (wake ch p) = k_chan p ∧ k_eip (wake ch p) = k_eip p ∧ k_ret (wake ch p) = k_ret p ∧
  (k_state (wake ch p) = k_state p ∨
   k_state p = SLEEPING ∧ k_chan p = ch ∧ k_state (wake ch p) = RUNNABLE) ∧
  (k_state (wake ch p) ≠ SLEEPING ∨ k_chan p ≠ ch).
Proof. unfold wake. case_bool_decide as H; simpl; [intuition congruence|].
  destruct (decide (k_state p = SLEEPING)); intuition congruence.
Qed.

Lemma adopt_keeps i j p :
  k_pid (adopt i j p) = k_pid p ∧ k_state (adopt i j p) = k_state p ∧
  k_chan (adopt i j p) = k_chan p ∧ k_eip (adopt i j p) = k_eip p ∧ k_ret (adopt i j p) = k_ret p ∧
  (k_parent p ≠ Some i ∧ k_parent (adopt i j p) = k_parent p ∨
   k_parent p = Some i ∧ k_parent (adopt i j p) = j).
Proof. unfold adopt. case_bool_decide as H; simpl; intuition congruence. Qed.

Lemma bereaved_keeps i par ini z p :
  let p' := bereaved i par ini z p in
  k_pid p' = k_pid p ∧ k_chan p' = k_chan p ∧ k_eip p' = k_eip p ∧ k_ret p' = k_ret p ∧
  (k_parent p ≠ Some i ∧ k_parent p' = k_parent p ∨ k_parent p = Some i ∧ k_parent p' = ini) ∧
  (k_state p' = k_state p ∨ k_state p = SLEEPING ∧ k_state p' = RUNNABLE) ∧
  (k_state p' ≠ SLEEPING ∨ k_chan p ≠ chan_of par) ∧
  (z = true → k_state p' ≠ SLEEPING ∨ k_chan p ≠ chan_of ini).
Proof.
  unfold bereaved.
  pose proof (wake_keeps (chan_of par) p) as (H1&H2&H3&H4&H5&H6&H7).
  pose proof (adopt_keeps i ini (wake (chan_of par) p)) as (A1&A2&A3&A4&A5&A6).
  destruct z; [|rewrite A1, A3, A4, A5, A2; intuition congruence].
  pose proof (wake_keeps (chan_of ini) (adopt i ini (wake (chan_of par) p)))
    as (W1&W2&W3&W4&W5&W6&W7).
  rewrite W1, W2, W3, W4, W5, A1, A3, A4, A5, A2 in *. intuition congruence.
Qed.

(** The effect of [exited] on one slot. *)
Lemma exited_lookup i par ini l k p' :
  exited i par ini l !! k = Some p' →
  ∃ p, l !! k = Some p ∧
    let q := bereaved i par ini (bool_decide (Exists (zombie_child i) l)) p in
    (k ≠ i ∧ p' = q ∨
     k = i ∧ p' = PCore ZOMBIE (k_pid q) (k_parent q) (k_chan q) A_sched A_exit).
Proof.
  unfold exited. rewrite list_lookup_alter. case_decide as Hk.
  - rewrite fmap_Some. intros (q&Hq&->). apply list_lookup_fmap_Some in Hq as (p&->&?).
    exists p. subst. auto.
  - rewrite list_lookup_fmap_Some. intros (p&->&?). exists p. auto.
Qed.

Lemma lookup_exited i par ini l k p :
  l !! k = Some p → k ≠ i →
  exited i par ini l !! k =
    Some (bereaved i par ini (bool_decide (Exists (zombie_child i) l)) p).
Proof.
  intros Hp Hk. unfold exited.
  rewrite list_lookup_alter_ne by done. by rewrite list_lookup_fmap, Hp.
Qed.

(** The cpu part only looks at states. *)
Lemma cpu_inv_ext l l' r ini ini' n n' :
  (∀ i, (∃ p, l !! i = Some p ∧ k_state p = RUNNING) ↔
        (∃ p, l' !! i = Some p ∧ k_state p = RUNNING)) →
  cpu_inv (Core l r ini n) → cpu_inv (Core l' r ini' n').
Proof.
  intros Heq [H1 H2 H3]. split; simpl in *.
  - intros c i Hc. apply Heq. eauto.
  - intros i p Hp Hr. destruct (proj2 (Heq i)) as (q&?&?); eauto.
  - done.
Qed.

(** A slot that is not running is updated to one that is not running. *)
Lemma cpu_inv_upd l r ini n n' i p p' :
  l !! i = Some p → k_state p ≠ RUNNING → k_state p' ≠ RUNNING →
  cpu_inv (Core l r ini n) → cpu_inv (Core (<[i := p']> l) r ini n').
Proof.
  intros Hp Hr Hr'. apply cpu_inv_ext. intros j.
  destruct (decide (i = j)) as [->|Hne].
  - rewrite list_lookup_insert_eq by (by eapply lookup_lt_Some).
    split; intros (q&?&?); simplify_eq.
  - by rewrite list_lookup_insert_ne.
Qed.

Lemma cpu_inv_fmap l r ini n (f : pcore → pcore) :
  (∀ p, k_state (f p) = RUNNING ↔ k_state p = RUNNING) →
  cpu_inv (Core l r ini n) → cpu_inv (Core (f <$> l) r ini n).
Proof.
  intros Hf. apply cpu_inv_ext. intros i. split; intros (q&Hq&Hr).
  - exists (f q). rewrite Hf. split; [|done]. by rewrite list_lookup_fmap, Hq.
  - apply list_lookup_fmap_Some in Hq as (p&->&?). exists p. by rewrite <-Hf.
Qed.

(** The process on a cpu leaves it. *)
Lemma cpu_inv_leave l r ini n c i p' :
  r !! c = Some (Some i) → k_state p' ≠ RUNNING →
  cpu_inv (Core l r ini n) → cpu_inv (Core (<[i := p']> l) (<[c := None]> r) ini n).
Proof.
  intros Hc Hp' [H1 H2 H3]. split; simpl in *.
  - intros c' j Hc'. apply list_lookup_insert_Some in Hc' as [(->&?&?)|(Hne&Hc')]; [done|].
    destruct (H1 _ _ Hc') as (q&Hq&Hr). exists q.
    rewrite list_lookup_insert_ne; [done|]. intros ->. by specialize (H3 _ _ _ Hc Hc').
  - intros j q Hq Hr. apply list_lookup_insert_Some in Hq as [(->&?&?)|(Hne&Hq)]; [congruence|].
    destruct (H2 _ _ Hq Hr) as [c' Hc']. exists c'.
    rewrite list_lookup_insert_ne; [done|]. intros ->. congruence.
  - intros c1 c2 j Hc1 Hc2.
    apply list_lookup_insert_Some in Hc1 as [(?&?&?)|(?&?)]; [done|].
    apply list_lookup_insert_Some in Hc2 as [(?&?&?)|(?&?)]; [done|]. eauto.
Qed.

(** An idle cpu starts a process. *)
Lemma cpu_inv_enter l r ini n c i p p' :
  r !! c = Some None → l !! i = Some p → k_state p ≠ RUNNING → k_state p' = RUNNING →
  cpu_inv (Core l r ini n) → cpu_inv (Core (<[i := p']> l) (<[c := Some i]> r) ini n).
Proof.
  intros Hc Hp Hns Hp' [H1 H2 H3].
  pose proof (lookup_lt_Some _ _ _ Hc). pose proof (lookup_lt_Some _ _ _ Hp).
  assert (∀ c', r !! c' ≠ Some (Some i)) as Hno.
  { intros c' Hc'. destruct (H1 _ _ Hc') as (q&?&?). by simplify_eq/=. }
  split; simpl in *.
  - intros c' j Hc'. apply list_lookup_insert_Some in Hc' as [(->&?&?)|(Hne&Hc')]; simplify_eq.
    + exists p'. by rewrite list_lookup_insert_eq.
    + destruct (H1 _ _ Hc') as (q&?&?). exists q.
      rewrite list_lookup_insert_ne; [done|]. intros ->. by apply (Hno c').
  - intros j q Hq Hr. apply list_lookup_insert_Some in Hq as [(->&?&?)|(Hne&Hq)].
    + exists c. by rewrite list_lookup_insert_eq.
    + destruct (H2 _ _ Hq Hr) as [c' Hc']. exists c'.
      rewrite list_lookup_insert_ne; [done|]. intros ->. congruence.
  - intros c1 c2 j Hc1 Hc2.
    apply list_lookup_insert_Some in Hc1 as [(?&?&?)|(?&?)];
    apply list_lookup_insert_Some in Hc2 as [(?&?&?)|(?&?)]; simplify_eq;
      eauto; exfalso; by eapply Hno.
Qed.

Lemma alter_fmap_insert {A B} (f : A → B) (g : B → B) (i : nat) (l : list A) x :
  l !! i = Some x → alter g i (f <$> l) = <[i := g (f x)]> (f <$> l).
Proof. intros Hx. apply alter_insert. by rewrite list_lookup_fmap, Hx. Qed.

Lemma cpu_step s s' : cpu_inv s → sstep s s' → cpu_inv s'.
Proof.
  intros Hi Hs. destruct Hs.
  all: try (eapply cpu_inv_upd; [done| |..|done]; simpl; congruence).
  all: try (eapply cpu_inv_leave; [done| |done]; simpl; congruence).
  - unfold exited. erewrite alter_fmap_insert by done.
    apply (cpu_inv_leave _ _ _ _ c i); [done|done|].
    apply cpu_inv_fmap; [|done]. intros q.
    destruct (bereaved_keeps i (k_parent p) ini
      (bool_decide (Exists (zombie_child i) l)) q) as (_&_&_&_&_&[->|[H2 H3]]&_);
      [done|rewrite H3, H2; split; congruence].
  - eapply cpu_inv_upd; [done| |..|done]; simpl; try congruence.
    destruct H1 as [_ ?]. congruence.
  - apply cpu_inv_fmap; [|done]. intros q.
    destruct (wake_keeps ch q) as (_&_&_&_&_&[->|(?&?&H2)]&_); [done|].
    rewrite H2. split; congruence.
  - eapply cpu_inv_enter; [done|done| |done|done]. congruence.
Qed.

Lemma resume_step s s' : resume_inv s → sstep s s' → resume_inv s'.
Proof.
  intros Hi Hs k q. destruct Hs; simpl.
  all: intros Hk Hal; try (
    apply list_lookup_insert_Some in Hk as [(->&<-&_)|(_&Hk)]; [|by eapply Hi];
    unfold resumable; simpl in *; (by eauto 6) ||
    (assert (resumable p) by (eapply Hi; [done|unfold alive; tauto]); done) ||
    (unfold alive in Hal; simpl in Hal; intuition discriminate)).
  - apply exited_lookup in Hk as (q0&Hq0&[[Hne ->]|[-> ->]]).
    + destruct (bereaved_keeps i (k_parent p) ini
        (bool_decide (Exists (zombie_child i) l)) q0) as (_&_&He&Hr&_&Hst&_).
      unfold resumable. rewrite He, Hr. apply (Hi k); [done|].
      unfold alive in *. intuition congruence.
    + unfold alive in Hal. simpl in Hal. intuition discriminate.
  - apply list_lookup_fmap_Some in Hk as (q0&->&Hq0).
    destruct (wake_keeps ch q0) as (_&_&_&He&Hr&Hst&_).
    unfold resumable. rewrite He, Hr. apply (Hi k); [done|].
    unfold alive in *. intuition congruence.
Qed.


(** The slot of a process on a cpu. *)
Lemma oncpu_state l r ini n c i p :
  cpu_inv (Core l r ini n) → r !! c = Some (Some i) → l !! i = Some p → k_state p = RUNNING.
Proof. intros [H1 _ _] Hc Hp. destruct (H1 _ _ Hc) as (q&?&?). by simplify_eq/=. Qed.

(** Pids stay unique when every slot in use keeps its pid, or is the only one
    to get the next pid. *)
Lemma pid_inv_step s s' :
  next s ≤ next s' →
  (∀ k q, procs s' !! k = Some q → k_state q ≠ UNUSED →
    (∃ p, procs s !! k = Some p ∧ k_state p ≠ UNUSED ∧ k_pid q = k_pid p) ∨
    (k_pid q = next s ∧ next s < next s' ∧
     ∀ k' q', procs s' !! k' = Some q' → k_state q' ≠ UNUSED → k_pid q' = next s → k' = k)) →
  pid_inv s → pid_inv s'.
Proof.
  intros Hn Hk [H1 H2 H3]. split.
  - intros i p Hp Hst. destruct (Hk _ _ Hp Hst) as [(q&Hq&Hu&->)|(->&?&_)]; [|lia].
    specialize (H1 _ _ Hq Hu). lia.
  - intros i j p q Hp Hq Hu Hu' Heq.
    destruct (Hk _ _ Hp Hu) as [(p0&Hp0&Hu0&E)|(E&_&Hun)].
    + destruct (Hk _ _ Hq Hu') as [(q0&Hq0&Hu1&E')|(E'&_&Hun)].
      * apply (H2 i j p0 q0); try done. congruence.
      * by apply (Hun i p); [..|congruence].
    + symmetry. apply (Hun j q); [done..|congruence].
  - lia.
Qed.

Lemma pid_step s s' : cpu_inv s → pid_inv s → sstep s s' → pid_inv s'.
Proof.
  intros Hc Hi Hs. pose proof Hi as [H1 H2 H3].
  apply (pid_inv_step s); [by destruct Hs; simpl in *; lia| |done].
  destruct Hs; simpl in *; intros k0 q Hq Hst.
  all: try (match goal with
    | Hr : _ !! _ = Some (Some _), Hp : _ !! _ = Some _ |- _ =>
        pose proof (oncpu_state _ _ _ _ _ _ _ Hc Hr Hp) end).
  all: try (apply list_lookup_insert_Some in Hq as [(->&<-&_)|(_&Hq)]; [|by left; eauto]).
  all: simpl in *; try done.
  all: try (left; exists p; simpl in *; split_and!; [done|congruence|done]).
  - right. split_and!; [done|lia|]. intros k' q' Hq' Hst' Hpid.
    apply list_lookup_insert_Some in Hq' as [(->&<-&_)|(_&Hq')]; [done|].
    specialize (H1 _ _ Hq' Hst'). lia.
  - left. apply exited_lookup in Hq as (q0&Hq0&Hcase). exists q0. split; [done|].
    destruct (bereaved_keeps i (k_parent p) ini
      (bool_decide (Exists (zombie_child i) l)) q0) as (Hp&_&_&_&_&Hst0&_).
    destruct Hcase as [[_ ->]|[-> ->]]; simpl in *; intuition congruence.
  - left. apply list_lookup_fmap_Some in Hq as (q0&->&Hq0). exists q0. split; [done|].
    destruct (wake_keeps ch q0) as (Hp&_&_&_&_&Hst0&_). intuition congruence.
Qed.

(** ** The family of processes *)

(** Replacing one slot by one that is not a zombie, is alive if the old one
    was, keeps or drops its parent or is born to a living one, and sleeps in
    wait only without zombie children. *)
Lemma family_upd l r r' ini n n' i p p' :
  l !! i = Some p → (alive p → alive p') → k_state p' ≠ ZOMBIE →
  (k_parent p' = k_parent p ∨ k_parent p' = None ∨
   ¬ alive p ∧ ∃ j q, k_parent p' = Some j ∧ j ≠ i ∧ l !! j = Some q ∧ alive q) →
  (k_state p' = UNUSED ∨ k_state p' = EMBRYO → k_parent p' = None) →
  (k_state p' = SLEEPING → k_chan p' = ChProc i → Forall (λ q, ¬ zombie_child i q) l) →
  family_inv (Core l r ini n) → family_inv (Core (<[i := p']> l) r' ini n').
Proof.
  intros Hp Hal Hz Hpar Hfree Hsl [H1 H2 H3 H4]. pose proof (lookup_lt_Some _ _ _ Hp) as Hlt.
  simpl in *.
  assert (∀ j q, l !! j = Some q → alive q → ∃ q', <[i := p']> l !! j = Some q' ∧ alive q') as Hlive.
  { intros j q Hq Ha. destruct (decide (i = j)) as [->|Hne].
    - exists p'. rewrite list_lookup_insert_eq by done. simplify_eq. auto.
    - exists q. by rewrite list_lookup_insert_ne. }
  split; simpl.
  - intros k q j Hk Hj. apply list_lookup_insert_Some in Hk as [(->&<-&_)|(_&Hk)].
    + destruct Hpar as [E|[E|(_&j'&q&E&?&?&?)]].
      * destruct (H1 _ _ j Hp) as (?&q1&?&?); [congruence|eauto].
      * congruence.
      * assert (j' = j) as -> by congruence. eauto.
    + destruct (H1 _ _ _ Hk Hj) as (?&q1&?&?). eauto.
  - intros k q Hk. apply list_lookup_insert_Some in Hk as [(->&<-&_)|(_&Hk)]; eauto.
  - destruct H3 as (j&q&Hj&Hq&Ha&Hn). exists j. destruct (decide (i = j)) as [->|Hne].
    + exists p'. rewrite list_lookup_insert_eq by done. simplify_eq.
      split_and!; auto. destruct Hpar as [E|[E|(?&_)]]; congruence || done.
    + exists q. by rewrite list_lookup_insert_ne.
  - intros j pj k q Hj Hs Hch Hk Hzc.
    apply list_lookup_insert_Some in Hk as [(_&<-&_)|(_&Hk)]; [by destruct Hzc|].
    apply list_lookup_insert_Some in Hj as [(->&<-&_)|(_&Hj)];
      [|exact (H4 _ _ _ _ Hj Hs Hch Hk Hzc)].
    specialize (Hsl Hs Hch). rewrite Forall_lookup in Hsl. exact (Hsl _ _ Hk Hzc).
Qed.

Lemma family_wake l r ini n ch :
  family_inv (Core l r ini n) → family_inv (Core (wake ch <$> l) r ini n).
Proof.
  intros [H1 H2 H3 H4]. simpl in *.
  assert (∀ q, alive q → alive (wake ch q)) as Hal.
  { intros q. destruct (wake_keeps ch q) as (_&_&_&_&_&Hst&_).
    unfold alive. intuition congruence. }
  split; simpl.
  - intros k q j Hk Hj. apply list_lookup_fmap_Some in Hk as (q0&->&Hk).
    destruct (wake_keeps ch q0) as (_&E&_). rewrite E in Hj.
    destruct (H1 _ _ _ Hk Hj) as (?&q1&Hq1&?). split; [done|].
    exists (wake ch q1). rewrite list_lookup_fmap, Hq1. auto.
  - intros k q Hk Hst. apply list_lookup_fmap_Some in Hk as (q0&->&Hk).
    destruct (wake_keeps ch q0) as (_&E&_&_&_&Hs&_). rewrite E. apply (H2 k); [done|].
    intuition congruence.
  - destruct H3 as (j&q&Hj&Hq&Ha&Hn). exists j, (wake ch q).
    destruct (wake_keeps ch q) as (_&E&_). rewrite list_lookup_fmap, Hq, E. auto.
  - intros j pj k q Hj Hs Hch Hk [Hzp Hzs].
    apply list_lookup_fmap_Some in Hk as (q0&->&Hk).
    apply list_lookup_fmap_Some in Hj as (p0&->&Hj).
    destruct (wake_keeps ch q0) as (_&E&_&_&_&Hsq&_).
    destruct (wake_keeps ch p0) as (_&_&E'&_&_&Hsp&_).
    apply (H4 j p0 k q0); [done|intuition congruence|congruence|done|].
    split; intuition congruence.
Qed.

Lemma family_exit l r r' ini n i p :
  l !! i = Some p → k_state p = RUNNING → ini ≠ Some i →
  family_inv (Core l r ini n) → family_inv (Core (exited i (k_parent p) ini l) r' ini n).
Proof.
  intros Hp Hr Hini [H1 H2 H3 H4]. simpl in *.
  set (z := bool_decide (Exists (zombie_child i) l)).
  destruct H3 as (i0&p0&->&Hp0&Ha0&Hn0).
  assert (∀ j q, l !! j = Some q → alive q → j ≠ i →
    ∃ q', exited i (k_parent p) (Some i0) l !! j = Some q' ∧ alive q' ∧
      (k_parent q = None → k_parent q' = None)) as Hlive.
  { intros j q Hq Ha Hne. eexists. split; [by apply lookup_exited|].
    destruct (bereaved_keeps i (k_parent p) (Some i0) z q) as (_&_&_&_&Hpar&Hst&_).
    fold z. unfold alive in *. intuition congruence. }
  split; simpl.
  - intros k q j Hk Hj. apply exited_lookup in Hk as (q0&Hq0&Hcase). fold z in Hcase.
    destruct (bereaved_keeps i (k_parent p) (Some i0) z q0) as (_&_&_&_&Hpar&_).
    assert (k_parent q0 ≠ Some i ∧ k_parent q0 = Some j ∨ k_parent q0 = Some i ∧ i0 = j) as Hq.
    { destruct Hcase as [[_ ->]|[_ ->]]; simpl in Hj; intuition congruence. }
    destruct Hq as [[Hni Hj0]|[Hi0 <-]].
    + destruct (H1 _ _ _ Hq0 Hj0) as (?&q1&Hq1&Ha1). split; [done|].
      destruct (Hlive j q1) as (q'&?&?&?); [done|done|congruence|eauto].
    + split; [intros ->; congruence|].
      destruct (Hlive i0 p0) as (q'&?&?&?); [done|done|congruence|eauto].
  - intros k q Hk Hst. apply exited_lookup in Hk as (q0&Hq0&Hcase). fold z in Hcase.
    destruct (bereaved_keeps i (k_parent p) (Some i0) z q0) as (_&_&_&_&Hpar&Hst0&_).
    destruct Hcase as [[_ ->]|[_ ->]]; simpl in *; [|intuition discriminate].
    assert (k_parent q0 = None) by (apply (H2 k); [done|intuition congruence]).
    intuition congruence.
  - exists i0. destruct (Hlive i0 p0) as (q'&?&?&?); [done|done|congruence|].
    exists q'. auto.
  - intros j pj k q Hj Hs Hch Hk [Hzp Hzs].
    apply exited_lookup in Hj as (pj0&Hpj0&Hcj). fold z in Hcj.
    destruct Hcj as [[Hji ->]|[-> ->]]; [|done].
    destruct (bereaved_keeps i (k_parent p) (Some i0) z pj0) as (_&Ec&_&_&_&Hsj&Hw1&Hw2).
    rewrite Ec in Hch.
    apply exited_lookup in Hk as (q0&Hq0&Hck). fold z in Hck.
    destruct (bereaved_keeps i (k_parent p) (Some i0) z q0) as (_&_&_&_&Hpq&Hsq&_).
    destruct Hck as [[Hki ->]|[-> ->]]; simpl in Hzp, Hzs.
    + (* an old zombie, already a child of j or just adopted *)
      assert (k_state q0 = ZOMBIE) by intuition congruence.
      destruct Hpq as [[Hn Hpq]|[Hpi Hpq]].
      * apply (H4 j pj0 k q0); [done|intuition congruence|done|done|].
        split; congruence.
      * assert (z = true) as Hz.
        { apply bool_decide_eq_true, Exists_exists. exists q0.
          split; [by eapply list_elem_of_lookup_2|by split]. }
        specialize (Hw2 Hz). simpl in Hw2. intuition congruence.
    + (* the new zombie, whose parent has been woken *)
      simplify_eq. destruct Hpq as [[Hn Hpq]|[Hpi _]].
      * rewrite Hpq in Hzp. rewrite Hzp in Hw1. simpl in Hw1. intuition congruence.
      * by destruct (H1 _ _ _ Hp Hpi).
Qed.

Lemma family_step s s' : cpu_inv s → family_inv s → sstep s s' → family_inv s'.
Proof.
  intros Hc Hi Hs. pose proof Hi as [H1 H2 H3 H4].
  destruct Hs; simpl in *.
  all: try (match goal with
    | Hr : _ !! _ = Some (Some _), Hp : _ !! _ = Some _ |- _ =>
        pose proof (oncpu_state _ _ _ _ _ _ _ Hc Hr Hp) end).
  all: try (eapply family_upd; [done|..|done]; unfold alive; simpl in *; eauto;
    intuition congruence).
  - destruct Hc as [Hrun _ _]. destruct (Hrun _ _ H) as (q&Hq&Hst). simpl in Hq.
    eapply family_upd; [done|..|done]; unfold alive; simpl; try (intuition congruence).
    right; right. split; [intuition congruence|]. exists i, q.
    split_and!; [done|congruence|done|tauto].
  - by eapply family_exit.
  - destruct H5 as [Hpar Hz].
    eapply family_upd; [done|..|done]; unfold alive; simpl; eauto; intuition congruence.
  - by apply family_wake.
Qed.

(** Every transition keeps the invariant. *)
Lemma cinv_step s s' : cinv s → sstep s s' → cinv s'.
Proof.
  intros [H1 H2 H3 H4] Hs. split.
  - by eapply cpu_step.
  - by eapply family_step.
  - by eapply pid_step.
  - by eapply resume_step.
Qed.
