(* ===== verification/ProcRefine.v ===== *)
(** * The code of [proc.c] implements the abstract process manager

    [kstep] is one critical section of the kernel on the process table: the
    functions of [Sched.v] and [Proc.v] run to completion by one cpu, in any
    order.  (Sections under [ptable.lock] exclude each other, see
    [Spinlock.v].)  Every such step is a sequence of transitions of
    [ProcSpec.v]. *)

From S2P Require Import Prelude Params CString Cprintf Rand ProcState Sched Proc ProcCalls ProcSpec.

Section refine.
Context {V F : Type} `{!MemOps V, !FileOps F}.
Implicit Types s : pst V F.

(** ** Inversion of successful runs *)

Lemma lift_vm_Ok {A} (m : M V A) s a s' :
  lift_vm m s = Ok a s' → ∃ v, s' = on_vm (λ _, v) s.
Proof. unfold lift_vm. destruct (m (vm s)); intros; simplify_eq; eauto. Qed.
Lemma lift_fs_Ok {A} (m : M F A) s a s' :
  lift_fs m s = Ok a s' → ∃ x, s' = on_fsys (λ _, x) s.
Proof. unfold lift_fs. destruct (m (fsys s)); intros; simplify_eq; eauto. Qed.
Lemma lift_rnd_Ok {A} (m : M rng A) s a s' :
  lift_rnd m s = Ok a s' → ∃ x, s' = on_rnd (λ _, x) s.
Proof. unfold lift_rnd. destruct (m (rnd s)); intros; simplify_eq; eauto. Qed.
Lemma acquire_Ok l s u s' : acquire_lk l s = Ok u s' → (l ∉ held s) ∧ s' = on_held (cons l) s.
Proof. unfold acquire_lk. case_decide; intros; by simplify_eq. Qed.
Lemma release_Ok l s u s' :
  release_lk l s = Ok u s' → l ∈ held s ∧ s' = on_held (filter (λ k, k ≠ l)) s.
Proof. unfold release_lk. case_decide; intros; by simplify_eq. Qed.
Lemma proc_get_Ok i s p s' : proc_get i s = Ok p s' → s' = s ∧ ptable s !! i = Some p.
Proof. unfold proc_get. destruct (ptable s !! i); intros; by simplify_eq. Qed.
Lemma proc_upd_Ok i f s u s' :
  proc_upd i f s = Ok u s' → ∃ p, ptable s !! i = Some p ∧ s' = on_ptable (<[i := f p]>) s.
Proof. unfold proc_upd. destruct (ptable s !! i); intros; simplify_eq; eauto. Qed.
Lemma print_Ok fmt args s u s' :
  print fmt args s = Ok u s' → ∃ out, s' = on_console (λ o, (o ++ out)%list) s.
Proof. unfold print. destruct (cprintf (lit fmt) args); intros; simplify_eq; eauto. Qed.
Lemma myproc_Ok c s o s' : myproc c s = Ok o s' → s' = s ∧ running s !! c = Some o.
Proof. unfold myproc. destruct (running s !! c); intros; by simplify_eq. Qed.
Lemma deref_Ok o s i s' : deref o s = Ok i s' → s' = s ∧ o = Some i.
Proof. unfold deref, of_option. destruct o; intros; inv_ok; done. Qed.
Lemma curproc_Ok c s i s' : curproc c s = Ok i s' → s' = s ∧ running s !! c = Some (Some i).
Proof.
  unfold curproc. intros H. inv_ok. apply myproc_Ok in H as [-> ?].
  apply deref_Ok in H0 as [-> ->]. done.
Qed.
Lemma mret_Ok {A} (a : A) s b s' : (mret a : M (pst V F) A) s = Ok b s' → s' = s ∧ b = a.
Proof. unfold mret, M_ret. intros; by simplify_eq. Qed.
Lemma gets_Ok {A} (f : pst V F → A) s b s' : gets f s = Ok b s' → s' = s ∧ b = f s.
Proof. unfold gets. intros; by simplify_eq. Qed.
Lemma modify_Ok f s b s' : modify f s = Ok b s' → s' = f s.
Proof. unfold modify. intros; by simplify_eq. Qed.
Lemma of_option_Ok {A} f (o : option A) s a s' :
  of_option f o s = Ok a s' → s' = s ∧ o = Some a.
Proof. unfold of_option. destruct o; intros; inv_ok; done. Qed.
End refine.

(** Reduce the accessors of explicitly updated states. *)
Ltac kproj :=
  cbn [ptable pptable initproc nextpid ticks running held rnd console first vm fsys
       on_ptable on_pptable on_initproc on_nextpid on_ticks on_running on_held on_rnd
       on_console on_first on_vm on_fsys] in *.

(** Take a successful run apart, primitive by primitive. *)
Ltac kinv1 :=
  match goal with
  | H : (_ ≫= _) _ = Ok _ _ |- _ => apply bind_Ok in H as (?&?&?&?)
  | H : mret _ _ = Ok _ _ |- _ => 
      let E := fresh in
      apply mret_Ok in H as (->&E);
      first [match type of E with ?b = _ => subst b end | simplify_eq]
  | H : gets _ _ = Ok _ _ |- _ => apply gets_Ok in H as (->&->)
  | H : modify _ _ = Ok _ _ |- _ => apply modify_Ok in H as ->
  | H : panic _ _ = Ok _ _ |- _ => discriminate H
  | H : fail _ _ = Ok _ _ |- _ => discriminate H
  | H : lift_vm _ _ = Ok _ _ |- _ => apply lift_vm_Ok in H as (?&->)
  | H : lift_fs _ _ = Ok _ _ |- _ => apply lift_fs_Ok in H as (?&->)
  | H : lift_rnd _ _ = Ok _ _ |- _ => apply lift_rnd_Ok in H as (?&->)
  | H : acquire_lk _ _ = Ok _ _ |- _ => apply acquire_Ok in H as (?&->)
  | H : release_lk _ _ = Ok _ _ |- _ => apply release_Ok in H as (?&->)
  | H : proc_get _ _ = Ok _ _ |- _ => apply proc_get_Ok in H as (->&?)
  | H : proc_upd _ _ _ = Ok _ _ |- _ => apply proc_upd_Ok in H as (?&?&->)
  | H : print _ _ _ = Ok _ _ |- _ => apply print_Ok in H as (?&->)
  | H : myproc _ _ = Ok _ _ |- _ => apply myproc_Ok in H as (->&?)
  | H : curproc _ _ = Ok _ _ |- _ => apply curproc_Ok in H as (->&?)
  | H : deref _ _ = Ok _ _ |- _ => apply deref_Ok in H as (->&->)
  | H : of_option _ _ _ = Ok _ _ |- _ => apply of_option_Ok in H as (->&?)
  | H : set_running _ _ _ = Ok _ _ |- _ => unfold set_running in H
  | H : when ?b _ _ = Ok _ _ |- _ => unfold when in H; destruct b eqn:?
  | H : (if ?b then _ else _) _ = Ok _ _ |- _ => destruct b eqn:?
  end; kproj.
(** Successive updates of one slot. *)
Ltac kslot :=
  repeat match goal with
  | H : <[?i := ?x]> ?l !! ?i = Some ?y |- _ =>
      rewrite list_lookup_insert_eq in H
        by (rewrite ?length_insert; by eapply lookup_lt_Some); injection H as <-
  end.
Ltac kinv := repeat (kinv1; kslot).

Section sim.
Context {V F : Type} `{!MemOps V, !FileOps F}.
Implicit Types s : pst V F.

(** ** Abstraction *)

Definition abs_proc (p : proc) : pcore :=
  PCore (p_state p) (p_pid p) (p_parent p) (p_chan p)
    (c_eip (p_context p)) (c_ret (p_context p)).
Definition abs (s : pst V F) : core :=
  Core (abs_proc <$> ptable s) (running s) (initproc s) (nextpid s).

(** The state as seen by a cpu that holds the locks [h]. *)
Definition locks (h : list klock) (s : pst V F) : pst V F := on_held (λ _, h) s.

Inductive kstep : pst V F → pst V F → Prop :=
| K_alloc h s s' o :
    nextpid s < 2147483647 → allocproc (locks h s) = Ok o s' → kstep s s'
| K_fork h c i np p s s' r :
    running s !! c = Some (Some i) → ptable s !! np = Some p → p_state p = EMBRYO →
    fork_finish i np (locks h s) = Ok r s' → kstep s s'
| K_exit_files h i s s' :
    exit_files i (locks h s) = Ok tt s' → kstep s s'
| K_exit h c i s s' :
    running s !! c = Some (Some i) → initproc s ≠ Some i →
    exit_locked c i (locks h s) = Ok tt s' → kstep s s'
| K_wait h c s s' r :
    wait c (locks h s) = Ok r s' → kstep s s'
| K_idle fuel h c s s' :
    scheduler_enter fuel c (locks h s) = Ok None s' → kstep s s'
(** The scheduler of an idle cpu runs a process, which continues where it
    stopped ... *)
| K_run fuel h c i s s1 s2 :
    running s !! c = Some None →
    scheduler_enter fuel c (locks h s) = Ok (Some i) s1 → resume i s1 = Ok tt s2 →
    (L_ptable ∉ held s2) → kstep s s2
(** ... and, if it was asleep in wait, with another iteration of its loop. *)
| K_run_wait fuel h c i s s1 s2 s3 r :
    running s !! c = Some None →
    scheduler_enter fuel c (locks h s) = Ok (Some i) s1 → resume i s1 = Ok tt s2 →
    (L_ptable ∈ held s2) → wait_iter c i s2 = Ok r s3 → kstep s s3
| K_yield h c s s' :
    yield c (locks h s) = Ok tt s' → kstep s s'
| K_sleep h c ch lk s s' :
    (∀ j, ch ≠ ChProc j) → sleep c ch lk (locks h s) = Ok tt s' → kstep s s'
| K_wakeup h ch s s' :
    wakeup ch (locks h s) = Ok tt s' → kstep s s'
| K_kill h pid s s' r :
    kill pid (locks h s) = Ok r s' → kstep s s'
| K_growproc h c n s s' r :
    growproc c n (locks h s) = Ok r s' → kstep s s'
| K_set_alarm h c n s s' :
    set_alarm c n (locks h s) = Ok tt s' → kstep s s'
| K_set_edx h c n s s' r :
    set_edx c n (locks h s) = Ok r s' → kstep s s'
| K_set_tickets h c n s s' r :
    set_tickets c n (locks h s) = Ok r s' → kstep s s'
| K_set_queue h c n s s' r :
    set_queue c n (locks h s) = Ok r s' → kstep s s'
(** User code and the rest of the kernel do not touch these fields. *)
| K_other s s' :
    abs s' = abs s → kstep s s'.

(** ** Simple cases *)

Lemma abs_insert s i p' :
  abs (on_ptable (<[i := p']>) s) =
  Core (<[i := abs_proc p']> (abs_proc <$> ptable s)) (running s) (initproc s) (nextpid s).
Proof. unfold abs. kproj. by rewrite list_fmap_insert. Qed.

Lemma fmap_insert_same {A B} (f : A → B) (l : list A) i x y :
  l !! i = Some x → f y = f x → f <$> <[i := y]> l = f <$> l.
Proof.
  intros Hx Hf. rewrite list_fmap_insert, Hf. apply list_insert_id.
  by rewrite list_lookup_fmap, Hx.
Qed.

(** Calls that only change other fields. *)
Definition silent {A} (m : M (pst V F) A) : Prop :=
  ∀ s a s', m s = Ok a s' → abs s' = abs s.

Lemma silent_bind {A B} (m : M (pst V F) A) (k : A → M (pst V F) B) :
  silent m → (∀ a, silent (k a)) → silent (m ≫= k).
Proof.
  intros Hm Hk s b s' H. apply bind_Ok in H as (a&s1&H1&H2).
  rewrite (Hk _ _ _ _ H2). by eapply Hm.
Qed.
Lemma silent_ret {A} (a : A) : silent (mret a).
Proof. intros s b s' H. by kinv. Qed.
Lemma silent_gets {A} (f : pst V F → A) : silent (gets f).
Proof. intros s b s' H. by kinv. Qed.
Lemma silent_fail {A} f : silent (fail f : M (pst V F) A).
Proof. done. Qed.
Lemma silent_panic {A} m : silent (panic m : M (pst V F) A).
Proof. done. Qed.
Lemma silent_when b (m : M (pst V F) unit) : silent m → silent (when b m).
Proof. unfold when. destruct b; [done|]. intros _. apply silent_ret. Qed.
Lemma silent_option {A} f (o : option A) : silent (of_option f o).
Proof. intros s b s' H. by kinv. Qed.
Lemma silent_curproc c : silent (curproc c).
Proof. intros s b s' H. by kinv. Qed.
Lemma silent_deref o : silent (deref o).
Proof. intros s b s' H. by kinv. Qed.
Lemma silent_lift_vm {A} (m : M V A) : silent (lift_vm m).
Proof. intros s b s' H. by kinv. Qed.
Lemma silent_lift_fs {A} (m : M F A) : silent (lift_fs m).
Proof. intros s b s' H. by kinv. Qed.
Lemma silent_acquire l : silent (acquire_lk l).
Proof. intros s b s' H. by kinv. Qed.
Lemma silent_release l : silent (release_lk l).
Proof. intros s b s' H. by kinv. Qed.
Lemma silent_print f l : silent (print f l).
Proof. intros s b s' H. by kinv. Qed.
Lemma silent_proc_get i : silent (proc_get i).
Proof. intros s b s' H. by kinv. Qed.
Lemma silent_proc_upd i f :
  (∀ p, abs_proc (f p) = abs_proc p) → silent (proc_upd i f).
Proof. intros Hf s b s' H. kinv. unfold abs; kproj. by erewrite fmap_insert_same. Qed.

Create HintDb silent.
#[local] Hint Resolve silent_ret silent_gets silent_fail silent_panic silent_option silent_curproc
  silent_deref silent_lift_vm silent_lift_fs silent_acquire silent_release silent_print
  silent_proc_get : silent.
Ltac solve_silent1 :=
  first
    [ progress intros | solve [auto 2 with silent nocore]
    | apply silent_proc_upd; done | apply silent_when | apply silent_bind
    | match goal with |- silent (if ?b then _ else _) => destruct b end ].
Ltac solve_silent := repeat solve_silent1.

Lemma set_alarm_silent c n : silent (set_alarm c n).
Proof. unfold set_alarm. solve_silent. Qed.
Lemma set_edx_silent c n : silent (set_edx c n).
Proof. unfold set_edx. solve_silent. Qed.
Lemma set_tickets_silent c n : silent (set_tickets c n).
Proof. unfold set_tickets. solve_silent. Qed.
Lemma set_queue_silent c n : silent (set_queue c n).
Proof. unfold set_queue. solve_silent. Qed.
Lemma growproc_silent c n : silent (growproc c n).
Proof. unfold growproc. solve_silent. Qed.

Lemma exit_close_silent i n fd : silent (exit_close i n fd).
Proof.
  revert fd. induction n as [|n IH]; intros fd; cbn [exit_close]; solve_silent.
  destruct (p_ofile _ !! fd) as [[f|]|]; solve_silent.
Qed.
#[local] Hint Resolve exit_close_silent : silent.
Lemma exit_files_silent i : silent (exit_files i).
Proof. unfold exit_files. solve_silent. Qed.

Lemma log_copy_silent src dst n k np :
  silent src → (∀ j e, silent (dst j e)) → silent (log_copy src dst n k np).
Proof.
  intros Hsrc Hdst. revert k np.
  induction n as [|n IH]; intros k np; cbn [log_copy]; solve_silent.
Qed.
Lemma log_of_silent i : silent (log_of i).
Proof. unfold log_of. solve_silent. Qed.
Lemma pptable_upd_silent i f : silent (pptable_upd i f).
Proof.
  intros s u s'. unfold pptable_upd. destruct (pptable s !! i) as [p|]; [|done].
  destruct (f p); intros; by simplify_eq.
Qed.
Lemma pptable_slot_silent : silent pptable_slot.
Proof. apply silent_gets. Qed.
Lemma ptable_log_put_silent j k e : silent (ptable_log_put j k e).
Proof.
  intros s u s'. unfold ptable_log_put, log_put. intros H. kinv.
  destruct (_ <? _)%nat; simplify_eq. unfold abs; kproj. by erewrite fmap_insert_same.
Qed.
#[local] Hint Resolve log_of_silent pptable_upd_silent pptable_slot_silent
  ptable_log_put_silent : silent.

(** ** Creation *)

Lemma allocproc_sim s o s' :
  nextpid s < 2147483647 → -2147483648 ≤ nextpid s → allocproc s = Ok o s' →
  sstep (abs s) (abs s').
Proof.
  unfold allocproc. intros Hn Hn' H. kinv.
  destruct (list_find _ (ptable s)) as [[i p]|] eqn:Hfind; kinv.
  - apply list_find_Some in Hfind as (Hp&Hu&_). simplify_eq.
    unfold abs; kproj. rewrite !list_fmap_insert, !list_insert_insert_eq.
    rewrite (s32_id (nextpid s + 1)) by (unfold is_i32; lia).
    eapply (S_alloc_fail _ _ _ _ i (abs_proc p)); [|done|done].
    by rewrite list_lookup_fmap, Hp.
  - apply list_find_Some in Hfind as (Hp&Hu&_). simplify_eq.
    unfold abs; kproj. rewrite !list_fmap_insert, !list_insert_insert_eq.
    rewrite (s32_id (nextpid s + 1)) by (unfold is_i32; lia).
    eapply (S_alloc _ _ _ _ i (abs_proc p)); [|done|done].
    by rewrite list_lookup_fmap, Hp.
  - match goal with H : ptable s !! length _ = Some _ |- _ => apply lookup_lt_Some in H end.
    lia.
Qed.

Lemma fork_files_Ok ofile np fd s u s' p :
  fork_files ofile np fd s = Ok u s' → ptable s !! np = Some p →
  ∃ o x, s' = on_ptable (<[np := set_ofile o p]>) (on_fsys (λ _, x) s).
Proof.
  revert fd s p. induction ofile as [|[f|] ofile IH]; intros fd s p H Hp; cbn [fork_files] in H.
  - kinv. exists (p_ofile p), (fsys s). destruct s. unfold on_ptable, on_fsys. kproj.
    f_equal. symmetry. apply list_insert_id. rewrite Hp. by destruct p.
  - kinv. edestruct IH as (o&y&->); [done|kproj; by apply list_lookup_insert_eq; eapply lookup_lt_Some|].
    simplify_eq. exists o, y. unfold on_ptable, on_fsys. kproj. f_equal.
    by rewrite list_insert_insert_eq.
  - eauto.
Qed.

Lemma fork_finish_sim s c i np p r s' :
  running s !! c = Some (Some i) → ptable s !! np = Some p → p_state p = EMBRYO →
  fork_finish i np s = Ok r s' → sstep (abs s) (abs s').
Proof.
  unfold fork_finish. intros Hc Hp He H. kinv.
  - simplify_eq. unfold abs; kproj. rewrite !list_fmap_insert, !list_insert_insert_eq.
    eapply (S_fork_fail _ _ _ _ np (abs_proc p)); [|done].
    by rewrite list_lookup_fmap, Hp.
  - match goal with H : fork_files _ _ _ _ = Ok _ _ |- _ =>
      eapply fork_files_Ok in H;
        [|kproj; rewrite !list_lookup_insert_eq
            by (rewrite ?length_insert; by eapply lookup_lt_Some); done];
      destruct H as (o&y&->) end.
    kproj. kslot. kinv. simplify_eq. unfold abs; kproj. rewrite !list_fmap_insert, !list_insert_insert_eq.
    eapply (S_fork _ _ _ _ c i np (abs_proc p)); [done| |done].
    by rewrite list_lookup_fmap, Hp.
Qed.

(** ** Switching *)

Lemma scheduler_return_Ok c s u s' :
  scheduler_return c s = Ok u s' →
  ∃ v, s' = on_held (filter (λ k, k ≠ L_ptable)) (on_running (<[c := None]>) (on_vm (λ _, v) s)).
Proof. unfold scheduler_return, run_proc_return. intros H. kinv. eauto. Qed.

Lemma sched_Ok c from s u s' :
  sched c from s = Ok u s' →
  ∃ i p p', running s !! c = Some (Some i) ∧ ptable s !! i = Some p ∧
    p_state p ≠ RUNNING ∧ held s = [L_ptable] ∧
    abs_proc p' = PCore (p_state p) (p_pid p) (p_parent p) (p_chan p) A_sched from ∧
    s' = on_ptable (<[i := p']>) s.
Proof.
  unfold sched. intros H. kinv. simplify_eq.
  apply negb_false_iff, bool_decide_eq_true in Heqb, Heqb0.
  apply bool_decide_eq_false in Heqb1.
  eexists _, _, _. split_and!; [done|done|done| | |done]; [|done].
  destruct (held s) as [|k [|]]; try done. by apply list_elem_of_singleton in Heqb as ->.
Qed.

(** A process leaves its cpu through [sched] after changing its slot. *)
Lemma leave_Ok c from s u s' u' s'' :
  sched c from s = Ok u s' → scheduler_return c s' = Ok u' s'' →
  ∃ i q, running s !! c = Some (Some i) ∧ ptable s !! i = Some q ∧
  abs s'' = Core (<[i := PCore (p_state q) (p_pid q) (p_parent q) (p_chan q) A_sched from]>
    (abs_proc <$> ptable s)) (<[c := None]> (running s)) (initproc s) (nextpid s).
Proof.
  intros H1 H2. apply sched_Ok in H1 as (i&p&p'&?&?&_&_&Habs&->).
  apply scheduler_return_Ok in H2 as (v&->). exists i, p. split_and!; [done..|].
  unfold abs; kproj. by rewrite list_fmap_insert, Habs.
Qed.

Lemma lookup_abs s i p : ptable s !! i = Some p → (abs_proc <$> ptable s) !! i = Some (abs_proc p).
Proof. intros Hp. by rewrite list_lookup_fmap, Hp. Qed.

Ltac leave :=
  match goal with
  | H1 : sched _ _ _ = Ok _ _, H2 : scheduler_return _ _ = Ok _ _ |- _ =>
      destruct (leave_Ok _ _ _ _ _ _ _ H1 H2) as (?&?&?&?&->); clear H1 H2;
      kproj; simplify_eq; kslot; rewrite ?list_fmap_insert, ?list_insert_insert_eq
  end.

Lemma yield_sim c s u s' : yield c s = Ok u s' → sstep (abs s) (abs s').
Proof.
  unfold yield. intros H. kinv. leave.
  eapply (S_yield _ _ _ _ c _ (abs_proc _)); [done|by apply lookup_abs].
Qed.

Lemma sleep_Ok c ch lk s u s' :
  sleep c ch lk s = Ok u s' →
  ∃ i p k, lk = Some k ∧ running s !! c = Some (Some i) ∧ ptable s !! i = Some p ∧
    abs s' = Core (<[i := PCore SLEEPING (p_pid p) (p_parent p) ch A_sched (A_sleep k)]>
      (abs_proc <$> ptable s)) (<[c := None]> (running s)) (initproc s) (nextpid s).
Proof.
  unfold sleep. intros H. kinv.
  destruct x as [i|], lk as [k|]; kinv; leave; eexists _, _, _; split_and!; done.
Qed.

Lemma sleep_sim c ch lk s u s' :
  (∀ j, ch ≠ ChProc j) → sleep c ch lk s = Ok u s' → sstep (abs s) (abs s').
Proof.
  intros Hch H. apply sleep_Ok in H as (i&p&k&->&Hc&Hp&->).
  apply (S_sleep _ _ _ _ c i (abs_proc p)); [done|by apply lookup_abs|done].
Qed.

Lemma abs_wakeup_proc ch p : abs_proc (wakeup_proc ch p) = wake ch (abs_proc p).
Proof.
  unfold wakeup_proc, wake. cbn [abs_proc k_state k_chan].
  repeat case_bool_decide; simpl; try done; intuition congruence.
Qed.

Lemma wakeup1_Ok ch s u s' :
  wakeup1 ch s = Ok u s' → s' = on_ptable (fmap (wakeup_proc ch)) s ∧
  abs s' = Core (wake ch <$> (abs_proc <$> ptable s)) (running s) (initproc s) (nextpid s).
Proof.
  unfold wakeup1. intros H. kinv. split; [done|]. unfold abs; kproj. f_equal.
  rewrite <-!list_fmap_compose. apply list_fmap_ext. intros i p _. apply abs_wakeup_proc.
Qed.

Lemma wakeup_sim ch s u s' : wakeup ch s = Ok u s' → sstep (abs s) (abs s').
Proof.
  unfold wakeup. intros H. kinv.
  match goal with H : wakeup1 _ _ = Ok _ _ |- _ => apply wakeup1_Ok in H as [-> E] end.
  kinv. replace (abs (on_held _ _)) with (abs (on_ptable (fmap (wakeup_proc ch)) s)) by done.
  unfold abs in E at 1. unfold abs at 2. kproj. rewrite E. apply S_wakeup.
Qed.

(** ** The scheduler *)

Lemma abs_aging t p : abs_proc (apply_aging t p) = abs_proc p.
Proof. unfold apply_aging. by destruct (2500 <? _). Qed.

Lemma lottery_pick_Some w sum k l i :
  lottery_pick w sum k l = Some i →
  (k ≤ i)%nat ∧ ∃ p, l !! (i - k)%nat = Some p ∧ runnable_pl1 p = true.
Proof.
  revert sum k. induction l as [|p l IH]; intros sum k H; cbn [lottery_pick] in H; [done|].
  assert (∀ sum', lottery_pick w sum' (S k) l = Some i →
    (k ≤ i)%nat ∧ ∃ p0, (p :: l) !! (i - k)%nat = Some p0 ∧ runnable_pl1 p0 = true) as Hrec.
  { intros sum' H'. destruct (IH _ _ H') as (Hle&p0&Hp0&Hr). split; [lia|].
    exists p0. split; [|done]. by replace (i - k)%nat with (S (i - S k)) by lia. }
  destruct (runnable_pl1 p) eqn:Hr; [|by eapply Hrec].
  destruct (_ <? w); [by eapply Hrec|]. simplify_eq.
  split; [lia|]. exists p. by rewrite Nat.sub_diag.
Qed.

Lemma rr_loop_spec t k l o l' :
  rr_loop t k l = (o, l') →
  abs_proc <$> l' = abs_proc <$> l ∧
  ∀ i, o = Some i → (k ≤ i)%nat ∧ ∃ p, l' !! (i - k)%nat = Some p ∧ p_state p = RUNNABLE.
Proof.
  revert k o l'. induction l as [|p l IH]; intros k o l' H; cbn [rr_loop] in H.
  { by simplify_eq. }
  rewrite orb_true_r in H. case_bool_decide as Hst.
  - simplify_eq. split; [by rewrite !fmap_cons, abs_aging|].
    intros i [= <-]. split; [lia|]. rewrite Nat.sub_diag. eauto.
  - destruct (rr_loop t (S k) l) as [o1 l1] eqn:Hrr. simplify_eq.
    destruct (IH _ _ _ Hrr) as [E Ho]. split; [by rewrite !fmap_cons, abs_aging, E|].
    intros i Hi. destruct (Ho i Hi) as (?&q&?&?). split; [lia|].
    exists q. by replace (i - k)%nat with (S (i - S k)) by lia.
Qed.

Lemma hrrn_best_Some t m v k l i :
  hrrn_best t m v k l = Some i →
  v = Some i ∨ (k ≤ i)%nat ∧ ∃ p, l !! (i - k)%nat = Some p ∧ p_state p = RUNNABLE.
Proof.
  revert m v k. induction l as [|p l IH]; intros m v k H; cbn [hrrn_best] in H; [by left|].
  assert (∀ m' v', hrrn_best t m' v' (S k) l = Some i → v' = Some i ∨
    (k ≤ i)%nat ∧ ∃ p0, (p :: l) !! (i - k)%nat = Some p0 ∧ p_state p0 = RUNNABLE) as Hrec.
  { intros m' v' H'. destruct (IH _ _ _ H') as [?|(Hle&p0&Hp0&Hr)]; [by left|right].
    split; [lia|]. exists p0. split; [|done].
    by replace (i - k)%nat with (S (i - S k)) by lia. }
  destruct (bool_decide (p_state p = RUNNABLE)) eqn:Hst; simpl in H; [|by eapply Hrec].
  destruct (p_priority p =? PL3); [|by eapply Hrec].
  destruct (float_gt _ m); [|by eapply Hrec].
  destruct (Hrec _ _ H) as [[= ->]|?]; [|by right].
  right. split; [lia|]. exists p. rewrite Nat.sub_diag.
  by apply bool_decide_eq_true in Hst.
Qed.

Lemma hrrn_loop_spec t n k l o l' :
  hrrn_loop t n k l = (o, l') →
  abs_proc <$> l' = abs_proc <$> l ∧
  ∀ i, o = Some i → ∃ p, l' !! i = Some p ∧ p_state p = RUNNABLE.
Proof.
  revert k l. induction n as [|n IH]; intros k l H; cbn [hrrn_loop] in H; [by simplify_eq|].
  destruct (l !! k) as [p|] eqn:Hp; [|by simplify_eq].
  assert (abs_proc <$> <[k := apply_aging t p]> l = abs_proc <$> l) as Hag.
  { eapply fmap_insert_same; [done|apply abs_aging]. }
  destruct (p_priority p =? PL3); [|by eauto]. case_bool_decide.
  - injection H as Ho <-. split; [done|]. intros i ->.
    destruct (hrrn_best_Some _ _ _ _ _ _ Ho) as [?|(_&q&Hq&?)]; [done|].
    rewrite Nat.sub_0_r in Hq. eauto.
  - destruct (IH _ _ H) as [E ?]. by rewrite E.
Qed.

Lemma scheduler_pick_Ok fuel s o s' :
  scheduler_pick fuel s = Ok o s' →
  abs s' = abs s ∧ held s' = held s ∧
  ∀ i, o = Some i → ∃ p, ptable s' !! i = Some p ∧ p_state p = RUNNABLE.
Proof.
  unfold scheduler_pick, sched_lottery. intros H. kinv.
  destruct (lottery_pick _ _ _ _) as [i|] eqn:Hl; kinv.
  { split_and!; [done..|]. intros ? [= <-].
    apply lottery_pick_Some in Hl as (_&p&Hp&Hr). rewrite Nat.sub_0_r in Hp.
    exists p. split; [done|]. apply andb_true_iff in Hr as [Hr _].
    by apply bool_decide_eq_true in Hr. }
  match goal with H : sched_rr _ = Ok _ _ |- _ => rename H into Hrr end.
  unfold sched_rr in Hrr. kproj.
  destruct (rr_loop _ _ _) as [o1 l1] eqn:Hloop. simplify_eq.
  destruct (rr_loop_spec _ _ _ _ _ Hloop) as [E1 Ho1].
  destruct x0 as [i|]; kinv.
  { split_and!; [unfold abs; kproj; by rewrite E1|done|]. intros ? [= <-].
    destruct (Ho1 i) as (_&p&Hp&?); [done|]. rewrite Nat.sub_0_r in Hp. eauto. }
  unfold sched_hrrn in *. kproj.
  destruct (hrrn_loop _ _ _ _) as [o2 l2] eqn:Hloop2. simplify_eq.
  destruct (hrrn_loop_spec _ _ _ _ _ _ Hloop2) as [E2 Ho2].
  split_and!; [unfold abs; kproj; by rewrite E2, E1|done|done].
Qed.

Lemma run_proc_Ok c i s u s' p :
  run_proc c i s = Ok u s' → ptable s !! i = Some p →
  held s' = held s ∧ ∃ p', ptable s' = <[i := p']> (ptable s) ∧
    running s' = <[c := Some i]> (running s) ∧ initproc s' = initproc s ∧
    nextpid s' = nextpid s ∧ abs_proc p' = with_state RUNNING (abs_proc p).
Proof.
  unfold run_proc, check_alarm. intros H Hp. kinv; simplify_eq;
    rewrite ?list_insert_insert_eq; split; eauto 10.
Qed.

Lemma forkret_Ok s u s' : forkret s = Ok u s' → abs s' = abs s.
Proof. unfold forkret. intros H. kinv; done. Qed.

(** What a resumed process does first only clears its channel. *)
Lemma resume_Ok i s s' p :
  resume i s = Ok tt s' → ptable s !! i = Some p →
  ∃ ch, (ch = p_chan p ∨ ch = NoChan) ∧
  abs s' = Core (<[i := PCore (p_state p) (p_pid p) (p_parent p) ch
      (c_eip (p_context p)) (c_ret (p_context p))]> (abs_proc <$> ptable s))
    (running s) (initproc s) (nextpid s).
Proof.
  unfold resume. intros H Hp. kinv. assert (x = p) as -> by congruence.
  assert (∀ s0, abs s0 = abs s → ∃ ch, (ch = p_chan p ∨ ch = NoChan) ∧
    abs s0 = Core (<[i := PCore (p_state p) (p_pid p) (p_parent p) ch
      (c_eip (p_context p)) (c_ret (p_context p))]> (abs_proc <$> ptable s))
      (running s) (initproc s) (nextpid s)) as Hsame.
  { intros s0 ->. exists (p_chan p). split; [by left|]. unfold abs. f_equal.
    symmetry. apply list_insert_id. by apply lookup_abs. }
  destruct (c_eip (p_context p)) eqn:He; try done; [by eapply Hsame, forkret_Ok|].
  destruct (c_ret (p_context p)) eqn:Hr; kinv; try done; [by apply Hsame|..].
  all: exists NoChan; (split; [by right|]); simplify_eq; unfold abs; kproj;
    rewrite list_fmap_insert; unfold abs_proc at 1; simpl; by rewrite He, Hr.
Qed.

Lemma enter_sim fuel c i s s1 s2 :
  running s !! c = Some None →
  scheduler_enter fuel c s = Ok (Some i) s1 → resume i s1 = Ok tt s2 →
  sstep (abs s) (abs s2) ∧ running s2 !! c = Some (Some i).
Proof.
  unfold scheduler_enter. intros Hc H Hres. kinv.
  match goal with H : scheduler_pick _ _ = Ok _ _ |- _ =>
    apply scheduler_pick_Ok in H as (Habs&_&Ho) end.
  unfold abs in Habs. injection Habs as E1 E2 E3 E4.
  destruct x1 as [j|]; kinv. destruct (Ho j eq_refl) as (p&Hp&Hst).
  match goal with H : run_proc _ _ _ = Ok _ _ |- _ =>
    eapply run_proc_Ok in H as (_&p'&Hpt&Hrun&Hini&Hnext&Hp'); [|done] end.
  pose proof (lookup_lt_Some _ _ _ Hp) as Hlt.
  eapply (resume_Ok j _ _ p') in Hres as (ch&Hch&E); [|by rewrite Hpt, list_lookup_insert_eq].
  rewrite Hpt, Hrun, Hini, Hnext, list_fmap_insert, list_insert_insert_eq, E1, E2, E3, E4 in E.
  assert ((abs_proc <$> ptable s) !! j = Some (abs_proc p)) as Hi.
  { change (ptable (on_held (cons L_ptable) s)) with (ptable s) in E1. rewrite <-E1.
    by apply lookup_abs. }
  pose proof (f_equal k_state Hp') as K1. pose proof (f_equal k_pid Hp') as K2.
  pose proof (f_equal k_parent Hp') as K3. pose proof (f_equal k_chan Hp') as K4.
  pose proof (f_equal k_eip Hp') as K5. pose proof (f_equal k_ret Hp') as K6. simpl in *.
  split.
  - rewrite E, K1, K2, K3, K5, K6. apply (S_run _ _ _ _ c j (abs_proc p)); [done..|].
    simpl. rewrite <-K4. tauto.
  - change (oncpu (abs s2) !! c = Some (Some j)). rewrite E. simpl.
    apply list_lookup_insert_eq. by eapply lookup_lt_Some.
Qed.

Lemma idle_silent fuel c s s' :
  scheduler_enter fuel c s = Ok None s' → abs s' = abs s.
Proof.
  unfold scheduler_enter. intros H. kinv.
  match goal with H : scheduler_pick _ _ = Ok _ _ |- _ =>
    apply scheduler_pick_Ok in H as (Habs&_&_) end.
  unfold abs in Habs. destruct x1; kinv. unfold abs; kproj. congruence.
Qed.

(** ** wait *)

Lemma wait_iter_sim c i s r s' :
  running s !! c = Some (Some i) → wait_iter c i s = Ok r s' → rtc sstep (abs s) (abs s').
Proof.
  unfold wait_iter, reap. intros Hc H. kinv.
  destruct (list_find _ (ptable s)) as [[k p]|] eqn:Hfind; kinv.
  - apply list_find_Some in Hfind as (Hp&[Hpar Hz]&_). simplify_eq.
    apply rtc_once. unfold abs; kproj. rewrite !list_fmap_insert, !list_insert_insert_eq.
    apply (S_reap _ _ _ _ c i k (abs_proc p)); [done|by apply lookup_abs|done].
  - done.
  - match goal with H : sleep _ _ _ _ = Ok _ _ |- _ =>
      apply sleep_Ok in H as (i'&p&k&[= <-]&Hc'&Hp&->) end.
    simplify_eq. apply rtc_once.
    eapply (S_wait_sleep _ _ _ _ c i (abs_proc _)); [done|by apply lookup_abs|].
    apply list_find_None in Hfind. apply Forall_fmap.
    eapply Forall_impl; [done|]. intros q Hq [? ?]. by apply Hq.
Qed.

Lemma wait_sim c s r s' : wait c s = Ok r s' → rtc sstep (abs s) (abs s').
Proof.
  unfold wait. intros H. kinv.
  match goal with H : wait_iter _ _ _ = Ok _ _ |- _ => apply wait_iter_sim in H; [|done] end.
  done.
Qed.

(** ** kill *)

Lemma kill_sim pid s r s' : kill pid s = Ok r s' → rtc sstep (abs s) (abs s').
Proof.
  unfold kill. intros Hk. apply bind_Ok in Hk as (?&?&Hacq&Hk).
  apply acquire_Ok in Hacq as (_&->). apply bind_Ok in Hk as (?&?&Hl&Hk).
  apply gets_Ok in Hl as (->&->). kproj.
  destruct (list_find _ (ptable s)) as [[k p]|] eqn:Hfind; [|by kinv].
  apply list_find_Some in Hfind as (Hp&_&_).
  apply bind_Ok in Hk as (?&?&?&Hk). apply bind_Ok in Hk as (q&?&?&Hk).
  apply bind_Ok in Hk as (?&sa&Ha&Hk).
  match type of Hk with ?m _ = _ => assert (silent m) as Htail end.
  { repeat first [apply log_copy_silent | solve_silent1]. }
  rewrite (Htail _ _ _ Hk). clear Hk Htail. kinv; simplify_eq; unfold abs; kproj.
  - apply bool_decide_eq_true in Heqb. apply rtc_once.
    rewrite !list_fmap_insert, !list_insert_insert_eq.
    apply (S_kill _ _ _ _ k (abs_proc p)); [by apply lookup_abs|done].
  - by erewrite fmap_insert_same.
Qed.

(** ** exit *)

(** The table while [reparent] is at slot [k]: the slots before it have been
    adopted, and init has been woken if one of those was a zombie. *)
Definition adopting (i : nat) (ini : option nat) (k : nat) (l : list pcore) : list pcore :=
  let z := bool_decide (Exists (zombie_child i) (take k l)) in
  imap (λ m p, let p := if (m <? k)%nat then adopt i ini p else p in
               if z then wake (chan_of ini) p else p) l.

Lemma zombie_wake i ch p : zombie_child i (wake ch p) ↔ zombie_child i p.
Proof.
  unfold zombie_child. destruct (wake_keeps ch p) as (_&->&_&_&_&[->|(E1&_&E2)]&_); [done|].
  rewrite E1, E2. split; intros [_ ?]; congruence.
Qed.

Lemma wake_idem ch p : wake ch (wake ch p) = wake ch p.
Proof. unfold wake. repeat case_bool_decide; simpl in *; try done; intuition congruence. Qed.
Lemma adopt_wake i j ch p : adopt i j (wake ch p) = wake ch (adopt i j p).
Proof.
  unfold adopt, wake, with_state. repeat case_bool_decide; simpl in *; try done;
    intuition congruence.
Qed.

Lemma adopt_other i j p : k_parent p ≠ Some i → adopt i j p = p.
Proof. intros Hp. unfold adopt. by rewrite bool_decide_eq_false_2. Qed.

Definition wake_if (z : bool) (ini : option nat) (p : pcore) : pcore :=
  if z then wake (chan_of ini) p else p.
Lemma wake_if_or z z' ini p : wake_if z' ini (wake_if z ini p) = wake_if (z || z') ini p.
Proof. destruct z, z'; simpl; try done. apply wake_idem. Qed.
Lemma adopt_wake_if i j z ini p : adopt i j (wake_if z ini p) = wake_if z ini (adopt i j p).
Proof. destruct z; simpl; [apply adopt_wake|done]. Qed.

Lemma lookup_adopting i ini k l m :
  adopting i ini k l !! m =
    (λ p, wake_if (bool_decide (Exists (zombie_child i) (take k l))) ini
            (if (m <? k)%nat then adopt i ini p else p)) <$> l !! m.
Proof. unfold adopting. by rewrite list_lookup_imap. Qed.

(** One iteration of the loop. *)
Lemma adopting_S i ini k l p q :
  l !! k = Some p → adopting i ini k l !! k = Some q →
  adopting i ini (S k) l =
    wake_if (bool_decide (zombie_child i p)) ini <$> <[k := adopt i ini q]> (adopting i ini k l).
Proof.
  intros Hp Hq. rewrite lookup_adopting, Hp in Hq. injection Hq as <-.
  rewrite Nat.ltb_irrefl. apply list_eq. intros m.
  rewrite list_lookup_fmap, lookup_adopting.
  assert (bool_decide (Exists (zombie_child i) (take (S k) l)) =
    bool_decide (Exists (zombie_child i) (take k l)) || bool_decide (zombie_child i p)) as ->.
  { rewrite (take_S_r _ _ _ Hp). apply eq_bool_prop_intro.
    rewrite orb_True, !bool_decide_spec, Exists_app, Exists_cons, Exists_nil. tauto. }
  destruct (decide (m = k)) as [->|Hne].
  - rewrite list_lookup_insert_eq.
    2: { unfold adopting. rewrite length_imap. by eapply lookup_lt_Some. }
    rewrite Hp. simpl. rewrite (proj2 (Nat.ltb_lt k (S k))) by lia.
    by rewrite adopt_wake_if, wake_if_or.
  - rewrite list_lookup_insert_ne by done. rewrite lookup_adopting.
    destruct (l !! m) as [pm|]; simpl; [|done]. f_equal.
    rewrite wake_if_or. f_equal.
    destruct (Nat.ltb_spec m k), (Nat.ltb_spec m (S k)); done || lia.
Qed.

Lemma adopting_all i ini par l :
  adopting i ini (length l) (wake (chan_of par) <$> l) =
    bereaved i par ini (bool_decide (Exists (zombie_child i) l)) <$> l.
Proof.
  apply list_eq. intros m. rewrite lookup_adopting, !list_lookup_fmap.
  rewrite take_ge by (by rewrite length_fmap).
  replace (bool_decide (Exists (zombie_child i) (wake (chan_of par) <$> l)))
    with (bool_decide (Exists (zombie_child i) l)).
  2: { apply bool_decide_ext. rewrite !Exists_exists. setoid_rewrite list_elem_of_fmap.
       split; [|intros (?&(q&->&?)&?)]; [intros (q&?&?)|exists q; by rewrite zombie_wake in *].
       exists (wake (chan_of par) q). rewrite zombie_wake. eauto. }
  destruct (l !! m) as [p|] eqn:Hm; simpl; [|done].
  apply lookup_lt_Some in Hm. by rewrite (proj2 (Nat.ltb_lt _ _)).
Qed.

Lemma wakeup1_table ch s u s' :
  wakeup1 ch s = Ok u s' →
  abs_proc <$> ptable s' = wake ch <$> (abs_proc <$> ptable s) ∧
  running s' = running s ∧ initproc s' = initproc s ∧ nextpid s' = nextpid s.
Proof. intros H. apply wakeup1_Ok in H as [_ E]. by injection E. Qed.

Lemma reparent_step i k s u s' l :
  (p ← proc_get k; init ← gets initproc;
   when (bool_decide (p_parent p = Some i)) (
     proc_upd k (set_parent init);;
     when (bool_decide (p_state p = ZOMBIE)) (wakeup1 (chan_of init)))) s = Ok u s' →
  abs_proc <$> ptable s = adopting i (initproc s) k l →
  abs_proc <$> ptable s' = adopting i (initproc s) (S k) l ∧
  running s' = running s ∧ initproc s' = initproc s ∧ nextpid s' = nextpid s.
Proof.
  intros H Hab. apply bind_Ok in H as (p&?&Hg&H). apply proc_get_Ok in Hg as [-> Hp].
  apply bind_Ok in H as (?&?&Hg&H). apply gets_Ok in Hg as [-> ->].
  pose proof (lookup_abs _ _ _ Hp) as Hq. rewrite Hab in Hq.
  pose proof Hq as Hq'. rewrite lookup_adopting, Nat.ltb_irrefl in Hq'.
  apply fmap_Some in Hq' as (p0&Hp0&Hpp).
  assert (zombie_child i p0 ↔ zombie_child i (abs_proc p)) as Hz.
  { rewrite Hpp. unfold wake_if. case_match; [by rewrite zombie_wake|done]. }
  rewrite (adopting_S _ _ _ _ _ _ Hp0 Hq). rewrite (bool_decide_ext _ _ Hz), <-Hab.
  unfold zombie_child. simpl. unfold when in H.
  destruct (bool_decide (p_parent p = Some i)) eqn:Hpar;
    [apply bool_decide_eq_true in Hpar|apply bool_decide_eq_false in Hpar].
  - apply bind_Ok in H as (?&s1&Hu&H). apply proc_upd_Ok in Hu as (p1&Hp1&->). simplify_eq.
    assert (abs_proc (set_parent (initproc s) p) = adopt i (initproc s) (abs_proc p)) as Ead.
    { unfold adopt. by rewrite bool_decide_eq_true_2. }
    destruct (bool_decide (p_state p = ZOMBIE)) eqn:Hst;
      [apply bool_decide_eq_true in Hst|apply bool_decide_eq_false in Hst].
    + apply wakeup1_table in H as (E&?&?&?). kproj.
      rewrite bool_decide_eq_true_2 by done. rewrite E, list_fmap_insert, Ead. done.
    + apply mret_Ok in H as [-> _]. kproj. rewrite bool_decide_eq_false_2 by tauto.
      rewrite list_fmap_insert, Ead. simpl. by rewrite list_fmap_id.
  - apply mret_Ok in H as [-> _]. rewrite bool_decide_eq_false_2 by tauto. simpl.
    rewrite list_fmap_id, adopt_other by done. rewrite list_insert_id; [done|].
    by apply lookup_abs.
Qed.

Lemma reparent_Ok i n k s u s' l :
  reparent i n k s = Ok u s' → (k + n = length l)%nat →
  abs_proc <$> ptable s = adopting i (initproc s) k l →
  abs_proc <$> ptable s' = adopting i (initproc s) (length l) l ∧
  running s' = running s ∧ initproc s' = initproc s ∧ nextpid s' = nextpid s.
Proof.
  revert k s. induction n as [|n IH]; intros k s H Hk Hab; cbn [reparent] in H.
  { apply mret_Ok in H as [-> _]. by replace (length l) with k by lia. }
  assert (∃ u1 s1, (p ← proc_get k; init ← gets initproc;
   when (bool_decide (p_parent p = Some i)) (
     proc_upd k (set_parent init);;
     when (bool_decide (p_state p = ZOMBIE)) (wakeup1 (chan_of init)))) s = Ok u1 s1 ∧
     reparent i n (S k) s1 = Ok u s') as (u1&s1&H1&H2).
  { apply bind_Ok in H as (p&s1&H1&H). apply bind_Ok in H as (ini&s2&H2&H).
    apply bind_Ok in H as (u1&s3&H3&H). exists u1, s3. split; [|done].
    apply bind_Ok. exists p, s1. split; [done|]. apply bind_Ok. eauto. }
  destruct (reparent_step _ _ _ _ _ _ H1 Hab) as (E1&E2&E3&E4).
  destruct (IH (S k) s1) as (F1&F2&F3&F4); [done|lia|by rewrite E3|].
  rewrite F1, F2, F3, F4, E2, E3, E4. done.
Qed.

Lemma exit_sim c i s u s' :
  length (ptable s) = Z.to_nat NPROC →
  running s !! c = Some (Some i) → initproc s ≠ Some i →
  exit_locked c i s = Ok u s' → sstep (abs s) (abs s').
Proof.
  unfold exit_locked. intros Hlen Hc Hini H.
  apply bind_Ok in H as (?&?&Ha&H). apply acquire_Ok in Ha as [_ ->].
  apply bind_Ok in H as (p&?&Hg&H). apply proc_get_Ok in Hg as [-> Hp]. kproj.
  apply bind_Ok in H as (?&s1&Hw&H). apply wakeup1_table in Hw as (W1&W2&W3&W4). kproj.
  apply bind_Ok in H as (?&s2&Hr&H).
  apply (reparent_Ok _ _ _ _ _ _ (wake (chan_of (p_parent p)) <$> (abs_proc <$> ptable s)))
    in Hr as (R1&R2&R3&R4).
  2: { by rewrite !length_fmap, Hlen. }
  2: { rewrite W1. unfold adopting. rewrite take_0. simpl.
       apply list_eq. intros m. rewrite list_lookup_imap. by destruct (_ !! m). }
  rewrite !length_fmap, <-(length_fmap abs_proc (ptable s)), adopting_all, W3 in R1.
  apply bind_Ok in H as (?&s3&H3&H). apply silent_acquire in H3.
  apply bind_Ok in H as (?&s4&H4&H). apply pptable_slot_silent in H4.
  apply bind_Ok in H as (?&s5&H5&H). apply pptable_upd_silent in H5.
  apply bind_Ok in H as (?&s6&H6&H).
  apply (log_copy_silent _ _ _ _ _ (log_of_silent _) (λ _ _, pptable_upd_silent _ _)) in H6.
  apply bind_Ok in H as (?&s7&H7&H). apply silent_release in H7.
  assert (abs s7 = abs s2) as Hab by congruence. clear H3 H4 H5 H6 H7.
  assert (running s7 = running s ∧ initproc s7 = initproc s ∧ nextpid s7 = nextpid s ∧
    abs_proc <$> ptable s7 = abs_proc <$> ptable s2) as (E1&E2&E3&E4).
  { unfold abs in Hab. injection Hab. intros. split_and!; congruence. }
  clear Hab. kinv. rename x11 into q.
  match goal with H1 : sched _ _ _ = Ok _ _, H2 : scheduler_return _ _ = Ok _ _ |- _ =>
    destruct (leave_Ok _ _ _ _ _ _ _ H1 H2) as (j&q'&Hj&Hq'&->) end.
  kproj. rewrite E1, Hc in Hj. injection Hj as <-. kslot.
  rewrite list_fmap_insert, list_insert_insert_eq, E1, E2, E3, E4, R1.
  pose proof (lookup_abs _ _ _ H) as Hq. rewrite E4, R1, list_lookup_fmap in Hq.
  rewrite (lookup_abs _ _ _ Hp) in Hq. injection Hq as Hq.
  assert (exited i (p_parent p) (initproc s) (abs_proc <$> ptable s) =
    <[i := PCore ZOMBIE (p_pid q) (p_parent q) (p_chan q) A_sched A_exit]>
      (bereaved i (p_parent p) (initproc s)
         (bool_decide (Exists (zombie_child i) (abs_proc <$> ptable s))) <$>
       (abs_proc <$> ptable s))) as Hex.
  { unfold exited. erewrite alter_fmap_insert by (by apply lookup_abs). by rewrite Hq. }
  simpl. rewrite <-Hex. by apply (S_exit _ _ _ _ c i (abs_proc p)), Hini; [|apply lookup_abs].
Qed.

(** ** The simulation *)

Lemma sstep_length c c' : sstep c c' → length (procs c') = length (procs c).
Proof.
  destruct 1; simpl; rewrite ?length_insert, ?length_fmap; try done.
  unfold exited. by rewrite length_alter, length_fmap.
Qed.

Record good (c : core) : Prop := {
  good_inv : cinv c;
  good_len : length (procs c) = Z.to_nat NPROC;
}.

Lemma good_steps c c' : good c → rtc sstep c c' → good c'.
Proof.
  intros Hg Hr. apply (rtc_invariant sstep good c c'); [|done|done].
  intros a b [H1 H2] Hs. split; [by eapply cinv_step|]. by rewrite (sstep_length _ _ Hs).
Qed.

Lemma kstep_sim s s' : good (abs s) → kstep s s' → rtc sstep (abs s) (abs s').
Proof.
  intros [Hinv Hlen] Hk. pose proof (inv_pid _ Hinv) as [_ _ Hnext]. simpl in *.
  rewrite length_fmap in Hlen.
  assert (∀ h, abs (locks h s) = abs s) as Hl by done.
  destruct Hk; try rewrite <-(Hl h).
  - apply rtc_once. eapply allocproc_sim; [..|done]; simpl; lia.
  - apply rtc_once. by eapply fork_finish_sim.
  - by rewrite (exit_files_silent _ _ _ _ H).
  - apply rtc_once. by eapply exit_sim.
  - by eapply wait_sim.
  - by rewrite (idle_silent _ _ _ _ H).
  - apply rtc_once. by eapply enter_sim.
  - destruct (enter_sim fuel c i (locks h s) s1 s2) as [H4 H5]; [done..|].
    eapply rtc_l; [done|]. by eapply wait_iter_sim.
  - apply rtc_once. by eapply yield_sim.
  - apply rtc_once. by eapply sleep_sim.
  - apply rtc_once. by eapply wakeup_sim.
  - by eapply kill_sim.
  - by rewrite (growproc_silent _ _ _ _ _ H).
  - by rewrite (set_alarm_silent _ _ _ _ _ H).
  - by rewrite (set_edx_silent _ _ _ _ _ H).
  - by rewrite (set_tickets_silent _ _ _ _ _ H).
  - by rewrite (set_queue_silent _ _ _ _ _ H).
  - by rewrite H.
Qed.

(** ** Boot *)

Definition zero_proc : proc :=
  Proc 0 0 0 UNUSED 0 None 0 trapframe0 context0 NoChan 0
    (replicate (Z.to_nat NOFILE) None) None (replicate 16 0) 0 empty_log 0 0 0 0 0.

(** The zero-initialised globals ([nextpid] starts at 1) on [n] cpus. *)
Definition boot (n : nat) (v : V) (f : F) : pst V F :=
  Pst (replicate (Z.to_nat NPROC) zero_proc) (replicate (Z.to_nat NPROC) zero_proc) None 1 0
    (replicate n None) [] rng_boot [] true v f.

(** The states the kernel can be in after [userinit] has made the first
    process. *)
Definition reachable (s : pst V F) : Prop :=
  ∃ n code v f s0, userinit code (boot n v f) = Ok tt s0 ∧ rtc kstep s0 s.

(** The table after [userinit]. *)
Definition first_core (n : nat) : core :=
  Core (PCore RUNNABLE 1 None NoChan A_forkret A_trapret ::
        replicate 63 (PCore UNUSED 0 None NoChan A_null A_null))
    (replicate n None) (Some 0%nat) 2.

Lemma userinit_abs n code v f s0 :
  userinit code (boot n v f) = Ok tt s0 → abs s0 = first_core n.
Proof.
  assert (list_find (λ p, p_state p = UNUSED) (replicate (Z.to_nat NPROC) zero_proc) =
    Some (0%nat, zero_proc)) as Hfind by reflexivity.
  unfold userinit, allocproc. intros H.
  apply bind_Ok in H as (o&s1&Ha&H).
  apply bind_Ok in Ha as (?&?&Hacq&Ha). apply acquire_Ok in Hacq as [_ ->].
  apply bind_Ok in Ha as (?&?&Hl&Ha). apply gets_Ok in Hl as [-> ->].
  cbn [boot on_held ptable] in Ha. rewrite Hfind in Ha.
  unfold boot in *. kinv; simplify_eq.
  match goal with H : replicate _ _ !! _ = Some _ |- _ =>
    apply lookup_replicate in H as [-> _] end.
  unfold abs, first_core; kproj.
  rewrite !list_fmap_insert, !fmap_replicate, !list_insert_insert_eq. reflexivity.
Qed.

Lemma first_good n : good (first_core n).
Proof.
  split; [split|done].
  - split; simpl.
    + intros c i Hc. apply lookup_replicate in Hc as [? _]. done.
    + intros i p Hp Hr. exfalso. destruct i as [|i]; simpl in Hp; [by simplify_eq|].
      apply (lookup_replicate_1 63) in Hp as [-> _]. done.
    + intros c c' i Hc. apply lookup_replicate in Hc as [? _]. done.
  - split; simpl.
    + intros i p j Hp Hj. exfalso. destruct i as [|i]; simpl in Hp; [by simplify_eq|].
      apply (lookup_replicate_1 63) in Hp as [-> _]. done.
    + intros i p Hp Hr. destruct i as [|i]; simpl in Hp; [by simplify_eq|].
      apply (lookup_replicate_1 63) in Hp as [-> _]. done.
    + eexists _, _. split_and!; try done. by right; left.
    + intros i p k q Hp Hs. exfalso. destruct i as [|i]; simpl in Hp; [by simplify_eq|].
      apply (lookup_replicate_1 63) in Hp as [-> _]. done.
  - split; simpl; [| |done].
    + intros i p Hp Hr. destruct i as [|i]; simpl in Hp; [by simplify_eq|].
      apply (lookup_replicate_1 63) in Hp as [-> _]. done.
    + intros i j p q Hp Hq Hu Hu'.
      destruct i as [|i]; [|apply (lookup_replicate_1 63) in Hp as [-> _]; done].
      destruct j as [|j]; [done|]. apply (lookup_replicate_1 63) in Hq as [-> _]. done.
  - intros i p Hp Hr. destruct i as [|i]; simpl in Hp; [by simplify_eq; left|].
    apply (lookup_replicate_1 63) in Hp as [-> _]. unfold alive in Hr. simpl in Hr.
    intuition discriminate.
Qed.

Lemma reachable_good s : reachable s → good (abs s).
Proof.
  intros (n&code&v&f&s0&Hi&Hr). apply userinit_abs in Hi.
  apply (rtc_invariant kstep (λ s, good (abs s)) s0 s); [| |done].
  - intros a b Ha Hs. eapply good_steps; [done|]. by apply kstep_sim.
  - rewrite Hi. apply first_good.
Qed.
End sim.
