(* ===== verification/ProcThms.v ===== *)
(** * The process table: main theorems

    What holds in every state the kernel reaches after [userinit], for any
    memory and file components behind the interfaces of [ProcState.v].  The
    witnesses run a small machine: init is started, forks, and waits. *)

From S2P Require Import Prelude Params CString Cprintf Rand ProcState Sched Proc ProcCalls ProcSpec ProcRefine.

(** ** A machine to run the code on *)

Module Demo.
#[export] Instance mem_ops : MemOps unit := {
  kalloc := mret 4096;
  kfree _ := mret tt;
  setupkvm := mret 8192;
  inituvm _ _ := mret tt;
  allocuvm _ _ n := mret n;
  deallocuvm _ _ n := mret n;
  copyuvm _ _ := mret 8192;
  freevm _ := mret tt;
  switchuvm _ _ := mret tt;
  switchkvm := mret tt;
}.
#[export] Instance file_ops : FileOps unit := {
  filedup f := mret f;
  fileclose _ := mret tt;
  idup i := mret i;
  iput _ := mret tt;
  namei _ := mret (Some 0%nat);
  begin_op := mret tt;
  end_op := mret tt;
  iinit _ := mret tt;
  initlog _ := mret tt;
}.

Definition run {A} (m : M (pst unit unit) A) (s : pst unit unit) : pst unit unit :=
  match m s with Ok _ s' => s' | Fail _ => s end.
Definition result {A} (d : A) (m : M (pst unit unit) A) (s : pst unit unit) : A :=
  match m s with Ok a _ => a | Fail _ => d end.
Lemma run_Ok {A} (m : M (pst unit unit) A) s d :
  is_fail (m s) = false → m s = Ok (result d m s) (run m s).
Proof. unfold run, result. by destruct (m s). Qed.

Lemma run_unit (m : M (pst unit unit) unit) s :
  is_fail (m s) = false → m s = Ok tt (run m s).
Proof. unfold run. by destruct (m s) as [[]|]. Qed.

(** init alone; on the cpu; with an embryo; with a child; asleep in wait. *)
Definition s0 := run (userinit [144]) (boot 1 tt tt).
Definition s1 := run (scheduler_enter 10 0) (locks [] s0).
Definition s2 := run (resume 0) s1.
Definition s3 := run allocproc (locks [] s2).
Definition s4 := run (fork_finish 0 1) (locks [] s3).
Definition s5 := run (wait 0) (locks [] s4).

Lemma s0_Ok : userinit [144] (boot 1 tt tt) = Ok tt s0.
Proof. apply run_unit. vm_compute. reflexivity. Qed.
Lemma s1_Ok : scheduler_enter 10 0 (locks [] s0) = Ok (Some 0%nat) s1.
Proof. rewrite (run_Ok _ _ None); vm_compute; reflexivity. Qed.
Lemma s2_Ok : resume 0 s1 = Ok tt s2.
Proof. apply run_unit. vm_compute. reflexivity. Qed.
Lemma s3_Ok : allocproc (locks [] s2) = Ok (Some 1%nat) s3.
Proof. rewrite (run_Ok _ _ None); vm_compute; reflexivity. Qed.
Lemma s4_Ok : fork_finish 0 1 (locks [] s3) = Ok 2 s4.
Proof. rewrite (run_Ok _ _ 0); vm_compute; reflexivity. Qed.
Lemma s5_Ok : wait 0 (locks [] s4) = Ok None s5.
Proof. rewrite (run_Ok _ _ None); vm_compute; reflexivity. Qed.

Lemma step2 : kstep s0 s2.
Proof.
  refine (K_run 10 [] 0 0 s0 s1 s2 _ s1_Ok s2_Ok _).
  - vm_compute. reflexivity.
  - replace (held s2) with (@nil klock) by (vm_compute; reflexivity). apply not_elem_of_nil.
Qed.
Lemma step3 : kstep s2 s3.
Proof. refine (K_alloc [] s2 s3 _ _ s3_Ok). vm_compute. reflexivity. Qed.
Lemma step4 : kstep s3 s4.
Proof.
  destruct (ptable s3 !! 1%nat) as [p|] eqn:Hp; [|vm_compute in Hp; discriminate].
  refine (K_fork [] 0 0 1 p s3 s4 _ _ Hp _ s4_Ok).
  - vm_compute. reflexivity.
  - assert (p_state <$> ptable s3 !! 1%nat = Some EMBRYO) as E by (vm_compute; reflexivity).
    rewrite Hp in E. by injection E.
Qed.
Lemma step5 : kstep s4 s5.
Proof. exact (K_wait [] 0 s4 s5 _ s5_Ok). Qed.

Lemma reach0 : reachable s0.
Proof. exists 1%nat, [144], tt, tt, s0. split; [exact s0_Ok|apply rtc_refl]. Qed.
Lemma reach_step s s' : reachable s → kstep s s' → reachable s'.
Proof.
  intros (n&code&v&f&s00&Hi&Hr) Hs. exists n, code, v, f, s00. split; [exact Hi|].
  exact (rtc_r _ _ _ Hr Hs).
Qed.
Lemma reach2 : reachable s2.
Proof. exact (reach_step _ _ reach0 step2). Qed.
Lemma reach4 : reachable s4.
Proof. exact (reach_step _ _ (reach_step _ _ reach2 step3) step4). Qed.
Lemma reach5 : reachable s5.
Proof. exact (reach_step _ _ reach4 step5). Qed.

(** The slot [i] of a concrete state. *)
Definition slot (s : pst unit unit) (i : nat) : proc := default zero_proc (ptable s !! i).
Lemma slot_lookup s i : bool_decide (is_Some (ptable s !! i)) = true → ptable s !! i = Some (slot s i).
Proof. intros H%bool_decide_eq_true. unfold slot. by destruct H as [p ->]. Qed.
End Demo.
Import Demo.

Section thms.
Context {V F : Type} `{!MemOps V, !FileOps F}.
Implicit Types s : pst V F.

(** C1. The process code implements the abstract process manager of
    [ProcSpec.v]: from any reachable state, every critical section of
    [allocproc], [fork], [exit], [wait], [kill], [sleep], [wakeup], [yield]
    and the scheduler makes only transitions of the specification. *)
Theorem proc_refines_spec s s' :
  reachable s → kstep s s' → rtc sstep (abs s) (abs s').
Proof. intros Hr Hs. apply kstep_sim; [by apply reachable_good|done]. Qed.

(** C18. In every reachable state a process is RUNNING exactly when it is the
    current process of one cpu, and of one cpu only. *)
Theorem running_on_one_cpu s i p :
  reachable s → ptable s !! i = Some p →
  p_state p = RUNNING ↔ exists! c, running s !! c = Some (Some i).
Proof.
  intros Hr Hp. destruct (inv_cpu _ (good_inv _ (reachable_good s Hr))) as [H1 H2 H3].
  simpl in *. split.
  - intros Hst. destruct (H2 i (abs_proc p)) as [c Hc]; [by apply lookup_abs|done|].
    exists c. split; [done|]. intros c' Hc'. by apply (H3 c c' i).
  - intros (c&Hc&_). destruct (H1 _ _ Hc) as (q&Hq&Hst).
    rewrite (lookup_abs _ _ _ Hp) in Hq. by simplify_eq.
Qed.

(** In every reachable state the pids of the slots in use are positive
    and pairwise distinct. *)
Theorem pids_unique s i j p q :
  reachable s → ptable s !! i = Some p → ptable s !! j = Some q →
  p_state p ≠ UNUSED → p_state q ≠ UNUSED →
  0 < p_pid p ∧ (p_pid p = p_pid q → i = j).
Proof.
  intros Hr Hp Hq Hu Hu'. destruct (inv_pid _ (good_inv _ (reachable_good s Hr))) as [H1 H2 _].
  split.
  - by apply (H1 i (abs_proc p)); [apply lookup_abs|].
  - intros Heq. by apply (H2 i j (abs_proc p) (abs_proc q)); [apply lookup_abs..| | |].
Qed.

(** C17. In every reachable state the parent of a process is another process
    that has neither exited nor been freed; orphans are never left behind. *)
Theorem parents_alive s i p j :
  reachable s → ptable s !! i = Some p → p_parent p = Some j →
  j ≠ i ∧ ∃ q, ptable s !! j = Some q ∧
    (p_state q = SLEEPING ∨ p_state q = RUNNABLE ∨ p_state q = RUNNING).
Proof.
  intros Hr Hp Hj. destruct (inv_family _ (good_inv _ (reachable_good s Hr))) as [H1 _ _ _].
  destruct (H1 i (abs_proc p) j) as (Hne&q&Hq&Ha); [by apply lookup_abs|done|].
  split; [done|]. apply list_lookup_fmap_Some in Hq as (q0&->&Hq0). eauto.
Qed.

(** C3. No wakeup of a waiting parent is lost: in every reachable state, a
    process asleep in [wait] has no exited child that it has not been told
    about. *)
Theorem no_lost_wakeup s i p k q :
  reachable s → ptable s !! i = Some p → p_state p = SLEEPING → p_chan p = ChProc i →
  ptable s !! k = Some q → p_parent q = Some i → p_state q ≠ ZOMBIE.
Proof.
  intros Hr Hp Hs Hc Hq Hpar Hz.
  destruct (inv_family _ (good_inv _ (reachable_good s Hr))) as [_ _ _ H4].
  by apply (H4 i (abs_proc p) k (abs_proc q));
    [apply lookup_abs|..|apply lookup_abs|split].
Qed.

(** A process the scheduler switches to always has somewhere to go: its
    saved context leads to [forkret] or back into [yield] or [sleep], never
    into the end of [exit]. *)
Theorem scheduled_resumes s fuel h c i s1 :
  reachable s → scheduler_enter fuel c (locks h s) = Ok (Some i) s1 →
  ∃ p, ptable s1 !! i = Some p ∧ p_state p = RUNNING ∧ resumable (abs_proc p).
Proof.
  intros Hr H. pose proof (inv_resume _ (good_inv _ (reachable_good s Hr))) as Hres.
  unfold scheduler_enter in H. apply bind_Ok in H as (?&?&Ha&H). apply silent_acquire in Ha.
  apply bind_Ok in H as (o&s2&Hp&H). apply scheduler_pick_Ok in Hp as (Habs&_&Ho).
  rewrite Ha in Habs. apply (f_equal procs) in Habs. simpl in Habs.
  destruct o as [j|]; kinv. destruct (Ho j eq_refl) as (p&Hp&Hst).
  match goal with H : run_proc _ _ _ = Ok _ _ |- _ =>
    eapply run_proc_Ok in H as (_&p'&->&_&_&_&Hp'); [|done] end.
  exists p'. rewrite list_lookup_insert_eq by (by eapply lookup_lt_Some).
  split; [done|]. split; [exact (f_equal k_state Hp')|].
  assert (resumable (abs_proc p)) as Hrp.
  { apply (Hres j); [|left; right; by left]. simpl. rewrite <-Habs. by apply lookup_abs. }
  by rewrite Hp'.
Qed.
End thms.

(** The theorems on the machine of [Demo]. *)
Lemma proc_refines_spec_witness : rtc sstep (abs s4) (abs s5).
Proof. apply proc_refines_spec; [exact reach4|exact step5]. Defined.

Lemma running_on_one_cpu_witness :
  p_state (slot s2 0) = RUNNING ↔ exists! c, running s2 !! c = Some (Some 0%nat).
Proof.
  apply running_on_one_cpu; [exact reach2|]. apply slot_lookup. vm_compute. reflexivity.
Defined.

Lemma pids_unique_witness :
  0 < p_pid (slot s4 0) ∧ (p_pid (slot s4 0) = p_pid (slot s4 1) → 0%nat = 1%nat).
Proof.
  apply (pids_unique s4); [exact reach4| | | |];
    try (apply slot_lookup); vm_compute; (reflexivity || discriminate).
Defined.

Lemma parents_alive_witness :
  0%nat ≠ 1%nat ∧ ∃ q, ptable s4 !! 0%nat = Some q ∧
    (p_state q = SLEEPING ∨ p_state q = RUNNABLE ∨ p_state q = RUNNING).
Proof.
  apply (parents_alive s4 1 (slot s4 1)); [exact reach4| |].
  - apply slot_lookup. vm_compute. reflexivity.
  - vm_compute. reflexivity.
Defined.

Lemma no_lost_wakeup_witness : p_state (slot s5 1) ≠ ZOMBIE.
Proof.
  apply (no_lost_wakeup s5 0 (slot s5 0) 1); [exact reach5|..];
    try (apply slot_lookup); vm_compute; reflexivity.
Defined.

Lemma scheduled_resumes_witness :
  ∃ p, ptable s1 !! 0%nat = Some p ∧ p_state p = RUNNING ∧ resumable (abs_proc p).
Proof. exact (scheduled_resumes s0 10 [] 0 0 s1 reach0 s1_Ok). Defined.
