(* ===== verification/SchedThms.v ===== *)
(** * The scheduler's choice

    What [scheduler] picks: a winner of the lottery if a process of the first
    queue is runnable, with the probability its tickets give it, and
    otherwise the first runnable slot of the table. *)

From S2P Require Import Prelude Params Cprintf Rand ProcState Sched Proc ProcCalls ProcSpec ProcRefine ProcThms.

(** The tickets in play as an integer, without wrap-around. *)
Fixpoint total_tickets (l : list proc) : Z :=
  match l with
  | [] => 0
  | p :: l' => (if runnable_pl1 p then p_tickets p else 0) + total_tickets l'
  end.

(** Tickets are positive and their sum is an [int]. *)
Record tickets_ok (l : list proc) : Prop := {
  tk_pos : Forall (λ p, runnable_pl1 p = true → 0 < p_tickets p) l;
  tk_sum : total_tickets l ≤ RAND_MAX;
}.

Lemma total_nonneg l :
  Forall (λ p, runnable_pl1 p = true → 0 < p_tickets p) l → 0 ≤ total_tickets l.
Proof.
  induction 1 as [|p l Hp _ IH]; simpl; [lia|].
  destruct (runnable_pl1 p); [specialize (Hp eq_refl)|]; lia.
Qed.

Lemma lottery_sum_total_from l sum :
  Forall (λ p, runnable_pl1 p = true → 0 < p_tickets p) l →
  0 ≤ sum → sum + total_tickets l ≤ RAND_MAX →
  foldl (λ sum p, if runnable_pl1 p then sum +i p_tickets p else sum) sum l =
    sum + total_tickets l.
Proof.
  intros Hl. revert sum. induction Hl as [|p l Hp Hl IH]; intros sum H0 Hs; simpl in *; [lia|].
  pose proof (total_nonneg l Hl).
  destruct (runnable_pl1 p).
  - specialize (Hp eq_refl). rewrite s32_id by (unfold is_i32, RAND_MAX in *; lia).
    rewrite IH; lia.
  - rewrite IH; lia.
Qed.

Lemma lottery_sum_total l : tickets_ok l → lottery_sum l = total_tickets l.
Proof.
  intros [Hp Hs]. unfold lottery_sum. rewrite lottery_sum_total_from; [lia|done|lia|lia].
Qed.

(** The second loop stops at the slot whose tickets contain the winner; the
    first candidate also wins on anything not above its tickets. *)
Lemma lottery_pick_iff w sum k l i :
  Forall (λ p, runnable_pl1 p = true → 0 < p_tickets p) l →
  0 ≤ sum → sum + total_tickets l ≤ RAND_MAX → sum < w ∨ sum = 0 →
  lottery_pick w sum k l = Some (k + i)%nat ↔
  ∃ p, l !! i = Some p ∧ runnable_pl1 p = true ∧
    w ≤ sum + total_tickets (take i l) + p_tickets p ∧
    (sum + total_tickets (take i l) < w ∨ sum + total_tickets (take i l) = 0).
Proof.
  intros Hl. revert sum k i. induction Hl as [|p l Hp Hl IH]; intros sum k i H0 Hs Hw.
  { simpl. split; [done|]. intros (p&Hp&_). by rewrite lookup_nil in Hp. }
  cbn [lottery_pick total_tickets] in *. pose proof (total_nonneg l Hl) as Hnn.
  destruct (runnable_pl1 p) eqn:Hr.
  - specialize (Hp eq_refl). rewrite s32_id by (unfold is_i32, RAND_MAX in *; lia).
    destruct (Z.ltb_spec (sum + p_tickets p) w) as [Hlt|Hge].
    + destruct i as [|i].
      * split; [|intros (q&[= <-]&_&Hq&_); simpl in Hq; lia].
        intros E. apply lottery_pick_Some in E as [? _]. lia.
      * replace (k + S i)%nat with (S k + i)%nat by lia.
        rewrite IH by lia. simpl. rewrite Hr.
        split; intros (q&?&?&?&?); exists q; (split_and!; [done|done|lia|lia]).
    + split.
      * intros [= E]. assert (i = 0%nat) as -> by lia. exists p. simpl.
        split_and!; [done|done|lia|lia].
      * intros (q&Hq&Hrq&Hle&Hcase). destruct i as [|i]; [f_equal; lia|].
        exfalso. simpl in Hcase. rewrite Hr in Hcase.
        assert (0 ≤ total_tickets (take i l)).
        { apply total_nonneg. by apply Forall_take. }
        lia.
  - destruct i as [|i].
    + split; [|intros (q&[= <-]&?&_); congruence].
      intros E. apply lottery_pick_Some in E as [? _]. lia.
    + replace (k + S i)%nat with (S k + i)%nat by lia.
      rewrite IH by lia. simpl. rewrite Hr.
      split; intros (q&?&?&?&?); exists q; (split_and!; [done|done|lia|lia]).
Qed.

Lemma total_take_le l i p :
  Forall (λ p, runnable_pl1 p = true → 0 < p_tickets p) l →
  l !! i = Some p → runnable_pl1 p = true →
  0 ≤ total_tickets (take i l) ∧ total_tickets (take i l) + p_tickets p ≤ total_tickets l.
Proof.
  intros Hl. revert i. induction Hl as [|q l Hq Hl IH]; intros i Hi Hr; [done|].
  pose proof (total_nonneg l Hl).
  destruct i as [|i]; simpl in *.
  - simplify_eq. rewrite Hr. lia.
  - destruct (IH i Hi Hr). destruct (runnable_pl1 q); [specialize (Hq eq_refl)|]; lia.
Qed.

(** The draws from 0 to the number of tickets on which slot [i] wins. *)
Definition winning (l : list proc) (i : nat) : list Z :=
  filter (λ w, lottery_pick w 0 0 l = Some i) (seqZ 0 (total_tickets l + 1)).

(** C36. The lottery is fair up to one draw: of the [total_tickets l + 1]
    equally likely draws, a runnable process of the first queue wins on as
    many as it has tickets; the first such process of the table also wins on
    the draw 0. *)
Theorem lottery_share l i p :
  tickets_ok l → l !! i = Some p → runnable_pl1 p = true →
  Z.of_nat (length (winning l i)) =
    p_tickets p + (if total_tickets (take i l) =? 0 then 1 else 0).
Proof.
  intros [Hpos Hsum] Hi Hr. destruct (total_take_le l i p Hpos Hi Hr) as [Ht1 Ht2].
  assert (0 < p_tickets p) as Hp. { rewrite Forall_lookup in Hpos. by apply (Hpos i). }
  unfold winning.
  assert (∀ w, 0 ≤ w < total_tickets l + 1 → lottery_pick w 0 0 l = Some i ↔
    (if total_tickets (take i l) =? 0 then 0 else total_tickets (take i l) + 1) ≤ w
      ≤ total_tickets (take i l) + p_tickets p) as Hw.
  { intros w Hw. rewrite (lottery_pick_iff w 0 0 l i) by (done || lia).
    destruct (Z.eqb_spec (total_tickets (take i l)) 0); split.
    all: try (intros (q&?&?&?&?); simplify_eq; lia).
    all: intros ?; exists p; split_and!; done || lia. }
  destruct (Z.eqb_spec (total_tickets (take i l)) 0) as [E|E].
  - rewrite (count_interval _ _ 0 (total_tickets (take i l) + p_tickets p)) by (done || lia). lia.
  - rewrite (count_interval _ _ (total_tickets (take i l) + 1)
      (total_tickets (take i l) + p_tickets p)) by (done || lia). lia.
Qed.

Definition runnable (p : proc) : Prop := p_state p = RUNNABLE.
#[export] Instance runnable_dec p : Decision (runnable p).
Proof. unfold runnable. apply _. Defined.

(** With a winner in range, the lottery finds one of the runnable processes
    of the first queue, if there is any. *)
Lemma lottery_pick_complete w l :
  tickets_ok l → 0 ≤ w ≤ total_tickets l →
  match lottery_pick w 0 0 l with
  | Some i => ∃ p, l !! i = Some p ∧ runnable_pl1 p = true
  | None => Forall (λ p, runnable_pl1 p = false) l
  end.
Proof.
  intros [Hpos Hsum] Hw. destruct (lottery_pick w 0 0 l) as [i|] eqn:E.
  { apply lottery_pick_Some in E as (_&p&Hp&?). rewrite Nat.sub_0_r in Hp. eauto. }
  assert (∀ sum k, sum + total_tickets l ≤ RAND_MAX → 0 ≤ sum → w ≤ sum + total_tickets l →
    lottery_pick w sum k l = None → Forall (λ p, runnable_pl1 p = false) l) as Hgen.
  { clear E Hw Hsum. induction Hpos as [|p l Hp Hl IH]; intros sum k Hs H0 Hw E; [done|].
    cbn [lottery_pick total_tickets] in *. pose proof (total_nonneg l Hl).
    destruct (runnable_pl1 p) eqn:Hr.
    - exfalso. specialize (Hp eq_refl). rewrite s32_id in E by (unfold is_i32, RAND_MAX in *; lia).
      revert E. destruct (Z.ltb_spec (sum + p_tickets p) w); [|done]. intros E.
      assert (Forall (λ p, runnable_pl1 p = false) l) as Hn.
      { apply (IH (sum + p_tickets p) (S k)); [lia..|exact E]. }
      assert (total_tickets l = 0) as Hz.
      { clear -Hn. induction Hn as [|q l Hq _ IH]; simpl; [done|]. by rewrite Hq, IH. }
      lia.
    - constructor; [done|]. apply (IH sum (S k)); [lia..|done]. }
  apply (Hgen 0 0%nat); [lia..|done].
Qed.

Lemma rr_loop_first t k l :
  match fst (rr_loop t k l) with
  | Some i => (k ≤ i)%nat ∧ (∃ p, l !! (i - k)%nat = Some p ∧ runnable p) ∧
      ∀ j p, (j < i - k)%nat → l !! j = Some p → ¬ runnable p
  | None => Forall (λ p, ¬ runnable p) l
  end.
Proof.
  revert k. induction l as [|p l IH]; intros k; cbn [rr_loop fst]; [by constructor|].
  rewrite orb_true_r.
  assert (p_state (apply_aging t p) = p_state p) as ->
    by (unfold apply_aging; by destruct (2500 <? _)).
  case_bool_decide as Hst; cbn [fst].
  - rewrite Nat.sub_diag. split_and!; [lia|by exists p|]. intros j q Hj. lia.
  - specialize (IH (S k)). destruct (rr_loop t (S k) l) as [[i|] l']; cbn [fst] in *.
    + destruct IH as (Hle&(q&Hq&Hr)&Hmin). split_and!; [lia| |].
      * exists q. by replace (i - k)%nat with (S (i - S k)) by lia.
      * intros [|j] q' Hj Hq'; simpl in Hq'; [by simplify_eq|].
        apply (Hmin j); [lia|done].
    + by constructor.
Qed.

Section pick.
Context {V F : Type} `{!MemOps V, !FileOps F}.
Implicit Types s : pst V F.

(** The generator produces an acceptable draw among its next [fuel] outputs. *)
Definition draws_ok (fuel : nat) (max : Z) (g : rng) : Prop :=
  rng_ok g ∧ ∃ k x, outputs fuel g !! k = Some x ∧ accepted max x = true ∧
    ∀ j y, (j < k)%nat → outputs fuel g !! j = Some y → accepted max y = false.

Lemma sched_lottery_wp fuel s :
  tickets_ok (ptable s) → draws_ok fuel (total_tickets (ptable s)) (rnd s) →
  wp (sched_lottery fuel) (λ o s', ptable s' = ptable s ∧ ticks s' = ticks s ∧
    match o with
    | Some i => ∃ p, ptable s !! i = Some p ∧ runnable_pl1 p = true
    | None => Forall (λ p, runnable_pl1 p = false) (ptable s)
    end) s.
Proof.
  intros Htk (Hok&k&x&Hk&Hx&Hb). unfold sched_lottery.
  pose proof (total_nonneg _ (tk_pos _ Htk)). pose proof (tk_sum _ Htk).
  apply wp_bind, wp_gets, wp_bind. rewrite lottery_sum_total by done.
  destruct (wp_elim _ _ _ (random_at_most_wp fuel (total_tickets (ptable s)) (rnd s) k x
    Hok ltac:(lia) Hk Hx Hb)) as (w&g&Hw&_&Hr&_).
  unfold wp, lift_rnd. rewrite Hw. unfold gets. kproj.
  split_and!; [done..|]. by apply lottery_pick_complete.
Qed.

(** The scheduler's choice: when the tickets in play do not overflow and
    the generator produces an acceptable draw, the scheduler returns; it
    finds a process exactly when one is runnable; it prefers the first
    queue; and without runnable processes there it takes the first runnable
    slot of the table, whatever its queue. *)
Theorem scheduler_choice fuel s :
  tickets_ok (ptable s) → draws_ok fuel (total_tickets (ptable s)) (rnd s) →
  wp (scheduler_pick fuel) (λ o _,
    match o with
    | Some i => ∃ p, ptable s !! i = Some p ∧ runnable p ∧
        (runnable_pl1 p = true ∨
         Forall (λ q, runnable_pl1 q = false) (ptable s) ∧
         ∀ j q, (j < i)%nat → ptable s !! j = Some q → ¬ runnable q)
    | None => Forall (λ q, ¬ runnable q) (ptable s)
    end) s.
Proof.
  intros Htk Hd. unfold scheduler_pick. apply wp_bind.
  eapply wp_mono; [by apply sched_lottery_wp|]. simpl.
  intros [i|] s1 (Hpt&Hti&Ho).
  - destruct Ho as (p&Hp&Hr). apply wp_ret. exists p. split_and!; [done| |by left].
    by apply andb_true_iff in Hr as [Hr%bool_decide_eq_true _].
  - apply wp_bind. unfold wp, sched_rr. rewrite Hpt, Hti.
    pose proof (rr_loop_first (ticks s) 0 (ptable s)) as Hrr.
    destruct (rr_loop (ticks s) 0 (ptable s)) as [[i|] l'] eqn:El; cbn [fst] in Hrr.
    + rewrite Nat.sub_0_r in Hrr. destruct Hrr as (_&(p&Hp&Hr)&Hmin).
      exists p. split_and!; [done|done|]. right. split; [done|]. apply Hmin.
    + destruct (rr_loop_spec _ _ _ _ _ El) as [Habs _].
      unfold sched_hrrn. kproj.
      destruct (hrrn_loop (ticks s1) (length l') 0 l') as [o l2] eqn:Eh.
      destruct (hrrn_loop_spec _ _ _ _ _ _ Eh) as [Habs2 Ho2].
      destruct o as [i|]; [|done]. exfalso.
      destruct (Ho2 i eq_refl) as (p&Hp&Hst).
      assert ((abs_proc <$> ptable s) !! i = Some (abs_proc p)) as Hq.
      { rewrite <-Habs, <-Habs2, list_lookup_fmap, Hp. done. }
      apply list_lookup_fmap_Some in Hq as (q&Hq&Hq').
      rewrite Forall_lookup in Hrr. apply (Hrr i q Hq').
      unfold runnable. pose proof (f_equal k_state Hq) as E. simpl in E. congruence.
Qed.

(** C38. Tickets that overflow an [int] stop the machine: when the sum over the
    first queue wraps to a negative number other than -1, the scheduler does
    not return from the lottery, however many draws it makes, and holds
    [ptable.lock] all the time; at -1 it divides by zero. *)
Theorem lottery_overflow_stuck fuel s :
  rng_ok (rnd s) → lottery_sum (ptable s) < 0 →
  scheduler_pick fuel s =
    Fail (if lottery_sum (ptable s) =? -1 then Undef "division by zero" else OutOfFuel).
Proof.
  intros Hok Hneg.
  assert (is_i32 (lottery_sum (ptable s))) as Hi.
  { unfold lottery_sum. generalize (ptable s). intros l.
    assert (is_i32 0) as H0 by (unfold is_i32; lia). revert H0. generalize 0.
    induction l as [|p l IH]; intros z Hz; simpl; [done|]. apply IH.
    destruct (runnable_pl1 p); [apply s32_range|done]. }
  unfold scheduler_pick, sched_lottery, mbind, M_bind, gets, lift_rnd.
  rewrite random_at_most_negative; [done|done|]. unfold is_i32 in Hi. lia.
Qed.
End pick.

(** ** Witnesses *)

(** A process of the first queue with [n] tickets. *)
Definition player (n : Z) : proc :=
  set_state RUNNABLE (set_priority PL1 (ProcState.set_tickets n zero_proc)).
Definition demo_table : list proc := [player 10; zero_proc; player 20].
Definition demo_sched (l : list proc) : pst unit unit := on_ptable (λ _, l) (boot 1 tt tt).

Lemma demo_table_ok : tickets_ok demo_table.
Proof.
  split; [|vm_compute; discriminate].
  repeat (constructor; [vm_compute; intros E; (reflexivity || discriminate)|]). constructor.
Qed.

Lemma lottery_share_witness :
  length (winning demo_table 0) = 11%nat ∧ Z.of_nat (length (winning demo_table 2)) = 20.
Proof.
  split; [vm_compute; reflexivity|].
  rewrite (lottery_share demo_table 2 (player 20));
    [vm_compute; reflexivity|exact demo_table_ok|reflexivity|reflexivity].
Defined.

Definition first_output : Z := default 0 (outputs 1 rng_boot !! 0%nat).

Lemma scheduler_choice_witness :
  wp (scheduler_pick 1) (λ o _,
    match o with
    | Some i => ∃ p, demo_table !! i = Some p ∧ runnable p ∧
        (runnable_pl1 p = true ∨
         Forall (λ q, runnable_pl1 q = false) demo_table ∧
         ∀ j q, (j < i)%nat → demo_table !! j = Some q → ¬ runnable q)
    | None => Forall (λ q, ¬ runnable q) demo_table
    end) (demo_sched demo_table).
Proof.
  apply (scheduler_choice 1 (demo_sched demo_table)); [exact demo_table_ok|].
  split; [exact rng_boot_ok|]. exists 0%nat, first_output.
  split_and!; [vm_compute; reflexivity|vm_compute; reflexivity|]. intros j y Hj. lia.
Defined.

Lemma lottery_overflow_stuck_witness :
  scheduler_pick 3 (demo_sched [player 1073741824; player 1073741824]) = Fail OutOfFuel.
Proof.
  rewrite (lottery_overflow_stuck 3 (demo_sched [player 1073741824; player 1073741824]));
    [vm_compute; reflexivity|exact rng_boot_ok|vm_compute; reflexivity].
Defined.
