(* ===== verification/ProcLife.v ===== *)
(** * Process lifecycle: functional behaviour of [fork], [wait] and [exit]

    What a call returns and how it changes the table, on its success path and
    on its error paths, given that the components it calls succeed; and the
    calls that run outside their arrays. *)

From S2P Require Import Prelude Params CString Cprintf Rand ProcState Sched Proc ProcCalls ProcSpec ProcRefine ProcThms.

(** ** Total correctness of the primitives *)

Section rules.
Context {V F : Type}.
Implicit Types s : pst V F.

Lemma wp_lift_vm {A} (m : M V A) (Q : A → pst V F → Prop) s a v :
  m (vm s) = Ok a v → Q a (on_vm (λ _, v) s) → wp (lift_vm m) Q s.
Proof. intros H HQ. unfold wp, lift_vm. by rewrite H. Qed.
Lemma wp_lift_fs {A} (m : M F A) (Q : A → pst V F → Prop) s a x :
  m (fsys s) = Ok a x → Q a (on_fsys (λ _, x) s) → wp (lift_fs m) Q s.
Proof. intros H HQ. unfold wp, lift_fs. by rewrite H. Qed.
Lemma wp_acquire l (Q : unit → pst V F → Prop) s :
  (l ∉ held s) → Q tt (on_held (cons l) s) → wp (acquire_lk l) Q s.
Proof. intros H HQ. unfold wp, acquire_lk. by rewrite decide_False. Qed.
Lemma wp_release l (Q : unit → pst V F → Prop) s :
  (l ∈ held s) → Q tt (on_held (filter (λ k, k ≠ l)) s) → wp (release_lk l) Q s.
Proof. intros H HQ. unfold wp, release_lk. by rewrite decide_True. Qed.
Lemma wp_proc_get i (Q : proc → pst V F → Prop) s p :
  ptable s !! i = Some p → Q p s → wp (proc_get i) Q s.
Proof. intros H HQ. unfold wp, proc_get. by rewrite H. Qed.
Lemma wp_proc_upd i f (Q : unit → pst V F → Prop) s p :
  ptable s !! i = Some p → Q tt (on_ptable (<[i := f p]>) s) → wp (proc_upd i f) Q s.
Proof. intros H HQ. unfold wp, proc_upd. by rewrite H. Qed.
Lemma wp_curproc c (Q : nat → pst V F → Prop) s i :
  running s !! c = Some (Some i) → Q i s → wp (curproc c) Q s.
Proof. intros H HQ. unfold wp, curproc, myproc, mbind, M_bind. by rewrite H. Qed.

(** Releasing the lock acquired last. *)
Lemma filter_top (l : klock) h : (l ∉ h) → filter (λ k, k ≠ l) (l :: h) = h.
Proof. intros H. rewrite filter_cons_False by tauto. by apply filter_ne_id. Qed.
End rules.

(** ** Names *)

Lemma copy_name_cstr dst src :
  length dst = 16%nat → length src = 16%nat →
  cstr (copy_name dst src) = cstr (take 15 src) ∧ length (copy_name dst src) = 16%nat.
Proof.
  intros Hd Hs. unfold copy_name. split; [|by rewrite length_bytes_at].
  rewrite Hd. change (Z.of_nat 16) with 16.
  set (m := λ a : Z, if a <? 0 then 0 else nth (Z.to_nat a) (dst ++ src) 0).
  destruct (safestrcpy_loop_spec m 0 16 15) as (E&_&_).
  { unfold disjoint_regions. lia. }
  change (safestrcpy m 0 16 16) with (safestrcpy_loop m 0 16 15). rewrite E. f_equal.
  apply list_eq. intros k.
  destruct (decide (k < 15)%nat) as [Hk|Hk].
  - rewrite lookup_bytes_at by done. rewrite lookup_take_lt by done. unfold m.
    rewrite (proj2 (Z.ltb_ge _ 0)) by lia.
    replace (Z.to_nat (16 + Z.of_nat k)) with (16 + k)%nat by lia.
    destruct (lookup_lt_is_Some_2 src k) as [x Hx]; [lia|]. rewrite Hx. f_equal.
    apply nth_lookup_Some. rewrite lookup_app_r by lia. rewrite Hd.
    by replace (16 + k - 16)%nat with k by lia.
  - rewrite !lookup_ge_None_2; [done|rewrite length_take; lia|rewrite length_bytes_at; lia].
Qed.

Lemma splice_cons {A} n (x : A) k l :
  (n < length l)%nat → splice n (x :: k) l = splice (S n) k (<[n := x]> l).
Proof.
  intros Hn. unfold splice.
  rewrite (take_S_r _ n x) by (by apply list_lookup_insert_eq).
  rewrite take_insert_ge by lia. rewrite <-app_assoc. simpl. do 3 f_equal.
  rewrite drop_insert_lt by lia. f_equal. lia.
Qed.
Lemma splice_all {A} (k l : list A) : length k = length l → splice 0 k l = k.
Proof. intros Hk. unfold splice. simpl. rewrite drop_ge by lia. by rewrite app_nil_r. Qed.

(** ** fork *)

Section fork.
Context {V F : Type} `{!MemOps V, !FileOps F}.
Implicit Types s : pst V F.

(** What [fork] needs of the file layer, in states satisfying [finv]: taking
    another reference to an open file or to the current directory succeeds
    and returns it. *)
Context (finv : F → Prop) (files : nat → Prop) (dirs : option nat → Prop).
Hypothesis filedup_ok : ∀ f x, files f → finv x → ∃ x', filedup f x = Ok f x' ∧ finv x'.
Hypothesis idup_ok : ∀ d x, dirs d → finv x → ∃ x', idup d x = Ok d x' ∧ finv x'.

Lemma fork_files_wp ofile np fd s p :
  ptable s !! np = Some p → finv (fsys s) →
  (∀ k, (fd ≤ k < fd + length ofile)%nat → p_ofile p !! k = Some None) →
  (∀ f, Some f ∈ ofile → files f) →
  wp (fork_files ofile np fd) (λ _ s', ∃ x, finv x ∧
    s' = on_ptable (<[np := set_ofile (splice fd ofile (p_ofile p)) p]>) (on_fsys (λ _, x) s)) s.
Proof.
  revert fd s p. induction ofile as [|o ofile IH]; intros fd s p Hp Hx Hnone Hf.
  { apply wp_ret. exists (fsys s). split; [done|]. destruct s; unfold on_ptable, on_fsys. kproj.
    f_equal. symmetry. apply list_insert_id. rewrite Hp. f_equal. unfold splice. simpl.
    rewrite Nat.add_0_r, take_drop. by destruct p. }
  pose proof (Hnone fd ltac:(simpl; lia)) as Hfd.
  pose proof (lookup_lt_Some _ _ _ Hfd) as Hlt. pose proof (lookup_lt_Some _ _ _ Hp) as Hnp.
  rewrite splice_cons by done. cbn [fork_files]. destruct o as [f|].
  - apply wp_bind. destruct (filedup_ok f (fsys s)) as (x'&E&Hx'); [apply Hf; by left|done|].
    eapply wp_lift_fs; [done|]. apply wp_bind. eapply wp_proc_upd; [done|].
    eapply wp_mono.
    + eapply (IH (S fd) _ (set_ofile (<[fd := Some f]> (p_ofile p)) p)).
      * kproj. by apply list_lookup_insert_eq.
      * done.
      * intros k Hk. cbn [set_ofile p_ofile]. rewrite list_lookup_insert_ne by lia.
        apply Hnone. simpl. lia.
      * intros g Hg. apply Hf. by right.
    + intros _ s' (x&Hfx&->). exists x. split; [done|].
      unfold on_ptable, on_fsys; kproj. by rewrite list_insert_insert_eq.
  - rewrite list_insert_id by done. apply IH; [done|done| |].
    + intros k Hk. apply Hnone. simpl. lia.
    + intros g Hg. apply Hf. by right.
Qed.

(** A slot that a process can be created in. *)
Record free_slot (p : proc) : Prop := {
  fs_unused : p_state p = UNUSED;
  fs_files : p_ofile p = replicate (Z.to_nat NOFILE) None;
  fs_name : length (p_name p) = 16%nat;
}.

Lemma allocproc_wp s np p k v1 :
  list_find (λ p, p_state p = UNUSED) (ptable s) = Some (np, p) →
  (L_ptable ∉ held s) → kalloc (vm s) = Ok k v1 → k ≠ 0 →
  wp allocproc (λ o s', o = Some np ∧ held s' = held s ∧ vm s' = v1 ∧ fsys s' = fsys s ∧
    running s' = running s ∧ ∃ q, ptable s' = <[np := q]> (ptable s) ∧
    p_state q = EMBRYO ∧ p_pid q = nextpid s ∧ p_kstack q = k ∧ p_ofile q = p_ofile p ∧
    p_name q = p_name p ∧ p_killed q = p_killed p) s.
Proof.
  intros Hfind Hh Hk Hk0. pose proof Hfind as Hfind'.
  apply list_find_Some in Hfind' as (Hp&Hu&_). pose proof (lookup_lt_Some _ _ _ Hp) as Hlt.
  unfold allocproc. apply wp_bind, wp_acquire; [done|].
  apply wp_bind, wp_gets. kproj. rewrite Hfind.
  apply wp_bind, wp_gets, wp_bind, wp_gets, wp_bind, wp_modify.
  apply wp_bind. eapply wp_proc_upd; [done|]. apply wp_bind, wp_release; [by left|]. kproj.
  apply wp_bind. eapply wp_lift_vm; [done|]. apply wp_bind.
  eapply wp_proc_upd; [by apply list_lookup_insert_eq|].
  rewrite (proj2 (Z.eqb_neq k 0)) by done.
  apply wp_bind. eapply wp_proc_upd; [kproj; apply list_lookup_insert_eq; by rewrite length_insert|].
  apply wp_ret. kproj. rewrite !list_insert_insert_eq, filter_top by done.
  split_and!; [done..|]. eexists. split_and!; done.
Qed.

Lemma fork_finish_wp s i cur np q pg v2 :
  ptable s !! i = Some cur → ptable s !! np = Some q → i ≠ np →
  length (p_ofile cur) = Z.to_nat NOFILE → length (p_name cur) = 16%nat →
  p_ofile q = replicate (Z.to_nat NOFILE) None → length (p_name q) = 16%nat →
  (L_ptable ∉ held s) → finv (fsys s) →
  (∀ f, Some f ∈ p_ofile cur → files f) → dirs (p_cwd cur) →
  copyuvm (p_pgdir cur) (p_sz cur) (vm s) = Ok pg v2 → pg ≠ 0 →
  wp (fork_finish i np) (λ pid s', pid = p_pid q ∧ held s' = held s ∧ vm s' = v2 ∧ ∃ child,
    ptable s' = <[np := child]> (ptable s) ∧
    p_state child = RUNNABLE ∧ p_pid child = p_pid q ∧ p_parent child = Some i ∧
    p_sz child = p_sz cur ∧ p_pgdir child = pg ∧ p_kstack child = p_kstack q ∧
    p_ofile child = p_ofile cur ∧ p_cwd child = p_cwd cur ∧
    p_tf child = set_tf_eax 0 (p_tf cur) ∧
    cstr (p_name child) = cstr (take 15 (p_name cur)) ∧ p_sysclog child = empty_log) s.
Proof.
  intros Hcur Hq Hne Hof Hnm Hqf Hqn Hh Hx Hfiles Hdir Hcp Hpg.
  pose proof (lookup_lt_Some _ _ _ Hq) as Hlt.
  unfold fork_finish. apply wp_bind. eapply wp_proc_get; [done|].
  apply wp_bind. eapply wp_lift_vm; [done|]. apply wp_bind. eapply wp_proc_upd; [done|].
  rewrite (proj2 (Z.eqb_neq pg 0)) by done. apply wp_bind.
  eapply wp_proc_upd; [by apply list_lookup_insert_eq|]. apply wp_bind.
  eapply wp_mono.
  { eapply fork_files_wp.
    - kproj. apply list_lookup_insert_eq. by rewrite length_insert.
    - done.
    - intros j Hj. cbn. rewrite Hqf. apply lookup_replicate. split; [done|lia].
    - done. }
  cbn beta. intros _ s1 (x&Hfx&->).
  destruct (idup_ok (p_cwd cur) x Hdir Hfx) as (x'&Hid&Hfx').
  apply wp_bind. eapply wp_lift_fs; [exact Hid|]. apply wp_bind.
  eapply wp_proc_upd; [kproj; apply list_lookup_insert_eq; by rewrite !length_insert|].
  apply wp_bind. eapply wp_proc_get; [kproj; apply list_lookup_insert_eq; by rewrite !length_insert|].
  apply wp_bind, wp_acquire; [done|]. apply wp_bind.
  eapply wp_proc_upd; [kproj; apply list_lookup_insert_eq; by rewrite !length_insert|].
  apply wp_bind. eapply wp_proc_upd; [kproj; apply list_lookup_insert_eq; by rewrite !length_insert|].
  apply wp_bind, wp_release; [by left|]. apply wp_ret. kproj.
  rewrite !list_insert_insert_eq, filter_top by done.
  split_and!; [done..|]. eexists. split_and!; try done.
  - cbn. apply splice_all. by rewrite Hof, Hqf, length_replicate.
  - cbn. by apply copy_name_cstr.
Qed.

(** Without memory for the kernel stack. *)
Lemma allocproc_fail_wp s np p v1 :
  list_find (λ p, p_state p = UNUSED) (ptable s) = Some (np, p) → (L_ptable ∉ held s) → kalloc (vm s) = Ok 0 v1 →
  wp allocproc (λ o s', o = None ∧ held s' = held s ∧ vm s' = v1 ∧
    ∃ q, ptable s' = <[np := q]> (ptable s) ∧ p_state q = UNUSED ∧ p_kstack q = 0) s.
Proof.
  intros Hfind Hh Hk. pose proof Hfind as Hfind'. apply list_find_Some in Hfind' as (Hp&Hu&_). pose proof (lookup_lt_Some _ _ _ Hp) as Hlt.
  unfold allocproc. apply wp_bind, wp_acquire; [done|]. apply wp_bind, wp_gets. kproj. rewrite Hfind.
  apply wp_bind, wp_gets, wp_bind, wp_gets, wp_bind, wp_modify.
  apply wp_bind. eapply wp_proc_upd; [done|]. apply wp_bind, wp_release; [by left|]. kproj.
  apply wp_bind. eapply wp_lift_vm; [done|]. apply wp_bind. eapply wp_proc_upd; [by apply list_lookup_insert_eq|].
  cbn [Z.eqb]. apply wp_bind. eapply wp_proc_upd; [kproj; apply list_lookup_insert_eq; by rewrite length_insert|].
  apply wp_ret. kproj. rewrite !list_insert_insert_eq, filter_top by done. split_and!; [done..|]. eexists. split_and!; done.
Qed.

(** Without memory for the copy of the address space. *)
Lemma fork_finish_fail_wp s i cur np q v2 v3 :
  ptable s !! i = Some cur → ptable s !! np = Some q →
  copyuvm (p_pgdir cur) (p_sz cur) (vm s) = Ok 0 v2 → kfree (p_kstack q) v2 = Ok tt v3 →
  wp (fork_finish i np) (λ r s', r = -1 ∧ held s' = held s ∧ vm s' = v3 ∧
    ∃ q', ptable s' = <[np := q']> (ptable s) ∧ p_state q' = UNUSED ∧ p_kstack q' = 0) s.
Proof.
  intros Hcur Hq Hcp Hkf. pose proof (lookup_lt_Some _ _ _ Hq) as Hlt.
  unfold fork_finish. apply wp_bind. eapply wp_proc_get; [done|]. apply wp_bind. eapply wp_lift_vm; [done|].
  apply wp_bind. eapply wp_proc_upd; [done|]. cbn [Z.eqb]. apply wp_bind. eapply wp_proc_get; [by apply list_lookup_insert_eq|].
  apply wp_bind. eapply wp_lift_vm; [done|]. apply wp_bind. eapply wp_proc_upd; [by apply list_lookup_insert_eq|].
  apply wp_ret. kproj. rewrite !list_insert_insert_eq. split_and!; [done..|]. eexists. split_and!; done.
Qed.

(** A successful fork: when there is a free slot, memory for the kernel
    stack and for the copy of the address space, fork returns the next pid,
    and the first free slot becomes a runnable child with that pid, the
    caller as its parent, a copy of the caller's size, files, directory, name
    and registers except that %eax is 0, the copied page table, and an empty
    system call log.  No other slot changes and no lock stays held. *)
Theorem fork_child c s i cur np p k v1 pg v2 :
  running s !! c = Some (Some i) → ptable s !! i = Some cur → p_state cur ≠ UNUSED →
  length (p_ofile cur) = Z.to_nat NOFILE → length (p_name cur) = 16%nat →
  list_find (λ p, p_state p = UNUSED) (ptable s) = Some (np, p) → free_slot p →
  (L_ptable ∉ held s) → finv (fsys s) →
  (∀ f, Some f ∈ p_ofile cur → files f) → dirs (p_cwd cur) →
  kalloc (vm s) = Ok k v1 → k ≠ 0 →
  copyuvm (p_pgdir cur) (p_sz cur) v1 = Ok pg v2 → pg ≠ 0 →
  wp (fork c) (λ pid s', pid = nextpid s ∧ held s' = held s ∧ ∃ child,
    ptable s' = <[np := child]> (ptable s) ∧
    p_state child = RUNNABLE ∧ p_pid child = nextpid s ∧ p_parent child = Some i ∧
    p_sz child = p_sz cur ∧ p_pgdir child = pg ∧ p_kstack child = k ∧
    p_ofile child = p_ofile cur ∧ p_cwd child = p_cwd cur ∧
    p_tf child = set_tf_eax 0 (p_tf cur) ∧
    cstr (p_name child) = cstr (take 15 (p_name cur)) ∧ p_sysclog child = empty_log) s.
Proof.
  intros Hc Hcur Hst Hof Hnm Hfind [_ Hff Hfn] Hh Hx Hfiles Hdir Hk Hk0 Hcp Hpg.
  pose proof Hfind as Hfind'. apply list_find_Some in Hfind' as (Hp&Hu&_).
  assert (np ≠ i) as Hne by congruence. pose proof (lookup_lt_Some _ _ _ Hp) as Hlt.
  unfold fork. apply wp_bind. eapply wp_curproc; [done|]. apply wp_bind.
  eapply wp_mono; [by eapply allocproc_wp|]. cbn beta.
  intros o s1 (->&Hh1&Hv1&Hx1&_&q&Hpt&_&Hpid&Hks&Hqf&Hqn&_).
  eapply wp_mono.
  { eapply (fork_finish_wp s1 i cur np q).
    - by rewrite Hpt, list_lookup_insert_ne.
    - by rewrite Hpt, list_lookup_insert_eq.
    - done.
    - done.
    - done.
    - by rewrite Hqf.
    - by rewrite Hqn.
    - by rewrite Hh1.
    - by rewrite Hx1.
    - done.
    - done.
    - by rewrite Hv1.
    - done. }
  cbn beta. intros pid s' (->&Hh2&_&child&Hpt2&H1&H2&H3&H4&H5&H6&H7&H8&H9&H10&H11).
  split_and!; [done|congruence|]. exists child.
  split_and!; try congruence. by rewrite Hpt2, Hpt, list_insert_insert_eq.
Qed.
End fork.

(** ** wait *)

Section wait.
Context {V F : Type} `{!MemOps V, !FileOps F}.
Implicit Types s : pst V F.

(** A process with an exited child gets its pid from wait, without
    sleeping: the stack and the address space of the first such child are
    freed and its slot becomes unused, with pid, parent, name and killed flag
    cleared; no other slot changes and no lock stays held. *)
Theorem wait_child c s i k p v1 v2 :
  running s !! c = Some (Some i) → (L_ptable ∉ held s) →
  list_find (λ p, p_parent p = Some i ∧ p_state p = ZOMBIE) (ptable s) = Some (k, p) →
  kfree (p_kstack p) (vm s) = Ok tt v1 → freevm (p_pgdir p) v1 = Ok tt v2 →
  wp (wait c) (λ r s', r = Some (p_pid p) ∧ held s' = held s ∧ vm s' = v2 ∧ ∃ q,
    ptable s' = <[k := q]> (ptable s) ∧ p_state q = UNUSED ∧ p_pid q = 0 ∧
    p_parent q = None ∧ p_kstack q = 0 ∧ p_killed q = 0 ∧ cstr (p_name q) = []) s.
Proof.
  intros Hc Hh Hfind Hkf Hfv. pose proof Hfind as Hfind'.
  apply list_find_Some in Hfind' as (Hp&_&_). pose proof (lookup_lt_Some _ _ _ Hp) as Hlt.
  unfold wait, wait_iter. apply wp_bind. eapply wp_curproc; [done|].
  apply wp_bind, wp_acquire; [done|]. apply wp_bind, wp_gets. kproj. rewrite Hfind.
  unfold reap. apply wp_bind, wp_bind. eapply wp_proc_get; [done|].
  apply wp_bind. eapply wp_lift_vm; [done|]. apply wp_bind. eapply wp_proc_upd; [done|].
  apply wp_bind. eapply wp_lift_vm; [done|]. apply wp_bind.
  eapply wp_proc_upd; [kproj; by apply list_lookup_insert_eq|].
  apply wp_bind, wp_release; [by left|]. apply wp_ret, wp_ret. kproj.
  rewrite !list_insert_insert_eq, filter_top by done.
  split_and!; [done..|]. eexists. split_and!; try done. cbn.
  by destruct (p_name p).
Qed.

(** A process that has children but no exited one, and has not been
    killed, goes to sleep on its own address with [ptable.lock] released by
    the scheduler; without children, or when killed, it gets -1 at once. *)
Theorem wait_blocks c s i cur :
  running s !! c = Some (Some i) → held s = [] → ptable s !! i = Some cur →
  Forall (λ p, ¬ (p_parent p = Some i ∧ p_state p = ZOMBIE)) (ptable s) →
  (∀ v, ∃ v', switchkvm v = Ok tt v') →
  wp (wait c) (λ r s', held s' = [] ∧
    if bool_decide (Exists (λ p, p_parent p = Some i) (ptable s)) && (p_killed cur =? 0)
    then r = None ∧ running s' !! c = Some None ∧ ∃ q, ptable s' = <[i := q]> (ptable s) ∧
      p_state q = SLEEPING ∧ p_chan q = ChProc i
    else r = Some (-1) ∧ ptable s' = ptable s ∧ running s' = running s) s.
Proof.
  intros Hc Hh Hcur Hno Hsw. pose proof (lookup_lt_Some _ _ _ Hcur) as Hlt.
  unfold wait, wait_iter. apply wp_bind. eapply wp_curproc; [done|].
  apply wp_bind, wp_acquire; [rewrite Hh; apply not_elem_of_nil|].
  apply wp_bind, wp_gets. kproj.
  rewrite (proj2 (list_find_None _ _)) by done.
  apply wp_bind. eapply wp_proc_get; [done|].
  destruct (bool_decide (Exists _ (ptable s))); simpl negb; cbn [orb andb].
  2: { apply wp_bind, wp_release; [by left|]. apply wp_ret. kproj. by rewrite Hh. }
  destruct (p_killed cur =? 0); simpl negb; cbv iota.
  2: { apply wp_bind, wp_release; [by left|]. apply wp_ret. kproj. by rewrite Hh. }
  apply wp_bind. unfold sleep. apply wp_bind. unfold wp at 1, myproc. kproj. rewrite Hc.
  rewrite bool_decide_eq_true_2 by done. simpl negb. unfold when.
  apply wp_bind, wp_ret, wp_bind. eapply wp_proc_upd; [done|]. apply wp_bind.
  eapply wp_proc_upd; [kproj; by apply list_lookup_insert_eq|].
  apply wp_bind. unfold sched. apply wp_bind. eapply wp_curproc; [done|].
  apply wp_bind, wp_gets. kproj. rewrite Hh.
  rewrite (bool_decide_eq_true_2 (L_ptable ∈ [L_ptable])) by (by left). simpl negb. cbv iota.
  apply wp_bind.
  eapply wp_proc_get; [kproj; apply list_lookup_insert_eq; by rewrite length_insert|].
  cbn [set_state p_state]. rewrite bool_decide_eq_false_2 by done.
  eapply wp_proc_upd; [kproj; apply list_lookup_insert_eq; by rewrite length_insert|].
  unfold scheduler_return, run_proc_return. apply wp_bind, wp_bind.
  edestruct Hsw as [v' Hv']. eapply wp_lift_vm; [exact Hv'|]. unfold set_running.
  apply wp_modify, wp_release; [by left|]. apply wp_ret. kproj.
  rewrite !list_insert_insert_eq. split; [by rewrite Hh|]. split; [done|]. split.
  - apply list_lookup_insert_eq. by eapply lookup_lt_Some.
  - eexists. split; [done|]. done.
Qed.
End wait.

(** ** Calls that leave their arrays *)

Section overruns.
Context {V F : Type} `{!MemOps V, !FileOps F}.
Implicit Types s : pst V F.

(** When no slot is unused, [allocproc] does not return 0 as documented:
    it first writes the scheduling fields of the slot past the end of the
    table. *)
Theorem allocproc_full_overruns s :
  (L_ptable ∉ held s) → Forall (λ p, p_state p ≠ UNUSED) (ptable s) →
  allocproc s = Fail (Undef "ptable.proc index").
Proof.
  intros Hh Hall. unfold allocproc, mbind, M_bind, acquire_lk, gets.
  rewrite decide_False by done. kproj. rewrite (proj2 (list_find_None _ _)) by done.
  unfold proc_upd. kproj. by rewrite lookup_ge_None_2.
Qed.

Lemma reparent_wp i n k s :
  (k + n ≤ length (ptable s))%nat →
  wp (reparent i n k) (λ _ s', pptable s' = pptable s ∧ held s' = held s ∧
    length (ptable s') = length (ptable s)) s.
Proof.
  revert k s. induction n as [|n IH]; intros k s Hk; [by apply wp_ret|].
  cbn [reparent]. destruct (lookup_lt_is_Some_2 (ptable s) k) as [p Hp]; [lia|].
  apply wp_bind. eapply wp_proc_get; [done|]. apply wp_bind, wp_gets, wp_bind.
  assert (∀ s1, pptable s1 = pptable s → held s1 = held s →
    length (ptable s1) = length (ptable s) →
    wp (reparent i n (S k)) (λ _ s', pptable s' = pptable s ∧ held s' = held s ∧
      length (ptable s') = length (ptable s)) s1) as Hrec.
  { intros s1 E1 E2 E3. eapply wp_mono; [apply IH; lia|]. cbn beta. by intros _ s' (->&->&->). }
  apply wp_when; intros _; [|by apply Hrec].
  apply wp_bind. eapply wp_proc_upd; [done|]. apply wp_when; intros _.
  - unfold wakeup1. apply wp_modify, Hrec; kproj; [done..|].
    by rewrite length_fmap, length_insert.
  - apply Hrec; kproj; [done..|]. by rewrite length_insert.
Qed.

(** Records of exited processes are never cleared: when all the slots of
    [pptable] are taken, the next process that exits writes its pid past the
    end of the table, holding both locks. *)
Theorem exit_record_overruns c i s p :
  held s = [] → length (ptable s) = Z.to_nat NPROC → ptable s !! i = Some p →
  Forall (λ q, p_pid q ≠ 0) (pptable s) →
  exit_locked c i s = Fail (Undef "pptable.proc index").
Proof.
  intros Hh Hlen Hp Hfull. unfold exit_locked, mbind, M_bind. unfold acquire_lk at 1.
  rewrite Hh, decide_False by apply not_elem_of_nil. unfold proc_get at 1. kproj. rewrite Hp.
  unfold wakeup1 at 1, modify at 1. kproj.
  destruct (wp_elim _ _ _ (reparent_wp i (Z.to_nat NPROC) 0
    (on_ptable (fmap (wakeup_proc (chan_of (p_parent p)))) (on_held (cons L_ptable) s))
    ltac:(kproj; rewrite length_fmap; lia))) as (u&s1&->&Epp&Eh&_).
  unfold acquire_lk at 1. rewrite Eh. kproj. rewrite Hh, decide_False by (by intros ?%list_elem_of_singleton).
  unfold pptable_slot, gets at 1. kproj. rewrite Epp. kproj.
  rewrite (proj2 (list_find_None _ _)) by done.
  unfold pptable_upd at 1. kproj. rewrite Epp. kproj. by rewrite lookup_ge_None_2.
Qed.

(** Copying an empty log writes nothing. *)
Lemma log_copy_empty {St} (src : M St (list (Z * Z))) dst n k np (x : St) :
  src x = Ok (replicate (k + n) (0, 0)) x → log_copy src dst n k np x = Ok np x.
Proof.
  revert k. induction n as [|n IH]; intros k Hs; cbn [log_copy]; [done|].
  unfold mbind, M_bind. rewrite Hs. unfold of_option.
  rewrite lookup_replicate_2 by lia. cbn. apply IH.
  by replace (S k + n)%nat with (k + S n)%nat by lia.
Qed.

Lemma kill_unused_wp s k p j q :
  held s = [] → list_find (λ p, p_pid p = 0) (ptable s) = Some (k, p) →
  p_state p = UNUSED → p_sysclog p = empty_log →
  list_find (λ q, p_pid q = 0) (pptable s) = Some (j, q) →
  wp (kill 0) (λ r s', r = 0 ∧ held s' = [] ∧ ptable s' = <[k := set_killed 1 p]> (ptable s) ∧
    vm s' = vm s) s.
Proof.
  intros Hh Hfind Hst Hlog Hslot. pose proof Hfind as Hfind'.
  apply list_find_Some in Hfind' as (Hp&Hpid&_). pose proof (lookup_lt_Some _ _ _ Hp) as Hlt.
  pose proof Hslot as Hslot'. apply list_find_Some in Hslot' as (Hq&_&_).
  unfold kill. apply wp_bind, wp_acquire; [rewrite Hh; apply not_elem_of_nil|].
  apply wp_bind, wp_gets. kproj. rewrite Hfind.
  apply wp_bind. eapply wp_proc_upd; [done|]. apply wp_bind.
  eapply wp_proc_get; [kproj; by apply list_lookup_insert_eq|].
  apply wp_bind. cbn [set_killed p_state]. rewrite Hst, bool_decide_eq_false_2 by done.
  apply wp_ret, wp_bind, wp_gets, wp_bind.
  set (s1 := on_ptable _ _).
  assert (∀ pp h, log_of k (on_pptable (λ _, pp) (on_held (λ _, h) s1)) =
    Ok (replicate (0 + Z.to_nat NLOGPAIR) (0, 0)) (on_pptable (λ _, pp) (on_held (λ _, h) s1))) as Hlg.
  { intros pp h. unfold log_of, mbind, M_bind, proc_get, s1. kproj.
    rewrite list_lookup_insert_eq by done. cbn [set_killed p_sysclog]. by rewrite Hlog. }
  eapply wp_intro.
  { apply log_copy_empty. specialize (Hlg (pptable s1) (held s1)). exact Hlg. }
  apply wp_bind, wp_acquire; [unfold s1; kproj; rewrite Hh; by intros ?%list_elem_of_singleton|].
  apply wp_bind. unfold pptable_slot at 1. apply wp_gets.
  apply wp_bind. eapply wp_intro.
  { unfold pptable_upd, s1. kproj. rewrite Hslot. cbv iota beta. rewrite Hq. reflexivity. }
  apply wp_bind. eapply wp_intro.
  { apply log_copy_empty. eapply (Hlg _ (L_pptable :: held s1)). }
  apply wp_bind, wp_release; [by left|]. apply wp_bind, wp_release; [unfold s1; kproj; rewrite Hh; by left|].
  apply wp_ret. unfold s1. kproj. rewrite Hh. done.
Qed.

(** [kill(0)] matches an unused slot (its pid is 0), succeeds, and marks it
    killed; [allocproc] does not clear the mark, so the next process created
    there is born killed. *)
Theorem kill_zero_inherited s k p j q a v :
  held s = [] → list_find (λ p, p_pid p = 0) (ptable s) = Some (k, p) →
  list_find (λ p, p_state p = UNUSED) (ptable s) = Some (k, p) →
  p_sysclog p = empty_log → list_find (λ q, p_pid q = 0) (pptable s) = Some (j, q) →
  kalloc (vm s) = Ok a v → a ≠ 0 →
  wp (r ← kill 0; o ← allocproc; mret (r, o)) (λ ro s', ro = (0, Some k) ∧
    ∃ child, ptable s' !! k = Some child ∧ p_state child = EMBRYO ∧ p_killed child = 1) s.
Proof.
  intros Hh Hf Hf2 Hlog Hslot Hk Ha. pose proof Hf2 as Hf2'.
  apply list_find_Some in Hf2' as (Hp&Hu&Hmin). pose proof (lookup_lt_Some _ _ _ Hp) as Hlt.
  apply wp_bind. eapply wp_mono; [by eapply kill_unused_wp|]. cbn beta.
  intros r s1 (->&Hh1&Hpt&Hv). apply wp_bind. eapply wp_mono.
  { eapply (allocproc_wp s1 k (set_killed 1 p)); [|rewrite Hh1; apply not_elem_of_nil|by rewrite Hv|done].
    rewrite Hpt. apply list_find_Some. split_and!; [by apply list_lookup_insert_eq|done|].
    intros m y Hm Hlt'. rewrite list_lookup_insert_ne in Hm by lia. by eapply Hmin. }
  cbn beta. intros o s2 (->&_&_&_&_&child&Hpt2&Hst&_&_&_&_&Hkl).
  apply wp_ret. split; [done|]. exists child. split_and!; [|done|done].
  rewrite Hpt2. apply list_lookup_insert_eq. rewrite Hpt. by rewrite length_insert.
Qed.
End overruns.

(** ** Witnesses, on the machine of [ProcThms.v] *)

Import Demo.

Ltac run_it := vm_compute; first [reflexivity | discriminate | tauto].

Lemma find_slot (P : proc → Prop) `{!∀ p, Decision (P p)} l i :
  fst <$> list_find P l = Some i → list_find P l = Some (i, default zero_proc (l !! i)).
Proof.
  destruct (list_find P l) as [[j p]|] eqn:E; [|done]. simpl. intros [= ->].
  apply list_find_Some in E as (->&_). done.
Qed.

Lemma nothing_held (s : pst unit unit) l : held s = [] → l ∉ held s.
Proof. intros ->. apply not_elem_of_nil. Qed.

Lemma demo_filedup (f : nat) (x : unit) :
  True → True → ∃ x', filedup f x = Ok f x' ∧ True.
Proof. by exists x. Qed.
Lemma demo_idup (d : option nat) (x : unit) :
  True → True → ∃ x', idup d x = Ok d x' ∧ True.
Proof. by exists x. Qed.

Lemma fork_child_witness : wp (fork 0) (λ pid s', pid = 2 ∧ held s' = []) s2.
Proof.
  eapply wp_mono.
  - apply (fork_child (λ _, True) (λ _, True) (λ _, True)
      demo_filedup demo_idup
      0 s2 0 (slot s2 0) 1 (slot s2 1) 4096 tt 8192 tt).
    + run_it.
    + apply slot_lookup. run_it.
    + run_it.
    + run_it.
    + run_it.
    + apply (find_slot (λ p, p_state p = UNUSED)). run_it.
    + split; run_it.
    + apply nothing_held. run_it.
    + exact I.
    + intros f _. exact I.
    + exact I.
    + run_it.
    + run_it.
    + run_it.
    + run_it.
  - cbn beta. intros pid s' (->&Hh&_). split; [run_it|]. rewrite Hh. run_it.
Defined.

(** init with an exited child. *)
Definition with_zombie : pst unit unit := on_ptable (alter (set_state ZOMBIE) 1%nat) s4.

Lemma wait_child_witness : wp (wait 0) (λ r s', r = Some 2 ∧ held s' = []) with_zombie.
Proof.
  eapply wp_mono.
  - apply (wait_child 0 with_zombie 0 1 (slot with_zombie 1) tt tt).
    + run_it.
    + apply nothing_held. run_it.
    + apply (find_slot (λ p, p_parent p = Some 0%nat ∧ p_state p = ZOMBIE)). run_it.
    + run_it.
    + run_it.
  - cbn beta. intros r s' (->&Hh&_). split; [run_it|]. rewrite Hh. run_it.
Defined.

Lemma wait_blocks_witness :
  wp (wait 0) (λ r s', r = None ∧ running s' !! 0%nat = Some None) s4.
Proof.
  eapply wp_mono.
  - apply (wait_blocks 0 s4 0 (slot s4 0)).
    + run_it.
    + run_it.
    + apply slot_lookup. run_it.
    + apply (bool_decide_eq_true_1 _). run_it.
    + intros []. exists tt. reflexivity.
  - cbn beta. intros r s' (_&H).
    replace (bool_decide _ && _) with true in H by run_it. tauto.
Defined.

Lemma allocproc_full_overruns_witness :
  allocproc (on_ptable (fmap (set_state RUNNING)) s0) = Fail (Undef "ptable.proc index").
Proof.
  apply allocproc_full_overruns; [apply nothing_held; run_it|].
  apply (bool_decide_eq_true_1 _). run_it.
Defined.

Definition full_records : pst unit unit := on_pptable (fmap (set_pid 9)) s4.

Lemma exit_record_overruns_witness :
  exit_locked 0 1 full_records = Fail (Undef "pptable.proc index").
Proof.
  apply (exit_record_overruns 0 1 full_records (slot full_records 1)).
  - run_it.
  - run_it.
  - apply slot_lookup. run_it.
  - apply (bool_decide_eq_true_1 _). run_it.
Defined.

Lemma kill_zero_inherited_witness :
  wp (r ← kill 0; o ← allocproc; mret (r, o)) (λ ro s', ro = (0, Some 1%nat) ∧
    ∃ child, ptable s' !! 1%nat = Some child ∧ p_state child = EMBRYO ∧ p_killed child = 1) s2.
Proof.
  apply (kill_zero_inherited s2 1 (slot s2 1) 0 (default zero_proc (pptable s2 !! 0%nat)) 4096 tt).
  - run_it.
  - apply (find_slot (λ p, p_pid p = 0)). run_it.
  - apply (find_slot (λ p, p_state p = UNUSED)). run_it.
  - run_it.
  - apply (find_slot (λ p, p_pid p = 0)). run_it.
  - run_it.
  - run_it.
Defined.
