(* ===== verification/Kalloc.v ===== *)
(** * The physical memory allocator: [kalloc.c]

    Free pages are linked through their first word, in the byte memory of
    [CString.v] at kernel virtual addresses.  [end_] is the address of the
    linker's symbol [end], the first address after the kernel. *)

From S2P Require Import Prelude Params CString.

(** [kmem] and the memory the allocator manages; [k_locked] says whether
    [kmem.lock] is held. *)
Record kst := Kst { k_mem : mem; k_freelist : Z; k_use_lock : Z; k_locked : bool }.

Definition set_kmem (f : mem → mem) (s : kst) : kst :=
  Kst (f (k_mem s)) (k_freelist s) (k_use_lock s) (k_locked s).
Definition set_freelist (v : Z) (s : kst) : kst :=
  Kst (k_mem s) v (k_use_lock s) (k_locked s).
Definition set_use_lock (v : Z) (s : kst) : kst :=
  Kst (k_mem s) (k_freelist s) v (k_locked s).
Definition set_locked (v : bool) (s : kst) : kst :=
  Kst (k_mem s) (k_freelist s) (k_use_lock s) v.

Definition kmem_acquire : M kst unit := λ s,
  if k_use_lock s =? 0 then Ok tt s
  else if k_locked s then Fail (Panic "acquire") else Ok tt (set_locked true s).
Definition kmem_release : M kst unit := λ s,
  if k_use_lock s =? 0 then Ok tt s
  else if k_locked s then Ok tt (set_locked false s) else Fail (Panic "release").

Section kalloc.
Context (end_ : Z).

Definition kfree (v : Z) : M kst unit :=
  if negb (v mod PGSIZE =? 0) || (v <? end_) || (PHYSTOP <=? V2P v) then panic "kfree"
  else
    modify (set_kmem (λ m, memset m v 1 PGSIZE));;
    kmem_acquire;;
    f ← gets k_freelist;
    modify (set_kmem (λ m, store32 m v f));;
    modify (set_freelist v);;
    kmem_release.

Definition kalloc : M kst Z :=
  kmem_acquire;;
  r ← gets k_freelist;
  when (negb (r =? 0)) (
    next ← gets (λ s, load32 (k_mem s) r);
    modify (set_freelist next));;
  kmem_release;;
  mret r.

(** [for(; p + PGSIZE <= vend; p += PGSIZE) kfree(p);] *)
Fixpoint freerange_loop (fuel : nat) (p vend : Z) : M kst unit :=
  match fuel with
  | O => fail OutOfFuel
  | S n =>
      if p +u PGSIZE <=? vend then kfree p;; freerange_loop n (p +u PGSIZE) vend
      else mret tt
  end.
(** One iteration per page, and the last test. *)
Definition freerange (vstart vend : Z) : M kst unit :=
  freerange_loop (S (Z.to_nat ((vend - vstart) / PGSIZE))) (PGROUNDUP vstart) vend.

Definition kinit1 (vstart vend : Z) : M kst unit :=
  modify (set_locked false);;
  modify (set_use_lock 0);;
  freerange vstart vend.
Definition kinit2 (vstart vend : Z) : M kst unit :=
  freerange vstart vend;;
  modify (set_use_lock 1).

(** ** Specification *)

(** A page the allocator accepts. *)
Definition kpage (v : Z) : Prop := v mod PGSIZE = 0 ∧ end_ ≤ v ∧ KERNBASE ≤ v < KERNBASE + PHYSTOP.

(** The free list from [head] on goes through the pages [l]. *)
Fixpoint chain (m : mem) (head : Z) (l : list Z) : Prop :=
  match l with
  | [] => head = 0
  | v :: l' => head = v ∧ chain m (load32 m v) l'
  end.

(** The allocator holds exactly the distinct pages [l] as free. *)
Record free_pages (s : kst) (l : list Z) : Prop := {
  fp_chain : chain (k_mem s) (k_freelist s) l;
  fp_pages : Forall kpage l;
  fp_nodup : NoDup l;
  fp_lock : k_locked s = false;
}.

(** ** Lemmas *)

Lemma kfree_guard v :
  KERNBASE ≤ end_ → is_u32 v →
  negb (v mod PGSIZE =? 0) || (v <? end_) || (PHYSTOP <=? V2P v) = false ↔ kpage v.
Proof.
  intros He Hv. unfold kpage, V2P. rewrite !orb_false_iff, negb_false_iff, Z.eqb_eq, Z.ltb_ge, Z.leb_gt.
  split.
  - intros [[H1 H2] H3]. rewrite u32_id in H3 by (unfold is_u32, KERNBASE in *; lia).
    split_and!; [done|lia|lia|unfold KERNBASE in *; lia].
  - intros (H1&H2&H3&H4). rewrite u32_id by (unfold is_u32, KERNBASE, PHYSTOP in *; lia).
    split_and!; [done|lia|lia].
Qed.

Lemma kpage_u32 v : kpage v → is_u32 v.
Proof. unfold kpage, is_u32, KERNBASE, PHYSTOP. lia. Qed.

(** Two distinct pages do not overlap. *)
Lemma kpage_disjoint v w : kpage v → kpage w → v ≠ w → v + PGSIZE ≤ w ∨ w + PGSIZE ≤ v.
Proof.
  unfold kpage, PGSIZE. intros (Hv&_&_) (Hw&_&_) Hne.
  apply Z.mod_divide in Hv as [a ->], Hw as [b ->]; lia.
Qed.

Lemma chain_frame m m' head l :
  (∀ v x, v ∈ l → v ≤ x < v + 4 → m' x = m x) → chain m head l → chain m' head l.
Proof.
  revert head. induction l as [|v l IH]; intros head Hm; simpl; [done|].
  intros [-> Hc]. split; [done|].
  assert (load32 m' v = load32 m v) as ->.
  { unfold load32. rewrite !(Hm v) by (by left || lia). done. }
  apply IH; [|done]. intros w x Hw. apply Hm. by right.
Qed.

(** ** Operations *)

Lemma acquire_free s :
  k_locked s = false → kmem_acquire s = Ok tt (set_locked (negb (k_use_lock s =? 0)) s).
Proof.
  intros Hl. unfold kmem_acquire. rewrite Hl. destruct (k_use_lock s =? 0); [|done].
  destruct s; simpl in *. by subst.
Qed.
Lemma release_mine s :
  k_locked s = negb (k_use_lock s =? 0) → kmem_release s = Ok tt (set_locked false s).
Proof.
  intros Hl. unfold kmem_release. destruct (k_use_lock s =? 0); simpl in Hl; [|by rewrite Hl].
  destruct s; simpl in *. by subst.
Qed.

Lemma kfree_wp s l v :
  KERNBASE ≤ end_ → free_pages s l → is_u32 (k_freelist s) → kpage v → (v ∉ l) →
  wp (kfree v) (λ _ s', free_pages s' (v :: l) ∧ k_freelist s' = v ∧ k_use_lock s' = k_use_lock s ∧
    (∀ x, v + 4 ≤ x < v + PGSIZE → k_mem s' x = 1) ∧
    (∀ x, x < v ∨ v + PGSIZE ≤ x → k_mem s' x = k_mem s x)) s.
Proof.
  intros He [Hch Hpg Hnd Hlk] Hfl Hv Hnew. unfold kfree.
  rewrite (proj2 (kfree_guard v He (kpage_u32 v Hv)) Hv).
  apply wp_bind, wp_modify, wp_bind.
  set (m1 := memset (k_mem s) v 1 PGSIZE).
  assert (∀ x, m1 x = if (v <=? x) && (x <? v + PGSIZE) then 1 else k_mem s x) as Hm1.
  { intros x. unfold m1. by rewrite memset_correct. }
  assert (free_pages (Kst (store32 m1 v (k_freelist s)) v (k_use_lock s) false) (v :: l) ∧
    (∀ x, v + 4 ≤ x < v + PGSIZE → store32 m1 v (k_freelist s) x = 1) ∧
    (∀ x, x < v ∨ v + PGSIZE ≤ x → store32 m1 v (k_freelist s) x = k_mem s x)) as (G1&G2&G3).
  { split; [split|split]; simpl.
    - split; [done|]. rewrite load32_store32 by done.
      eapply chain_frame; [|done]. intros w x Hw Hx.
      rewrite Forall_forall in Hpg.
      destruct (kpage_disjoint v w Hv) as [|]; [by apply Hpg|congruence|..].
      all: unfold PGSIZE in *; rewrite store32_ne by lia; rewrite Hm1; zcases.
    - by constructor.
    - by constructor.
    - done.
    - intros x Hx. rewrite store32_ne by lia. rewrite Hm1. zcases.
    - intros x Hx. unfold PGSIZE in *. rewrite store32_ne by lia. rewrite Hm1. zcases. }
  eapply wp_intro; [by apply acquire_free|]. apply wp_bind, wp_gets, wp_bind, wp_modify.
  apply wp_bind, wp_modify. eapply wp_intro; [by apply release_mine|]. by split_and!.
Qed.

Lemma kalloc_wp s l :
  free_pages s l →
  wp kalloc (λ r s', k_mem s' = k_mem s ∧ k_use_lock s' = k_use_lock s ∧
    match l with
    | [] => r = 0 ∧ free_pages s' []
    | v :: l' => r = v ∧ free_pages s' l'
    end) s.
Proof.
  intros [Hch Hpg Hnd Hlk]. unfold kalloc. apply wp_bind.
  eapply wp_intro; [by apply acquire_free|]. apply wp_bind, wp_gets, wp_bind. simpl.
  destruct l as [|v l]; simpl in Hch.
  - rewrite Hch. apply wp_ret, wp_bind. eapply wp_intro; [by apply release_mine|].
    apply wp_ret. split_and!; [done..|]. by split; simpl; [rewrite Hch|..].
  - destruct Hch as [-> Hch]. apply Forall_cons in Hpg as [Hv Hpg].
    apply NoDup_cons in Hnd as [_ Hnd].
    rewrite (proj2 (Z.eqb_neq v 0)) by (unfold kpage, KERNBASE in Hv; lia).
    apply wp_bind, wp_gets, wp_modify, wp_bind. eapply wp_intro; [by apply release_mine|].
    apply wp_ret. by split_and!.
Qed.

(** [kfree] of a page that is not free makes it the first of the free
    pages, filled with ones after the link word, and changes no other byte of
    memory. *)
Theorem kfree_frees s l v :
  KERNBASE ≤ end_ → free_pages s l → is_u32 (k_freelist s) → kpage v → (v ∉ l) →
  wp (kfree v) (λ _ s', free_pages s' (v :: l) ∧
    (∀ x, v + 4 ≤ x < v + PGSIZE → k_mem s' x = 1) ∧
    (∀ x, x < v ∨ v + PGSIZE ≤ x → k_mem s' x = k_mem s x)) s.
Proof.
  intros He Hf Hfl Hv Hn. eapply wp_mono; [by apply kfree_wp|]. cbn beta. tauto.
Qed.

(** What [kfree] accepts: for any 32-bit address it panics unless the
    address is that of a page between the end of the kernel and the top of
    physical memory. *)
Theorem kfree_rejects s v :
  KERNBASE ≤ end_ → is_u32 v → ¬ kpage v → kfree v s = Fail (Panic "kfree").
Proof.
  intros He Hv Hn. unfold kfree.
  destruct (negb _ || _ || _) eqn:E; [done|]. by apply kfree_guard in E.
Qed.

(** ** Filling the free list *)

(** The pages from [p] on that fit below [vend]. *)
Definition pages_from (p : Z) (n : nat) : list Z := (λ k, p + PGSIZE * Z.of_nat k) <$> seq 0 n.

Lemma pages_from_S p n : pages_from p (S n) = p :: pages_from (p + PGSIZE) n.
Proof.
  unfold pages_from. cbn [seq fmap list_fmap]. f_equal; [lia|].
  rewrite <-fmap_S_seq, <-list_fmap_compose. apply list_fmap_ext. intros i k _. simpl. lia.
Qed.

Lemma freerange_loop_wp n fuel p vend s l :
  KERNBASE ≤ end_ → free_pages s l → is_u32 (k_freelist s) →
  (n < fuel)%nat → p mod PGSIZE = 0 → end_ ≤ p →
  p + PGSIZE * Z.of_nat n ≤ vend < p + PGSIZE * Z.of_nat n + PGSIZE →
  vend ≤ KERNBASE + PHYSTOP → Forall (λ v, v < p ∨ vend ≤ v) l →
  wp (freerange_loop fuel p vend) (λ _ s',
    free_pages s' (reverse (pages_from p n) ++ l) ∧ k_use_lock s' = k_use_lock s) s.
Proof.
  intros He. revert fuel p s l. induction n as [|n IH]; intros fuel p s l Hf Hfl Hfuel Hp Hep Hv Htop Hl;
    (destruct fuel as [|fuel]; [lia|]); cbn [freerange_loop].
  - rewrite u32_id by (unfold is_u32, PGSIZE, KERNBASE, PHYSTOP in *; lia).
    rewrite (proj2 (Z.leb_gt _ _)) by (unfold PGSIZE in *; lia). by apply wp_ret.
  - rewrite u32_id by (unfold is_u32, PGSIZE, KERNBASE, PHYSTOP in *; lia).
    rewrite (proj2 (Z.leb_le _ _)) by (unfold PGSIZE in *; lia). apply wp_bind.
    assert (kpage p) as Hkp.
    { unfold kpage, PGSIZE in *. split_and!; [done|done|lia|lia]. }
    eapply wp_mono.
    { apply (kfree_wp s l); [done|done|done|done|].
      intros Hin. rewrite Forall_forall in Hl. specialize (Hl _ Hin). unfold PGSIZE in *. lia. }
    cbn beta. intros _ s1 (Hf1&Hfl1&Hu&_). eapply wp_mono.
    { apply (IH fuel (p + PGSIZE) s1 (p :: l)); [done| |lia| |lia| |lia|].
      - rewrite Hfl1. by apply kpage_u32.
      - unfold PGSIZE in *. rewrite <-(Z.mul_1_l 4096) at 1. by rewrite Z.mod_add.
      - unfold PGSIZE in *. lia.
      - constructor; [unfold PGSIZE; lia|]. eapply Forall_impl; [done|]. unfold PGSIZE. lia. }
    cbn beta. intros _ s' [Hf' Hu']. split; [|congruence].
    rewrite pages_from_S, reverse_cons, <-app_assoc. done.
Qed.

(** [freerange] over a range of memory above the kernel, none of whose
    pages is free yet, puts exactly the whole pages of the range on the free
    list. *)
Theorem freerange_frees s l vstart vend :
  KERNBASE ≤ end_ → free_pages s l → is_u32 (k_freelist s) →
  end_ ≤ vstart ≤ vend → PGROUNDUP vstart ≤ vend ≤ KERNBASE + PHYSTOP →
  Forall (λ v, v < vstart ∨ vend ≤ v) l →
  wp (freerange vstart vend) (λ _ s', free_pages s'
    (reverse (pages_from (PGROUNDUP vstart) (Z.to_nat ((vend - PGROUNDUP vstart) / PGSIZE))) ++ l)) s.
Proof.
  intros He Hf Hfl Hs Hv Hl. unfold freerange, PGSIZE.
  assert (PGROUNDUP vstart = (vstart + 4095) / 4096 * 4096) as E.
  { apply PGROUNDUP_eq. unfold KERNBASE, PHYSTOP in *. lia. }
  eapply wp_mono.
  { apply (freerange_loop_wp (Z.to_nat ((vend - PGROUNDUP vstart) / 4096)) _ _ _ s l);
      [done|done|done|..].
    - rewrite E in *. apply Nat.lt_succ_r, Z2Nat.inj_le; zdm.
    - rewrite E. by rewrite Z.mod_mul.
    - rewrite E in *. zdm.
    - unfold PGSIZE. rewrite Z2Nat.id; zdm.
    - lia.
    - eapply Forall_impl; [done|]. rewrite E in *. intros v. zdm. }
  cbn beta. by intros _ s' [? _].
Qed.

(** [kalloc] hands out the first free page and keeps the others, without
    touching memory; it returns 0 exactly when no page is free. *)
Theorem kalloc_allocates s l :
  free_pages s l →
  wp kalloc (λ r s', k_mem s' = k_mem s ∧
    match l with
    | [] => r = 0 ∧ free_pages s' []
    | v :: l' => r = v ∧ r ≠ 0 ∧ (r ∉ l') ∧ free_pages s' l'
    end) s.
Proof.
  intros Hf. eapply wp_mono; [by apply kalloc_wp|]. cbn beta. intros r s' (Hm&_&Hr).
  split; [done|]. destruct l as [|v l]; [done|]. destruct Hr as [-> Hf'].
  destruct Hf as [_ Hpg Hnd _]. apply Forall_cons in Hpg as [Hv _].
  apply NoDup_cons in Hnd as [Hni _]. split_and!; [done| |done|done].
  unfold kpage, KERNBASE in Hv. lia.
Qed.
End kalloc.

(** ** Witnesses *)

(** A machine whose kernel ends at 2 MB, with nothing free. *)
Definition demo_end : Z := KERNBASE + 2097152.
Definition demo_kst : kst := Kst (λ _, 0) 0 0 false.

Lemma demo_kst_free : free_pages demo_end demo_kst [].
Proof. split; [done|constructor|constructor|done]. Qed.

Lemma demo_page : kpage demo_end demo_end.
Proof. unfold kpage, demo_end. vm_compute. repeat split; discriminate. Qed.

Lemma kfree_frees_witness :
  wp (kfree demo_end demo_end) (λ _ s', free_pages demo_end s' [demo_end]) demo_kst.
Proof.
  eapply wp_mono; [apply (kfree_frees demo_end demo_kst [] demo_end)|].
  - vm_compute. discriminate.
  - exact demo_kst_free.
  - vm_compute. split; [discriminate|reflexivity].
  - exact demo_page.
  - apply not_elem_of_nil.
  - cbn beta. intros _ s' [H _]. exact H.
Defined.

Lemma kfree_rejects_witness : kfree demo_end (demo_end + 1) demo_kst = Fail (Panic "kfree").
Proof.
  apply kfree_rejects.
  - vm_compute. discriminate.
  - vm_compute. split; [discriminate|reflexivity].
  - intros [H _]. vm_compute in H. discriminate.
Defined.

Lemma freerange_frees_witness :
  wp (freerange demo_end (demo_end + 1) (demo_end + 12288))
    (λ _ s', free_pages demo_end s' [demo_end + 8192; demo_end + 4096]) demo_kst.
Proof.
  eapply wp_mono; [apply (freerange_frees demo_end demo_kst [] (demo_end + 1) (demo_end + 12288))|].
  - vm_compute. discriminate.
  - exact demo_kst_free.
  - vm_compute. split; [discriminate|reflexivity].
  - vm_compute. split; discriminate.
  - vm_compute. split; discriminate.
  - constructor.
  - cbn beta. intros _ s' H. exact H.
Defined.

Lemma kalloc_allocates_witness :
  wp (kfree demo_end demo_end;; kalloc) (λ r _, r = demo_end) demo_kst.
Proof.
  apply wp_bind. eapply wp_mono.
  - apply (kfree_wp demo_end demo_kst [] demo_end).
    + vm_compute. discriminate.
    + exact demo_kst_free.
    + vm_compute. split; [discriminate|reflexivity].
    + exact demo_page.
    + apply not_elem_of_nil.
  - cbn beta. intros _ s' [H _]. eapply wp_mono; [apply (kalloc_allocates demo_end s' [demo_end] H)|].
    cbn beta. intros r s'' (_&Hr&_). exact Hr.
Defined.
