(* ===== verification/Vm.v ===== *)
(** * Virtual memory: [vm.c]

    Page directories and page tables are pages of the byte memory of the
    allocator, read and written through their kernel virtual addresses; the
    null pointer is 0.  [data_] is the linker's symbol [data] and [ts_addr] the
    address of the executing cpu's task state segment. *)

From S2P Require Import Prelude Params CString Cprintf Kalloc.

(** ** Segments *)

Record segdesc := SegDesc {
  lim_15_0 : Z; base_15_0 : Z; base_23_16 : Z; sd_type : Z; sd_s : Z; sd_dpl : Z; sd_p : Z;
  lim_19_16 : Z; sd_avl : Z; sd_rsv1 : Z; sd_db : Z; sd_g : Z; base_31_24 : Z;
}.
Definition SEG (type base lim dpl : Z) : segdesc :=
  SegDesc (Z.land (Z.shiftr lim 12) 65535) (Z.land base 65535) (Z.land (Z.shiftr base 16) 255)
    type 1 dpl 1 (Z.shiftr lim 28) 0 0 1 1 (Z.shiftr base 24).
Definition SEG16 (type base lim dpl : Z) : segdesc :=
  SegDesc (Z.land lim 65535) (Z.land base 65535) (Z.land (Z.shiftr base 16) 255)
    type 1 dpl 1 (Z.shiftr lim 16) 0 0 1 0 (Z.shiftr base 24).
Definition seg_zero : segdesc := SegDesc 0 0 0 0 0 0 0 0 0 0 0 0 0.
Definition STA_X : Z := 8.
Definition STA_W : Z := 2.
Definition STA_R : Z := 2.
Definition STS_T32A : Z := 9.
Definition sizeof_taskstate : Z := 104.

(** The allocator with its memory, the globals of [vm.c], and the registers
    and tables of the executing cpu that [vm.c] sets. *)
Record vst := Vst {
  v_k : kst;
  v_kpgdir : Z;
  v_cr3 : Z;
  v_gdt : list segdesc;
  v_ss0 : Z;
  v_esp0 : Z;
  v_iomb : Z;
  v_tr : Z;
  v_out : list Z;
}.
Definition v_mem (s : vst) : mem := k_mem (v_k s).

Definition on_k (f : kst → kst) (s : vst) : vst :=
  Vst (f (v_k s)) (v_kpgdir s) (v_cr3 s) (v_gdt s) (v_ss0 s) (v_esp0 s) (v_iomb s) (v_tr s) (v_out s).
Definition on_mem (f : mem → mem) : vst → vst := on_k (set_kmem f).
Definition set_kpgdir (v : Z) (s : vst) : vst :=
  Vst (v_k s) v (v_cr3 s) (v_gdt s) (v_ss0 s) (v_esp0 s) (v_iomb s) (v_tr s) (v_out s).
Definition set_cr3 (v : Z) (s : vst) : vst :=
  Vst (v_k s) (v_kpgdir s) v (v_gdt s) (v_ss0 s) (v_esp0 s) (v_iomb s) (v_tr s) (v_out s).
Definition on_gdt (f : list segdesc → list segdesc) (s : vst) : vst :=
  Vst (v_k s) (v_kpgdir s) (v_cr3 s) (f (v_gdt s)) (v_ss0 s) (v_esp0 s) (v_iomb s) (v_tr s) (v_out s).
Definition set_tss (ss0 esp0 iomb tr : Z) (s : vst) : vst :=
  Vst (v_k s) (v_kpgdir s) (v_cr3 s) (v_gdt s) ss0 esp0 iomb tr (v_out s).
Definition on_out (f : list Z → list Z) (s : vst) : vst :=
  Vst (v_k s) (v_kpgdir s) (v_cr3 s) (v_gdt s) (v_ss0 s) (v_esp0 s) (v_iomb s) (v_tr s) (f (v_out s)).

Definition lift_k {A} (m : M kst A) : M vst A := λ s,
  match m (v_k s) with
  | Ok a k => Ok a (on_k (λ _, k) s)
  | Fail f => Fail f
  end.

Definition vprint (msg : string) : M vst unit := modify (on_out (λ o, (o ++ lit msg)%list)).

Definition seginit : M vst unit :=
  modify (on_gdt (λ g,
    <[4%nat := SEG STA_W 0 4294967295 DPL_USER]>
    (<[3%nat := SEG (Z.lor STA_X STA_R) 0 4294967295 DPL_USER]>
    (<[2%nat := SEG STA_W 0 4294967295 0]>
    (<[1%nat := SEG (Z.lor STA_X STA_R) 0 4294967295 0]> g))))).

Section vm.
Context (end_ data_ ts_addr : Z).

Definition vm_kalloc : M vst Z := lift_k kalloc.
Definition vm_kfree (v : Z) : M vst unit := lift_k (kfree end_ v).

(** ** Page tables *)

Definition walkpgdir (pgdir va : Z) (alloc : bool) : M vst Z :=
  let pde := pgdir + 4 * PDX va in
  e ← gets (λ s, load32 (v_mem s) pde);
  if negb (Z.land e PTE_P =? 0) then mret (P2V (PTE_ADDR e) + 4 * PTX va)
  else if negb alloc then mret 0
  else
    pgtab ← vm_kalloc;
    if pgtab =? 0 then mret 0
    else
      modify (on_mem (λ m, memset m pgtab 0 PGSIZE));;
      modify (on_mem (λ m, store32 m pde
        (Z.lor (Z.lor (Z.lor (V2P pgtab) PTE_P) PTE_W) PTE_U)));;
      mret (pgtab + 4 * PTX va).

(** The loop of [mappages] from [a] on; [n] bounds the pages still to map. *)
Fixpoint mappages_loop (n : nat) (pgdir a last pa perm : Z) : M vst Z :=
  match n with
  | O => fail OutOfFuel
  | S n' =>
      pte ← walkpgdir pgdir a true;
      if pte =? 0 then mret (-1)
      else
        e ← gets (λ s, load32 (v_mem s) pte);
        if negb (Z.land e PTE_P =? 0) then panic "remap"
        else
          modify (on_mem (λ m, store32 m pte (Z.lor (Z.lor pa perm) PTE_P)));;
          if a =? last then mret 0
          else mappages_loop n' pgdir (a +u PGSIZE) last (pa +u PGSIZE) perm
  end.
(** The loop ends when [a] reaches [last], after as many steps as there are
    pages from the first to the last (modulo 2^32). *)
Definition mappages (pgdir va size pa perm : Z) : M vst Z :=
  let a := PGROUNDDOWN va in
  let last := PGROUNDDOWN (va +u size -u 1) in
  mappages_loop (S (Z.to_nat ((last -u a) / PGSIZE))) pgdir a last pa perm.

(** [kmap]: virtual start, physical start and end, permissions. *)
Definition kmap : list (Z * Z * Z * Z) :=
  [(KERNBASE, 0, EXTMEM, PTE_W);
   (KERNLINK, V2P KERNLINK, V2P data_, 0);
   (data_, V2P data_, PHYSTOP, PTE_W);
   (DEVSPACE, DEVSPACE, 0, PTE_W)].

(** The loop of [deallocuvm]; [n] bounds the iterations. *)
Fixpoint deallocuvm_loop (n : nat) (pgdir a oldsz : Z) : M vst unit :=
  match n with
  | O => fail OutOfFuel
  | S n' =>
      if a <? oldsz then
        pte ← walkpgdir pgdir a false;
        if pte =? 0 then
          deallocuvm_loop n' pgdir ((PGADDR (PDX a + 1) 0 0 -u PGSIZE) +u PGSIZE) oldsz
        else
          e ← gets (λ s, load32 (v_mem s) pte);
          when (negb (Z.land e PTE_P =? 0)) (
            let pa := PTE_ADDR e in
            if pa =? 0 then panic "kfree"
            else
              vm_kfree (P2V pa);;
              modify (on_mem (λ m, store32 m pte 0)));;
          deallocuvm_loop n' pgdir (a +u PGSIZE) oldsz
      else mret tt
  end.
Definition deallocuvm (pgdir oldsz newsz : Z) : M vst Z :=
  if oldsz <=? newsz then mret oldsz
  else
    let a := PGROUNDUP newsz in
    deallocuvm_loop (S (Z.to_nat ((oldsz - a) / PGSIZE + 1))) pgdir a oldsz;;
    mret newsz.

(** [for(i = 0; i < NPDENTRIES; i++) if(pgdir[i] & PTE_P) kfree(...)],
    [n] entries from [i] on. *)
Fixpoint freevm_loop (n : nat) (pgdir i : Z) : M vst unit :=
  match n with
  | O => mret tt
  | S n' =>
      e ← gets (λ s, load32 (v_mem s) (pgdir + 4 * i));
      when (negb (Z.land e PTE_P =? 0)) (vm_kfree (P2V (PTE_ADDR e)));;
      freevm_loop n' pgdir (i + 1)
  end.
Definition freevm (pgdir : Z) : M vst unit :=
  if pgdir =? 0 then panic "freevm: no pgdir"
  else
    deallocuvm pgdir KERNBASE 0;;
    freevm_loop (Z.to_nat NPDENTRIES) pgdir 0;;
    vm_kfree pgdir.

Fixpoint setupkvm_loop (pgdir : Z) (k : list (Z * Z * Z * Z)) : M vst Z :=
  match k with
  | [] => mret pgdir
  | (virt, phys_start, phys_end, perm) :: k' =>
      r ← mappages pgdir virt (phys_end -u phys_start) phys_start perm;
      if r <? 0 then freevm pgdir;; mret 0
      else setupkvm_loop pgdir k'
  end.
Definition setupkvm : M vst Z :=
  pgdir ← vm_kalloc;
  if pgdir =? 0 then mret 0
  else
    modify (on_mem (λ m, memset m pgdir 0 PGSIZE));;
    if DEVSPACE <? P2V PHYSTOP then panic "PHYSTOP too high"
    else setupkvm_loop pgdir kmap.

Definition switchkvm : M vst unit := modify (λ s, set_cr3 (V2P (v_kpgdir s)) s).

Definition kvmalloc : M vst unit :=
  p ← setupkvm;
  modify (set_kpgdir p);;
  switchkvm.

(** [switchuvm], for a process with this kernel stack and page directory. *)
Definition switchuvm (kstack pgdir : Z) : M vst unit :=
  if kstack =? 0 then panic "switchuvm: no kstack"
  else if pgdir =? 0 then panic "switchuvm: no pgdir"
  else
    modify (on_gdt (<[5%nat := SEG16 STS_T32A ts_addr (sizeof_taskstate - 1) 0]>));;
    modify (on_gdt (alter (λ d, SegDesc (lim_15_0 d) (base_15_0 d) (base_23_16 d) (sd_type d) 0
      (sd_dpl d) (sd_p d) (lim_19_16 d) (sd_avl d) (sd_rsv1 d) (sd_db d) (sd_g d) (base_31_24 d))
      5%nat));;
    modify (set_tss (Z.shiftl SEG_KDATA 3) (kstack +u KSTACKSIZE) 65535 (Z.shiftl SEG_TSS 3));;
    modify (set_cr3 (V2P pgdir)).

(** ** User memory *)

(** [init] is the byte array to load. *)
Definition inituvm (pgdir : Z) (init : list Z) : M vst unit :=
  if PGSIZE <=? Z.of_nat (length init) then panic "inituvm: more than a page"
  else
    mem ← vm_kalloc;
    modify (on_mem (λ m, memset m mem 0 PGSIZE));;
    mappages pgdir 0 PGSIZE (V2P mem) (Z.lor PTE_W PTE_U);;
    modify (on_mem (λ m, store m mem init)).

(** [readi dst off n] reads [n] bytes at [off] of the file into kernel memory
    at [dst], and returns how many it read.  It runs in a state [St] of which
    the memory is a part, accessed by [lv]. *)
Fixpoint loaduvm_loop {St : Type} (lv : ∀ A, M vst A → M St A) (readi : Z → Z → Z → M St Z) (n : nat)
    (pgdir addr offset sz i : Z) : M St Z :=
  match n with
  | O => fail OutOfFuel
  | S n' =>
      if i <? sz then
        pte ← lv _ (walkpgdir pgdir (addr +u i) false);
        if pte =? 0 then panic "loaduvm: address should exist"
        else
          e ← lv _ (gets (λ s, load32 (v_mem s) pte));
          let pa := PTE_ADDR e in
          let n := if sz -u i <? PGSIZE then sz -u i else PGSIZE in
          r ← readi (P2V pa) (offset +u i) n;
          if negb (r =? n) then mret (-1)
          else loaduvm_loop lv readi n' pgdir addr offset sz (i +u PGSIZE)
      else mret 0
  end.
Definition loaduvm {St : Type} (lv : ∀ A, M vst A → M St A) (readi : Z → Z → Z → M St Z)
    (pgdir addr offset sz : Z) : M St Z :=
  if negb (addr mod PGSIZE =? 0) then panic "loaduvm: addr must be page aligned"
  else loaduvm_loop lv readi (S (Z.to_nat (sz / PGSIZE + 1))) pgdir addr offset sz 0.

Fixpoint allocuvm_loop (n : nat) (pgdir a oldsz newsz : Z) : M vst Z :=
  match n with
  | O => fail OutOfFuel
  | S n' =>
      if a <? newsz then
        mem ← vm_kalloc;
        if mem =? 0 then
          vprint "allocuvm out of memory\n";;
          deallocuvm pgdir newsz oldsz;;
          mret 0
        else
          modify (on_mem (λ m, memset m mem 0 PGSIZE));;
          r ← mappages pgdir a PGSIZE (V2P mem) (Z.lor PTE_W PTE_U);
          if r <? 0 then
            vprint "allocuvm out of memory (2)\n";;
            deallocuvm pgdir newsz oldsz;;
            vm_kfree mem;;
            mret 0
          else allocuvm_loop n' pgdir (a +u PGSIZE) oldsz newsz
      else mret newsz
  end.
Definition allocuvm (pgdir oldsz newsz : Z) : M vst Z :=
  if KERNBASE <=? newsz then mret 0
  else if newsz <? oldsz then mret oldsz
  else
    let a := PGROUNDUP oldsz in
    allocuvm_loop (S (Z.to_nat ((newsz - a) / PGSIZE + 1))) pgdir a oldsz newsz.

Definition clearpteu (pgdir uva : Z) : M vst unit :=
  pte ← walkpgdir pgdir uva false;
  if pte =? 0 then panic "clearpteu"
  else modify (on_mem (λ m, store32 m pte (Z.land (load32 m pte) (not32 PTE_U)))).

Fixpoint copyuvm_loop (n : nat) (pgdir d i sz : Z) : M vst Z :=
  match n with
  | O => fail OutOfFuel
  | S n' =>
      if i <? sz then
        pte ← walkpgdir pgdir i false;
        if pte =? 0 then panic "copyuvm: pte should exist"
        else
          e ← gets (λ s, load32 (v_mem s) pte);
          if Z.land e PTE_P =? 0 then panic "copyuvm: page not present"
          else
            let pa := PTE_ADDR e in
            let flags := PTE_FLAGS e in
            mem ← vm_kalloc;
            if mem =? 0 then freevm d;; mret 0
            else
              modify (on_mem (λ m, memmove m mem (P2V pa) PGSIZE));;
              r ← mappages d i PGSIZE (V2P mem) flags;
              if r <? 0 then
                vm_kfree mem;;
                freevm d;;
                mret 0
              else copyuvm_loop n' pgdir d (i +u PGSIZE) sz
      else mret d
  end.
Definition copyuvm (pgdir sz : Z) : M vst Z :=
  d ← setupkvm;
  if d =? 0 then mret 0
  else copyuvm_loop (S (Z.to_nat (sz / PGSIZE + 1))) pgdir d 0 sz.

Definition uva2ka (pgdir uva : Z) : M vst Z :=
  pte ← walkpgdir pgdir uva false;
  if pte =? 0 then fail (Undef "null pte")
  else
    e ← gets (λ s, load32 (v_mem s) pte);
    if Z.land e PTE_P =? 0 then mret 0
    else if Z.land e PTE_U =? 0 then mret 0
    else mret (P2V (PTE_ADDR e)).

(** The loop of [copyout]; each iteration copies at least one byte. *)
(** The source is given as its bytes: it is not part of the page written to. *)
Fixpoint copyout_loop (fuel : nat) (pgdir va : Z) (buf : list Z) (len : Z) : M vst Z :=
  match fuel with
  | O => fail OutOfFuel
  | S f =>
      if 0 <? len then
        let va0 := PGROUNDDOWN va in
        pa0 ← uva2ka pgdir va0;
        if pa0 =? 0 then mret (-1)
        else
          let n := PGSIZE -u (va -u va0) in
          let n := if len <? n then len else n in
          modify (on_mem (λ m, store m (pa0 + (va -u va0)) (take (Z.to_nat n) buf)));;
          copyout_loop f pgdir (va0 +u PGSIZE) (drop (Z.to_nat n) buf) (len -u n)
      else mret 0
  end.
Definition copyout (pgdir va : Z) (p : list Z) (len : Z) : M vst Z :=
  copyout_loop (S (Z.to_nat len)) pgdir va p len.
End vm.
