(* ===== verification/VmThms.v ===== *)
(** * Page tables: [walkpgdir] and [mappages] maintain a map from pages to entries

    A page directory and its page tables represent a function from virtual
    addresses to page table entries, [get_pte], which is what the hardware's
    walk finds (0 where there is no page table).  [walkpgdir] only adds empty
    page tables, so it leaves the function unchanged; [mappages] updates it on
    exactly the pages it is given. *)

From S2P Require Import Prelude Params CString Cprintf Kalloc Vm.

Definition present (e : Z) : bool := negb (Z.land e PTE_P =? 0).
Definition pde (m : mem) (pd i : Z) : Z := load32 m (pd + 4 * i).
(** The page table of the [i]th directory entry, by its kernel address. *)
Definition tab (m : mem) (pd i : Z) : Z := P2V (PTE_ADDR (pde m pd i)).
Definition pte_at (m : mem) (pd va : Z) : Z := tab m pd (PDX va) + 4 * PTX va.
Definition get_pte (m : mem) (pd va : Z) : Z :=
  if present (pde m pd (PDX va)) then load32 m (pte_at m pd va) else 0.

Definition bytes_ok (m : mem) : Prop := ∀ x, is_u8 (m x).

Section pt.
Context (end_ : Z).

(** The directory and its tables are distinct pages, none of them free. *)
Record dir_ok (m : mem) (pd : Z) (fl : list Z) : Prop := {
  do_bytes : bytes_ok m;
  do_page : kpage end_ pd;
  do_free : pd ∉ fl;
  do_tab : ∀ i, 0 ≤ i < 1024 → present (pde m pd i) = true →
    kpage end_ (tab m pd i) ∧ (tab m pd i ∉ fl) ∧ tab m pd i ≠ pd;
  do_inj : ∀ i j, 0 ≤ i < 1024 → 0 ≤ j < 1024 →
    present (pde m pd i) = true → present (pde m pd j) = true →
    tab m pd i = tab m pd j → i = j;
}.

(** ** Arithmetic *)

Lemma PDX_range va : 0 ≤ PDX va < 1024.
Proof. rewrite PDX_eq. zdm. Qed.
Lemma PTX_range va : 0 ≤ PTX va < 1024.
Proof. rewrite PTX_eq. zdm. Qed.

(** Two addresses with the same indices lie on the same page. *)
Lemma same_page va va' :
  is_u32 va → is_u32 va' → PDX va = PDX va' → PTX va = PTX va' → va / 4096 = va' / 4096.
Proof. unfold is_u32. rewrite !PDX_eq, !PTX_eq. intros. zdm. Qed.

Lemma load32_u32 m a : bytes_ok m → is_u32 (load32 m a).
Proof.
  intros Hm. unfold load32, is_u32.
  pose proof (Hm a). pose proof (Hm (a + 1)). pose proof (Hm (a + 2)). pose proof (Hm (a + 3)).
  unfold is_u8 in *. lia.
Qed.

Lemma store32_bytes m a v : bytes_ok m → bytes_ok (store32 m a v).
Proof.
  intros Hm x. unfold store32, upd.
  repeat (case_match; [apply u8_range|]). apply Hm.
Qed.

Lemma memset_bytes m a c n : 0 ≤ n → bytes_ok m → bytes_ok (memset m a c n).
Proof.
  intros Hn Hm x. rewrite memset_correct by done. case_match; [apply u8_range|apply Hm].
Qed.

(** A word written into another page, or at another word, is not seen. *)
Lemma load32_store32_ne m a b v : a + 4 ≤ b ∨ b + 4 ≤ a → load32 (store32 m a v) b = load32 m b.
Proof. intros H. apply load32_ext. intros x Hx. apply store32_ne. lia. Qed.

Lemma word_in_page p q i j :
  kpage end_ p → kpage end_ q → p ≠ q → 0 ≤ i < 1024 → 0 ≤ j < 1024 →
  p + 4 * i + 4 ≤ q + 4 * j ∨ q + 4 * j + 4 ≤ p + 4 * i.
Proof.
  intros Hp Hq Hne Hi Hj. destruct (kpage_disjoint end_ p q Hp Hq Hne); unfold PGSIZE in *; lia.
Qed.

(** ** Writing an entry *)

Lemma store_pte m pd fl va e :
  dir_ok m pd fl → present (pde m pd (PDX va)) = true → is_u32 e →
  let m' := store32 m (pte_at m pd va) e in
  dir_ok m' pd fl ∧
  (∀ i, 0 ≤ i < 1024 → pde m' pd i = pde m pd i) ∧
  (∀ va', get_pte m' pd va' =
    if (PDX va' =? PDX va) && (PTX va' =? PTX va) then e else get_pte m pd va') ∧
  (∀ v x, v ∈ fl → kpage end_ v → v ≤ x < v + 4 → m' x = m x).
Proof.
  intros Hd Hpr He m'. pose proof Hd as [Hb Hpg Hfr Htab Hinj].
  pose proof (PDX_range va) as Hi. pose proof (PTX_range va) as Hj.
  destruct (Htab _ Hi Hpr) as (Ht1&Ht2&Ht3).
  assert (∀ i, 0 ≤ i < 1024 → pde m' pd i = pde m pd i) as Hpde.
  { intros i Hir. unfold pde, m', pte_at. apply load32_store32_ne.
    by apply word_in_page. }
  assert (∀ i, 0 ≤ i < 1024 → tab m' pd i = tab m pd i) as Htb.
  { intros i Hir. unfold tab. by rewrite Hpde. }
  split_and!.
  - split; [by apply store32_bytes|done|done| |].
    + intros i Hir. rewrite Hpde, Htb by done. by apply Htab.
    + intros i j Hir Hjr. rewrite !Hpde, !Htb by done. by apply Hinj.
  - done.
  - intros va'. pose proof (PDX_range va') as Hi'. pose proof (PTX_range va') as Hj'.
    unfold get_pte. rewrite Hpde by done.
    destruct (present (pde m pd (PDX va'))) eqn:Hpr'.
    + assert (pte_at m' pd va' = pte_at m pd va') as -> by (unfold pte_at; by rewrite Htb).
      destruct (Z.eqb_spec (PDX va') (PDX va)) as [E1|E1]; cbn [andb].
      * destruct (Z.eqb_spec (PTX va') (PTX va)) as [E2|E2].
        -- unfold m', pte_at. rewrite E1, E2. by apply load32_store32.
        -- unfold m', pte_at. rewrite E1. apply load32_store32_ne. lia.
      * unfold m', pte_at. apply load32_store32_ne.
        destruct (Htab _ Hi' Hpr') as (Ht1'&_&_). apply word_in_page; try done.
        intros E. by apply E1, Hinj.
    + destruct (Z.eqb_spec (PDX va') (PDX va)) as [E1|E1]; [congruence|done].
  - intros v x Hv Hkv Hx. unfold m', pte_at. apply store32_ne.
    destruct (kpage_disjoint end_ (tab m pd (PDX va)) v) as [|];
      [done|done|intros <-; done|..]; unfold PGSIZE in *; lia.
Qed.

(** ** Entries *)

Lemma lor_flags x f : x mod 4096 = 0 → 0 ≤ f < 4096 → Z.lor x f = x + f.
Proof.
  intros Hx Hf. symmetry. apply Z.add_nocarry_lor.
  assert (f = Z.land f (Z.ones 12)) as ->.
  { rewrite Z.land_ones by lia. symmetry. apply Z.mod_small. lia. }
  rewrite (Z.land_comm f), Z.land_assoc, Z.land_ones by lia.
  change (2 ^ 12) with 4096. rewrite Hx. apply Z.land_0_l.
Qed.

Lemma flags_addr x f : is_u32 x → x mod 4096 = 0 → 0 ≤ f < 4096 → PTE_ADDR (x + f) = x.
Proof.
  unfold is_u32. intros Hx Hm Hf. rewrite PTE_ADDR_eq by (unfold is_u32; zdm). zdm.
Qed.

Lemma present_odd e : present e = Z.odd e.
Proof.
  unfold present, PTE_P. rewrite Z.land_comm, <-Z.bit0_odd.
  change 1 with (Z.ones 1) at 1. rewrite Z.land_comm, Z.land_ones by lia.
  change (2 ^ 1) with 2. rewrite Zmod_odd, Z.bit0_odd. by destruct (Z.odd e).
Qed.

(** The directory entry that [walkpgdir] writes for the new table [v]. *)
Lemma new_pde v :
  kpage end_ v →
  let e := Z.lor (Z.lor (Z.lor (V2P v) PTE_P) PTE_W) PTE_U in
  is_u32 e ∧ present e = true ∧ P2V (PTE_ADDR e) = v.
Proof.
  intros (Hm&_&Hr1&Hr2) e.
  assert (V2P v = v - KERNBASE) as Hv.
  { unfold V2P. apply u32_id. unfold is_u32, KERNBASE, PHYSTOP in *. lia. }
  assert (e = V2P v + 7) as ->.
  { unfold e. rewrite <-!Z.lor_assoc. change (Z.lor PTE_P (Z.lor PTE_W PTE_U)) with 7.
    apply lor_flags; [|lia]. rewrite Hv. unfold KERNBASE, PGSIZE in *. zdm. }
  assert ((v - KERNBASE) mod 4096 = 0) as Hvm by (unfold KERNBASE, PGSIZE in *; zdm).
  rewrite Hv. split_and!.
  - unfold is_u32, KERNBASE, PHYSTOP, PGSIZE in *. zdm.
  - rewrite present_odd. replace 7 with (1 + 2 * 3) by lia.
    rewrite Z.add_assoc, Z.odd_add_mul_2, Z.odd_add.
    assert (Z.odd (v - KERNBASE) = false) as ->; [|done].
    rewrite <-Z.negb_even. apply negb_false_iff, Z.even_spec.
    exists ((v - KERNBASE) / 2). zdm.
  - rewrite flags_addr; [|unfold is_u32, KERNBASE, PHYSTOP in *; lia|done|lia].
    unfold P2V. rewrite u32_id; unfold is_u32, KERNBASE, PHYSTOP in *; lia.
Qed.

(** Adding an empty page table. *)
Lemma add_table m pd v fl va :
  dir_ok m pd (v :: fl) → kpage end_ v → Forall (kpage end_) fl → NoDup (v :: fl) →
  present (pde m pd (PDX va)) = false →
  let m' := store32 (memset m v 0 PGSIZE) (pd + 4 * PDX va)
    (Z.lor (Z.lor (Z.lor (V2P v) PTE_P) PTE_W) PTE_U) in
  dir_ok m' pd fl ∧ present (pde m' pd (PDX va)) = true ∧ pte_at m' pd va = v + 4 * PTX va ∧
  (∀ va', get_pte m' pd va' = get_pte m pd va') ∧
  (∀ w x, w ∈ fl → w ≤ x < w + 4 → m' x = m x).
Proof.
  intros Hd Hv Hfl Hnd Hnp m'. pose proof Hd as [Hb Hpg Hfr Htab Hinj].
  apply not_elem_of_cons in Hfr as [Hpv Hfr].
  pose proof (PDX_range va) as Hi. destruct (new_pde v Hv) as (He1&He2&He3).
  set (m1 := memset m v 0 PGSIZE) in *.
  assert (∀ x, x < v ∨ v + PGSIZE ≤ x → m1 x = m x) as Hm1o.
  { intros x Hx. unfold m1. rewrite memset_correct by done. zcases. }
  assert (∀ x, v ≤ x < v + PGSIZE → m1 x = 0) as Hm1i.
  { intros x Hx. unfold m1. rewrite memset_correct by done. zcases. }
  assert (∀ p j, kpage end_ p → p ≠ v → 0 ≤ j < 1024 → load32 m1 (p + 4 * j) = load32 m (p + 4 * j))
    as Hld.
  { intros p j Hp Hne Hj. apply load32_ext. intros x Hx. apply Hm1o.
    destruct (kpage_disjoint end_ p v Hp Hv Hne); unfold PGSIZE in *; lia. }
  assert (∀ i, 0 ≤ i < 1024 → i ≠ PDX va → pde m' pd i = pde m pd i) as Hpde.
  { intros i Hir Hne. unfold pde, m'. rewrite load32_store32_ne by lia. by apply Hld. }
  assert (pde m' pd (PDX va) = Z.lor (Z.lor (Z.lor (V2P v) PTE_P) PTE_W) PTE_U) as Hpde0.
  { unfold pde, m'. by apply load32_store32. }
  assert (tab m' pd (PDX va) = v) as Htab0 by (unfold tab; by rewrite Hpde0).
  assert (∀ i, 0 ≤ i < 1024 → i ≠ PDX va → tab m' pd i = tab m pd i) as Htb.
  { intros i Hir Hne. unfold tab. by rewrite Hpde. }
  split_and!.
  - split; [by apply store32_bytes, memset_bytes|done|done| |].
    + intros i Hir. destruct (decide (i = PDX va)) as [->|Hne].
      * rewrite Htab0. intros _. apply NoDup_cons in Hnd as [Hni _]. by split_and!.
      * rewrite Hpde, Htb by done. intros Hpr. destruct (Htab i Hir Hpr) as (?&Hn&?).
        apply not_elem_of_cons in Hn as [_ Hn]. done.
    + assert (∀ i, 0 ≤ i < 1024 → present (pde m pd i) = true → tab m pd i ≠ v) as Hnv.
      { intros i Hir Hpr E. destruct (Htab i Hir Hpr) as (_&Hn&_).
        apply not_elem_of_cons in Hn as [Hn _]. done. }
      intros i j Hir Hjr.
      destruct (decide (i = PDX va)) as [->|Hne], (decide (j = PDX va)) as [->|Hne']; [done|..].
      * rewrite (Hpde j), (Htb j), Htab0 by done. intros _ Hpr E. by destruct (Hnv j Hjr Hpr).
      * rewrite (Hpde i), (Htb i), Htab0 by done. intros Hpr _ E. by destruct (Hnv i Hir Hpr).
      * rewrite !Hpde, !Htb by done. by apply Hinj.
  - by rewrite Hpde0.
  - unfold pte_at. by rewrite Htab0.
  - intros va'. pose proof (PDX_range va') as Hi'. pose proof (PTX_range va') as Hj'.
    unfold get_pte. destruct (decide (PDX va' = PDX va)) as [E|Hne].
    + rewrite E, Hpde0, He2, Hnp. unfold pte_at. rewrite E, Htab0. unfold m'.
      rewrite load32_store32_ne by (by apply (word_in_page pd v)).
      unfold load32. rewrite !Hm1i by (unfold PGSIZE; lia). done.
    + rewrite Hpde by done. destruct (present (pde m pd (PDX va'))) eqn:Hpr; [|done].
      destruct (Htab _ Hi' Hpr) as (Ht1&Ht2&Ht3). apply not_elem_of_cons in Ht2 as [Ht2 _].
      unfold pte_at. rewrite Htb by done. unfold m'.
      rewrite load32_store32_ne by (apply (word_in_page pd); [done|done|congruence|done|done]).
      by apply Hld.
  - intros w x Hw Hx. rewrite Forall_forall in Hfl. pose proof (Hfl _ Hw) as Hkw.
    apply NoDup_cons in Hnd as [Hni _].
    unfold m'. rewrite store32_ne.
    + apply Hm1o. destruct (kpage_disjoint end_ w v Hkw Hv); [congruence|..]; unfold PGSIZE in *; lia.
    + destruct (kpage_disjoint end_ w pd Hkw Hpg); [congruence|..]; unfold PGSIZE in *; lia.
Qed.

(** ** walkpgdir *)

(** A state with free pages [fl] and the directory [pd]. *)
Record pt_inv (pd : Z) (fl : list Z) (s : vst) : Prop := {
  pi_free : free_pages end_ (v_k s) fl;
  pi_head : is_u32 (k_freelist (v_k s));
  pi_dir : dir_ok (v_mem s) pd fl;
}.

Lemma free_pages_frame s fl m' :
  free_pages end_ s fl → (∀ v x, v ∈ fl → v ≤ x < v + 4 → m' x = k_mem s x) →
  free_pages end_ (set_kmem (λ _, m') s) fl.
Proof.
  intros [H1 H2 H3 H4] Hm. split; simpl; [|done..]. by eapply chain_frame.
Qed.

Lemma vm_kalloc_wp s pd fl :
  pt_inv pd fl s →
  wp vm_kalloc (λ r s', v_mem s' = v_mem s ∧ v_out s' = v_out s ∧
    match fl with
    | [] => r = 0 ∧ pt_inv pd [] s'
    | v :: fl' => r = v ∧ kpage end_ v ∧ NoDup (v :: fl') ∧ Forall (kpage end_) fl' ∧
        free_pages end_ (v_k s') fl' ∧ is_u32 (k_freelist (v_k s')) ∧ dir_ok (v_mem s') pd (v :: fl')
    end) s.
Proof.
  intros [Hf Hh Hd]. unfold vm_kalloc, wp, lift_k.
  destruct (wp_elim _ _ _ (kalloc_wp end_ (v_k s) fl Hf)) as (r&k&->&Hm&_&Hr).
  unfold v_mem in *. cbn. split_and!; [done..|].
  destruct fl as [|v fl]; destruct Hr as [-> Hf'].
  - split; [done|]. split; cbn; [done| |by unfold v_mem; cbn; rewrite Hm].
    destruct Hf' as [Hc _ _ _]. simpl in Hc. rewrite Hc. unfold is_u32. lia.
  - destruct Hf as [Hc Hp Hn Hl]. apply Forall_cons in Hp as [Hv Hp].
    split_and!; [done|done|done|done|done| |by rewrite Hm].
    destruct Hf' as [Hc' _ _ _]. destruct fl as [|w fl]; simpl in Hc'.
    + rewrite Hc'. unfold is_u32. lia.
    + destruct Hc' as [-> _]. apply Forall_cons in Hp as [Hw _]. by eapply kpage_u32.
Qed.

Lemma walkpgdir_wp s pd fl va :
  pt_inv pd fl s →
  wp (walkpgdir pd va true) (λ r s', ∃ fl', pt_inv pd fl' s' ∧
    (∀ va', get_pte (v_mem s') pd va' = get_pte (v_mem s) pd va') ∧
    ((r = 0 ∧ fl' = []) ∨
     (r ≠ 0 ∧ (length fl ≤ length fl' + 1)%nat ∧
      present (pde (v_mem s') pd (PDX va)) = true ∧ r = pte_at (v_mem s') pd va))) s.
Proof.
  intros Hinv. pose proof Hinv as [Hf Hh Hd]. unfold walkpgdir. apply wp_bind, wp_gets.
  pose proof (PDX_range va) as Hi. pose proof (PTX_range va) as Hj.
  assert (∀ v, kpage end_ v → v + 4 * PTX va ≠ 0) as Hnz.
  { intros v (_&_&Hv&_). unfold KERNBASE in Hv. lia. }
  destruct (negb (Z.land (load32 (v_mem s) (pd + 4 * PDX va)) PTE_P =? 0)) eqn:Hp.
  { apply wp_ret. exists fl. split; [done|]. split; [done|]. right.
    destruct (do_tab _ _ _ Hd _ Hi Hp) as (Ht&_&_).
    split_and!; [by apply (Hnz _ Ht)|lia|done|done]. }
  cbn [negb]. apply wp_bind. eapply wp_mono; [by apply (vm_kalloc_wp s pd fl)|]. cbn beta.
  intros r s1 (Hm&_&Hr). destruct fl as [|v fl].
  - destruct Hr as [-> Hinv1]. apply wp_ret. exists []. rewrite Hm. auto.
  - destruct Hr as (->&Hv&Hnd&Hpg&Hf1&Hh1&Hd1).
    rewrite (proj2 (Z.eqb_neq v 0)) by (destruct Hv as (_&_&Hv&_); unfold KERNBASE in Hv; lia).
    apply wp_bind, wp_modify, wp_bind, wp_modify, wp_ret.
    assert (present (pde (v_mem s1) pd (PDX va)) = false) as Hnp by (by rewrite Hm).
    destruct (add_table _ _ _ _ _ Hd1 Hv Hpg Hnd Hnp) as (G1&G2&G3&G4&G5).
    exists fl. split; [split; cbn|].
    + exact (free_pages_frame _ _ _ Hf1 G5).
    + done.
    + done.
    + split; [by intros; rewrite <-Hm|]. right.
      split_and!; [by apply Hnz|simpl; lia|exact G2|exact (eq_sym G3)].
Qed.

(** ** mappages *)

(** The function on entries after [k] pages from [a] on have been mapped to
    physical memory from [pa] on. *)
Definition mapped (f : Z → Z) (a pa perm : Z) (k : nat) (va : Z) : Z :=
  if (a <=? va) && (va <? a + PGSIZE * Z.of_nat k)
  then Z.lor (Z.lor (pa + (va / PGSIZE * PGSIZE - a)) perm) PTE_P else f va.

Lemma mapped_step f a pa perm va :
  a mod PGSIZE = 0 → is_u32 a → is_u32 va →
  (if (PDX va =? PDX a) && (PTX va =? PTX a) then Z.lor (Z.lor pa perm) PTE_P else f va) =
  mapped f a pa perm 1 va.
Proof.
  unfold mapped, PGSIZE. intros Ha Hua Hva.
  destruct (Z.eqb_spec (PDX va) (PDX a)) as [E1|E1]; cbn [andb];
    [destruct (Z.eqb_spec (PTX va) (PTX a)) as [E2|E2]|].
  - pose proof (same_page va a Hva Hua E1 E2) as E.
    rewrite (proj2 (Z.leb_le a va)), (proj2 (Z.ltb_lt va _)) by zdm. cbn [andb].
    replace (va / 4096 * 4096 - a) with 0 by zdm. by rewrite Z.add_0_r.
  - destruct (Z.leb_spec a va), (Z.ltb_spec va (a + 4096 * Z.of_nat 1)); cbn [andb]; try done.
    destruct E2. rewrite !PTX_eq. f_equal. zdm.
  - destruct (Z.leb_spec a va), (Z.ltb_spec va (a + 4096 * Z.of_nat 1)); cbn [andb]; try done.
    destruct E1. rewrite !PDX_eq. f_equal. zdm.
Qed.

Lemma mapped_ext f g a pa perm k va : f va = g va → mapped f a pa perm k va = mapped g a pa perm k va.
Proof. intros E. unfold mapped. by rewrite E. Qed.

Lemma mapped_next f a pa perm k va :
  a mod PGSIZE = 0 →
  mapped (mapped f a pa perm 1) (a + PGSIZE) (pa + PGSIZE) perm k va = mapped f a pa perm (S k) va.
Proof.
  intros Ha. unfold mapped, PGSIZE in *.
  destruct (Z.leb_spec (a + 4096) va), (Z.ltb_spec va (a + 4096 + 4096 * Z.of_nat k)),
    (Z.leb_spec a va), (Z.ltb_spec va (a + 4096 * Z.of_nat 1)),
    (Z.ltb_spec va (a + 4096 * Z.of_nat (S k))); cbn [andb]; try lia; try done.
  do 2 f_equal. lia.
Qed.

Lemma store_pte_inv s pd fl va e :
  pt_inv pd fl s → present (pde (v_mem s) pd (PDX va)) = true → is_u32 e →
  let s' := on_mem (λ m, store32 m (pte_at (v_mem s) pd va) e) s in
  pt_inv pd fl s' ∧ ∀ va', get_pte (v_mem s') pd va' =
    if (PDX va' =? PDX va) && (PTX va' =? PTX va) then e else get_pte (v_mem s) pd va'.
Proof.
  intros [Hf Hh Hd] Hp He s'. destruct (store_pte _ _ _ _ _ Hd Hp He) as (G1&_&G3&G4).
  split; [|exact G3]. split; [|exact Hh|exact G1].
  refine (free_pages_frame _ _ _ Hf _). intros v x Hv Hx. apply (G4 v); [done| |done].
  pose proof (fp_pages _ _ _ Hf) as Hpg. rewrite Forall_forall in Hpg. by apply Hpg.
Qed.

(** One iteration: the page [a] is mapped, or no page table could be had. *)
Lemma map_one s pd fl a pa perm (k : M vst Z) Q :
  pt_inv pd fl s → a mod PGSIZE = 0 → is_u32 a → is_u32 pa → pa mod PGSIZE = 0 → 0 ≤ perm < 4096 →
  present (get_pte (v_mem s) pd a) = false →
  (∀ s', pt_inv pd [] s' → (∀ va, get_pte (v_mem s') pd va = get_pte (v_mem s) pd va) → Q (-1) s') →
  (∀ s' fl', pt_inv pd fl' s' →
    (∀ va, is_u32 va → get_pte (v_mem s') pd va = mapped (get_pte (v_mem s) pd) a pa perm 1 va) →
    wp k Q s') →
  wp (pte ← walkpgdir pd a true;
      if pte =? 0 then mret (-1)
      else
        e ← gets (λ s, load32 (v_mem s) pte);
        if negb (Z.land e PTE_P =? 0) then panic "remap"
        else modify (on_mem (λ m, store32 m pte (Z.lor (Z.lor pa perm) PTE_P)));; k) Q s.
Proof.
  intros Hinv Ha Hua Hupa Hpam Hperm Hnp Hfail Hk.
  apply wp_bind. eapply wp_mono; [by apply (walkpgdir_wp s pd fl a)|]. cbn beta.
  intros r s1 (fl1&Hinv1&Hsame&Hr). destruct Hr as [[-> ->]|(Hr0&_&Hpr&Hr)].
  { apply wp_ret. by apply Hfail. }
  rewrite (proj2 (Z.eqb_neq r 0) Hr0). subst r. apply wp_bind, wp_gets.
  assert (load32 (v_mem s1) (pte_at (v_mem s1) pd a) = get_pte (v_mem s) pd a) as ->.
  { rewrite <-Hsame. unfold get_pte. by rewrite Hpr. }
  unfold present in Hnp. rewrite Hnp. apply wp_bind, wp_modify.
  assert (is_u32 (Z.lor (Z.lor pa perm) PTE_P)) as He.
  { apply lor_u32; [apply lor_u32|]; [done|unfold is_u32; lia|unfold is_u32, PTE_P; lia]. }
  destruct (store_pte_inv s1 pd fl1 a _ Hinv1 Hpr He) as [G1 G2].
  apply (Hk _ fl1); [done|]. intros va Hva. rewrite G2, Hsame. by apply mapped_step.
Qed.

Lemma mappages_loop_wp n fuel s pd fl a pa perm :
  pt_inv pd fl s → (n < fuel)%nat → a mod PGSIZE = 0 → pa mod PGSIZE = 0 → 0 ≤ a → 0 ≤ pa →
  a + PGSIZE * Z.of_nat n + PGSIZE ≤ 4294967296 → pa + PGSIZE * Z.of_nat n + PGSIZE ≤ 4294967296 →
  0 ≤ perm < 4096 →
  (∀ va, a ≤ va < a + PGSIZE * Z.of_nat n + PGSIZE → present (get_pte (v_mem s) pd va) = false) →
  wp (mappages_loop fuel pd a (a + PGSIZE * Z.of_nat n) pa perm) (λ r s', ∃ fl' k,
    pt_inv pd fl' s' ∧ (r = 0 ∧ k = S n ∨ r = -1 ∧ (k ≤ n)%nat ∧ fl' = []) ∧
    ∀ va, is_u32 va → get_pte (v_mem s') pd va = mapped (get_pte (v_mem s) pd) a pa perm k va) s.
Proof.
  revert fuel s fl a pa. induction n as [|n IH];
    intros fuel s fl a pa Hinv Hfuel Ha Hpam Ha0 Hpa0 Htop Hptop Hperm Hnp;
    (destruct fuel as [|fuel]; [lia|]); cbn [mappages_loop];
    (eapply map_one; [exact Hinv|done|unfold is_u32, PGSIZE in *; lia|unfold is_u32, PGSIZE in *; lia|
       done|done|apply Hnp; unfold PGSIZE in *; lia| |]).
  - intros s' Hinv' Hsame. exists [], O. split; [done|]. split; [by right|].
    intros va Hva. rewrite Hsame. unfold mapped. zcases.
  - intros s' fl' Hinv' Hm. rewrite (proj2 (Z.eqb_eq _ _)) by lia. apply wp_ret.
    exists fl', 1%nat. auto.
  - intros s' Hinv' Hsame. exists [], O. split; [done|]. split; [right; split_and!; (done || lia)|].
    intros va Hva. rewrite Hsame. unfold mapped. zcases.
  - intros s' fl' Hinv' Hm. rewrite (proj2 (Z.eqb_neq _ _)) by (unfold PGSIZE in *; lia).
    rewrite !u32_id by (unfold is_u32, PGSIZE in *; lia).
    replace (a + PGSIZE * Z.of_nat (S n)) with (a + PGSIZE + PGSIZE * Z.of_nat n) by lia.
    eapply wp_mono.
    { apply (IH fuel s' fl'); try done; try (unfold PGSIZE in *; lia).
      - unfold PGSIZE in *. zdm.
      - unfold PGSIZE in *. zdm.
      - intros va Hva. rewrite Hm by (unfold is_u32, PGSIZE in *; lia).
        unfold mapped. rewrite (proj2 (Z.ltb_ge _ _)) by (unfold PGSIZE in *; lia).
        rewrite andb_false_r. apply Hnp. unfold PGSIZE in *. lia. }
    cbn beta. intros r s2 (fl2&k&Hinv2&Hr&Hg). exists fl2, (S k). split; [done|].
    split; [destruct Hr as [[-> ->]|(->&?&->)]; [by left|right; split_and!; (done || lia)]|].
    intros va Hva. rewrite Hg by done. rewrite <-mapped_next by done.
    by apply mapped_ext, Hm.
Qed.

(** Mapping a range of free virtual pages: [mappages] on a page-aligned
    range returns, and afterwards the page tables represent the old function
    updated on the pages of the range, each mapped to the next physical page
    with the permissions given; the directory and its tables are still
    distinct pages that are not free.  It fails with -1 only when memory for
    a page table ran out, having mapped a prefix of the range. *)
Theorem mappages_maps s pd fl va n pa perm :
  pt_inv pd fl s → va mod PGSIZE = 0 → pa mod PGSIZE = 0 → 0 ≤ va → 0 ≤ pa → (0 < n)%nat →
  va + PGSIZE * Z.of_nat n ≤ 4294967296 → pa + PGSIZE * Z.of_nat n ≤ 4294967296 →
  0 ≤ perm < 4096 →
  (∀ x, va ≤ x < va + PGSIZE * Z.of_nat n → present (get_pte (v_mem s) pd x) = false) →
  wp (mappages pd va (PGSIZE * Z.of_nat n) pa perm) (λ r s', ∃ fl' k, pt_inv pd fl' s' ∧
    (r = 0 ∧ k = n ∨ r = -1 ∧ (k < n)%nat ∧ fl' = []) ∧
    ∀ x, is_u32 x → get_pte (v_mem s') pd x = mapped (get_pte (v_mem s) pd) va pa perm k x) s.
Proof.
  intros Hinv Hva Hpa Hva0 Hpa0 Hn Htop Hptop Hperm Hnp. unfold mappages.
  destruct n as [|n]; [lia|].
  assert (PGROUNDDOWN va = va) as E1.
  { rewrite PGROUNDDOWN_eq by (unfold is_u32, PGSIZE in *; lia). lia. }
  assert (PGROUNDDOWN (va +u PGSIZE * Z.of_nat (S n) -u 1) = va + PGSIZE * Z.of_nat n) as E2.
  { assert (va +u PGSIZE * Z.of_nat (S n) -u 1 = va + PGSIZE * Z.of_nat n + 4095) as ->.
    { unfold u32, PGSIZE in *. zdm. }
    rewrite PGROUNDDOWN_eq by (unfold is_u32, PGSIZE in *; lia). unfold PGSIZE in *. zdm. }
  rewrite E1, E2. eapply wp_mono.
  { apply (mappages_loop_wp n _ s pd fl va pa perm); try done; try (unfold PGSIZE in *; lia).
    - rewrite u32_id by (unfold is_u32, PGSIZE in *; lia).
      replace (va + PGSIZE * Z.of_nat n - va) with (Z.of_nat n * PGSIZE) by lia.
      rewrite Z.div_mul by done. lia.
    - intros x Hx. apply Hnp. unfold PGSIZE in *. lia. }
  cbn beta. intros r s' (fl'&k&?&Hr&?). exists fl', k.
  split_and!; [done| |done]. destruct Hr as [[-> ->]|(->&?&->)]; [by left|right].
  split_and!; (done || lia).
Qed.
End pt.

(** ** Witnesses *)

(** A zeroed machine with one free page and an empty page directory. *)
Definition demo_pd : Z := demo_end + PGSIZE.
Definition demo_vst : vst := Vst (Kst (λ _, 0) demo_end 0 false) 0 0 [] 0 0 0 0 [].

Lemma demo_vst_inv : pt_inv demo_end demo_pd [demo_end] demo_vst.
Proof.
  split.
  - split; [done|constructor; [exact demo_page|constructor]| |done]. apply NoDup_singleton.
  - vm_compute. split; [discriminate|reflexivity].
  - split.
    + intros x. vm_compute. split; [discriminate|reflexivity].
    + vm_compute. repeat split; discriminate.
    + intros H%list_elem_of_singleton. vm_compute in H. discriminate.
    + intros i Hi Hp. vm_compute in Hp. discriminate.
    + intros i j Hi Hj Hp. vm_compute in Hp. discriminate.
Qed.

(** One user page at address 0. *)
Lemma mappages_maps_witness :
  wp (mappages demo_pd 0 (PGSIZE * Z.of_nat 1) 4194304 6) (λ r s', r = 0 →
    get_pte (v_mem s') demo_pd 5 = 4194304 + 7) demo_vst.
Proof.
  eapply wp_mono.
  - apply (mappages_maps demo_end demo_vst demo_pd [demo_end] 0 1 4194304 6).
    + exact demo_vst_inv.
    + reflexivity.
    + reflexivity.
    + lia.
    + lia.
    + lia.
    + vm_compute. discriminate.
    + vm_compute. discriminate.
    + lia.
    + intros x Hx. vm_compute. reflexivity.
  - cbn beta. intros r s' (fl'&k&_&Hr&Hg) ->.
    destruct Hr as [[_ ->]|[H _]]; [|discriminate H].
    rewrite Hg by (unfold is_u32; lia). vm_compute. reflexivity.
Defined.
