(* ===== verification/VmSpace.v ===== *)
(** * Address spaces: user memory under [setupkvm], [copyuvm], [deallocuvm], [freevm]

    A page directory owns its own page, the pages of its page tables and, below
    the kernel, the pages that it maps.  Operations on one directory take
    pages from the free list or give them back, and leave all other pages
    alone, so that the address spaces of processes stay apart. *)

From S2P Require Import Prelude Params CString Cprintf Kalloc Vm VmThms.

Lemma wp_and {S A} (m : M S A) (P Q : A → S → Prop) s : wp m P s → wp m Q s → wp m (λ a s', P a s' ∧ Q a s') s.
Proof. unfold wp. by destruct (m s). Qed.

(** The pages of a directory and its page tables. *)
Definition dir_page (m : mem) (pd q : Z) : Prop :=
  q = pd ∨ ∃ i, 0 ≤ i < 1024 ∧ present (pde m pd i) = true ∧ q = tab m pd i.
(** The bytes of page [q] are the same in both memories. *)
Definition keeps (q : Z) (m m' : mem) : Prop := ∀ x, q ≤ x < q + PGSIZE → m' x = m x.
Definition off_page (x q : Z) : Prop := x < q ∨ q + PGSIZE ≤ x.

Section space.
Context (end_ : Z).
Abbreviation kp := (kpage end_).
Abbreviation dok := (dir_ok end_).

Lemma dir_page_ok m pd fl q : dok m pd fl → dir_page m pd q → kp q ∧ q ∉ fl.
Proof. intros Hd [->|(i&Hi&Hp&->)]; [split; apply Hd|]. by destruct (do_tab _ _ _ _ Hd i Hi Hp) as (?&?&?). Qed.
Lemma keeps_word q m m' i : keeps q m m' → 0 ≤ i < 1024 → load32 m' (q + 4 * i) = load32 m (q + 4 * i).
Proof. intros Hk Hi. apply load32_ext. intros x Hx. apply Hk. unfold PGSIZE. lia. Qed.
Lemma off_other p q x : kp p → kp q → p ≠ q → q ≤ x < q + PGSIZE → off_page x p.
Proof. intros Hp Hq Hne Hx. unfold off_page. destruct (kpage_disjoint end_ p q Hp Hq Hne); lia. Qed.

(** A directory whose pages are kept is the same directory. *)
Lemma dir_frame m m' pd fl fl' :
  dok m pd fl → (∀ q, dir_page m pd q → keeps q m m' ∧ q ∉ fl') → bytes_ok m' →
  dok m' pd fl' ∧ (∀ va, get_pte m' pd va = get_pte m pd va) ∧ (∀ q, dir_page m' pd q ↔ dir_page m pd q).
Proof.
  intros Hd Hk Hb. destruct (Hk pd) as [Hk0 Hn0]; [by left|].
  assert (Hpde : ∀ i, 0 ≤ i < 1024 → pde m' pd i = pde m pd i) by (intros i Hi; by apply keeps_word).
  assert (Htab : ∀ i, 0 ≤ i < 1024 → tab m' pd i = tab m pd i) by (intros i Hi; unfold tab; by rewrite Hpde).
  split_and!.
  - split; [done|apply Hd|done| |].
    + intros i Hi. rewrite Hpde, Htab by done. intros Hp. destruct (do_tab _ _ _ _ Hd i Hi Hp) as (?&_&?).
      split_and!; [done| |done]. apply Hk. right. eauto.
    + intros i j Hi Hj. rewrite !Hpde, !Htab by done. by apply Hd.
  - intros va. pose proof (PDX_range va). pose proof (PTX_range va). unfold get_pte. rewrite Hpde by done.
    destruct (present (pde m pd (PDX va))) eqn:Hp; [|done]. unfold pte_at. rewrite Htab by done.
    apply keeps_word; [|done]. apply Hk. right. eauto.
  - intros q. split; intros [->|(i&Hi&Hp&->)]; [by left| |by left|]; right; exists i;
      (split; [done|]); [by rewrite Hpde, Htab in *|by rewrite Hpde, Htab].
Qed.

(** ** Growing a directory *)

(** From [m] with free pages [fl] to [m'] with [fl'], only the pages of the
    directory changed, and those that it has gained were taken from the free
    list. *)
Record grows (pd : Z) (m : mem) (fl : list Z) (m' : mem) (fl' : list Z) : Prop := {
  gr_taken : ∃ taken, fl = taken ++ fl' ∧ ∀ q, dir_page m' pd q ↔ dir_page m pd q ∨ q ∈ taken;
  gr_frame : ∀ x, (∀ q, dir_page m' pd q → off_page x q) → m' x = m x;
}.
Lemma grows_refl pd m fl : grows pd m fl m fl.
Proof. split; [|done]. exists []. split; [done|]. intros q. rewrite elem_of_nil. tauto. Qed.
Lemma grows_trans pd m fl m1 fl1 m2 fl2 : grows pd m fl m1 fl1 → grows pd m1 fl1 m2 fl2 → grows pd m fl m2 fl2.
Proof.
  intros [(t1&->&H1) F1] [(t2&->&H2) F2]. split.
  - exists (t1 ++ t2). split; [by rewrite app_assoc|]. intros q. rewrite H2, H1, elem_of_app. tauto.
  - intros x Hx. rewrite F2 by done. apply F1. intros q Hq. apply Hx, H2. by left.
Qed.
(** A page of another owner is kept. *)
Lemma grows_keeps pd m fl m' fl' q :
  grows pd m fl m' fl' → dok m' pd fl' → kp q → (q ∉ fl) → ¬ dir_page m pd q → keeps q m m' ∧ (q ∉ fl') ∧ ¬ dir_page m' pd q.
Proof.
  intros [(t&->&Ht) F] Hd Hq Hn Hnd. apply not_elem_of_app in Hn as [Hnt Hn].
  assert (¬ dir_page m' pd q) as Hnd' by (rewrite Ht; tauto). split_and!; [|done|done].
  intros x Hx. apply F. intros p Hp. apply (off_other p q x); [by eapply dir_page_ok|done| |done]. by intros ->.
Qed.
Lemma grows_other pd m fl m' fl' pd2 :
  grows pd m fl m' fl' → dok m' pd fl' → dok m pd2 fl → (∀ q, dir_page m pd2 q → ¬ dir_page m pd q) →
  dok m' pd2 fl' ∧ (∀ va, get_pte m' pd2 va = get_pte m pd2 va) ∧ (∀ q, dir_page m' pd2 q ↔ dir_page m pd2 q) ∧
  (∀ q, dir_page m' pd2 q → ¬ dir_page m' pd q).
Proof.
  intros Hg Hd Hd2 Hdis.
  assert (Hk : ∀ q, dir_page m pd2 q → keeps q m m' ∧ (q ∉ fl') ∧ ¬ dir_page m' pd q).
  { intros q Hq. destruct (dir_page_ok _ _ _ _ Hd2 Hq). eapply grows_keeps; eauto. }
  destruct (dir_frame m m' pd2 fl fl' Hd2) as (H1&H2&H3); [|apply Hd|].
  - intros q Hq. destruct (Hk q Hq) as (?&?&?). done.
  - split_and!; [done..|]. intros q Hq%H3. by apply Hk.
Qed.

Lemma store_grows m pd fl va e :
  dok m pd fl → present (pde m pd (PDX va)) = true → is_u32 e → grows pd m fl (store32 m (pte_at m pd va) e) fl.
Proof.
  intros Hd Hp He. destruct (store_pte end_ m pd fl va e Hd Hp He) as (_&Hpde&_&_).
  pose proof (PDX_range va). pose proof (PTX_range va).
  assert (Hdp : ∀ q, dir_page (store32 m (pte_at m pd va) e) pd q ↔ dir_page m pd q).
  { intros q. unfold dir_page, tab. split; intros [->|(i&Hi&Hpi&->)]; [by left| |by left|]; right; exists i; (split; [done|]).
    - by rewrite Hpde in *.
    - by rewrite Hpde. }
  split.
  - exists []. split; [done|]. intros q. rewrite Hdp, elem_of_nil. tauto.
  - intros x Hx. apply store32_ne. destruct (Hx (tab m pd (PDX va))) as [?|?].
    + apply Hdp. right. eauto.
    + unfold pte_at. lia.
    + unfold pte_at, PGSIZE in *. lia.
Qed.

(** ** walkpgdir and mappages *)

Abbreviation inv := (pt_inv end_).
Lemma chain_unique m h l l' : Forall kp l → Forall kp l' → chain m h l → chain m h l' → l = l'.
Proof.
  intros Hl. revert h l'. induction Hl as [|v l Hv Hl IH]; intros h l' Hl'; destruct Hl' as [|v' l' Hv' Hl']; cbn [chain]; try done.
  - intros -> [E _]. subst v'. unfold kpage, KERNBASE in Hv'. lia.
  - intros [-> _] ->. unfold kpage, KERNBASE in Hv. lia.
  - intros [-> H] [<- H']. f_equal. by eapply IH.
Qed.
Lemma free_unique k l l' : free_pages end_ k l → free_pages end_ k l' → l = l'.
Proof. intros [] []. by eapply chain_unique. Qed.

Lemma add_table_grows m pd v fl va :
  dok m pd (v :: fl) → kp v → Forall kp fl → NoDup (v :: fl) → present (pde m pd (PDX va)) = false →
  grows pd m (v :: fl) (store32 (memset m v 0 PGSIZE) (pd + 4 * PDX va) (Z.lor (Z.lor (Z.lor (V2P v) PTE_P) PTE_W) PTE_U)) fl.
Proof.
  intros Hd Hv Hfl Hnd Hnp. pose proof (PDX_range va) as Hi.
  destruct (new_pde end_ v Hv) as (He1&He2&He3).
  assert (Hpv : pd ≠ v) by (intros ->; apply (do_free _ _ _ _ Hd); by left).
  set (e := Z.lor _ PTE_U) in *. set (m' := store32 _ _ e).
  assert (Hpde : ∀ i, 0 ≤ i < 1024 → pde m' pd i = if i =? PDX va then e else pde m pd i).
  { intros i Hir. unfold pde, m'. destruct (Z.eqb_spec i (PDX va)) as [->|]; [by apply load32_store32|].
    rewrite load32_store32_ne by lia. apply keeps_word; [|done]. intros x Hx. rewrite memset_correct by done.
    destruct (kpage_disjoint end_ pd v (do_page _ _ _ _ Hd) Hv Hpv); zcases. }
  assert (Hdp : ∀ q, dir_page m' pd q ↔ dir_page m pd q ∨ q ∈ [v]).
  { intros q. rewrite list_elem_of_singleton. unfold dir_page, tab. split.
    - intros [->|(i&Hir&Hp&->)]; [by do 2 left|]. rewrite Hpde in * by done. destruct (Z.eqb_spec i (PDX va)); [by right|].
      left. right. eauto.
    - intros [[->|(i&Hir&Hp&->)]| ->]; [by left| |].
      + right. exists i. rewrite Hpde by done. destruct (Z.eqb_spec i (PDX va)) as [->|]; [congruence|done].
      + right. exists (PDX va). rewrite Hpde, Z.eqb_refl by done. done. }
  split.
  - by exists [v].
  - intros x Hx. assert (off_page x v) as Hxv by (apply Hx, Hdp; right; by left).
    assert (off_page x pd) as Hxp by (apply Hx; by left). unfold off_page in *.
    unfold m'. rewrite store32_ne by (unfold PGSIZE in *; lia). rewrite memset_correct by done. zcases.
Qed.
Lemma walkpgdir_grows s pd fl va :
  inv pd fl s → wp (walkpgdir pd va true) (λ r s', ∃ fl', inv pd fl' s' ∧ grows pd (v_mem s) fl (v_mem s') fl') s.
Proof.
  intros Hinv. pose proof Hinv as [Hf Hh Hd]. unfold walkpgdir. apply wp_bind, wp_gets.
  destruct (negb (Z.land (load32 (v_mem s) (pd + 4 * PDX va)) PTE_P =? 0)) eqn:Hp.
  { apply wp_ret. exists fl. split; [done|apply grows_refl]. }
  cbn [negb]. apply wp_bind. eapply wp_mono; [by apply (vm_kalloc_wp end_ s pd fl)|]. cbn beta.
  intros r s1 (Hm&_&Hr). destruct fl as [|v fl].
  - destruct Hr as [-> Hinv1]. apply wp_ret. exists []. rewrite Hm. split; [done|apply grows_refl].
  - destruct Hr as (->&Hv&Hnd&Hpg&Hf1&Hh1&Hd1).
    rewrite (proj2 (Z.eqb_neq v 0)) by (destruct Hv as (_&_&Hv&_); unfold KERNBASE in Hv; lia).
    apply wp_bind, wp_modify, wp_bind, wp_modify, wp_ret.
    assert (present (pde (v_mem s1) pd (PDX va)) = false) as Hnp by (by rewrite Hm).
    destruct (add_table end_ _ _ _ _ va Hd1 Hv Hpg Hnd Hnp) as (G1&G2&G3&G4&G5).
    exists fl. split; [split; [exact (free_pages_frame _ _ _ _ Hf1 G5)|done|done]|].
    rewrite <- Hm. exact (add_table_grows _ _ _ _ va Hd1 Hv Hpg Hnd Hnp).
Qed.

(** However [mappages] ends, it only grows the directory. *)
Lemma mappages_loop_grows n s pd fl a last pa perm r s' :
  inv pd fl s → is_u32 pa → 0 ≤ perm < 4096 → mappages_loop n pd a last pa perm s = Ok r s' →
  ∃ fl', inv pd fl' s' ∧ grows pd (v_mem s) fl (v_mem s') fl'.
Proof.
  revert s fl a pa. induction n as [|n IH]; intros s fl a pa Hinv Hpa Hperm; cbn [mappages_loop]; [done|].
  intros E. apply bind_Ok in E as (pte&s1&E1&E).
  destruct (wp_elim _ _ _ (wp_and _ _ _ _ (walkpgdir_wp end_ s pd fl a Hinv) (walkpgdir_grows s pd fl a Hinv)))
    as (pte'&s1'&E1'&(fl1&Hinv1&_&Hr)&(fl1'&Hinv1'&Hg)).
  rewrite E1 in E1'. injection E1' as <- <-. assert (fl1' = fl1) as -> by (by eapply free_unique; [apply Hinv1'|apply Hinv1]).
  destruct Hr as [[-> ->]|(Hr0&_&Hpr&->)].
  { injection E as <- <-. eauto. }
  rewrite (proj2 (Z.eqb_neq _ 0) Hr0) in E. apply bind_Ok in E as (e&s2&[= <- <-]&E).
  destruct (negb _); [done|]. apply bind_Ok in E as ([]&s2&[= <-]&E).
  assert (is_u32 (Z.lor (Z.lor pa perm) PTE_P)) as He.
  { apply lor_u32; [apply lor_u32|]; [done|unfold is_u32; lia|unfold is_u32, PTE_P; lia]. }
  destruct (store_pte_inv end_ s1 pd fl1 a _ Hinv1 Hpr He) as [G1 _].
  assert (Hg2 : grows pd (v_mem s) fl (v_mem (on_mem (λ m, store32 m (pte_at (v_mem s1) pd a) (Z.lor (Z.lor pa perm) PTE_P)) s1)) fl1).
  { eapply grows_trans; [exact Hg|]. apply store_grows; [apply Hinv1|done|done]. }
  destruct (a =? last); [injection E as <- <-; eauto|].
  destruct (IH _ _ _ _ G1 (u32_range _) Hperm E) as (fl2&Hinv2&Hg3). exists fl2. split; [done|]. by eapply grows_trans.
Qed.
Lemma mappages_grows s pd fl va size pa perm r s' :
  inv pd fl s → is_u32 pa → 0 ≤ perm < 4096 → mappages pd va size pa perm s = Ok r s' →
  ∃ fl', inv pd fl' s' ∧ grows pd (v_mem s) fl (v_mem s') fl'.
Proof. apply mappages_loop_grows. Qed.

Lemma map_pages s pd fl va n pa perm :
  inv pd fl s → va mod PGSIZE = 0 → pa mod PGSIZE = 0 → 0 ≤ va → 0 ≤ pa → (0 < n)%nat →
  va + PGSIZE * Z.of_nat n ≤ 4294967296 → pa + PGSIZE * Z.of_nat n ≤ 4294967296 → 0 ≤ perm < 4096 →
  (∀ x, va ≤ x < va + PGSIZE * Z.of_nat n → present (get_pte (v_mem s) pd x) = false) →
  wp (mappages pd va (PGSIZE * Z.of_nat n) pa perm) (λ r s', ∃ fl' k, inv pd fl' s' ∧
    (r = 0 ∧ k = n ∨ r = -1 ∧ (k < n)%nat ∧ fl' = []) ∧
    (∀ x, is_u32 x → get_pte (v_mem s') pd x = mapped (get_pte (v_mem s) pd) va pa perm k x) ∧
    grows pd (v_mem s) fl (v_mem s') fl') s.
Proof.
  intros Hinv Hva Hpa Hva0 Hpa0 Hn H1 H2 Hperm Hnp.
  destruct (wp_elim _ _ _ (mappages_maps end_ s pd fl va n pa perm Hinv Hva Hpa Hva0 Hpa0 Hn H1 H2 Hperm Hnp)) as (r&s'&E&fl'&k&Hi&Hr&Hg).
  eapply wp_intro; [exact E|]. exists fl', k. split_and!; try done.
  destruct (mappages_grows s pd fl va (PGSIZE * Z.of_nat n) pa perm r s' Hinv) as (fl2&Hi2&Hg2); [unfold is_u32, PGSIZE in *; lia|done|done|].
  by rewrite (free_unique _ _ _ (pi_free _ _ _ _ Hi) (pi_free _ _ _ _ Hi2)).
Qed.

(** ** User pages *)

(** The page that is mapped at a user address, by its kernel address. *)
Definition upg (m : mem) (pd va : Z) : Z := P2V (PTE_ADDR (get_pte m pd va)).
Definition umapped (m : mem) (pd va : Z) : Prop := 0 ≤ va < KERNBASE ∧ present (get_pte m pd va) = true.
(** The user pages of a directory are its own: no two addresses share one, and
    none is free or part of the page tables. *)
Record user_ok (m : mem) (pd : Z) (fl : list Z) : Prop := {
  uo_dir : dok m pd fl;
  uo_page va : umapped m pd va → kp (upg m pd va) ∧ (upg m pd va ∉ fl) ∧ ¬ dir_page m pd (upg m pd va);
  uo_inj va va' : umapped m pd va → umapped m pd va' → upg m pd va = upg m pd va' → va / PGSIZE = va' / PGSIZE;
}.

Lemma get_pte_same_page m pd va va' : is_u32 va → is_u32 va' → va / PGSIZE = va' / PGSIZE → get_pte m pd va = get_pte m pd va'.
Proof.
  unfold is_u32, PGSIZE. intros H H' E. assert (PDX va = PDX va') as E1 by (rewrite !PDX_eq; zdm).
  assert (PTX va = PTX va') as E2 by (rewrite !PTX_eq; zdm). unfold get_pte, pte_at. by rewrite E1, E2.
Qed.
Lemma same_indices va va' : is_u32 va → is_u32 va' → (PDX va =? PDX va') && (PTX va =? PTX va') = bool_decide (va / PGSIZE = va' / PGSIZE).
Proof.
  intros H H'. case_bool_decide as E.
  - assert (PDX va = PDX va') as -> by (rewrite !PDX_eq; unfold is_u32, PGSIZE in *; zdm).
    assert (PTX va = PTX va') as -> by (rewrite !PTX_eq; unfold is_u32, PGSIZE in *; zdm). by rewrite !Z.eqb_refl.
  - apply andb_false_iff. destruct (Z.eqb_spec (PDX va) (PDX va')) as [E1|]; [|by left].
    destruct (Z.eqb_spec (PTX va) (PTX va')) as [E2|]; [|by right]. by destruct E; apply same_page.
Qed.

(** ** Unmapping *)

(** The pages mapped at addresses in [R] have become free, and nothing else has
    changed. *)
Record unmaps (pd : Z) (R : Z → bool) (m : mem) (fl : list Z) (m' : mem) (fl' : list Z) : Prop := {
  un_free q : q ∈ fl' ↔ q ∈ fl ∨ ∃ va, umapped m pd va ∧ R va = true ∧ q = upg m pd va;
  un_pte va : is_u32 va → get_pte m' pd va = if R va && present (get_pte m pd va) then 0 else get_pte m pd va;
  un_dir q : dir_page m' pd q ↔ dir_page m pd q;
  un_keeps q : kp q → (q ∉ fl') → ¬ dir_page m pd q → keeps q m m';
}.
Lemma unmaps_none pd R m fl : (∀ va, R va = true → present (get_pte m pd va) = false) → unmaps pd R m fl m fl.
Proof.
  intros HR. split; [|intros va _|done|done].
  - intros q. split; [by left|]. intros [?|(va&[_ Hp]&HRv&_)]; [done|]. rewrite HR in Hp by done. done.
  - destruct (R va) eqn:E; [|done]. by rewrite HR.
Qed.
Lemma unmaps_trans pd R1 R2 m fl m1 fl1 m2 fl2 :
  unmaps pd R1 m fl m1 fl1 → unmaps pd R2 m1 fl1 m2 fl2 → unmaps pd (λ va, R1 va || R2 va) m fl m2 fl2.
Proof.
  intros [F1 P1 D1 K1] [F2 P2 D2 K2].
  assert (Hu : ∀ va, umapped m1 pd va ↔ umapped m pd va ∧ R1 va = false).
  { intros va. unfold umapped. split.
    - intros [Hr Hp]. rewrite P1 in Hp by (unfold is_u32, KERNBASE in *; lia). destruct (R1 va); cbn [andb] in Hp; [|done].
      by destruct (present (get_pte m pd va)) eqn:E; rewrite ?E in Hp.
    - intros [[Hr Hp] HR]. split; [done|]. rewrite P1 by (unfold is_u32, KERNBASE in *; lia). by rewrite HR. }
  assert (Hg : ∀ va, umapped m1 pd va → upg m1 pd va = upg m pd va).
  { intros va Hva. pose proof (proj2 (proj1 (Hu va) Hva)) as HR. destruct Hva as [Hr _]. unfold upg.
    rewrite P1 by (unfold is_u32, KERNBASE in *; lia). by rewrite HR. }
  split.
  - intros q. rewrite F2, F1. split.
    + intros [[?|(va&?&?&->)]|(va&Hm&HR&->)]; [by left|right; exists va; split_and!; [done|by rewrite orb_true_iff; left|done]|].
      right. exists va. rewrite (Hg va Hm). apply Hu in Hm as [Hm _]. split_and!; [done|by rewrite orb_true_iff; right|done].
    + intros [?|(va&Hm&HR&->)]; [by do 2 left|]. destruct (R1 va) eqn:E1; [left; right; eauto|]. right. exists va.
      assert (umapped m1 pd va) as Hm1 by (by apply Hu). rewrite (Hg va Hm1). by split_and!.
  - intros va Hva. rewrite P2, P1 by done. destruct (R1 va), (R2 va); cbn [andb orb]; try done;
      destruct (present (get_pte m pd va)) eqn:E; rewrite ?E; done.
  - intros q. by rewrite D2, D1.
  - intros q Hq Hn Hd x Hx. rewrite (K2 q) by (done || by rewrite D1). apply (K1 q); try done. rewrite F2 in Hn. tauto.
Qed.
Lemma unmaps_ext pd R R' m fl m' fl' : (∀ va, is_u32 va → R va = R' va) → unmaps pd R m fl m' fl' → unmaps pd R' m fl m' fl'.
Proof.
  intros HR [F P D K]. split; [|intros va Hva; by rewrite <- HR, P|done|done].
  intros q. rewrite F. split; (intros [?|(va&Hm&HRv&->)]; [by left|]); right; exists va;
    (split_and!; [done| |done]); destruct Hm as [Hr _]; [rewrite <- HR|rewrite HR]; try done; unfold is_u32, KERNBASE in *; lia.
Qed.
Lemma unmaps_user pd R m fl m' fl' :
  unmaps pd R m fl m' fl' → (∀ va va', is_u32 va → is_u32 va' → va / PGSIZE = va' / PGSIZE → R va = R va') →
  dok m' pd fl' → user_ok m pd fl → user_ok m' pd fl'.
Proof.
  intros [F P D K] HRp Hd [_ Hp Hi].
  assert (Hu : ∀ va, umapped m' pd va → umapped m pd va ∧ R va = false ∧ upg m' pd va = upg m pd va).
  { intros va [Hr Hpr]. unfold umapped, upg. rewrite P in * by (unfold is_u32, KERNBASE in *; lia).
    destruct (R va); cbn [andb] in *; [|done]. by destruct (present (get_pte m pd va)) eqn:E; rewrite ?E in Hpr. }
  split; [done| |].
  - intros va Hva. destruct (Hu va Hva) as (Hm&HR&->). destruct (Hp va Hm) as (H1&H2&H3). split_and!; [done| |by rewrite D].
    rewrite F. intros [?|(va'&Hm'&HR'&E)]; [done|]. pose proof (Hi va va' Hm Hm' E) as E'.
    rewrite (HRp va va') in HR; [congruence| | |done]; destruct Hm as [? _], Hm' as [? _]; unfold is_u32, KERNBASE in *; lia.
  - intros va va' Hva Hva'. destruct (Hu va Hva) as (Hm&_&->), (Hu va' Hva') as (Hm'&_&->). by apply Hi.
Qed.

Section freeing.
Context (He : KERNBASE < end_).

Lemma kfree_bytes k v s' : kfree end_ v k = Ok tt s' → bytes_ok (k_mem k) → bytes_ok (k_mem s').
Proof.
  unfold kfree. destruct (_ || _); [done|]. intros E Hb. apply bind_Ok in E as ([]&k1&[= <-]&E).
  apply bind_Ok in E as ([]&k2&E2&E). apply bind_Ok in E as (f&k3&[= <- <-]&E). apply bind_Ok in E as ([]&k4&[= <-]&E).
  apply bind_Ok in E as ([]&k5&[= <-]&E).
  assert (k_mem k2 = memset (k_mem k) v 1 PGSIZE) as E2'.
  { unfold kmem_acquire in E2. repeat case_match; by simplify_eq. }
  assert (k_mem s' = store32 (k_mem k2) v (k_freelist k2)) as ->.
  { unfold kmem_release in E. repeat case_match; by simplify_eq. }
  rewrite E2'. by apply store32_bytes, memset_bytes.
Qed.
Lemma vm_kfree_wp s fl v :
  free_pages end_ (v_k s) fl → is_u32 (k_freelist (v_k s)) → bytes_ok (v_mem s) → kp v → (v ∉ fl) →
  wp (vm_kfree end_ v) (λ _ s', free_pages end_ (v_k s') (v :: fl) ∧ is_u32 (k_freelist (v_k s')) ∧ bytes_ok (v_mem s') ∧
    ∀ x, off_page x v → v_mem s' x = v_mem s x) s.
Proof.
  intros Hf Hh Hb Hv Hn. destruct (wp_elim _ _ _ (kfree_wp end_ (v_k s) fl v ltac:(lia) Hf Hh Hv Hn)) as ([]&k&E&Hf'&Eh&_&_&Hm).
  eapply (wp_intro _ _ _ tt (on_k (λ _, k) s)); [unfold vm_kfree, lift_k; by rewrite E|]. unfold v_mem. cbn [v_k on_k].
  split_and!; [done|rewrite Eh; by eapply kpage_u32|by eapply kfree_bytes|exact Hm].
Qed.

(** Unmapping the page at [a]. *)
Definition at_page (a va : Z) : bool := bool_decide (va / PGSIZE = a / PGSIZE).
Lemma free_one_wp s pd fl a (Q : unit → vst → Prop) :
  inv pd fl s → user_ok (v_mem s) pd fl → umapped (v_mem s) pd a → present (pde (v_mem s) pd (PDX a)) = true →
  (∀ s' fl', inv pd fl' s' → unmaps pd (at_page a) (v_mem s) fl (v_mem s') fl' → Q tt s') →
  wp (vm_kfree end_ (upg (v_mem s) pd a);; modify (on_mem (λ m, store32 m (pte_at (v_mem s) pd a) 0))) Q s.
Proof.
  intros [Hf Hh Hd] Hu Ha Hpd HQ. destruct (uo_page _ _ _ Hu a Ha) as (Hv&Hn&Hnd). set (v := upg (v_mem s) pd a) in *.
  assert (is_u32 a) as Hua by (destruct Ha as [? _]; unfold is_u32, KERNBASE in *; lia).
  apply wp_bind. eapply wp_mono; [apply (vm_kfree_wp s fl v Hf Hh (do_bytes _ _ _ _ Hd) Hv Hn)|]. cbn beta.
  intros [] s1 (Hf1&Hh1&Hb1&Hm1). apply wp_modify.
  assert (Hk1 : ∀ q, kp q → q ≠ v → keeps q (v_mem s) (v_mem s1)).
  { intros q Hq Hne x Hx. apply Hm1. by apply (off_other v q x). }
  destruct (dir_frame (v_mem s) (v_mem s1) pd fl (v :: fl) Hd) as (Hd1&Hg1&Hdp1); [|done|].
  { intros q Hq. destruct (dir_page_ok _ _ _ _ Hd Hq) as [Hkq Hnq]. assert (q ≠ v) by (by intros ->).
    split; [by apply Hk1|]. by apply not_elem_of_cons. }
  assert (present (pde (v_mem s1) pd (PDX a)) = true ∧ pte_at (v_mem s1) pd a = pte_at (v_mem s) pd a) as [Hpd1 Ept].
  { assert (pde (v_mem s1) pd (PDX a) = pde (v_mem s) pd (PDX a)) as E.
    { apply keeps_word; [|apply PDX_range]. apply Hk1; [apply Hd|]. intros E. apply Hnd. left. done. }
    unfold pte_at, tab. by rewrite E. }
  rewrite <- Ept. destruct (store_pte_inv end_ s1 pd (v :: fl) a 0) as [Hi2 Hg2]; [by split|done|done|].
  set (s2 := on_mem _ s1) in *. destruct (store_grows (v_mem s1) pd (v :: fl) a 0 Hd1 Hpd1 ltac:(done)) as [(tk&Etk&Hdp2) Hfr].
  assert (tk = []) as -> by (apply (f_equal length) in Etk; rewrite length_app in Etk; destruct tk; [done|cbn in Etk; lia]).
  change (store32 _ _ 0) with (v_mem s2) in Hdp2, Hfr.
  apply (HQ s2 (v :: fl)); [done|]. split.
  - intros q. rewrite elem_of_cons. split.
    + intros [->|?]; [|by left]. right. exists a. split_and!; [done|by apply bool_decide_eq_true|done].
    + intros [?|(va&Hva&HR&->)]; [by right|left]. apply bool_decide_eq_true in HR. unfold v, upg. do 2 f_equal.
      apply get_pte_same_page; [|done|done]. destruct Hva as [? _]. unfold is_u32, KERNBASE in *. lia.
  - intros va Hva. rewrite Hg2, Hg1, same_indices by done. unfold at_page. case_bool_decide as E; cbn [andb]; [|done].
    rewrite (get_pte_same_page _ _ va a Hva Hua E). by rewrite (proj2 Ha).
  - intros q. rewrite Hdp2, Hdp1, elem_of_nil. tauto.
  - intros q Hq Hnq Hndq x Hx. apply not_elem_of_cons in Hnq as [Hne _]. rewrite Hfr; [by apply (Hk1 q)|].
    intros p Hp. rewrite Hdp2, elem_of_nil, Hdp1 in Hp. destruct Hp as [Hp|[]]. apply (off_other p q x); [exact (proj1 (dir_page_ok _ _ _ _ Hd Hp))|done| |done].
    by intros ->.
Qed.

(** The pages that [deallocuvm] goes through from [a] to [top]. *)
Definition in_range (a top va : Z) : bool := (a <=? va) && (va / PGSIZE * PGSIZE <? top).
Lemma in_range_page a top va va' : a mod PGSIZE = 0 → va / PGSIZE = va' / PGSIZE → in_range a top va = in_range a top va'.
Proof.
  intros Ha E. unfold in_range. rewrite E. f_equal. unfold PGSIZE in *. apply Z.mod_divide in Ha as [k ->]; [|done].
  destruct (Z.leb_spec (k * 4096) va), (Z.leb_spec (k * 4096) va'); try done; exfalso; zdm.
Qed.
Lemma in_range_next a top va : a mod PGSIZE = 0 → a < top → 0 ≤ a →
  at_page a va || in_range (a + PGSIZE) top va = in_range a top va.
Proof.
  intros Ha Ht H0. unfold at_page, in_range, PGSIZE in *. case_bool_decide as E; cbn [orb].
  - symmetry. apply andb_true_iff. rewrite Z.leb_le, Z.ltb_lt. zdm.
  - destruct (Z.leb_spec (a + 4096) va), (Z.leb_spec a va); cbn [andb]; try done; [lia|]. exfalso. zdm.
Qed.
(** The next page directory entry. *)
Definition next_dir (a : Z) : Z := (PGADDR (PDX a + 1) 0 0 -u PGSIZE) +u PGSIZE.
Lemma next_dir_eq a : 0 ≤ a < KERNBASE → next_dir a = (a / 4194304 + 1) * 4194304.
Proof.
  intros Ha. unfold next_dir, PGADDR. rewrite PDX_eq, !Z.lor_0_r. unfold KERNBASE, PGSIZE, PDXSHIFT in *.
  rewrite !Z.shiftl_mul_pow2 by lia. change (0 * 2 ^ PTXSHIFT) with 0. rewrite ?Z.lor_0_r.
  rewrite (Z.mod_small (a / 4194304)) by zdm. unfold u32. change (2 ^ 22) with 4194304. zdm.
Qed.
Lemma in_range_jump m pd a top va :
  0 ≤ a < KERNBASE → top ≤ KERNBASE → present (pde m pd (PDX a)) = false → in_range a top va = true →
  present (get_pte m pd va) = false ∨ in_range (next_dir a) top va = true.
Proof.
  intros Ha Ht Hp HR. rewrite next_dir_eq by done. unfold in_range in *. apply andb_true_iff in HR as [H1%Z.leb_le H2%Z.ltb_lt].
  destruct (Z.leb_spec ((a / 4194304 + 1) * 4194304) va); [right; cbn; by apply Z.ltb_lt|left].
  unfold get_pte. assert (PDX va = PDX a) as ->; [|by rewrite Hp].
  rewrite !PDX_eq. unfold KERNBASE, PGSIZE in *. zdm.
Qed.

Lemma deallocuvm_loop_wp n s pd fl a top :
  inv pd fl s → user_ok (v_mem s) pd fl → a mod PGSIZE = 0 → 0 ≤ a ≤ KERNBASE → 0 ≤ top ≤ KERNBASE →
  (0 < n)%nat → top - a ≤ PGSIZE * (Z.of_nat n - 1) →
  wp (deallocuvm_loop end_ n pd a top) (λ _ s', ∃ fl', inv pd fl' s' ∧ user_ok (v_mem s') pd fl' ∧
    unmaps pd (in_range a top) (v_mem s) fl (v_mem s') fl') s.
Proof.
  revert s fl a. induction n as [|n IH]; intros s fl a Hinv Hu Ha Ha0 Ht Hn Hfuel; [lia|]. cbn [deallocuvm_loop].
  destruct (Z.ltb_spec a top) as [Hlt|Hge].
  2:{ apply wp_ret. exists fl. split_and!; [done|done|]. apply unmaps_none. intros va HR. exfalso.
      apply andb_true_iff in HR as [H1%Z.leb_le H2%Z.ltb_lt]. unfold PGSIZE in *. zdm. }
  assert (Hn1 : (0 < n)%nat) by (unfold PGSIZE in *; lia). assert (is_u32 a) as Hua by (unfold is_u32, KERNBASE in *; lia).
  pose proof (PDX_range a) as Hi. pose proof (PTX_range a) as Hj. pose proof (pi_dir _ _ _ _ Hinv) as Hd.
  apply wp_bind. unfold walkpgdir. apply wp_bind, wp_gets. cbn [negb]. fold (pde (v_mem s) pd (PDX a)). fold (present (pde (v_mem s) pd (PDX a))).
  destruct (present (pde (v_mem s) pd (PDX a))) eqn:Hp; apply wp_ret.
  2:{ rewrite Z.eqb_refl. fold (next_dir a). eapply wp_mono.
      - apply (IH s fl (next_dir a) Hinv Hu); rewrite ?next_dir_eq by lia; unfold KERNBASE, PGSIZE in *; try lia; zdm.
      - cbn beta. intros _ s' (fl'&Hi'&Hu'&Hun). exists fl'. split_and!; [done|done|].
        assert (unmaps pd (λ va, (in_range a top va && negb (in_range (next_dir a) top va)) || in_range (next_dir a) top va)
          (v_mem s) fl (v_mem s') fl') as Hun2.
        { eapply unmaps_trans; [|exact Hun]. apply unmaps_none. intros va HR. apply andb_true_iff in HR as [H1 H2%negb_true_iff].
          destruct (in_range_jump (v_mem s) pd a top va) as [?|?]; try done; [lia|lia|congruence]. }
        eapply unmaps_ext; [|exact Hun2]. intros va Hva. cbn beta. destruct (in_range (next_dir a) top va) eqn:E; [|by rewrite andb_true_r, orb_false_r].
        rewrite andb_false_r. cbn. symmetry. unfold in_range in *. apply andb_true_iff in E as [E1%Z.leb_le E2]. rewrite E2.
        rewrite next_dir_eq in E1 by lia. rewrite (proj2 (Z.leb_le a va)); [done|]. unfold KERNBASE in *. zdm. }
  change (P2V (PTE_ADDR (pde (v_mem s) pd (PDX a))) + 4 * PTX a) with (pte_at (v_mem s) pd a).
  destruct (do_tab _ _ _ _ Hd _ Hi Hp) as ((_&_&Ht1&_)&_&_).
  rewrite (proj2 (Z.eqb_neq _ 0)) by (unfold pte_at, KERNBASE in *; lia). apply wp_bind, wp_gets.
  assert (load32 (v_mem s) (pte_at (v_mem s) pd a) = get_pte (v_mem s) pd a) as Eg by (unfold get_pte; by rewrite Hp).
  rewrite Eg. fold (present (get_pte (v_mem s) pd a)). rewrite (u32_id (a + PGSIZE)) by (unfold is_u32, KERNBASE, PGSIZE in *; lia).
  assert (Hstep : ∀ s1 fl1, inv pd fl1 s1 → unmaps pd (at_page a) (v_mem s) fl (v_mem s1) fl1 →
    wp (deallocuvm_loop end_ n pd (a + PGSIZE) top) (λ _ s', ∃ fl', inv pd fl' s' ∧ user_ok (v_mem s') pd fl' ∧
      unmaps pd (in_range a top) (v_mem s) fl (v_mem s') fl') s1).
  { intros s1 fl1 Hi1 Hun1. assert (user_ok (v_mem s1) pd fl1) as Hu1.
    { eapply unmaps_user; [exact Hun1| |apply Hi1|exact Hu]. intros va va' _ _ E. unfold at_page. by rewrite E. }
    eapply wp_mono; [apply (IH s1 fl1 (a + PGSIZE) Hi1 Hu1); unfold KERNBASE, PGSIZE in *; try lia; zdm|].
    cbn beta. intros _ s' (fl'&Hi'&Hu'&Hun). exists fl'. split_and!; [done|done|].
    eapply unmaps_ext; [|eapply unmaps_trans; [exact Hun1|exact Hun]]. intros va _. apply in_range_next; [done|done|lia]. }
  apply wp_bind, wp_when; intros Hpr.
  - assert (umapped (v_mem s) pd a) as Hma by (split; [lia|done]). destruct (uo_page _ _ _ Hu a Hma) as (Hv&_&_).
    assert (PTE_ADDR (get_pte (v_mem s) pd a) ≠ 0) as Hnz.
    { intros E0. unfold upg in Hv. rewrite E0 in Hv. destruct Hv as (_&Hv&_). change (P2V 0) with KERNBASE in Hv. lia. }
    rewrite (proj2 (Z.eqb_neq _ 0) Hnz). fold (upg (v_mem s) pd a). by apply (free_one_wp s pd fl a).
  - apply (Hstep s fl Hinv). apply unmaps_none. intros va HR. apply bool_decide_eq_true in HR. 
    destruct (decide (is_u32 va)) as [Hva|Hva].
    + by rewrite (get_pte_same_page _ _ va a).
    + exfalso. apply Hva. unfold is_u32, KERNBASE, PGSIZE in *. zdm.
Qed.

Lemma PGROUNDUP_range sz : 0 ≤ sz ≤ KERNBASE → PGROUNDUP sz mod PGSIZE = 0 ∧ sz ≤ PGROUNDUP sz < sz + PGSIZE ∧ PGROUNDUP sz ≤ KERNBASE.
Proof.
  intros Hsz. rewrite PGROUNDUP_eq by (unfold KERNBASE in *; lia). unfold PGSIZE, KERNBASE in *. split_and!; zdm.
Qed.
(** [deallocuvm] frees exactly the pages from the new size up to the old. *)
Lemma deallocuvm_wp s pd fl oldsz newsz :
  inv pd fl s → user_ok (v_mem s) pd fl → 0 ≤ oldsz ≤ KERNBASE → 0 ≤ newsz ≤ KERNBASE →
  wp (deallocuvm end_ pd oldsz newsz) (λ r s', r = Z.min oldsz newsz ∧ ∃ fl', inv pd fl' s' ∧ user_ok (v_mem s') pd fl' ∧
    unmaps pd (in_range (PGROUNDUP newsz) oldsz) (v_mem s) fl (v_mem s') fl') s.
Proof.
  intros Hinv Hu Ho Hn. unfold deallocuvm. destruct (PGROUNDUP_range newsz Hn) as (Hm&Hr&Hk).
  destruct (Z.leb_spec oldsz newsz) as [Hle|Hgt].
  - apply wp_ret. split; [lia|]. exists fl. split_and!; [done|done|]. apply unmaps_none. intros va HR. exfalso.
    apply andb_true_iff in HR as [H1%Z.leb_le H2%Z.ltb_lt]. unfold PGSIZE in *. zdm.
  - apply wp_bind. eapply wp_mono.
    + apply (deallocuvm_loop_wp _ s pd fl (PGROUNDUP newsz) oldsz Hinv Hu Hm); [lia|lia|lia|]. unfold PGSIZE in *. zdm.
    + cbn beta. intros _ s' H. apply wp_ret. split; [lia|done].
Qed.

(** ** freevm *)

(** A state of the allocator with the free pages [fl]. *)
Record alloc_ok (fl : list Z) (s : vst) : Prop := {
  ao_free : free_pages end_ (v_k s) fl;
  ao_head : is_u32 (k_freelist (v_k s));
  ao_bytes : bytes_ok (v_mem s);
}.
Definition tab_below (m : mem) (pd i q : Z) : Prop := ∃ j, 0 ≤ j < i ∧ present (pde m pd j) = true ∧ q = tab m pd j.
Lemma freevm_loop_wp n s m0 pd fl i fli :
  dok m0 pd fl → keeps pd m0 (v_mem s) → alloc_ok fli s → (∀ q, q ∈ fli ↔ q ∈ fl ∨ tab_below m0 pd i q) → 0 ≤ i → i + Z.of_nat n = 1024 →
  wp (freevm_loop end_ n pd i) (λ _ s', ∃ fl', alloc_ok fl' s' ∧ (∀ q, q ∈ fl' ↔ q ∈ fl ∨ tab_below m0 pd 1024 q) ∧
    ∀ q, kp q → (q ∉ fl') → keeps q (v_mem s) (v_mem s')) s.
Proof.
  intros Hd. revert s i fli. induction n as [|n IH]; intros s i fli Hk Ha Hfl Hi Hn; cbn [freevm_loop].
  { apply wp_ret. exists fli. split_and!; [done| |done]. replace 1024 with i by lia. done. }
  apply wp_bind, wp_gets. rewrite (keeps_word pd m0 (v_mem s) i Hk) by lia. fold (pde m0 pd i). fold (present (pde m0 pd i)).
  fold (tab m0 pd i). apply wp_bind, wp_when; intros Hp.
  - destruct (do_tab _ _ _ _ Hd i ltac:(lia) Hp) as (Hv&Hnv&Hne). set (v := tab m0 pd i) in *.
    assert (v ∉ fli) as Hnv'.
    { rewrite Hfl. intros [?|(j&Hj&Hpj&E)]; [done|]. enough (i = j) by lia. apply (do_inj _ _ _ _ Hd); try done; lia. }
    eapply wp_mono; [apply (vm_kfree_wp s fli v); [apply Ha|apply Ha|apply Ha|done|done]|]. cbn beta.
    intros [] s1 (Hf1&Hh1&Hb1&Hm1).
    assert (Hk1 : ∀ q, kp q → q ≠ v → keeps q (v_mem s) (v_mem s1)).
    { intros q Hq Hqv x Hx. apply Hm1. by apply (off_other v q x). }
    eapply wp_mono; [apply (IH s1 (i + 1) (v :: fli)); [|by split| |lia|lia]|].
    + intros x Hx. rewrite (Hk1 pd); [by apply Hk|apply Hd|by apply not_eq_sym|done].
    + intros q. rewrite elem_of_cons, Hfl. split.
      * intros [->|[?|(j&Hj&?&->)]]; [right; exists i; split_and!; (done || lia)|by left|right; exists j; split_and!; (done || lia)].
      * intros [?|(j&Hj&Hpj&->)]; [by right; left|]. destruct (decide (j = i)) as [->|]; [by left|].
        right. right. exists j. split_and!; (done || lia).
    + cbn beta. intros _ s' (fl'&Ha'&Hfl'&Hk'). exists fl'. split_and!; [done|done|]. intros q Hq Hnq x Hx.
      rewrite (Hk' q) by done. apply (Hk1 q); [done| |done]. intros ->. apply Hnq, Hfl'. right. exists i. split_and!; (done || lia).
  - eapply wp_mono; [apply (IH s (i + 1) fli Hk Ha); [|lia|lia]|done].
    intros q. rewrite Hfl. split; (intros [?|(j&Hj&Hpj&->)]; [by left|]).
    + right. exists j. split_and!; (done || lia).
    + destruct (decide (j = i)) as [->|]; [congruence|]. right. exists j. split_and!; (done || lia).
Qed.

Lemma dir_page_tabs m pd q : dir_page m pd q ↔ q = pd ∨ tab_below m pd 1024 q.
Proof. done. Qed.

(** The pages that an address space owns. *)
Definition owns (m : mem) (pd q : Z) : Prop := dir_page m pd q ∨ ∃ va, umapped m pd va ∧ q = upg m pd va.
(** [freevm] gives all the pages of an address space back, and changes no page
    that is not free afterwards. *)
Lemma freevm_wp s pd fl :
  inv pd fl s → user_ok (v_mem s) pd fl →
  wp (freevm end_ pd) (λ _ s', ∃ fl', alloc_ok fl' s' ∧ (∀ q, q ∈ fl' ↔ q ∈ fl ∨ owns (v_mem s) pd q) ∧
    ∀ q, kp q → (q ∉ fl') → keeps q (v_mem s) (v_mem s')) s.
Proof.
  intros Hinv Hu. pose proof (do_page _ _ _ _ (pi_dir _ _ _ _ Hinv)) as Hpd. unfold freevm.
  rewrite (proj2 (Z.eqb_neq pd 0)) by (destruct Hpd as (_&_&?&_); unfold KERNBASE in *; lia).
  apply wp_bind. eapply wp_mono; [apply (deallocuvm_wp s pd fl KERNBASE 0 Hinv Hu); unfold KERNBASE; lia|]. cbn beta.
  intros _ s1 [_ (fl1&Hi1&Hu1&[F1 P1 D1 K1])]. pose proof (pi_dir _ _ _ _ Hi1) as Hd1.
  assert (HR : ∀ va, 0 ≤ va < KERNBASE → in_range (PGROUNDUP 0) KERNBASE va = true).
  { intros va Hva. unfold in_range. apply andb_true_iff. rewrite Z.leb_le, Z.ltb_lt. change (PGROUNDUP 0) with 0. unfold PGSIZE. zdm. }
  apply wp_bind. eapply wp_mono; [apply (freevm_loop_wp _ s1 (v_mem s1) pd fl1 0 fl1 Hd1); [done|split; apply Hi1 || apply Hd1| |lia|done]|].
  { intros q. split; [by left|]. intros [?|(j&Hj&_)]; [done|lia]. }
  cbn beta. intros _ s2 (fl2&Ha2&F2&K2).
  assert (pd ∉ fl2) as Hn2.
  { rewrite F2. intros [?|(j&Hj&Hp&E)]; [by apply (do_free _ _ _ _ Hd1)|]. destruct (do_tab _ _ _ _ Hd1 j Hj Hp) as (_&_&Hne). congruence. }
  eapply wp_mono; [apply (vm_kfree_wp s2 fl2 pd); [apply Ha2..|done|done]|]. cbn beta. intros [] s3 (Hf3&Hh3&Hb3&Hm3).
  assert (Hin : ∀ q, q ∈ pd :: fl2 ↔ q ∈ fl ∨ owns (v_mem s) pd q).
  { intros q. rewrite elem_of_cons, F2, F1. unfold owns. rewrite <- D1, dir_page_tabs. split; [|intros [?|[[?|?]|(va&Hva&->)]]; [auto..|]].
    - intros [?|[[?|(va&Hva&_&->)]|?]]; [auto|auto|right; right; eauto|auto].
    - right. left. right. exists va. split_and!; [done| |done]. apply HR. apply Hva. }
  exists (pd :: fl2). split_and!; [by split|done|]. intros q Hq Hnq x Hx. rewrite elem_of_cons in Hnq.
  rewrite Hm3 by (apply (off_other pd q x); try done; intros ->; tauto). rewrite (K2 q) by tauto.
  apply (K1 q); [done|rewrite F2 in Hnq; tauto| |done]. rewrite <- D1. intros [?|?]; [tauto|]. apply Hnq. right. apply F2. by right.
Qed.

(** ** Building an address space *)

(** The directory [pd] is being built from pages that were free in memory [m0]
    with free list [fl0]: every one of them is now still free, among [ex], or
    owned by the directory, and all other pages are as they were. *)
Record building (pd : Z) (m0 : mem) (fl0 : list Z) (ex : list Z) (s : vst) (fl : list Z) : Prop := {
  bu_inv : inv pd fl s;
  bu_user : user_ok (v_mem s) pd fl;
  bu_taken q : q ∈ fl0 ↔ q ∈ fl ∨ q ∈ ex ∨ owns (v_mem s) pd q;
  bu_extra q : q ∈ ex → kp q ∧ (q ∉ fl) ∧ ¬ owns (v_mem s) pd q;
  bu_keeps q : kp q → (q ∉ fl0) → keeps q m0 (v_mem s);
}.

Lemma umapped_same m m' pd va :
  (∀ va, 0 ≤ va < KERNBASE → get_pte m' pd va = get_pte m pd va) → umapped m' pd va ↔ umapped m pd va.
Proof. intros Hg. unfold umapped. split; intros [Hr Hp]; (split; [done|]); [by rewrite Hg in Hp|by rewrite Hg]. Qed.
Lemma upg_same m m' pd va :
  (∀ va, 0 ≤ va < KERNBASE → get_pte m' pd va = get_pte m pd va) → 0 ≤ va < KERNBASE → upg m' pd va = upg m pd va.
Proof. intros Hg Hr. unfold upg. by rewrite Hg. Qed.
Lemma user_grows pd m fl m' fl' :
  user_ok m pd fl → grows pd m fl m' fl' → dok m' pd fl' → (∀ va, 0 ≤ va < KERNBASE → get_pte m' pd va = get_pte m pd va) →
  user_ok m' pd fl'.
Proof.
  intros [_ Hp Hi] Hgr Hd Hg. split; [done| |].
  - intros va Hva. pose proof Hva as Hva'. rewrite (umapped_same m m') in Hva' by done. rewrite (upg_same m m') by (done || apply Hva).
    destruct (Hp va Hva') as (H1&H2&H3). destruct (grows_keeps pd m fl m' fl' _ Hgr Hd H1 H2 H3) as (_&?&?). done.
  - intros va va' Hva Hva'. rewrite !(upg_same m m') by (done || apply Hva || apply Hva').
    rewrite (umapped_same m m') in Hva, Hva' by done. by apply Hi.
Qed.
Lemma owns_grows pd m m' q :
  (∀ va, 0 ≤ va < KERNBASE → get_pte m' pd va = get_pte m pd va) →
  owns m' pd q ↔ dir_page m' pd q ∨ ∃ va, umapped m pd va ∧ q = upg m pd va.
Proof.
  intros Hg. unfold owns. split; (intros [?|(va&Hva&->)]; [by left|right]); exists va.
  - rewrite (umapped_same m m') in Hva by done. split; [done|]. apply upg_same; [done|apply Hva].
  - rewrite (umapped_same m m') by done. split; [done|]. symmetry. apply upg_same; [done|apply Hva].
Qed.

(** Growing the page tables without mapping user pages. *)
Lemma building_grows pd m0 fl0 ex s fl s' fl' :
  building pd m0 fl0 ex s fl → inv pd fl' s' → grows pd (v_mem s) fl (v_mem s') fl' →
  (∀ va, 0 ≤ va < KERNBASE → get_pte (v_mem s') pd va = get_pte (v_mem s) pd va) → building pd m0 fl0 ex s' fl'.
Proof.
  intros [Hi Hu Ht Hx Hk] Hi' Hgr Hg. pose proof (pi_dir _ _ _ _ Hi') as Hd'. destruct (gr_taken _ _ _ _ _ Hgr) as (tk&Etk&Hdp).
  split; [done|by eapply user_grows| | |].
  - intros q. rewrite Ht, (owns_grows pd (v_mem s) (v_mem s') q Hg), Hdp, Etk, elem_of_app. unfold owns. tauto.
  - intros q Hq. destruct (Hx q Hq) as (H1&H2&H3). assert (¬ dir_page (v_mem s) pd q) as H4 by (intros ?; apply H3; by left).
    destruct (grows_keeps _ _ _ _ _ q Hgr Hd' H1 H2 H4) as (_&H5&H6). split_and!; [done|done|].
    rewrite (owns_grows pd (v_mem s) (v_mem s') q Hg). intros [?|?]; [done|]. apply H3. by right.
  - intros q Hq Hn x Hxx. rewrite Ht in Hn. destruct (grows_keeps _ _ _ _ _ q Hgr Hd' Hq) as (H5&_); [tauto|unfold owns in Hn; tauto|].
    rewrite (H5 x Hxx). apply (Hk q); [done| |done]. rewrite Ht. tauto.
Qed.

(** Taking a page. *)
Lemma building_alloc pd m0 fl0 s fl :
  building pd m0 fl0 [] s fl →
  wp vm_kalloc (λ r s', v_mem s' = v_mem s ∧ match fl with
    | [] => r = 0 ∧ building pd m0 fl0 [] s' []
    | v :: fl' => r = v ∧ kp v ∧ building pd m0 fl0 [v] s' fl'
    end) s.
Proof.
  intros [Hi Hu Ht Hx Hk]. eapply wp_mono; [apply (vm_kalloc_wp end_ s pd fl Hi)|]. cbn beta. intros r s' (Hm&_&Hr).
  split; [done|]. destruct fl as [|v fl].
  - destruct Hr as [-> Hi']. split; [done|]. by split; [done|rewrite Hm..].
  - destruct Hr as (->&Hv&Hnd&Hpg&Hf&Hh&Hd). apply NoDup_cons in Hnd as [Hnv Hnd]. split_and!; [done|done|].
    destruct Hu as [Hd0 Hp Hinj].
    assert (Hd' : dok (v_mem s) pd fl).
    { destruct (dir_frame (v_mem s) (v_mem s) pd (v :: fl) fl Hd0) as (?&_&_); [|apply Hd0|done].
      intros q Hq. destruct (dir_page_ok _ _ _ _ Hd0 Hq) as [_ Hn]. rewrite elem_of_cons in Hn. split; [by intros x|tauto]. }
    split; rewrite ?Hm.
    + split; [done|done|by rewrite Hm].
    + split; [done| |done]. intros va Hva. destruct (Hp va Hva) as (?&Hn&?). rewrite elem_of_cons in Hn. tauto.
    + intros q. rewrite Ht, elem_of_cons, list_elem_of_singleton, elem_of_nil. tauto.
    + intros q Hq%list_elem_of_singleton. subst q. split_and!; [done|done|]. intros [Hq|(va&Hva&E)].
      * destruct (dir_page_ok _ _ _ _ Hd0 Hq) as [_ Hn]. apply Hn. by left.
      * destruct (Hp va Hva) as (_&Hn&_). apply Hn. rewrite <- E. by left.
    + done.
Qed.

(** Writing to the page taken. *)
Lemma building_fill pd m0 fl0 v s fl (f : mem → mem) :
  building pd m0 fl0 [v] s fl → bytes_ok (f (v_mem s)) → (∀ x, off_page x v → f (v_mem s) x = v_mem s x) →
  building pd m0 fl0 [v] (on_mem f s) fl ∧ ∀ va, get_pte (v_mem (on_mem f s)) pd va = get_pte (v_mem s) pd va.
Proof.
  intros [Hi Hu Ht Hx Hk] Hb Hoff. destruct (Hx v) as (Hv&Hn&Ho); [by left|].
  change (v_mem (on_mem f s)) with (f (v_mem s)) in *. set (m' := f (v_mem s)) in *.
  assert (Hkq : ∀ q, kp q → q ≠ v → keeps q (v_mem s) m').
  { intros q Hq Hne x Hxx. apply Hoff. by apply (off_other v q x). }
  pose proof (pi_dir _ _ _ _ Hi) as Hd. destruct (dir_frame (v_mem s) m' pd fl fl Hd) as (Hd'&Hg&Hdp); [|done|].
  { intros q Hq. destruct (dir_page_ok _ _ _ _ Hd Hq). split; [|done]. apply Hkq; [done|]. intros ->. apply Ho. by left. }
  assert (Hown : ∀ q, owns m' pd q ↔ owns (v_mem s) pd q).
  { intros q. rewrite (owns_grows pd (v_mem s) m' q) by done. unfold owns. by rewrite Hdp. }
  split; [|done]. split.
  - split; [|apply Hi|done]. refine (free_pages_frame _ _ _ _ (pi_free _ _ _ _ Hi) _). intros w x Hw Hxx. apply Hoff.
    pose proof (fp_pages _ _ _ (pi_free _ _ _ _ Hi)) as Hpg. rewrite Forall_forall in Hpg.
    apply (off_other v w x); [done|by apply Hpg| |unfold PGSIZE; lia]. by intros ->.
  - destruct Hu as [_ Hp Hinj]. split; [done| |].
    + intros va Hva. change (v_mem (on_mem f s)) with m' in *. rewrite (umapped_same (v_mem s) m') in Hva by done.
      rewrite (upg_same (v_mem s) m') by (done || apply Hva). rewrite Hdp. by apply Hp.
    + intros va va' Hva Hva'. change (v_mem (on_mem f s)) with m' in *. rewrite (umapped_same (v_mem s) m') in Hva, Hva' by done.
      rewrite !(upg_same (v_mem s) m') by (done || apply Hva || apply Hva'). by apply Hinj.
  - intros q. rewrite Ht. change (v_mem (on_mem f s)) with m'. by rewrite Hown.
  - intros q Hq. change (v_mem (on_mem f s)) with m'. rewrite Hown. by apply Hx.
  - intros q Hq Hnq x Hxx. change (v_mem (on_mem f s)) with m'. rewrite (Hkq q); [by apply (Hk q)|done| |done].
    intros ->. apply Hnq, Ht. right. left. by left.
Qed.

(** Mapping the page taken at the user address [a]. *)
Lemma building_map pd m0 fl0 v s fl s' fl' a ent :
  building pd m0 fl0 [v] s fl → inv pd fl' s' → grows pd (v_mem s) fl (v_mem s') fl' →
  0 ≤ a < KERNBASE → present (get_pte (v_mem s) pd a) = false → present ent = true → P2V (PTE_ADDR ent) = v →
  (∀ va, 0 ≤ va < KERNBASE → get_pte (v_mem s') pd va = if at_page a va then ent else get_pte (v_mem s) pd va) →
  building pd m0 fl0 [] s' fl'.
Proof.
  intros [Hi Hu Ht Hx Hk] Hi' Hgr Ha Hna Hpe Ev Hg. pose proof (pi_dir _ _ _ _ Hi') as Hd'. destruct (gr_taken _ _ _ _ _ Hgr) as (tk&Etk&Hdp).
  destruct (Hx v) as (Hv&Hnv&Hov); [by left|]. destruct Hu as [Hd Hp Hinj].
  assert (Hndv : ¬ dir_page (v_mem s) pd v) by (intros ?; apply Hov; by left).
  destruct (grows_keeps _ _ _ _ _ v Hgr Hd' Hv Hnv Hndv) as (_&Hnv'&Hndv').
  assert (Hum : ∀ va, umapped (v_mem s') pd va → at_page a va = true ∧ upg (v_mem s') pd va = v ∨
    at_page a va = false ∧ umapped (v_mem s) pd va ∧ upg (v_mem s') pd va = upg (v_mem s) pd va).
  { intros va [Hr Hpr]. unfold umapped, upg. rewrite Hg in * by done. destruct (at_page a va); [by left|by right]. }
  assert (Hum2 : ∀ va, umapped (v_mem s) pd va → umapped (v_mem s') pd va ∧ upg (v_mem s') pd va = upg (v_mem s) pd va).
  { intros va [Hr Hpr]. unfold umapped, upg. rewrite Hg by done. destruct (at_page a va) eqn:E; [|done]. exfalso.
    apply bool_decide_eq_true in E. rewrite (get_pte_same_page _ _ va a) in Hpr; [congruence| | |done]; unfold is_u32, KERNBASE in *; lia. }
  assert (Hown : ∀ q, owns (v_mem s') pd q ↔ q = v ∨ q ∈ tk ∨ owns (v_mem s) pd q).
  { intros q. unfold owns. rewrite Hdp. split.
    - intros [[?|?]|(va&Hva&->)]; [tauto|tauto|]. destruct (Hum va Hva) as [[_ ->]|(_&Hm&->)]; [by left|right; right; right; eauto].
    - intros [->|[?|[?|(va&Hva&->)]]]; [|tauto|tauto|].
      + right. exists a. unfold umapped, upg. rewrite Hg by done. unfold at_page. by rewrite bool_decide_eq_true_2.
      + right. exists va. by destruct (Hum2 va Hva) as [? ->]. }
  split; [done| | | |].
  - split; [done| |].
    + intros va Hva. destruct (Hum va Hva) as [[_ ->]|(_&Hm&->)]; [done|]. destruct (Hp va Hm) as (H1&H2&H3).
      destruct (grows_keeps _ _ _ _ _ _ Hgr Hd' H1 H2 H3) as (_&?&?). done.
    + intros va va' Hva Hva'. destruct (Hum va Hva) as [[E1 ->]|(E1&Hm&->)], (Hum va' Hva') as [[E2 ->]|(E2&Hm'&->)].
      * apply bool_decide_eq_true in E1, E2. congruence.
      * intros E. destruct Hov. right. eauto.
      * intros E. destruct Hov. right. eauto.
      * by apply Hinj.
  - intros q. rewrite Ht, Hown, Etk, elem_of_app, list_elem_of_singleton, elem_of_nil. tauto.
  - intros q Hq. by apply elem_of_nil in Hq.
  - intros q Hq Hn x Hxx. rewrite Ht, list_elem_of_singleton in Hn.
    destruct (grows_keeps _ _ _ _ _ q Hgr Hd' Hq) as (H5&_); [tauto|unfold owns in Hn; tauto|].
    rewrite (H5 x Hxx). apply (Hk q); [done| |done]. rewrite Ht, list_elem_of_singleton. tauto.
Qed.

(** Giving the page taken back. *)
Lemma building_kfree pd m0 fl0 v s fl :
  building pd m0 fl0 [v] s fl → wp (vm_kfree end_ v) (λ _ s', building pd m0 fl0 [] s' (v :: fl) ∧
    (∀ va, get_pte (v_mem s') pd va = get_pte (v_mem s) pd va) ∧
    ∀ va, umapped (v_mem s) pd va → keeps (upg (v_mem s) pd va) (v_mem s) (v_mem s')) s.
Proof.
  intros [Hi Hu Ht Hx Hk]. destruct (Hx v) as (Hv&Hn&Ho); [by left|]. pose proof (pi_dir _ _ _ _ Hi) as Hd.
  eapply wp_mono; [apply (vm_kfree_wp s fl v); [apply Hi|apply Hi|apply Hd|done|done]|]. cbn beta. intros [] s1 (Hf1&Hh1&Hb1&Hm1).
  assert (Hkq : ∀ q, kp q → q ≠ v → keeps q (v_mem s) (v_mem s1)).
  { intros q Hq Hne x Hxx. apply Hm1. by apply (off_other v q x). }
  destruct (dir_frame (v_mem s) (v_mem s1) pd fl (v :: fl) Hd) as (Hd'&Hg&Hdp); [|done|].
  { intros q Hq. destruct (dir_page_ok _ _ _ _ Hd Hq). assert (q ≠ v) by (intros ->; apply Ho; by left).
    split; [by apply Hkq|]. by apply not_elem_of_cons. }
  assert (Hown : ∀ q, owns (v_mem s1) pd q ↔ owns (v_mem s) pd q).
  { intros q. rewrite (owns_grows pd (v_mem s) (v_mem s1) q) by done. unfold owns. by rewrite Hdp. }
  split_and!; [|done|].
  2:{ intros va Hva. destruct (uo_page _ _ _ Hu va Hva) as (?&_). apply Hkq; [done|]. intros E. apply Ho. right. eauto. }
  split.
  - by split.
  - destruct Hu as [_ Hp Hinj]. split; [done| |].
    + intros va Hva. rewrite (umapped_same (v_mem s)) in Hva by done. rewrite (upg_same (v_mem s)) by (done || apply Hva).
      rewrite Hdp. destruct (Hp va Hva) as (?&?&?). split_and!; [done| |done]. apply not_elem_of_cons. split; [|done].
      intros E. apply Ho. right. eauto.
    + intros va va' Hva Hva'. rewrite (umapped_same (v_mem s)) in Hva, Hva' by done.
      rewrite !(upg_same (v_mem s) (v_mem s1)) by (done || apply Hva || apply Hva'). by apply Hinj.
  - intros q. rewrite Ht, Hown, !elem_of_cons, !elem_of_nil. tauto.
  - intros q Hq. by apply elem_of_nil in Hq.
  - intros q Hq Hnq x Hxx. rewrite (Hkq q); [by apply (Hk q)|done| |done]. intros ->. apply Hnq, Ht. right. left. by left.
Qed.

(** Giving up: everything is free again. *)
Definition restored (m0 : mem) (fl0 : list Z) (s : vst) : Prop :=
  ∃ fl, alloc_ok fl s ∧ fl ≡ₚ fl0 ∧ ∀ q, kp q → (q ∉ fl0) → keeps q m0 (v_mem s).
Lemma building_freevm pd m0 fl0 s fl :
  building pd m0 fl0 [] s fl → NoDup fl0 → wp (freevm end_ pd) (λ _ s', restored m0 fl0 s') s.
Proof.
  intros [Hi Hu Ht Hx Hk] Hnd. eapply wp_mono; [by apply (freevm_wp s pd fl)|]. cbn beta. intros _ s' (fl'&Ha'&Hf'&Hk').
  assert (Heq : ∀ q, q ∈ fl' ↔ q ∈ fl0) by (intros q; rewrite Hf', Ht, elem_of_nil; tauto).
  exists fl'. split_and!; [done|apply NoDup_Permutation; [apply Ha'|done|done]|].
  intros q Hq Hn x Hxx. rewrite (Hk' q); [by apply (Hk q)|done|by rewrite Heq|done].
Qed.
End freeing.
End space.
