(* ===== verification/VmCopy.v ===== *)
(** * The address spaces of processes: [setupkvm] and [copyuvm]

    [setupkvm] makes a directory with exactly the kernel's mappings, and
    [copyuvm], on which fork relies, a copy of the user memory of another one
    in pages of its own.  When memory runs out both give back every page they
    had taken. *)

From S2P Require Import Prelude Params CString Cprintf Kalloc Vm VmThms VmSpace.

Ltac konst := unfold KERNLINK, KERNBASE, PHYSTOP, DEVSPACE, EXTMEM in *.

Section pages.
Context (end_ : Z).
Abbreviation kp := (kpage end_).
Abbreviation inv := (pt_inv end_).

Lemma vm_kalloc_alloc s fl :
  alloc_ok end_ fl s → wp vm_kalloc (λ r s', v_mem s' = v_mem s ∧ match fl with
    | [] => r = 0 ∧ alloc_ok end_ [] s'
    | v :: fl' => r = v ∧ kp v ∧ (v ∉ fl') ∧ alloc_ok end_ fl' s'
    end) s.
Proof.
  intros [Hf Hh Hb]. destruct (wp_elim _ _ _ (kalloc_wp end_ (v_k s) fl Hf)) as (r&k&E&Hm&_&Hr).
  eapply (wp_intro _ _ _ r (on_k (λ _, k) s)); [unfold vm_kalloc, lift_k; by rewrite E|].
  unfold v_mem. cbn [v_k on_k]. split; [done|].
  assert (Hhead : ∀ l, free_pages end_ k l → is_u32 (k_freelist k)).
  { intros l [Hc Hp _ _]. destruct l as [|w l]; cbn [chain] in Hc; [by rewrite Hc|]. destruct Hc as [-> _].
    apply Forall_cons in Hp as [Hp _]. by eapply kpage_u32. }
  assert (Hbk : bytes_ok (k_mem k)) by (by rewrite Hm).
  destruct fl as [|v fl]; destruct Hr as [-> Hf']; [split; [done|]; by split; [|eauto|]|].
  destruct Hf as [_ Hp Hn _]. apply Forall_cons in Hp as [Hv _]. apply NoDup_cons in Hn as [Hn _].
  split_and!; [done|done|done|]. by split; [|eauto|].
Qed.

(** A new, empty directory. *)
Lemma new_directory s fl d m0 (f : mem → mem) :
  alloc_ok end_ fl s → kp d → (d ∉ fl) → v_mem s = m0 → bytes_ok (f m0) →
  (∀ x, f m0 x = if (d <=? x) && (x <? d + PGSIZE) then 0 else m0 x) →
  building end_ d m0 (d :: fl) [] (on_mem f s) fl ∧ ∀ va, get_pte (v_mem (on_mem f s)) d va = 0.
Proof.
  intros [Hf Hh Hb] Hkd Hn Em Hb' Hm. change (v_mem (on_mem f s)) with (f (v_mem s)). rewrite Em.
  set (m' := f m0) in *.
  assert (Hoff : ∀ x, off_page x d → m' x = m0 x).
  { intros x Hx. unfold off_page in *. rewrite Hm. zcases. }
  assert (Hin : ∀ i, 0 ≤ i < 1024 → pde m' d i = 0).
  { intros i Hi. unfold pde, load32. rewrite !Hm. unfold PGSIZE. zcases. }
  assert (Hnp : ∀ i, 0 ≤ i < 1024 → present (pde m' d i) = false) by (intros i Hi; by rewrite Hin).
  assert (Hdp : ∀ q, dir_page m' d q ↔ q = d).
  { intros q. split; [|by left]. intros [?|(i&Hi&Hp&_)]; [done|]. by rewrite Hnp in Hp. }
  assert (Hg : ∀ va, get_pte m' d va = 0).
  { intros va. unfold get_pte. by rewrite Hnp by apply PDX_range. }
  assert (Hok : dir_ok end_ m' d fl).
  { split; [done|done|done| |].
    - intros i Hi Hp. by rewrite Hnp in Hp.
    - intros i j Hi Hj Hp. by rewrite Hnp in Hp. }
  assert (Hum : ∀ va, ¬ umapped m' d va) by (intros va [_ Hp]; by rewrite Hg in Hp).
  assert (Es : v_mem (on_mem f s) = m') by (unfold m'; by rewrite <-Em).
  split; [|done]. split; rewrite ?Es.
  - split; [|done|by rewrite Es]. apply (free_pages_frame end_ (v_k s) fl (f (v_mem s)) Hf). intros v x Hv Hx. change (k_mem (v_k s)) with (v_mem s). rewrite Em. apply Hoff.
    pose proof (fp_pages _ _ _ Hf) as Hpg. rewrite Forall_forall in Hpg.
    apply (off_other end_ d v x); [done|by apply Hpg| |unfold PGSIZE; lia]. by intros ->.
  - split; [done| |]; intros va; [intros H|intros va' H]; by destruct (Hum va).
  - intros q. rewrite elem_of_cons, elem_of_nil. unfold owns. rewrite Hdp.
    split; [tauto|]. intros [?|[[]|[?|(va&H&_)]]]; [tauto|tauto|]. by destruct (Hum va).
  - intros q Hq. by apply elem_of_nil in Hq.
  - intros q Hq Hnq x Hx. rewrite elem_of_cons in Hnq. rewrite Hoff; [done|].
    apply (off_other end_ d q x); [done|done| |done]. intros ->. tauto.
Qed.

(** When no page is left, the address space under construction holds all the
    pages that were free: a directory, at most 1024 page tables and the user
    pages. *)
Lemma building_exhausted_of l pd m0 fl0 ex s n :
  building end_ pd m0 fl0 ex s [] → NoDup l → (∀ q, q ∈ l → q ∈ fl0) → (∀ va, umapped (v_mem s) pd va → va < PGSIZE * Z.of_nat n) →
  (length l ≤ 1025 + n + length ex)%nat.
Proof.
  intros [_ _ Ht _ _] Hnd Hsub Hn.
  set (all := pd :: map (λ i, tab (v_mem s) pd (Z.of_nat i)) (seq 0 1024) ++
    map (λ i, upg (v_mem s) pd (PGSIZE * Z.of_nat i)) (seq 0 n) ++ ex).
  enough (length l ≤ length all)%nat as Hl.
  { unfold all in Hl. cbn [length] in Hl. rewrite !length_app, !length_map, !length_seq in Hl. lia. }
  apply submseteq_length, NoDup_submseteq; [done|]. intros q Hq. apply Hsub, Ht in Hq as [Hq|[Hq|Hq]]; [by apply elem_of_nil in Hq| |].
  - unfold all. rewrite elem_of_cons, !elem_of_app. tauto.
  - unfold all. rewrite elem_of_cons, !elem_of_app, !list_elem_of_fmap. destruct Hq as [[?|(i&Hi&_&->)]|(va&Hva&->)].
    + by left.
    + right. left. exists (Z.to_nat i). split; [by rewrite Z2Nat.id by lia|]. apply elem_of_seq. lia.
    + right. right. left. pose proof (Hn va Hva) as Hlt. destruct Hva as [Hva _]. exists (Z.to_nat (va / PGSIZE)). split.
      * unfold upg. do 2 f_equal. apply get_pte_same_page; unfold is_u32, KERNBASE, PGSIZE in *; [lia| |]; rewrite Z2Nat.id; zdm.
      * apply elem_of_seq. unfold PGSIZE in *. zdm.
Qed.

Lemma building_exhausted pd m0 fl0 ex s n :
  building end_ pd m0 fl0 ex s [] → NoDup fl0 → (∀ va, umapped (v_mem s) pd va → va < PGSIZE * Z.of_nat n) →
  (length fl0 ≤ 1025 + n + length ex)%nat.
Proof. intros Hb Hnd Hn. by apply (building_exhausted_of fl0 pd m0 fl0 ex s n Hb Hnd). Qed.

Lemma V2P_sub a : KERNBASE ≤ a < 4294967296 → V2P a = a - KERNBASE.
Proof. intros H. unfold V2P, KERNBASE in *. rewrite u32_id; [done|unfold is_u32; lia]. Qed.

(** ** Mapping new pages *)

(** The entry that [mappages] makes for the page [v]. *)
Lemma user_pte v f : kp v → 0 ≤ f → Z.lor f PTE_P < 4096 →
  let e := Z.lor (Z.lor (V2P v) f) PTE_P in present e = true ∧ P2V (PTE_ADDR e) = v ∧ PTE_FLAGS e = Z.lor f PTE_P.
Proof.
  intros (Hm&_&Hr1&Hr2) Hf Hlt e. assert (Hv : V2P v = v - KERNBASE) by (apply V2P_sub; konst; lia).
  assert (Hvm : V2P v mod 4096 = 0) by (rewrite Hv; konst; unfold PGSIZE in *; zdm).
  assert (0 ≤ Z.lor f PTE_P) as H0 by (apply Z.lor_nonneg; split; [lia|done]).
  assert (Hodd : Z.odd (Z.lor f PTE_P) = true) by (rewrite <-Z.bit0_odd, Z.lor_spec; apply orb_true_r).
  unfold e. rewrite <-Z.lor_assoc, lor_flags by done. set (g := Z.lor f PTE_P) in *. split_and!.
  - rewrite present_odd, Z.odd_add, Hodd. assert (Z.odd (V2P v) = false) as ->; [|done].
    rewrite <-Z.negb_even. apply negb_false_iff, Z.even_spec. exists (V2P v / 2). zdm.
  - rewrite flags_addr; [|rewrite Hv; konst; unfold is_u32; lia|done|lia]. rewrite Hv. unfold P2V. rewrite u32_id; konst; unfold is_u32; lia.
  - rewrite PTE_FLAGS_eq. zdm.
Qed.
Lemma flags_present e : present e = true → Z.lor (PTE_FLAGS e) PTE_P = PTE_FLAGS e.
Proof.
  intros Hp. rewrite present_odd in Hp. unfold PTE_FLAGS. apply Z.bits_inj'. intros i Hi. rewrite Z.lor_spec, Z.land_spec.
  destruct (Z.eqb_spec i 0) as [->|Hne]; [by rewrite Z.bit0_odd, Hp|].
  unfold PTE_P. rewrite <-(Z.pow_0_r 2), Z.pow2_bits_false by lia. apply orb_false_r.
Qed.

(** A walk finds the entry of a mapped address. *)
Lemma walk_present s pd fl va :
  dir_ok end_ (v_mem s) pd fl → present (get_pte (v_mem s) pd va) = true →
  walkpgdir pd va false s = Ok (pte_at (v_mem s) pd va) s ∧ pte_at (v_mem s) pd va ≠ 0 ∧
  load32 (v_mem s) (pte_at (v_mem s) pd va) = get_pte (v_mem s) pd va.
Proof.
  intros Hdo Hp. unfold get_pte in *. destruct (present (pde (v_mem s) pd (PDX va))) eqn:E; [|done].
  pose proof (PDX_range va) as Hi. pose proof (PTX_range va) as Hj. destruct (do_tab _ _ _ _ Hdo _ Hi E) as ((_&_&Ht)&_&_).
  split_and!; [|unfold pte_at; konst; lia|done]. unfold present, pde in E. unfold walkpgdir, gets, mbind, M_bind. cbv zeta beta iota. by rewrite E.
Qed.

(** The byte at a user address. *)
Definition ubyte (m : mem) (pd va : Z) : Z := m (upg m pd va + va mod PGSIZE).

(** The user address [va] is mapped with these flags to this byte. *)
Definition has (m : mem) (d va flags byte : Z) : Prop :=
  present (get_pte m d va) = true ∧ PTE_FLAGS (get_pte m d va) = flags ∧ ubyte m d va = byte.

(** Pages have been mapped from [a] up to [i], with flags and contents as
    given by [wf] and [wb]; everywhere else the entries are those of [rest]
    and the contents [old]. *)
Record filled (d a i : Z) (wf wb rest old : Z → Z) (m : mem) : Prop := {
  fi_new va : a ≤ va < i → has m d va (wf va) (wb va);
  fi_rest va : is_u32 va → va < a ∨ i ≤ va → get_pte m d va = rest va;
  fi_old va : 0 ≤ va < KERNBASE → va < a ∨ i ≤ va → present (rest va) = true → ubyte m d va = old va;
}.

Lemma ubyte_keeps m m' d va : get_pte m' d va = get_pte m d va → keeps (upg m d va) m m' → ubyte m' d va = ubyte m d va.
Proof.
  intros Eg Hk. unfold ubyte, upg. rewrite Eg. apply (Hk (upg m d va + va mod PGSIZE)). pose proof (Z.mod_pos_bound va PGSIZE eq_refl). lia.
Qed.
(** A change of the entry of one page at most that keeps the mapped pages. *)
Lemma filled_keeps d a i wf wb rest old m m' :
  0 ≤ a → i ≤ KERNBASE → (∀ va, is_u32 va → get_pte m' d va = get_pte m d va) → (∀ va, umapped m d va → keeps (upg m d va) m m') →
  filled d a i wf wb rest old m → filled d a i wf wb rest old m'.
Proof.
  intros Ha Hi Hg Hk [H1 H2 H3]. split.
  - intros va Hva. destruct (H1 va Hva) as (E1&E2&E3). assert (is_u32 va) by (unfold is_u32; konst; lia).
    unfold has. rewrite Hg by done. split_and!; [done|done|]. rewrite (ubyte_keeps m m'); [done|by apply Hg|]. apply Hk. split; [konst; lia|done].
  - intros va Hva Ho. rewrite Hg by done. by apply H2.
  - intros va Hva Ho Hp. assert (is_u32 va) by (unfold is_u32; konst; lia).
    rewrite (ubyte_keeps m m'); [by apply H3|by apply Hg|]. apply Hk. split; [done|]. by rewrite H2.
Qed.

(** The address space that is copied stays as it was. *)
Lemma parent_frame m0 fl0 m fl pd :
  user_ok end_ m0 pd fl0 → (∀ q, kp q → (q ∉ fl0) → keeps q m0 m) → (∀ q, q ∈ fl → q ∈ fl0) → bytes_ok m →
  user_ok end_ m pd fl ∧ (∀ va, get_pte m pd va = get_pte m0 pd va) ∧ ∀ va, umapped m0 pd va → keeps (upg m0 pd va) m0 m.
Proof.
  intros [Hdo Hp Hinj] Hk Hsub Hb. destruct (dir_frame end_ m0 m pd fl0 fl Hdo) as (H1&H2&H3); [|done|].
  { intros q Hq. destruct (dir_page_ok _ _ _ _ _ Hdo Hq) as [Hkq Hn]. split; [by apply Hk|]. intros Hin. by apply Hn, Hsub. }
  assert (Hu : ∀ va, umapped m pd va ↔ umapped m0 pd va) by (intros va; unfold umapped; by rewrite H2).
  assert (Eu : ∀ va, upg m pd va = upg m0 pd va) by (intros va; unfold upg; by rewrite H2).
  split_and!; [split; [done| |]|done|].
  - intros va Hva%Hu. rewrite Eu, H3. destruct (Hp va Hva) as (?&Hn&?). split_and!; [done| |done]. intros Hin. by apply Hn, Hsub.
  - intros va va' H%Hu H'%Hu. rewrite !Eu. by apply Hinj.
  - intros va Hva. destruct (Hp va Hva) as (?&?&_). by apply Hk.
Qed.

Lemma parent_kept d m0 fl0 ex s fl pd :
  building end_ d m0 fl0 ex s fl → user_ok end_ m0 pd fl0 →
  user_ok end_ (v_mem s) pd fl ∧ (∀ va, get_pte (v_mem s) pd va = get_pte m0 pd va) ∧
  ∀ va, umapped m0 pd va → keeps (upg m0 pd va) m0 (v_mem s).
Proof.
  intros [Hi _ Ht _ Hk] Hu. apply (parent_frame m0 fl0); [done|done| |apply (pi_dir _ _ _ _ Hi)]. intros q Hq. apply Ht. by left.
Qed.

(** Filling the new page [v]. *)
Lemma filled_fill d a i wf wb rest old m0 fl0 v s fl (f : mem → mem) :
  building end_ d m0 fl0 [v] s fl → filled d a i wf wb rest old (v_mem s) → 0 ≤ a → i ≤ KERNBASE → bytes_ok (f (v_mem s)) →
  (∀ x, off_page x v → f (v_mem s) x = v_mem s x) →
  building end_ d m0 fl0 [v] (on_mem f s) fl ∧ filled d a i wf wb rest old (v_mem (on_mem f s)).
Proof.
  intros Hbu Hfi Ha Hi Hb Hoff. destruct (bu_extra _ _ _ _ _ _ _ Hbu v) as (Hv&_&Ho); [by left|].
  destruct (building_fill end_ d m0 fl0 v s fl f Hbu Hb Hoff) as [Hb1 Hg]. split; [done|].
  apply (filled_keeps d a i wf wb rest old (v_mem s)); [done|done|intros va _; apply Hg| |done].
  intros va Hum x Hx. apply Hoff. destruct (uo_page _ _ _ _ (bu_user _ _ _ _ _ _ _ Hbu) va Hum) as (Hkq&_).
  apply (off_other end_ v (upg (v_mem s) d va)); [done|done| |done]. intros ->. apply Ho. right. by exists va.
Qed.

(** Mapping the page [v] at [i]. *)
Lemma filled_map d a i wf wb rest old m0 fl0 v f s fl s' fl' :
  building end_ d m0 fl0 [v] s fl → filled d a i wf wb rest old (v_mem s) → inv d fl' s' → grows d (v_mem s) fl (v_mem s') fl' →
  i mod PGSIZE = 0 → 0 ≤ a ≤ i → i < KERNBASE → 0 ≤ f → Z.lor f PTE_P < 4096 →
  (∀ o, 0 ≤ o < PGSIZE → wf (i + o) = Z.lor f PTE_P ∧ wb (i + o) = v_mem s (v + o)) →
  (∀ va, is_u32 va → get_pte (v_mem s') d va = if at_page i va then Z.lor (Z.lor (V2P v) f) PTE_P else get_pte (v_mem s) d va) →
  filled d a (i + PGSIZE) wf wb rest old (v_mem s').
Proof.
  intros Hbu [F1 F2 F3] Hi' Hgr Him Ha Hi Hf Hlt Hw Hg. destruct (bu_extra _ _ _ _ _ _ _ Hbu v) as (Hv&Hnv&Ho); [by left|].
  assert (Hkept : ∀ q, kp q → (q ∉ fl) → ¬ dir_page (v_mem s) d q → keeps q (v_mem s) (v_mem s')).
  { intros q H1 H2 H3. by destruct (grows_keeps end_ d _ _ _ _ q Hgr (pi_dir _ _ _ _ Hi') H1 H2 H3). }
  destruct (user_pte v f Hv Hf Hlt) as (He1&He2&He3). set (e := Z.lor _ PTE_P) in *. clearbody e.
  assert (Hat : ∀ va, at_page i va = true ↔ i ≤ va < i + PGSIZE).
  { intros va. unfold at_page. rewrite bool_decide_eq_true. unfold PGSIZE in *. zdm. }
  assert (Hother : ∀ va, umapped (v_mem s) d va → at_page i va = false → ubyte (v_mem s') d va = ubyte (v_mem s) d va).
  { intros va Hum Ea. destruct (uo_page _ _ _ _ (bu_user _ _ _ _ _ _ _ Hbu) va Hum) as (Hq1&Hq2&Hq3).
    apply ubyte_keeps; [rewrite Hg, Ea by (destruct Hum; unfold is_u32; konst; lia); done|by apply Hkept]. }
  split.
  - intros va Hva. assert (is_u32 va) by (unfold is_u32, PGSIZE in *; konst; lia). unfold has. rewrite Hg by done. destruct (at_page i va) eqn:Ea.
    + destruct (Hw (va - i)) as [W1 W2]; [apply Hat in Ea; lia|]. replace (i + (va - i)) with va in * by lia.
      split_and!; [done|by rewrite W1|]. unfold ubyte, upg. rewrite Hg, Ea, He2, W2 by done. replace (va mod PGSIZE) with (va - i).
      * apply (Hkept v Hv Hnv); [intros ?; apply Ho; by left|]. apply Hat in Ea. lia.
      * apply Hat in Ea. unfold PGSIZE in *. zdm.
    + assert (va < i) by (destruct (Z.lt_ge_cases va i); [done|]; rewrite (proj2 (Hat va)) in Ea; [done|lia]).
      destruct (F1 va) as (E1&E2&E3); [lia|]. split_and!; [done|done|]. rewrite Hother; [done| |done]. split; [lia|done].
  - intros va Hva Ho'. assert (at_page i va = false) as Ea by (apply not_true_iff_false; rewrite Hat; lia).
    rewrite Hg, Ea by done. apply F2; [done|unfold PGSIZE in *; lia].
  - intros va Hva Ho' Hp. assert (at_page i va = false) as Ea by (apply not_true_iff_false; rewrite Hat; lia).
    assert (is_u32 va) by (unfold is_u32; konst; lia). assert (va < a ∨ i ≤ va) by (unfold PGSIZE in *; lia).
    rewrite Hother; [by apply F3| |done]. split; [done|]. by rewrite F2.
Qed.

(** [mappages] of one page, the way [copyuvm] and [allocuvm] call it. *)
Lemma map_filled d a i wf wb rest old m0 fl0 v f s fl :
  building end_ d m0 fl0 [v] s fl → filled d a i wf wb rest old (v_mem s) →
  i mod PGSIZE = 0 → 0 ≤ a ≤ i → i < KERNBASE → 0 ≤ f < 4096 → Z.lor f PTE_P < 4096 → present (rest i) = false →
  (∀ o, 0 ≤ o < PGSIZE → wf (i + o) = Z.lor f PTE_P ∧ wb (i + o) = v_mem s (v + o)) →
  wp (mappages d i PGSIZE (V2P v) f) (λ r s', r = 0 ∧ (∃ fl', building end_ d m0 fl0 [] s' fl' ∧ filled d a (i + PGSIZE) wf wb rest old (v_mem s')) ∨
    r = -1 ∧ building end_ d m0 fl0 [v] s' [] ∧ filled d a i wf wb rest old (v_mem s')) s.
Proof.
  intros Hbu Hfi Him Ha Hi Hf Hlt Hnp Hw. destruct (bu_extra _ _ _ _ _ _ _ Hbu v) as (Hv&Hnv&Ho); [by left|].
  assert (Ev : V2P v = v - KERNBASE) by (apply V2P_sub; unfold kpage in Hv; konst; lia).
  assert (Hn0 : ∀ x, i ≤ x < i + PGSIZE → present (get_pte (v_mem s) d x) = false).
  { intros x Hx. rewrite (get_pte_same_page _ _ x i) by (unfold is_u32, PGSIZE in *; konst; zdm).
    rewrite (fi_rest _ _ _ _ _ _ _ _ Hfi) by (unfold is_u32; konst; lia). done. }
  change PGSIZE with (PGSIZE * Z.of_nat 1) at 1.
  eapply wp_mono; [apply (map_pages end_ s d fl i 1 (V2P v) f (bu_inv _ _ _ _ _ _ _ Hbu)); try done|]; try (rewrite ?Ev; unfold kpage, PGSIZE in *; konst; zdm).
  cbn beta. intros r s2 (fl2&k&Hi2&Hr&Hg2&Hgr). destruct Hr as [[-> ->]|(->&Hk&->)]; [left; split; [done|]|right; split; [done|]].
  - assert (Hgat : ∀ va, is_u32 va → get_pte (v_mem s2) d va = if at_page i va then Z.lor (Z.lor (V2P v) f) PTE_P else get_pte (v_mem s) d va).
    { intros va Hva. rewrite Hg2 by done. unfold mapped, at_page. case_bool_decide as E; zcases; [|unfold PGSIZE in *; zdm..].
      do 2 f_equal. unfold PGSIZE in *. zdm. }
    destruct (user_pte v f Hv ltac:(lia) Hlt) as (He1&He2&_). exists fl2. split.
    + eapply (building_map end_ d m0 fl0 v s fl s2 fl2 i _ Hbu Hi2 Hgr); [lia|apply Hn0; unfold PGSIZE; lia|exact He1|exact He2|].
      intros va Hva. apply Hgat. unfold is_u32; konst; lia.
    + by apply (filled_map d a i wf wb rest old m0 fl0 v f s fl s2 fl2); try done; lia.
  - assert (k = 0%nat) as -> by lia.
    assert (Hg3 : ∀ va, is_u32 va → get_pte (v_mem s2) d va = get_pte (v_mem s) d va).
    { intros va Hva. rewrite Hg2 by done. unfold mapped. zcases. }
    split.
    + apply (building_grows end_ d m0 fl0 [v] s fl s2 [] Hbu Hi2 Hgr). intros va Hva. apply Hg3. unfold is_u32; konst; lia.
    + apply (filled_keeps d a i wf wb rest old (v_mem s)); [lia|lia|done| |done]. intros va Hum.
      destruct (uo_page _ _ _ _ (bu_user _ _ _ _ _ _ _ Hbu) va Hum) as (Hq1&Hq2&Hq3).
      by destruct (grows_keeps end_ d _ _ _ _ _ Hgr (pi_dir _ _ _ _ Hi2) Hq1 Hq2 Hq3).
Qed.

End pages.

Section kvm.
Context (end_ data_ : Z).
Context (He : KERNBASE < end_) (Hda : data_ mod PGSIZE = 0) (Hd : KERNLINK < data_ < KERNBASE + PHYSTOP).
Abbreviation kp := (kpage end_).
Abbreviation inv := (pt_inv end_).

(** One line of [kmap]. *)
Lemma kvm_step pd m0 fl0 s fl g virt ps pe perm n rest (Q : Z → vst → Prop) :
  building end_ pd m0 fl0 [] s fl → NoDup fl0 → (∀ va, is_u32 va → get_pte (v_mem s) pd va = g va) →
  pe -u ps = PGSIZE * Z.of_nat n → (0 < n)%nat → virt mod PGSIZE = 0 → ps mod PGSIZE = 0 → KERNBASE ≤ virt → 0 ≤ ps →
  virt + PGSIZE * Z.of_nat n ≤ 4294967296 → ps + PGSIZE * Z.of_nat n ≤ 4294967296 → 0 ≤ perm < 4096 →
  (∀ x, virt ≤ x < virt + PGSIZE * Z.of_nat n → present (g x) = false) →
  (∀ s' fl', building end_ pd m0 fl0 [] s' fl' → (∀ va, is_u32 va → get_pte (v_mem s') pd va = mapped g virt ps perm n va) →
    wp (setupkvm_loop end_ pd rest) Q s') →
  (∀ va, 0 ≤ va < KERNBASE → g va = 0) →
  (∀ s', restored end_ m0 fl0 s' → (length fl0 ≤ 1025)%nat → Q 0 s') →
  wp (setupkvm_loop end_ pd ((virt, ps, pe, perm) :: rest)) Q s.
Proof.
  intros Hbu Hnd Hg Esz Hn Hv Hps Hkv Hps0 Ht1 Ht2 Hperm Hnp Hgo Hg0 Hfail. cbn [setupkvm_loop]. rewrite Esz.
  pose proof (bu_inv _ _ _ _ _ _ _ Hbu) as Hi.
  assert (Hx : ∀ x, virt ≤ x < virt + PGSIZE * Z.of_nat n → is_u32 x) by (intros x; unfold is_u32, KERNBASE in *; lia).
  apply wp_bind. eapply wp_mono; [apply (map_pages end_ s pd fl virt n ps perm Hi); try done; [unfold KERNBASE in *; lia|]|].
  { intros x Hxr. rewrite Hg by auto. auto. }
  cbn beta. intros r s1 (fl1&k&Hi1&Hr&Hg1&Hgr).
  assert (Hbu1 : building end_ pd m0 fl0 [] s1 fl1).
  { eapply building_grows; [exact Hbu|done|done|]. intros va Hva. rewrite Hg1 by (unfold is_u32, KERNBASE in *; lia).
    unfold mapped. destruct (Z.leb_spec virt va); [lia|done]. }
  destruct Hr as [[-> ->]|(->&_&->)]; cbn [Z.ltb Z.compare].
  - apply (Hgo s1 fl1 Hbu1). intros va Hva. rewrite Hg1 by done. by apply mapped_ext, Hg.
  - apply wp_bind. eapply wp_mono; [by apply (building_freevm end_ He pd m0 fl0 s1 [])|]. cbn beta. intros _ s2 H2. apply wp_ret, Hfail; [done|].
    apply (building_exhausted end_ pd m0 fl0 [] s1 0 Hbu1 Hnd). intros va [Hva Hp]. rewrite Hg1 in Hp by (unfold is_u32, KERNBASE in *; lia).
    unfold mapped in Hp. rewrite Hg, Hg0 in Hp by (unfold is_u32, KERNBASE in *; lia). destruct (Z.leb_spec virt va); [lia|done].
Qed.

(** The kernel's part of every address space, as the table at the head of
    vm.c describes it: the entry for the address [va]. *)
Definition kvm_pte (va : Z) : Z :=
  let page := va / PGSIZE * PGSIZE in
  if (KERNBASE <=? va) && (va <? KERNLINK) then Z.lor (Z.lor (page - KERNBASE) PTE_W) PTE_P
  else if (KERNLINK <=? va) && (va <? data_) then Z.lor (page - KERNBASE) PTE_P
  else if (data_ <=? va) && (va <? KERNBASE + PHYSTOP) then Z.lor (Z.lor (page - KERNBASE) PTE_W) PTE_P
  else if DEVSPACE <=? va then Z.lor (Z.lor page PTE_W) PTE_P
  else 0.

(** The pages of a region of [size] bytes. *)
Definition npages (size : Z) : nat := Z.to_nat (size / PGSIZE).
Lemma npages_size size : 0 ≤ size → size mod PGSIZE = 0 → PGSIZE * Z.of_nat (npages size) = size.
Proof. intros H Hm. unfold npages, PGSIZE in *. rewrite Z2Nat.id by zdm. zdm. Qed.
Definition kvm_mapped : Z → Z :=
  mapped (mapped (mapped (mapped (λ _, 0) KERNBASE 0 PTE_W (npages EXTMEM))
    KERNLINK (V2P KERNLINK) 0 (npages (data_ - KERNLINK)))
    data_ (V2P data_) PTE_W (npages (KERNBASE + PHYSTOP - data_)))
    DEVSPACE DEVSPACE PTE_W (npages (4294967296 - DEVSPACE)).
Lemma kvm_pte_mapped va : is_u32 va → kvm_mapped va = kvm_pte va.
Proof.
  intros Hva. unfold kvm_mapped, mapped. rewrite !npages_size.
  2-9: unfold KERNLINK, KERNBASE, PHYSTOP, DEVSPACE, EXTMEM, PGSIZE in *; zdm.
  rewrite !V2P_sub by (unfold KERNLINK, KERNBASE, PHYSTOP, EXTMEM in *; lia).
  unfold kvm_pte, is_u32, KERNLINK, KERNBASE, PHYSTOP, DEVSPACE, EXTMEM in *.
  zcases; rewrite ?Z.lor_0_r; repeat f_equal; lia.
Qed.

Lemma setupkvm_loop_wp pd m0 fl0 s fl :
  building end_ pd m0 fl0 [] s fl → NoDup fl0 → pd ≠ 0 → (∀ va, get_pte (v_mem s) pd va = 0) →
  wp (setupkvm_loop end_ pd (kmap data_)) (λ r s', r = 0 ∧ restored end_ m0 fl0 s' ∧ (length fl0 ≤ 1025)%nat ∨
    r = pd ∧ ∃ fl', building end_ pd m0 fl0 [] s' fl' ∧ ∀ va, is_u32 va → get_pte (v_mem s') pd va = kvm_pte va) s.
Proof.
  intros Hbu Hnd Hpd Hg.
  assert (E1 : PGSIZE * Z.of_nat (npages EXTMEM) = EXTMEM) by (by apply npages_size).
  assert (E2 : PGSIZE * Z.of_nat (npages (data_ - KERNLINK)) = data_ - KERNLINK) by (apply npages_size; konst; unfold PGSIZE in *; zdm).
  assert (E3 : PGSIZE * Z.of_nat (npages (KERNBASE + PHYSTOP - data_)) = KERNBASE + PHYSTOP - data_) by (apply npages_size; konst; unfold PGSIZE in *; zdm).
  assert (E4 : PGSIZE * Z.of_nat (npages (4294967296 - DEVSPACE)) = 4294967296 - DEVSPACE) by (by apply npages_size).
  assert (Ev2 : V2P data_ = data_ - KERNBASE) by (apply V2P_sub; konst; lia).
  assert (Ha2 : V2P data_ mod PGSIZE = 0) by (rewrite Ev2; konst; unfold PGSIZE in *; zdm).
  assert (Hpos : ∀ n, 0 < PGSIZE * Z.of_nat n → (0 < n)%nat) by (unfold PGSIZE; lia).
  assert (Hfail : ∀ s', restored end_ m0 fl0 s' → (length fl0 ≤ 1025)%nat → 0 = 0 ∧ restored end_ m0 fl0 s' ∧ (length fl0 ≤ 1025)%nat ∨ 0 = pd ∧ ∃ fl', building end_ pd m0 fl0 [] s' fl' ∧
    ∀ va, is_u32 va → get_pte (v_mem s') pd va = kvm_pte va) by auto.
  unfold kmap.
  eapply (kvm_step _ _ _ _ _ (λ _, 0) _ _ _ _ (npages EXTMEM)); [exact Hbu|done|auto|by rewrite E1|by apply Hpos; rewrite E1|done|done|done|done
    |by rewrite E1|by rewrite E1|done|done| |done|done]. clear s fl Hbu Hg. intros s fl Hbu Hg.
  eapply (kvm_step _ _ _ _ _ _ _ _ _ _ (npages (data_ - KERNLINK))); [exact Hbu|done|exact Hg| |apply Hpos; konst; lia|done|done|done|done
    |rewrite E2; konst; lia|rewrite E2; change (V2P KERNLINK) with EXTMEM; konst; lia|done| | | |done].
  { rewrite E2, Ev2. change (V2P KERNLINK) with EXTMEM. rewrite u32_id by (konst; unfold is_u32; lia). konst; lia. }
  { rewrite E2. intros x Hx. unfold mapped. rewrite E1. konst. zcases. }
  2: { intros x Hx. unfold mapped. rewrite ?E1, ?E2, ?E3. konst. zcases. }
  clear s fl Hbu Hg. intros s fl Hbu Hg.
  eapply (kvm_step _ _ _ _ _ _ _ _ _ _ (npages (KERNBASE + PHYSTOP - data_))); [exact Hbu|done|exact Hg| |apply Hpos; konst; lia|done|done|konst; lia|rewrite Ev2; konst; lia
    |rewrite E3; konst; lia|rewrite E3, Ev2; konst; lia|done| | | |done].
  { rewrite E3, Ev2. rewrite u32_id by (konst; unfold is_u32; lia). konst; lia. }
  { rewrite E3. intros x Hx. unfold mapped. rewrite E1, E2. konst. zcases. }
  2: { intros x Hx. unfold mapped. rewrite ?E1, ?E2, ?E3. konst. zcases. }
  clear s fl Hbu Hg. intros s fl Hbu Hg.
  eapply (kvm_step _ _ _ _ _ _ _ _ _ _ (npages (4294967296 - DEVSPACE))); [exact Hbu|done|exact Hg|by rewrite E4|apply Hpos; konst; lia|done|done|done|done
    |rewrite E4; konst; lia|rewrite E4; konst; lia|done| | | |done].
  { rewrite E4. intros x Hx. unfold mapped. rewrite E1, E2, E3. konst. zcases. }
  2: { intros x Hx. unfold mapped. rewrite ?E1, ?E2, ?E3. konst. zcases. }
  clear s fl Hbu Hg. intros s fl Hbu Hg. apply wp_ret. right. split; [done|]. exists fl. split; [done|].
  intros va Hva. rewrite Hg by done. by apply kvm_pte_mapped.
Qed.

(** [setupkvm]: out of memory, with everything given back, or a directory with
    the kernel's mappings and no others. *)
Lemma setupkvm_wp s fl :
  alloc_ok end_ fl s →
  wp (setupkvm end_ data_) (λ r s', r = 0 ∧ restored end_ (v_mem s) fl s' ∧ (length fl ≤ 1025)%nat ∨
    kp r ∧ ∃ fl', building end_ r (v_mem s) fl [] s' fl' ∧ ∀ va, is_u32 va → get_pte (v_mem s') r va = kvm_pte va) s.
Proof.
  intros Ha. pose proof (fp_nodup _ _ _ (ao_free _ _ _ Ha)) as Hnd. unfold setupkvm. apply wp_bind.
  eapply wp_mono; [by apply (vm_kalloc_alloc end_ s fl)|]. cbn beta. intros r s1 [Em Hr]. destruct fl as [|d fl].
  { destruct Hr as [-> Ha1]. apply wp_ret. left. split_and!; [done| |cbn; lia]. exists []. split_and!; [done|done|]. intros q _ _ x _. by rewrite Em. }
  destruct Hr as (->&Hkd&Hn&Ha1). rewrite (proj2 (Z.eqb_neq d 0)) by (unfold kpage, KERNBASE in *; lia).
  apply wp_bind, wp_modify. change (DEVSPACE <? P2V PHYSTOP) with false. cbv iota.
  destruct (new_directory end_ s1 fl d (v_mem s) (λ m, memset m d 0 PGSIZE) Ha1 Hkd Hn Em) as [Hbu Hg].
  { apply memset_bytes; [done|]. rewrite <-Em. apply Ha1. }
  { intros x. by apply memset_correct. }
  set (s2 := on_mem _ _) in *. clearbody s2.
  eapply wp_mono; [apply (setupkvm_loop_wp d (v_mem s) (d :: fl) s2 fl Hbu Hnd); [unfold kpage, KERNBASE in *; lia|done]|].
  cbn beta. intros r s3 [[-> H]|(->&H)]; [by left|by right].
Qed.

(** ** copyuvm *)

Lemma kvm_pte_user va : 0 ≤ va < KERNBASE → kvm_pte va = 0.
Proof. intros H. unfold kvm_pte. konst. zcases. Qed.

(** The part of the copy of [pd] below [i] is done and nothing else is mapped
    but the kernel. *)
Definition copying (pd : Z) (m0 : mem) (d i : Z) (m : mem) : Prop :=
  filled d 0 i (λ va, PTE_FLAGS (get_pte m0 pd va)) (ubyte m0 pd) kvm_pte (λ _, 0) m.

Lemma copying_user pd m0 d i m va : copying pd m0 d i m → umapped m d va → va < i.
Proof.
  intros Hc [Hr Hp]. destruct (Z.lt_ge_cases va i) as [|Hge]; [done|].
  rewrite (fi_rest _ _ _ _ _ _ _ _ Hc), kvm_pte_user in Hp by (unfold is_u32; konst; lia). done.
Qed.

(** The new page [v] is filled and mapped at [i]. *)
Lemma copy_page n pd d i sz m0 fl0 v s fl (Q : Z → vst → Prop) :
  building end_ d m0 fl0 [v] s fl → NoDup fl0 → user_ok end_ m0 pd fl0 → copying pd m0 d i (v_mem s) →
  i mod PGSIZE = 0 → 0 ≤ i < KERNBASE → present (get_pte m0 pd i) = true →
  (∀ s' fl', building end_ d m0 fl0 [] s' fl' → copying pd m0 d (i + PGSIZE) (v_mem s') → wp (copyuvm_loop end_ n pd d (i + PGSIZE) sz) Q s') →
  (∀ s1 s', building end_ d m0 fl0 [v] s1 [] → (∀ va, umapped (v_mem s1) d va → va < i) → restored end_ m0 fl0 s' → Q 0 s') →
  wp (modify (on_mem (λ m, memmove m v (P2V (PTE_ADDR (get_pte m0 pd i))) PGSIZE));;
      r ← mappages d i PGSIZE (V2P v) (PTE_FLAGS (get_pte m0 pd i));
      if r <? 0 then vm_kfree end_ v;; freevm end_ d;; mret 0 else copyuvm_loop end_ n pd d (i +u PGSIZE) sz) Q s.
Proof.
  intros Hbu Hnd Hu Hc Him Hi Hpi Hgo Hfail. apply wp_bind, wp_modify. fold (upg m0 pd i).
  destruct (parent_kept _ _ _ _ _ _ _ _ Hbu Hu) as (_&_&Hkp). specialize (Hkp i (conj Hi Hpi)).
  destruct (filled_fill end_ d 0 i _ _ _ _ m0 fl0 v s fl (λ m, memmove m v (upg m0 pd i) PGSIZE) Hbu Hc) as [Hb1 Hc1]; [lia|lia| | |].
  { intros x. rewrite memmove_spec by done. case_match; apply (do_bytes _ _ _ _ (pi_dir _ _ _ _ (bu_inv _ _ _ _ _ _ _ Hbu))). }
  { intros x Hx. rewrite memmove_spec by done. unfold off_page in Hx. zcases. }
  set (s1 := on_mem _ s) in *.
  assert (Hcont : ∀ o, 0 ≤ o < PGSIZE → v_mem s1 (v + o) = m0 (upg m0 pd i + o)).
  { intros o Hoo. unfold s1, v_mem, on_mem. cbn. rewrite memmove_spec by done. rewrite (proj2 (Z.leb_le v _)), (proj2 (Z.ltb_lt _ (v + PGSIZE))) by lia.
    cbn [andb]. replace (v + o - v) with o by lia. apply Hkp. lia. }
  clearbody s1. clear Hbu Hc Hkp. pose proof (flags_present _ Hpi) as Hfp.
  assert (Hfl : 0 ≤ PTE_FLAGS (get_pte m0 pd i) < 4096) by (rewrite PTE_FLAGS_eq; by apply Z.mod_pos_bound).
  apply wp_bind. eapply wp_mono; [apply (map_filled end_ d 0 i _ _ _ _ m0 fl0 v _ s1 fl Hb1 Hc1); try lia; [by rewrite kvm_pte_user by lia|]|].
  { intros o Hoo. assert (get_pte m0 pd (i + o) = get_pte m0 pd i) as Eg.
    { apply get_pte_same_page; unfold is_u32, PGSIZE in *; konst; zdm. }
    rewrite Hfp, Hcont by done. unfold ubyte, upg. rewrite Eg. split; [done|]. do 2 f_equal. unfold PGSIZE in *. zdm. }
  cbn beta. intros r s2 [(->&fl2&Hb2&Hc2)|(->&Hb2&Hc2)]; cbn [Z.ltb Z.compare].
  - rewrite u32_id by (unfold is_u32, PGSIZE in *; konst; lia). by apply (Hgo s2 fl2).
  - apply wp_bind. eapply wp_mono; [by apply (building_kfree end_ He d m0 fl0 v s2 [])|]. cbn beta. intros _ s3 [Hb3 _].
    apply wp_bind. eapply wp_mono; [by apply (building_freevm end_ He d m0 fl0 s3 [v])|]. cbn beta. intros _ s4 Hre.
    apply wp_ret, (Hfail s2); [done| |done]. intros va Hum. by eapply copying_user.
Qed.

(** One iteration of the loop of [copyuvm]. *)
Lemma copy_step n pd d i sz m0 fl0 s fl (Q : Z → vst → Prop) :
  building end_ d m0 fl0 [] s fl → NoDup fl0 → user_ok end_ m0 pd fl0 → copying pd m0 d i (v_mem s) →
  i mod PGSIZE = 0 → 0 ≤ i < sz → sz ≤ KERNBASE → present (get_pte m0 pd i) = true →
  (∀ s' fl', building end_ d m0 fl0 [] s' fl' → copying pd m0 d (i + PGSIZE) (v_mem s') → wp (copyuvm_loop end_ n pd d (i + PGSIZE) sz) Q s') →
  (∀ s', restored end_ m0 fl0 s' → (length fl0 ≤ 1026 + Z.to_nat (i / PGSIZE))%nat → Q 0 s') →
  wp (copyuvm_loop end_ (S n) pd d i sz) Q s.
Proof.
  intros Hbu Hnd Hu Hc Him Hi Hsz Hpi Hgo Hfail. cbn [copyuvm_loop]. rewrite (proj2 (Z.ltb_lt i sz)) by lia.
  assert (Hlim : ∀ s', copying pd m0 d i (v_mem s') → ∀ va, umapped (v_mem s') d va → va < PGSIZE * Z.of_nat (Z.to_nat (i / PGSIZE))).
  { intros s' Hc' va Hva. rewrite Z2Nat.id by (unfold PGSIZE; zdm). replace (PGSIZE * (i / PGSIZE)) with i by (unfold PGSIZE in *; zdm).
    by eapply copying_user. }
  destruct (parent_kept _ _ _ _ _ _ _ _ Hbu Hu) as (Hdp&Hgp&_).
  destruct (walk_present end_ s pd fl i (uo_dir _ _ _ _ Hdp)) as (Ew&Hnz&El); [by rewrite Hgp|].
  apply wp_bind. eapply wp_intro; [exact Ew|]. rewrite (proj2 (Z.eqb_neq _ 0) Hnz). apply wp_bind, wp_gets. rewrite El, Hgp. clear Ew Hnz El.
  assert (Hpi' := Hpi). unfold present in Hpi'. apply negb_true_iff in Hpi'. rewrite Hpi'. clear Hpi'.
  apply wp_bind. eapply wp_mono; [by apply (building_alloc end_ d m0 fl0)|]. cbn beta. intros r s1 [Em Hr]. destruct fl as [|v fl].
  { destruct Hr as [-> Hb1]. cbn [Z.eqb]. apply wp_bind. eapply wp_mono; [by apply (building_freevm end_ He d m0 fl0 s1 [])|].
    cbn beta. intros _ s2 H2. apply wp_ret, Hfail; [done|].
    pose proof (building_exhausted end_ d m0 fl0 [] s1 (Z.to_nat (i / PGSIZE)) Hb1 Hnd) as Hl. cbn [length] in Hl.
    assert (length fl0 ≤ 1025 + Z.to_nat (i / PGSIZE) + 0)%nat; [|lia]. apply Hl. apply Hlim. by rewrite Em. }
  destruct Hr as (->&Hkv&Hb1). rewrite (proj2 (Z.eqb_neq v 0)) by (unfold kpage in *; konst; lia).
  rewrite <-Em in Hc. apply (copy_page n pd d i sz m0 fl0 v s1 fl); try done; [lia|]. intros s2 s3 Hb2 Hlow Hre. apply Hfail; [done|].
  pose proof (building_exhausted end_ d m0 fl0 [v] s2 (Z.to_nat (i / PGSIZE)) Hb2 Hnd) as Hl. cbn [length] in Hl.
  enough (length fl0 ≤ 1025 + Z.to_nat (i / PGSIZE) + 1)%nat by lia. apply Hl. intros va Hva. specialize (Hlow va Hva).
  rewrite Z2Nat.id by (unfold PGSIZE; zdm). unfold PGSIZE in *. zdm.
Qed.

Lemma copyuvm_loop_wp n pd d i sz m0 fl0 s fl :
  building end_ d m0 fl0 [] s fl → NoDup fl0 → user_ok end_ m0 pd fl0 → copying pd m0 d i (v_mem s) →
  i mod PGSIZE = 0 → 0 ≤ i < sz + PGSIZE → 0 ≤ sz ≤ KERNBASE → sz + PGSIZE ≤ i + PGSIZE * Z.of_nat n →
  (∀ va, 0 ≤ va < sz → present (get_pte m0 pd va) = true) →
  wp (copyuvm_loop end_ n pd d i sz) (λ r s', r = 0 ∧ restored end_ m0 fl0 s' ∧ (length fl0 ≤ 1026 + Z.to_nat (sz / PGSIZE))%nat ∨
    r = d ∧ ∃ fl' j, building end_ d m0 fl0 [] s' fl' ∧ copying pd m0 d j (v_mem s') ∧ j mod PGSIZE = 0 ∧ sz ≤ j < sz + PGSIZE) s.
Proof.
  revert i s fl. induction n as [|n IH]; intros i s fl Hbu Hnd Hu Hc Him Hi Hsz Hn Hp; [cbn in Hn; lia|].
  destruct (Z.lt_ge_cases i sz) as [Hlt|Hge].
  - apply (copy_step n pd d i sz m0 fl0 s fl); try done; [lia|lia|by apply Hp; lia| |].
    + intros s' fl' Hbu' Hc'. apply (IH _ s' fl'); try done; unfold PGSIZE in *; [zdm|lia|lia].
    + intros s' Hre Hl. left. split_and!; [done|done|]. assert (i / PGSIZE ≤ sz / PGSIZE) by (apply Z.div_le_mono; unfold PGSIZE; lia). revert Hl. generalize dependent (i / PGSIZE). generalize (sz / PGSIZE). lia.
  - cbn [copyuvm_loop]. rewrite (proj2 (Z.ltb_ge i sz)) by lia. apply wp_ret. right. split; [done|]. exists fl, i. split_and!; try done; lia.
Qed.

(** The directory [d] is a copy of the first [sz] bytes of user memory of
    [pd], in pages of its own that were free before, with the kernel's part
    and nothing else. *)
Record is_copy (pd sz : Z) (m : mem) (fl : list Z) (d : Z) (m' : mem) (fl' : list Z) : Prop := {
  ic_own : user_ok end_ m' d fl';
  ic_pages q : q ∈ fl ↔ q ∈ fl' ∨ owns m' d q;
  ic_user va : 0 ≤ va < sz → has m' d va (PTE_FLAGS (get_pte m pd va)) (ubyte m pd va);
  ic_rest va : is_u32 va → sz ≤ va / PGSIZE * PGSIZE → get_pte m' d va = kvm_pte va;
}.

Lemma copyuvm_wp s fl pd sz :
  alloc_ok end_ fl s → user_ok end_ (v_mem s) pd fl → 0 ≤ sz ≤ KERNBASE →
  (∀ va, 0 ≤ va < sz → present (get_pte (v_mem s) pd va) = true) →
  wp (copyuvm end_ data_ pd sz) (λ r s', ∃ fl', alloc_ok end_ fl' s' ∧ (∀ q, kp q → (q ∉ fl) → keeps q (v_mem s) (v_mem s')) ∧
    (r = 0 ∧ fl' ≡ₚ fl ∧ (length fl ≤ 1026 + Z.to_nat (sz / PGSIZE))%nat ∨ kp r ∧ is_copy pd sz (v_mem s) fl r (v_mem s') fl')) s.
Proof.
  intros Ha Hu Hsz Hp. pose proof (fp_nodup _ _ _ (ao_free _ _ _ Ha)) as Hnd.
  unfold copyuvm. apply wp_bind. eapply wp_mono; [by apply (setupkvm_wp s fl)|]. cbn beta.
  intros d s1 [(->&(fl'&Ha'&Hpm&Hk)&Hl)|(Hkd&fl1&Hbu&Hg)].
  { apply wp_ret. exists fl'. split_and!; [done|done|]. left. split_and!; [done|done|lia]. }
  rewrite (proj2 (Z.eqb_neq d 0)) by (unfold kpage in *; konst; lia).
  eapply wp_mono; [apply (copyuvm_loop_wp _ pd d 0 sz (v_mem s) fl s1 fl1 Hbu Hnd Hu); try done|].
  { split; [intros va Hva; lia|intros va Hva _; by apply Hg|]. intros va Hva _. by rewrite kvm_pte_user. }
  { unfold PGSIZE; lia. }
  { assert (0 ≤ sz / PGSIZE) by (unfold PGSIZE; zdm). rewrite Nat2Z.inj_succ, Z2Nat.id by lia. unfold PGSIZE in *. zdm. }
  cbn beta. intros r s2 [(->&(fl'&Ha'&Hpm&Hk)&Hl)|(->&fl2&j&Hb2&Hc&Hj&Hjr)].
  { exists fl'. split_and!; [done|done|]. by left. }
  pose proof Hb2 as [Hi Hu2 Ht _ Hk]. exists fl2. split_and!; [|done|].
  - split; [apply Hi|apply Hi|apply (pi_dir _ _ _ _ Hi)].
  - right. split; [done|]. split; [done| | |].
    + intros q. rewrite Ht, elem_of_nil. tauto.
    + intros va Hva. apply Hc. lia.
    + intros va Hva Hge. apply Hc; [done|]. right. unfold PGSIZE in *. zdm.
Qed.

(** Every address space of the first state is one of the second state too,
    with the same entries and the same contents of its user memory. *)
Definition spaces_kept (m : mem) (fl : list Z) (m' : mem) (fl' : list Z) : Prop :=
  ∀ pd, user_ok end_ m pd fl → user_ok end_ m' pd fl' ∧ (∀ va, get_pte m' pd va = get_pte m pd va) ∧
    ∀ va, umapped m pd va → ubyte m' pd va = ubyte m pd va.

Lemma spaces_keeps m fl m' fl' :
  (∀ q, kp q → (q ∉ fl) → keeps q m m') → (∀ q, q ∈ fl' → q ∈ fl) → bytes_ok m' → spaces_kept m fl m' fl'.
Proof.
  intros Hk Hsub Hb pd Hu. destruct (parent_frame end_ m fl m' fl' pd Hu Hk Hsub Hb) as (H1&H2&H3). split_and!; [done|done|].
  intros va Hva. unfold ubyte, upg. rewrite H2. apply (H3 va Hva). pose proof (Z.mod_pos_bound va PGSIZE eq_refl). unfold upg. lia.
Qed.

(** C27. [copyuvm] makes a copy of an address space that no two processes
    share.  It always returns.  Either it returns a directory that is a page
    that was free, maps every user address below [sz] with the flags that the
    parent has and to the same contents, maps the kernel and nothing else
    beyond, and owns exactly the pages that are no longer free; or it returns
    0 with exactly the pages free that were free before, and then at most
    1026 and one for every page of the parent were.  In both cases every
    address space that was there before, the parent's and the others, keeps
    its mappings and its contents. *)
Theorem copyuvm_copies s fl pd sz :
  alloc_ok end_ fl s → user_ok end_ (v_mem s) pd fl → 0 ≤ sz ≤ KERNBASE →
  (∀ va, 0 ≤ va < sz → present (get_pte (v_mem s) pd va) = true) →
  wp (copyuvm end_ data_ pd sz) (λ r s', ∃ fl', alloc_ok end_ fl' s' ∧ spaces_kept (v_mem s) fl (v_mem s') fl' ∧
    (r = 0 ∧ fl' ≡ₚ fl ∧ (length fl ≤ 1026 + Z.to_nat (sz / PGSIZE))%nat ∨ kp r ∧ is_copy pd sz (v_mem s) fl r (v_mem s') fl')) s.
Proof.
  intros Ha Hu Hsz Hp. eapply wp_mono; [by apply (copyuvm_wp s fl pd sz)|]. cbn beta. intros r s' (fl'&Ha'&Hk&Hr).
  exists fl'. split_and!; [done| |done]. apply spaces_keeps; [done| |apply Ha'].
  intros q Hq. destruct Hr as [(_&Hpm&_)|(_&Hc)]; [by rewrite <-Hpm|]. apply (ic_pages _ _ _ _ _ _ _ Hc). by left.
Qed.
End kvm.

(** ** Witness *)

(** A machine with [n] free pages from [demo_free] on, and an address space
    below them: a directory with one page table and one user page at 0. *)
Definition demo_dir : Z := demo_end.
Definition demo_tab : Z := demo_end + PGSIZE.
Definition demo_user : Z := demo_end + 2 * PGSIZE.
Definition demo_free (n : nat) : Z := demo_end + 3 * PGSIZE + PGSIZE * Z.of_nat n.
Definition free_head (n : nat) : Z := match n with O => 0 | S n' => demo_free n' end.
Fixpoint free_list (n : nat) : list Z := match n with O => [] | S n' => demo_free n' :: free_list n' end.
Fixpoint free_mem (n : nat) : mem :=
  match n with O => λ _, 0 | S n' => store32 (free_mem n') (demo_free n') (free_head n') end.
Definition demo_image (n : nat) : mem :=
  store32 (store32 (free_mem n) demo_dir (V2P demo_tab + 7)) demo_tab (V2P demo_user + 7).
Definition demo_space (n : nat) : vst := Vst (Kst (demo_image n) (free_head n) 0 false) 0 0 [] 0 0 0 0 [].

Ltac demo_lia := unfold demo_dir, demo_tab, demo_user, demo_free, demo_end, kpage, is_u32, KERNBASE, PHYSTOP, PGSIZE in *; lia.

Lemma free_list_in n v : v ∈ free_list n → ∃ k, (k < n)%nat ∧ v = demo_free k.
Proof.
  induction n as [|n IH]; cbn [free_list]; [by intros H%elem_of_nil|]. intros [->|H]%elem_of_cons; [by exists n; split; [lia|]|].
  destruct (IH H) as (k&?&->). exists k. split; [lia|done].
Qed.
Lemma free_list_pages n : (n ≤ 2000)%nat → Forall (kpage demo_end) (free_list n) ∧ NoDup (free_list n).
Proof.
  induction n as [|n IH]; intros Hn; cbn [free_list]; [split; constructor|]. destruct IH as [H1 H2]; [lia|]. split; constructor; [|done| |done].
  - unfold kpage. split_and!; [|demo_lia..]. unfold demo_free. rewrite (Z.mul_comm PGSIZE), Z.mod_add by done. done.
  - intros (k&Hk&E)%free_list_in. demo_lia.
Qed.
Lemma free_mem_chain n : (n ≤ 2000)%nat →
  chain (free_mem n) (free_head n) (free_list n) ∧ bytes_ok (free_mem n) ∧ ∀ x, x < demo_free 0 → free_mem n x = 0.
Proof.
  induction n as [|n IH]; intros Hn; cbn [free_mem free_head free_list chain].
  { split_and!; [done|intros x; unfold is_u8; lia|done]. }
  destruct IH as (H1&H2&H3); [lia|]. split_and!; [done| |by apply store32_bytes|].
  - rewrite load32_store32 by (destruct n; cbn; demo_lia). eapply chain_frame; [|exact H1].
    intros v x (k&Hk&->)%free_list_in Hx. apply store32_ne. demo_lia.
  - intros x Hx. rewrite store32_ne by demo_lia. by apply H3.
Qed.

Section demo.
Context (n : nat) (Hn : (n ≤ 2000)%nat).
Lemma demo_words k : 0 ≤ k < 1024 →
  load32 (demo_image n) (demo_dir + 4 * k) = (if k =? 0 then V2P demo_tab + 7 else 0) ∧
  load32 (demo_image n) (demo_tab + 4 * k) = (if k =? 0 then V2P demo_user + 7 else 0).
Proof.
  intros Hk. destruct (free_mem_chain n Hn) as (_&_&Hz).
  assert (Hw : ∀ a, a + 4 ≤ demo_free 0 → load32 (free_mem n) a = 0) by (intros a Ha; unfold load32; by rewrite !Hz by lia).
  unfold demo_image. destruct (Z.eqb_spec k 0) as [->|Hne]; rewrite ?Z.mul_0_r, ?Z.add_0_r.
  - split; [rewrite load32_store32_ne by demo_lia|]; by apply load32_store32.
  - split; rewrite !load32_store32_ne by demo_lia; apply Hw; demo_lia.
Qed.
Lemma demo_bytes : bytes_ok (demo_image n).
Proof. do 2 apply store32_bytes. by apply free_mem_chain. Qed.
Lemma demo_alloc : alloc_ok demo_end (free_list n) (demo_space n).
Proof.
  destruct (free_list_pages n Hn). split; [|destruct n; cbn; demo_lia|exact demo_bytes]. split; [|done|done|done].
  eapply chain_frame; [|by apply free_mem_chain]. intros v x (k&Hk&->)%free_list_in Hx. cbn. unfold demo_image. rewrite !store32_ne by demo_lia. done.
Qed.
Lemma demo_pte va : is_u32 va → get_pte (demo_image n) demo_dir va = if va / PGSIZE =? 0 then V2P demo_user + 7 else 0.
Proof.
  intros Hva. unfold get_pte, pte_at, tab, pde. pose proof (PDX_range va) as Hp. pose proof (PTX_range va) as Hq.
  rewrite (proj1 (demo_words (PDX va) Hp)). destruct (Z.eqb_spec (PDX va) 0) as [E|E].
  - change (present (V2P demo_tab + 7)) with true. change (P2V (PTE_ADDR (V2P demo_tab + 7))) with demo_tab. cbv iota.
    rewrite (proj2 (demo_words (PTX va) Hq)). rewrite PDX_eq, PTX_eq in *. unfold is_u32, PGSIZE in *. zcases; zdm.
  - change (present 0) with false. cbv iota. rewrite PDX_eq in *. unfold is_u32, PGSIZE in *. zcases; zdm.
Qed.
Lemma demo_space_ok : user_ok demo_end (demo_image n) demo_dir (free_list n).
Proof.
  assert (Hp : ∀ i, 0 ≤ i < 1024 → present (pde (demo_image n) demo_dir i) = true → i = 0).
  { intros i Hi. unfold pde. rewrite (proj1 (demo_words i Hi)). by destruct (Z.eqb_spec i 0). }
  assert (Ht : tab (demo_image n) demo_dir 0 = demo_tab) by (unfold tab, pde; by rewrite (proj1 (demo_words 0 ltac:(lia)))).
  assert (Hf : ∀ v, v < demo_free 0 → v ∉ free_list n) by (intros v Hv (k&Hk&->)%free_list_in; demo_lia).
  assert (Hva : ∀ va, umapped (demo_image n) demo_dir va → va / PGSIZE = 0 ∧ upg (demo_image n) demo_dir va = demo_user).
  { intros va [Hr Hpr]. unfold upg. rewrite demo_pte in * by (unfold is_u32, KERNBASE in *; lia). by destruct (Z.eqb_spec (va / PGSIZE) 0). }
  assert (Hk : ∀ j, 0 ≤ j < 3 → kpage demo_end (demo_end + j * PGSIZE)).
  { intros j Hj. split; [|demo_lia]. by rewrite Z.mod_add. }
  split; [split| |].
  - exact demo_bytes.
  - apply (Hk 0). lia.
  - apply Hf. demo_lia.
  - intros i Hi Hpr. rewrite (Hp i Hi Hpr), Ht. split_and!; [apply (Hk 1); lia|apply Hf; demo_lia|demo_lia].
  - intros i j Hi Hj H1 H2 _. by rewrite (Hp i Hi H1), (Hp j Hj H2).
  - intros va H. destruct (Hva va H) as [_ ->]. split_and!; [apply (Hk 2); lia|apply Hf; demo_lia|].
    intros [E|(i&Hi&Hpr&E)]; [demo_lia|]. rewrite (Hp i Hi Hpr), Ht in E. demo_lia.
  - intros va va' H H' _. destruct (Hva va H) as [-> _]. by destruct (Hva va' H') as [-> _].
Qed.
End demo.

Lemma demo_present n va : (n ≤ 2000)%nat → 0 ≤ va < PGSIZE → present (get_pte (demo_image n) demo_dir va) = true.
Proof.
  intros Hn Hva. rewrite demo_pte by (try done; unfold is_u32, PGSIZE in *; lia).
  rewrite (Z.div_small va PGSIZE) by done. done.
Qed.
Lemma free_list_length n : length (free_list n) = n.
Proof. induction n as [|n IH]; cbn; congruence. Qed.

Definition demo_data : Z := KERNBASE + 1052672.

(** With 1100 pages free the copy of a page is made. *)
Lemma copyuvm_copies_witness :
  wp (copyuvm demo_end demo_data demo_dir PGSIZE) (λ r s', ∃ fl', alloc_ok demo_end fl' s' ∧
    is_copy demo_end demo_data demo_dir PGSIZE (demo_image 1100) (free_list 1100) r (v_mem s') fl') (demo_space 1100).
Proof.
  eapply wp_mono.
  - apply (copyuvm_copies demo_end demo_data ltac:(done) ltac:(done) ltac:(split; done) (demo_space 1100) (free_list 1100) demo_dir PGSIZE).
    + apply demo_alloc. lia.
    + apply demo_space_ok. lia.
    + split; vm_compute; discriminate.
    + intros va Hva. apply demo_present; [lia|exact Hva].
  - cbn beta. intros r s' (fl'&Ha&_&[(_&_&Hl)|(_&Hc)]); [|exists fl'; split; [exact Ha|exact Hc]].
    exfalso. rewrite free_list_length in Hl. change (Z.to_nat (PGSIZE / PGSIZE)) with 1%nat in Hl. lia.
Defined.
