(* ===== verification/VmGrow.v ===== *)
(** * Growing and shrinking an address space: [allocuvm] and [deallocuvm]

    What sbrk and exec rely on: [allocuvm] maps zeroed pages of its own up to
    the new size, or leaves the user memory as it was when memory runs out;
    [deallocuvm] unmaps and frees exactly the pages above the new size.  Pages
    of other address spaces do not change and no page is lost. *)

From S2P Require Import Prelude Params CString Cprintf Kalloc Vm VmThms VmSpace VmCopy.

Section grow.
Context (end_ : Z) (He : KERNBASE < end_).
Abbreviation kp := (kpage end_).
Abbreviation inv := (pt_inv end_).

(** The pages of an address space, in a list. *)
Definition own_list (m : mem) (pd : Z) : list Z :=
  pd :: ((λ i, tab m pd (Z.of_nat i)) <$> filter (λ i, present (pde m pd (Z.of_nat i)) = true) (seq 0 1024)) ++
  ((λ i, upg m pd (PGSIZE * Z.of_nat i)) <$> filter (λ i, present (get_pte m pd (PGSIZE * Z.of_nat i)) = true) (seq 0 (Z.to_nat (KERNBASE / PGSIZE)))).
Lemma own_list_owns m pd q : q ∈ own_list m pd ↔ owns m pd q.
Proof.
  unfold own_list, owns, dir_page. rewrite elem_of_cons, elem_of_app, !list_elem_of_fmap. split.
  - intros [?|[(i&->&Hi)|(i&->&Hi)]]; [tauto| |]; apply list_elem_of_filter in Hi as [Hp Hi%elem_of_seq].
    + left. right. exists (Z.of_nat i). split_and!; [lia|lia|done|done].
    + right. exists (PGSIZE * Z.of_nat i). split; [|done]. split; [|done]. rewrite Nat.add_0_l in Hi. destruct Hi as [_ Hi].
      apply Nat2Z.inj_lt in Hi. rewrite Z2Nat.id in Hi by done. unfold KERNBASE, PGSIZE in *. zdm.
  - intros [[?|(i&Hi&Hp&->)]|(va&[Hr Hp]&->)]; [by left| |].
    + right. left. exists (Z.to_nat i). rewrite Z2Nat.id by lia. split; [done|]. apply list_elem_of_filter. rewrite Z2Nat.id by lia.
      split; [done|]. apply elem_of_seq. lia.
    + right. right. exists (Z.to_nat (va / PGSIZE)). assert (0 ≤ va / PGSIZE) by (unfold PGSIZE; zdm).
      assert (Eg : get_pte m pd (PGSIZE * Z.of_nat (Z.to_nat (va / PGSIZE))) = get_pte m pd va).
      { rewrite Z2Nat.id by done. apply get_pte_same_page; unfold is_u32, KERNBASE, PGSIZE in *; zdm. }
      unfold upg. rewrite Eg. split; [done|]. apply list_elem_of_filter. rewrite Eg. split; [done|]. apply elem_of_seq.
      split; [lia|]. rewrite Nat.add_0_l. apply Nat2Z.inj_lt. rewrite !Z2Nat.id by done. unfold KERNBASE, PGSIZE in *. zdm.
Qed.

(** An address space as the start of a larger one. *)
Lemma growing_start s pd fl :
  inv pd fl s → user_ok end_ (v_mem s) pd fl → building end_ pd (v_mem s) (own_list (v_mem s) pd ++ fl) [] s fl.
Proof.
  intros Hi Hu. split; [done|done| | |done].
  - intros q. rewrite elem_of_app, own_list_owns, elem_of_nil. tauto.
  - intros q Hq. by apply elem_of_nil in Hq.
Qed.

(** [deallocuvm] in the course of the construction of an address space. *)
Lemma building_dealloc pd m0 fl0 ex s fl oldsz newsz :
  building end_ pd m0 fl0 ex s fl → 0 ≤ oldsz ≤ KERNBASE → 0 ≤ newsz ≤ KERNBASE →
  wp (deallocuvm end_ pd oldsz newsz) (λ r s', r = Z.min oldsz newsz ∧ ∃ fl', building end_ pd m0 fl0 ex s' fl' ∧
    unmaps end_ pd (in_range (PGROUNDUP newsz) oldsz) (v_mem s) fl (v_mem s') fl') s.
Proof.
  intros [Hi Hu Ht Hx Hk] Ho Hn. eapply wp_mono; [by apply (deallocuvm_wp end_ He s pd fl oldsz newsz Hi Hu)|]. cbn beta.
  intros r s' (->&fl'&Hi'&Hu'&Hun). split; [done|]. exists fl'. split; [|done]. pose proof Hun as [F P D K]. set (R := in_range _ _) in *. clearbody R.
  assert (Hum : ∀ va, umapped (v_mem s') pd va ↔ umapped (v_mem s) pd va ∧ R va = false).
  { intros va. unfold umapped. split.
    - intros [Hr Hp]. rewrite P in Hp by (unfold is_u32, KERNBASE in *; lia). destruct (R va); cbn [andb] in Hp; [|done].
      by destruct (present (get_pte (v_mem s) pd va)) eqn:E; rewrite ?E in Hp.
    - intros [[Hr Hp] HR]. split; [done|]. rewrite P by (unfold is_u32, KERNBASE in *; lia). by rewrite HR. }
  assert (Hup : ∀ va, umapped (v_mem s) pd va → R va = false → upg (v_mem s') pd va = upg (v_mem s) pd va).
  { intros va [Hr _] HR. unfold upg. rewrite P by (unfold is_u32, KERNBASE in *; lia). by rewrite HR. }
  assert (Hall : ∀ q, q ∈ fl' ∨ owns (v_mem s') pd q ↔ q ∈ fl ∨ owns (v_mem s) pd q).
  { intros q. rewrite F. unfold owns. rewrite D. split.
    - intros [[?|(va&?&_&->)]|[?|(va&Hm&->)]]; [tauto|right; right; eauto|tauto|]. apply Hum in Hm as [Hm HR]. rewrite Hup by done. right; right; eauto.
    - intros [?|[?|(va&Hm&->)]]; [tauto|tauto|]. destruct (R va) eqn:HR; [left; right; eauto|]. right. right. exists va. rewrite Hup by done. by rewrite Hum. }
  split; [done|done| | |].
  - intros q. rewrite Ht. specialize (Hall q). tauto.
  - intros q Hq. destruct (Hx q Hq) as (?&?&?). specialize (Hall q). tauto.
  - intros q Hq Hnq x Hxx. specialize (Hall q). rewrite Ht in Hnq. rewrite (K q); [apply (Hk q); [done|by rewrite Ht|done]|done|tauto|unfold owns in *; tauto|done].
Qed.

(** The change of one address space, for which pages may be taken or given
    back: no page is lost, and the kernel's part and the pages of others stay
    as they are. *)
Record resized (pd : Z) (m : mem) (fl : list Z) (m' : mem) (fl' : list Z) : Prop := {
  rz_user : user_ok end_ m' pd fl';
  rz_pages q : q ∈ fl' ∨ owns m' pd q ↔ q ∈ fl ∨ owns m pd q;
  rz_others q : kp q → (q ∉ fl) → ¬ owns m pd q → keeps q m m';
  rz_kernel va : KERNBASE ≤ va < 4294967296 → get_pte m' pd va = get_pte m pd va;
}.
(** The user memory below [a] is the same, and there is none from [a] on. *)
Definition same_below (pd a : Z) (m m' : mem) : Prop :=
  ∀ va, 0 ≤ va < KERNBASE →
    (va < a → get_pte m' pd va = get_pte m pd va ∧ (present (get_pte m pd va) = true → ubyte m' pd va = ubyte m pd va)) ∧
    (a ≤ va → present (get_pte m' pd va) = false).

Lemma building_resized pd m fl s' fl' :
  building end_ pd m (own_list m pd ++ fl) [] s' fl' →
  (∀ va, KERNBASE ≤ va < 4294967296 → get_pte (v_mem s') pd va = get_pte m pd va) → resized pd m fl (v_mem s') fl'.
Proof.
  intros [Hi Hu Ht Hx Hk] Hg. split; [done| | |done].
  - intros q. specialize (Ht q). rewrite elem_of_app, own_list_owns, elem_of_nil in Ht. tauto.
  - intros q Hq Hn Ho. apply Hk; [done|]. rewrite elem_of_app, own_list_owns. tauto.
Qed.

(** A byte of a page that stays mapped is kept when others are unmapped. *)
Lemma unmaps_byte pd R m fl m' fl' va :
  unmaps end_ pd R m fl m' fl' → user_ok end_ m' pd fl' → umapped m pd va → R va = false → ubyte m' pd va = ubyte m pd va.
Proof.
  intros [F P D K] Hu [Hr Hp] HR. assert (Hg : get_pte m' pd va = get_pte m pd va).
  { rewrite P by (unfold is_u32, KERNBASE in *; lia). by rewrite HR. }
  destruct (uo_page _ _ _ _ Hu va) as (H1&H2&H3); [split; [done|by rewrite Hg]|].
  assert (Eu : upg m' pd va = upg m pd va) by (unfold upg; by rewrite Hg). rewrite Eu in *.
  apply ubyte_keeps; [done|]. apply K; [done|done|]. by rewrite <-D.
Qed.

(** The pages added so far are taken out again. *)
Lemma filled_undone pd a0 a newsz m0 m fl m' fl' :
  filled pd a0 a (λ _, 7) (λ _, 0) (get_pte m0 pd) (ubyte m0 pd) m → unmaps end_ pd (in_range a0 newsz) m fl m' fl' → user_ok end_ m' pd fl' →
  a0 mod PGSIZE = 0 → a mod PGSIZE = 0 → 0 ≤ a0 ≤ a → a < newsz < KERNBASE →
  (∀ va, a0 ≤ va < KERNBASE → present (get_pte m0 pd va) = false) →
  same_below pd a0 m0 m' ∧ ∀ va, KERNBASE ≤ va < 4294967296 → get_pte m' pd va = get_pte m0 pd va.
Proof.
  intros [F1 F2 F3] Hun Hu Ha0 Ha Hle Hlt Hno. split.
  - intros va Hva. assert (is_u32 va) as Hv by (unfold is_u32, KERNBASE in *; lia). split.
    + intros Hb. assert (HR : in_range a0 newsz va = false) by (unfold in_range; by rewrite (proj2 (Z.leb_gt a0 va))).
      assert (Hg : get_pte m' pd va = get_pte m pd va) by (by rewrite (un_pte _ _ _ _ _ _ _ Hun), HR).
      rewrite Hg, F2 by (done || lia). split; [done|]. intros Hp.
      rewrite (unmaps_byte pd _ m fl m' fl' va Hun Hu); [by apply F3; [|left|]| |done]. split; [done|]. by rewrite F2 by (done || lia).
    + intros Hge. rewrite (un_pte _ _ _ _ _ _ _ Hun) by done. destruct (Z.lt_ge_cases va a).
      * destruct (F1 va) as (-> & _); [lia|]. assert (in_range a0 newsz va = true) as ->; [|done].
        unfold in_range. apply andb_true_iff. split; [by apply Z.leb_le|apply Z.ltb_lt]. unfold PGSIZE in *. zdm.
      * rewrite F2 by (done || lia). rewrite Hno by lia. rewrite andb_false_r. apply Hno. lia.
  - intros va Hva. assert (is_u32 va) by (unfold is_u32, KERNBASE in *; lia). rewrite (un_pte _ _ _ _ _ _ _ Hun) by done.
    assert (in_range a0 newsz va = false) as -> by (unfold in_range; apply andb_false_iff; right; apply Z.ltb_ge; unfold KERNBASE, PGSIZE in *; zdm).
    apply F2; [done|]. lia.
Qed.

Lemma building_vk pd m0 fl0 ex s s' fl : v_k s' = v_k s → building end_ pd m0 fl0 ex s fl → building end_ pd m0 fl0 ex s' fl.
Proof.
  intros E. assert (v_mem s' = v_mem s) as Em by (unfold v_mem; by rewrite E).
  intros [[I1 I2 I3] Hu Ht Hx Hk]. split; rewrite ?Em; try done. split; rewrite ?E, ?Em; done.
Qed.

(** What [allocuvm] does when it runs out of memory. *)
Lemma grow_fails {A} pd m0 fl0 ex s fl a oldsz newsz msg (k : M vst A) (Q : A → vst → Prop) :
  building end_ pd m0 fl0 ex s fl → filled pd (PGROUNDUP oldsz) a (λ _, 7) (λ _, 0) (get_pte m0 pd) (ubyte m0 pd) (v_mem s) →
  0 ≤ oldsz → PGROUNDUP oldsz ≤ a → a mod PGSIZE = 0 → a < newsz < KERNBASE → oldsz ≤ newsz →
  (∀ va, PGROUNDUP oldsz ≤ va < KERNBASE → present (get_pte m0 pd va) = false) →
  (∀ s' fl', building end_ pd m0 fl0 ex s' fl' → same_below pd (PGROUNDUP oldsz) m0 (v_mem s') →
    (∀ va, KERNBASE ≤ va < 4294967296 → get_pte (v_mem s') pd va = get_pte m0 pd va) → wp k Q s') →
  wp (vprint msg;; deallocuvm end_ pd newsz oldsz;; k) Q s.
Proof.
  intros Hbu Hfi Ho Hle Ha Hlt Hon Hno HQ. destruct (PGROUNDUP_range oldsz) as (Hm&Hr&_); [lia|].
  apply wp_bind, wp_modify, wp_bind. eapply wp_mono; [apply (building_dealloc pd m0 fl0 ex _ fl newsz oldsz); [by apply (building_vk pd m0 fl0 ex s)|lia|lia]|].
  cbn beta. intros _ s' (_&fl'&Hb'&Hun). change (v_mem (on_out _ s)) with (v_mem s) in Hun.
  destruct (filled_undone pd (PGROUNDUP oldsz) a newsz m0 (v_mem s) fl (v_mem s') fl' Hfi Hun (bu_user _ _ _ _ _ _ _ Hb') Hm Ha) as [H1 H2]; try done; [lia|].
  by apply (HQ s' fl').
Qed.

(** One page of [allocuvm]. *)
Lemma grow_step n pd m0 fl0 s fl a oldsz newsz (Q : Z → vst → Prop) :
  building end_ pd m0 fl0 [] s fl → filled pd (PGROUNDUP oldsz) a (λ _, 7) (λ _, 0) (get_pte m0 pd) (ubyte m0 pd) (v_mem s) →
  0 ≤ oldsz → PGROUNDUP oldsz ≤ a → a mod PGSIZE = 0 → a < newsz < KERNBASE → oldsz ≤ newsz →
  (∀ va, PGROUNDUP oldsz ≤ va < KERNBASE → present (get_pte m0 pd va) = false) →
  (∀ s' fl', building end_ pd m0 fl0 [] s' fl' → filled pd (PGROUNDUP oldsz) (a + PGSIZE) (λ _, 7) (λ _, 0) (get_pte m0 pd) (ubyte m0 pd) (v_mem s') →
    wp (allocuvm_loop end_ n pd (a + PGSIZE) oldsz newsz) Q s') →
  (∀ s1 ex s' fl', building end_ pd m0 fl0 ex s1 [] → (length ex ≤ 1)%nat → (∀ va, umapped (v_mem s1) pd va → va < a) →
    building end_ pd m0 fl0 [] s' fl' → same_below pd (PGROUNDUP oldsz) m0 (v_mem s') →
    (∀ va, KERNBASE ≤ va < 4294967296 → get_pte (v_mem s') pd va = get_pte m0 pd va) → Q 0 s') →
  wp (allocuvm_loop end_ (S n) pd a oldsz newsz) Q s.
Proof.
  intros Hbu Hfi Ho Hle Ha Hlt Hon Hno Hgo Hfail. cbn [allocuvm_loop]. rewrite (proj2 (Z.ltb_lt a newsz)) by lia.
  destruct (PGROUNDUP_range oldsz) as (_&Hr&_); [lia|].
  assert (Hlim : ∀ s', filled pd (PGROUNDUP oldsz) a (λ _, 7) (λ _, 0) (get_pte m0 pd) (ubyte m0 pd) (v_mem s') →
    ∀ va, umapped (v_mem s') pd va → va < a).
  { intros s' Hf' va [Hva Hp]. destruct (Z.lt_ge_cases va a); [done|]. rewrite (fi_rest _ _ _ _ _ _ _ _ Hf') in Hp by (unfold is_u32, KERNBASE in *; lia).
    by rewrite Hno in Hp by lia. }
  apply wp_bind. eapply wp_mono; [by apply (building_alloc end_ pd m0 fl0)|]. cbn beta. intros r s1 [Em Hal]. rewrite <-Em in Hfi. destruct fl as [|v fl].
  { destruct Hal as [-> Hb1]. cbn [Z.eqb]. eapply (grow_fails pd m0 fl0 [] s1 []); try done. intros s' fl' H1 H2 H3. apply wp_ret.
    by apply (Hfail s1 [] s' fl'); [|cbn; lia|apply Hlim|..]. }
  destruct Hal as (->&Hkv&Hb1). rewrite (proj2 (Z.eqb_neq v 0)) by (unfold kpage, KERNBASE in *; lia).
  apply wp_bind, wp_modify.
  destruct (filled_fill end_ pd (PGROUNDUP oldsz) a _ _ _ _ m0 fl0 v s1 fl (λ m, memset m v 0 PGSIZE) Hb1 Hfi) as [Hb2 Hf2]; [lia|lia| | |].
  { apply memset_bytes; [done|]. apply (do_bytes _ _ _ _ (pi_dir _ _ _ _ (bu_inv _ _ _ _ _ _ _ Hb1))). }
  { intros x Hx. rewrite memset_correct by done. unfold off_page in Hx. zcases. }
  set (s2 := on_mem _ s1) in *. assert (Hz : ∀ o, 0 ≤ o < PGSIZE → v_mem s2 (v + o) = 0).
  { intros o Hoo. unfold s2, v_mem, on_mem. cbn. rewrite memset_correct by done. rewrite (proj2 (Z.leb_le v _)), (proj2 (Z.ltb_lt _ (v + PGSIZE))) by lia. done. }
  clearbody s2. apply wp_bind.
  eapply wp_mono; [apply (map_filled end_ pd (PGROUNDUP oldsz) a _ _ _ _ m0 fl0 v (Z.lor PTE_W PTE_U) s2 fl Hb2 Hf2 Ha); try done; [lia|lia|apply Hno; lia|]|].
  { intros o Hoo. by rewrite Hz. }
  cbn beta. intros r s3 [(->&fl3&Hb3&Hf3)|(->&Hb3&Hf3)]; cbn [Z.ltb Z.compare].
  - rewrite u32_id by (unfold is_u32, KERNBASE, PGSIZE in *; lia). by apply (Hgo s3 fl3).
  - eapply (grow_fails pd m0 fl0 [v] s3 []); try done. intros s4 fl4 H1 H2 H3.
    apply wp_bind. eapply wp_mono; [by apply (building_kfree end_ He pd m0 fl0 v s4 fl4)|]. cbn beta. intros _ s5 (Hb5&Hg5&Hk5). apply wp_ret.
    apply (Hfail s3 [v] s5 (v :: fl4)); [done|done|by apply Hlim|done| |intros va Hva; by rewrite Hg5, H3].
    intros va Hva. destruct (H2 va Hva) as [L1 L2]. rewrite Hg5. split; [|done]. intros Hb. destruct (L1 Hb) as [E1 E2].
    split; [done|]. intros Hp. rewrite <-E2 by done. apply ubyte_keeps; [done|]. apply Hk5. split; [done|]. by rewrite E1.
Qed.

Lemma allocuvm_loop_wp n l pd m0 fl0 s fl a oldsz newsz :
  building end_ pd m0 fl0 [] s fl → NoDup l → (∀ q, q ∈ l → q ∈ fl0) →
  filled pd (PGROUNDUP oldsz) a (λ _, 7) (λ _, 0) (get_pte m0 pd) (ubyte m0 pd) (v_mem s) →
  0 ≤ oldsz → PGROUNDUP oldsz ≤ a < newsz + PGSIZE → a mod PGSIZE = 0 → newsz < KERNBASE → oldsz ≤ newsz →
  newsz + PGSIZE ≤ a + PGSIZE * Z.of_nat n →
  (∀ va, PGROUNDUP oldsz ≤ va < KERNBASE → present (get_pte m0 pd va) = false) →
  wp (allocuvm_loop end_ n pd a oldsz newsz) (λ r s', ∃ fl', building end_ pd m0 fl0 [] s' fl' ∧
    (r = newsz ∧ (∃ j, j mod PGSIZE = 0 ∧ newsz ≤ j < newsz + PGSIZE ∧
       filled pd (PGROUNDUP oldsz) j (λ _, 7) (λ _, 0) (get_pte m0 pd) (ubyte m0 pd) (v_mem s')) ∨
     r = 0 ∧ (length l ≤ 1026 + Z.to_nat (newsz / PGSIZE))%nat ∧ same_below pd (PGROUNDUP oldsz) m0 (v_mem s') ∧
       ∀ va, KERNBASE ≤ va < 4294967296 → get_pte (v_mem s') pd va = get_pte m0 pd va)) s.
Proof.
  revert s fl a. induction n as [|n IH]; intros s fl a Hbu Hnd Hsub Hfi Ho Ha Ham Hk Hon Hf Hno; [cbn in Hf; lia|].
  destruct (Z.lt_ge_cases a newsz) as [Hlt|Hge].
  - apply (grow_step n pd m0 fl0 s fl a oldsz newsz); try done; try lia.
    + intros s' fl' Hb' Hf'. apply (IH s' fl'); try done; unfold PGSIZE in *; try lia; zdm.
    + intros s1 ex s' fl' Hb1 Hex Hlow Hb' Hs Hker. exists fl'. split; [done|]. right. split_and!; [done| |done|done].
      pose proof (PGROUNDUP_range oldsz ltac:(lia)) as (_&Hr&_).
      pose proof (building_exhausted_of end_ l pd m0 fl0 ex s1 (Z.to_nat (a / PGSIZE)) Hb1 Hnd Hsub) as Hl.
      assert (a / PGSIZE ≤ newsz / PGSIZE) by (apply Z.div_le_mono; unfold PGSIZE; lia). assert (0 ≤ a / PGSIZE) by (unfold PGSIZE; zdm).
      assert (length l ≤ 1025 + Z.to_nat (a / PGSIZE) + length ex)%nat.
      { apply Hl. intros va Hva. rewrite Z2Nat.id by done. specialize (Hlow va Hva). unfold PGSIZE in *. zdm. }
      apply Z2Nat.inj_le in H; lia.
  - cbn [allocuvm_loop]. rewrite (proj2 (Z.ltb_ge a newsz)) by lia. apply wp_ret. exists fl. split; [done|]. left. split; [done|].
    exists a. split_and!; try done; lia.
Qed.

(** The user memory from [PGROUNDUP oldsz] up to [newsz] is mapped to zeroed
    pages that the process may write; below and above it is the same. *)
Definition grown (pd oldsz newsz : Z) (m m' : mem) : Prop :=
  ∀ va, 0 ≤ va < KERNBASE →
    if in_range (PGROUNDUP oldsz) newsz va then has m' pd va 7 0
    else get_pte m' pd va = get_pte m pd va ∧ (present (get_pte m pd va) = true → ubyte m' pd va = ubyte m pd va).

Lemma filled_grown pd oldsz newsz j m m' :
  0 ≤ oldsz ≤ newsz → newsz < KERNBASE → j mod PGSIZE = 0 → newsz ≤ j < newsz + PGSIZE →
  filled pd (PGROUNDUP oldsz) j (λ _, 7) (λ _, 0) (get_pte m pd) (ubyte m pd) m' →
  grown pd oldsz newsz m m' ∧ ∀ va, KERNBASE ≤ va < 4294967296 → get_pte m' pd va = get_pte m pd va.
Proof.
  intros Hle Hk Hj Hjr [F1 F2 F3]. split.
  - intros va Hva. assert (is_u32 va) by (unfold is_u32, KERNBASE in *; lia). destruct (in_range _ _ va) eqn:E; unfold in_range in E.
    + apply andb_true_iff in E as [E1%Z.leb_le E2%Z.ltb_lt]. apply F1. unfold PGSIZE in *. zdm.
    + assert (va < PGROUNDUP oldsz ∨ j ≤ va) as Ho.
      { apply andb_false_iff in E as [E%Z.leb_gt|E%Z.ltb_ge]; [by left|right]. unfold PGSIZE in *. zdm. }
      split; [by apply F2|]. by apply F3.
  - intros va Hva. apply F2; [unfold is_u32, KERNBASE in *; lia|]. right. unfold KERNBASE, PGSIZE in *. zdm.
Qed.

(** The pages that were there, [l] of them, bound the size that can be
    reached. *)
Lemma allocuvm_wp_of l s pd fl oldsz newsz :
  inv pd fl s → user_ok end_ (v_mem s) pd fl → NoDup l → (∀ q, q ∈ l → q ∈ fl ∨ owns (v_mem s) pd q) →
  0 ≤ oldsz ≤ newsz → newsz < KERNBASE →
  (∀ va, PGROUNDUP oldsz ≤ va < KERNBASE → present (get_pte (v_mem s) pd va) = false) →
  wp (allocuvm end_ pd oldsz newsz) (λ r s', ∃ fl', inv pd fl' s' ∧ resized pd (v_mem s) fl (v_mem s') fl' ∧
    (r = newsz ∧ grown pd oldsz newsz (v_mem s) (v_mem s') ∨
     r = 0 ∧ (length l ≤ 1026 + Z.to_nat (newsz / PGSIZE))%nat ∧ same_below pd (PGROUNDUP oldsz) (v_mem s) (v_mem s'))) s.
Proof.
  intros Hi Hu Hnd Hsub Ho Hk Hno. unfold allocuvm. rewrite (proj2 (Z.leb_gt KERNBASE newsz)), (proj2 (Z.ltb_ge newsz oldsz)) by lia.
  destruct (PGROUNDUP_range oldsz) as (Hm&Hr&_); [lia|].
  eapply wp_mono; [apply (allocuvm_loop_wp _ l pd (v_mem s) _ s fl (PGROUNDUP oldsz) oldsz newsz (growing_start s pd fl Hi Hu)); try done; try lia|].
  - intros q Hq. rewrite elem_of_app, own_list_owns. destruct (Hsub q Hq); tauto.
  - split; [intros va Hva; lia|done|done].
  - rewrite Nat2Z.inj_succ. destruct (Z.lt_ge_cases newsz (PGROUNDUP oldsz)); [unfold PGSIZE in *; lia|].
    rewrite Z2Nat.id by (unfold PGSIZE in *; zdm). unfold PGSIZE in *. zdm.
  - cbn beta. intros r s' (fl'&Hb&Hr'). exists fl'. split; [apply Hb|]. destruct Hr' as [(->&j&Hj&Hjr&Hf)|(->&Hl&Hs&Hg)].
    + destruct (filled_grown pd oldsz newsz j (v_mem s) (v_mem s') Ho Hk Hj Hjr Hf) as [H1 H2]. split; [by apply building_resized|by left].
    + split; [by apply building_resized|by right].
Qed.
Lemma allocuvm_wp s pd fl oldsz newsz :
  inv pd fl s → user_ok end_ (v_mem s) pd fl → 0 ≤ oldsz ≤ newsz → newsz < KERNBASE →
  (∀ va, PGROUNDUP oldsz ≤ va < KERNBASE → present (get_pte (v_mem s) pd va) = false) →
  wp (allocuvm end_ pd oldsz newsz) (λ r s', ∃ fl', inv pd fl' s' ∧ resized pd (v_mem s) fl (v_mem s') fl' ∧
    (r = newsz ∧ grown pd oldsz newsz (v_mem s) (v_mem s') ∨
     r = 0 ∧ (length fl ≤ 1026 + Z.to_nat (newsz / PGSIZE))%nat ∧ same_below pd (PGROUNDUP oldsz) (v_mem s) (v_mem s'))) s.
Proof. intros Hi Hu. apply allocuvm_wp_of; [done|done|apply (fp_nodup _ _ _ (pi_free _ _ _ _ Hi))|by left]. Qed.

Lemma dealloc_wp s pd fl oldsz newsz :
  inv pd fl s → user_ok end_ (v_mem s) pd fl → 0 ≤ newsz ≤ oldsz → oldsz ≤ KERNBASE →
  (∀ va, PGROUNDUP oldsz ≤ va < KERNBASE → present (get_pte (v_mem s) pd va) = false) →
  wp (deallocuvm end_ pd oldsz newsz) (λ r s', r = newsz ∧ ∃ fl', inv pd fl' s' ∧ resized pd (v_mem s) fl (v_mem s') fl' ∧
    same_below pd (PGROUNDUP newsz) (v_mem s) (v_mem s')) s.
Proof.
  intros Hi Hu Hn Ho Hno. destruct (PGROUNDUP_range oldsz) as (Hm&Hr&_); [lia|]. destruct (PGROUNDUP_range newsz) as (Hm'&Hr'&_); [lia|].
  eapply wp_mono; [apply (building_dealloc pd _ _ [] s fl oldsz newsz (growing_start s pd fl Hi Hu)); lia|].
  cbn beta. intros r s' (->&fl'&Hb&Hun). split; [lia|]. exists fl'. split; [apply Hb|]. split.
  - apply building_resized; [done|]. intros va Hva. rewrite (un_pte _ _ _ _ _ _ _ Hun) by (unfold is_u32, KERNBASE in *; lia).
    assert (in_range (PGROUNDUP newsz) oldsz va = false) as ->; [|done].
    unfold in_range. apply andb_false_iff. right. apply Z.ltb_ge. unfold KERNBASE, PGSIZE in *. zdm.
  - intros va Hva. assert (is_u32 va) by (unfold is_u32, KERNBASE in *; lia). rewrite (un_pte _ _ _ _ _ _ _ Hun) by done. split.
    + intros Hb'. assert (in_range (PGROUNDUP newsz) oldsz va = false) as E by (unfold in_range; by rewrite (proj2 (Z.leb_gt _ va))).
      rewrite E. split; [done|]. intros Hp. apply (unmaps_byte pd _ _ _ _ _ va Hun (bu_user _ _ _ _ _ _ _ Hb)); [by split|done].
    + intros Hge. destruct (in_range _ _ va) eqn:E.
      * by destruct (present (get_pte (v_mem s) pd va)) eqn:Ep; cbn [andb]; rewrite ?Ep.
      * apply Hno. split; [|lia]. unfold in_range in E. rewrite (proj2 (Z.leb_le _ va)) in E by done. apply Z.ltb_ge in E. unfold PGSIZE in *. zdm.
Qed.
Lemma resized_refl pd m fl : user_ok end_ m pd fl → resized pd m fl m fl.
Proof. intros Hu. by split. Qed.
End grow.
