(* ===== verification/VmProc.v ===== *)
(** * Processes on top of virtual memory

    The memory interface of the process code ([ProcState.MemOps]) implemented
    by [kalloc.c] and [vm.c], and what the process code does when memory runs
    out. *)

From S2P Require Import Prelude Params CString Cprintf Rand ProcState Sched Proc ProcCalls ProcSpec ProcRefine ProcThms ProcLife Kalloc Vm VmThms.

Section inst.
Context (end_ data_ ts_addr : Z).

#[export] Instance vm_ops : MemOps vst := {
  ProcState.kalloc := vm_kalloc;
  ProcState.kfree := vm_kfree end_;
  ProcState.setupkvm := Vm.setupkvm end_ data_;
  ProcState.inituvm := Vm.inituvm;
  ProcState.allocuvm := Vm.allocuvm end_;
  ProcState.deallocuvm := Vm.deallocuvm end_;
  ProcState.copyuvm := Vm.copyuvm end_ data_;
  ProcState.freevm := Vm.freevm end_;
  ProcState.switchuvm := Vm.switchuvm ts_addr;
  ProcState.switchkvm := Vm.switchkvm;
}.

Context {F : Type} `{!FileOps F}.

Lemma lift_k_wp {A} (m : M kst A) (Q : A → vst → Prop) s :
  wp m (λ a k, Q a (on_k (λ _, k) s)) (v_k s) → wp (lift_k m) Q s.
Proof. unfold wp, lift_k. by destruct (m (v_k s)). Qed.

(** When no page is free, fork returns -1: the slot it had taken is unused
    again, no other slot changes, no lock stays held, and still no page is
    free. *)
Theorem fork_out_of_memory c (s : pst vst F) i np p :
  running s !! c = Some (Some i) → (L_ptable ∉ held s) →
  list_find (λ p, p_state p = UNUSED) (ptable s) = Some (np, p) →
  free_pages end_ (v_k (vm s)) [] →
  wp (fork c) (λ r s', r = -1 ∧ held s' = held s ∧ free_pages end_ (v_k (vm s')) [] ∧
    ∃ q, ptable s' = <[np := q]> (ptable s) ∧ p_state q = UNUSED ∧ p_kstack q = 0) s.
Proof.
  intros Hc Hh Hfind Hfree. pose proof Hfind as Hfind'.
  apply list_find_Some in Hfind' as (Hp&Hu&_). pose proof (lookup_lt_Some _ _ _ Hp) as Hlt.
  unfold fork. apply wp_bind. eapply wp_curproc; [done|]. apply wp_bind.
  unfold allocproc. apply wp_bind, wp_acquire; [done|].
  apply wp_bind, wp_gets. kproj. rewrite Hfind.
  apply wp_bind, wp_gets, wp_bind, wp_gets, wp_bind, wp_modify.
  apply wp_bind. eapply wp_proc_upd; [done|]. apply wp_bind, wp_release; [by left|]. kproj.
  destruct (wp_elim _ _ _ (kalloc_wp end_ (v_k (vm s)) [] Hfree)) as (r&k&Hk&_&_&->&Hfree').
  apply wp_bind. eapply (wp_lift_vm _ _ _ 0 (on_k (λ _, k) (vm s))).
  { cbn. unfold vm_kalloc, lift_k. by rewrite Hk. }
  apply wp_bind. eapply wp_proc_upd; [kproj; by apply list_lookup_insert_eq|]. simpl (0 =? 0). cbv iota.
  apply wp_bind. eapply wp_proc_upd; [kproj; apply list_lookup_insert_eq; by rewrite length_insert|].
  apply wp_ret, wp_ret. kproj. rewrite !list_insert_insert_eq, filter_top by done.
  split_and!; [done..|]. eexists. split_and!; done.
Qed.
End inst.

(** ** Witness *)

Import Demo.

Definition demo_full : pst vst unit :=
  Pst (ptable Demo.s2) (pptable Demo.s2) (initproc Demo.s2) (nextpid Demo.s2) 0 [Some 0%nat] []
    rng_boot [] true (Vst demo_kst 0 0 [] 0 0 0 0 []) tt.

Lemma fork_out_of_memory_witness :
  wp (fork (MemOps0 := vm_ops demo_end 0 0) 0) (λ r s', r = -1 ∧ held s' = []) demo_full.
Proof.
  eapply wp_mono.
  - apply (fork_out_of_memory demo_end 0 0 0 demo_full 0 1 (default zero_proc (ptable demo_full !! 1%nat))).
    + reflexivity.
    + apply not_elem_of_nil.
    + apply (find_slot (λ p, p_state p = UNUSED)). vm_compute. reflexivity.
    + exact demo_kst_free.
  - cbn beta. intros r s' (->&Hh&_). split; [reflexivity|exact Hh].
Defined.
