(* ===== verification/VmFork.v ===== *)
(** * fork and sbrk over virtual memory

    The process code ([fork], [growproc]) on the memory operations of vm.c
    ([vm_ops]): what a process and its child share, what a process gets when
    it grows or shrinks, and what happens when memory runs out. *)

From S2P Require Import Prelude Params CString Cprintf Rand ProcState Sched Proc ProcCalls ProcSpec ProcRefine ProcThms ProcLife Kalloc Vm VmThms VmSpace VmCopy VmGrow VmProc.

Section fork.
Context (end_ data_ ts_addr : Z).
Context (He : KERNBASE < end_) (Hda : data_ mod PGSIZE = 0) (Hd : KERNLINK < data_ < KERNBASE + PHYSTOP).
Context {F : Type} `{!FileOps F}.
Context (finv : F → Prop) (files : nat → Prop) (dirs : option nat → Prop).
Hypothesis filedup_ok : ∀ f x, files f → finv x → ∃ x', filedup f x = Ok f x' ∧ finv x'.
Hypothesis idup_ok : ∀ d x, dirs d → finv x → ∃ x', idup d x = Ok d x' ∧ finv x'.
Abbreviation vops := (vm_ops end_ data_ ts_addr).

(** The child of [cur] in slot [i]: everything but the memory. *)
Record child_of (i : nat) (cur child : proc) (pid : Z) : Prop := {
  co_state : p_state child = RUNNABLE;
  co_pid : p_pid child = pid;
  co_parent : p_parent child = Some i;
  co_sz : p_sz child = p_sz cur;
  co_ofile : p_ofile child = p_ofile cur;
  co_cwd : p_cwd child = p_cwd cur;
  co_tf : p_tf child = set_tf_eax 0 (p_tf cur);
  co_name : cstr (p_name child) = cstr (take 15 (p_name cur));
  co_log : p_sysclog child = empty_log;
}.

(** Giving the kernel stack back after a failed copy. *)
Lemma kstack_back (v1 v2 : vst) k fl1 fl2 :
  kpage end_ k → (k ∉ fl1) → alloc_ok end_ fl2 v2 → fl2 ≡ₚ fl1 → (∀ q, kpage end_ q → (q ∉ fl1) → keeps q (v_mem v1) (v_mem v2)) →
  ∃ v3, vm_kfree end_ k v2 = Ok tt v3 ∧ alloc_ok end_ (k :: fl2) v3 ∧
    ∀ q, kpage end_ q → (q ∉ k :: fl1) → keeps q (v_mem v1) (v_mem v3).
Proof.
  intros Hk Hn [Hf Hh Hb] Hpm Hkeep. assert (k ∉ fl2) as Hn2 by (by rewrite Hpm).
  destruct (wp_elim _ _ _ (vm_kfree_wp end_ He v2 fl2 k Hf Hh Hb Hk Hn2)) as ([]&v3&E&Hf3&Hh3&Hb3&Hm3).
  exists v3. split_and!; [done|by split|]. intros q Hq Hnq x Hx. apply not_elem_of_cons in Hnq as [Hne Hnq].
  rewrite Hm3; [by apply (Hkeep q)|]. by apply (off_other end_ k q x).
Qed.

(** C26. fork on the kernel's own memory management: with a slot free it
    returns, with no lock held.  Either the first free slot is a runnable
    child with the next pid, the caller's registers but %eax = 0, files,
    directory, name and size, its kernel stack is a page of its own, and its
    page directory is a copy of the caller's address space in pages that no
    one had; or the result is -1, the slot is unused, exactly the pages that
    were free are free, and those were too few.  Either way the address spaces
    of all processes keep their mappings and contents. *)
Theorem fork_copies c (s : pst vst F) i cur np p fl :
  running s !! c = Some (Some i) → ptable s !! i = Some cur → p_state cur ≠ UNUSED →
  length (p_ofile cur) = Z.to_nat NOFILE → length (p_name cur) = 16%nat →
  list_find (λ p, p_state p = UNUSED) (ptable s) = Some (np, p) → free_slot p → (L_ptable ∉ held s) → finv (fsys s) →
  (∀ f, Some f ∈ p_ofile cur → files f) → dirs (p_cwd cur) →
  alloc_ok end_ fl (vm s) → user_ok end_ (v_mem (vm s)) (p_pgdir cur) fl → 0 ≤ p_sz cur ≤ KERNBASE →
  (∀ va, 0 ≤ va < p_sz cur → present (get_pte (v_mem (vm s)) (p_pgdir cur) va) = true) →
  wp (fork (MemOps0 := vops) c) (λ r s', held s' = held s ∧ ∃ fl', alloc_ok end_ fl' (vm s') ∧
    spaces_kept end_ (v_mem (vm s)) fl (v_mem (vm s')) fl' ∧
    (r = -1 ∧ fl' ≡ₚ fl ∧ (length fl ≤ 1027 + Z.to_nat (p_sz cur / PGSIZE))%nat ∧
       (∃ q, ptable s' = <[np := q]> (ptable s) ∧ p_state q = UNUSED ∧ p_kstack q = 0) ∨
     r = nextpid s ∧ ∃ child fl1, ptable s' = <[np := child]> (ptable s) ∧ child_of i cur child r ∧ fl = p_kstack child :: fl1 ∧
       is_copy end_ data_ (p_pgdir cur) (p_sz cur) (v_mem (vm s)) fl1 (p_pgdir child) (v_mem (vm s')) fl')) s.
Proof.
  intros Hc Hcur Hst Hof Hnm Hfind [_ Hff Hfn] Hh Hx Hfiles Hdir Ha Hu Hsz Hpr.
  pose proof Hfind as Hfind'. apply list_find_Some in Hfind' as (Hp&Hun&_).
  assert (np ≠ i) as Hne by congruence. pose proof (lookup_lt_Some _ _ _ Hp) as Hlt.
  unfold fork. apply wp_bind. eapply wp_curproc; [done|]. apply wp_bind.
  destruct (wp_elim _ _ _ (vm_kalloc_alloc end_ (vm s) fl Ha)) as (k&v1&Ek&Em1&Hr). destruct fl as [|k' fl].
  { destruct Hr as [-> Ha1]. eapply wp_mono; [by apply (allocproc_fail_wp s np p v1)|]. cbn beta. intros o s1 (->&Hh1&<-&Hq).
    apply wp_ret. split; [done|]. exists []. split_and!; [done| |left; split_and!; [done|done|cbn; lia|done]].
    apply spaces_keeps; [|done|apply Ha1]. intros q _ _ x _. by rewrite Em1. }
  destruct Hr as (->&Hk&Hnk&Ha1).
  assert (Hu1 : user_ok end_ (v_mem v1) (p_pgdir cur) fl).
  { rewrite Em1. apply (parent_frame end_ (v_mem (vm s)) (k' :: fl)); [done|done| |apply Ha]. intros q Hq. by right. }
  destruct (wp_elim _ _ _ (copyuvm_wp end_ data_ He Hda Hd v1 fl (p_pgdir cur) (p_sz cur) Ha1 Hu1 Hsz ltac:(by rewrite Em1))) as (pg&v2&Ec&fl2&Ha2&Hk2&Hr2).
  eapply wp_mono; [apply (allocproc_wp s np p k' v1); [done|done|done|unfold kpage, KERNBASE in *; lia]|]. cbn beta.
  intros o s1 (->&Hh1&Hv1&Hx1&_&q&Hpt&_&Hpid&Hks&Hqf&Hqn&_).
  assert (Hcur1 : ptable s1 !! i = Some cur) by (by rewrite Hpt, list_lookup_insert_ne).
  assert (Hq1 : ptable s1 !! np = Some q) by (by rewrite Hpt, list_lookup_insert_eq).
  destruct Hr2 as [(->&Hpm&Hl)|(Hkpg&Hcopy)].
  - destruct (kstack_back v1 v2 k' fl fl2 Hk Hnk Ha2 Hpm Hk2) as (v3&Ekf&Ha3&Hk3).
    eapply wp_mono; [apply (fork_finish_fail_wp s1 i cur np q v2 v3 Hcur1 Hq1); [by rewrite Hv1|by rewrite Hks]|]. cbn beta.
    intros r s' (->&Hh2&->&q'&Hpt'&Hq'). split; [congruence|]. exists (k' :: fl2). split_and!; [done| |left; split_and!; [done|by rewrite Hpm|cbn; lia|]].
    + apply spaces_keeps; [|intros x; rewrite Hpm; done|apply Ha3]. by rewrite <-Em1.
    + exists q'. split; [|done]. by rewrite Hpt', Hpt, list_insert_insert_eq.
  - eapply wp_mono; [apply (fork_finish_wp finv files dirs filedup_ok idup_ok s1 i cur np q pg v2); try done|]; try congruence.
    { by rewrite Hv1. }
    { unfold kpage, KERNBASE in *; lia. }
    cbn beta. intros pid s' (->&Hh2&->&child&Hpt2&H1&H2&H3&H4&H5&H6&H7&H8&H9&H10&H11).
    split; [congruence|]. exists fl2. rewrite Em1 in *. split_and!; [done| |right; split; [done|]].
    + apply spaces_keeps; [|intros x Hx'|apply Ha2].
      * intros x Hy1 Hy2. apply Hk2; [done|]. intros ?. apply Hy2. by right.
      * right. apply (ic_pages _ _ _ _ _ _ _ _ _ Hcopy). by left.
    + exists child, fl. split_and!; [by rewrite Hpt2, Hpt, list_insert_insert_eq|by split; try congruence|congruence|by rewrite H5].
Qed.
End fork.

(** ** growproc *)

Section sbrk.
Context (end_ data_ ts_addr : Z) (He : KERNBASE < end_).
Context {F : Type} `{!FileOps F}.
Abbreviation vops := (vm_ops end_ data_ ts_addr).

(** What a call of [growproc] with [n] leaves: the result, the new size and
    the user memory. *)
Definition grow_result (p : proc) (n : Z) (m : mem) (fl : list Z) (r sz' : Z) (m' : mem) (fl' : list Z) : Prop :=
  let newsz := p_sz p + n in
  if (newsz <? 0) || (KERNBASE <=? newsz) then r = (if n <? 0 then 0 else -1) ∧ sz' = p_sz p ∧ m' = m ∧ fl' = fl
  else if 0 <? n then
    r = 0 ∧ sz' = newsz ∧ grown (p_pgdir p) (p_sz p) newsz m m' ∨
    r = -1 ∧ sz' = p_sz p ∧ (length fl ≤ 1026 + Z.to_nat (newsz / PGSIZE))%nat ∧ same_below (p_pgdir p) (PGROUNDUP (p_sz p)) m m'
  else
    r = (if newsz =? 0 then -1 else 0) ∧ sz' = (if newsz =? 0 then p_sz p else newsz) ∧ same_below (p_pgdir p) (PGROUNDUP newsz) m m'.

(** The state after a call of [growproc] in slot [i]. *)
Definition grow_post (s : pst vst F) (i : nat) (p : proc) (fl : list Z) (n : Z) (r : Z) (s' : pst vst F) : Prop :=
  held s' = held s ∧ ∃ fl' sz', ptable s' = <[i := set_sz sz' p]> (ptable s) ∧
    pt_inv end_ (p_pgdir p) fl' (vm s') ∧ resized end_ (p_pgdir p) (v_mem (vm s)) fl (v_mem (vm s')) fl' ∧
    grow_result p n (v_mem (vm s)) fl r sz' (v_mem (vm s')) fl'.

(** The end of [growproc]: the new size is stored and the page directory
    loaded again. *)
Lemma grow_finish (s : pst vst F) v i p fl n fl' sz :
  ptable s !! i = Some p → p_kstack p ≠ 0 → pt_inv end_ (p_pgdir p) fl' v →
  resized end_ (p_pgdir p) (v_mem (vm s)) fl (v_mem v) fl' → grow_result p n (v_mem (vm s)) fl 0 sz (v_mem v) fl' →
  wp (proc_upd i (set_sz sz);; lift_vm (ProcState.switchuvm (MemOps := vops) (p_kstack p) (p_pgdir p));; mret 0)
    (grow_post s i p fl n) (on_vm (λ _, v) s).
Proof.
  intros Hp Hk Hi Hrz Hg. apply wp_bind. eapply wp_proc_upd; [done|]. apply wp_bind.
  assert (Hpd : p_pgdir p ≠ 0) by (pose proof (do_page _ _ _ _ (pi_dir _ _ _ _ Hi)) as Hd0; unfold kpage, KERNBASE in *; lia).
  assert (∃ w, Vm.switchuvm ts_addr (p_kstack p) (p_pgdir p) v = Ok tt w ∧ v_k w = v_k v) as (w&E&Ew).
  { unfold Vm.switchuvm. rewrite (proj2 (Z.eqb_neq _ 0) Hk), (proj2 (Z.eqb_neq _ 0) Hpd). eexists. split; [reflexivity|done]. }
  eapply wp_lift_vm; [exact E|]. apply wp_ret. split; [done|]. exists fl', sz. kproj.
  assert (v_mem w = v_mem v) as Em by (unfold v_mem; by rewrite Ew). rewrite Em. split_and!; [done| |done|done].
  destruct Hi as [I1 I2 I3]. split; rewrite ?Ew, ?Em; done.
Qed.

Section growproc.
Context (s : pst vst F) (i : nat) (p : proc) (fl : list Z) (n : Z).
Context (Hp : ptable s !! i = Some p) (Hk : p_kstack p ≠ 0).
Context (Hi : pt_inv end_ (p_pgdir p) fl (vm s)) (Hu : user_ok end_ (v_mem (vm s)) (p_pgdir p) fl).
Context (Hsz : 0 < p_sz p < KERNBASE) (Hn : is_i32 n).
Context (Hno : ∀ va, PGROUNDUP (p_sz p) ≤ va < KERNBASE → present (get_pte (v_mem (vm s)) (p_pgdir p) va) = false).

Lemma same_size : <[i := set_sz (p_sz p) p]> (ptable s) = ptable s.
Proof. apply list_insert_id. rewrite Hp. by destruct p. Qed.
Lemma user_u32 x : 0 ≤ x < KERNBASE → u32 x = x.
Proof. intros Hx. apply u32_id. unfold is_u32, KERNBASE in *. lia. Qed.

Definition grow_fin (sz : Z) : M (pst vst F) Z :=
  proc_upd i (set_sz sz);; lift_vm (ProcState.switchuvm (MemOps := vops) (p_kstack p) (p_pgdir p));; mret 0.

Lemma grow_up : 0 < n →
  wp (sz ← lift_vm (ProcState.allocuvm (MemOps := vops) (p_pgdir p) (p_sz p) (p_sz p +u n));
      if sz =? 0 then mret (-1) else grow_fin (u32 sz)) (grow_post s i p fl n) s.
Proof.
  intros Hpos. pose proof same_size as Hid. pose proof user_u32 as Hu32. pose proof (resized_refl end_ _ _ _ Hu) as Hrefl. unfold is_i32 in Hn.
  rewrite (u32_id (p_sz p + n)) by (unfold is_u32, KERNBASE in *; lia). apply wp_bind. destruct (Z.leb_spec KERNBASE (p_sz p + n)) as [Hbig|Hsm].
  + eapply (wp_lift_vm _ _ _ 0 (vm s)); [cbn; unfold Vm.allocuvm; by rewrite (proj2 (Z.leb_le KERNBASE _))|]. cbn [Z.eqb]. apply wp_ret.
    split; [done|]. exists fl, (p_sz p). kproj. split_and!; [by rewrite Hid|done|done|]. unfold grow_result.
    rewrite (proj2 (Z.leb_le KERNBASE _)), orb_true_r, (proj2 (Z.ltb_ge n 0)) by lia. done.
  + destruct (wp_elim _ _ _ (allocuvm_wp end_ He (vm s) (p_pgdir p) fl (p_sz p) (p_sz p + n) Hi Hu ltac:(lia) Hsm Hno)) as (r&v&E&fl'&Hi'&Hrz&Hr).
    eapply wp_lift_vm; [exact E|].
    assert (Egr : ∀ r sz', grow_result p n (v_mem (vm s)) fl r sz' (v_mem v) fl' ↔ r = 0 ∧ sz' = p_sz p + n ∧ grown (p_pgdir p) (p_sz p) (p_sz p + n) (v_mem (vm s)) (v_mem v) ∨
      r = -1 ∧ sz' = p_sz p ∧ (length fl ≤ 1026 + Z.to_nat ((p_sz p + n) / PGSIZE))%nat ∧ same_below (p_pgdir p) (PGROUNDUP (p_sz p)) (v_mem (vm s)) (v_mem v)).
    { intros r' sz'. unfold grow_result. rewrite (proj2 (Z.ltb_ge (p_sz p + n) 0)), (proj2 (Z.leb_gt KERNBASE _)), (proj2 (Z.ltb_lt 0 n)) by lia. done. }
    destruct Hr as [(->&Hg)|(->&Hl&Hs)].
    * rewrite (proj2 (Z.eqb_neq (p_sz p + n) 0)), Hu32 by lia. apply (grow_finish s v i p fl n fl'); try done. apply Egr. by left.
    * apply wp_ret. split; [done|]. exists fl', (p_sz p). kproj. split_and!; [by rewrite Hid|done|done|]. apply Egr. by right.
Qed.

Lemma grow_down : n < 0 →
  wp (sz ← lift_vm (ProcState.deallocuvm (MemOps := vops) (p_pgdir p) (p_sz p) (p_sz p +u n));
      if sz =? 0 then mret (-1) else grow_fin (u32 sz)) (grow_post s i p fl n) s.
Proof.
  intros Hneg. pose proof same_size as Hid. pose proof user_u32 as Hu32. pose proof (resized_refl end_ _ _ _ Hu) as Hrefl. unfold is_i32 in Hn.
  apply wp_bind. destruct (Z.lt_ge_cases (p_sz p + n) 0) as [Hlow|Hge].
  + assert (p_sz p < p_sz p +u n) by (unfold u32, KERNBASE in *; zdm).
    eapply (wp_lift_vm _ _ _ (p_sz p) (vm s)); [cbn; unfold Vm.deallocuvm; by rewrite (proj2 (Z.leb_le (p_sz p) _)) by lia|].
    rewrite (proj2 (Z.eqb_neq (p_sz p) 0)), Hu32 by lia. apply (grow_finish s (vm s) i p fl n fl); try done. unfold grow_result.
    rewrite (proj2 (Z.ltb_lt (p_sz p + n) 0)), (proj2 (Z.ltb_lt n 0)) by lia. done.
  + rewrite Hu32 by lia.
    destruct (wp_elim _ _ _ (dealloc_wp end_ He (vm s) (p_pgdir p) fl (p_sz p) (p_sz p + n) Hi Hu ltac:(lia) ltac:(lia) Hno)) as (r&v&E&->&fl'&Hi'&Hrz&Hs).
    eapply wp_lift_vm; [exact E|]. 
    assert (Egr : ∀ r sz', grow_result p n (v_mem (vm s)) fl r sz' (v_mem v) fl' ↔ r = (if p_sz p + n =? 0 then -1 else 0) ∧
      sz' = (if p_sz p + n =? 0 then p_sz p else p_sz p + n) ∧ same_below (p_pgdir p) (PGROUNDUP (p_sz p + n)) (v_mem (vm s)) (v_mem v)).
    { intros r' sz'. unfold grow_result. rewrite (proj2 (Z.ltb_ge (p_sz p + n) 0)), (proj2 (Z.leb_gt KERNBASE _)), (proj2 (Z.ltb_ge 0 n)) by lia. done. }
    destruct (Z.eqb_spec (p_sz p + n) 0) as [E0|E0].
    * apply wp_ret. split; [done|]. exists fl', (p_sz p). kproj. split_and!; [by rewrite Hid|done|done|]. by apply Egr.
    * rewrite Hu32 by lia. apply (grow_finish s v i p fl n fl'); try done. by apply Egr.
Qed.

(** C28. sbrk: [growproc] with a positive [n] gives the process zeroed,
    writable pages of its own up to the new size, or returns -1 with the size
    and all the user memory as before when the size would reach the kernel or
    when memory runs out; with a negative [n] it frees exactly the pages above
    the new size.  The memory of other processes and the kernel's part stay
    the same and no page is lost.  Two cases do not do what they report: a
    call that gives up all the memory frees it but returns -1 with the old
    size, and one that asks for a negative size returns 0 without a change. *)
Theorem growproc_resizes c :
  running s !! c = Some (Some i) → wp (growproc (MemOps0 := vops) c n) (grow_post s i p fl n) s.
Proof.
  intros Hc. unfold growproc. apply wp_bind. eapply wp_curproc; [done|]. apply wp_bind. eapply wp_proc_get; [done|].
  destruct (Z.ltb_spec 0 n) as [Hpos|Hnp]; [by apply grow_up|]. destruct (Z.ltb_spec n 0) as [Hneg|Hz]; [by apply grow_down|].
  pose proof (resized_refl end_ _ _ _ Hu) as Hrefl.
  assert (n = 0) as -> by lia. eapply wp_mono; [|intros a s' H; exact H].
  assert (Es : s = on_vm (λ _, vm s) s) by (by destruct s). rewrite Es at 2. apply (grow_finish s (vm s) i p fl 0 fl); try done. unfold grow_result.
  rewrite !Z.add_0_r, (proj2 (Z.ltb_ge (p_sz p) 0)), (proj2 (Z.leb_gt KERNBASE _)), (proj2 (Z.eqb_neq (p_sz p) 0)) by lia.
  cbn. split_and!; [done|done|]. intros va Hva. split; [done|]. intros H. apply Hno. lia.
Qed.
End growproc.
End sbrk.

(** ** Witness *)

Import Demo.

(** init, in an address space of one page, with 1100 pages free. *)
Definition demo_parent : proc := set_sz PGSIZE (set_pgdir demo_dir (slot s2 0)).
Definition demo_fork : pst vst unit :=
  Pst (<[0%nat := demo_parent]> (ptable s2)) (pptable s2) (initproc s2) (nextpid s2) 0 [Some 0%nat] []
    rng_boot [] true (demo_space 1100) tt.

Lemma fork_copies_witness :
  wp (fork (MemOps0 := vm_ops demo_end demo_data 0) 0) (λ r s', r = 2 ∧ ∃ child fl1 fl', child_of 0 demo_parent child 2 ∧
    is_copy demo_end demo_data demo_dir PGSIZE (demo_image 1100) fl1 (p_pgdir child) (v_mem (vm s')) fl') demo_fork.
Proof.
  eapply wp_mono.
  - apply (fork_copies demo_end demo_data 0 ltac:(done) ltac:(done) ltac:(split; done) (λ _, True) (λ _, True) (λ _, True)
      demo_filedup demo_idup 0 demo_fork 0 demo_parent 1 (slot s2 1) (free_list 1100)).
    + reflexivity.
    + reflexivity.
    + run_it.
    + run_it.
    + run_it.
    + apply (find_slot (λ p, p_state p = UNUSED) (ptable demo_fork) 1). vm_compute. reflexivity.
    + split; run_it.
    + apply not_elem_of_nil.
    + exact I.
    + intros f _. exact I.
    + exact I.
    + apply demo_alloc. lia.
    + apply demo_space_ok. lia.
    + split; vm_compute; discriminate.
    + intros va Hva. apply demo_present; [lia|exact Hva].
  - cbn beta. intros r s' (_&fl'&_&_&[(_&_&Hl&_)|(Hr&child&fl1&_&Hc&_&Hcopy)]).
    + exfalso. rewrite free_list_length in Hl. change (Z.to_nat (p_sz demo_parent / PGSIZE)) with 1%nat in Hl. lia.
    + assert (r = 2) as -> by (rewrite Hr; vm_compute; reflexivity). split; [reflexivity|]. exists child, fl1, fl'. split; [exact Hc|exact Hcopy].
Defined.

Lemma demo_fork_inv : pt_inv demo_end demo_dir (free_list 1100) (demo_space 1100).
Proof.
  pose proof (demo_alloc 1100 ltac:(lia)) as [A1 A2 _]. split; [exact A1|exact A2|]. apply (uo_dir _ _ _ _ (demo_space_ok 1100 ltac:(lia))).
Qed.
Lemma demo_fork_top va : PGROUNDUP PGSIZE ≤ va < KERNBASE → present (get_pte (demo_image 1100) demo_dir va) = false.
Proof.
  change (PGROUNDUP PGSIZE) with PGSIZE. intros Hva. rewrite demo_pte by (lia || (unfold is_u32, KERNBASE, PGSIZE in *; lia)).
  destruct (Z.eqb_spec (va / PGSIZE) 0) as [E|E]; [|done]. unfold PGSIZE, KERNBASE in *. zdm.
Qed.

(** init grows by a page and a byte. *)
Lemma growproc_resizes_witness :
  wp (growproc (MemOps0 := vm_ops demo_end demo_data 0) 0 4097) (λ r s', r = 0 ∧
    p_sz <$> ptable s' !! 0%nat = Some 8193 ∧ has (v_mem (vm s')) demo_dir 8192 7 0) demo_fork.
Proof.
  eapply wp_mono.
  - apply (growproc_resizes demo_end demo_data 0 ltac:(done) demo_fork 0 demo_parent (free_list 1100) 4097).
    + reflexivity.
    + run_it.
    + exact demo_fork_inv.
    + apply demo_space_ok. lia.
    + split; reflexivity.
    + unfold is_i32. lia.
    + exact demo_fork_top.
    + reflexivity.
  - cbn beta. intros r s' (_&fl'&sz'&Hpt&_&_&[(->&->&Hg)|(_&_&Hl&_)]).
    + split; [reflexivity|]. split; [rewrite Hpt; reflexivity|]. exact (Hg 8192 ltac:(split; done)).
    + exfalso. rewrite free_list_length in Hl. change (Z.to_nat ((p_sz demo_parent + 4097) / PGSIZE)) with 2%nat in Hl. lia.
Defined.
