(* ===== verification/Pipe.v ===== *)
(** * Pipes: [pipe.c]

    A pipe is a ring buffer with two 32-bit counters that only grow and wrap.
    [pipewrite] and [piperead] hold the pipe's lock except while they sleep,
    so each of their runs between sleeps is one atomic step; readers, writers
    and closes interleave in any order.  Every critical section says which of
    the two channels ([&p->nread], [&p->nwrite]) it wakes. *)

From S2P Require Import Prelude Params.

Definition PIPESIZE : Z := 512.

Record pipe := Pipe {
  data : list Z; nread : Z; nwrite : Z; readopen : Z; writeopen : Z;
}.

(** The fields [pipealloc] sets; the data of a fresh page is arbitrary. *)
Definition pipe_new (d : list Z) : pipe := Pipe d 0 0 1 1.

(** How a critical section ends: with the function's return value or with a
    call to [sleep], from which it continues with what is left to do. *)
Inductive outcome (A : Type) :=
| Ret (r : Z)
| Sleep (rest : A).
Arguments Ret {A} _.
Arguments Sleep {A} _.

(** Which sleepers a critical section wakes. *)
Record wakes := Wakes { wake_readers : bool; wake_writers : bool }.

(** [pipewrite] from byte [addr[i]] on, [n] being the whole count. *)
Fixpoint pipewrite_loop (killed : bool) (n : Z) (l : list Z) (p : pipe) :
    pipe * wakes * outcome (list Z) :=
  match l with
  | [] => (p, Wakes true false, Ret n)
  | b :: l' =>
      if nwrite p =? nread p +u PIPESIZE then
        if (readopen p =? 0) || killed then (p, Wakes false false, Ret (-1))
        else (p, Wakes true false, Sleep (b :: l'))
      else
        pipewrite_loop killed n l'
          (Pipe (<[Z.to_nat (nwrite p mod PIPESIZE) := b]> (data p))
             (nread p) (nwrite p +u 1) (readopen p) (writeopen p))
  end.
Definition pipewrite (killed : bool) (n : Z) (addr : list Z) (p : pipe) :
    pipe * wakes * outcome (list Z) := pipewrite_loop killed n addr p.

(** The copy loop of [piperead]: the bytes stored to [addr]. *)
Fixpoint piperead_copy (n : nat) (p : pipe) : pipe * list Z :=
  match n with
  | O => (p, [])
  | S k =>
      if nread p =? nwrite p then (p, [])
      else
        let b := nth (Z.to_nat (nread p mod PIPESIZE)) (data p) 0 in
        let '(p', l) := piperead_copy k
          (Pipe (data p) (nread p +u 1) (nwrite p) (readopen p) (writeopen p)) in
        (p', b :: l)
  end.
Definition piperead (killed : bool) (n : Z) (p : pipe) : pipe * wakes * list Z * outcome Z :=
  if (nread p =? nwrite p) && negb (writeopen p =? 0) then
    if killed then (p, Wakes false false, [], Ret (-1))
    else (p, Wakes false false, [], Sleep n)
  else
    let '(p', l) := piperead_copy (Z.to_nat n) p in
    (p', Wakes false true, l, Ret (Z.of_nat (length l))).

(** [pipeclose]; the last component says that the page is freed. *)
Definition pipeclose (p : pipe) (writable : bool) : pipe * wakes * bool :=
  let '(p, w) :=
    if writable then (Pipe (data p) (nread p) (nwrite p) (readopen p) 0, Wakes true false)
    else (Pipe (data p) (nread p) (nwrite p) 0 (writeopen p), Wakes false true) in
  (p, w, (readopen p =? 0) && (writeopen p =? 0)).

(** ** Readers and writers *)

Inductive thread :=
| Idle
| Writing (n : Z) (l : list Z)        (* in pipewrite, about to run *)
| WSleep (n : Z) (l : list Z)         (* asleep on &p->nwrite *)
| Reading (n : Z)
| RSleep (n : Z).                     (* asleep on &p->nread *)

Record psys := PSys {
  the_pipe : pipe;
  threads : list thread;
  sent : list Z;                      (* bytes stored in the pipe so far *)
  received : list Z;                  (* bytes taken out of it so far *)
}.

Definition wake_thread (w : wakes) (t : thread) : thread :=
  match t with
  | RSleep n => if wake_readers w then Reading n else t
  | WSleep n l => if wake_writers w then Writing n l else t
  | _ => t
  end.

(** The bytes a run of [pipewrite] on [l] has stored. *)
Definition stored (l : list Z) (p p' : pipe) : list Z :=
  take (Z.to_nat (nwrite p' -u nwrite p)) l.

Definition is_reader (t : thread) : bool :=
  match t with Reading _ | RSleep _ => true | _ => false end.
Definition is_writer (t : thread) : bool :=
  match t with Writing _ _ | WSleep _ _ => true | _ => false end.

(** The steps of a pipe's users.  An end of the pipe is closed when the last
    file that refers to it is, hence not while a call on it is in progress.
    [kills] says whether writers may find themselves killed; the wakeup that
    comes with a kill ([P_kill]) may happen at any time. *)
Inductive pstep (kills : bool) : psys → psys → Prop :=
| P_write (s : psys) (t : nat) n l :
    threads s !! t = Some Idle → n = Z.of_nat (length l) → writeopen (the_pipe s) ≠ 0 →
    pstep kills s (PSys (the_pipe s) (<[t := Writing n l]> (threads s)) (sent s) (received s))
| P_read (s : psys) (t : nat) n :
    threads s !! t = Some Idle → readopen (the_pipe s) ≠ 0 →
    pstep kills s (PSys (the_pipe s) (<[t := Reading n]> (threads s)) (sent s) (received s))
| P_run_write (s : psys) (t : nat) n l killed p' w o :
    threads s !! t = Some (Writing n l) → (killed = true → kills = true) →
    pipewrite killed n l (the_pipe s) = (p', w, o) →
    pstep kills s (PSys p'
      (<[t := match o with Ret _ => Idle | Sleep l' => WSleep n l' end]>
         (wake_thread w <$> threads s))
      (sent s ++ stored l (the_pipe s) p') (received s))
| P_run_read (s : psys) (t : nat) n killed p' w l o :
    threads s !! t = Some (Reading n) →
    piperead killed n (the_pipe s) = (p', w, l, o) →
    pstep kills s (PSys p'
      (<[t := match o with Ret _ => Idle | Sleep n' => RSleep n' end]>
         (wake_thread w <$> threads s))
      (sent s) (received s ++ l))
| P_close (s : psys) (writable : bool) p' w b :
    Forall (λ t : thread, (if writable then is_writer t else is_reader t) = false) (threads s) →
    pipeclose (the_pipe s) writable = (p', w, b) →
    pstep kills s (PSys p' (wake_thread w <$> threads s) (sent s) (received s))
| P_kill (s : psys) (t : nat) th :
    threads s !! t = Some th →
    pstep kills s (PSys (the_pipe s) (<[t := wake_thread (Wakes true true) th]> (threads s))
      (sent s) (received s)).

(** ** Invariant *)

(** The bytes in flight are [q]: the counters differ by its length modulo
    2^32, and it is what the ring holds from [nread] on. *)
Record pipe_inv (p : pipe) (q : list Z) : Prop := {
  pv_data : length (data p) = Z.to_nat PIPESIZE;
  pv_nread : is_u32 (nread p);
  pv_nwrite : nwrite p = nread p +u Z.of_nat (length q);
  pv_len : Z.of_nat (length q) ≤ PIPESIZE;
  pv_ring : ∀ k b, q !! k = Some b →
    data p !! Z.to_nat ((nread p + Z.of_nat k) mod PIPESIZE) = Some b;
}.

Definition asleep_ok (p : pipe) (t : thread) : Prop :=
  match t with
  | RSleep _ => nread p = nwrite p ∧ writeopen p ≠ 0
  | WSleep _ _ => nwrite p = nread p +u PIPESIZE ∧ readopen p ≠ 0
  | _ => True
  end.

(** With the read end closed there are no readers, and so for writers. *)
Definition ends_ok (p : pipe) (t : thread) : Prop :=
  (is_reader t = true → readopen p ≠ 0) ∧ (is_writer t = true → writeopen p ≠ 0).

Definition fifo_inv (s : psys) : Prop :=
  ∃ q, pipe_inv (the_pipe s) q ∧ sent s = received s ++ q.

Definition psys_init (d : list Z) (n : nat) : psys := PSys (pipe_new d) (replicate n Idle) [] [].

(** ** The ring *)

Lemma ring_index r k : is_u32 r → 0 ≤ k → (r +u k) mod PIPESIZE = (r + k) mod PIPESIZE.
Proof. unfold is_u32, u32, PIPESIZE. intros. zdm. Qed.

Lemma full_iff p q :
  pipe_inv p q → (nwrite p =? nread p +u PIPESIZE) = bool_decide (Z.of_nat (length q) = PIPESIZE).
Proof.
  intros [_ Hr Hw Hl _]. rewrite Hw. unfold is_u32, u32, PIPESIZE in *.
  destruct (Z.eqb_spec ((nread p + Z.of_nat (length q)) mod 4294967296)
    ((nread p + 512) mod 4294967296)) as [E|E]; symmetry.
  - apply bool_decide_eq_true. zdm.
  - apply bool_decide_eq_false. intros E'. by rewrite E' in E.
Qed.

Lemma empty_iff p q : pipe_inv p q → (nread p =? nwrite p) = bool_decide (q = []).
Proof.
  intros [_ Hr Hw Hl _]. rewrite Hw. unfold is_u32, u32, PIPESIZE in *.
  destruct q as [|b q]; simpl length in *.
  - rewrite Z.add_0_r, Z.mod_small by lia. by rewrite Z.eqb_refl.
  - apply Z.eqb_neq. zdm.
Qed.

Lemma push_inv p q b :
  pipe_inv p q → Z.of_nat (length q) < PIPESIZE →
  pipe_inv (Pipe (<[Z.to_nat (nwrite p mod PIPESIZE) := b]> (data p))
    (nread p) (nwrite p +u 1) (readopen p) (writeopen p)) (q ++ [b]).
Proof.
  intros [Hd Hr Hw Hl Hq] Hlt. split; cbn [data nread nwrite].
  - by rewrite length_insert.
  - done.
  - rewrite Hw, length_app. simpl. unfold u32. rewrite Zplus_mod_idemp_l. f_equal. lia.
  - rewrite length_app. simpl. lia.
  - intros k x Hk. rewrite Hw, ring_index by (done || lia).
    assert (0 ≤ (nread p + Z.of_nat (length q)) mod PIPESIZE < 512) as Hm
      by (unfold PIPESIZE; zdm).
    apply lookup_app_Some in Hk as [Hk|[Hge Hk]].
    + pose proof (lookup_lt_Some _ _ _ Hk) as Hlk.
      rewrite list_lookup_insert_ne; [by apply Hq|].
      unfold is_u32, PIPESIZE in *. intros E%Z2Nat.inj; [|zdm|zdm]. zdm.
    + apply list_lookup_singleton_Some in Hk as [Hk <-].
      replace k with (length q) by lia. apply list_lookup_insert_eq.
      rewrite Hd. unfold PIPESIZE in *. lia.
Qed.

Lemma pop_inv p b q :
  pipe_inv p (b :: q) →
  nth (Z.to_nat (nread p mod PIPESIZE)) (data p) 0 = b ∧
  pipe_inv (Pipe (data p) (nread p +u 1) (nwrite p) (readopen p) (writeopen p)) q.
Proof.
  intros [Hd Hr Hw Hl Hq]. split.
  - apply nth_lookup_Some. specialize (Hq 0%nat b eq_refl). by rewrite Z.add_0_r in Hq.
  - split; cbn [data nread nwrite].
    + done.
    + apply u32_range.
    + rewrite Hw. simpl. unfold u32. rewrite Zplus_mod_idemp_l. f_equal. lia.
    + simpl in Hl. lia.
    + intros k x Hk. specialize (Hq (S k) x Hk).
      replace ((nread p +u 1 + Z.of_nat k) mod PIPESIZE)
        with ((nread p + Z.of_nat (S k)) mod PIPESIZE); [done|].
      unfold u32, PIPESIZE. zdm.
Qed.

Lemma pipewrite_loop_spec killed n l p q p' w o :
  pipe_inv p q → pipewrite_loop killed n l p = (p', w, o) →
  ∃ k, (k ≤ length l)%nat ∧ pipe_inv p' (q ++ take k l) ∧
    nread p' = nread p ∧ readopen p' = readopen p ∧ writeopen p' = writeopen p ∧
    match o with
    | Ret r => r = n ∧ k = length l ∧ w = Wakes true false ∨
               r = -1 ∧ (readopen p = 0 ∨ killed = true) ∧ w = Wakes false false
    | Sleep rest => rest = drop k l ∧ w = Wakes true false ∧ readopen p ≠ 0 ∧
                    nwrite p' = nread p' +u PIPESIZE
    end.
Proof.
  revert p q. induction l as [|b l IH]; intros p q Hinv H; cbn [pipewrite_loop] in H.
  { simplify_eq. exists O. rewrite app_nil_r. split_and!; auto. }
  pose proof (full_iff p q Hinv) as Hfull. rewrite Hfull in H.
  case_bool_decide as Hq.
  - apply Z.eqb_eq in Hfull. exists O. rewrite take_0, app_nil_r.
    destruct ((readopen p =? 0) || killed) eqn:E; simplify_eq.
    + split_and!; try done; [lia|]. right. apply orb_true_iff in E as [E%Z.eqb_eq|E]; auto.
    + apply orb_false_iff in E as [E%Z.eqb_neq _]. split_and!; try done. lia.
  - apply (IH _ (q ++ [b])) in H as (k&Hk&Hinv'&E1&E2&E3&Ho).
    + exists (S k). rewrite <-app_assoc in Hinv'. cbn [nread readopen writeopen] in *.
      split_and!; try done; [simpl; lia|].
      destruct o; [|done]. destruct Ho as [(?&->&?)|?]; [left|right]; auto.
    + apply push_inv; [done|]. pose proof (pv_len p q Hinv). lia.
Qed.

Lemma stored_take killed n l p q p' w o :
  pipe_inv p q → pipewrite killed n l p = (p', w, o) → pipe_inv p' (q ++ stored l p p').
Proof.
  intros Hinv H. destruct (pipewrite_loop_spec _ _ _ _ _ _ _ _ Hinv H) as (k&Hk&Hinv'&E1&_&_&_).
  assert (Z.to_nat (nwrite p' -u nwrite p) = k) as E; [|unfold stored; by rewrite E].
  pose proof (pv_nwrite _ _ Hinv) as W. pose proof (pv_nwrite _ _ Hinv') as W'.
  pose proof (pv_len _ _ Hinv') as L. rewrite W, W', E1, length_app, length_take_le in * by done.
  unfold u32, PIPESIZE in *. zdm.
Qed.

Lemma piperead_copy_spec n p q p' l :
  pipe_inv p q → piperead_copy n p = (p', l) →
  l = take n q ∧ pipe_inv p' (drop n q) ∧
  nwrite p' = nwrite p ∧ readopen p' = readopen p ∧ writeopen p' = writeopen p.
Proof.
  revert p q p' l. induction n as [|n IH]; intros p q p' l Hinv H; cbn [piperead_copy] in H.
  { by simplify_eq. }
  rewrite (empty_iff p q Hinv) in H. destruct q as [|b q].
  - simpl in H. by simplify_eq.
  - rewrite bool_decide_eq_false_2 in H by done.
    destruct (piperead_copy n _) as [p1 l1] eqn:E. simplify_eq.
    destruct (pop_inv p b q Hinv) as [-> Hinv1].
    destruct (IH _ _ _ _ Hinv1 E) as (->&?&?&?&?). done.
Qed.

(** ** The stream *)

Lemma fifo_step kills s s' : fifo_inv s → pstep kills s s' → fifo_inv s'.
Proof.
  intros (q&Hinv&Hs) Hstep. destruct Hstep; unfold fifo_inv; cbn [the_pipe sent received].
  - eauto.
  - eauto.
  - exists (q ++ stored l (the_pipe s) p'). split; [by eapply stored_take|].
    by rewrite Hs, app_assoc.
  - unfold piperead in *. rewrite (empty_iff _ q Hinv) in *.
    destruct (bool_decide (q = []) && _).
    + destruct killed; simplify_eq; exists q; rewrite app_nil_r; auto.
    + destruct (piperead_copy _ _) as [p1 l1] eqn:E. simplify_eq.
      destruct (piperead_copy_spec _ _ _ _ _ Hinv E) as (->&?&_).
      exists (drop (Z.to_nat n) q). split; [done|]. by rewrite <-app_assoc, take_drop.
  - exists q. split; [|done]. unfold pipeclose in *. destruct Hinv as [H1 H2 H3 H4 H5].
    destruct writable; simplify_eq; by split.
  - eauto.
Qed.

Lemma fifo_init d n : length d = Z.to_nat PIPESIZE → fifo_inv (psys_init d n).
Proof.
  intros Hd. exists []. split; [|done].
  split; cbn; [done|unfold is_u32; lia|done|unfold PIPESIZE; lia|done].
Qed.

(** C10. A pipe is a stream: whatever the interleaving of readers, writers and
    closes, and although the counters wrap at 2^32, the bytes received are a
    prefix of the bytes sent, and the at most 512 bytes missing are in the
    buffer, in order. *)
Theorem pipe_fifo kills d n s :
  length d = Z.to_nat PIPESIZE → rtc (pstep kills) (psys_init d n) s →
  ∃ q, sent s = received s ++ q ∧ Z.of_nat (length q) ≤ PIPESIZE ∧
    snd (piperead_copy (length q) (the_pipe s)) = q.
Proof.
  intros Hd Hr.
  destruct (rtc_invariant (pstep kills) fifo_inv _ _ (λ a b, fifo_step kills a b)
    (fifo_init d n Hd) Hr) as (q&Hinv&Hs).
  exists q. split_and!; [done|by apply (pv_len _ _ Hinv)|].
  destruct (piperead_copy (length q) (the_pipe s)) as [p' l] eqn:E.
  destruct (piperead_copy_spec _ _ _ _ _ Hinv E) as (->&_). by rewrite take_ge.
Qed.

(** ** Wakeups *)

Lemma full_write_same killed n l p p' w o :
  nwrite p = nread p +u PIPESIZE → pipewrite killed n l p = (p', w, o) →
  p' = p ∧ wake_writers w = false.
Proof.
  intros Hf%Z.eqb_eq H. destruct l as [|b l]; cbn in H; [by simplify_eq|].
  rewrite Hf in H. by destruct (_ || _); simplify_eq.
Qed.

Lemma write_wake n l p q p' w o t :
  pipe_inv p q → pipewrite false n l p = (p', w, o) →
  asleep_ok p t → ends_ok p t → asleep_ok p' (wake_thread w t).
Proof.
  intros Hinv H Ha [Hr _]. destruct t; try done; cbn [asleep_ok wake_thread] in *.
  - destruct (full_write_same _ _ _ _ _ _ _ (proj1 Ha) H) as [-> ->]. done.
  - destruct (pipewrite_loop_spec _ _ _ _ _ _ _ _ Hinv H) as (k&_&_&_&_&_&Ho).
    destruct o as [r|rest].
    + destruct Ho as [(_&_&->)|(_&[E|E]&_)]; [done| |done]. by destruct (Hr eq_refl).
    + by destruct Ho as (_&->&_).
Qed.

Lemma read_wake killed n p p' w l o t :
  piperead killed n p = (p', w, l, o) → asleep_ok p t → asleep_ok p' (wake_thread w t).
Proof.
  unfold piperead. intros H Ha.
  destruct (_ && _) eqn:E; [by destruct killed; simplify_eq; destruct t|].
  destruct (piperead_copy _ _) as [p1 l1]. simplify_eq.
  destruct t; try done. exfalso. cbn in Ha. destruct Ha as [E1%Z.eqb_eq E2%Z.eqb_neq].
  by rewrite E1, E2 in E.
Qed.

Lemma ends_wake p p' w t :
  readopen p' = readopen p → writeopen p' = writeopen p →
  ends_ok p t → ends_ok p' (wake_thread w t).
Proof.
  unfold ends_ok. intros -> ->. destruct t; simpl; try done.
  - by destruct (wake_writers w).
  - by destruct (wake_readers w).
Qed.

Lemma piperead_ends killed n p q p' w l o :
  pipe_inv p q → piperead killed n p = (p', w, l, o) →
  readopen p' = readopen p ∧ writeopen p' = writeopen p ∧
  (∀ n', o = Sleep n' → p' = p ∧ nread p = nwrite p ∧ writeopen p ≠ 0).
Proof.
  unfold piperead. intros Hinv H. destruct (_ && _) eqn:E.
  - apply andb_true_iff in E as [E1%Z.eqb_eq E2%negb_true_iff%Z.eqb_neq].
    by destruct killed; simplify_eq.
  - destruct (piperead_copy _ _) as [p1 l1] eqn:E'. simplify_eq.
    by destruct (piperead_copy_spec _ _ _ _ _ Hinv E') as (_&_&_&?&?).
Qed.

Lemma close_wake p writable p' w b t :
  pipeclose p writable = (p', w, b) →
  (if writable then is_writer t else is_reader t) = false →
  asleep_ok p t → ends_ok p t → asleep_ok p' (wake_thread w t) ∧ ends_ok p' (wake_thread w t).
Proof.
  unfold pipeclose. intros H Ht Ha [H1 H2].
  destruct writable; simplify_eq; destruct t; simpl in *; try done; repeat split; auto.
Qed.

Lemma Forall_insert_fmap (P Q : thread → Prop) (f : thread → thread) l i x :
  Forall P l → (∀ t, P t → Q (f t)) → Q x → Forall Q (<[i := x]> (f <$> l)).
Proof.
  intros Hl Hf Hx. apply Forall_insert; [|done]. apply Forall_fmap.
  by eapply Forall_impl.
Qed.

Definition thread_ok (p : pipe) (t : thread) : Prop := asleep_ok p t ∧ ends_ok p t.
Definition wake_inv (s : psys) : Prop := fifo_inv s ∧ Forall (thread_ok (the_pipe s)) (threads s).

Lemma wake_step s s' : wake_inv s → pstep false s s' → wake_inv s'.
Proof.
  intros [Hf Ht] Hstep. split; [by eapply fifo_step|]. destruct Hf as (q&Hinv&_).
  destruct Hstep as [s t n l Hl Hn Ho|s t n Hl Ho|s t n l killed p' w o Hl Hk H
    |s t n killed p' w l o Hl H|s wr p' w b Hc H|s t th Hl]; cbn [the_pipe threads] in *;
    try (apply Forall_lookup_1 with (2 := Hl) in Ht as Hth).
  - apply Forall_insert; [done|]. by repeat split.
  - apply Forall_insert; [done|]. by repeat split.
  - destruct killed; [by specialize (Hk eq_refl)|].
    destruct (pipewrite_loop_spec _ _ _ _ _ _ _ _ Hinv H) as (k&_&_&_&E1&E2&E3).
    eapply Forall_insert_fmap; [done| |].
    + intros t' [Ha He]. split; [by eapply write_wake|by eapply ends_wake].
    + destruct Hth as [_ [_ He]]. destruct o; [by repeat split|].
      destruct E3 as (_&_&E3&E4). unfold thread_ok, ends_ok. simpl. rewrite E1, E2. auto.
  - destruct (piperead_ends _ _ _ _ _ _ _ _ Hinv H) as (E1&E2&E3).
    eapply Forall_insert_fmap; [done| |].
    + intros t' [Ha He]. split; [by eapply read_wake|by eapply ends_wake].
    + destruct Hth as [_ [He _]]. destruct o; [by repeat split|].
      destruct (E3 _ eq_refl) as (->&?&?). unfold thread_ok, ends_ok. simpl. auto.
  - apply Forall_fmap. rewrite Forall_forall in Hc, Ht |- *. intros t' Ht'.
    destruct (Ht t' Ht') as [Ha He]. by eapply close_wake; eauto.
  - apply Forall_insert; [done|]. destruct Hth as [_ He]. split; [by destruct th|].
    by eapply ends_wake.
Qed.

(** C19. No wakeup is lost on a pipe as long as no writer is killed: in every
    reachable state a process asleep in [piperead] faces an empty pipe whose
    write end is open, and one asleep in [pipewrite] a full pipe whose read
    end is open. *)
Theorem pipe_no_lost_wakeup d n s t :
  length d = Z.to_nat PIPESIZE → rtc (pstep false) (psys_init d n) s → t ∈ threads s →
  match t with
  | RSleep _ => nread (the_pipe s) = nwrite (the_pipe s) ∧ writeopen (the_pipe s) ≠ 0
  | WSleep _ _ => sent s ≠ received s ∧ readopen (the_pipe s) ≠ 0 ∧
      Z.of_nat (length (sent s)) = Z.of_nat (length (received s)) + PIPESIZE
  | _ => True
  end.
Proof.
  intros Hd Hr Hin.
  assert (wake_inv s) as [(q&Hinv&Hs) Ht].
  { refine (rtc_invariant (pstep false) wake_inv _ _ wake_step _ Hr).
    split; [by apply fifo_init|]. apply Forall_replicate. by repeat split. }
  rewrite Forall_forall in Ht. destruct (Ht t Hin) as [Ha He].
  destruct t; try done. cbn in Ha. destruct Ha as [Ha%Z.eqb_eq Ho].
  rewrite (full_iff _ q Hinv) in Ha. apply bool_decide_eq_true in Ha.
  rewrite Hs, length_app. split_and!; [|done|lia].
  intros E. destruct q; [done|]. apply (f_equal length) in E. rewrite length_app in E.
  simpl in E. lia.
Qed.

(** A killed writer loses a wakeup: one reader is asleep on the empty pipe
    when a writer that has been killed stores 512 of 513 bytes, finds the pipe
    full and returns -1 without waking anyone; the reader stays asleep with
    the pipe full of data. *)
Theorem killed_writer_strands_reader :
  ∃ s, rtc (pstep true) (psys_init (replicate 512 0) 2) s ∧
    threads s = [RSleep 1; Idle] ∧ received s = [] ∧ sent s = replicate 512 7 ∧
    nwrite (the_pipe s) = nread (the_pipe s) +u PIPESIZE.
Proof.
  eexists. split.
  - eapply rtc_l; [by apply (P_read true _ 0 1)|].
    eapply rtc_l; [by apply (P_run_read true _ 0 1 false (pipe_new (replicate 512 0))
      (Wakes false false) [] (Sleep 1))|].
    eapply rtc_l; [by apply (P_write true _ 1 513 (replicate 513 7))|].
    eapply rtc_l; [|apply rtc_refl].
    by apply (P_run_write true _ 1 513 (replicate 513 7) true
      (Pipe (replicate 512 7) 0 512 1 1) (Wakes false false) (Ret (-1))).
  - split_and!; by vm_compute.
Qed.

(** ** Witnesses *)

Lemma pstep_eq kills s s1 s2 : pstep kills s s1 → s1 = s2 → pstep kills s s2.
Proof. by intros ? <-. Qed.

Definition demo_data : list Z := replicate 512 0.

(** A writer stores three bytes. *)
Lemma pipe_fifo_witness :
  ∃ s, rtc (pstep false) (psys_init demo_data 1) s ∧ sent s = [1; 2; 3] ∧
    ∃ q, sent s = received s ++ q ∧ Z.of_nat (length q) ≤ PIPESIZE ∧
      snd (piperead_copy (length q) (the_pipe s)) = q.
Proof.
  assert (Hr : rtc (pstep false) (psys_init demo_data 1)
    (PSys (Pipe ([1; 2; 3] ++ replicate 509 0) 0 3 1 1) [Idle] [1; 2; 3] [])).
  { eapply rtc_l; [by apply (P_write false _ 0 3 [1; 2; 3])|].
    eapply rtc_l; [|apply rtc_refl].
    eapply pstep_eq; [by apply (P_run_write false _ 0 3 [1; 2; 3] false
      (Pipe ([1; 2; 3] ++ replicate 509 0) 0 3 1 1) (Wakes true false) (Ret 3))|].
    by vm_compute. }
  eexists. split; [exact Hr|]. split; [done|].
  exact (pipe_fifo false demo_data 1 _ eq_refl Hr).
Defined.

Lemma pipe_no_lost_wakeup_witness :
  nread (pipe_new demo_data) = nwrite (pipe_new demo_data) ∧ writeopen (pipe_new demo_data) ≠ 0.
Proof.
  assert (Hr : rtc (pstep false) (psys_init demo_data 1)
    (PSys (pipe_new demo_data) [RSleep 4] [] [])).
  { eapply rtc_l; [by apply (P_read false _ 0 4)|].
    eapply rtc_l; [|apply rtc_refl].
    eapply pstep_eq; [by apply (P_run_read false _ 0 4 false (pipe_new demo_data)
      (Wakes false false) [] (Sleep 4))|].
    by vm_compute. }
  exact (pipe_no_lost_wakeup demo_data 1 _ (RSleep 4) eq_refl Hr
    (list_elem_of_here _ _)).
Defined.
