(* ===== verification/Sleeplock.v ===== *)
(** * Sleep locks: [sleeplock.c], [sleeplock.h]

    The fields of a sleep lock are protected by its spinlock, so a run of one
    of the functions between two sleeps is atomic.  The functions are given on
    the fields; [slstep] interleaves any number of processes that use one
    lock. *)

From S2P Require Import Prelude Params.

Record sleeplock := SleepLock { locked : Z; lk_pid : Z }.

Definition initsleeplock : sleeplock := SleepLock 0 0.

(** One pass of [acquiresleep]'s loop: [None] is the call to [sleep]. *)
Definition acquiresleep (pid : Z) (lk : sleeplock) : option sleeplock :=
  if locked lk =? 0 then Some (SleepLock 1 pid) else None.
(** The fields after [releasesleep]; the call to [wakeup] is part of the
    step [SL_release] below. *)
Definition releasesleep (lk : sleeplock) : sleeplock := SleepLock 0 0.
Definition holdingsleep (pid : Z) (lk : sleeplock) : bool :=
  negb (locked lk =? 0) && (lk_pid lk =? pid).

(** ** Processes that use a sleep lock *)

Inductive slthread :=
| SL_idle
| SL_try                                (* in acquiresleep, about to test *)
| SL_asleep                             (* asleep on the lock *)
| SL_holds.
#[export] Instance slthread_eq_dec : EqDecision slthread.
Proof. solve_decision. Defined.

Record slsys := SlSys { the_lock : sleeplock; procs : gmap Z slthread }.   (* by pid *)

Definition sl_wake (t : slthread) : slthread :=
  match t with SL_asleep => SL_try | _ => t end.

Inductive slstep : slsys → slsys → Prop :=
| SL_call s pid :
    procs s !! pid = Some SL_idle →
    slstep s (SlSys (the_lock s) (<[pid := SL_try]> (procs s)))
| SL_acquire s pid lk :
    procs s !! pid = Some SL_try → acquiresleep pid (the_lock s) = Some lk →
    slstep s (SlSys lk (<[pid := SL_holds]> (procs s)))
| SL_sleep s pid :
    procs s !! pid = Some SL_try → acquiresleep pid (the_lock s) = None →
    slstep s (SlSys (the_lock s) (<[pid := SL_asleep]> (procs s)))
| SL_release s pid :
    procs s !! pid = Some SL_holds →
    slstep s (SlSys (releasesleep (the_lock s)) (sl_wake <$> <[pid := SL_idle]> (procs s)))
| SL_kill s pid :
    procs s !! pid = Some SL_asleep →   (* kill makes a sleeper runnable *)
    slstep s (SlSys (the_lock s) (<[pid := SL_try]> (procs s))).

(** The lock is either free, with nobody holding it and nobody asleep, or held
    by the process it names. *)
Definition sl_inv (s : slsys) : Prop :=
  (locked (the_lock s) = 0 ∧
     ∀ pid t, procs s !! pid = Some t → t ≠ SL_holds ∧ t ≠ SL_asleep) ∨
  (locked (the_lock s) = 1 ∧ procs s !! lk_pid (the_lock s) = Some SL_holds ∧
     ∀ pid, procs s !! pid = Some SL_holds → pid = lk_pid (the_lock s)).

Lemma sl_inv_step s s' : sl_inv s → slstep s s' → sl_inv s'.
Proof.
  intros Hinv Hstep.
  destruct Hstep as [s pid Hp|s pid lk Hp Ha|s pid Hp Ha|s pid Hp|s pid Hp];
    unfold sl_inv in *; cbn [the_lock procs].
  - destruct Hinv as [[H0 Hn]|(H1&Hh&Hu)]; [left|right]; split_and!; try done.
    + intros q t [[<- <-]|[_ ?]]%lookup_insert_Some; eauto.
    + rewrite lookup_insert_ne; [done|]. intros ->. by simplify_eq.
    + intros q [[<- ?]|[_ ?]]%lookup_insert_Some; [done|auto].
  - unfold acquiresleep in Ha. destruct (Z.eqb_spec (locked (the_lock s)) 0) as [H0|]; [|done].
    simplify_eq. destruct Hinv as [[_ Hn]|(H1&_)]; [|congruence].
    right. cbn. split_and!; [done|apply lookup_insert_eq|].
    intros q [[<- _]|[_ Hq]]%lookup_insert_Some; [done|]. by destruct (Hn _ _ Hq).
  - unfold acquiresleep in Ha. destruct (Z.eqb_spec (locked (the_lock s)) 0); [done|].
    destruct Hinv as [[H0 _]|(H1&Hh&Hu)]; [done|]. right. split_and!; [done| |].
    + rewrite lookup_insert_ne; [done|]. intros ->. by simplify_eq.
    + intros q [[<- ?]|[_ ?]]%lookup_insert_Some; [done|auto].
  - left. split; [done|]. intros q t. rewrite lookup_fmap, fmap_Some. intros (u&Hu&->).
    destruct Hinv as [[_ Hn]|(_&Hh&Hq)]; [by destruct (Hn _ _ Hp)|].
    apply lookup_insert_Some in Hu as [[<- <-]|[Hne Hu]]; [done|].
    destruct u; try done. rewrite (Hq _ Hp) in Hne. by rewrite (Hq _ Hu) in Hne.
  - destruct Hinv as [[H0 Hn]|(H1&Hh&Hu)]; [left|right]; split_and!; try done.
    + intros q t [[<- <-]|[_ ?]]%lookup_insert_Some; eauto.
    + rewrite lookup_insert_ne; [done|]. intros ->. by simplify_eq.
    + intros q [[<- ?]|[_ ?]]%lookup_insert_Some; [done|auto].
Qed.

(** C30. A sleep lock is held by at most one process, [holdingsleep] is true of
    exactly that process, and a process only sleeps while another one holds
    the lock: no wakeup is lost. *)
Theorem sleeplock_exclusive s0 s :
  the_lock s0 = initsleeplock → (∀ pid t, procs s0 !! pid = Some t → t = SL_idle) →
  rtc slstep s0 s →
  (∀ pid, procs s !! pid ≠ None →
     holdingsleep pid (the_lock s) = true ↔ procs s !! pid = Some SL_holds) ∧
  (∀ p q, procs s !! p = Some SL_holds → procs s !! q = Some SL_holds → p = q) ∧
  (∀ p, procs s !! p = Some SL_asleep → ∃ q, procs s !! q = Some SL_holds).
Proof.
  intros H0 Hp Hr.
  assert (sl_inv s) as Hinv.
  { apply (rtc_invariant slstep sl_inv s0 s sl_inv_step); [|done].
    left. rewrite H0. split; [done|]. intros pid t Ht. by rewrite (Hp _ _ Ht). }
  unfold holdingsleep. destruct Hinv as [[Hl Hn]|(Hl&Hh&Hu)]; rewrite Hl; cbn [Z.eqb negb andb].
  - split_and!; [intros pid _; split; [done|]|..]; intros; exfalso; edestruct Hn; eauto.
  - split_and!; [intros pid _; rewrite Z.eqb_eq; split|..]; [by intros <-|by intros ->%Hu| |eauto].
    intros p q Hp' Hq'. by rewrite (Hu _ Hp'), (Hu _ Hq').
Qed.

Definition demo_locks : slsys := SlSys initsleeplock (<[1 := SL_idle]> (<[2 := SL_idle]> ∅)).
Lemma sleeplock_exclusive_witness :
  ∃ s, rtc slstep demo_locks s ∧ procs s !! 2 = Some SL_asleep ∧
    ∃ q, procs s !! q = Some SL_holds.
Proof.
  assert (Hr : rtc slstep demo_locks
    (SlSys (SleepLock 1 1) (<[2 := SL_asleep]> (<[2 := SL_try]> (<[1 := SL_holds]>
      (<[1 := SL_try]> (procs demo_locks))))))).
  { eapply rtc_l; [by apply (SL_call _ 1)|].
    eapply rtc_l; [by apply (SL_acquire _ 1 (SleepLock 1 1))|].
    eapply rtc_l; [by apply (SL_call _ 2)|].
    eapply rtc_l; [by apply (SL_sleep _ 2)|]. apply rtc_refl. }
  eexists. split; [exact Hr|]. split; [done|].
  assert (Hi : ∀ pid t, procs demo_locks !! pid = Some t → t = SL_idle).
  { intros pid t H. unfold demo_locks in H. cbn [procs] in H.
    rewrite !lookup_insert_Some, lookup_empty in H. naive_solver. }
  by apply (proj2 (proj2 (sleeplock_exclusive demo_locks _ eq_refl Hi Hr)) 2).
Defined.
