(* ===== verification/Blocks.v ===== *)
(** * Integers inside disk blocks

    A block is a list of bytes.  C code accesses the structures on it through
    casts; [get32], [put32], [get16] and [put16] are the little-endian loads
    and stores those accesses compile to. *)

From S2P Require Import Prelude.

Definition byte_at (d : list Z) (i : Z) : Z := nth (Z.to_nat i) d 0.

Definition le16 (v : Z) : list Z := [u8 v; u8 (v / 256)].
Definition le32 (v : Z) : list Z := [u8 v; u8 (v / 256); u8 (v / 65536); u8 (v / 16777216)].

Definition get16 (d : list Z) (off : Z) : Z := byte_at d off + 256 * byte_at d (off + 1).
Definition get32 (d : list Z) (off : Z) : Z :=
  byte_at d off + 256 * byte_at d (off + 1) + 65536 * byte_at d (off + 2)
  + 16777216 * byte_at d (off + 3).
Definition put16 (d : list Z) (off v : Z) : list Z := splice (Z.to_nat off) (le16 v) d.
Definition put32 (d : list Z) (off v : Z) : list Z := splice (Z.to_nat off) (le32 v) d.

(** All elements are bytes. *)
Definition is_block_data (d : list Z) : Prop := Forall is_u8 d.

Lemma byte_at_range d i : is_block_data d → is_u8 (byte_at d i).
Proof.
  intros Hd. unfold byte_at. destruct (d !! Z.to_nat i) eqn:E.
  - rewrite (nth_lookup_Some _ _ _ _ E). by eapply Forall_lookup_1.
  - rewrite nth_lookup, E. unfold is_u8. simpl. lia.
Qed.

Lemma byte_at_splice_eq d off k i :
  0 ≤ off → off + Z.of_nat (length k) ≤ Z.of_nat (length d) →
  off ≤ i < off + Z.of_nat (length k) →
  byte_at (splice (Z.to_nat off) k d) i = byte_at k (i - off).
Proof.
  intros. unfold byte_at. rewrite !nth_lookup. rewrite lookup_splice_eq by lia.
  by replace (Z.to_nat i - Z.to_nat off)%nat with (Z.to_nat (i - off)) by lia.
Qed.
Lemma byte_at_splice_ne d off k i :
  0 ≤ off → off + Z.of_nat (length k) ≤ Z.of_nat (length d) → 0 ≤ i →
  i < off ∨ off + Z.of_nat (length k) ≤ i →
  byte_at (splice (Z.to_nat off) k d) i = byte_at d i.
Proof.
  intros. unfold byte_at. rewrite !nth_lookup. by rewrite lookup_splice_ne by lia.
Qed.

Lemma length_put32 d off v :
  0 ≤ off → off + 4 ≤ Z.of_nat (length d) → length (put32 d off v) = length d.
Proof. intros. apply length_splice. simpl. lia. Qed.
Lemma length_put16 d off v :
  0 ≤ off → off + 2 ≤ Z.of_nat (length d) → length (put16 d off v) = length d.
Proof. intros. apply length_splice. simpl. lia. Qed.

Lemma Forall_splice {A} (P : A → Prop) n k l : Forall P k → Forall P l → Forall P (splice n k l).
Proof.
  intros. unfold splice. rewrite !Forall_app. split_and!; [by apply Forall_take|done|by apply Forall_drop].
Qed.
Lemma put32_bytes d off v : is_block_data d → is_block_data (put32 d off v).
Proof. intros. apply Forall_splice; [|done]. repeat constructor; apply u8_range. Qed.
Lemma put16_bytes d off v : is_block_data d → is_block_data (put16 d off v).
Proof. intros. apply Forall_splice; [|done]. repeat constructor; apply u8_range. Qed.

Lemma get32_range d off : is_block_data d → is_u32 (get32 d off).
Proof.
  intros Hd. unfold get32. pose proof (byte_at_range d off Hd).
  pose proof (byte_at_range d (off + 1) Hd). pose proof (byte_at_range d (off + 2) Hd).
  pose proof (byte_at_range d (off + 3) Hd). unfold is_u8, is_u32 in *. lia.
Qed.
Lemma get16_range d off : is_block_data d → 0 ≤ get16 d off < 65536.
Proof.
  intros Hd. unfold get16. pose proof (byte_at_range d off Hd).
  pose proof (byte_at_range d (off + 1) Hd). unfold is_u8 in *. lia.
Qed.

Lemma get32_put32 d off v :
  0 ≤ off → off + 4 ≤ Z.of_nat (length d) → get32 (put32 d off v) off = u32 v.
Proof.
  intros H0 H1. unfold get32, put32. rewrite !byte_at_splice_eq by (simpl; lia).
  replace (off - off) with 0 by lia. replace (off + 1 - off) with 1 by lia.
  replace (off + 2 - off) with 2 by lia. replace (off + 3 - off) with 3 by lia.
  unfold byte_at, le32. simpl nth. unfold u8, u32. zdm.
Qed.
Lemma get32_put32_ne d off v i :
  0 ≤ off → off + 4 ≤ Z.of_nat (length d) → 0 ≤ i → i + 4 ≤ off ∨ off + 4 ≤ i →
  get32 (put32 d off v) i = get32 d i.
Proof. intros. unfold get32, put32. by rewrite !byte_at_splice_ne by (simpl; lia). Qed.
Lemma get16_put16 d off v :
  0 ≤ off → off + 2 ≤ Z.of_nat (length d) → get16 (put16 d off v) off = u16 v.
Proof.
  intros H0 H1. unfold get16, put16. rewrite !byte_at_splice_eq by (simpl; lia).
  replace (off - off) with 0 by lia. replace (off + 1 - off) with 1 by lia.
  unfold byte_at, le16. simpl nth. unfold u8, u16. zdm.
Qed.
Lemma get16_splice_ne d off k i :
  0 ≤ off → off + Z.of_nat (length k) ≤ Z.of_nat (length d) → 0 ≤ i →
  i + 2 ≤ off ∨ off + Z.of_nat (length k) ≤ i → get16 (splice (Z.to_nat off) k d) i = get16 d i.
Proof. intros. unfold get16. by rewrite !byte_at_splice_ne by lia. Qed.
Lemma get32_splice_ne d off k i :
  0 ≤ off → off + Z.of_nat (length k) ≤ Z.of_nat (length d) → 0 ≤ i →
  i + 4 ≤ off ∨ off + Z.of_nat (length k) ≤ i → get32 (splice (Z.to_nat off) k d) i = get32 d i.
Proof. intros. unfold get32. by rewrite !byte_at_splice_ne by lia. Qed.
