(* ===== verification/Bio.v ===== *)
(** * The buffer cache: [bio.c], [buf.h], and the disk of [memide.c]

    Buffers are the elements of [bcache.buf], with [bcache.head] as one more
    element at index [NBUF], so that the [prev] and [next] links are indices.
    A buffer pointer is an index.  The functions are those of one process,
    whose pid is [b_me]; where the code would sleep because another process
    has the buffer locked, they end with [Blocked].

    [brep] relates the cache to what its users see: the contents [view] of
    every block, of which the disk holds an older version only for the blocks
    that are pinned (dirty) or in use, the pinned blocks [pin] and the buffers
    [hold] in use. *)

From S2P Require Import Prelude Params Sleeplock.

Record buf := Buf {
  flags : Z;
  dev : Z;
  blockno : Z;
  lock : sleeplock;
  refcnt : Z;
  prev : nat;
  next : nat;
  data : list Z;
}.

Definition set_flags v b := Buf v (dev b) (blockno b) (lock b) (refcnt b) (prev b) (next b) (data b).
Definition set_id d n b := Buf (flags b) d n (lock b) (refcnt b) (prev b) (next b) (data b).
Definition set_lock v b := Buf (flags b) (dev b) (blockno b) v (refcnt b) (prev b) (next b) (data b).
Definition set_refcnt v b := Buf (flags b) (dev b) (blockno b) (lock b) v (prev b) (next b) (data b).
Definition set_prev v b := Buf (flags b) (dev b) (blockno b) (lock b) (refcnt b) v (next b) (data b).
Definition set_next v b := Buf (flags b) (dev b) (blockno b) (lock b) (refcnt b) (prev b) v (data b).
Definition set_data v b := Buf (flags b) (dev b) (blockno b) (lock b) (refcnt b) (prev b) (next b) v.

(** A disk of [disksize] blocks, with the writes made to it so far, the last
    one first. *)
Record disk := Disk {
  blocks : Z → list Z;
  disksize : Z;
  writes : list (Z * list Z);
}.
Definition upd {A} (f : Z → A) (k : Z) (v : A) : Z → A := λ x, if x =? k then v else f x.

Record bst := Bst { bufs : list buf; the_disk : disk; b_me : Z }.
Definition HEAD : nat := Z.to_nat NBUF.

Definition on_bufs (f : list buf → list buf) (s : bst) : bst := Bst (f (bufs s)) (the_disk s) (b_me s).
Definition on_disk (f : disk → disk) (s : bst) : bst := Bst (bufs s) (f (the_disk s)) (b_me s).

Definition buf_get (i : nat) : M bst buf := λ s,
  match bufs s !! i with Some b => Ok b s | None => Fail (Undef "buf index") end.
Definition buf_upd (i : nat) (f : buf → buf) : M bst unit := λ s,
  match bufs s !! i with
  | Some b => Ok tt (on_bufs (<[i := f b]>) s)
  | None => Fail (Undef "buf index")
  end.

(** ** memide.c *)

Definition iderw (i : nat) : M bst unit :=
  b ← buf_get i;
  me ← gets b_me;
  d ← gets the_disk;
  if negb (holdingsleep me (lock b)) then panic "iderw: buf not locked"
  else if Z.land (flags b) (Z.lor B_VALID B_DIRTY) =? B_VALID then panic "iderw: nothing to do"
  else if negb (dev b =? 1) then panic "iderw: request not for disk 1"
  else if disksize d <=? blockno b then panic "iderw: block out of range"
  else if negb (Z.land (flags b) B_DIRTY =? 0) then
    modify (on_disk (λ d, Disk (upd (blocks d) (blockno b) (data b)) (disksize d)
      ((blockno b, data b) :: writes d)));;
    buf_upd i (set_flags (Z.lor (Z.ldiff (flags b) B_DIRTY) B_VALID))
  else
    buf_upd i (λ b, set_data (blocks d (blockno b)) (set_flags (Z.lor (flags b) B_VALID) b)).

(** ** bio.c *)

(** Insert [b] after the head of the list. *)
Definition link_first (b : nat) : M bst unit :=
  h ← buf_get HEAD;
  buf_upd b (set_next (next h));;
  buf_upd b (set_prev HEAD);;
  h ← buf_get HEAD;
  buf_upd (next h) (set_prev b);;
  buf_upd HEAD (set_next b).

Fixpoint binit_loop (n b : nat) : M bst unit :=
  match n with
  | O => mret tt
  | S n' =>
      h ← buf_get HEAD;
      buf_upd b (set_next (next h));;
      buf_upd b (set_prev HEAD);;
      buf_upd b (set_lock initsleeplock);;
      h ← buf_get HEAD;
      buf_upd (next h) (set_prev b);;
      buf_upd HEAD (set_next b);;
      binit_loop n' (S b)
  end.
Definition binit : M bst unit :=
  buf_upd HEAD (set_prev HEAD);;
  buf_upd HEAD (set_next HEAD);;
  binit_loop (Z.to_nat NBUF) 0.

(** [acquiresleep(&b->lock)] by the running process. *)
Definition buf_lock (i : nat) : M bst unit :=
  b ← buf_get i;
  me ← gets b_me;
  match acquiresleep me (lock b) with
  | Some lk => buf_upd i (set_lock lk)
  | None => fail (Blocked "buffer")
  end.

(** The two searches of [bget]: the buffer for which the loop stops. *)
Fixpoint scan_next (p : buf → bool) (fuel : nat) (b : nat) : M bst (option nat) :=
  match fuel with
  | O => fail OutOfFuel
  | S f =>
      if (b =? HEAD)%nat then mret None
      else
        bb ← buf_get b;
        if p bb then mret (Some b) else scan_next p f (next bb)
  end.
Fixpoint scan_prev (p : buf → bool) (fuel : nat) (b : nat) : M bst (option nat) :=
  match fuel with
  | O => fail OutOfFuel
  | S f =>
      if (b =? HEAD)%nat then mret None
      else
        bb ← buf_get b;
        if p bb then mret (Some b) else scan_prev p f (prev bb)
  end.
Definition is_block (d n : Z) (b : buf) : bool := (dev b =? d) && (blockno b =? n).
Definition is_unused (b : buf) : bool := (refcnt b =? 0) && (Z.land (flags b) B_DIRTY =? 0).

Definition bget (d n : Z) : M bst nat :=
  h ← buf_get HEAD;
  o ← scan_next (is_block d n) (S HEAD) (next h);
  match o with
  | Some i =>
      buf_upd i (λ b, set_refcnt (refcnt b +u 1) b);;
      buf_lock i;;
      mret i
  | None =>
      h ← buf_get HEAD;
      o ← scan_prev is_unused (S HEAD) (prev h);
      match o with
      | Some i =>
          buf_upd i (λ b, set_refcnt 1 (set_flags 0 (set_id d n b)));;
          buf_lock i;;
          mret i
      | None => panic "bget: no buffers"
      end
  end.

Definition bread (d n : Z) : M bst nat :=
  i ← bget d n;
  b ← buf_get i;
  when (Z.land (flags b) B_VALID =? 0) (iderw i);;
  mret i.

Definition bwrite (i : nat) : M bst unit :=
  b ← buf_get i;
  me ← gets b_me;
  if negb (holdingsleep me (lock b)) then panic "bwrite"
  else
    buf_upd i (λ b, set_flags (Z.lor (flags b) B_DIRTY) b);;
    iderw i.

Definition brelse (i : nat) : M bst unit :=
  b ← buf_get i;
  me ← gets b_me;
  if negb (holdingsleep me (lock b)) then panic "brelse"
  else
    buf_upd i (λ b, set_lock (releasesleep (lock b)) b);;
    buf_upd i (λ b, set_refcnt (refcnt b -u 1) b);;
    b ← buf_get i;
    when (refcnt b =? 0)
      (buf_upd (next b) (set_prev (prev b));;
       b ← buf_get i;
       buf_upd (prev b) (set_next (next b));;
       link_first i).

(** [b->data] and its modification by a user of the buffer. *)
Definition buf_data (i : nat) : M bst (list Z) := b ← buf_get i; mret (data b).
Definition buf_store (i : nat) (d : list Z) : M bst unit := buf_upd i (set_data d).

(** ** The list of buffers *)

(** The nodes from [x] to [y] through [l], linked both ways. *)
Fixpoint path (nx pv : nat → nat) (x : nat) (l : list nat) (y : nat) : Prop :=
  match l with
  | [] => nx x = y ∧ pv y = x
  | z :: l' => (nx x = z ∧ pv z = x) ∧ path nx pv z l' y
  end.

Lemma path_app nx pv x l1 z l2 y :
  path nx pv x (l1 ++ z :: l2) y ↔ path nx pv x l1 z ∧ path nx pv z l2 y.
Proof.
  revert x. induction l1 as [|w l1 IH]; intros x; simpl; [done|]. rewrite IH. tauto.
Qed.

Lemma path_frame nx pv nx' pv' x l y :
  (∀ z, z = x ∨ z ∈ l → nx' z = nx z) → (∀ z, z = y ∨ z ∈ l → pv' z = pv z) →
  path nx pv x l y → path nx' pv' x l y.
Proof.
  revert x. induction l as [|w l IH]; intros x Hn Hp; simpl.
  - intros [E1 E2]. by rewrite Hn, Hp by tauto.
  - intros [[E1 E2] Hl]. rewrite Hn by tauto. rewrite (Hp w) by (right; left).
    split; [done|]. apply IH; [..|done]; intros z Hz; [apply Hn|apply Hp];
      rewrite elem_of_cons; tauto.
Qed.

Lemma path_last nx pv x l y : path nx pv x l y → pv y = x ∨ pv y ∈ l.
Proof.
  revert x. induction l as [|w l IH]; intros x; simpl; [tauto|].
  intros [_ [->|]%IH]; rewrite elem_of_cons; tauto.
Qed.
Lemma path_first nx pv x l y : path nx pv x l y → nx x = y ∨ nx x ∈ l.
Proof. destruct l; simpl; [tauto|]. intros [[-> _] _]. right. left. Qed.

Definition fupd {A} (f : nat → A) (i : nat) (v : A) : nat → A := λ x, if decide (x = i) then v else f x.
Lemma fupd_eq {A} (f : nat → A) i v : fupd f i v i = v.
Proof. unfold fupd. by rewrite decide_True. Qed.
Lemma fupd_ne {A} (f : nat → A) i v x : x ≠ i → fupd f i v x = f x.
Proof. unfold fupd. intros. by rewrite decide_False. Qed.

(** Unlinking [b]: [b->next->prev = b->prev; b->prev->next = b->next]. *)
Lemma path_unlink nx pv x l1 b l2 y :
  path nx pv x l1 b → path nx pv b l2 y →
  NoDup (x :: l1 ++ b :: l2) → y ∉ l1 ++ b :: l2 →
  path (fupd nx (pv b) (nx b)) (fupd pv (nx b) (pv b)) x (l1 ++ l2) y.
Proof.
  revert x. induction l1 as [|w l1 IH]; intros x H1 H2 Hnd Hy.
  - destruct H1 as [_ Ep]. rewrite Ep. simpl in *.
    apply NoDup_cons in Hnd as [Hx Hnd]. apply NoDup_cons in Hnd as [Hb Hnd].
    destruct l2 as [|n l2]; simpl in *.
    + destruct H2 as [-> _]. by rewrite !fupd_eq.
    + destruct H2 as [[-> _] H2]. rewrite !fupd_eq. split; [done|].
      apply NoDup_cons in Hnd as [Hn Hnd].
      eapply path_frame; [..|exact H2]; intros z Hz; apply fupd_ne; set_solver.
  - pose proof (path_last _ _ _ _ _ (proj2 H1)) as Hl.
    pose proof (path_first _ _ _ _ _ H2) as Hf.
    destruct H1 as [[E1 E2] H1]. simpl in *.
    apply NoDup_cons in Hnd as [Hx Hnd].
    pose proof Hnd as [Hw _]%NoDup_cons.
    rewrite elem_of_cons, elem_of_app in Hx. rewrite elem_of_app, elem_of_cons in Hw.
    rewrite elem_of_cons, elem_of_app in Hy.
    split; [|apply IH; [done..|rewrite elem_of_app; tauto]].
    rewrite !fupd_ne; [done|intros E; rewrite <-E in *; naive_solver..].
Qed.

(** Linking [b] after the head. *)
Lemma path_link nx pv h l b :
  path nx pv h l h → NoDup (h :: l) → b ∉ h :: l →
  path (fupd (fupd nx b (nx h)) h b) (fupd (fupd pv b h) (nx h) b) h (b :: l) h.
Proof.
  intros Hp Hnd Hb. pose proof (path_first _ _ _ _ _ Hp) as Hf.
  apply NoDup_cons in Hnd as [Hh Hnd]. rewrite not_elem_of_cons in Hb.
  simpl. rewrite fupd_eq, (fupd_ne _ (nx h)) by set_solver. rewrite fupd_eq. split; [done|].
  destruct l as [|n l]; simpl in *.
  - destruct Hp as [-> _]. rewrite fupd_ne by tauto. by rewrite !fupd_eq.
  - destruct Hp as [[-> _] Hp]. rewrite (fupd_ne _ h) by tauto. rewrite !fupd_eq. split; [done|].
    apply NoDup_cons in Hnd as [Hn Hnd].
    eapply path_frame; [..|exact Hp]; intros z Hz; rewrite !fupd_ne; set_solver.
Qed.

(** ** Buffers by index *)

Definition buf0 : buf := Buf 0 0 0 initsleeplock 0 0 0 [].
Definition bat (bs : list buf) (i : nat) : buf := default buf0 (bs !! i).
Definition nx (bs : list buf) (i : nat) : nat := next (bat bs i).
Definition pv (bs : list buf) (i : nat) : nat := prev (bat bs i).

Lemma bat_insert_eq bs i b : (i < length bs)%nat → bat (<[i := b]> bs) i = b.
Proof. intros. unfold bat. by rewrite list_lookup_insert_eq. Qed.
Lemma bat_insert_ne bs i j b : i ≠ j → bat (<[i := b]> bs) j = bat bs j.
Proof. intros. unfold bat. by rewrite list_lookup_insert_ne. Qed.
Lemma bat_insert bs i j b :
  (i < length bs)%nat → bat (<[i := b]> bs) j = if decide (j = i) then b else bat bs j.
Proof.
  intros. destruct (decide (j = i)) as [->|]; [by apply bat_insert_eq|by apply bat_insert_ne].
Qed.

Lemma wp_buf_get i Q s : (i < length (bufs s))%nat → Q (bat (bufs s) i) s → wp (buf_get i) Q s.
Proof.
  intros [b Hb]%lookup_lt_is_Some HQ. unfold wp, buf_get, bat in *. by rewrite Hb in *.
Qed.
Lemma wp_buf_upd i f Q s :
  (i < length (bufs s))%nat → Q tt (on_bufs (<[i := f (bat (bufs s) i)]>) s) → wp (buf_upd i f) Q s.
Proof.
  intros [b Hb]%lookup_lt_is_Some HQ. unfold wp, buf_upd, bat in *. by rewrite Hb in *.
Qed.

(** Step through straight-line code on buffers. *)
Ltac blen := rewrite ?length_insert; lia.
Ltac bstep :=
  lazymatch goal with
  | |- wp (_ ≫= _) _ _ => apply wp_bind
  | |- wp (gets _) _ _ => apply wp_gets
  | |- wp (modify _) _ _ => apply wp_modify
  | |- wp (mret _) _ _ => apply wp_ret
  | |- wp (buf_get _) _ _ => apply wp_buf_get; [cbn [bufs on_bufs on_disk]; rewrite ?length_insert; lia|]
  | |- wp (buf_upd _ _) _ _ => apply wp_buf_upd; [cbn [bufs on_bufs on_disk]; rewrite ?length_insert; lia|]
  end; cbn beta.

Section scan.
Context (p : buf → bool) (s : bst).
Let nx' := nx (bufs s).
Let pv' := pv (bufs s).

Lemma scan_next_spec x l fuel :
  path nx' pv' x l HEAD → HEAD ∉ l → Forall (λ i, i < length (bufs s))%nat l →
  (length l < fuel)%nat →
  wp (scan_next p fuel (nx' x)) (λ o s', s' = s ∧
    match o with
    | Some i => i ∈ l ∧ p (bat (bufs s) i) = true
    | None => ∀ i, i ∈ l → p (bat (bufs s) i) = false
    end) s.
Proof.
  revert x fuel. induction l as [|i l IH]; intros x fuel Hp Hh Hl Hf;
    (destruct fuel as [|fuel]; [simpl in Hf; lia|]); cbn [scan_next].
  - destruct Hp as [-> _]. rewrite Nat.eqb_refl. apply wp_ret. split; [done|].
    intros i Hi. by apply not_elem_of_nil in Hi.
  - destruct Hp as [[-> _] Hp]. rewrite not_elem_of_cons in Hh.
    apply Forall_cons in Hl as [Hi Hl].
    destruct (Nat.eqb_spec i HEAD) as [->|_]; [naive_solver|].
    bstep. apply wp_buf_get; [done|]. destruct (p _) eqn:E.
    + apply wp_ret. split; [done|]. split; [left|done].
    + eapply wp_mono; [apply IH; [done|tauto|done|simpl in Hf; lia]|].
      intros [j|] s' [-> Ho]; (split; [done|]).
      * destruct Ho. split; [by right|done].
      * intros j [->|Hj]%elem_of_cons; auto.
Qed.

Lemma scan_prev_spec l y fuel :
  path nx' pv' HEAD l y → HEAD ∉ l → Forall (λ i, i < length (bufs s))%nat l →
  (length l < fuel)%nat →
  wp (scan_prev p fuel (pv' y)) (λ o s', s' = s ∧
    match o with
    | Some i => i ∈ l ∧ p (bat (bufs s) i) = true
    | None => ∀ i, i ∈ l → p (bat (bufs s) i) = false
    end) s.
Proof.
  revert y fuel. induction l as [|i l IH] using rev_ind; intros y fuel Hp Hh Hl Hf;
    (destruct fuel as [|fuel]; [rewrite ?length_app in Hf; simpl in Hf; lia|]); cbn [scan_prev].
  - destruct Hp as [_ ->]. rewrite Nat.eqb_refl. apply wp_ret. split; [done|].
    intros i Hi. by apply not_elem_of_nil in Hi.
  - apply path_app in Hp as [Hp [_ ->]]. rewrite elem_of_app, list_elem_of_singleton in Hh.
    rewrite Forall_app, Forall_singleton in Hl. destruct Hl as [Hl Hi].
    destruct (Nat.eqb_spec i HEAD) as [->|_]; [naive_solver|].
    bstep. apply wp_buf_get; [exact Hi|]. destruct (p _) eqn:E.
    + apply wp_ret. split; [done|]. split; [|done]. apply elem_of_app. right. by left.
    + eapply wp_mono; [apply IH; [done|tauto|done|rewrite length_app in Hf; simpl in Hf; lia]|].
      intros [j|] s' [-> Ho]; (split; [done|]).
      * destruct Ho. split; [apply elem_of_app; by left|done].
      * intros j [Hj|Hj]%elem_of_app; [by auto|].
        apply list_elem_of_singleton in Hj as ->. done.
Qed.
End scan.

(** ** What the cache stands for *)

Abbreviation view := (Z → list Z).
Abbreviation holds := (gmap nat (Z * Z)).   (* buffer in use ↦ block, pid *)

Definition buf_ok (v : view) (pin : list Z) (hold : holds) (size : Z) (i : nat) (b : buf) : Prop :=
  match hold !! i with
  | Some (n, pid) => dev b = 1 ∧ blockno b = n ∧ refcnt b = 1 ∧ lock b = SleepLock 1 pid
  | None => refcnt b = 0 ∧ lock b = SleepLock 0 0
  end ∧
  (dev b = 0 ∧ flags b = 0 ∨
   dev b = 1 ∧ 0 ≤ blockno b < size ∧ data b = v (blockno b) ∧
   flags b = (if decide (blockno b ∈ pin) then 6 else 2)).

Record brep (s : bst) (v : view) (pin : list Z) (hold : holds) : Prop := {
  br_len : length (bufs s) = S HEAD;
  br_order : ∃ order, order ≡ₚ seq 0 HEAD ∧ path (nx (bufs s)) (pv (bufs s)) HEAD order HEAD;
  br_ok i : (i < HEAD)%nat → buf_ok v pin hold (disksize (the_disk s)) i (bat (bufs s) i);
  br_uniq i j : (i < HEAD)%nat → (j < HEAD)%nat →
    dev (bat (bufs s) i) = 1 → dev (bat (bufs s) j) = 1 →
    blockno (bat (bufs s) i) = blockno (bat (bufs s) j) → i = j;
  br_pin n : n ∈ pin → ∃ i, (i < HEAD)%nat ∧
    dev (bat (bufs s) i) = 1 ∧ blockno (bat (bufs s) i) = n;
  br_hold i x : hold !! i = Some x → (i < HEAD)%nat;
  br_disk n : n ∉ pin → (∀ i pid, hold !! i ≠ Some (n, pid)) → v n = blocks (the_disk s) n;
}.

Lemma order_facts (order : list nat) n :
  order ≡ₚ seq 0 n →
  NoDup (n :: order) ∧ (n ∉ order) ∧ (∀ i, i ∈ order ↔ (i < n)%nat) ∧ length order = n.
Proof.
  intros Hp. assert (∀ i, i ∈ order ↔ (i < n)%nat) as Hi.
  { intros i. rewrite Hp, elem_of_seq. lia. }
  split_and!; [|rewrite Hi; lia|done|by rewrite Hp, length_seq].
  apply NoDup_cons. split; [rewrite Hi; lia|]. rewrite Hp. apply NoDup_seq.
Qed.

Lemma path_ext nx1 pv1 nx2 pv2 x l y :
  (∀ i, nx2 i = nx1 i) → (∀ i, pv2 i = pv1 i) → path nx1 pv1 x l y → path nx2 pv2 x l y.
Proof. intros. eapply path_frame; eauto. Qed.

(** Replacing one buffer, its links unchanged. *)
Lemma brep_put s s' v pin hold i b' v' pin' hold' :
  brep s v pin hold → (i < HEAD)%nat → bufs s' = <[i := b']> (bufs s) →
  prev b' = prev (bat (bufs s) i) → next b' = next (bat (bufs s) i) →
  buf_ok v' pin' hold' (disksize (the_disk s')) i b' →
  (∀ j, (j < HEAD)%nat → j ≠ i → buf_ok v' pin' hold' (disksize (the_disk s')) j (bat (bufs s) j)) →
  (∀ j, (j < HEAD)%nat → j ≠ i → dev b' = 1 → dev (bat (bufs s) j) = 1 →
     blockno (bat (bufs s) j) ≠ blockno b') →
  (∀ n, n ∈ pin' → dev b' = 1 ∧ blockno b' = n ∨
     ∃ j, (j < HEAD)%nat ∧ j ≠ i ∧ dev (bat (bufs s) j) = 1 ∧ blockno (bat (bufs s) j) = n) →
  (∀ j x, hold' !! j = Some x → (j < HEAD)%nat) →
  (∀ n, n ∉ pin' → (∀ j pid, hold' !! j ≠ Some (n, pid)) → v' n = blocks (the_disk s') n) →
  brep s' v' pin' hold'.
Proof.
  intros [Hlen Hord Hok Hu Hpin Hhold Hdisk] Hi E' Hp Hn Hb Hj Huq Hpin' Hhold' Hd.
  assert (i < length (bufs s))%nat as Hi' by lia.
  split; rewrite ?E'.
  - by rewrite length_insert.
  - destruct Hord as (order&Ho&Hpath). exists order. split; [done|].
    eapply path_ext; [..|exact Hpath]; intros k; unfold nx, pv; rewrite bat_insert by done;
      case_decide; by subst.
  - intros k Hk. rewrite bat_insert by done. case_decide; [by subst|by apply Hj].
  - intros j k Hj' Hk'. rewrite !bat_insert by done. repeat case_decide; subst; auto.
    + intros. symmetry in H1. by destruct (Huq k).
    + intros. by destruct (Huq j).
  - intros n [[? ?]|(j&?&?&?&?)]%Hpin'; [exists i|exists j];
      rewrite bat_insert by done; [by rewrite decide_True|by rewrite decide_False].
  - done.
  - done.
Qed.

Lemma buf_ok_ext v pin hold size v' pin' hold' j b :
  hold' !! j = hold !! j → (dev b = 1 → v' (blockno b) = v (blockno b)) →
  (dev b = 1 → blockno b ∈ pin' ↔ blockno b ∈ pin) →
  buf_ok v pin hold size j b → buf_ok v' pin' hold' size j b.
Proof.
  unfold buf_ok. intros -> Hv Hp [H1 H2]. split; [done|].
  destruct H2 as [?|(Hd&?&Hdata&Hf)]; [by left|right]. rewrite Hv by done.
  specialize (Hp Hd). split; [done|]. split; [done|]. split; [done|].
  destruct (decide (blockno b ∈ pin)), (decide (blockno b ∈ pin')); tauto.
Qed.

(** As long as fewer than [NBUF] blocks are pinned or in use, [bget] finds a
    buffer to recycle. *)
Lemma unused_exists s v pin hold :
  brep s v pin hold → (length pin + size hold < HEAD)%nat →
  ∃ i, (i < HEAD)%nat ∧ is_unused (bat (bufs s) i) = true.
Proof.
  intros Hb Hlt.
  destruct (decide (Exists (λ i, is_unused (bat (bufs s) i) = true) (seq 0 HEAD))) as [He|Hn].
  { apply Exists_exists in He as (i&Hi%elem_of_seq&?). exists i. split; [lia|done]. }
  exfalso. rewrite <-Forall_Exists_neg, Forall_forall in Hn.
  set (H := filter (λ i, is_Some (hold !! i)) (seq 0 HEAD)).
  set (P := filter (λ i, ¬ is_Some (hold !! i)) (seq 0 HEAD)).
  assert (length H + length P = HEAD)%nat as Hlen.
  { unfold H, P. rewrite <-length_app.
    rewrite (filter_app_complement (λ i, is_Some (hold !! i)) (seq 0 HEAD)).
    apply length_seq. }
  assert (length H ≤ size hold)%nat.
  { rewrite <-(size_dom (D := gset nat)), <-(list_to_set_elements (C := gset nat) (dom hold)), size_list_to_set
      by apply NoDup_elements.
    apply submseteq_length, NoDup_submseteq; [apply NoDup_filter, NoDup_seq|].
    intros i [Hi _]%list_elem_of_filter. by apply elem_of_elements, elem_of_dom. }
  assert (∀ i, i ∈ P → (i < HEAD)%nat ∧ dev (bat (bufs s) i) = 1 ∧
    blockno (bat (bufs s) i) ∈ pin) as HP.
  { intros i [Hi Hs]%list_elem_of_filter. specialize (Hn i Hs).
    apply elem_of_seq in Hs as [_ Hs]. simpl in Hs.
    destruct (br_ok _ _ _ _ Hb i Hs) as [H1 H2].
    destruct (hold !! i) as [?|]; [by destruct Hi; eexists|]. destruct H1 as [Hr _].
    unfold is_unused in Hn. rewrite Hr in Hn.
    destruct H2 as [[_ Hf]|(Hd&_&_&Hf)]; rewrite Hf in Hn; [done|].
    case_decide; [done|done]. }
  assert (length P ≤ length pin)%nat; [|lia].
  rewrite <-(length_fmap (λ i, blockno (bat (bufs s) i)) P).
  apply submseteq_length, NoDup_submseteq.
  - apply NoDup_fmap_2_strong; [|apply NoDup_filter, NoDup_seq].
    intros i j (?&?&_)%HP (?&?&_)%HP. by eapply br_uniq.
  - intros n (i&->&(_&_&?)%HP)%list_elem_of_fmap. done.
Qed.

(** Taking an idle cached buffer, and recycling one for another block. *)
Lemma brep_take s s' v pin hold i n me :
  brep s v pin hold → (i < HEAD)%nat → hold !! i = None →
  dev (bat (bufs s) i) = 1 → blockno (bat (bufs s) i) = n → the_disk s' = the_disk s →
  bufs s' = <[i := set_lock (SleepLock 1 me) (set_refcnt 1 (bat (bufs s) i))]> (bufs s) →
  brep s' v pin (<[i := (n, me)]> hold).
Proof.
  intros Hb Hi Hhi Hd Hbn Ed Eb. pose proof (br_ok _ _ _ _ Hb i Hi) as [_ H2].
  eapply (brep_put s s' v pin hold i); eauto; rewrite ?Ed.
  - unfold buf_ok. rewrite lookup_insert_eq. by split.
  - intros j Hj Hne. eapply buf_ok_ext; [|done|done|by apply (br_ok _ _ _ _ Hb)].
    by apply lookup_insert_ne.
  - intros j Hj Hne _ Hdj E. apply Hne. eapply br_uniq; eauto.
  - intros m (j&?&?&?)%(br_pin _ _ _ _ Hb). destruct (decide (j = i)) as [->|]; eauto 6.
  - intros j x [[<- _]|[_ ?]]%lookup_insert_Some; [done|by eapply br_hold].
  - intros m Hm Hx. apply (br_disk _ _ _ _ Hb); [done|]. intros j pid Hj.
    apply (Hx j pid). rewrite lookup_insert_ne; [done|]. congruence.
Qed.

Lemma brep_recycle s s' v pin hold i n me :
  brep s v pin hold → (i < HEAD)%nat → hold !! i = None → is_unused (bat (bufs s) i) = true →
  (∀ j, (j < HEAD)%nat → is_block 1 n (bat (bufs s) j) = false) →
  0 ≤ n < disksize (the_disk s) → n ∉ pin → v n = blocks (the_disk s) n →
  the_disk s' = the_disk s →
  bufs s' = <[i := Buf 2 1 n (SleepLock 1 me) 1 (prev (bat (bufs s) i)) (next (bat (bufs s) i))
                     (v n)]> (bufs s) →
  brep s' v pin (<[i := (n, me)]> hold).
Proof.
  intros Hb Hi Hhi [_ Hfl%Z.eqb_eq]%andb_true_iff Hnew Hn Hnp Hv Ed Eb.
  assert (∀ j, (j < HEAD)%nat → dev (bat (bufs s) j) = 1 → blockno (bat (bufs s) j) ≠ n) as Hne.
  { intros j Hj Hd E. specialize (Hnew j Hj). unfold is_block in Hnew.
    by rewrite Hd, E, !Z.eqb_refl in Hnew. }
  pose proof (br_ok _ _ _ _ Hb i Hi) as [_ H2].
  eapply (brep_put s s' v pin hold i); eauto; rewrite ?Ed.
  - unfold buf_ok. rewrite lookup_insert_eq. split; [done|]. right.
    cbn [dev blockno data flags]. by rewrite decide_False.
  - intros j Hj Hji. eapply buf_ok_ext; [|done|done|by apply (br_ok _ _ _ _ Hb)].
    by apply lookup_insert_ne.
  - intros m Hm. destruct (br_pin _ _ _ _ Hb m Hm) as (j&Hj&Hdj&Hbj). right.
    exists j. split_and!; try done. intros ->.
    destruct H2 as [[? _]|(_&_&_&Hf)]; [congruence|].
    rewrite Hf, decide_True in Hfl by congruence. done.
  - intros j x [[<- _]|[_ ?]]%lookup_insert_Some; [done|by eapply br_hold].
  - intros m Hm Hx. destruct (decide (m = n)) as [->|]; [done|].
    apply (br_disk _ _ _ _ Hb); [done|]. intros j pid Hj.
    apply (Hx j pid). rewrite lookup_insert_ne; [done|]. congruence.
Qed.

Definition bread_post (s : bst) (v : view) (pin : list Z) (hold : holds) (n : Z) (i : nat)
    (s' : bst) : Prop :=
  hold !! i = None ∧ brep s' v pin (<[i := (n, b_me s)]> hold) ∧
  the_disk s' = the_disk s ∧ b_me s' = b_me s ∧ data (bat (bufs s') i) = v n.

Lemma bread_hit s v pin hold n i :
  brep s v pin hold → (∀ i pid, hold !! i ≠ Some (n, pid)) → (i < HEAD)%nat →
  is_block 1 n (bat (bufs s) i) = true →
  wp (buf_upd i (λ b, set_refcnt (refcnt b +u 1) b);; buf_lock i;; mret i)
    (λ i, wp (b ← buf_get i; when (Z.land (flags b) B_VALID =? 0) (iderw i);; mret i)
            (bread_post s v pin hold n)) s.
Proof.
  intros Hb Hh Hi [Hd%Z.eqb_eq Hbn%Z.eqb_eq]%andb_true_iff.
  pose proof (br_len _ _ _ _ Hb) as Hlen. pose proof (br_ok _ _ _ _ Hb i Hi) as [H1 H2].
  destruct (hold !! i) as [[n' pid]|] eqn:Hhi.
  { destruct H1 as (_&E&_). exfalso. apply (Hh i pid). rewrite Hhi. congruence. }
  destruct H1 as [Hr Hl]. destruct H2 as [[H0 _]|(_&Hrng&Hdata&Hf)]; [congruence|].
  unfold buf_lock. repeat bstep. cbn [bufs on_bufs]. rewrite bat_insert_eq by blen.
  cbn [lock set_refcnt]. rewrite Hl. cbn [acquiresleep locked Z.eqb].
  repeat bstep. cbn [bufs on_bufs the_disk b_me].
  rewrite ?list_insert_insert_eq, !bat_insert_eq by blen.
  apply wp_when; cbn [flags set_lock set_refcnt]; [rewrite Hf; by case_decide|].
  intros _. apply wp_ret. unfold bread_post. cbn [bufs on_bufs the_disk b_me].
  rewrite ?list_insert_insert_eq, bat_insert_eq by blen. cbn [data set_lock set_refcnt].
  split_and!; [done| |done|done|by rewrite Hdata, Hbn].
  eapply brep_take; eauto. cbn [bufs on_bufs]. rewrite list_insert_insert_eq.
  by rewrite Hr.
Qed.

Lemma bread_miss s v pin hold n i :
  brep s v pin hold → (∀ i pid, hold !! i ≠ Some (n, pid)) → (i < HEAD)%nat →
  is_unused (bat (bufs s) i) = true →
  (∀ j, (j < HEAD)%nat → is_block 1 n (bat (bufs s) j) = false) →
  0 ≤ n < disksize (the_disk s) →
  wp (buf_upd i (λ b, set_refcnt 1 (set_flags 0 (set_id 1 n b)));; buf_lock i;; mret i)
    (λ i, wp (b ← buf_get i; when (Z.land (flags b) B_VALID =? 0) (iderw i);; mret i)
            (bread_post s v pin hold n)) s.
Proof.
  intros Hb Hh Hi Hun Hnew Hn. pose proof (br_len _ _ _ _ Hb) as Hlen.
  pose proof (br_ok _ _ _ _ Hb i Hi) as [H1 _].
  destruct (hold !! i) as [[n' pid]|] eqn:Hhi.
  { unfold is_unused in Hun. destruct H1 as (_&_&Hr&_). by rewrite Hr in Hun. }
  destruct H1 as [_ Hl].
  assert (n ∉ pin) as Hnp.
  { intros (j&Hj&Hdj&Hbj)%(br_pin _ _ _ _ Hb). specialize (Hnew j Hj).
    unfold is_block in Hnew. by rewrite Hdj, Hbj, !Z.eqb_refl in Hnew. }
  pose proof (br_disk _ _ _ _ Hb n Hnp Hh) as Hvn.
  unfold buf_lock. repeat bstep. cbn [bufs on_bufs]. rewrite bat_insert_eq by blen.
  cbn [lock set_refcnt set_flags set_id]. rewrite Hl. cbn [acquiresleep locked Z.eqb].
  repeat bstep. cbn [bufs on_bufs the_disk b_me].
  rewrite ?list_insert_insert_eq, !bat_insert_eq by blen.
  apply wp_when; [|done]. intros _. unfold iderw. repeat bstep. cbn [bufs on_bufs the_disk b_me].
  rewrite ?list_insert_insert_eq, !bat_insert_eq by blen. unfold holdingsleep. cbn -[upd bat Z.leb].
  rewrite Z.eqb_refl. cbn -[upd bat Z.leb].
  destruct (Z.leb_spec (disksize (the_disk s)) n); [lia|].
  change (Z.land 0 (Z.lor B_VALID B_DIRTY) =? B_VALID) with false.
  change (Z.land 0 B_DIRTY =? 0) with true. cbn [negb].
  repeat bstep. unfold bread_post. cbn [bufs on_bufs the_disk b_me].
  rewrite ?list_insert_insert_eq, !bat_insert_eq by blen.
  split_and!; [done| |done|done|done].
  eapply brep_recycle; eauto. cbn [bufs on_bufs].
  rewrite ?list_insert_insert_eq. by rewrite Hvn.
Qed.

(** [bread] returns a locked buffer with the contents of the block. *)
Lemma bread_wp s v pin hold n :
  brep s v pin hold → 0 ≤ n < disksize (the_disk s) → (∀ i pid, hold !! i ≠ Some (n, pid)) →
  n ∈ pin ∨ (length pin + size hold < HEAD)%nat →
  wp (bread 1 n) (bread_post s v pin hold n) s.
Proof.
  intros Hb Hn Hh Hroom. pose proof (br_len _ _ _ _ Hb) as Hlen.
  destruct (br_order _ _ _ _ Hb) as (order&Ho&Hp).
  destruct (order_facts _ _ Ho) as (Hnd&Hnh&Hin&Hlo).
  assert (Forall (λ i, i < length (bufs s))%nat order) as Hall.
  { apply Forall_forall. intros i Hi%Hin. lia. }
  unfold bread, bget. repeat bstep.
  eapply wp_mono; [apply scan_next_spec; eauto; lia|].
  intros [i|] s1 [-> Hs1].
  - destruct Hs1 as [Hi%Hin Hblk]. by apply bread_hit.
  - repeat bstep. eapply wp_mono; [apply scan_prev_spec; eauto; lia|].
    intros [i|] s2 [-> Hs2].
    + destruct Hs2 as [Hi%Hin Hun]. apply bread_miss; try done.
      intros j Hj. by apply Hs1, Hin.
    + destruct Hroom as [(i&Hi&Hd&Hbn)%(br_pin _ _ _ _ Hb)|Hroom].
      * specialize (Hs1 i). unfold is_block in Hs1.
        rewrite Hd, Hbn, !Z.eqb_refl in Hs1. by discriminate Hs1; apply Hin.
      * destruct (unused_exists _ _ _ _ Hb Hroom) as (i&Hi&Hu).
        by rewrite Hs2 in Hu by (by apply Hin).
Qed.

Lemma brep_pin_ext s v pin pin' hold :
  brep s v pin hold → (∀ m, m ∈ pin' ↔ m ∈ pin) → brep s v pin' hold.
Proof.
  intros Hb Hp. split; try apply Hb.
  - intros i Hi. eapply buf_ok_ext; [..|by apply (br_ok _ _ _ _ Hb)]; auto.
  - intros n Hn%Hp. by apply (br_pin _ _ _ _ Hb).
  - intros n Hn. rewrite Hp in Hn. by apply (br_disk _ _ _ _ Hb).
Qed.

(** A buffer in use. *)
Lemma held_facts s v pin hold i n pid :
  brep s v pin hold → hold !! i = Some (n, pid) →
  (i < HEAD)%nat ∧ dev (bat (bufs s) i) = 1 ∧ blockno (bat (bufs s) i) = n ∧
  refcnt (bat (bufs s) i) = 1 ∧ lock (bat (bufs s) i) = SleepLock 1 pid ∧
  0 ≤ n < disksize (the_disk s) ∧ data (bat (bufs s) i) = v n ∧
  flags (bat (bufs s) i) = (if decide (n ∈ pin) then 6 else 2).
Proof.
  intros Hb Hi. pose proof (br_hold _ _ _ _ Hb _ _ Hi) as Hlt.
  destruct (br_ok _ _ _ _ Hb i Hlt) as [H1 H2]. rewrite Hi in H1.
  destruct H1 as (Hd&<-&?&?). destruct H2 as [[? _]|(_&?&?&?)]; [congruence|done].
Qed.

Lemma held_other s v pin hold i n pid j :
  brep s v pin hold → hold !! i = Some (n, pid) → (j < HEAD)%nat → j ≠ i →
  dev (bat (bufs s) j) = 1 → blockno (bat (bufs s) j) ≠ n.
Proof.
  intros Hb Hi Hj Hne Hd E. destruct (held_facts _ _ _ _ _ _ _ Hb Hi) as (?&?&?&_).
  apply Hne. eapply br_uniq; eauto. congruence.
Qed.

(** Changing the flags or the data of a buffer in use, and the disk. *)
Lemma brep_held_upd s s' v pin hold i n pid f d v' pin' :
  brep s v pin hold → hold !! i = Some (n, pid) →
  bufs s' = <[i := set_data d (set_flags f (bat (bufs s) i))]> (bufs s) →
  disksize (the_disk s') = disksize (the_disk s) →
  d = v' n → f = (if decide (n ∈ pin') then 6 else 2) →
  (∀ m, m ≠ n → v' m = v m) → (∀ m, m ≠ n → m ∈ pin' ↔ m ∈ pin) →
  (∀ m, m ≠ n → blocks (the_disk s') m = blocks (the_disk s) m) →
  brep s' v' pin' hold.
Proof.
  intros Hb Hi Eb Ed -> Hf Hv Hp Hdisk.
  pose proof (held_facts _ _ _ _ _ _ _ Hb Hi) as (Hlt&Hd&Hbn&Hr&Hl&Hrng&_&_).
  eapply (brep_put s s' v pin hold i); eauto; rewrite ?Ed.
  - unfold buf_ok. rewrite Hi. cbn [dev blockno refcnt lock flags data set_data set_flags].
    rewrite Hbn. split; [done|]. by right.
  - intros j Hj Hne. eapply buf_ok_ext; [done| | |by apply (br_ok _ _ _ _ Hb)];
      intros Hdj; pose proof (held_other _ _ _ _ _ _ _ _ Hb Hi Hj Hne Hdj); auto.
  - intros j Hj Hne _ Hdj. cbn. rewrite Hbn. by eapply held_other.
  - intros m Hm. destruct (decide (m = n)) as [->|Hmn]; [by left|right].
    apply Hp in Hm; [|done]. destruct (br_pin _ _ _ _ Hb m Hm) as (j&?&?&Hbj).
    exists j. split_and!; try done. intros ->. congruence.
  - intros. by eapply br_hold.
  - intros m Hm Hx. destruct (decide (m = n)) as [->|Hmn]; [by destruct (Hx i pid)|].
    rewrite Hv, Hdisk by done. apply (br_disk _ _ _ _ Hb); [|done]. by rewrite <-Hp.
Qed.

Lemma buf_data_wp s v pin hold i n pid :
  brep s v pin hold → hold !! i = Some (n, pid) →
  wp (buf_data i) (λ d s', d = v n ∧ s' = s) s.
Proof.
  intros Hb Hi. pose proof (br_len _ _ _ _ Hb).
  destruct (held_facts _ _ _ _ _ _ _ Hb Hi) as (?&_&_&_&_&_&?&_).
  unfold buf_data. by repeat bstep.
Qed.

Lemma buf_store_wp s v pin hold i n pid d :
  brep s v pin hold → hold !! i = Some (n, pid) →
  wp (buf_store i d) (λ _ s', brep s' (upd v n d) pin hold ∧
    the_disk s' = the_disk s ∧ b_me s' = b_me s) s.
Proof.
  intros Hb Hi. pose proof (br_len _ _ _ _ Hb).
  destruct (held_facts _ _ _ _ _ _ _ Hb Hi) as (?&_&_&_&_&_&?&Hf).
  unfold buf_store. bstep. split; [|done].
  eapply (brep_held_upd s _ v pin hold i n pid (flags (bat (bufs s) i)) d); try done.
  - unfold upd. by rewrite Z.eqb_refl.
  - intros m Hm. unfold upd. by destruct (Z.eqb_spec m n).
Qed.

(** [b->flags |= B_DIRTY], as [log_write] does. *)
Definition buf_pin (i : nat) : M bst unit := buf_upd i (λ b, set_flags (Z.lor (flags b) B_DIRTY) b).

Lemma buf_pin_wp s v pin hold i n pid :
  brep s v pin hold → hold !! i = Some (n, pid) →
  wp (buf_pin i) (λ _ s', brep s' v (if decide (n ∈ pin) then pin else n :: pin) hold ∧
    the_disk s' = the_disk s ∧ b_me s' = b_me s) s.
Proof.
  intros Hb Hi. pose proof (br_len _ _ _ _ Hb).
  destruct (held_facts _ _ _ _ _ _ _ Hb Hi) as (?&_&_&_&_&_&?&Hf).
  unfold buf_pin. bstep. split; [|done].
  eapply (brep_held_upd s _ v pin hold i n pid 6 (v n)); try done.
  - cbn [bufs on_bufs]. rewrite Hf. destruct (bat (bufs s) i). cbn in *. subst.
    by case_decide.
  - destruct (decide (n ∈ pin)); [by rewrite decide_True|].
    rewrite decide_True; [done|]. by left.
  - intros m Hm. case_decide; [done|]. rewrite elem_of_cons. naive_solver.
Qed.

(** [bwrite] brings the disk up to date with the buffer. *)
Lemma bwrite_wp s v pin hold i n :
  brep s v pin hold → hold !! i = Some (n, b_me s) →
  wp (bwrite i) (λ _ s', brep s' v (filter (λ m, m ≠ n) pin) hold ∧
    the_disk s' = Disk (upd (blocks (the_disk s)) n (v n)) (disksize (the_disk s))
                    ((n, v n) :: writes (the_disk s)) ∧ b_me s' = b_me s) s.
Proof.
  intros Hb Hi. pose proof (br_len _ _ _ _ Hb).
  destruct (held_facts _ _ _ _ _ _ _ Hb Hi) as (?&Hd&Hn&_&Hl&?&Hdata&Hf).
  unfold bwrite. repeat bstep. rewrite Hl. unfold holdingsleep at 1. cbn [locked lk_pid Z.eqb negb].
  rewrite Z.eqb_refl. cbn [andb negb]. unfold iderw. repeat bstep.
  cbn [bufs on_bufs the_disk b_me]. rewrite bat_insert_eq by blen.
  cbn [lock set_flags flags dev blockno data]. rewrite Hl. unfold holdingsleep.
  cbn [locked lk_pid Z.eqb negb]. rewrite Z.eqb_refl. cbn [andb negb]. rewrite Hd, Hf.
  destruct (Z.leb_spec (disksize (the_disk s)) (blockno (bat (bufs s) i))); [lia|].
  assert (Z.lor (if decide (n ∈ pin) then 6 else 2) B_DIRTY = 6) as -> by (by case_decide).
  change (Z.land 6 (Z.lor B_VALID B_DIRTY) =? B_VALID) with false.
  change (Z.land 6 B_DIRTY =? 0) with false. cbn [negb Z.eqb Pos.eqb]. repeat bstep.
  cbn [bufs on_bufs on_disk the_disk b_me blocks disksize writes]. rewrite Hn, Hdata.
  split_and!; [|done|done].
  eapply (brep_held_upd s _ v pin hold i n (b_me s) 2 (v n)); try done.
  - cbn [bufs on_bufs on_disk]. rewrite list_insert_insert_eq, bat_insert_eq by lia.
    destruct (bat (bufs s) i). cbn in *. by subst.
  - rewrite decide_False; [done|]. rewrite list_elem_of_filter. naive_solver.
  - intros m Hm. rewrite list_elem_of_filter. naive_solver.
  - intros m Hm. cbn. unfold upd. by destruct (Z.eqb_spec m n).
Qed.

(** ** Moving a buffer to the front *)

Definition core (b : buf) : Z * Z * Z * sleeplock * Z * list Z :=
  (flags b, dev b, blockno b, lock b, refcnt b, data b).

(** [s'] differs from [s] in its links only, which are [n] and [p]. *)
Record relinked (s s' : bst) (n p : nat → nat) : Prop := {
  rl_len : length (bufs s') = length (bufs s);
  rl_disk : the_disk s' = the_disk s;
  rl_me : b_me s' = b_me s;
  rl_core j : core (bat (bufs s') j) = core (bat (bufs s) j);
  rl_next j : nx (bufs s') j = n j;
  rl_prev j : pv (bufs s') j = p j;
}.

Lemma relinked_refl s : relinked s s (nx (bufs s)) (pv (bufs s)).
Proof. by split. Qed.

Lemma wp_set_prev s0 s n p j x Q :
  relinked s0 s n p → (j < length (bufs s0))%nat →
  (∀ s', relinked s0 s' n (fupd p j x) → Q tt s') → wp (buf_upd j (set_prev x)) Q s.
Proof.
  intros [Hl Hd Hm Hc Hn Hp] Hj HQ. rewrite <-Hl in Hj. apply wp_buf_upd; [done|].
  apply HQ. split; cbn [bufs on_bufs the_disk b_me]; rewrite ?length_insert; try done;
    intros k; unfold nx, pv, fupd in *; rewrite bat_insert by done; specialize (Hn k);
    specialize (Hp k); specialize (Hc k); case_decide; by subst.
Qed.
Lemma wp_set_next s0 s n p j x Q :
  relinked s0 s n p → (j < length (bufs s0))%nat →
  (∀ s', relinked s0 s' (fupd n j x) p → Q tt s') → wp (buf_upd j (set_next x)) Q s.
Proof.
  intros [Hl Hd Hm Hc Hn Hp] Hj HQ. rewrite <-Hl in Hj. apply wp_buf_upd; [done|].
  apply HQ. split; cbn [bufs on_bufs the_disk b_me]; rewrite ?length_insert; try done;
    intros k; unfold nx, pv, fupd in *; rewrite bat_insert by done; specialize (Hn k);
    specialize (Hp k); specialize (Hc k); case_decide; by subst.
Qed.
Lemma wp_get_links s0 s n p j Q :
  relinked s0 s n p → (j < length (bufs s0))%nat →
  (∀ b, next b = n j → prev b = p j → Q b s) → wp (buf_get j) Q s.
Proof.
  intros Hr Hj HQ. rewrite <-(rl_len _ _ _ _ Hr) in Hj. apply wp_buf_get; [done|].
  apply HQ; [apply (rl_next _ _ _ _ Hr)|apply (rl_prev _ _ _ _ Hr)].
Qed.

Lemma brep_relinked s s' v pin hold n p order :
  brep s v pin hold → relinked s s' n p → order ≡ₚ seq 0 HEAD → path n p HEAD order HEAD →
  brep s' v pin hold.
Proof.
  intros [Hlen _ Hok Hu Hpin Hhold Hdisk] [Hl Hd _ Hc Hn Hp] Ho Hpath.
  assert (∀ j, flags (bat (bufs s') j) = flags (bat (bufs s) j) ∧
    dev (bat (bufs s') j) = dev (bat (bufs s) j) ∧
    blockno (bat (bufs s') j) = blockno (bat (bufs s) j) ∧
    lock (bat (bufs s') j) = lock (bat (bufs s) j) ∧
    refcnt (bat (bufs s') j) = refcnt (bat (bufs s) j) ∧
    data (bat (bufs s') j) = data (bat (bufs s) j)) as Hj.
  { intros j. specialize (Hc j). unfold core in Hc. by simplify_eq. }
  split; rewrite ?Hd; try done; [by rewrite Hl| |..].
  - exists order. split; [done|]. by eapply path_ext.
  - intros i Hi. destruct (Hj i) as (E1&E2&E3&E4&E5&E6). specialize (Hok i Hi).
    unfold buf_ok in *. by rewrite E1, E2, E3, E4, E5, E6.
  - intros i j Hi Hj'. destruct (Hj i) as (_&->&->&_), (Hj j) as (_&->&->&_). by apply Hu.
  - intros m (i&?&?&?)%Hpin. exists i. by destruct (Hj i) as (_&->&->&_).
Qed.

Lemma move_to_front s v pin hold i b :
  brep s v pin hold → (i < HEAD)%nat → next b = nx (bufs s) i → prev b = pv (bufs s) i →
  wp (buf_upd (next b) (set_prev (prev b));;
      b ← buf_get i; buf_upd (prev b) (set_next (next b));; link_first i)
    (λ _ s', brep s' v pin hold ∧ the_disk s' = the_disk s ∧ b_me s' = b_me s) s.
Proof.
  intros Hb Hi -> ->. destruct (br_order _ _ _ _ Hb) as (order&Ho&Hp).
  destruct (order_facts _ _ Ho) as (Hnd&Hnh&Hin&_).
  assert (i ∈ order) as (o1&o2&->)%list_elem_of_split by by apply Hin.
  pose proof (br_len _ _ _ _ Hb) as Hlen. pose proof Hp as [Hp1 Hp2]%path_app.
  set (n := nx (bufs s)) in *. set (p := pv (bufs s)) in *.
  assert (∀ j, j = HEAD ∨ j ∈ o1 ++ i :: o2 → (j < length (bufs s))%nat) as Hlt.
  { intros j [->|Hj%Hin]; lia. }
  pose proof (path_last _ _ _ _ _ Hp1) as Hl1. pose proof (path_first _ _ _ _ _ Hp2) as Hf2.
  assert (n i ≠ i) as Hni.
  { intros E. rewrite E in Hf2. apply NoDup_cons in Hnd as [_ Hnd].
    apply NoDup_app in Hnd as (_&_&[? _]%NoDup_cons). destruct Hf2 as [->|]; [lia|done]. }
  pose proof (path_unlink _ _ _ _ _ _ _ Hp1 Hp2 Hnd Hnh) as Hun.
  assert (NoDup (HEAD :: o1 ++ o2) ∧ (i ∉ HEAD :: o1 ++ o2)) as [Hnd' Hi'].
  { rewrite !NoDup_cons, !NoDup_app, !elem_of_app, !NoDup_cons, !elem_of_cons in *. set_solver. }
  pose proof (path_first _ _ _ _ _ Hun) as Hff.
  assert (∀ j, j = HEAD ∨ j ∈ o1 ++ o2 → (j < length (bufs s))%nat) as Hlt'.
  { intros j Hj. apply Hlt. rewrite elem_of_app, elem_of_cons in *. tauto. }
  pose proof (path_link _ _ _ _ _ Hun Hnd' Hi') as Hnew.
  assert (n i < length (bufs s))%nat by (apply Hlt; rewrite elem_of_app, elem_of_cons; tauto).
  assert (p i < length (bufs s))%nat by (apply Hlt; rewrite elem_of_app, elem_of_cons; tauto).
  bstep. eapply wp_set_prev; [apply relinked_refl|done|]. intros s1 R1.
  bstep. eapply wp_get_links; [done|lia|]. intros b1 -> ->.
  rewrite fupd_ne by done. bstep. eapply wp_set_next; [done|done|]. intros s2 R2.
  unfold link_first. bstep. eapply wp_get_links; [done|lia|]. intros h -> _.
  bstep. eapply wp_set_next; [done|lia|]. intros s3 R3.
  bstep. eapply wp_set_prev; [done|lia|]. intros s4 R4.
  bstep. eapply wp_get_links; [done|lia|]. intros h' -> _. rewrite fupd_ne by lia.
  bstep. eapply wp_set_prev; [done|by apply Hlt'|]. intros s5 R5.
  eapply wp_set_next; [done|lia|]. intros s6 R6.
  split_and!; [|apply (rl_disk _ _ _ _ R6)|apply (rl_me _ _ _ _ R6)].
  eapply (brep_relinked s s6 v pin hold _ _ (i :: o1 ++ o2)); [done|done| |done].
  rewrite <-Ho. by rewrite Permutation_middle.
Qed.

(** [brelse] gives up a buffer that is on disk or pinned. *)
Lemma brelse_wp s v pin hold i n :
  brep s v pin hold → hold !! i = Some (n, b_me s) →
  n ∈ pin ∨ v n = blocks (the_disk s) n →
  wp (brelse i) (λ _ s', brep s' v pin (delete i hold) ∧
    the_disk s' = the_disk s ∧ b_me s' = b_me s) s.
Proof.
  intros Hb Hi Hclean. pose proof (br_len _ _ _ _ Hb).
  destruct (held_facts _ _ _ _ _ _ _ Hb Hi) as (Hlt&Hd&Hn&Hr&Hl&Hrng&Hdata&Hf).
  unfold brelse. repeat bstep. rewrite Hl. unfold holdingsleep at 1. cbn [locked lk_pid Z.eqb negb].
  rewrite Z.eqb_refl. cbn [andb negb]. repeat bstep. cbn [bufs on_bufs].
  rewrite !bat_insert_eq by blen. cbn [refcnt set_lock set_refcnt]. rewrite Hr.
  apply wp_when; [intros _|done].
  set (s1 := on_bufs _ _).
  assert (brep s1 v pin (delete i hold)) as Hb1.
  { eapply (brep_put s s1 v pin hold i
      (set_refcnt 0 (set_lock (SleepLock 0 0) (bat (bufs s) i)))); try done.
    - unfold s1. cbn [bufs on_bufs]. by rewrite list_insert_insert_eq, Hl.
    - unfold buf_ok. rewrite lookup_delete_eq. split; [done|]. right.
      cbn [dev blockno data flags set_refcnt set_lock]. by rewrite Hn.
    - intros j Hj Hne. eapply buf_ok_ext; [|done|done|by apply (br_ok _ _ _ _ Hb)].
      by apply lookup_delete_ne.
    - intros j Hj Hne _ Hdj. cbn. rewrite Hn. by eapply held_other.
    - intros m (j&?&?&?)%(br_pin _ _ _ _ Hb).
      destruct (decide (j = i)) as [->|]; [by left|right; eauto 6].
    - intros j x [_ ?]%lookup_delete_Some. by eapply br_hold.
    - intros m Hm Hx. destruct (decide (m = n)) as [->|Hmn]; [by destruct Hclean|].
      apply (br_disk _ _ _ _ Hb); [done|]. intros j pid Hj. apply (Hx j pid).
      rewrite lookup_delete_ne; [done|]. congruence. }
  eapply (move_to_front s1 v pin (delete i hold) i); [done|done|..];
    unfold nx, pv, s1; cbn [bufs on_bufs]; by rewrite !bat_insert_eq by blen.
Qed.

(** ** The cache as a whole *)

(** [bcache] before [binit]: zeroed memory ([z] is a zeroed block). *)
Definition bcache0 (z : list Z) : list buf := replicate (S HEAD) (Buf 0 0 0 initsleeplock 0 0 0 z).
Definition zeros : list Z := replicate (Z.to_nat BSIZE) 0.

(** What [binit] leaves: buffer [i] between [i + 1] and [i - 1]. *)
Definition binit_bufs (z : list Z) : list buf :=
  (λ i, Buf 0 0 0 initsleeplock 0 (if (i =? 29)%nat then 30 else S i)
          (if (i =? 0)%nat then 30 else pred i) z) <$> seq 0 HEAD.

Lemma binit_eq z d me :
  binit (Bst (bcache0 z) d me) = Ok tt (Bst (binit_bufs z ++ [Buf 0 0 0 initsleeplock 0 0 29 z]) d me).
Proof. by vm_compute. Qed.

Lemma binit_wp z d me :
  wp binit (λ _ s, brep s (blocks d) [] ∅ ∧ the_disk s = d ∧ b_me s = me) (Bst (bcache0 z) d me).
Proof.
  eapply wp_intro; [apply binit_eq|]. split; [|done].
  assert (∀ i, (i < HEAD)%nat → bat (binit_bufs z ++ [Buf 0 0 0 initsleeplock 0 0 29 z]) i =
    Buf 0 0 0 initsleeplock 0 (if (i =? 29)%nat then 30 else S i)
          (if (i =? 0)%nat then 30 else pred i) z) as Hbat.
  { intros i Hi. unfold bat, binit_bufs. rewrite lookup_app_l by (by rewrite length_fmap, length_seq).
    rewrite list_lookup_fmap, lookup_seq_lt by done. done. }
  split; cbn [bufs the_disk].
  - done.
  - exists (rev (seq 0 HEAD)). split; [by rewrite <-Permutation_rev|].
    vm_compute. repeat split.
  - intros i Hi. rewrite Hbat by done. unfold buf_ok. rewrite lookup_empty. split; [done|by left].
  - intros i j Hi _. by rewrite Hbat by done.
  - intros n Hn. by apply not_elem_of_nil in Hn.
  - intros i x. by rewrite lookup_empty.
  - done.
Qed.

(** What users of the cache may do, and what it means. *)
Inductive bop := ORead (n : Z) | OData (i : nat) | OStore (i : nat) (d : list Z) | OPin (i : nat)
  | OWrite (i : nat) | ORelse (i : nat).
Inductive bres := RBuf (i : nat) | RData (d : list Z) | RNone.

Definition exec (o : bop) : M bst bres :=
  match o with
  | ORead n => i ← bread 1 n; mret (RBuf i)
  | OData i => d ← buf_data i; mret (RData d)
  | OStore i d => buf_store i d;; mret RNone
  | OPin i => buf_pin i;; mret RNone
  | OWrite i => bwrite i;; mret RNone
  | ORelse i => brelse i;; mret RNone
  end.

Record acache := ACache {
  a_view : view; a_pin : list Z; a_hold : holds; a_disk : disk; a_me : Z;
}.

(** The abstract machine: reading yields the current contents of the block,
    whatever was evicted in between; only [OStore] changes contents, and only
    [OWrite] the disk. *)
Inductive astep (a : acache) : bop → bres → acache → Prop :=
| A_read n i :
    a_hold a !! i = None →
    astep a (ORead n) (RBuf i)
      (ACache (a_view a) (a_pin a) (<[i := (n, a_me a)]> (a_hold a)) (a_disk a) (a_me a))
| A_data i n pid :
    a_hold a !! i = Some (n, pid) → astep a (OData i) (RData (a_view a n)) a
| A_store i n pid d :
    a_hold a !! i = Some (n, pid) →
    astep a (OStore i d) RNone
      (ACache (upd (a_view a) n d) (a_pin a) (a_hold a) (a_disk a) (a_me a))
| A_pin i n pid :
    a_hold a !! i = Some (n, pid) →
    astep a (OPin i) RNone
      (ACache (a_view a) (if decide (n ∈ a_pin a) then a_pin a else n :: a_pin a)
         (a_hold a) (a_disk a) (a_me a))
| A_write i n :
    a_hold a !! i = Some (n, a_me a) →
    astep a (OWrite i) RNone
      (ACache (a_view a) (filter (λ m, m ≠ n) (a_pin a)) (a_hold a)
         (Disk (upd (blocks (a_disk a)) n (a_view a n)) (disksize (a_disk a))
            ((n, a_view a n) :: writes (a_disk a))) (a_me a))
| A_relse i n :
    a_hold a !! i = Some (n, a_me a) →
    astep a (ORelse i) RNone
      (ACache (a_view a) (a_pin a) (delete i (a_hold a)) (a_disk a) (a_me a)).

Definition enabled (a : acache) (o : bop) : Prop :=
  match o with
  | ORead n => 0 ≤ n < disksize (a_disk a) ∧ (∀ i pid, a_hold a !! i ≠ Some (n, pid)) ∧
      (n ∈ a_pin a ∨ (length (a_pin a) + size (a_hold a) < HEAD)%nat)
  | OData i | OStore i _ | OPin i => is_Some (a_hold a !! i)
  | OWrite i => ∃ n, a_hold a !! i = Some (n, a_me a)
  | ORelse i => ∃ n, a_hold a !! i = Some (n, a_me a) ∧
      (n ∈ a_pin a ∨ a_view a n = blocks (a_disk a) n)
  end.

Definition cache_of (s : bst) (a : acache) : Prop :=
  brep s (a_view a) (a_pin a) (a_hold a) ∧ the_disk s = a_disk a ∧ b_me s = a_me a.

(** C5. The buffer cache implements blocks: every enabled operation returns
    without panicking or waiting, its result and its effect are those of the
    abstract machine, and the cache remains well formed (the list is linked
    both ways through all buffers, no block is cached twice, reference counts
    and locks agree with the buffers in use).  A block is readable as long as
    nobody uses it and it is pinned or fewer than [NBUF] blocks are pinned or in
    use. *)
Theorem bcache_refines s a o :
  cache_of s a → enabled a o →
  wp (exec o) (λ r s', ∃ a', astep a o r a' ∧ cache_of s' a') s.
Proof.
  destruct a as [v pin hold d me]. unfold cache_of. cbn [a_view a_pin a_hold a_disk a_me].
  intros (Hb&<-&<-) He.
  destruct o as [n|i|i d'|i|i|i]; cbn in He; unfold exec; apply wp_bind.
  - destruct He as (Hn&Hh&Hr). eapply wp_mono; [by apply bread_wp|].
    intros i s' (?&?&?&?&?). apply wp_ret. eexists. by split; [apply A_read|].
  - destruct He as [[n pid] Hi]. eapply wp_mono; [by eapply buf_data_wp|].
    intros x s' [-> ->]. apply wp_ret. eexists. by split; [eapply A_data|].
  - destruct He as [[n pid] Hi]. eapply wp_mono; [by eapply buf_store_wp|].
    intros x s' ?. apply wp_ret. eexists. by split; [eapply A_store|].
  - destruct He as [[n pid] Hi]. eapply wp_mono; [by eapply buf_pin_wp|].
    intros x s' ?. apply wp_ret. eexists. by split; [eapply A_pin|].
  - destruct He as [n Hi]. eapply wp_mono; [by eapply bwrite_wp|].
    intros x s' ?. apply wp_ret. eexists. by split; [eapply A_write|].
  - destruct He as (n&Hi&Hc). eapply wp_mono; [by eapply brelse_wp|].
    intros x s' ?. apply wp_ret. eexists. by split; [eapply A_relse|].
Qed.

Definition demo_disk : disk := Disk (λ n, replicate 512 n) 10 [].
Lemma bcache_refines_witness :
  ∃ s, binit (Bst (bcache0 zeros) demo_disk 7) = Ok tt s ∧
    wp (exec (ORead 3)) (λ r s', ∃ a', astep (ACache (blocks demo_disk) [] ∅ demo_disk 7)
      (ORead 3) r a' ∧ cache_of s' a') s.
Proof.
  destruct (wp_elim _ _ _ (binit_wp zeros demo_disk 7)) as ([]&s&E&Hb&Hd&Hm).
  exists s. split; [exact E|].
  apply (bcache_refines s (ACache (blocks demo_disk) [] ∅ demo_disk 7) (ORead 3)).
  - split_and!; [exact Hb|exact Hd|exact Hm].
  - cbn. split_and!; [done|done|done|right; unfold HEAD; vm_compute; lia].
Defined.
