(* ===== verification/Log.v ===== *)
(** * The log: [log.c], and [readsb] of [fs.c]

    A transaction's blocks are pinned in the buffer cache until [commit]
    copies them to the log area, writes the header block (the commit point),
    installs them at their home locations and clears the header.  The state
    is the buffer cache with the fields of [struct log].

    Sleeps (a commit in progress, a log that is too full) end in [Blocked].
    A crash can happen between any two disk writes; [writes] of the disk
    records them, so the disks a crash can leave are the prefixes of the
    writes of a run. *)

From S2P Require Import Prelude Params Blocks Sleeplock Bio.

Record superblock := Superblock {
  sb_size : Z; nblocks : Z; ninodes : Z; nlog : Z; logstart : Z; inodestart : Z; bmapstart : Z;
}.

Record lst := Lst {
  l_bio : bst;
  l_start : Z;
  l_size : Z;
  outstanding : Z;
  committing : Z;
  l_dev : Z;
  lh_n : Z;
  lh_block : list Z;
}.

Definition on_bio (f : bst → bst) (s : lst) : lst :=
  Lst (f (l_bio s)) (l_start s) (l_size s) (outstanding s) (committing s) (l_dev s) (lh_n s) (lh_block s).
Definition set_geom (st sz d : Z) (s : lst) : lst :=
  Lst (l_bio s) st sz (outstanding s) (committing s) d (lh_n s) (lh_block s).
Definition set_outstanding (v : Z) (s : lst) : lst :=
  Lst (l_bio s) (l_start s) (l_size s) v (committing s) (l_dev s) (lh_n s) (lh_block s).
Definition set_committing (v : Z) (s : lst) : lst :=
  Lst (l_bio s) (l_start s) (l_size s) (outstanding s) v (l_dev s) (lh_n s) (lh_block s).
Definition set_n (v : Z) (s : lst) : lst :=
  Lst (l_bio s) (l_start s) (l_size s) (outstanding s) (committing s) (l_dev s) v (lh_block s).
Definition set_block (f : list Z → list Z) (s : lst) : lst :=
  Lst (l_bio s) (l_start s) (l_size s) (outstanding s) (committing s) (l_dev s) (lh_n s) (f (lh_block s)).

Definition bio {A} (m : M bst A) : M lst A := λ s,
  match m (l_bio s) with
  | Ok a b => Ok a (on_bio (λ _, b) s)
  | Fail f => Fail f
  end.

(** [log.lh.block[i]], read and written. *)
Definition block_get (i : nat) : M lst Z := λ s,
  match lh_block s !! i with Some b => Ok b s | None => Fail (Undef "lh.block index") end.
Definition block_put (i : nat) (v : Z) : M lst unit := λ s,
  match lh_block s !! i with
  | Some _ => Ok tt (set_block (<[i := v]>) s)
  | None => Fail (Undef "lh.block index")
  end.

(** [memmove(sb, bp->data, sizeof( *sb))] *)
Definition decode_sb (d : list Z) : superblock :=
  Superblock (get32 d 0) (get32 d 4) (get32 d 8) (get32 d 12) (get32 d 16) (get32 d 20) (get32 d 24).
Definition readsb (dev : Z) : M bst superblock :=
  bp ← bread dev 1;
  d ← buf_data bp;
  brelse bp;;
  mret (decode_sb d).

(** [n] iterations of [install_trans], from [tail] on. *)
Fixpoint install_loop (n tail : nat) : M lst unit :=
  match n with
  | O => mret tt
  | S n' =>
      dev ← gets l_dev;
      start ← gets l_start;
      lbuf ← bio (bread dev (u32 (start +i Z.of_nat tail +i 1)));
      blk ← block_get tail;
      dbuf ← bio (bread dev (u32 blk));
      d ← bio (buf_data lbuf);
      bio (buf_store dbuf d);;
      bio (bwrite dbuf);;
      bio (brelse lbuf);;
      bio (brelse dbuf);;
      install_loop n' (S tail)
  end.
Definition install_trans : M lst unit :=
  n ← gets lh_n;
  install_loop (Z.to_nat n) 0.

(** The fields of [struct logheader] in a block. *)
Definition hdr_n (d : list Z) : Z := s32 (get32 d 0).
Definition hdr_block (d : list Z) (i : nat) : Z := s32 (get32 d (4 + 4 * Z.of_nat i)).

Fixpoint read_head_loop (d : list Z) (n i : nat) : M lst unit :=
  match n with
  | O => mret tt
  | S n' => block_put i (hdr_block d i);; read_head_loop d n' (S i)
  end.
Definition read_head : M lst unit :=
  dev ← gets l_dev;
  start ← gets l_start;
  buf ← bio (bread dev (u32 start));
  d ← bio (buf_data buf);
  modify (set_n (hdr_n d));;
  read_head_loop d (Z.to_nat (hdr_n d)) 0;;
  bio (brelse buf).

Fixpoint write_head_loop (buf : nat) (n i : nat) : M lst unit :=
  match n with
  | O => mret tt
  | S n' =>
      blk ← block_get i;
      d ← bio (buf_data buf);
      bio (buf_store buf (put32 d (4 + 4 * Z.of_nat i) blk));;
      write_head_loop buf n' (S i)
  end.
Definition write_head : M lst unit :=
  dev ← gets l_dev;
  start ← gets l_start;
  buf ← bio (bread dev (u32 start));
  n ← gets lh_n;
  d ← bio (buf_data buf);
  bio (buf_store buf (put32 d 0 n));;
  write_head_loop buf (Z.to_nat n) 0;;
  bio (bwrite buf);;
  bio (brelse buf).

Definition recover_from_log : M lst unit :=
  read_head;;
  install_trans;;
  modify (set_n 0);;
  write_head.

Definition initlog (dev : Z) : M lst unit :=
  sb ← bio (readsb dev);
  modify (set_geom (s32 (logstart sb)) (s32 (nlog sb)) dev);;
  recover_from_log.

(** One pass of [begin_op]'s loop; it sleeps when a commit is in progress or
    this operation might exhaust the log. *)
Definition begin_op : M lst unit :=
  c ← gets committing;
  n ← gets lh_n;
  o ← gets outstanding;
  if negb (c =? 0) then fail (Blocked "log")
  else if LOGSIZE <? n +i (o +i 1) *i MAXOPBLOCKS then fail (Blocked "log")
  else modify (set_outstanding (o +i 1)).

Fixpoint write_log_loop (n tail : nat) : M lst unit :=
  match n with
  | O => mret tt
  | S n' =>
      dev ← gets l_dev;
      start ← gets l_start;
      to ← bio (bread dev (u32 (start +i Z.of_nat tail +i 1)));
      blk ← block_get tail;
      from ← bio (bread dev (u32 blk));
      d ← bio (buf_data from);
      bio (buf_store to d);;
      bio (bwrite to);;
      bio (brelse from);;
      bio (brelse to);;
      write_log_loop n' (S tail)
  end.
Definition write_log : M lst unit :=
  n ← gets lh_n;
  write_log_loop (Z.to_nat n) 0.

Definition commit : M lst unit :=
  n ← gets lh_n;
  when (0 <? n)
    (write_log;;
     write_head;;
     install_trans;;
     modify (set_n 0);;
     write_head).

Definition end_op : M lst unit :=
  o ← gets outstanding;
  modify (set_outstanding (o -i 1));;
  c ← gets committing;
  if negb (c =? 0) then panic "log.committing"
  else if o -i 1 =? 0 then
    modify (set_committing 1);;
    commit;;
    modify (set_committing 0)
  else mret tt.

(** The search of [log_write]: the first position from [i] on that holds
    [blk], or [lh.n]. *)
Fixpoint log_find (blk : Z) (n i : nat) : M lst nat :=
  match n with
  | O => mret i
  | S n' =>
      b ← block_get i;
      if u32 b =? blk then mret i else log_find blk n' (S i)
  end.
Definition log_write (b : nat) : M lst unit :=
  n ← gets lh_n;
  size ← gets l_size;
  o ← gets outstanding;
  if (LOGSIZE <=? n) || (size -i 1 <=? n) then panic "too big a transaction"
  else if o <? 1 then panic "log_write outside of trans"
  else
    bb ← bio (buf_get b);
    i ← log_find (blockno bb) (Z.to_nat n) 0;
    block_put i (s32 (blockno bb));;
    when (Z.of_nat i =? n) (modify (set_n (n +i 1)));;
    bio (buf_pin b).
