(* ===== verification/LogThms.v ===== *)
(** * Correctness of the log

    The loops of [commit] and of recovery as sequences of disk writes, then
    the atomicity of transactions: whenever the machine stops, and however
    often recovery itself is interrupted, the disk ends up with all of a
    transaction or with none of it. *)

From S2P Require Import Prelude Params Blocks Sleeplock Bio Log.

(** ** Sequences of writes *)

Definition dwrite (d : disk) (w : Z * list Z) : disk :=
  Disk (upd (blocks d) w.1 w.2) (disksize d) (w :: writes d).
Definition dwrites (d : disk) (ws : list (Z * list Z)) : disk := foldl dwrite d ws.
Definition vwrites (v : view) (ws : list (Z * list Z)) : view := foldl (λ v w, upd v w.1 w.2) v ws.

Lemma fupd_at {A} (f : Z → A) k x : upd f k x k = x.
Proof. unfold upd. by rewrite Z.eqb_refl. Qed.
Lemma fupd_off {A} (f : Z → A) k x y : y ≠ k → upd f k x y = f y.
Proof. unfold upd. intros. by destruct (Z.eqb_spec y k). Qed.

Lemma vwrites_ne v ws n : n ∉ ws.*1 → vwrites v ws n = v n.
Proof.
  revert v. induction ws as [|w ws IH]; intros v Hn; [done|]. simpl in Hn.
  rewrite not_elem_of_cons in Hn. change (vwrites (upd v w.1 w.2) ws n = v n).
  destruct Hn as [Hn Hn2]. rewrite IH by done. by apply fupd_off.
Qed.
Lemma vwrites_app v ws1 ws2 : vwrites v (ws1 ++ ws2) = vwrites (vwrites v ws1) ws2.
Proof. apply foldl_app. Qed.
Lemma blocks_dwrites d ws : blocks (dwrites d ws) = vwrites (blocks d) ws.
Proof. revert d. induction ws as [|w ws IH]; intros d; [done|]. apply (IH (dwrite d w)). Qed.
Lemma disksize_dwrites d ws : disksize (dwrites d ws) = disksize d.
Proof. revert d. induction ws as [|w ws IH]; intros d; [done|]. apply (IH (dwrite d w)). Qed.
Lemma dwrites_app d ws1 ws2 : dwrites d (ws1 ++ ws2) = dwrites (dwrites d ws1) ws2.
Proof. apply foldl_app. Qed.

(** A location written several times, always with the same contents. *)
Lemma vwrites_const v ws n x :
  n ∈ ws.*1 → (∀ w, w ∈ ws → w.1 = n → w.2 = x) → vwrites v ws n = x.
Proof.
  revert v. induction ws as [|w ws IH] using rev_ind; intros v Hn Hx; [by apply not_elem_of_nil in Hn|].
  rewrite vwrites_app. simpl. destruct (decide (n = w.1)) as [->|Hne].
  - rewrite fupd_at. apply Hx; [|done]. apply elem_of_app. right. by left.
  - rewrite fupd_off by done. apply IH.
    + rewrite fmap_app, elem_of_app in Hn. destruct Hn as [?|Hn]; [done|].
      apply list_elem_of_singleton in Hn. done.
    + intros w' Hw'. apply Hx. apply elem_of_app. by left.
Qed.

(** ** Running the cache from the log *)

Lemma wp_bio {A} (m : M bst A) (Q : A → lst → Prop) s :
  wp m (λ a b, Q a (on_bio (λ _, b) s)) (l_bio s) → wp (bio m) Q s.
Proof. unfold wp, bio. by destruct (m (l_bio s)). Qed.

(** The next buffer operation. *)
Ltac lstep := apply wp_bind, wp_bio; cbn [l_bio on_bio].

Lemma wp_block_get i (Q : Z → lst → Prop) s b :
  lh_block s !! i = Some b → Q b s → wp (block_get i) Q s.
Proof. unfold wp, block_get. by intros ->. Qed.

(** The state of the log in a run of [commit] or of recovery: the cache stands
    for [v], with [pin] pinned and nothing in use; only the cache and the disk
    have changed since [s0], by the writes [ws]. *)
Record during (s0 s : lst) (v : view) (pin : list Z) (ws : list (Z * list Z)) : Prop := {
  du_bio : brep (l_bio s) v pin ∅;
  du_disk : the_disk (l_bio s) = dwrites (the_disk (l_bio s0)) ws;
  du_me : b_me (l_bio s) = b_me (l_bio s0);
  du_rest : s = on_bio (λ _, l_bio s) s0;
}.

Lemma on_bio_twice f g s : on_bio f (on_bio g s) = on_bio (λ b, f (g b)) s.
Proof. done. Qed.

Lemma not_held_insert (i : nat) (a b : Z) pid j q :
  a ≠ b → <[i := (a, pid)]> (∅ : holds) !! j ≠ Some (b, q).
Proof.
  intros Hab [[_ E]|[_ E]]%lookup_insert_Some; [congruence|by rewrite lookup_empty in E].
Qed.

(** The two buffers of an iteration of [write_log_loop] or [install_loop]. *)
Definition two (i j : nat) (a b pid : Z) : holds := <[j := (b, pid)]> (<[i := (a, pid)]> ∅).

Lemma two_snd i j a b pid : two i j a b pid !! j = Some (b, pid).
Proof. apply lookup_insert_eq. Qed.
Lemma two_fst i j a b pid : i ≠ j → two i j a b pid !! i = Some (a, pid).
Proof. intros. unfold two. rewrite lookup_insert_ne by done. apply lookup_insert_eq. Qed.
Lemma delete_two_snd i j a b pid : i ≠ j → delete j (two i j a b pid) = <[i := (a, pid)]> ∅.
Proof.
  intros. apply delete_insert_id. rewrite lookup_insert_ne by done. apply lookup_empty.
Qed.
Lemma delete_two_fst i j a b pid : i ≠ j → delete i (two i j a b pid) = <[j := (b, pid)]> ∅.
Proof.
  intros. unfold two. rewrite delete_insert_ne by done.
  by rewrite delete_insert_id by apply lookup_empty.
Qed.
Lemma delete_one (i : nat) (x : Z * Z) : delete i (<[i := x]> (∅ : holds)) = ∅.
Proof. apply delete_insert_id, lookup_empty. Qed.

Section copy.
Context (s0 s : lst) (v : view) (pin : list Z) (ws : list (Z * list Z)).
Context (Hd : during s0 s v pin ws).
Context (t : nat) (a b : Z) (Hab : a ≠ b) (Hap : a ∉ pin) (Hblk : lh_block s0 !! t = Some b).
Context (Ha : 0 ≤ a < disksize (the_disk (l_bio s0))) (Hb : 0 ≤ b < disksize (the_disk (l_bio s0))).
Context (Hbu : u32 b = b) (Hroom : (length pin < HEAD)%nat) (Hbp : b ∈ pin ∨ (S (length pin) < HEAD)%nat).

Lemma bread_two {A} (k : nat → nat → M lst A) (Q : A → lst → Prop) :
  (∀ i j c, i ≠ j → brep c v pin (two i j a b (b_me (l_bio s))) →
     the_disk c = the_disk (l_bio s) → b_me c = b_me (l_bio s) →
     wp (k i j) Q (on_bio (λ _, c) s)) →
  wp (x ← bio (bread 1 a); blk ← block_get t; y ← bio (bread 1 (u32 blk)); k x y) Q s.
Proof.
  intros HQ. destruct Hd as [Hrep Hdisk Hme Hrest].
  pose proof (disksize_dwrites (the_disk (l_bio s0)) ws) as Hsz. rewrite <-Hdisk in Hsz.
  lstep. eapply wp_mono; [apply bread_wp; [done|by rewrite Hsz| |]|].
  { intros. by rewrite lookup_empty. }
  { right. by rewrite map_size_empty, Nat.add_0_r. }
  intros i b1 (_&Hb1&Ed1&Em1&_). apply wp_bind, (wp_block_get _ _ _ b).
  { rewrite Hrest. exact Hblk. }
  rewrite Hbu. lstep. eapply wp_mono; [apply bread_wp; [done|by rewrite Ed1, Hsz| |]|].
  { intros. by apply not_held_insert. }
  { destruct Hbp as [?|?]; [by left|right]. rewrite map_size_insert_None by apply lookup_empty.
    rewrite map_size_empty. lia. }
  intros j b2 (Hj&Hb2&Ed2&Em2&_). rewrite Em1 in *.
  apply HQ; [|done|congruence|congruence].
  intros ->. by rewrite lookup_insert_eq in Hj.
Qed.

Lemma copy_to_log {A} (k : M lst A) (Q : A → lst → Prop) :
  b ∈ pin →
  (∀ s', during s0 s' (upd v a (v b)) pin (ws ++ [(a, v b)]) → wp k Q s') →
  wp (to ← bio (bread 1 a); blk ← block_get t; from ← bio (bread 1 (u32 blk)); d ← bio (buf_data from);
      bio (buf_store to d);; bio (bwrite to);; bio (brelse from);; bio (brelse to);; k) Q s.
Proof.
  intros Hbp' HQ. apply bread_two. intros i j b2 Hij Hb2 Ed2 Em2.
  destruct Hd as [Hrep Hdisk Hme Hrest].
  lstep. eapply wp_mono; [eapply buf_data_wp; [done|apply two_snd]|]. intros d b3 [-> ->].
  lstep. eapply wp_mono; [eapply buf_store_wp; [done|by apply two_fst]|]. intros [] b4 (Hb4&Ed4&Em4).
  lstep. eapply wp_mono; [eapply bwrite_wp; [done|by rewrite Em4, Em2, two_fst]|].
  intros [] b5 (Hb5&Ed5&Em5). rewrite filter_ne_id in Hb5 by done. rewrite fupd_at in Ed5.
  lstep. eapply wp_mono; [eapply brelse_wp; [done|by rewrite Em5, Em4, Em2, two_snd|by left]|].
  intros [] b6 (Hb6&Ed6&Em6). rewrite delete_two_snd in Hb6 by done.
  lstep. eapply wp_mono; [eapply brelse_wp; [done| |right]|].
  { rewrite Em6, Em5, Em4, Em2. apply lookup_insert_eq. }
  { rewrite Ed6, Ed5. cbn [blocks]. by rewrite !fupd_at. }
  intros [] b7 (Hb7&Ed7&Em7). rewrite delete_one in Hb7. apply HQ. split; cbn [l_bio on_bio].
  - done.
  - rewrite Ed7, Ed6, Ed5, Ed4, Ed2, dwrites_app, <-Hdisk. done.
  - congruence.
  - by rewrite Hrest.
Qed.

Lemma copy_home {A} (k : M lst A) (Q : A → lst → Prop) :
  (∀ s', during s0 s' (upd v b (v a)) (filter (λ m, m ≠ b) pin) (ws ++ [(b, v a)]) → wp k Q s') →
  wp (lbuf ← bio (bread 1 a); blk ← block_get t; dbuf ← bio (bread 1 (u32 blk)); d ← bio (buf_data lbuf);
      bio (buf_store dbuf d);; bio (bwrite dbuf);; bio (brelse lbuf);; bio (brelse dbuf);; k) Q s.
Proof.
  intros HQ. apply bread_two. intros i j b2 Hij Hb2 Ed2 Em2.
  destruct Hd as [Hrep Hdisk Hme Hrest].
  assert (v a = blocks (the_disk (l_bio s)) a) as Hva.
  { apply (br_disk _ _ _ _ Hrep); [done|]. intros. by rewrite lookup_empty. }
  lstep. eapply wp_mono; [eapply buf_data_wp; [done|by apply two_fst]|]. intros d b3 [-> ->].
  lstep. eapply wp_mono; [eapply buf_store_wp; [done|apply two_snd]|]. intros [] b4 (Hb4&Ed4&Em4).
  lstep. eapply wp_mono; [eapply bwrite_wp; [done|by rewrite Em4, Em2, two_snd]|].
  intros [] b5 (Hb5&Ed5&Em5). rewrite fupd_at in Ed5.
  lstep. eapply wp_mono; [eapply brelse_wp; [done|by rewrite Em5, Em4, Em2, two_fst|right]|].
  { rewrite Ed5. cbn [blocks]. rewrite !fupd_off by done. congruence. }
  intros [] b6 (Hb6&Ed6&Em6). rewrite delete_two_fst in Hb6 by done.
  lstep. eapply wp_mono; [eapply brelse_wp; [done| |right]|].
  { rewrite Em6, Em5, Em4, Em2. apply lookup_insert_eq. }
  { rewrite Ed6, Ed5. cbn [blocks]. by rewrite !fupd_at. }
  intros [] b7 (Hb7&Ed7&Em7). rewrite delete_one in Hb7. apply HQ. split; cbn [l_bio on_bio].
  - done.
  - rewrite Ed7, Ed6, Ed5, Ed4, Ed2, dwrites_app, <-Hdisk. done.
  - congruence.
  - by rewrite Hrest.
Qed.
End copy.

(** ** The loops of [commit] and recovery *)

Definition blk (s : lst) (i : nat) : Z := nth i (lh_block s) 0.
Definition in_log (s : lst) (n : Z) : Prop := l_start s ≤ n < l_start s + l_size s.

(** The log area lies on the disk, apart from the superblock's geometry
    nothing is assumed of it. *)
Record geom (s : lst) : Prop := {
  ge_dev : l_dev s = 1;
  ge_start : 0 ≤ l_start s;
  ge_end : l_start s + l_size s ≤ disksize (the_disk (l_bio s)) < 2147483648;
  ge_size : 0 < l_size s ≤ LOGSIZE;
  ge_blocks : length (lh_block s) = Z.to_nat LOGSIZE;
}.

(** The first [n] logged blocks are outside the log area. *)
Definition logged_ok (s : lst) (n : nat) : Prop :=
  ∀ i, (i < n)%nat → 0 ≤ blk s i < disksize (the_disk (l_bio s)) ∧ ¬ in_log s (blk s i).

Definition log_writes (s0 : lst) (v : view) (t m : nat) : list (Z * list Z) :=
  (λ i, (l_start s0 + Z.of_nat i + 1, v (blk s0 i))) <$> seq t m.
Definition home_writes (s0 : lst) (v : view) (t m : nat) : list (Z * list Z) :=
  (λ i, (blk s0 i, v (l_start s0 + Z.of_nat i + 1))) <$> seq t m.

Lemma during_geom s0 s v pin ws :
  during s0 s v pin ws → l_dev s = l_dev s0 ∧ l_start s = l_start s0.
Proof. intros Hd. by rewrite (du_rest _ _ _ _ _ Hd). Qed.

Section loops.
Context (s0 : lst) (n : nat) (Hg : geom s0) (Hok : logged_ok s0 n).
Context (Hn : Z.of_nat n < l_size s0).

Lemma log_addr i :
  (i < n)%nat → l_start s0 +i Z.of_nat i +i 1 = l_start s0 + Z.of_nat i + 1 ∧
  0 ≤ l_start s0 + Z.of_nat i + 1 < disksize (the_disk (l_bio s0)) ∧
  in_log s0 (l_start s0 + Z.of_nat i + 1).
Proof.
  intros Hi. destruct Hg as [_ H1 H2 H3 _]. unfold in_log.
  rewrite (s32_id (l_start s0 + Z.of_nat i)), s32_id by (unfold is_i32; lia). lia.
Qed.
Lemma log_addr_u32 i : (i < n)%nat → u32 (l_start s0 +i Z.of_nat i +i 1) = l_start s0 + Z.of_nat i + 1.
Proof.
  intros Hi. destruct (log_addr i Hi) as (->&Ha&_). pose proof (ge_end _ Hg). apply u32_id. unfold is_u32. lia.
Qed.
Lemma blk_u32 i : (i < n)%nat → u32 (blk s0 i) = blk s0 i.
Proof. intros Hi. destruct (Hok i Hi) as [Hb _]. pose proof (ge_end _ Hg). apply u32_id. unfold is_u32. lia. Qed.
Lemma blk_lookup i : (i < n)%nat → lh_block s0 !! i = Some (blk s0 i).
Proof.
  intros Hi. destruct Hg as [_ _ _ H3 H4]. unfold blk. rewrite nth_lookup.
  destruct (lh_block s0 !! i) eqn:E; [done|]. apply lookup_ge_None in E. lia.
Qed.
Lemma log_ne i j : (i < n)%nat → (j < n)%nat → blk s0 j ≠ l_start s0 + Z.of_nat i + 1.
Proof.
  intros Hi Hj E. destruct (log_addr i Hi) as (_&_&Hl). destruct (Hok j Hj) as [_ Hnl].
  by rewrite E in Hnl.
Qed.

Lemma log_writes_ext v v' t m :
  (t + m ≤ n)%nat → (∀ i, (i < n)%nat → v' (blk s0 i) = v (blk s0 i)) →
  log_writes s0 v' t m = log_writes s0 v t m.
Proof.
  intros Ht Hv. apply list_fmap_ext. intros k i Hi.
  apply lookup_seq in Hi as [-> ?]. by rewrite Hv by lia.
Qed.
Lemma home_writes_ext v v' t m :
  (t + m ≤ n)%nat →
  (∀ i, (i < n)%nat → v' (l_start s0 + Z.of_nat i + 1) = v (l_start s0 + Z.of_nat i + 1)) →
  home_writes s0 v' t m = home_writes s0 v t m.
Proof.
  intros Ht Hv. apply list_fmap_ext. intros k i Hi.
  apply lookup_seq in Hi as [-> ?]. by rewrite Hv by lia.
Qed.

Lemma write_log_loop_wp pin m t v ws s :
  (t + m = n)%nat → during s0 s v pin ws → (length pin < HEAD)%nat →
  (∀ i, (i < n)%nat → blk s0 i ∈ pin) → (∀ x, in_log s0 x → x ∉ pin) →
  wp (write_log_loop m t)
    (λ _ s', during s0 s' (vwrites v (log_writes s0 v t m)) pin (ws ++ log_writes s0 v t m)) s.
Proof.
  revert t v ws s. induction m as [|m IH]; intros t v ws s Ht Hd Hroom Hpin Hlog;
    cbn [write_log_loop].
  { apply wp_ret. unfold log_writes. simpl. by rewrite app_nil_r. }
  assert (t < n)%nat as Htn by lia. destruct (log_addr t Htn) as (Ea&Ha&Hin).
  apply wp_bind, wp_gets, wp_bind, wp_gets.
  destruct (during_geom _ _ _ _ _ Hd) as [-> ->]. rewrite (ge_dev _ Hg), log_addr_u32 by done.
  eapply (copy_to_log s0 s v pin ws Hd t _ (blk s0 t)); auto using blk_lookup, blk_u32.
  - intros E. by apply (log_ne t t).
  - by apply Hok.
  - intros s' Hd'. eapply wp_mono; [by apply (IH (S t)); [lia|..]|].
    intros [] s2. rewrite log_writes_ext with (v := v); [|lia|].
    + by rewrite <-app_assoc.
    + intros i Hi. apply fupd_off. by apply log_ne.
Qed.

Lemma install_loop_wp pinf m t v ws s :
  (t + m = n)%nat → during s0 s v (pinf t) ws →
  (∀ i, (i < n)%nat → filter (λ x, x ≠ blk s0 i) (pinf i) = pinf (S i) ∧
     (length (pinf i) < HEAD)%nat ∧
     (blk s0 i ∈ pinf i ∨ (S (length (pinf i)) < HEAD)%nat) ∧
     (∀ x, in_log s0 x → x ∉ pinf i)) →
  wp (install_loop m t)
    (λ _ s', during s0 s' (vwrites v (home_writes s0 v t m)) (pinf n) (ws ++ home_writes s0 v t m)) s.
Proof.
  revert t v ws s. induction m as [|m IH]; intros t v ws s Ht Hd Hp; cbn [install_loop].
  { apply wp_ret. unfold home_writes. simpl. rewrite app_nil_r.
    by replace n with t by lia. }
  assert (t < n)%nat as Htn by lia. destruct (log_addr t Htn) as (Ea&Ha&Hin).
  destruct (Hp t Htn) as (Ef&Hroom&Hbp&Hlog).
  apply wp_bind, wp_gets, wp_bind, wp_gets.
  destruct (during_geom _ _ _ _ _ Hd) as [-> ->]. rewrite (ge_dev _ Hg), log_addr_u32 by done.
  eapply (copy_home s0 s v (pinf t) ws Hd t _ (blk s0 t)); auto using blk_lookup, blk_u32.
  - intros E. by apply (log_ne t t).
  - by apply Hok.
  - intros s' Hd'. rewrite Ef in Hd'. eapply wp_mono; [by apply (IH (S t)); [lia|..]|].
    intros [] s2. rewrite home_writes_ext with (v := v); [|lia|].
    + by rewrite <-app_assoc.
    + intros i Hi. apply fupd_off. intros E. by apply (log_ne i t).
Qed.
End loops.

(** ** The header block *)

Lemma brep_view_ext s v v' pin hold :
  brep s v pin hold → (∀ n, v' n = v n) → brep s v' pin hold.
Proof.
  intros Hb Hv. split; try apply Hb.
  - intros i Hi. eapply buf_ok_ext; [..|by apply (br_ok _ _ _ _ Hb)]; auto.
  - intros n Hn Hh. rewrite Hv. by apply (br_disk _ _ _ _ Hb).
Qed.

Lemma upd_upd {A} (f : Z → A) k x y n : upd f k y n = upd (upd f k x) k y n.
Proof. unfold upd. by destruct (n =? k). Qed.

(** What [write_head_loop] stores. *)
Fixpoint put_blocks (bl : nat → Z) (d : list Z) (n i : nat) : list Z :=
  match n with
  | O => d
  | S n' => put_blocks bl (put32 d (4 + 4 * Z.of_nat i) (bl i)) n' (S i)
  end.
Definition head_data (d : list Z) (s : lst) : list Z :=
  put_blocks (blk s) (put32 d 0 (lh_n s)) (Z.to_nat (lh_n s)) 0.

Section head.
Context (bl : nat → Z).

Lemma put_blocks_length d n i :
  (4 + 4 * (i + n) ≤ length d)%nat → length (put_blocks bl d n i) = length d.
Proof.
  revert d i. induction n as [|n IH]; intros d i Hl; [done|]. simpl.
  rewrite IH; rewrite length_put32; lia.
Qed.
Lemma put_blocks_ne d n i off :
  (4 + 4 * (i + n) ≤ length d)%nat → 0 ≤ off → off + 4 ≤ 4 + 4 * Z.of_nat i →
  get32 (put_blocks bl d n i) off = get32 d off.
Proof.
  revert d i. induction n as [|n IH]; intros d i Hl H0 H1; [done|]. simpl.
  rewrite IH; [|rewrite length_put32; lia|done|lia]. apply get32_put32_ne; lia.
Qed.
Lemma put_blocks_get d n i j :
  (4 + 4 * (i + n) ≤ length d)%nat → (i ≤ j < i + n)%nat →
  get32 (put_blocks bl d n i) (4 + 4 * Z.of_nat j) = u32 (bl j).
Proof.
  revert d i. induction n as [|n IH]; intros d i Hl Hj; [lia|]. simpl.
  destruct (decide (j = i)) as [->|].
  - rewrite put_blocks_ne by (rewrite ?length_put32; lia). apply get32_put32; lia.
  - apply IH; [rewrite length_put32; lia|lia].
Qed.
End head.

Lemma head_data_spec d s :
  length d = Z.to_nat BSIZE → 0 ≤ lh_n s ≤ LOGSIZE →
  (∀ i, (i < Z.to_nat (lh_n s))%nat → is_i32 (blk s i)) →
  length (head_data d s) = Z.to_nat BSIZE ∧ hdr_n (head_data d s) = lh_n s ∧
  (∀ i, (i < Z.to_nat (lh_n s))%nat → hdr_block (head_data d s) i = blk s i).
Proof.
  intros Hd Hn Hb. unfold head_data, LOGSIZE, MAXOPBLOCKS, BSIZE in *. split_and!.
  - rewrite put_blocks_length; rewrite length_put32; lia.
  - unfold hdr_n. rewrite put_blocks_ne by (rewrite ?length_put32; lia).
    rewrite get32_put32 by lia. rewrite s32_u32, s32_id; [done|]. unfold is_i32. lia.
  - intros i Hi. unfold hdr_block. rewrite put_blocks_get by (rewrite ?length_put32; lia).
    rewrite s32_u32. by apply s32_id, Hb.
Qed.

Lemma write_head_loop_wp n i s v pin hold st pid b d :
  brep (l_bio s) (upd v st d) pin hold → hold !! b = Some (st, pid) →
  (i + n ≤ length (lh_block s))%nat →
  wp (write_head_loop b n i) (λ _ s',
    s' = on_bio (λ _, l_bio s') s ∧ the_disk (l_bio s') = the_disk (l_bio s) ∧
    b_me (l_bio s') = b_me (l_bio s) ∧
    brep (l_bio s') (upd v st (put_blocks (blk s) d n i)) pin hold) s.
Proof.
  revert i s d. induction n as [|n IH]; intros i s d Hb Hh Hl; cbn [write_head_loop].
  { apply wp_ret. by destruct s. }
  destruct (lookup_lt_is_Some_2 (lh_block s) i) as [x Hx]; [lia|].
  apply wp_bind, (wp_block_get _ _ _ x); [done|].
  lstep. eapply wp_mono; [by eapply buf_data_wp|]. intros d' c [-> ->].
  lstep. eapply wp_mono; [by eapply buf_store_wp|]. intros [] c (Hc&Ed&Em). rewrite fupd_at in Hc.
  eapply wp_mono.
  { eapply (IH (S i) (on_bio (λ _, c) s)); [|done|cbn; lia].
    eapply brep_view_ext; [exact Hc|]. intros m. apply upd_upd. }
  intros [] s' (E&Ed'&Em'&Hb'). cbn [l_bio on_bio lh_block blk] in *.
  split_and!; [done|congruence|congruence|].
  assert (blk s i = x) as <- by (by apply nth_lookup_Some). done.
Qed.

Lemma write_head_wp s0 s v pin ws :
  during s0 s v pin ws → geom s0 → 0 ≤ lh_n s0 ≤ LOGSIZE →
  l_start s0 ∉ pin → (length pin < HEAD)%nat →
  wp write_head (λ _ s', during s0 s' (upd v (l_start s0) (head_data (v (l_start s0)) s0)) pin
    (ws ++ [(l_start s0, head_data (v (l_start s0)) s0)])) s.
Proof.
  intros Hd Hg Hn Hp Hroom. destruct (during_geom _ _ _ _ _ Hd) as [E1 E2].
  destruct Hd as [Hrep Hdisk Hme Hrest].
  assert (lh_n s = lh_n s0 ∧ lh_block s = lh_block s0) as [En Ebl] by (by rewrite Hrest).
  pose proof (disksize_dwrites (the_disk (l_bio s0)) ws) as Hsz. rewrite <-Hdisk in Hsz.
  destruct Hg as [Hdev Hst Hend Hsize Hlen].
  unfold write_head. apply wp_bind, wp_gets, wp_bind, wp_gets. rewrite E1, E2, Hdev, u32_id by (unfold is_u32; lia).
  lstep. eapply wp_mono; [apply bread_wp; [done|rewrite Hsz; lia| |]|].
  { intros. by rewrite lookup_empty. }
  { right. by rewrite map_size_empty, Nat.add_0_r. }
  intros b c1 (_&Hb1&Ed1&Em1&_).
  pose proof (lookup_insert_eq (∅ : holds) b (l_start s0, b_me (l_bio s))) as Hh.
  apply wp_bind, wp_gets. cbn [lh_n on_bio]. rewrite En.
  lstep. eapply wp_mono; [by eapply buf_data_wp|]. intros d c2 [-> ->].
  lstep. eapply wp_mono; [by eapply buf_store_wp|]. intros [] c3 (Hb3&Ed3&Em3).
  apply wp_bind. eapply wp_mono.
  { eapply write_head_loop_wp; [exact Hb3|exact Hh|]. cbn. rewrite Ebl, Hlen. lia. }
  intros [] s4 (E4&Ed4&Em4&Hb4). unfold blk in Hb4. cbn [l_bio lh_block on_bio] in *.
  rewrite Ebl in Hb4. change (put_blocks _ _ _ _) with (head_data (v (l_start s0)) s0) in Hb4.
  lstep. eapply wp_mono; [eapply bwrite_wp; [exact Hb4|]|].
  { rewrite Em4, Em3, Em1. exact Hh. }
  intros [] c5 (Hb5&Ed5&Em5). rewrite filter_ne_id in Hb5 by done. rewrite fupd_at in Ed5.
  apply wp_bio. cbn [l_bio on_bio]. eapply wp_mono; [eapply brelse_wp; [exact Hb5| |right]|].
  { rewrite Em5, Em4, Em3, Em1. exact Hh. }
  { rewrite Ed5. cbn [blocks]. by rewrite !fupd_at. }
  intros [] c6 (Hb6&Ed6&Em6). rewrite delete_one in Hb6.
  split; cbn [l_bio on_bio].
  - done.
  - rewrite Ed6, Ed5, Ed4, Ed3, Ed1, dwrites_app, <-Hdisk. done.
  - congruence.
  - rewrite E4, Hrest. done.
Qed.

Lemma read_head_loop_wp d n i s :
  (i + n ≤ length (lh_block s))%nat →
  wp (read_head_loop d n i) (λ _ s', ∃ bl, s' = set_block (λ _, bl) s ∧
    length bl = length (lh_block s) ∧
    (∀ j, (i ≤ j < i + n)%nat → bl !! j = Some (hdr_block d j)) ∧
    (∀ j, (j < i)%nat → bl !! j = lh_block s !! j)) s.
Proof.
  revert i s. induction n as [|n IH]; intros i s Hl; cbn [read_head_loop].
  { apply wp_ret. exists (lh_block s). split_and!; [by destruct s|done|intros; lia|done]. }
  destruct (lookup_lt_is_Some_2 (lh_block s) i) as [x Hx]; [lia|].
  apply wp_bind. eapply (wp_intro _ _ _ tt).
  { unfold block_put. by rewrite Hx. }
  eapply wp_mono; [apply (IH (S i)); cbn; rewrite length_insert; lia|].
  intros [] s' (bl&->&Hlen&Hin&Hout). cbn [lh_block set_block] in *. rewrite length_insert in Hlen.
  exists bl. split_and!; [done|done| |].
  - intros j Hj. destruct (decide (j = i)) as [->|]; [|apply Hin; lia].
    rewrite Hout by lia. apply list_lookup_insert_eq. lia.
  - intros j Hj. rewrite Hout by lia. apply list_lookup_insert_ne. lia.
Qed.

(** The in-memory header after [read_head]. *)
Definition with_head (n : Z) (bl : list Z) (s : lst) : lst := set_block (λ _, bl) (set_n n s).

Lemma read_head_wp s0 s v ws :
  during s0 s v [] ws → geom s0 → 0 ≤ hdr_n (v (l_start s0)) ≤ LOGSIZE →
  wp read_head (λ _ s', ∃ bl,
    during (with_head (hdr_n (v (l_start s0))) bl s0) s' v [] ws ∧
    length bl = Z.to_nat LOGSIZE ∧
    (∀ j, (j < Z.to_nat (hdr_n (v (l_start s0))))%nat → bl !! j = Some (hdr_block (v (l_start s0)) j))) s.
Proof.
  intros Hd Hg Hn. destruct (during_geom _ _ _ _ _ Hd) as [E1 E2].
  destruct Hd as [Hrep Hdisk Hme Hrest].
  assert (lh_block s = lh_block s0) as Ebl by (by rewrite Hrest).
  pose proof (disksize_dwrites (the_disk (l_bio s0)) ws) as Hsz. rewrite <-Hdisk in Hsz.
  destruct Hg as [Hdev Hst Hend Hsize Hlen].
  unfold read_head. apply wp_bind, wp_gets, wp_bind, wp_gets. rewrite E1, E2, Hdev, u32_id by (unfold is_u32; lia).
  lstep. eapply wp_mono; [apply bread_wp; [done|rewrite Hsz; lia| |]|].
  { intros. by rewrite lookup_empty. }
  { right. rewrite map_size_empty. simpl. unfold HEAD. vm_compute. lia. }
  intros b c1 (_&Hb1&Ed1&Em1&_).
  pose proof (lookup_insert_eq (∅ : holds) b (l_start s0, b_me (l_bio s))) as Hh.
  assert (v (l_start s0) = blocks (the_disk (l_bio s)) (l_start s0)) as Hv.
  { apply (br_disk _ _ _ _ Hrep); [apply not_elem_of_nil|]. intros. by rewrite lookup_empty. }
  lstep. eapply wp_mono; [by eapply buf_data_wp|]. intros d c2 [-> ->].
  apply wp_bind, wp_modify, wp_bind. eapply wp_mono.
  { apply read_head_loop_wp. cbn. rewrite Ebl, Hlen. lia. }
  intros [] s2 (bl&->&Hbl&Hin&_). apply wp_bio. cbn [l_bio on_bio set_block set_n].
  eapply wp_mono; [eapply brelse_wp; [exact Hb1| |right]|].
  { rewrite Em1. exact Hh. }
  { by rewrite Ed1, Hv. }
  intros [] c6 (Hb6&Ed6&Em6). rewrite delete_one in Hb6. exists bl.
  split_and!; [|rewrite Hbl; cbn; by rewrite Ebl|intros j Hj; apply Hin; lia].
  split; cbn [l_bio on_bio with_head set_block set_n].
  - done.
  - congruence.
  - congruence.
  - rewrite Hrest. done.
Qed.

(** ** Recovery *)

Definition hn (v : view) (st : Z) : nat := Z.to_nat (hdr_n (v st)).
Definition hdr_writes (st : Z) (v : view) : list (Z * list Z) :=
  (λ i, (hdr_block (v st) i, v (st + Z.of_nat i + 1))) <$> seq 0 (hn v st).
(** The writes of a recovery. *)
Definition rec_writes (st : Z) (v : view) : list (Z * list Z) :=
  hdr_writes st v ++ [(st, put32 (v st) 0 0)].

(** A header that recovery can follow. *)
Definition hdr_ok (st sz : Z) (d : disk) : Prop :=
  0 ≤ hdr_n (blocks d st) < sz ∧
  ∀ i, (i < hn (blocks d) st)%nat →
    0 ≤ hdr_block (blocks d st) i < disksize d ∧ ¬ (st ≤ hdr_block (blocks d st) i < st + sz).

Lemma during_set_n s0 s v pin ws n :
  during s0 s v pin ws → during (set_n n s0) (set_n n s) v pin ws.
Proof. intros [? ? ? Hr]. split; try done. by rewrite Hr. Qed.

Lemma geom_set_n s n : geom s → geom (set_n n s).
Proof. by intros []. Qed.

Lemma during_n s0 s v pin ws : during s0 s v pin ws → lh_n s = lh_n s0.
Proof. intros Hd. by rewrite (du_rest _ _ _ _ _ Hd). Qed.

Lemma head_data_zero d s : head_data d (set_n 0 s) = put32 d 0 0.
Proof. done. Qed.

Lemma hdr_writes_keys st sz d x :
  hdr_ok st sz d → x ∈ (hdr_writes st (blocks d)).*1 → 0 ≤ x < disksize d ∧ ¬ (st ≤ x < st + sz).
Proof.
  intros [_ Hb] (w&->&(i&->&Hi)%list_elem_of_fmap)%list_elem_of_fmap.
  apply elem_of_seq in Hi. apply Hb. lia.
Qed.

Lemma recover_wp s0 s v :
  during s0 s v [] [] → geom s0 → (∀ n, v n = blocks (the_disk (l_bio s0)) n) →
  hdr_ok (l_start s0) (l_size s0) (the_disk (l_bio s0)) →
  wp recover_from_log (λ _ s', ∃ v' n bl, length bl = Z.to_nat LOGSIZE ∧
    during (set_n 0 (with_head n bl s0)) s' v' [] (rec_writes (l_start s0) v)) s.
Proof.
  intros Hd Hg Hv [Hn Hb]. unfold hn in Hb. rewrite <-Hv in Hn, Hb.
  pose proof (ge_size _ Hg). unfold recover_from_log.
  apply wp_bind. eapply wp_mono; [apply (read_head_wp s0 s v []); [done|done|lia]|].
  intros [] s1 (bl&Hd1&Hlen&Hbl). set (n := hdr_n (v (l_start s0))) in *.
  set (s0' := with_head n bl s0) in *.
  assert (∀ i, (i < Z.to_nat n)%nat → blk s0' i = hdr_block (v (l_start s0)) i) as Eblk.
  { intros i Hi. unfold blk. cbn. apply nth_lookup_Some. by apply Hbl. }
  assert (geom s0') as Hg'.
  { destruct Hg. split; try done. }
  assert (home_writes s0' v 0 (Z.to_nat n) = hdr_writes (l_start s0) v) as Ehw.
  { apply list_fmap_ext. intros k i Hi. apply lookup_seq in Hi as [-> ?]. simpl.
    by rewrite Eblk by done. }
  apply wp_bind. unfold install_trans. apply wp_bind, wp_gets.
  rewrite (during_n _ _ _ _ _ Hd1). eapply wp_mono.
  { apply (install_loop_wp s0' (Z.to_nat n) Hg') with (pinf := λ _, []) (v := v) (ws := []).
    - intros i Hi. rewrite Eblk by done. by apply Hb.
    - change (l_size s0') with (l_size s0). lia.
    - done.
    - done.
    - intros i Hi. split_and!; [done| |right|intros; apply not_elem_of_nil];
        unfold HEAD; vm_compute; lia. }
  intros [] s2 Hd2. change (lh_n s0') with n in Hd2. rewrite Ehw in Hd2.
  apply wp_bind, wp_modify. eapply wp_mono.
  { eapply write_head_wp; [apply (during_set_n _ _ _ _ _ 0 Hd2)|by apply geom_set_n|..].
    - cbn. unfold LOGSIZE, MAXOPBLOCKS. lia.
    - apply not_elem_of_nil.
    - unfold HEAD. vm_compute. lia. }
  intros [] s3 Hd3. eexists _, n, bl. split; [done|].
  rewrite head_data_zero in Hd3. cbn [l_start set_n with_head set_block s0' app] in Hd3.
  rewrite (vwrites_ne v (hdr_writes _ _)) in Hd3; [exact Hd3|]. intros Hin.
  apply list_elem_of_fmap in Hin as (w&E&(i&->&[_ Hi]%elem_of_seq)%list_elem_of_fmap).
  destruct (Hb i Hi) as [_ Hb2]. cbn [fst] in E. lia.
Qed.

(** ** Crashes during recovery *)

(** The disk [d] has its log of [sz] blocks at block [st]. *)
Record has_log (st sz : Z) (d : disk) : Prop := {
  hl_start : logstart (decode_sb (blocks d 1)) = st;
  hl_size : nlog (decode_sb (blocks d 1)) = sz;
  hl_sb : 1 < st;
  hl_sz : 0 < sz ≤ LOGSIZE;
  hl_end : st + sz ≤ disksize d < 2147483648;
  hl_head : length (blocks d st) = Z.to_nat BSIZE;
  hl_hdr : hdr_ok st sz d;
  hl_keep i : (i < hn (blocks d) st)%nat → hdr_block (blocks d st) i ≠ 1;
}.

Definition recovered (st : Z) (v : view) : view := vwrites v (rec_writes st v).

Lemma vwrites_indep v v' ws x : x ∈ ws.*1 → vwrites v ws x = vwrites v' ws x.
Proof.
  revert v v'. induction ws as [|w ws IH] using rev_ind; intros v v' Hx;
    [by apply not_elem_of_nil in Hx|].
  rewrite !vwrites_app. simpl. destruct (decide (x = w.1)) as [->|Hne]; [by rewrite !fupd_at|].
  rewrite !fupd_off by done. apply IH. rewrite fmap_app, elem_of_app in Hx.
  destruct Hx as [?|Hx]; [done|]. by apply list_elem_of_singleton in Hx.
Qed.

(** Writing some of the blocks first makes no difference. *)
Lemma vwrites_redo v ws k x : vwrites (vwrites v (take k ws)) ws x = vwrites v ws x.
Proof.
  destruct (decide (x ∈ ws.*1)) as [Hx|Hx]; [by apply vwrites_indep|].
  rewrite !vwrites_ne; try done. intros Hin. apply Hx.
  rewrite <-(take_drop k ws), fmap_app, elem_of_app. by left.
Qed.

Section recover.
Context (st sz : Z).

Lemma recovered_home v x :
  x ≠ st → recovered st v x = vwrites v (hdr_writes st v) x.
Proof.
  intros Hx. unfold recovered, rec_writes. rewrite vwrites_app. simpl. by rewrite fupd_off.
Qed.

Lemma hdr_n_zero d : (4 ≤ length d)%nat → hdr_n (put32 d 0 0) = 0.
Proof. intros. unfold hdr_n. by rewrite get32_put32 by lia. Qed.

Lemma hdr_writes_zero v : hdr_n (v st) = 0 → hdr_writes st v = [].
Proof. intros E. unfold hdr_writes, hn. by rewrite E. Qed.

Lemma hdr_writes_same v v' :
  (∀ x, st ≤ x < st + sz → v' x = v x) → 0 < sz → 0 ≤ hdr_n (v st) < sz →
  hdr_writes st v' = hdr_writes st v.
Proof.
  intros Hv Hz Hn. unfold hdr_writes, hn. rewrite (Hv st) by lia. apply list_fmap_ext.
  intros k i Hi. apply lookup_seq in Hi as [-> ?]. simpl. by rewrite Hv by lia.
Qed.

Lemma take_keys k (ws : list (Z * list Z)) x : x ∈ (take k ws).*1 → x ∈ ws.*1.
Proof.
  intros Hx. rewrite <-(take_drop k ws), fmap_app. apply elem_of_app. by left.
Qed.

(** A disk that differs in no block of the log and keeps its superblock. *)
Lemma has_log_same d d' :
  has_log st sz d → disksize d' = disksize d → blocks d' 1 = blocks d 1 →
  (∀ x, st ≤ x < st + sz → blocks d' x = blocks d x) → has_log st sz d'.
Proof.
  intros [H1 H2 H3 H4 H5 H6 H7 H8] Es E1 El.
  assert (blocks d' st = blocks d st) as Eh by (apply El; lia).
  split; rewrite ?Es, ?E1, ?Eh; try done.
  - unfold hdr_ok, hn in *. by rewrite Es, Eh.
  - unfold hn in *. by rewrite Eh.
Qed.

(** One interrupted recovery. *)
Definition crash_rec (d d' : disk) : Prop :=
  ∃ k, d' = dwrites d (take k (rec_writes st (blocks d))).

Lemma crash_rec_same d d' :
  has_log st sz d → crash_rec d d' →
  has_log st sz d' ∧
  ∀ x, ¬ (st ≤ x < st + sz) → recovered st (blocks d') x = recovered st (blocks d) x.
Proof.
  intros Hl [k ->]. pose proof Hl as [_ _ H3 H4 H5 H6 H7 H8].
  assert (∀ x, x ∈ (hdr_writes st (blocks d)).*1 → ¬ (st ≤ x < st + sz) ∧ x ≠ 1) as Hk.
  { intros x Hx. split; [by eapply hdr_writes_keys|].
    apply list_elem_of_fmap in Hx as (w&->&(i&->&[_ Hi]%elem_of_seq)%list_elem_of_fmap). by apply H8. }
  unfold rec_writes. destruct (decide (k ≤ length (hdr_writes st (blocks d)))%nat) as [Hle|Hgt].
  - rewrite take_app_le by done. set (ws := take k (hdr_writes st (blocks d))).
    assert (∀ x, x ∈ ws.*1 → ¬ (st ≤ x < st + sz) ∧ x ≠ 1) as Hw
      by (intros x Hx%take_keys; by apply Hk).
    assert (∀ x, st ≤ x < st + sz → blocks (dwrites d ws) x = blocks d x) as Hlog.
    { intros x Hx. rewrite blocks_dwrites. apply vwrites_ne. by intros [? _]%Hw. }
    split.
    + apply (has_log_same d); [done|apply disksize_dwrites| |done].
      rewrite blocks_dwrites. apply vwrites_ne. by intros [_ ?]%Hw.
    + intros x Hx. rewrite !recovered_home by lia.
      rewrite (hdr_writes_same (blocks d)); [|done|lia|apply H7].
      rewrite blocks_dwrites. apply vwrites_redo.
  - rewrite take_ge by (rewrite length_app; simpl; lia).
    assert (hdr_n (blocks (dwrites d (rec_writes st (blocks d))) st) = 0) as Ez.
    { rewrite blocks_dwrites. unfold rec_writes. rewrite vwrites_app. simpl. rewrite fupd_at.
      apply hdr_n_zero. rewrite H6. unfold BSIZE. lia. }
    assert (blocks (dwrites d (rec_writes st (blocks d))) 1 = blocks d 1) as E1.
    { rewrite blocks_dwrites. unfold rec_writes. rewrite vwrites_app. simpl.
      rewrite fupd_off by lia. apply vwrites_ne. by intros [_ ?]%Hk. }
    change (hdr_writes st (blocks d) ++ _) with (rec_writes st (blocks d)). split.
    + destruct Hl. split; rewrite ?disksize_dwrites, ?E1; try done.
      * rewrite blocks_dwrites. unfold rec_writes. rewrite vwrites_app. simpl. rewrite fupd_at.
        rewrite length_put32; rewrite ?H6; unfold BSIZE; lia.
      * unfold hdr_ok, hn. rewrite Ez. split; [lia|]. intros i Hi. simpl in Hi. lia.
      * unfold hn. rewrite Ez. intros i Hi. simpl in Hi. lia.
    + intros x Hx. rewrite (recovered_home (blocks (dwrites _ _))) by lia.
      rewrite hdr_writes_zero by done. simpl. by rewrite blocks_dwrites.
Qed.

Lemma crashes_rec_same d d' :
  has_log st sz d → rtc crash_rec d d' →
  has_log st sz d' ∧
  ∀ x, ¬ (st ≤ x < st + sz) → recovered st (blocks d') x = recovered st (blocks d) x.
Proof.
  intros Hl Hr. induction Hr as [d|d d1 d2 H1 Hr IH]; [done|].
  destruct (crash_rec_same _ _ Hl H1) as [Hl1 E1]. destruct (IH Hl1) as [Hl2 E2].
  split; [done|]. intros x Hx. by rewrite E2, E1.
Qed.
End recover.

(** ** Booting *)

(** Memory at boot, and what is run before the first file-system operation. *)
Definition log0 (d : disk) (me : Z) : lst :=
  Lst (Bst (bcache0 zeros) d me) 0 0 0 0 0 0 (replicate (Z.to_nat LOGSIZE) 0).
Definition boot : M lst unit := bio binit;; initlog ROOTDEV.

Lemma readsb_wp s v :
  brep s v [] ∅ → 1 < disksize (the_disk s) →
  wp (readsb 1) (λ sb s', sb = decode_sb (v 1) ∧ brep s' v [] ∅ ∧
    the_disk s' = the_disk s ∧ b_me s' = b_me s) s.
Proof.
  intros Hb Hd. unfold readsb. apply wp_bind. eapply wp_mono.
  { apply bread_wp; [done|lia| |right]; [intros; by rewrite lookup_empty|].
    rewrite map_size_empty. unfold HEAD. vm_compute. lia. }
  intros i s1 (_&Hb1&Ed1&Em1&_).
  pose proof (lookup_insert_eq (∅ : holds) i (1, b_me s)) as Hh.
  apply wp_bind. eapply wp_mono; [by eapply buf_data_wp|]. intros d s2 [-> ->].
  apply wp_bind. eapply wp_mono; [eapply brelse_wp; [exact Hb1|by rewrite Em1|right]|].
  { rewrite Ed1. apply (br_disk _ _ _ _ Hb); [apply not_elem_of_nil|].
    intros. by rewrite lookup_empty. }
  intros [] s3 (Hb3&Ed3&Em3). rewrite delete_one in Hb3. apply wp_ret.
  split_and!; [done|done|congruence|congruence].
Qed.

Lemma boot_wp st sz d me :
  has_log st sz d →
  wp boot (λ _ s, ∃ v n bl s0, length bl = Z.to_nat LOGSIZE ∧ geom s0 ∧
    outstanding s0 = 0 ∧ committing s0 = 0 ∧ l_start s0 = st ∧ l_size s0 = sz ∧
    the_disk (l_bio s0) = d ∧ b_me (l_bio s0) = me ∧
    during (set_n 0 (with_head n bl s0)) s v [] (rec_writes st (blocks d))) (log0 d me).
Proof.
  intros [H1 H2 H3 H4 H5 H6 H7 H8]. unfold boot, initlog. lstep.
  eapply wp_mono; [apply binit_wp|]. intros [] c (Hc&Ed&Em).
  lstep. eapply wp_mono; [apply readsb_wp; [exact Hc|rewrite Ed; lia]|].
  intros sb c' (->&Hc'&Ed'&Em'). apply wp_bind, wp_modify. rewrite H1, H2.
  set (s0 := set_geom _ _ _ _). pose proof (s32_id st) as Est. pose proof (s32_id sz) as Esz.
  unfold is_i32, LOGSIZE, MAXOPBLOCKS in *.
  assert (the_disk (l_bio s0) = d) as Ed0 by (cbn; congruence).
  assert (l_start s0 = st) as Es0 by (cbn; apply Est; lia).
  assert (l_size s0 = sz) as Ez0 by (cbn; apply Esz; lia).
  assert (geom s0) as Hg.
  { split; [done|lia|rewrite Es0, Ez0, Ed0; lia|unfold LOGSIZE, MAXOPBLOCKS; lia|by cbn]. }
  eapply wp_mono; [apply (recover_wp s0 s0 (blocks d))|].
  - split; [exact Hc'|done|done|done].
  - done.
  - intros n. by rewrite Ed0.
  - by rewrite Es0, Ez0, Ed0.
  - intros [] s (v&n&bl&Hbl&Hd). rewrite Es0 in Hd. exists v, n, bl, s0.
    split_and!; try done. cbn. congruence.
Qed.

(** ** Transactions *)

Definition nlogged (s : lst) : nat := Z.to_nat (lh_n s).
Definition logged (s : lst) : list Z := take (nlogged s) (lh_block s).

(** Between transactions and during one, with the buffers [hold] in use: the
    logged blocks are exactly the pinned ones, and the header on disk is
    empty. *)
Record log_rep (s : lst) (v : view) (hold : holds) : Prop := {
  ly_geom : geom s;
  ly_sb : has_log (l_start s) (l_size s) (the_disk (l_bio s));
  ly_bio : brep (l_bio s) v (logged s) hold;
  ly_n : 0 ≤ lh_n s < l_size s;
  ly_nodup : NoDup (logged s);
  ly_ok : logged_ok s (nlogged s);
  ly_keep i : (i < nlogged s)%nat → blk s i ≠ 1;
  ly_empty : hdr_n (blocks (the_disk (l_bio s)) (l_start s)) = 0;
}.

(** All that [commit] writes, for the view [v] of the transaction. *)
Definition home_copies (s : lst) (v : view) : list (Z * list Z) :=
  (λ i, (blk s i, v (blk s i))) <$> seq 0 (nlogged s).
Definition commit_writes (s : lst) (v : view) : list (Z * list Z) :=
  let h := head_data (v (l_start s)) s in
  log_writes s v 0 (nlogged s) ++ [(l_start s, h)] ++ home_copies s v ++
  [(l_start s, put32 h 0 0)].

Section logged.
Context (s : lst) (v : view) (hold : holds) (Hr : log_rep s v hold).
Let n := nlogged s.
Let st := l_start s.

Lemma logged_blk i : (i < n)%nat → logged s !! i = Some (blk s i).
Proof.
  intros Hi. unfold logged. rewrite lookup_take_lt by done.
  destruct Hr as [Hg _ _ Hn _ _ _ _]. unfold blk. rewrite nth_lookup.
  destruct (lh_block s !! i) eqn:E; [done|]. apply lookup_ge_None in E.
  rewrite (ge_blocks _ Hg) in E. pose proof (ge_size _ Hg). unfold n, nlogged in Hi. lia.
Qed.
Lemma length_logged : length (logged s) = n.
Proof.
  destruct Hr as [Hg _ _ Hn _ _ _ _]. unfold logged. rewrite length_take, (ge_blocks _ Hg).
  pose proof (ge_size _ Hg). unfold n, nlogged. lia.
Qed.
Lemma logged_elem x : x ∈ logged s ↔ ∃ i, (i < n)%nat ∧ x = blk s i.
Proof.
  split.
  - intros [i Hi]%list_elem_of_lookup. pose proof (lookup_lt_Some _ _ _ Hi) as Hlt.
    rewrite length_logged in Hlt. exists i. split; [done|]. rewrite logged_blk in Hi by done.
    congruence.
  - intros (i&Hi&->). eapply list_elem_of_lookup_2. by apply logged_blk.
Qed.
Lemma logged_not_log x : in_log s x → x ∉ logged s.
Proof. intros Hx (i&Hi&->)%logged_elem. by apply (ly_ok _ _ _ Hr) in Hi as [_ ?]. Qed.
Lemma n_small : (n < HEAD)%nat ∧ Z.of_nat n < l_size s.
Proof.
  destruct Hr as [Hg _ _ Hn _ _ _ _]. pose proof (ge_size _ Hg).
  unfold n, nlogged, HEAD, NBUF, LOGSIZE, MAXOPBLOCKS in *. lia.
Qed.

Lemma filter_drop_blk i :
  (i < n)%nat → filter (λ x, x ≠ blk s i) (drop i (logged s)) = drop (S i) (logged s).
Proof.
  intros Hi. pose proof (logged_blk i Hi) as Hl. rewrite (drop_S _ _ _ Hl).
  rewrite filter_cons_False by tauto. apply filter_ne_id.
  pose proof (ly_nodup _ _ _ Hr) as Hnd. rewrite <-(take_drop_middle _ _ _ Hl) in Hnd.
  apply NoDup_app in Hnd as (_&_&[? _]%NoDup_cons). done.
Qed.

Lemma log_key x : x ∈ (log_writes s v 0 n).*1 → st < x < st + l_size s.
Proof.
  intros (w&->&(i&->&[_ Hi]%elem_of_seq)%list_elem_of_fmap)%list_elem_of_fmap.
  pose proof n_small. cbn [fst]. unfold st. lia.
Qed.
Lemma home_key x : x ∈ (home_copies s v).*1 ↔ x ∈ logged s.
Proof.
  rewrite logged_elem. split.
  - intros (w&->&(i&->&[_ Hi]%elem_of_seq)%list_elem_of_fmap)%list_elem_of_fmap. eauto.
  - intros (i&Hi&->). apply list_elem_of_fmap. exists (blk s i, v (blk s i)). split; [done|].
    apply list_elem_of_fmap. exists i. split; [done|]. apply elem_of_seq. unfold n in Hi. lia.
Qed.
Lemma home_copies_val w : w ∈ home_copies s v → w.2 = v w.1.
Proof. by intros (i&->&_)%list_elem_of_fmap. Qed.

Lemma log_writes_lookup u i :
  (i < n)%nat → vwrites u (log_writes s v 0 n) (st + Z.of_nat i + 1) = v (blk s i).
Proof.
  intros Hi. apply vwrites_const.
  - apply list_elem_of_fmap. exists (st + Z.of_nat i + 1, v (blk s i)). split; [done|].
    apply list_elem_of_fmap. exists i. split; [done|]. apply elem_of_seq. lia.
  - intros w (j&->&_)%list_elem_of_fmap E. cbn [fst snd] in *. unfold st in E.
    by replace j with i by lia.
Qed.

End logged.

Section commit.
Context (s : lst) (v : view) (Hr : log_rep s v ∅).
Let n := nlogged s.
Let st := l_start s.

Lemma commit_wp :
  0 < lh_n s →
  wp commit (λ _ s', ∃ v', during (set_n 0 s) s' v' [] (commit_writes s v)) s.
Proof.
  intros Hpos. destruct (n_small s v ∅ Hr) as [Hn1 Hn2].
  pose proof (ly_geom _ _ _ Hr) as Hg. pose proof (ly_ok _ _ _ Hr) as Hok.
  assert (in_log s st) as Hst. { unfold in_log, st. pose proof (ge_size _ Hg). lia. }
  assert (during s s v (logged s) []) as Hd0.
  { split; [apply (ly_bio _ _ _ Hr)|done|done|by destruct s]. }
  unfold commit. apply wp_bind, wp_gets, wp_when; [intros _|intros E%Z.ltb_ge; lia].
  apply wp_bind. unfold write_log. apply wp_bind, wp_gets. eapply wp_mono.
  { apply (write_log_loop_wp s n Hg Hok Hn2 (logged s)); [done|exact Hd0| | |].
    - by rewrite (length_logged s v ∅ Hr).
    - intros i Hi. apply (logged_elem s v ∅ Hr). eauto.
    - apply (logged_not_log s v ∅ Hr). }
  intros [] s1 Hd1. cbn [app] in Hd1. apply wp_bind. eapply wp_mono.
  { eapply write_head_wp; [exact Hd1|done| | |by rewrite (length_logged s v ∅ Hr)].
    - pose proof (ly_n _ _ _ Hr). pose proof (ge_size _ Hg). lia.
    - by apply (logged_not_log s v ∅ Hr). }
  intros [] s2 Hd2. fold st in Hd2. fold n in Hd2.
  rewrite (vwrites_ne v) in Hd2 by (intros Hx%(log_key s v ∅ Hr); lia).
  set (h := head_data (v st) s) in *. set (v1 := vwrites v (log_writes s v 0 n)) in *.
  assert (home_writes s (upd v1 st h) 0 n = home_copies s v) as Ehw.
  { apply list_fmap_ext. intros k i Hi. apply lookup_seq in Hi as [-> Hi]. f_equal.
    rewrite fupd_off by (fold st; lia). by apply log_writes_lookup. }
  apply wp_bind. unfold install_trans. apply wp_bind, wp_gets.
  rewrite (during_n _ _ _ _ _ Hd2). eapply wp_mono.
  { apply (install_loop_wp s n Hg Hok Hn2) with (pinf := λ i, drop i (logged s)) (2 := Hd2);
      [done|]. intros i Hi. split_and!.
    - by apply (filter_drop_blk s v ∅ Hr).
    - rewrite length_drop, (length_logged s v ∅ Hr). lia.
    - left. rewrite (drop_S _ _ _ (logged_blk s v ∅ Hr i Hi)). left.
    - intros x Hx Hin. apply (logged_not_log s v ∅ Hr x Hx).
      rewrite <-(take_drop i (logged s)). apply elem_of_app. by right. }
  intros [] s3 Hd3. change (Z.to_nat (lh_n s)) with n in Hd3.
  change (vwrites v (log_writes s v 0 n)) with v1 in Hd3. rewrite Ehw, drop_ge in Hd3 by (by rewrite (length_logged s v ∅ Hr)).
  apply wp_bind, wp_modify. eapply wp_mono.
  { eapply write_head_wp; [apply (during_set_n _ _ _ _ _ 0 Hd3)|by apply geom_set_n|..].
    - cbn. unfold LOGSIZE, MAXOPBLOCKS. lia.
    - apply not_elem_of_nil.
    - unfold HEAD. vm_compute. lia. }
  intros [] s4 Hd4. eexists. rewrite head_data_zero in Hd4. cbn [l_start set_n] in Hd4.
  fold st in Hd4. rewrite (vwrites_ne (upd v1 st h)), fupd_at in Hd4.
  - rewrite <-!app_assoc in Hd4. exact Hd4.
  - intros Hx%(home_key s v ∅ Hr). by apply (logged_not_log s v ∅ Hr) in Hst.
Qed.
End commit.

(** ** Crashes during a commit *)

Section crash.
Context (s : lst) (v : view) (Hr : log_rep s v ∅).
Let n := nlogged s.
Let st := l_start s.
Let sz := l_size s.
Let d0 := the_disk (l_bio s).
Let h := head_data (v st) s.

Lemma st_in_log : in_log s st ∧ (st ∉ logged s) ∧ 1 < st ∧ 0 < sz.
Proof.
  assert (in_log s st) as Hl.
  { unfold in_log, st. pose proof (ge_size _ (ly_geom _ _ _ Hr)). lia. }
  split_and!; [done|by eapply logged_not_log|apply (hl_sb _ _ _ (ly_sb _ _ _ Hr))|].
  pose proof (ge_size _ (ly_geom _ _ _ Hr)). unfold sz. lia.
Qed.
Lemma clean_block x : x ∉ logged s → v x = blocks d0 x.
Proof.
  intros Hx. apply (br_disk _ _ _ _ (ly_bio _ _ _ Hr)); [done|]. intros. by rewrite lookup_empty.
Qed.
Lemma head_facts :
  length h = Z.to_nat BSIZE ∧ hdr_n h = lh_n s ∧ (∀ i, (i < n)%nat → hdr_block h i = blk s i).
Proof.
  destruct st_in_log as (_&Hst&_&_). pose proof (ly_n _ _ _ Hr).
  pose proof (ge_size _ (ly_geom _ _ _ Hr)). apply head_data_spec.
  - rewrite clean_block by done. apply (hl_head _ _ _ (ly_sb _ _ _ Hr)).
  - lia.
  - intros i Hi. destruct (ly_ok _ _ _ Hr i Hi) as [Hb _].
    pose proof (ge_end _ (ly_geom _ _ _ Hr)). unfold is_i32. lia.
Qed.
Lemma one_home : (1 ∉ logged s) ∧ ¬ in_log s 1.
Proof.
  split.
  - intros (i&Hi&E)%(logged_elem s v ∅ Hr). by apply (ly_keep _ _ _ Hr i Hi).
  - destruct st_in_log as (_&_&?&_). unfold in_log. fold st. lia.
Qed.

(** Disks with the old header, or none: recovery has nothing to install. *)
Lemma quiet_disk d :
  disksize d = disksize d0 → blocks d 1 = blocks d0 1 → length (blocks d st) = Z.to_nat BSIZE →
  hdr_n (blocks d st) = 0 →
  has_log st sz d ∧ ∀ x, ¬ in_log s x → recovered st (blocks d) x = blocks d x.
Proof.
  intros Es E1 Hlen Hz. pose proof (ly_sb _ _ _ Hr) as [H1 H2 H3 H4 H5 _ _ _].
  destruct st_in_log as (Hin&_&_&_). split.
  - split; rewrite ?E1, ?Es; try done; unfold hdr_ok, hn; rewrite Hz; simpl;
      [split; [unfold sz; lia|]|]; intros i Hi; lia.
  - intros x Hx. rewrite recovered_home by (intros ->; done).
    by rewrite hdr_writes_zero.
Qed.

(** Before the header is written: the old contents. *)
Lemma crash_before k :
  let d := dwrites d0 (take k (log_writes s v 0 n)) in
  has_log st sz d ∧ ∀ x, ¬ in_log s x → recovered st (blocks d) x = blocks d0 x.
Proof.
  intros d. destruct st_in_log as (Hin&_&_&_).
  assert (∀ x, x = st ∨ ¬ in_log s x → blocks d x = blocks d0 x) as Hd.
  { intros x Hx. unfold d. rewrite blocks_dwrites. apply vwrites_ne.
    intros Hk%take_keys%(log_key s v ∅ Hr). unfold in_log in Hx. lia. }
  destruct (quiet_disk d) as [Hl He].
  - apply disksize_dwrites.
  - apply Hd. right. apply one_home.
  - rewrite Hd by tauto. apply (hl_head _ _ _ (ly_sb _ _ _ Hr)).
  - rewrite Hd by tauto. apply (ly_empty _ _ _ Hr).
  - split; [done|]. intros x Hx. rewrite He by done. apply Hd. tauto.
Qed.

(** What the home locations hold when the copies [ws] of [home_copies] have
    been made. *)
Lemma home_installed u x :
  (x ∉ logged s → u x = blocks d0 x) → vwrites u (home_copies s v) x = v x.
Proof.
  intros Hu. destruct (decide (x ∈ logged s)) as [Hx|Hx].
  - apply vwrites_const; [by apply (home_key s v ∅ Hr)|].
    intros w Hw <-. by apply home_copies_val with (s := s).
  - rewrite vwrites_ne by (by rewrite (home_key s v ∅ Hr)). rewrite Hu by done.
    symmetry. by apply clean_block.
Qed.

(** After it: the new contents. *)
Lemma crash_after k :
  let d := dwrites d0 (log_writes s v 0 n ++ [(st, h)] ++ take k (home_copies s v)) in
  has_log st sz d ∧ ∀ x, ¬ in_log s x → recovered st (blocks d) x = v x.
Proof.
  intros d. destruct st_in_log as (Hin&Hst&_&_). destruct head_facts as (Hlen&Hhn&Hhb).
  destruct one_home as [H1a H1b]. pose proof (n_small s v ∅ Hr) as [_ Hnsz].
  assert (∀ x, x ∉ logged s → blocks d x = upd (vwrites (blocks d0) (log_writes s v 0 n)) st h x) as Hd.
  { intros x Hx. unfold d. rewrite blocks_dwrites, vwrites_app. simpl. apply vwrites_ne.
    by intros Hk%take_keys%(home_key s v ∅ Hr). }
  assert (∀ x, ¬ in_log s x → x ∉ logged s → blocks d x = blocks d0 x) as Hd'.
  { intros x Hx Hx'. rewrite Hd by done. rewrite fupd_off by (intros ->; done).
    apply vwrites_ne. intros Hk%(log_key s v ∅ Hr). apply Hx. unfold in_log. lia. }
  assert (blocks d st = h) as Ehd by (rewrite Hd by done; apply fupd_at).
  assert (∀ i, (i < n)%nat → blocks d (st + Z.of_nat i + 1) = v (blk s i)) as Hlb.
  { intros i Hi. rewrite Hd.
    - rewrite fupd_off by lia. by apply log_writes_lookup.
    - apply (logged_not_log s v ∅ Hr). unfold in_log. fold st. fold n in Hnsz. lia. }
  assert (hn (blocks d) st = n) as Ehn by (unfold hn; by rewrite Ehd, Hhn).
  assert (hdr_writes st (blocks d) = home_copies s v) as Ehw.
  { unfold hdr_writes, home_copies. rewrite Ehn, Ehd. apply list_fmap_ext. intros j i Hi.
    apply lookup_seq in Hi as [-> Hi]. simpl. by rewrite Hhb, Hlb by done. }
  split.
  - pose proof (ly_sb _ _ _ Hr) as [H1 H2 H3 H4 H5 _ _ _].
    split; rewrite ?(Hd' 1), ?Ehd, ?Ehn by done; try done.
    + unfold d. by rewrite disksize_dwrites.
    + unfold hdr_ok. rewrite Ehn, Ehd, Hhn. split; [apply (ly_n _ _ _ Hr)|]. intros i Hi.
      rewrite Hhb by done. unfold d. rewrite disksize_dwrites. by apply (ly_ok _ _ _ Hr).
    + intros i Hi. rewrite Hhb by done. by apply (ly_keep _ _ _ Hr).
  - intros x Hx. rewrite recovered_home by (intros ->; done). rewrite Ehw.
    apply home_installed. by apply Hd'.
Qed.

(** When all is done. *)
Lemma crash_done :
  let d := dwrites d0 (commit_writes s v) in
  has_log st sz d ∧ hdr_n (blocks d st) = 0 ∧ (∀ x, ¬ in_log s x → blocks d x = v x) ∧
  ∀ x, ¬ in_log s x → recovered st (blocks d) x = v x.
Proof.
  intros d. destruct st_in_log as (Hin&Hst&_&_). destruct head_facts as (Hlen&_&_).
  destruct one_home as [H1a H1b].
  assert (∀ x, blocks d x = upd (vwrites (upd (vwrites (blocks d0) (log_writes s v 0 n)) st h)
    (home_copies s v)) st (put32 h 0 0) x) as Hd.
  { intros x. unfold d, commit_writes. rewrite blocks_dwrites, !vwrites_app. done. }
  assert (∀ x, ¬ in_log s x → blocks d x = v x) as Hhome.
  { intros x Hx. rewrite Hd, fupd_off by (intros ->; done). apply home_installed. intros Hx'.
    rewrite fupd_off by (intros ->; done). apply vwrites_ne. intros Hk%(log_key s v ∅ Hr).
    apply Hx. unfold in_log. lia. }
  assert (hdr_n (blocks d st) = 0) as Hz.
  { rewrite Hd, fupd_at. apply hdr_n_zero. rewrite Hlen. unfold BSIZE. lia. }
  destruct (quiet_disk d) as [Hl He].
  - apply disksize_dwrites.
  - rewrite Hhome by done. by apply clean_block.
  - rewrite Hd, fupd_at, length_put32; rewrite ?Hlen; unfold BSIZE; lia.
  - done.
  - split_and!; [done|done|done|]. intros x Hx. by rewrite He, Hhome.
Qed.

Lemma commit_crash k :
  let d := dwrites d0 (take k (commit_writes s v)) in
  has_log st sz d ∧
  ((∀ x, ¬ in_log s x → recovered st (blocks d) x = blocks d0 x) ∨
   (∀ x, ¬ in_log s x → recovered st (blocks d) x = v x)).
Proof.
  unfold commit_writes. fold st n h. set (L := log_writes s v 0 n). set (H := home_copies s v).
  destruct (decide (k ≤ length L)%nat) as [Hk|Hk].
  { rewrite take_app_le by done. destruct (crash_before k). auto. }
  rewrite take_app_ge by lia. destruct (k - length L)%nat as [|k1] eqn:E1; [lia|].
  cbn [app take]. destruct (decide (k1 ≤ length H)%nat) as [Hk1|Hk1].
  { rewrite take_app_le by done. destruct (crash_after k1). auto. }
  rewrite (take_app_ge H) by lia. destruct (k1 - length H)%nat as [|k2] eqn:E2; [lia|].
  cbn [take app]. rewrite take_nil. destruct crash_done as (Hl&_&_&Hv).
  split; [exact Hl|right; exact Hv].
Qed.
End crash.

(** ** Operations inside a transaction *)

(** Nothing but the buffers and the logged blocks has changed. *)
Record same_log (s s' : lst) : Prop := {
  sa_start : l_start s' = l_start s;
  sa_size : l_size s' = l_size s;
  sa_out : outstanding s' = outstanding s;
  sa_com : committing s' = committing s;
  sa_disk : the_disk (l_bio s') = the_disk (l_bio s);
  sa_me : b_me (l_bio s') = b_me (l_bio s);
}.
#[export] Instance same_log_po : PreOrder same_log.
Proof.
  split; [by split|]. intros x y z [] []. split; congruence.
Qed.

Lemma log_rep_bio s v hold c v' hold' :
  log_rep s v hold → brep c v' (logged s) hold' → the_disk c = the_disk (l_bio s) →
  b_me c = b_me (l_bio s) →
  log_rep (on_bio (λ _, c) s) v' hold' ∧ same_log s (on_bio (λ _, c) s).
Proof.
  intros [[] ? ? ? ? Hok ? ?] Hb Ed Em. split; [|by split].
  split; cbn [l_bio on_bio l_start l_size lh_n]; rewrite ?Ed; try done.
  - split; cbn [l_dev l_start l_size on_bio l_bio lh_block]; rewrite ?Ed; done.
  - intros i Hi. cbn [l_bio on_bio]. rewrite Ed. by apply Hok.
Qed.

Section ops.
Context (s : lst) (v : view) (hold : holds) (Hr : log_rep s v hold).

Lemma log_bread_wp n :
  0 ≤ n < disksize (the_disk (l_bio s)) → (∀ i pid, hold !! i ≠ Some (n, pid)) →
  n ∈ logged s ∨ (length (logged s) + size hold < HEAD)%nat →
  wp (bio (bread 1 n)) (λ i s', hold !! i = None ∧ logged s' = logged s ∧
    log_rep s' v (<[i := (n, b_me (l_bio s))]> hold) ∧ same_log s s') s.
Proof.
  intros Hn Hh Hroom. apply wp_bio.
  eapply wp_mono; [by apply bread_wp; [apply (ly_bio _ _ _ Hr)|..]|].
  intros i c (?&Hb&Ed&Em&_). destruct (log_rep_bio _ _ _ c _ _ Hr Hb Ed Em). done.
Qed.
Lemma log_data_wp i n pid :
  hold !! i = Some (n, pid) → wp (bio (buf_data i)) (λ d s', d = v n ∧ s' = s) s.
Proof.
  intros Hi. apply wp_bio.
  eapply wp_mono; [by eapply buf_data_wp; [apply (ly_bio _ _ _ Hr)|]|].
  intros d c [-> ->]. split; [done|]. by destruct s.
Qed.
Lemma log_store_wp i n pid d :
  hold !! i = Some (n, pid) →
  wp (bio (buf_store i d)) (λ _ s', logged s' = logged s ∧
    log_rep s' (upd v n d) hold ∧ same_log s s') s.
Proof.
  intros Hi. apply wp_bio.
  eapply wp_mono; [by eapply buf_store_wp; [apply (ly_bio _ _ _ Hr)|]|].
  intros [] c (Hb&Ed&Em). by destruct (log_rep_bio _ _ _ c _ _ Hr Hb Ed Em).
Qed.
Lemma log_brelse_wp i n :
  hold !! i = Some (n, b_me (l_bio s)) →
  n ∈ logged s ∨ v n = blocks (the_disk (l_bio s)) n →
  wp (bio (brelse i)) (λ _ s', logged s' = logged s ∧
    log_rep s' v (delete i hold) ∧ same_log s s') s.
Proof.
  intros Hi Hc. apply wp_bio.
  eapply wp_mono; [by eapply brelse_wp; [apply (ly_bio _ _ _ Hr)|..]|].
  intros [] c (Hb&Ed&Em). by destruct (log_rep_bio _ _ _ c _ _ Hr Hb Ed Em).
Qed.

Lemma log_find_wp x m i :
  (i + m = nlogged s)%nat → x ∉ take i (logged s) →
  wp (log_find x m i) (λ j s', s' = s ∧
    ((j < nlogged s)%nat ∧ blk s j = x ∨ j = nlogged s ∧ x ∉ logged s)) s.
Proof.
  pose proof (length_logged s v hold Hr) as Hlen.
  revert i. induction m as [|m IH]; intros i Hi Hx; cbn [log_find].
  { apply wp_ret. split; [done|right]. split; [lia|].
    by rewrite take_ge in Hx by (rewrite Hlen; lia). }
  pose proof (logged_blk s v hold Hr i ltac:(lia)) as Hb.
  apply wp_bind, (wp_block_get _ _ _ (blk s i)).
  { unfold logged in Hb. by rewrite lookup_take_lt in Hb by lia. }
  rewrite (blk_u32 s (nlogged s) (ly_geom _ _ _ Hr) (ly_ok _ _ _ Hr)) by lia.
  destruct (Z.eqb_spec (blk s i) x) as [<-|Hne].
  { apply wp_ret. split; [done|left]. split; [lia|done]. }
  apply IH; [lia|]. rewrite (take_S_r _ _ _ Hb), elem_of_app, list_elem_of_singleton.
  intros [?|E]; congruence.
Qed.
End ops.

(** One more block in the log. *)
Lemma log_append s v hold c n :
  log_rep s v hold → n ∉ logged s → lh_n s < l_size s - 1 → ¬ in_log s n → n ≠ 1 →
  0 ≤ n < disksize (the_disk (l_bio s)) →
  brep c v (n :: logged s) hold → the_disk c = the_disk (l_bio s) → b_me c = b_me (l_bio s) →
  let s' := on_bio (λ _, c) (set_n (lh_n s +i 1) (set_block (<[nlogged s := n]>) s)) in
  log_rep s' v hold ∧ same_log s s' ∧ logged s' = logged s ++ [n].
Proof.
  intros [[Hdev Hst Hend Hlsz Hbl] Hsb Hb Hn Hnd Hok Hkeep He] Hnin Hsz Hlog H1 Hrng Hc Ed Em s'.
  assert (nlogged s < length (lh_block s))%nat as Hlt by (unfold nlogged; rewrite Hbl; lia).
  assert (lh_n s +i 1 = lh_n s + 1) as E1
    by (apply s32_id; unfold is_i32, LOGSIZE, MAXOPBLOCKS in *; lia).
  assert (nlogged s' = S (nlogged s)) as En.
  { unfold nlogged, s'. cbn [lh_n on_bio set_n]. rewrite E1. lia. }
  assert (logged s' = logged s ++ [n]) as El.
  { unfold logged. rewrite En. unfold s'. cbn [lh_block on_bio set_n set_block].
    rewrite (take_S_r _ _ n) by (by apply list_lookup_insert_eq). f_equal.
    apply take_insert_ge. lia. }
  assert (∀ i, (i < nlogged s')%nat → blk s' i = n ∨ (i < nlogged s)%nat ∧ blk s' i = blk s i) as Hblk.
  { intros i Hi. rewrite En in Hi. unfold blk, s'. cbn [lh_block on_bio set_n set_block].
    destruct (decide (i = nlogged s)) as [->|].
    - left. apply nth_lookup_Some. by apply list_lookup_insert_eq.
    - right. split; [lia|]. by rewrite !nth_lookup, list_lookup_insert_ne. }
  split_and!; [|by split|done]. split; unfold s'; cbn [l_bio on_bio l_start l_size lh_n set_n set_block].
  - split; cbn; rewrite ?Ed, ?length_insert; done.
  - by rewrite Ed.
  - fold s'. rewrite El. eapply brep_pin_ext; [exact Hc|]. intros m.
    rewrite elem_of_app, list_elem_of_singleton, elem_of_cons. tauto.
  - lia.
  - fold s'. rewrite El. apply NoDup_app. split_and!; [done| |apply NoDup_singleton].
    intros x Hx ->%list_elem_of_singleton. done.
  - fold s'. intros i Hi. change (the_disk (l_bio s')) with (the_disk c). rewrite Ed.
    change (in_log s' (blk s' i)) with (in_log s (blk s' i)).
    destruct (Hblk i Hi) as [->|[Hi' ->]]; [done|]. by apply Hok.
  - fold s'. intros i Hi. destruct (Hblk i Hi) as [->|[Hi' ->]]; auto.
  - by rewrite Ed.
Qed.

(** Recording the block of a buffer in use. *)
Lemma log_write_wp s v hold b n pid :
  log_rep s v hold → hold !! b = Some (n, pid) → ¬ in_log s n → n ≠ 1 →
  1 ≤ outstanding s → lh_n s < l_size s - 1 →
  wp (log_write b) (λ _ s', log_rep s' v hold ∧ same_log s s' ∧
    logged s' = (if decide (n ∈ logged s) then logged s else logged s ++ [n])) s.
Proof.
  intros Hr Hb Hn H1 Ho Hsz. pose proof (ly_n _ _ _ Hr) as Hn0.
  pose proof (ly_geom _ _ _ Hr) as [Hdev Hst Hend Hlsz Hbl].
  destruct (held_facts _ _ _ _ _ _ _ (ly_bio _ _ _ Hr) Hb) as (Hlt&_&Hbn&_&_&Hrng&_&_).
  pose proof (length_logged s v hold Hr) as Hlen.
  assert (l_size s -i 1 = l_size s - 1) as Esz
    by (apply s32_id; unfold is_i32, LOGSIZE, MAXOPBLOCKS in *; lia).
  unfold log_write. do 3 apply wp_bind, wp_gets. rewrite Esz.
  assert ((LOGSIZE <=? lh_n s) || (l_size s - 1 <=? lh_n s) = false) as ->.
  { apply orb_false_iff. split; apply Z.leb_gt; lia. }
  destruct (Z.ltb_spec (outstanding s) 1); [lia|].
  apply wp_bind, wp_bio, wp_buf_get; [rewrite (br_len _ _ _ _ (ly_bio _ _ _ Hr)); lia|].
  rewrite Hbn. replace (on_bio (λ _, l_bio s) s) with s by (by destruct s).
  apply wp_bind. eapply wp_mono.
  { apply (log_find_wp s v hold Hr n _ 0); [done|apply not_elem_of_nil]. }
  intros j s1 [-> Hj].
  assert (j < length (lh_block s))%nat as Hjl by (rewrite Hbl; unfold nlogged in Hj; lia).
  apply lookup_lt_is_Some in Hjl as [x Hx]. apply wp_bind. eapply (wp_intro _ _ _ tt).
  { unfold block_put. by rewrite Hx. }
  rewrite (s32_id n) by (unfold is_i32; lia). apply wp_bind. pose proof (buf_pin_wp _ _ _ _ _ _ _ (ly_bio _ _ _ Hr) Hb) as Hpin.
  destruct Hj as [[Hj Ej]|[-> Hnin]].
  - assert (n ∈ logged s) as Hin by (apply (logged_elem s v hold Hr); eauto).
    assert (<[j:=n]> (lh_block s) = lh_block s) as Eb.
    { apply list_insert_id. rewrite Hx. f_equal. rewrite <-Ej. symmetry. by apply nth_lookup_Some. }
    unfold set_block. rewrite Eb. destruct (Z.eqb_spec (Z.of_nat j) (lh_n s)); [unfold nlogged in Hj; lia|].
    apply wp_ret, wp_bio. cbn [l_bio]. eapply wp_mono; [exact Hpin|].
    intros [] c (Hc&Ed&Em). rewrite decide_True in * by done.
    destruct (log_rep_bio _ _ _ c _ _ Hr Hc Ed Em) as [H2 H3]. done.
  - unfold nlogged. rewrite Z2Nat.id by lia. rewrite Z.eqb_refl.
    apply wp_modify, wp_bio. cbn [l_bio set_n set_block]. eapply wp_mono; [exact Hpin|].
    intros [] c (Hc&Ed&Em). rewrite decide_False in * by done.
    by destruct (log_append s v hold c n) as (?&?&?).
Qed.

(** ** Atomicity *)

Lemma log_rep_flags s v hold o c :
  log_rep (set_committing c (set_outstanding o s)) v hold ↔ log_rep s v hold.
Proof. split; intros [[] ? ? ? ? ? ? ?]; (split; [by split|assumption..]). Qed.

(** After [commit] the log is ready for the next transaction. *)
Lemma commit_ready s v s' v' :
  log_rep s v ∅ → during (set_n 0 s) s' v' [] (commit_writes s v) →
  log_rep s' v' ∅ ∧ lh_n s' = 0 ∧
  ∀ x, ¬ in_log s x → v' x = v x ∧ blocks (the_disk (l_bio s')) x = v x.
Proof.
  intros Hr [Hb Hd Hm Hrest]. destruct (crash_done s v Hr) as (Hl&Hz&Hh&_).
  cbn [l_bio set_n] in Hd. rewrite <-Hd in Hl, Hz, Hh.
  assert (lh_n s' = 0 ∧ l_start s' = l_start s ∧ l_size s' = l_size s ∧ l_dev s' = l_dev s ∧
    lh_block s' = lh_block s) as (En&Est&Esz&Edv&Ebl) by (by rewrite Hrest).
  assert (nlogged s' = 0%nat) as E0 by (unfold nlogged; by rewrite En).
  assert (logged s' = []) as El by (unfold logged; by rewrite E0).
  assert (disksize (the_disk (l_bio s')) = disksize (the_disk (l_bio s))) as Eds
    by (rewrite Hd; apply disksize_dwrites).
  destruct (ly_geom _ _ _ Hr) as [H1 H2 H3 H4 H5]. split_and!; [|done|].
  - split; rewrite ?En, ?E0, ?El, ?Est, ?Esz; try done.
    + split; rewrite ?Est, ?Esz, ?Edv, ?Ebl, ?Eds; done.
    + lia.
    + apply NoDup_nil_2.
    + intros i Hi. lia.
    + intros i Hi. lia.
  - intros x Hx. rewrite Hh by done. split; [|done]. rewrite <-Hh by done.
    apply (br_disk _ _ _ _ Hb); [apply not_elem_of_nil|]. intros. by rewrite lookup_empty.
Qed.

(** The machine boots from [d] with the contents [c] outside the log. *)
Definition boots_to (s : lst) (me : Z) (d : disk) (c : view) : Prop :=
  wp boot (λ _ t, ∀ x, ¬ in_log s x → blocks (the_disk (l_bio t)) x = c x) (log0 d me).

Lemma boots_recovered s me d c :
  has_log (l_start s) (l_size s) d →
  (∀ x, ¬ in_log s x → recovered (l_start s) (blocks d) x = c x) → boots_to s me d c.
Proof.
  intros Hl Hc. eapply wp_mono; [by apply boot_wp|].
  intros [] t (v&n&bl&s0&_&_&_&_&_&_&Ed&_&[_ E _ _]) x Hx.
  cbn [l_bio set_n with_head set_block] in E. rewrite E, Ed, blocks_dwrites. by apply Hc.
Qed.

(** C2. Transactions are atomic.  The last [end_op] of a transaction returns
    with every logged block installed and the log empty.  If the machine stops
    after any number [k] of the disk writes it makes, and recovery is itself
    interrupted any number of times, the next boot returns with either every
    block outside the log as it was before the transaction, or every block as
    the transaction left it. *)
Theorem end_op_atomic s v me :
  log_rep s v ∅ → outstanding s = 1 → committing s = 0 →
  wp end_op (λ _ s', ∃ v' ws,
    log_rep s' v' ∅ ∧ outstanding s' = 0 ∧ committing s' = 0 ∧ lh_n s' = 0 ∧
    the_disk (l_bio s') = dwrites (the_disk (l_bio s)) ws ∧
    (∀ x, ¬ in_log s x → v' x = v x ∧ blocks (the_disk (l_bio s')) x = v x) ∧
    ∀ k d, rtc (crash_rec (l_start s)) (dwrites (the_disk (l_bio s)) (take k ws)) d →
      boots_to s me d (blocks (the_disk (l_bio s))) ∨ boots_to s me d v) s.
Proof.
  intros Hr Ho Hc. unfold end_op. apply wp_bind, wp_gets, wp_bind, wp_modify, wp_bind, wp_gets.
  cbn [committing set_outstanding]. rewrite Hc, Ho. change (1 -i 1) with 0. cbn [Z.eqb negb].
  apply wp_bind, wp_modify. set (s1 := set_committing 1 (set_outstanding 0 s)).
  assert (log_rep s1 v ∅) as Hr1 by (by apply log_rep_flags).
  assert (∀ k d, rtc (crash_rec (l_start s)) (dwrites (the_disk (l_bio s)) (take k (commit_writes s1 v))) d →
      boots_to s me d (blocks (the_disk (l_bio s))) ∨ boots_to s me d v) as Hcrash.
  { intros k d Hd. destruct (commit_crash s1 v Hr1 k) as [Hl Ho'].
    destruct (crashes_rec_same _ _ _ _ Hl Hd) as [Hl' E].
    destruct Ho' as [Hx|Hx]; [left|right]; (apply boots_recovered; [done|]);
      intros x Hin; (rewrite E by done); by apply Hx. }
  apply wp_bind. destruct (decide (0 < lh_n s)) as [Hpos|Hz].
  - eapply wp_mono; [by apply (commit_wp s1 v Hr1)|]. intros [] s2 [v' Hd].
    destruct (commit_ready s1 v s2 v' Hr1 Hd) as (Hr2&En&Hh).
    apply wp_modify. exists v', (commit_writes s1 v). destruct Hd as [_ Hdisk _ Hrest].
    split_and!; try done.
    + replace (set_committing 0 s2) with (set_committing 0 (set_outstanding (outstanding s2) s2))
        by (by destruct s2). by apply log_rep_flags.
    + cbn. by rewrite Hrest.
  - unfold commit. apply wp_bind, wp_gets, wp_when; [intros E%Z.ltb_lt; done|intros _].
    assert (lh_n s = 0) as Hn0 by (pose proof (ly_n _ _ _ Hr); lia).
    assert (logged s = []) as El by (unfold logged, nlogged; by rewrite Hn0).
    assert (∀ x, v x = blocks (the_disk (l_bio s)) x) as Hv.
    { intros x. apply (clean_block s v Hr). rewrite El. apply not_elem_of_nil. }
    apply wp_modify. exists v, []. split_and!; try done.
    + by apply (log_rep_flags s v ∅ 0 0).
    + intros k d. rewrite take_nil. intros Hd.
      destruct (crashes_rec_same _ _ _ _ (ly_sb _ _ _ Hr) Hd) as [Hl E].
      left. apply boots_recovered; [done|]. intros x Hx. rewrite E by done.
      rewrite recovered_home; [by rewrite hdr_writes_zero by apply (ly_empty _ _ _ Hr)|].
      intros ->. apply Hx. apply (st_in_log s v Hr).
Qed.

(** Booting leaves the log ready, with the recovered contents. *)
Lemma boot_ready st sz d me :
  has_log st sz d →
  wp boot (λ _ s, ∃ v, log_rep s v ∅ ∧ lh_n s = 0 ∧ outstanding s = 0 ∧ committing s = 0 ∧
    l_start s = st ∧ l_size s = sz ∧ b_me (l_bio s) = me ∧
    disksize (the_disk (l_bio s)) = disksize d ∧
    ∀ x, ¬ (st ≤ x < st + sz) → v x = recovered st (blocks d) x) (log0 d me).
Proof.
  intros Hl. eapply wp_mono; [by apply boot_wp|].
  intros [] s (v&n&bl&s0&Hbl&Hg&Ho&Hc&Hst&Hsz&Hd&Hm&[Hb Ed Em Hrest]).
  cbn [l_bio set_n with_head set_block] in Ed, Em. rewrite Hd in Ed.
  assert (lh_n s = 0 ∧ l_start s = st ∧ l_size s = sz ∧ l_dev s = l_dev s0 ∧ lh_block s = bl ∧
    outstanding s = 0 ∧ committing s = 0) as (En&Est&Esz&Edv&Ebl&Eo&Ec)
    by (by rewrite Hrest).
  assert (nlogged s = 0%nat) as E0 by (unfold nlogged; by rewrite En).
  assert (logged s = []) as El by (unfold logged; by rewrite E0).
  destruct (crash_rec_same st sz d (the_disk (l_bio s)) Hl) as [Hl' _].
  { exists (length (rec_writes st (blocks d))). by rewrite firstn_all. }
  assert (∀ x, v x = blocks (the_disk (l_bio s)) x) as Hv.
  { intros x. apply (br_disk _ _ _ _ Hb); [apply not_elem_of_nil|]. intros. by rewrite lookup_empty. }
  exists v. split_and!; try done; [|congruence|by rewrite Ed, disksize_dwrites|].
  - destruct Hg as [H1 H2 H3 H4 H5]. split; rewrite ?E0, ?El, ?En, ?Est, ?Esz; try done.
    + split; rewrite ?Est, ?Esz, ?Edv, ?Ebl, ?Ed, ?disksize_dwrites; try done; try lia.
      rewrite <-Hd. lia.
    + pose proof (hl_sz _ _ _ Hl). lia.
    + apply NoDup_nil_2.
    + intros i Hi. lia.
    + intros i Hi. lia.
    + rewrite Ed, blocks_dwrites. unfold rec_writes. rewrite vwrites_app. simpl. rewrite fupd_at.
      apply hdr_n_zero. rewrite (hl_head _ _ _ Hl). unfold BSIZE. lia.
  - intros x _. rewrite Hv, Ed, blocks_dwrites. done.
Qed.

Lemma begin_op_wp s :
  committing s = 0 → 0 ≤ lh_n s → 0 ≤ outstanding s →
  lh_n s + (outstanding s + 1) * MAXOPBLOCKS ≤ LOGSIZE →
  wp begin_op (λ _ s', s' = set_outstanding (outstanding s + 1) s) s.
Proof.
  intros Hc Hn Ho Hle. unfold begin_op. do 3 apply wp_bind, wp_gets. rewrite Hc.
  unfold MAXOPBLOCKS, LOGSIZE, MAXOPBLOCKS in *.
  rewrite (s32_id (outstanding s + 1)), (s32_id ((outstanding s + 1) * 10)), s32_id
    by (unfold is_i32; lia).
  cbn [Z.eqb negb]. destruct (Z.ltb_spec (10 * 3) (lh_n s + (outstanding s + 1) * 10)); [lia|].
  by apply wp_modify.
Qed.

(** ** Witnesses *)

(** A disk of 40 blocks with a log of 30 at block 2. *)
Definition demo_sb : list Z :=
  le32 40 ++ le32 5 ++ le32 8 ++ le32 30 ++ le32 2 ++ le32 32 ++ le32 34 ++ replicate 484 0.
Definition demo_fs : disk := Disk (λ n, if n =? 1 then demo_sb else replicate 512 0) 40 [].

Lemma demo_has_log : has_log 2 30 demo_fs.
Proof.
  split; [done|done|lia|unfold LOGSIZE, MAXOPBLOCKS; lia|cbn; lia|done| |].
  - split; [by vm_compute|]. intros i Hi. exfalso. vm_compute in Hi. lia.
  - intros i Hi. exfalso. vm_compute in Hi. lia.
Qed.

(** One transaction that writes block 35. *)
Definition demo_trans : M lst unit :=
  boot;;
  begin_op;;
  b ← bio (bread 1 35);
  bio (buf_store b (replicate 512 7));;
  log_write b;;
  bio (brelse b).

Lemma demo_trans_wp :
  wp demo_trans (λ _ s, ∃ v, log_rep s v ∅ ∧ outstanding s = 1 ∧ committing s = 0 ∧
    logged s = [35] ∧ v 35 = replicate 512 7) (log0 demo_fs 1).
Proof.
  unfold demo_trans. apply wp_bind. eapply wp_mono; [apply (boot_ready 2 30); exact demo_has_log|].
  intros [] s0 (v&Hr0&En&Eo&Ec&Est&Esz&Em&Eds&_). apply wp_bind.
  eapply wp_mono; [apply begin_op_wp; rewrite ?En, ?Eo; done|]. intros [] s1 ->. rewrite Eo.
  set (s1 := set_outstanding _ _).
  assert (log_rep s1 v ∅) as Hr1.
  { apply (log_rep_flags s1 v ∅ 0 0). by apply (log_rep_flags s0 v ∅ 0 0). }
  assert (logged s1 = []) as El by (unfold logged, nlogged; cbn; by rewrite En).
  apply wp_bind. eapply wp_mono.
  { apply (log_bread_wp s1 v ∅ Hr1 35).
    - change (the_disk (l_bio s1)) with (the_disk (l_bio s0)). rewrite Eds. cbn. lia.
    - intros. by rewrite lookup_empty.
    - right. rewrite El, map_size_empty. unfold HEAD. vm_compute. lia. }
  intros b s2 (_&El2&Hr2&Hs2). apply wp_bind. eapply wp_mono.
  { eapply (log_store_wp s2 _ _ Hr2); apply lookup_insert_eq. }
  intros [] s3 (El3&Hr3&Hs3). apply wp_bind. pose proof (transitivity Hs2 Hs3) as Hs13.
  assert (lh_n s3 = 0) as En3.
  { pose proof (length_logged _ _ _ Hr3) as H. rewrite El3, El2, El in H. simpl in H.
    pose proof (ly_n _ _ _ Hr3). unfold nlogged in H. lia. }
  eapply wp_mono.
  { eapply (log_write_wp s3 _ _ b 35); [exact Hr3|apply lookup_insert_eq| |lia| |].
    - unfold in_log. rewrite (sa_start _ _ Hs13), (sa_size _ _ Hs13). cbn. rewrite Est, Esz. lia.
    - rewrite (sa_out _ _ Hs13). cbn. lia.
    - rewrite En3, (sa_size _ _ Hs13). cbn. rewrite Esz. lia. }
  intros [] s4 (Hr4&Hs4&El4). rewrite decide_False in El4
    by (rewrite El3, El2, El; apply not_elem_of_nil).
  rewrite El3, El2, El in El4. pose proof (transitivity Hs13 Hs4) as Hs14.
  eapply wp_mono.
  { eapply (log_brelse_wp s4 _ _ Hr4 b 35).
    - rewrite (sa_me _ _ Hs14). apply lookup_insert_eq.
    - left. rewrite El4. left. }
  intros [] s5 (El5&Hr5&Hs5). rewrite delete_one in Hr5.
  pose proof (transitivity Hs14 Hs5) as Hs. eexists. split; [exact Hr5|].
  rewrite (sa_out _ _ Hs), (sa_com _ _ Hs), El5, El4, fupd_at. by split_and!.
Qed.

Lemma end_op_atomic_witness :
  ∃ s v, log_rep s v ∅ ∧ logged s = [35] ∧ wp end_op (λ _ s', ∃ v' ws,
    log_rep s' v' ∅ ∧ outstanding s' = 0 ∧ committing s' = 0 ∧ lh_n s' = 0 ∧
    the_disk (l_bio s') = dwrites (the_disk (l_bio s)) ws ∧
    (∀ x, ¬ in_log s x → v' x = v x ∧ blocks (the_disk (l_bio s')) x = v x) ∧
    ∀ k d, rtc (crash_rec (l_start s)) (dwrites (the_disk (l_bio s)) (take k ws)) d →
      boots_to s 1 d (blocks (the_disk (l_bio s))) ∨ boots_to s 1 d v) s.
Proof.
  destruct (wp_elim _ _ _ demo_trans_wp) as ([]&s&_&v&Hr&Ho&Hc&Hl&_).
  exists s, v. split; [exact Hr|]. split; [exact Hl|].
  exact (end_op_atomic s v 1 Hr Ho Hc).
Defined.

(** ** The reservation *)

(** Log [n] distinct blocks from [x] on, one after the other. *)
Fixpoint log_blocks (n : nat) (x : Z) : M lst unit :=
  match n with
  | O => mret tt
  | S n' => b ← bio (bread 1 x); log_write b;; bio (brelse b);; log_blocks n' (x + 1)
  end.
Definition three_ops (n : nat) : M lst unit :=
  boot;; begin_op;; begin_op;; begin_op;; log_blocks n 40.
Definition big_fs : disk := Disk (blocks demo_fs) 100 [].

(** The log is one block short of what [begin_op] promises: it admits
    three operations of [MAXOPBLOCKS] blocks each, which is [LOGSIZE] blocks,
    but with a log area of [LOGSIZE] blocks, one of them the header, their
    thirtieth block makes [log_write] panic. *)
Theorem log_reservation_short :
  3 * MAXOPBLOCKS = LOGSIZE ∧ nlog (decode_sb (blocks big_fs 1)) = LOGSIZE ∧
  is_fail (three_ops 29 (log0 big_fs 1)) = false ∧
  three_ops 30 (log0 big_fs 1) = Fail (Panic "too big a transaction").
Proof. split_and!; by vm_compute. Qed.
