(* ===== verification/Fs.v ===== *)
(** * The file system: [fs.c], [fs.h], [file.h], [stat.h]

    Blocks, inodes, directories and path names, over an interface [BlockOps]
    to the buffer cache and the log.  The interface is implemented by
    [Log.v] over [Bio.v] (see [BlockLaws.v]).

    The state holds the superblock, the inode cache, the pid and the current
    directory of the running process, and the state of the block layer.  An
    inode pointer is an index in the cache.  A function that would wait for a
    lock held by another process ends in [Blocked].  Data copied out of the
    file system ([dst] of [readi]) is returned, data copied in is a list of
    bytes. *)

From S2P Require Import Prelude Params CString Cprintf Sleeplock Blocks Log.

(** What [fs.c] and [file.c] use of [bio.c] and [log.c]; buffers are named by
    their index. *)
Class BlockOps (B : Type) := {
  bread : Z → Z → M B nat;
  bdata : nat → M B (list Z);
  bstore : nat → list Z → M B unit;
  log_write : nat → M B unit;
  brelse : nat → M B unit;
  begin_op : M B unit;
  end_op : M B unit;
}.

Record inode := Inode {
  i_dev : Z;
  i_inum : Z;
  i_ref : Z;
  i_lock : sleeplock;
  i_valid : Z;
  i_type : Z;
  i_major : Z;
  i_minor : Z;
  i_nlink : Z;
  i_size : Z;
  i_addrs : list Z;
}.
Definition set_ref v i := Inode (i_dev i) (i_inum i) v (i_lock i) (i_valid i) (i_type i) (i_major i) (i_minor i) (i_nlink i) (i_size i) (i_addrs i).
Definition set_ilock v i := Inode (i_dev i) (i_inum i) (i_ref i) v (i_valid i) (i_type i) (i_major i) (i_minor i) (i_nlink i) (i_size i) (i_addrs i).
Definition set_valid v i := Inode (i_dev i) (i_inum i) (i_ref i) (i_lock i) v (i_type i) (i_major i) (i_minor i) (i_nlink i) (i_size i) (i_addrs i).
Definition set_type v i := Inode (i_dev i) (i_inum i) (i_ref i) (i_lock i) (i_valid i) v (i_major i) (i_minor i) (i_nlink i) (i_size i) (i_addrs i).
Definition set_majmin a b i := Inode (i_dev i) (i_inum i) (i_ref i) (i_lock i) (i_valid i) (i_type i) a b (i_nlink i) (i_size i) (i_addrs i).
Definition set_nlink v i := Inode (i_dev i) (i_inum i) (i_ref i) (i_lock i) (i_valid i) (i_type i) (i_major i) (i_minor i) v (i_size i) (i_addrs i).
Definition set_size v i := Inode (i_dev i) (i_inum i) (i_ref i) (i_lock i) (i_valid i) (i_type i) (i_major i) (i_minor i) (i_nlink i) v (i_addrs i).
Definition set_addrs v i := Inode (i_dev i) (i_inum i) (i_ref i) (i_lock i) (i_valid i) (i_type i) (i_major i) (i_minor i) (i_nlink i) (i_size i) v.

Record fss (B : Type) := Fss {
  f_blk : B;
  f_sb : superblock;
  icache : list inode;
  f_me : Z;                     (* myproc()->pid *)
  f_cwd : option nat;           (* myproc()->cwd *)
  f_out : list Z;               (* characters printed by iinit *)
}.
Arguments Fss {B}.
Arguments f_blk {B}.
Arguments f_sb {B}.
Arguments icache {B}.
Arguments f_me {B}.
Arguments f_cwd {B}.
Arguments f_out {B}.

Definition on_blk {B} (f : B → B) (s : fss B) : fss B :=
  Fss (f (f_blk s)) (f_sb s) (icache s) (f_me s) (f_cwd s) (f_out s).
Definition set_sb {B} (v : superblock) (s : fss B) : fss B :=
  Fss (f_blk s) v (icache s) (f_me s) (f_cwd s) (f_out s).
Definition on_icache {B} (f : list inode → list inode) (s : fss B) : fss B :=
  Fss (f_blk s) (f_sb s) (f (icache s)) (f_me s) (f_cwd s) (f_out s).
Definition on_out {B} (f : list Z → list Z) (s : fss B) : fss B :=
  Fss (f_blk s) (f_sb s) (icache s) (f_me s) (f_cwd s) (f (f_out s)).

Record fstat := Stat { st_type : Z; st_dev : Z; st_ino : Z; st_nlink : Z; st_size : Z }.

(** ** On-disk structures *)

Definition sizeof_dinode : Z := 64.
Definition sizeof_dirent : Z := 16.
Definition IBLOCK (i : Z) (sb : superblock) : Z := i / IPB +u inodestart sb.
Definition BBLOCK (b : Z) (sb : superblock) : Z := b / BPB +u bmapstart sb.

(** The array of thirteen block addresses from offset [off] on. *)
Definition get_addrs (d : list Z) (off : Z) : list Z :=
  (λ k, get32 d (off + 4 * Z.of_nat k)) <$> seq 0 13.
Definition put_addrs (d : list Z) (off : Z) (a : list Z) : list Z :=
  splice (Z.to_nat off) (a ≫= le32) d.

(** The fields of the [dinode] at offset [off] of a block, and back. *)
Definition dinode_type (d : list Z) (off : Z) : Z := s16 (get16 d off).
Definition load_dinode (d : list Z) (off : Z) (ip : inode) : inode :=
  set_addrs (get_addrs d (off + 12))
    (set_size (get32 d (off + 8))
      (set_nlink (s16 (get16 d (off + 6)))
        (set_majmin (s16 (get16 d (off + 2))) (s16 (get16 d (off + 4)))
          (set_type (dinode_type d off) ip)))).
Definition store_dinode (d : list Z) (off : Z) (ip : inode) : list Z :=
  put_addrs
    (put32 (put16 (put16 (put16 (put16 d off (i_type ip)) (off + 2) (i_major ip))
      (off + 4) (i_minor ip)) (off + 6) (i_nlink ip)) (off + 8) (i_size ip))
    (off + 12) (i_addrs ip).

Definition zero_block : list Z := replicate (Z.to_nat BSIZE) 0.

Section fs.
Context {B : Type} `{!BlockOps B}.
Abbreviation FM := (M (fss B)).

(** Device switch: the [read] and [write] functions of a major number. *)
Record devops := DevOps {
  dev_read : option (nat → Z → FM (Z * list Z));
  dev_write : option (nat → list Z → Z → FM Z);
}.
Context (devsw : Z → devops).

Definition blk {A} (m : M B A) : FM A := λ s,
  match m (f_blk s) with
  | Ok a b => Ok a (on_blk (λ _, b) s)
  | Fail f => Fail f
  end.

Definition inode_get (i : nat) : FM inode := λ s,
  match icache s !! i with Some ip => Ok ip s | None => Fail (Undef "icache index") end.
Definition inode_upd (i : nat) (f : inode → inode) : FM unit := λ s,
  match icache s !! i with
  | Some ip => Ok tt (on_icache (<[i := f ip]>) s)
  | None => Fail (Undef "icache index")
  end.

(** ** Blocks *)

Definition readsb (dev : Z) : FM superblock :=
  bp ← blk (bread dev 1);
  d ← blk (bdata bp);
  blk (brelse bp);;
  mret (decode_sb d).

Definition bzero (dev bno : Z) : FM unit :=
  bp ← blk (bread dev bno);
  blk (bstore bp zero_block);;
  blk (log_write bp);;
  blk (brelse bp).

(** The byte and the mask of bit [bi] of a bitmap block. *)
Definition bit_of (d : list Z) (bi : Z) : Z := Z.land (byte_at d (bi / 8)) (Z.shiftl 1 (bi mod 8)).
Definition set_bit (d : list Z) (bi : Z) : list Z :=
  <[Z.to_nat (bi / 8) := Z.lor (byte_at d (bi / 8)) (Z.shiftl 1 (bi mod 8))]> d.
Definition clear_bit (d : list Z) (bi : Z) : list Z :=
  <[Z.to_nat (bi / 8) := Z.ldiff (byte_at d (bi / 8)) (Z.shiftl 1 (bi mod 8))]> d.

(** The inner loop of [balloc]: the first free bit from [bi] on. *)
Fixpoint balloc_scan (d : list Z) (size b : Z) (n : nat) (bi : Z) : option Z :=
  match n with
  | O => None
  | S n' =>
      if b + bi <? size then
        if bit_of d bi =? 0 then Some bi else balloc_scan d size b n' (bi + 1)
      else None
  end.
Fixpoint balloc_loop (dev : Z) (fuel : nat) (b : Z) : FM Z :=
  match fuel with
  | O => fail OutOfFuel
  | S f =>
      sb ← gets f_sb;
      if b <? sb_size sb then
        bp ← blk (bread dev (BBLOCK b sb));
        d ← blk (bdata bp);
        match balloc_scan d (sb_size sb) b (Z.to_nat BPB) 0 with
        | Some bi =>
            blk (bstore bp (set_bit d bi));;
            blk (log_write bp);;
            blk (brelse bp);;
            bzero dev (b + bi);;
            mret (b + bi)
        | None =>
            blk (brelse bp);;
            balloc_loop dev f (b + BPB)
        end
      else panic "balloc: out of blocks"
  end.
(** At most [2^32 / BPB] bitmap blocks. *)
Definition balloc (dev : Z) : FM Z :=
  sb ← gets f_sb;
  balloc_loop dev (Z.to_nat (sb_size sb / BPB) + 2) 0.

Definition bfree (dev b : Z) : FM unit :=
  sb ← gets f_sb;
  bp ← blk (bread dev (BBLOCK b sb));
  d ← blk (bdata bp);
  let bi := b mod BPB in
  if bit_of d bi =? 0 then panic "freeing free block"
  else
    blk (bstore bp (clear_bit d bi));;
    blk (log_write bp);;
    blk (brelse bp).

(** ** Inodes *)

Definition iinit (dev : Z) : FM unit :=
  modify (on_icache (fmap (set_ilock initsleeplock)));;
  sb ← readsb dev;
  modify (set_sb sb);;
  match cprintf (lit "sb: size %d nblocks %d ninodes %d nlog %d logstart %d inodestart %d bmap start %d\n")
      [AInt (sb_size sb); AInt (nblocks sb); AInt (ninodes sb); AInt (nlog sb); AInt (logstart sb);
       AInt (inodestart sb); AInt (bmapstart sb)] with
  | Some out => modify (on_out (λ o, (o ++ out)%list))
  | None => fail (Undef "cprintf argument")
  end.

(** [iget]'s loop: a cached entry for the inode, or the first free slot. *)
Definition is_cached (dev inum : Z) (ip : inode) : Prop :=
  0 < i_ref ip ∧ i_dev ip = dev ∧ i_inum ip = inum.
#[global] Instance is_cached_dec dev inum ip : Decision (is_cached dev inum ip).
Proof. unfold is_cached. apply _. Defined.
Definition iget (dev inum : Z) : FM nat :=
  l ← gets icache;
  match list_find (is_cached dev inum) l with
  | Some (i, _) =>
      inode_upd i (λ ip, set_ref (i_ref ip +i 1) ip);;
      mret i
  | None =>
      match list_find (λ ip, i_ref ip = 0) l with
      | None => panic "iget: no inodes"
      | Some (i, _) =>
          inode_upd i (λ ip, Inode dev inum 1 (i_lock ip) 0 (i_type ip) (i_major ip) (i_minor ip)
            (i_nlink ip) (i_size ip) (i_addrs ip));;
          mret i
      end
  end.

Fixpoint ialloc_loop (dev type : Z) (n : nat) (inum : Z) : FM nat :=
  match n with
  | O => panic "ialloc: no inodes"
  | S n' =>
      sb ← gets f_sb;
      bp ← blk (bread dev (IBLOCK inum sb));
      d ← blk (bdata bp);
      let off := inum mod IPB * sizeof_dinode in
      if dinode_type d off =? 0 then
        blk (bstore bp (put16 (splice (Z.to_nat off) (replicate (Z.to_nat sizeof_dinode) 0) d) off type));;
        blk (log_write bp);;
        blk (brelse bp);;
        iget dev inum
      else
        blk (brelse bp);;
        ialloc_loop dev type n' (inum + 1)
  end.
Definition ialloc (dev type : Z) : FM nat :=
  sb ← gets f_sb;
  ialloc_loop dev type (Z.to_nat (ninodes sb - 1)) 1.

Definition iupdate (i : nat) : FM unit :=
  ip ← inode_get i;
  sb ← gets f_sb;
  bp ← blk (bread (i_dev ip) (IBLOCK (i_inum ip) sb));
  d ← blk (bdata bp);
  blk (bstore bp (store_dinode d (i_inum ip mod IPB * sizeof_dinode) ip));;
  blk (log_write bp);;
  blk (brelse bp).

Definition idup (i : nat) : FM nat :=
  inode_upd i (λ ip, set_ref (i_ref ip +i 1) ip);;
  mret i.

(** [acquiresleep] and [releasesleep] on the lock of an inode. *)
Definition ilk_acquire (i : nat) : FM unit :=
  ip ← inode_get i;
  me ← gets f_me;
  match acquiresleep me (i_lock ip) with
  | Some lk => inode_upd i (set_ilock lk)
  | None => fail (Blocked "inode")
  end.
Definition ilk_release (i : nat) : FM unit := inode_upd i (λ ip, set_ilock (releasesleep (i_lock ip)) ip).

Definition ilock (o : option nat) : FM unit :=
  match o with
  | None => panic "ilock"
  | Some i =>
      ip ← inode_get i;
      if i_ref ip <? 1 then panic "ilock"
      else
        ilk_acquire i;;
        ip ← inode_get i;
        if i_valid ip =? 0 then
          sb ← gets f_sb;
          bp ← blk (bread (i_dev ip) (IBLOCK (i_inum ip) sb));
          d ← blk (bdata bp);
          inode_upd i (load_dinode d (i_inum ip mod IPB * sizeof_dinode));;
          blk (brelse bp);;
          inode_upd i (set_valid 1);;
          ip ← inode_get i;
          if i_type ip =? 0 then panic "ilock: no type" else mret tt
        else mret tt
  end.

Definition iunlock (o : option nat) : FM unit :=
  match o with
  | None => panic "iunlock"
  | Some i =>
      ip ← inode_get i;
      me ← gets f_me;
      if negb (holdingsleep me (i_lock ip)) || (i_ref ip <? 1) then panic "iunlock"
      else ilk_release i
  end.

(** ** Contents *)

Definition addr_get (i : nat) (k : Z) : FM Z :=
  ip ← inode_get i;
  of_option (Undef "addrs index") (i_addrs ip !! Z.to_nat k).
Definition addr_put (i : nat) (k v : Z) : FM unit :=
  inode_upd i (λ ip, set_addrs (<[Z.to_nat k := v]> (i_addrs ip)) ip).

Definition bmap (i : nat) (bn : Z) : FM Z :=
  if bn <? NDIRECT then
    addr ← addr_get i bn;
    if addr =? 0 then
      ip ← inode_get i;
      a ← balloc (i_dev ip);
      addr_put i bn a;;
      mret a
    else mret addr
  else
    let bn := bn - NDIRECT in
    if bn <? NINDIRECT then
      addr ← addr_get i NDIRECT;
      ip ← inode_get i;
      addr ←
        (if addr =? 0 then
           a ← balloc (i_dev ip);
           addr_put i NDIRECT a;;
           mret a
         else mret addr);
      bp ← blk (bread (i_dev ip) addr);
      d ← blk (bdata bp);
      let addr := get32 d (4 * bn) in
      addr ←
        (if addr =? 0 then
           a ← balloc (i_dev ip);
           d ← blk (bdata bp);
           blk (bstore bp (put32 d (4 * bn) a));;
           blk (log_write bp);;
           mret a
         else mret addr);
      blk (brelse bp);;
      mret addr
    else panic "bmap: out of range".

Fixpoint itrunc_direct (i : nat) (n : nat) (k : Z) : FM unit :=
  match n with
  | O => mret tt
  | S n' =>
      a ← addr_get i k;
      when (negb (a =? 0))
        (ip ← inode_get i;
         bfree (i_dev ip) a;;
         addr_put i k 0);;
      itrunc_direct i n' (k + 1)
  end.
Fixpoint itrunc_indirect (dev : Z) (d : list Z) (n : nat) (j : Z) : FM unit :=
  match n with
  | O => mret tt
  | S n' =>
      let a := get32 d (4 * j) in
      when (negb (a =? 0)) (bfree dev a);;
      itrunc_indirect dev d n' (j + 1)
  end.
Definition itrunc (i : nat) : FM unit :=
  itrunc_direct i (Z.to_nat NDIRECT) 0;;
  a ← addr_get i NDIRECT;
  when (negb (a =? 0))
    (ip ← inode_get i;
     bp ← blk (bread (i_dev ip) a);
     d ← blk (bdata bp);
     itrunc_indirect (i_dev ip) d (Z.to_nat NINDIRECT) 0;;
     blk (brelse bp);;
     bfree (i_dev ip) a;;
     addr_put i NDIRECT 0);;
  inode_upd i (set_size 0);;
  iupdate i.

Definition iput (i : nat) : FM unit :=
  ilk_acquire i;;
  ip ← inode_get i;
  when (negb (i_valid ip =? 0) && (i_nlink ip =? 0))
    (when (i_ref ip =? 1)
       (itrunc i;;
        inode_upd i (set_type 0);;
        iupdate i;;
        inode_upd i (set_valid 0)));;
  ilk_release i;;
  inode_upd i (λ ip, set_ref (i_ref ip -i 1) ip).

Definition iunlockput (i : nat) : FM unit := iunlock (Some i);; iput i.

Definition stati (i : nat) : FM fstat :=
  ip ← inode_get i;
  mret (Stat (i_type ip) (s32 (i_dev ip)) (i_inum ip) (i_nlink ip) (i_size ip)).

(** The copy loop of [readi]; an iteration copies at least one byte. *)
Fixpoint readi_loop (i : nat) (fuel : nat) (tot off n : Z) : FM (list Z) :=
  match fuel with
  | O => fail OutOfFuel
  | S f =>
      if tot <? n then
        ip ← inode_get i;
        a ← bmap i (off / BSIZE);
        bp ← blk (bread (i_dev ip) a);
        d ← blk (bdata bp);
        let m := Z.min (n - tot) (BSIZE - off mod BSIZE) in
        let part := take (Z.to_nat m) (drop (Z.to_nat (off mod BSIZE)) d) in
        blk (brelse bp);;
        rest ← readi_loop i f (tot + m) (off + m) n;
        mret (part ++ rest)
      else mret []
  end.
(** The result is the return value and the bytes stored at [dst]. *)
Definition readi (i : nat) (off n : Z) : FM (Z * list Z) :=
  ip ← inode_get i;
  if i_type ip =? T_DEV then
    if (i_major ip <? 0) || (NDEV <=? i_major ip) then mret (-1, [])
    else match dev_read (devsw (i_major ip)) with
         | None => mret (-1, [])
         | Some read => read i (s32 n)
         end
  else if (i_size ip <? off) || (off +u n <? off) then mret (-1, [])
  else
    let n := if i_size ip <? off +u n then i_size ip - off else n in
    l ← readi_loop i (Z.to_nat n + 1) 0 off n;
    mret (s32 n, l).

(** The copy loop of [writei]: the final offset. *)
Fixpoint writei_loop (i : nat) (fuel : nat) (src : list Z) (tot off n : Z) : FM Z :=
  match fuel with
  | O => fail OutOfFuel
  | S f =>
      if tot <? n then
        ip ← inode_get i;
        a ← bmap i (off / BSIZE);
        bp ← blk (bread (i_dev ip) a);
        d ← blk (bdata bp);
        let m := Z.min (n - tot) (BSIZE - off mod BSIZE) in
        blk (bstore bp (splice (Z.to_nat (off mod BSIZE)) (take (Z.to_nat m) src) d));;
        blk (log_write bp);;
        blk (brelse bp);;
        writei_loop i f (drop (Z.to_nat m) src) (tot + m) (off + m) n
      else mret off
  end.
Definition writei (i : nat) (src : list Z) (off n : Z) : FM Z :=
  ip ← inode_get i;
  if i_type ip =? T_DEV then
    if (i_major ip <? 0) || (NDEV <=? i_major ip) then mret (-1)
    else match dev_write (devsw (i_major ip)) with
         | None => mret (-1)
         | Some write => write i src (s32 n)
         end
  else if (i_size ip <? off) || (off +u n <? off) then mret (-1)
  else if MAXFILE * BSIZE <? off +u n then mret (-1)
  else
    off ← writei_loop i (Z.to_nat n + 1) src 0 off n;
    ip ← inode_get i;
    when ((0 <? n) && (i_size ip <? off))
      (inode_upd i (set_size off);; iupdate i);;
    mret (s32 n).

(** ** Directories *)

Definition dirent_inum (de : list Z) : Z := get16 de 0.
Definition dirent_name (de : list Z) : list Z := drop 2 de.

(** [strncmp(s, t, DIRSIZ)] on two buffers of at least [DIRSIZ] bytes, or
    shorter ones that are NUL-terminated. *)
Definition namecmp (s t : list Z) : Z :=
  let m : mem := λ a, if a <? 16 then byte_at s a else byte_at t (a - 16) in
  strncmp m 0 16 DIRSIZ.

Fixpoint dirlookup_loop (i : nat) (name : list Z) (fuel : nat) (off : Z) : FM (option (nat * Z)) :=
  match fuel with
  | O => fail OutOfFuel
  | S f =>
      dp ← inode_get i;
      if off <? i_size dp then
        '(r, de) ← readi i off sizeof_dirent;
        if negb (r =? sizeof_dirent) then panic "dirlookup read"
        else if dirent_inum de =? 0 then dirlookup_loop i name f (off +u sizeof_dirent)
        else if namecmp name (dirent_name de) =? 0 then
          ip ← iget (i_dev dp) (dirent_inum de);
          mret (Some (ip, off))
        else dirlookup_loop i name f (off +u sizeof_dirent)
      else mret None
  end.
(** The inode and the offset of the entry ([*poff]). *)
Definition dirlookup (i : nat) (name : list Z) : FM (option (nat * Z)) :=
  dp ← inode_get i;
  if negb (i_type dp =? T_DIR) then panic "dirlookup not DIR"
  else dirlookup_loop i name (Z.to_nat (i_size dp / sizeof_dirent) + 2) 0.

(** The search of [dirlink] for an empty entry: its offset, or the size. *)
Fixpoint dirlink_loop (i : nat) (fuel : nat) (off : Z) : FM Z :=
  match fuel with
  | O => fail OutOfFuel
  | S f =>
      dp ← inode_get i;
      if off <? i_size dp then
        '(r, de) ← readi i off sizeof_dirent;
        if negb (r =? sizeof_dirent) then panic "dirlink read"
        else if dirent_inum de =? 0 then mret off
        else dirlink_loop i f (off + sizeof_dirent)
      else mret off
  end.
(** [strncpy(de.name, name, DIRSIZ)]: cut and padded with NULs. *)
Definition strncpy_name (name : list Z) : list Z :=
  let m : mem := λ a, if a <? 16 then 0 else byte_at name (a - 16) in
  bytes_at (strncpy m 0 16 DIRSIZ) 0 (Z.to_nat DIRSIZ).
Definition dirlink (i : nat) (name : list Z) (inum : Z) : FM Z :=
  o ← dirlookup i name;
  match o with
  | Some (ip, _) => iput ip;; mret (-1)
  | None =>
      dp ← inode_get i;
      off ← dirlink_loop i (Z.to_nat (i_size dp / sizeof_dirent) + 2) 0;
      r ← writei i (le16 inum ++ strncpy_name name) off sizeof_dirent;
      if negb (r =? sizeof_dirent) then panic "dirlink" else mret 0
  end.
(** ** Paths *)

Definition SLASH : Z := 47.

Fixpoint skip_slashes (path : list Z) : list Z :=
  match path with
  | c :: p => if c =? SLASH then skip_slashes p else path
  | [] => []
  end.
(** The element at the head of the path and what follows it. *)
Fixpoint take_elem (path : list Z) : list Z * list Z :=
  match path with
  | c :: p => if c =? SLASH then ([], path) else let '(e, r) := take_elem p in (c :: e, r)
  | [] => ([], [])
  end.
(** [skipelem] on a NUL-terminated path, given as its characters; [name] is
    the contents of the buffer of [DIRSIZ] bytes it copies the element to. *)
Definition skipelem (path name : list Z) : option (list Z * list Z) :=
  match skip_slashes path with
  | [] => None
  | s =>
      let '(e, rest) := take_elem s in
      let len := Z.of_nat (length e) in
      let name' :=
        if DIRSIZ <=? len then splice 0 (take (Z.to_nat DIRSIZ) e) name
        else splice 0 (e ++ [0]) name in
      Some (skip_slashes rest, name')
  end.

Fixpoint namex_loop (nameiparent : bool) (fuel : nat) (ip : nat) (path name : list Z) :
    FM (option nat * list Z) :=
  match fuel with
  | O => fail OutOfFuel
  | S f =>
      match skipelem path name with
      | None =>
          if nameiparent then iput ip;; mret (None, name)
          else mret (Some ip, name)
      | Some (path, name) =>
          ilock (Some ip);;
          n ← inode_get ip;
          if negb (i_type n =? T_DIR) then
            iunlockput ip;;
            mret (None, name)
          else if nameiparent && (match path with [] => true | _ => false end) then
            iunlock (Some ip);;
            mret (Some ip, name)
          else
            o ← dirlookup ip name;
            match o with
            | None =>
                iunlockput ip;;
                mret (None, name)
            | Some (next, _) =>
                iunlockput ip;;
                namex_loop nameiparent f next path name
            end
      end
  end.
(** The inode found and the final contents of [name]. *)
Definition namex (path : list Z) (nameiparent : bool) (name : list Z) : FM (option nat * list Z) :=
  ip ←
    (match path with
     | c :: _ =>
         if c =? SLASH then iget ROOTDEV ROOTINO
         else cwd ← gets f_cwd; cwd ← of_option (Undef "null inode") cwd; idup cwd
     | [] => cwd ← gets f_cwd; cwd ← of_option (Undef "null inode") cwd; idup cwd
     end);
  namex_loop nameiparent (length path + 1) ip path name.
Definition namei (path : list Z) : FM (option nat) :=
  '(o, _) ← namex path false (replicate (Z.to_nat DIRSIZ) 0);
  mret o.
Definition nameiparent (path name : list Z) : FM (option nat * list Z) := namex path true name.
End fs.
