(* ===== verification/BlockLaws.v ===== *)
(** * What the block layer promises to the file system

    [BlockLaws] states the laws of the operations of [BlockOps], within a
    transaction or, for reading, without one, in terms of the contents [v] of
    all blocks, their contents [base] at the last commit, the blocks [lg] logged so far and the buffers
    [hold] in use.  The log over the buffer cache satisfies them
    ([log_laws]); the file system's theorems use nothing else. *)

From S2P Require Import Prelude Params Sleeplock Blocks Bio Log LogThms Fs.

(** Number of blocks, and the log area.  An empty log area stands for being
    outside of a transaction, where blocks can be read but not logged. *)
Record bgeo := BGeo { g_size : Z; g_start : Z; g_nlog : Z }.
(** Blocks that may be logged. *)
Definition home (g : bgeo) (n : Z) : Prop :=
  0 ≤ n < g_size g ∧ ¬ (g_start g ≤ n < g_start g + g_nlog g) ∧ n ≠ 1.

Definition add_log (lg : list Z) (n : Z) : list Z := if decide (n ∈ lg) then lg else lg ++ [n].

Class BlockLaws (B : Type) `{!BlockOps B} := {
  rel : bgeo → B → view → view → list Z → gmap nat Z → Prop;
  bl_read g s v base lg hold n :
    rel g s v base lg hold → 0 ≤ n < g_size g → (∀ i, hold !! i ≠ Some n) →
    n ∈ lg ∨ (length lg + size hold < Z.to_nat NBUF)%nat →
    wp (bread 1 n) (λ i s', hold !! i = None ∧ rel g s' v base lg (<[i := n]> hold)) s;
  bl_data g s v base lg hold i n :
    rel g s v base lg hold → hold !! i = Some n →
    wp (bdata i) (λ d s', d = v n ∧ s' = s) s;
  bl_store g s v base lg hold i n d :
    rel g s v base lg hold → hold !! i = Some n →
    wp (bstore i d) (λ _ s', rel g s' (upd v n d) base lg hold) s;
  bl_log g s v base lg hold i n :
    rel g s v base lg hold → hold !! i = Some n → home g n →
    Z.of_nat (length lg) < g_nlog g - 1 →
    wp (log_write i) (λ _ s', rel g s' v base (add_log lg n) hold) s;
  bl_relse g s v base lg hold i n :
    rel g s v base lg hold → hold !! i = Some n → n ∈ lg ∨ v n = base n →
    wp (brelse i) (λ _ s', rel g s' v base lg (delete i hold)) s;
  bl_clean g s v base lg hold n :
    rel g s v base lg hold → n ∉ lg → (∀ i, hold !! i ≠ Some n) → v n = base n;
}.

(** ** The log over the buffer cache *)

#[export] Instance log_ops : BlockOps lst := {
  Fs.bread := λ d n, bio (Bio.bread d n);
  Fs.bdata := λ i, bio (buf_data i);
  Fs.bstore := λ i d, bio (buf_store i d);
  Fs.log_write := Log.log_write;
  Fs.brelse := λ i, bio (Bio.brelse i);
  Fs.begin_op := Log.begin_op;
  Fs.end_op := Log.end_op;
}.

Record log_rel (g : bgeo) (s : lst) (v base : view) (lg : list Z) (hold : gmap nat Z) : Prop := {
  lr_rep : log_rep s v ((λ n, (n, b_me (l_bio s))) <$> hold);
  lr_lg : logged s = lg;
  lr_base n : blocks (the_disk (l_bio s)) n = base n;
  lr_size : disksize (the_disk (l_bio s)) = g_size g;
  lr_start : l_start s = g_start g;
  lr_tx : g_nlog g ≠ 0 → 1 ≤ outstanding s ∧ l_size s = g_nlog g;
}.

Lemma log_rel_same g s v base lg hold s' v' lg' hold' :
  log_rel g s v base lg hold → same_log s s' → logged s' = lg' →
  log_rep s' v' ((λ n, (n, b_me (l_bio s))) <$> hold') → log_rel g s' v' base lg' hold'.
Proof.
  intros [] [E1 E2 E3 E4 Ed Em] Hl Hr. split; try congruence; [by rewrite Em|].
  by rewrite E2, E3.
Qed.

Lemma lookup_holds (hold : gmap nat Z) (pid : Z) i n :
  hold !! i = Some n → ((λ n, (n, pid)) <$> hold) !! i = Some (n, pid).
Proof. intros Hi. by rewrite lookup_fmap, Hi. Qed.
Lemma not_holds (hold : gmap nat Z) (pid : Z) n :
  (∀ i, hold !! i ≠ Some n) → ∀ i q, ((λ n, (n, pid)) <$> hold) !! i ≠ Some (n, q).
Proof.
  intros Hh i q. rewrite lookup_fmap, fmap_Some. intros (m&Hm&[= -> ->]). by apply (Hh i).
Qed.

#[local] Obligation Tactic := idtac.
#[export] Program Instance log_laws : BlockLaws lst := { rel := log_rel }.
Next Obligation.
  intros g s v base lg hold n Hr Hn Hh Hroom. pose proof Hr as [H1 H2 _ H5 _ _].
  eapply wp_mono.
  { apply (log_bread_wp s v _ H1 n); [by rewrite H5|by apply not_holds|].
    rewrite H2. destruct Hroom as [?|?]; [by left|right]. by rewrite map_size_fmap. }
  intros i s' (Hi&Hl&Hr'&Hs). rewrite lookup_fmap, fmap_None in Hi. split; [done|].
  eapply log_rel_same; [done|done|congruence|]. by rewrite fmap_insert.
Qed.
Next Obligation.
  intros g s v base lg hold i n [] Hi. eapply log_data_wp; [done|]. by apply lookup_holds.
Qed.
Next Obligation.
  intros g s v base lg hold i n d Hr Hi. pose proof Hr as [H1 H2 _ _ _ _].
  eapply wp_mono; [eapply (log_store_wp s v _ H1); by apply lookup_holds|].
  intros [] s' (Hl&Hr'&Hs). eapply log_rel_same; [done|done|congruence|done].
Qed.
Next Obligation.
  intros g s v base lg hold i n Hr Hi (Hn&Hin&H1) Hcap.
  pose proof Hr as [H1' H2 _ H5 H6 H7].
  assert (g_nlog g ≠ 0) as [H4 H8]%H7 by lia. clear H7. rename H8 into H7.
  eapply wp_mono; [eapply (log_write_wp s v _ i n); [exact H1'|by apply lookup_holds|..]|].
  - unfold in_log. by rewrite H6, H7.
  - done.
  - done.
  - pose proof (length_logged _ _ _ H1') as Hl. rewrite H2 in Hl. rewrite H7.
    pose proof (ly_n _ _ _ H1'). unfold nlogged in Hl. lia.
  - intros [] s' (Hr'&Hs&Hl). eapply log_rel_same; [done|done| |done].
    rewrite Hl, H2. done.
Qed.
Next Obligation.
  intros g s v base lg hold i n Hr Hi Hc. pose proof Hr as [H1 H2 H3 _ _ _].
  eapply wp_mono; [eapply (log_brelse_wp s v _ H1); [by apply lookup_holds|]|].
  - by rewrite H2, H3.
  - intros [] s' (Hl&Hr'&Hs). eapply log_rel_same; [done|done|congruence|].
    by rewrite fmap_delete.
Qed.
Next Obligation.
  intros g s v base lg hold n [H1 H2 H3 _ _ _] Hn Hh. rewrite <-H3.
  apply (br_disk _ _ _ _ (ly_bio _ _ _ H1)); [by rewrite H2|by apply not_holds].
Qed.
