(* ===== verification/FsBlocks.v ===== *)
(** * The block allocator

    What [balloc] and [bfree] do to the contents of the disk, proved against
    the laws of the block layer. *)

From S2P Require Import Prelude Params Sleeplock Blocks Bio Log LogThms Fs BlockLaws.

(** ** Bits of the free map *)

Definition bit (d : list Z) (bi : Z) : bool := Z.testbit (byte_at d (bi / 8)) (bi mod 8).

Lemma bit_of_zero d bi : (bit_of d bi =? 0) = negb (bit d bi).
Proof.
  unfold bit_of, bit. rewrite Z.shiftl_1_l. set (x := byte_at d _). set (k := bi mod 8).
  assert (0 ≤ k) by (unfold k; zdm).
  destruct (Z.testbit x k) eqn:E; cbn [negb].
  - apply Z.eqb_neq. intros E0. apply (f_equal (λ y, Z.testbit y k)) in E0.
    rewrite Z.land_spec, E, Z.pow2_bits_true, Z.bits_0 in E0 by done. done.
  - apply Z.eqb_eq. apply Z.bits_inj'. intros j Hj.
    rewrite Z.land_spec, Z.bits_0, Z.pow2_bits_eqb by done.
    destruct (Z.eqb_spec k j) as [<-|]; [by rewrite E|apply andb_false_r].
Qed.

Lemma byte_at_insert d i x j :
  0 ≤ i < Z.of_nat (length d) → 0 ≤ j →
  byte_at (<[Z.to_nat i := x]> d) j = if j =? i then x else byte_at d j.
Proof.
  intros Hi Hj. unfold byte_at. rewrite !nth_lookup. destruct (Z.eqb_spec j i) as [->|Hne].
  - by rewrite list_lookup_insert_eq by lia.
  - by rewrite list_lookup_insert_ne by lia.
Qed.

Lemma bit_same_index bi bj : 0 ≤ bi → 0 ≤ bj → bi / 8 = bj / 8 → bi mod 8 = bj mod 8 → bi = bj.
Proof. intros. zdm. Qed.

Lemma bit_set d bi bj :
  length d = Z.to_nat BSIZE → 0 ≤ bi < BPB → 0 ≤ bj →
  bit (set_bit d bi) bj = (bj =? bi) || bit d bj.
Proof.
  intros Hd Hi Hj. unfold bit, set_bit, BPB, BSIZE in *.
  rewrite byte_at_insert by (rewrite ?Hd; zdm).
  destruct (Z.eqb_spec (bj / 8) (bi / 8)) as [E|E].
  - rewrite Z.shiftl_1_l, <-Z.setbit_spec', Z.setbit_eqb by zdm. rewrite E.
    destruct (Z.eqb_spec (bi mod 8) (bj mod 8)) as [E2|E2], (Z.eqb_spec bj bi) as [E3|E3]; try done.
    + destruct E3. apply bit_same_index; lia.
    + by subst.
  - by destruct (Z.eqb_spec bj bi) as [->|].
Qed.

Lemma bit_clear d bi bj :
  length d = Z.to_nat BSIZE → 0 ≤ bi < BPB → 0 ≤ bj →
  bit (clear_bit d bi) bj = negb (bj =? bi) && bit d bj.
Proof.
  intros Hd Hi Hj. unfold bit, clear_bit, BPB, BSIZE in *.
  rewrite byte_at_insert by (rewrite ?Hd; zdm).
  destruct (Z.eqb_spec (bj / 8) (bi / 8)) as [E|E].
  - rewrite Z.shiftl_1_l, <-Z.clearbit_spec', Z.clearbit_eqb by zdm. rewrite E.
    destruct (Z.eqb_spec (bi mod 8) (bj mod 8)) as [E2|E2], (Z.eqb_spec bj bi) as [E3|E3];
      cbn; try done; rewrite ?andb_true_r, ?andb_false_r; try done.
    + destruct E3. apply bit_same_index; lia.
    + by subst.
  - by destruct (Z.eqb_spec bj bi) as [->|].
Qed.
Lemma length_set_bit d bi : length (set_bit d bi) = length d.
Proof. apply length_insert. Qed.
Lemma length_clear_bit d bi : length (clear_bit d bi) = length d.
Proof. apply length_insert. Qed.

(** [balloc]'s scan finds the first clear bit. *)
Lemma balloc_scan_spec d size b n bi :
  match balloc_scan d size b n bi with
  | Some r => bi ≤ r < bi + Z.of_nat n ∧ b + r < size ∧ bit d r = false
  | None => ∀ r, bi ≤ r < bi + Z.of_nat n → b + r < size → bit d r = true
  end.
Proof.
  revert bi. induction n as [|n IH]; intros bi; cbn [balloc_scan]; [intros; lia|].
  destruct (Z.ltb_spec (b + bi) size) as [Hlt|Hge]; [|intros; lia].
  rewrite bit_of_zero. destruct (bit d bi) eqn:E; cbn [negb].
  - specialize (IH (bi + 1)). destruct (balloc_scan d size b n (bi + 1)).
    + split_and!; [lia|lia|apply IH|apply IH].
    + intros r Hr Hs. destruct (decide (r = bi)) as [->|]; [done|]. apply IH; lia.
  - split_and!; [lia|lia|done|done].
Qed.

(** ** Running block operations from the file system *)

Section steps.
Context {B : Type} `{!BlockOps B, !BlockLaws B} (g : bgeo) (base : view).

(** [s] is [s0] but for its block layer, which stands for [v]. *)
Record at_fs (s0 s : fss B) (v : view) (lg : list Z) (hold : gmap nat Z) : Prop := {
  at_rel : rel g (f_blk s) v base lg hold;
  at_rest : s = on_blk (λ _, f_blk s) s0;
}.

Lemma wp_blk {A} (m : M B A) (Q : A → fss B → Prop) s :
  wp m (λ a b, Q a (on_blk (λ _, b) s)) (f_blk s) → wp (blk m) Q s.
Proof. unfold wp, blk. by destruct (m (f_blk s)). Qed.

Context (s0 s : fss B) (v : view) (lg : list Z) (hold : gmap nat Z) (Hat : at_fs s0 s v lg hold).

Lemma at_on b v' lg' hold' :
  rel g b v' base lg' hold' → at_fs s0 (on_blk (λ _, b) s) v' lg' hold'.
Proof. intros Hr. split; [done|]. rewrite (at_rest _ _ _ _ _ Hat). done. Qed.

Lemma fs_bread n (Q : nat → fss B → Prop) :
  0 ≤ n < g_size g → (∀ i, hold !! i ≠ Some n) →
  n ∈ lg ∨ (length lg + size hold < Z.to_nat NBUF)%nat →
  (∀ i s', hold !! i = None → at_fs s0 s' v lg (<[i := n]> hold) → Q i s') →
  wp (blk (bread 1 n)) Q s.
Proof.
  intros Hn Hh Hr HQ. apply wp_blk.
  eapply wp_mono; [by apply (bl_read g _ v base lg hold n); [apply Hat|..]|].
  intros i b [Hi Hb]. apply HQ; [done|]. by apply at_on.
Qed.
Lemma fs_bdata i n (Q : list Z → fss B → Prop) :
  hold !! i = Some n → Q (v n) s → wp (blk (bdata i)) Q s.
Proof.
  intros Hi HQ. apply wp_blk. eapply wp_mono; [by eapply bl_data; [apply Hat|]|].
  intros d b [-> ->]. by destruct s.
Qed.
Lemma fs_bstore i n d (Q : unit → fss B → Prop) :
  hold !! i = Some n → (∀ s', at_fs s0 s' (upd v n d) lg hold → Q tt s') →
  wp (blk (bstore i d)) Q s.
Proof.
  intros Hi HQ. apply wp_blk. eapply wp_mono; [by eapply bl_store; [apply Hat|]|].
  intros [] b Hb. apply HQ. by apply at_on.
Qed.
Lemma fs_log i n (Q : unit → fss B → Prop) :
  hold !! i = Some n → home g n → Z.of_nat (length lg) < g_nlog g - 1 →
  (∀ s', at_fs s0 s' v (add_log lg n) hold → Q tt s') → wp (blk (log_write i)) Q s.
Proof.
  intros Hi Hn Hc HQ. apply wp_blk. eapply wp_mono; [by eapply bl_log; [apply Hat|..]|].
  intros [] b Hb. apply HQ. by apply at_on.
Qed.
Lemma fs_brelse i n (Q : unit → fss B → Prop) :
  hold !! i = Some n → n ∈ lg ∨ v n = base n →
  (∀ s', at_fs s0 s' v lg (delete i hold) → Q tt s') → wp (blk (brelse i)) Q s.
Proof.
  intros Hi Hc HQ. apply wp_blk. eapply wp_mono; [by eapply bl_relse; [apply Hat|..]|].
  intros [] b Hb. apply HQ. by apply at_on.
Qed.
Lemma fs_clean n : (∀ i, hold !! i ≠ Some n) → n ∈ lg ∨ v n = base n.
Proof.
  intros Hh. destruct (decide (n ∈ lg)) as [|Hn]; [by left|right].
  by eapply bl_clean; [apply Hat|..].
Qed.
End steps.

Lemma elem_of_add_log lg n m : m ∈ add_log lg n ↔ m ∈ lg ∨ m = n.
Proof.
  unfold add_log. case_decide; [naive_solver|]. rewrite elem_of_app, list_elem_of_singleton. done.
Qed.
Lemma length_add_log lg n : (length (add_log lg n) ≤ length lg + 1)%nat.
Proof. unfold add_log. case_decide; [lia|]. rewrite length_app. simpl. lia. Qed.

(** ** [balloc] and [bfree] *)

(** The superblock describes the disk [g]: the free map is at home blocks. *)
Record sb_ok (g : bgeo) (sb : superblock) : Prop := {
  so_size : sb_size sb = g_size g;
  so_max : 0 < g_size g < 2147483648;
  so_map : 0 ≤ bmapstart sb ∧ bmapstart sb + g_size g / BPB < g_size g;
  so_home b : 0 ≤ b < g_size g → home g (bmapstart sb + b / BPB);
}.

Definition bmapblk (sb : superblock) (b : Z) : Z := bmapstart sb + b / BPB.
Definition used (sb : superblock) (v : view) (b : Z) : bool := bit (v (bmapblk sb b)) (b mod BPB).
Definition is_map (g : bgeo) (sb : superblock) (n : Z) : Prop :=
  ∃ b, 0 ≤ b < g_size g ∧ n = bmapblk sb b.

(** Free blocks are home blocks that are neither part of the map nor in use. *)
Record map_ok (g : bgeo) (sb : superblock) (v : view) (hold : gmap nat Z) : Prop := {
  mo_len b : 0 ≤ b < g_size g → length (v (bmapblk sb b)) = Z.to_nat BSIZE;
  mo_held i n : hold !! i = Some n → ¬ is_map g sb n;
  mo_free b : 0 ≤ b < g_size g → used sb v b = false →
    home g b ∧ ¬ is_map g sb b ∧ ∀ i, hold !! i ≠ Some b;
}.

Lemma BBLOCK_eq g sb b : sb_ok g sb → 0 ≤ b < g_size g → BBLOCK b sb = bmapblk sb b.
Proof.
  intros [_ Hm [H0 H1] _] Hb. unfold BBLOCK, bmapblk, BPB, BSIZE in *.
  rewrite u32_id; [lia|]. unfold is_u32. zdm.
Qed.

(** The view after allocating block [a]. *)
Definition alloc_view (sb : superblock) (v : view) (a : Z) : view :=
  upd (upd v (bmapblk sb a) (set_bit (v (bmapblk sb a)) (a mod BPB))) a zero_block.
Definition alloc_log (sb : superblock) (lg : list Z) (a : Z) : list Z :=
  add_log (add_log lg (bmapblk sb a)) a.

Section balloc.
Context {B : Type} `{!BlockOps B, !BlockLaws B} (g : bgeo) (base : view).
Context (s0 : fss B) (Hsb : sb_ok g (f_sb s0)).
Let sb := f_sb s0.

Lemma at_sb s v lg hold : at_fs g base s0 s v lg hold → f_sb s = sb.
Proof. intros Ha. by rewrite (at_rest _ _ _ _ _ _ _ Ha). Qed.

Lemma sb_sz : sb_size sb = g_size g.
Proof. apply (so_size _ _ Hsb). Qed.

Lemma map_not_held v hold b :
  map_ok g sb v hold → 0 ≤ b < g_size g → ∀ i, hold !! i ≠ Some (bmapblk sb b).
Proof. intros Hm Hb i Hi. apply (mo_held _ _ _ _ Hm _ _ Hi). by exists b. Qed.

Lemma bzero_wp s v lg hold a Q :
  at_fs g base s0 s v lg hold → home g a → (∀ i, hold !! i ≠ Some a) →
  (length lg + size hold < Z.to_nat NBUF)%nat → Z.of_nat (length lg) < g_nlog g - 1 →
  (∀ s', at_fs g base s0 s' (upd v a zero_block) (add_log lg a) hold → Q tt s') →
  wp (bzero 1 a) Q s.
Proof.
  intros Ha Hh Hn Hr Hc HQ. unfold bzero. apply wp_bind.
  eapply fs_bread; [done|apply Hh|done|by right|]. intros i s1 Hi H1.
  pose proof (lookup_insert_eq hold i a) as Hl.
  apply wp_bind. eapply fs_bstore; [done|done|]. intros s2 H2.
  apply wp_bind. eapply fs_log; [done|done|done|done|]. intros s3 H3.
  eapply fs_brelse; [done|done|left; apply elem_of_add_log; by right|].
  intros s4 H4. rewrite delete_insert_id in H4 by done. by apply HQ.
Qed.

(** The free block [balloc] chooses. *)
Lemma balloc_loop_wp fuel b s v lg hold Q :
  at_fs g base s0 s v lg hold → map_ok g sb v hold →
  0 ≤ b → b mod BPB = 0 → (∃ r, b ≤ r < g_size g ∧ used sb v r = false) →
  g_size g - b < Z.of_nat fuel * BPB →
  (length lg + size hold + 1 < Z.to_nat NBUF)%nat → Z.of_nat (length lg) + 1 < g_nlog g - 1 →
  (∀ a s', b ≤ a < g_size g → used sb v a = false →
     at_fs g base s0 s' (alloc_view sb v a) (alloc_log sb lg a) hold → Q a s') →
  wp (balloc_loop 1 fuel b) Q s.
Proof.
  revert b s. induction fuel as [|fuel IH]; intros b s Ha Hm Hb Hmod [r [Hr Hfree]] Hfuel Hroom Hcap HQ;
    [lia|]. cbn [balloc_loop].
  apply wp_bind, wp_gets. rewrite (at_sb _ _ _ _ Ha), sb_sz.
  destruct (Z.ltb_spec b (g_size g)); [|lia]. rewrite (BBLOCK_eq g) by (done || lia).
  assert (0 ≤ b < g_size g) as Hbr by lia. pose proof (so_home _ _ Hsb b Hbr) as Hhome.
  change (bmapstart (f_sb s0) + b / BPB) with (bmapblk sb b) in Hhome.
  pose proof (map_not_held _ _ _ Hm Hbr) as Hnh.
  pose proof (fs_clean _ _ _ _ _ _ _ Ha _ Hnh) as Hclean.
  apply wp_bind. eapply fs_bread; [done|apply Hhome|done|right; lia|]. intros i s1 Hi H1.
  pose proof (lookup_insert_eq hold i (bmapblk sb b)) as Hl.
  apply wp_bind. eapply fs_bdata; [done|done|].
  pose proof (balloc_scan_spec (v (bmapblk sb b)) (g_size g) b (Z.to_nat BPB) 0) as Hscan.
  destruct (balloc_scan _ _ _ _ _) as [bi|].
  - destruct Hscan as (Hbi&Hsz&Hbit). unfold BPB, BSIZE in Hbi, Hmod, Hfuel.
    assert (bmapblk sb (b + bi) = bmapblk sb b ∧ (b + bi) mod BPB = bi) as [E1 E2].
    { unfold bmapblk, BPB, BSIZE. split; [f_equal|]; zdm. }
    assert (used sb v (b + bi) = false) as Hu by (unfold used; by rewrite E1, E2).
    destruct (mo_free _ _ _ _ Hm (b + bi)) as (Hhm&Hnm&Hnb); [lia|done|].
    apply wp_bind. eapply fs_bstore; [done|done|]. intros s2 H2.
    apply wp_bind. eapply fs_log; [done|done|done|lia|]. intros s3 H3.
    apply wp_bind. eapply fs_brelse; [done|done|left; apply elem_of_add_log; by right|].
    intros s4 H4. rewrite delete_insert_id in H4 by done.
    pose proof (length_add_log lg (bmapblk sb b)).
    apply wp_bind. eapply bzero_wp; [done|done|done|lia|lia|]. intros s5 H5.
    apply wp_ret. apply HQ; [lia|done|]. unfold alloc_view, alloc_log. by rewrite E1, E2.
  - apply wp_bind. eapply fs_brelse; [done|done|done|]. intros s2 H2.
    rewrite delete_insert_id in H2 by done.
    apply (IH (b + BPB) s2); try done; unfold BPB, BSIZE in *; [lia|zdm| |lia|].
    + exists r. split; [|done]. destruct (decide (b + 4096 ≤ r)); [lia|]. exfalso.
      assert (bit (v (bmapblk sb b)) (r - b) = true) as Hbit by (apply Hscan; lia).
      unfold used in Hfree. assert (bmapblk sb r = bmapblk sb b ∧ r mod BPB = r - b) as [E1 E2].
      { unfold bmapblk, BPB, BSIZE. split; [f_equal|]; zdm. }
      by rewrite E1, E2, Hbit in Hfree.
    + intros a s' Har. apply HQ. lia.
Qed.

Lemma balloc_wp s v lg hold Q :
  at_fs g base s0 s v lg hold → map_ok g sb v hold →
  (∃ r, 0 ≤ r < g_size g ∧ used sb v r = false) →
  (length lg + size hold + 1 < Z.to_nat NBUF)%nat → Z.of_nat (length lg) + 1 < g_nlog g - 1 →
  (∀ a s', 0 ≤ a < g_size g → used sb v a = false →
     at_fs g base s0 s' (alloc_view sb v a) (alloc_log sb lg a) hold → Q a s') →
  wp (balloc 1) Q s.
Proof.
  intros Ha Hm Hex Hroom Hcap HQ. unfold balloc. apply wp_bind, wp_gets.
  rewrite (at_sb _ _ _ _ Ha). eapply (balloc_loop_wp _ 0 s); try done.
  rewrite sb_sz. pose proof (so_max _ _ Hsb).
  unfold BPB, BSIZE. zdm.
Qed.
End balloc.

(** ** Layout of the disk *)

Lemma filter_iff_in {A} (P Q : A → Prop) `{!∀ x, Decision (P x), !∀ x, Decision (Q x)} (l : list A) :
  (∀ x, x ∈ l → P x ↔ Q x) → filter P l = filter Q l.
Proof.
  induction l as [|x l IH]; intros Hl; [done|]. rewrite !filter_cons.
  assert (filter P l = filter Q l) as -> by (apply IH; intros y Hy; apply Hl; by right).
  specialize (Hl x (list_elem_of_here x l)). repeat case_decide; tauto.
Qed.

(** Blocks below [ds] hold metadata; they are marked in use. *)
Record layout (g : bgeo) (sb : superblock) (ds : Z) : Prop := {
  la_sb : sb_ok g sb;
  la_ds : 0 < ds ≤ g_size g;
  la_map b : 0 ≤ b < g_size g → bmapblk sb b < ds;
  la_home b : ds ≤ b < g_size g → home g b;
}.
Record meta_ok (g : bgeo) (sb : superblock) (ds : Z) (v : view) : Prop := {
  me_len b : 0 ≤ b < g_size g → length (v (bmapblk sb b)) = Z.to_nat BSIZE;
  me_used b : 0 ≤ b < ds → used sb v b = true;
}.
(** Buffers in use hold allocated data blocks. *)
Definition hold_ok (g : bgeo) (sb : superblock) (ds : Z) (v : view) (hold : gmap nat Z) : Prop :=
  ∀ i n, hold !! i = Some n → ds ≤ n < g_size g ∧ used sb v n = true.

Lemma hold_ok_empty g sb ds v : hold_ok g sb ds v ∅.
Proof. intros i n. by rewrite lookup_empty. Qed.

Section layout.
Context (g : bgeo) (sb : superblock) (ds : Z) (Hla : layout g sb ds).

Lemma is_map_ds x : is_map g sb x → 0 ≤ x < ds.
Proof.
  intros (b&Hb&->). split; [|by apply la_map with g].
  destruct (so_map _ _ (la_sb _ _ _ Hla)). unfold bmapblk, BPB, BSIZE. zdm.
Qed.

Lemma layout_map_ok v hold : meta_ok g sb ds v → hold_ok g sb ds v hold → map_ok g sb v hold.
Proof.
  intros [Hlen Hused] Hh. split; [done| |].
  - intros i n Hi Hm%is_map_ds. apply Hh in Hi. lia.
  - intros b Hb Hfree. destruct (decide (b < ds)) as [|Hge].
    { rewrite Hused in Hfree by lia. done. }
    split_and!; [apply la_home with sb ds; [done|lia]|intros Hm%is_map_ds; lia|].
    intros i Hi. apply Hh in Hi as [_ Hu]. congruence.
Qed.

Section alloc.
Context (v : view) (a : Z) (Hme : meta_ok g sb ds v) (Ha : 0 ≤ a < g_size g)
  (Hfree : used sb v a = false).

Lemma alloc_ds : ds ≤ a.
Proof. destruct (decide (a < ds)); [|lia]. rewrite (me_used _ _ _ _ Hme) in Hfree by lia. done. Qed.
Lemma alloc_not_map : ¬ is_map g sb a.
Proof. intros Hm%is_map_ds. pose proof alloc_ds. lia. Qed.

Lemma alloc_view_a : alloc_view sb v a a = zero_block.
Proof. unfold alloc_view. apply fupd_at. Qed.
Lemma alloc_view_other x : x ≠ a → ¬ is_map g sb x → alloc_view sb v a x = v x.
Proof.
  intros Hx Hm. unfold alloc_view. rewrite !fupd_off; [done| |done].
  intros ->. apply Hm. by exists a.
Qed.
Lemma alloc_view_map b :
  0 ≤ b < g_size g → alloc_view sb v a (bmapblk sb b) =
  (if decide (bmapblk sb b = bmapblk sb a) then set_bit (v (bmapblk sb a)) (a mod BPB)
   else v (bmapblk sb b)).
Proof.
  intros Hb. unfold alloc_view. rewrite fupd_off.
  - case_decide as E; [rewrite E; apply fupd_at|by apply fupd_off].
  - intros E. apply alloc_not_map. rewrite <-E. by exists b.
Qed.

Lemma alloc_used b : 0 ≤ b < g_size g → used sb (alloc_view sb v a) b = (b =? a) || used sb v b.
Proof.
  intros Hb. unfold used. rewrite alloc_view_map by done. case_decide as E.
  - assert (0 ≤ a mod BPB < BPB ∧ 0 ≤ b mod BPB) as [H1 H2] by (unfold BPB, BSIZE; zdm).
    rewrite bit_set by (done || by apply (me_len _ _ _ _ Hme)). rewrite <-E. f_equal.
    unfold bmapblk, BPB, BSIZE in *. apply eq_bool_prop_intro. rewrite !Is_true_true, !Z.eqb_eq.
    split; [intros; zdm|by intros ->].
  - destruct (Z.eqb_spec b a) as [->|]; done.
Qed.

Lemma alloc_meta_ok : meta_ok g sb ds (alloc_view sb v a).
Proof.
  split.
  - intros b Hb. rewrite alloc_view_map by done.
    case_decide; rewrite ?length_set_bit; by apply (me_len _ _ _ _ Hme).
  - intros b Hb. rewrite alloc_used by (pose proof (la_ds _ _ _ Hla); lia).
    rewrite (me_used _ _ _ _ Hme) by done. apply orb_true_r.
Qed.
Lemma alloc_hold_ok hold : hold_ok g sb ds v hold → hold_ok g sb ds (alloc_view sb v a) hold.
Proof.
  intros Hh i n Hi. destruct (Hh i n Hi) as [Hn Hu]. split; [done|].
  rewrite alloc_used by (pose proof (la_ds _ _ _ Hla); lia). rewrite Hu. apply orb_true_r.
Qed.
End alloc.

(** How many blocks are free. *)
Definition free_blocks (v : view) : list Z := filter (λ b, used sb v b = false) (seqZ 0 (g_size g)).
Definition nfree (v : view) : nat := length (free_blocks v).

Lemma elem_free_blocks v b : b ∈ free_blocks v ↔ 0 ≤ b < g_size g ∧ used sb v b = false.
Proof.
  unfold free_blocks. rewrite list_elem_of_filter, elem_of_seqZ. simpl.
  replace (0 + g_size g) with (g_size g) by lia. tauto.
Qed.
Lemma nfree_ext v v' :
  (∀ b, 0 ≤ b < g_size g → used sb v' b = used sb v b) → nfree v' = nfree v.
Proof.
  intros Hu. unfold nfree, free_blocks. f_equal. apply filter_iff_in.
  intros b Hb%elem_of_seqZ. by rewrite Hu by lia.
Qed.
Lemma nfree_alloc v a :
  meta_ok g sb ds v → 0 ≤ a < g_size g → used sb v a = false →
  nfree v = S (nfree (alloc_view sb v a)).
Proof.
  intros Hme Ha Hf. unfold nfree.
  assert (free_blocks (alloc_view sb v a) = filter (λ b, b ≠ a) (free_blocks v)) as ->.
  { unfold free_blocks. rewrite list_filter_filter. apply filter_iff_in.
    intros b Hb%elem_of_seqZ. rewrite (alloc_used v a Hme Ha Hf) by lia.
    rewrite orb_false_iff, Z.eqb_neq. tauto. }
  symmetry. apply length_filter_ne; [apply NoDup_filter, NoDup_seqZ|by apply elem_free_blocks].
Qed.
Lemma nfree_exists v : (0 < nfree v)%nat → ∃ r, 0 ≤ r < g_size g ∧ used sb v r = false.
Proof.
  unfold nfree. destruct (free_blocks v) as [|b l] eqn:E; simpl; [lia|]. intros _.
  exists b. apply elem_free_blocks. rewrite E. left.
Qed.
End layout.
