(* ===== verification/FsFile.v ===== *)
(** * File contents

    The contents of a file as a list of bytes, and what [bmap], [readi] and
    [writei] do to it. *)

From S2P Require Import Prelude Params Sleeplock Blocks Bio Log LogThms Fs BlockLaws FsBlocks.

(** ** Files *)

Definition addr_of (ip : inode) (k : Z) : Z := nth (Z.to_nat k) (i_addrs ip) 0.
(** Block [bn] of the file, 0 if there is none. *)
Definition fblk (v : view) (ip : inode) (bn : Z) : Z :=
  if bn <? NDIRECT then addr_of ip bn
  else if addr_of ip NDIRECT =? 0 then 0
  else get32 (v (addr_of ip NDIRECT)) (4 * (bn - NDIRECT)).
Definition fbyte (v : view) (ip : inode) (k : Z) : Z :=
  byte_at (v (fblk v ip (k / BSIZE))) (k mod BSIZE).
Definition fbytes (v : view) (ip : inode) (off len : Z) : list Z := fbyte v ip <$> seqZ off len.
Definition content (v : view) (ip : inode) : list Z := fbytes v ip 0 (i_size ip).

Section file.
Context (g : bgeo) (sb : superblock) (ds : Z).

(** An allocated data block. *)
Record data_ok (v : view) (a : Z) : Prop := {
  dk_range : ds ≤ a < g_size g;
  dk_used : used sb v a = true;
  dk_len : length (v a) = Z.to_nat BSIZE;
}.

Record file_ok (v : view) (ip : inode) : Prop := {
  fo_addrs : length (i_addrs ip) = 13%nat;
  fo_dev : i_dev ip = 1;
  fo_size : 0 ≤ i_size ip ≤ MAXFILE * BSIZE;
  fo_blk bn : 0 ≤ bn < MAXFILE → fblk v ip bn ≠ 0 → data_ok v (fblk v ip bn);
  fo_ind : addr_of ip NDIRECT ≠ 0 → data_ok v (addr_of ip NDIRECT);
  fo_mapped bn : 0 ≤ bn → bn * BSIZE < i_size ip → fblk v ip bn ≠ 0;
  fo_inj bn bn' : 0 ≤ bn < MAXFILE → 0 ≤ bn' < MAXFILE → fblk v ip bn ≠ 0 →
    fblk v ip bn = fblk v ip bn' → bn = bn';
  fo_ind_ne bn : 0 ≤ bn < MAXFILE → fblk v ip bn ≠ 0 → fblk v ip bn ≠ addr_of ip NDIRECT;
}.
End file.

Lemma fbytes_app v ip off a b :
  0 ≤ a → 0 ≤ b → fbytes v ip off (a + b) = fbytes v ip off a ++ fbytes v ip (off + a) b.
Proof. intros. unfold fbytes. by rewrite seqZ_app, fmap_app. Qed.
Lemma length_fbytes v ip off len : length (fbytes v ip off len) = Z.to_nat len.
Proof. unfold fbytes. by rewrite length_fmap, length_seqZ. Qed.

(** Part of one block. *)
Lemma fbytes_block v ip off m :
  0 ≤ off → 0 ≤ m → off mod BSIZE + m ≤ BSIZE →
  length (v (fblk v ip (off / BSIZE))) = Z.to_nat BSIZE →
  take (Z.to_nat m) (drop (Z.to_nat (off mod BSIZE)) (v (fblk v ip (off / BSIZE)))) = fbytes v ip off m.
Proof.
  intros Hoff Hm Hle Hlen. unfold BSIZE in *. apply list_eq. intros k.
  destruct (decide (k < Z.to_nat m)%nat) as [Hk|Hk].
  - rewrite lookup_take_lt by done. rewrite lookup_drop. unfold fbytes.
    rewrite list_lookup_fmap, lookup_seqZ_lt by lia. cbn. unfold fbyte, BSIZE.
    assert ((off + Z.of_nat k) / 512 = off / 512 ∧ (off + Z.of_nat k) mod 512 = off mod 512 + Z.of_nat k)
      as [-> ->] by (split; zdm).
    unfold byte_at. rewrite nth_lookup.
    replace (Z.to_nat (off mod 512 + Z.of_nat k)) with (Z.to_nat (off mod 512) + k)%nat by zdm.
    destruct (_ !! (Z.to_nat (off mod 512) + k)%nat) eqn:E; [done|].
    apply lookup_ge_None in E. rewrite Hlen in E. exfalso. zdm.
  - rewrite lookup_take_ge by lia. symmetry. apply lookup_ge_None. rewrite length_fbytes. lia.
Qed.

(** ** Running with an inode *)

Section inodes.
Context {B : Type} `{!BlockOps B, !BlockLaws B} (g : bgeo) (base : view).

Lemma wp_inode_get s0 s v lg hold i ip (Q : inode → fss B → Prop) :
  at_fs g base s0 s v lg hold → icache s0 !! i = Some ip → Q ip s → wp (inode_get i) Q s.
Proof.
  intros Ha Hi HQ. unfold wp, inode_get.
  assert (icache s = icache s0) as -> by (by rewrite (at_rest _ _ _ _ _ _ _ Ha)). by rewrite Hi.
Qed.

Definition put_inode (i : nat) (ip : inode) (s : fss B) : fss B := on_icache (<[i := ip]>) s.

Lemma at_put s0 s v lg hold i ip :
  at_fs g base s0 s v lg hold → at_fs g base (put_inode i ip s0) (put_inode i ip s) v lg hold.
Proof. intros [Hr E]. split; [done|]. by rewrite E. Qed.

Lemma wp_inode_upd s0 s v lg hold i ip f (Q : unit → fss B → Prop) :
  at_fs g base s0 s v lg hold → icache s0 !! i = Some ip →
  (∀ s', at_fs g base (put_inode i (f ip) s0) s' v lg hold → Q tt s') → wp (inode_upd i f) Q s.
Proof.
  intros Ha Hi HQ. pose proof Ha as [_ E].
  assert (icache s = icache s0) as Ei by (by rewrite E).
  unfold wp, inode_upd. rewrite Ei, Hi. apply HQ. by apply at_put.
Qed.

Lemma wp_addr_get s0 s v lg hold i ip k (Q : Z → fss B → Prop) :
  at_fs g base s0 s v lg hold → icache s0 !! i = Some ip →
  length (i_addrs ip) = 13%nat → 0 ≤ k ≤ NDIRECT →
  Q (addr_of ip k) s → wp (addr_get i k) Q s.
Proof.
  intros Ha Hi Hl Hk HQ. unfold addr_get. apply wp_bind. eapply wp_inode_get; [done|done|].
  unfold NDIRECT in Hk. destruct (lookup_lt_is_Some_2 (i_addrs ip) (Z.to_nat k)) as [x Hx]; [lia|].
  rewrite Hx. apply wp_ret. by rewrite <-(nth_lookup_Some _ _ 0 _ Hx).
Qed.
End inodes.

Lemma data_home g sb ds v a :
  layout g sb ds → data_ok g sb ds v a → home g a ∧ 0 ≤ a < g_size g ∧ a ≠ 0.
Proof.
  intros Hla [Hr _ _]. pose proof (la_ds _ _ _ Hla). split; [by apply la_home with sb ds|lia].
Qed.

(** ** Reading *)

Section read.
Context {B : Type} `{!BlockOps B, !BlockLaws B} (g : bgeo) (base : view) (ds : Z).
Context (s0 : fss B) (Hla : layout g (f_sb s0) ds).
Let sb := f_sb s0.
Context (i : nat) (ip : inode) (Hip : icache s0 !! i = Some ip).
Context (v : view) (lg : list Z) (Hfile : file_ok g sb ds v ip).
Context (Hroom : (length lg < Z.to_nat NBUF)%nat).

(** Reading a mapped block changes nothing. *)
Lemma bmap_mapped s bn Q :
  at_fs g base s0 s v lg ∅ → 0 ≤ bn < MAXFILE → fblk v ip bn ≠ 0 →
  (∀ s', at_fs g base s0 s' v lg ∅ → Q (fblk v ip bn) s') → wp (bmap i bn) Q s.
Proof.
  intros Ha Hbn Hm HQ. unfold bmap, fblk, MAXFILE, NDIRECT, NINDIRECT, BSIZE in *.
  change (512 / 4) with 128 in *.
  destruct (Z.ltb_spec bn 12) as [Hlt|Hge].
  - apply wp_bind. eapply wp_addr_get; [done|done|apply Hfile|unfold NDIRECT; lia|].
    destruct (Z.eqb_spec (addr_of ip bn) 0); [done|]. apply wp_ret. by apply HQ.
  - destruct (Z.ltb_spec (bn - 12) 128); [|lia].
    destruct (Z.eqb_spec (addr_of ip 12) 0) as [|Hi]; [done|].
    destruct (data_home _ _ _ _ _ Hla (fo_ind _ _ _ _ _ Hfile Hi)) as (_&Hr&_).
    apply wp_bind. eapply wp_addr_get; [done|done|apply Hfile|unfold NDIRECT; lia|].
    apply wp_bind. eapply wp_inode_get; [done|done|].
    destruct (Z.eqb_spec (addr_of ip 12) 0); [done|]. apply wp_bind, wp_ret.
    rewrite (fo_dev _ _ _ _ _ Hfile). apply wp_bind.
    assert (∀ j : nat, (∅ : gmap nat Z) !! j ≠ Some (addr_of ip 12)) as Hnh
      by (intros j; by rewrite lookup_empty).
    pose proof (fs_clean _ _ _ _ _ _ _ Ha _ Hnh) as Hclean.
    eapply fs_bread; [done|done|done|right; by rewrite map_size_empty, Nat.add_0_r|].
    intros j s1 Hj H1. pose proof (lookup_insert_eq (∅ : gmap nat Z) j (addr_of ip 12)) as Hl.
    apply wp_bind. eapply fs_bdata; [done|done|].
    destruct (Z.eqb_spec (get32 (v (addr_of ip 12)) (4 * (bn - 12))) 0); [done|].
    apply wp_bind, wp_ret, wp_bind. eapply fs_brelse; [done|done|done|].
    intros s2 H2. rewrite delete_insert_id in H2 by done. apply wp_ret. by apply HQ.
Qed.

Lemma readi_loop_wp fuel tot off n s Q :
  at_fs g base s0 s v lg ∅ → 0 ≤ off → 0 ≤ tot ≤ n → off + (n - tot) ≤ i_size ip →
  n - tot < Z.of_nat fuel →
  (∀ s', at_fs g base s0 s' v lg ∅ → Q (fbytes v ip off (n - tot)) s') →
  wp (readi_loop i fuel tot off n) Q s.
Proof.
  revert tot off s Q. induction fuel as [|fuel IH]; intros tot off s Q Ha Hoff Htot Hsz Hf HQ; [lia|].
  cbn [readi_loop]. destruct (Z.ltb_spec tot n) as [Hlt|Hge].
  2: { apply wp_ret. assert (n - tot = 0) as E by lia. rewrite E in HQ. by apply HQ. }
  pose proof (fo_size _ _ _ _ _ Hfile) as Hfs. unfold MAXFILE, NDIRECT, NINDIRECT, BSIZE in *.
  change (512 / 4) with 128 in *.
  assert (0 ≤ off / 512 < 140) as Hbn by zdm.
  assert (fblk v ip (off / 512) ≠ 0) as Hm by (apply (fo_mapped _ _ _ _ _ Hfile); unfold BSIZE; zdm).
  pose proof (fo_blk _ _ _ _ _ Hfile _ Hbn Hm) as Hd. destruct (data_home _ _ _ _ _ Hla Hd) as (_&Hr&_).
  apply wp_bind. eapply wp_inode_get; [done|done|].
  apply wp_bind. eapply bmap_mapped; [done|done|done|]. intros s1 H1.
  rewrite (fo_dev _ _ _ _ _ Hfile).
  assert (∀ j : nat, (∅ : gmap nat Z) !! j ≠ Some (fblk v ip (off / 512))) as Hnh
    by (intros j; by rewrite lookup_empty).
  pose proof (fs_clean _ _ _ _ _ _ _ H1 _ Hnh) as Hclean.
  apply wp_bind. eapply fs_bread; [done|done|done|right; by rewrite map_size_empty, Nat.add_0_r|].
  intros j s2 Hj H2. pose proof (lookup_insert_eq (∅ : gmap nat Z) j (fblk v ip (off / 512))) as Hl.
  apply wp_bind. eapply fs_bdata; [done|done|].
  apply wp_bind. eapply fs_brelse; [done|done|done|]. intros s3 H3.
  rewrite delete_insert_id in H3 by done.
  set (m := Z.min (n - tot) (512 - off mod 512)).
  assert (0 < m ≤ n - tot ∧ off mod 512 + m ≤ 512) as [Hm1 Hm2] by (unfold m; zdm).
  apply wp_bind. eapply (IH (tot + m) (off + m)); [done|lia|lia|lia|lia|].
  intros s4 H4. apply wp_ret. replace (n - tot) with (m + (n - (tot + m))) in HQ by lia.
  rewrite fbytes_app in HQ by lia.
  pose proof (fbytes_block v ip off m Hoff ltac:(lia) Hm2 (dk_len _ _ _ _ _ Hd)) as Eb.
  unfold BSIZE in Eb. rewrite Eb. by apply HQ.
Qed.
End read.

(** ** Growing a file *)

Lemma byte_at_zero k : byte_at zero_block k = 0.
Proof.
  unfold byte_at, zero_block. rewrite nth_lookup.
  destruct (_ !! _) eqn:E; [|done]. by apply lookup_replicate in E as [-> _].
Qed.
Lemma get32_zero k : get32 zero_block k = 0.
Proof. unfold get32. by rewrite !byte_at_zero. Qed.

Lemma addr_of_set ip k a j :
  length (i_addrs ip) = 13%nat → 0 ≤ k < 13 → 0 ≤ j →
  addr_of (set_addrs (<[Z.to_nat k := a]> (i_addrs ip)) ip) j = if j =? k then a else addr_of ip j.
Proof. intros Hl Hk Hj. unfold addr_of. cbn. apply (byte_at_insert (i_addrs ip) k a j); lia. Qed.

Section grow.
Context (g : bgeo) (sb : superblock) (ds : Z) (Hla : layout g sb ds).

(** [v'], [ip'] differ from [v], [ip] by blocks added to the file [ip]. *)
Record grow (v : view) (ip : inode) (v' : view) (ip' : inode) : Prop := {
  gr_file : file_ok g sb ds v' ip';
  gr_meta : meta_ok g sb ds v';
  gr_ip : ip' = set_addrs (i_addrs ip') ip;
  gr_blk x : 0 ≤ x < MAXFILE → fblk v ip x ≠ 0 → fblk v' ip' x = fblk v ip x;
  gr_fresh x : 0 ≤ x < MAXFILE → fblk v ip x = 0 →
    fblk v' ip' x = 0 ∨ used sb v (fblk v' ip' x) = false ∧ v' (fblk v' ip' x) = zero_block;
  gr_ind : addr_of ip' NDIRECT = addr_of ip NDIRECT ∨
    addr_of ip NDIRECT = 0 ∧ used sb v (addr_of ip' NDIRECT) = false;
  gr_used b : 0 ≤ b < g_size g → used sb v b = true → used sb v' b = true;
  gr_frame x : ¬ is_map g sb x → (0 ≤ x < g_size g → used sb v x = true) →
    x ≠ addr_of ip NDIRECT → v' x = v x;
}.

Lemma used_not_map v x : data_ok g sb ds v x → ¬ is_map g sb x.
Proof. intros [Hr _ _] Hm%(is_map_ds _ _ _ Hla). lia. Qed.
Lemma data_pos v x : data_ok g sb ds v x → 0 < x < g_size g.
Proof. intros [Hr _ _]. pose proof (la_ds _ _ _ Hla). lia. Qed.

Section alloc.
Context (v : view) (a : Z) (Hme : meta_ok g sb ds v) (Ha : 0 ≤ a < g_size g)
  (Hfree : used sb v a = false).

Lemma data_ok_ne x : data_ok g sb ds v x → x ≠ a.
Proof. intros [_ Hu _] ->. congruence. Qed.
Lemma alloc_view_data x : data_ok g sb ds v x → alloc_view sb v a x = v x.
Proof.
  intros Hd. apply (alloc_view_other g sb v a); [done|by apply data_ok_ne|by apply (used_not_map v)].
Qed.
Lemma alloc_data_ok x : data_ok g sb ds v x → data_ok g sb ds (alloc_view sb v a) x.
Proof.
  intros Hd. split; [apply Hd| |by rewrite alloc_view_data by done; apply Hd].
  rewrite (alloc_used g sb ds Hla v a Hme Ha Hfree), (dk_used _ _ _ _ _ Hd); [apply orb_true_r|].
  pose proof (data_pos _ _ Hd). lia.
Qed.
Lemma alloc_data_new : data_ok g sb ds (alloc_view sb v a) a.
Proof.
  split.
  - pose proof (alloc_ds g sb ds v a Hme Ha Hfree). lia.
  - rewrite (alloc_used g sb ds Hla v a Hme Ha Hfree) by done. by rewrite Z.eqb_refl.
  - by rewrite alloc_view_a.
Qed.
Lemma alloc_fblk ip x : file_ok g sb ds v ip → fblk (alloc_view sb v a) ip x = fblk v ip x.
Proof.
  intros Hf. unfold fblk. destruct (x <? NDIRECT); [done|].
  destruct (Z.eqb_spec (addr_of ip NDIRECT) 0) as [|Hi]; [done|].
  by rewrite alloc_view_data by (by apply (fo_ind _ _ _ _ _ Hf)).
Qed.
Lemma file_fblk_ne ip x : file_ok g sb ds v ip → 0 ≤ x < MAXFILE → fblk v ip x ≠ a.
Proof.
  intros Hf Hx E. destruct (decide (fblk v ip x = 0)) as [E0|Hn].
  - pose proof (alloc_ds g sb ds v a Hme Ha Hfree). pose proof (la_ds _ _ _ Hla). lia.
  - by apply (data_ok_ne _ (fo_blk _ _ _ _ _ Hf x Hx Hn)).
Qed.
Lemma file_ind_ne ip : file_ok g sb ds v ip → addr_of ip NDIRECT ≠ a.
Proof.
  intros Hf E. destruct (decide (addr_of ip NDIRECT = 0)) as [E0|Hn].
  - pose proof (alloc_ds g sb ds v a Hme Ha Hfree). pose proof (la_ds _ _ _ Hla). lia.
  - by apply (data_ok_ne _ (fo_ind _ _ _ _ _ Hf Hn)).
Qed.
End alloc.

(** Block [a], new, becomes block [bn] of the file. *)
Lemma file_attach v ip v' ip' bn a :
  file_ok g sb ds v ip → data_ok g sb ds v' a → a ≠ addr_of ip NDIRECT →
  (∀ x, 0 ≤ x < MAXFILE → fblk v ip x ≠ a) →
  (∀ x, data_ok g sb ds v x → data_ok g sb ds v' x) →
  (∀ x, 0 ≤ x < MAXFILE → fblk v' ip' x = if x =? bn then a else fblk v ip x) →
  addr_of ip' NDIRECT = addr_of ip NDIRECT → length (i_addrs ip') = 13%nat →
  i_dev ip' = i_dev ip → i_size ip' = i_size ip → file_ok g sb ds v' ip'.
Proof.
  intros [Hl Hd Hs Hb Hi Hm Hj Hn] Ha Hai Hne Hdata Hfb Hind Hl' Hd' Hs'.
  assert (∀ x, 0 ≤ x → x * BSIZE < i_size ip → 0 ≤ x < MAXFILE) as Hsz
    by (unfold MAXFILE, NDIRECT, NINDIRECT, BSIZE in *; intros; zdm).
  split; [done|congruence|congruence|..].
  - intros x Hx. rewrite Hfb by done. destruct (x =? bn); auto.
  - rewrite Hind. auto.
  - intros x Hx. rewrite Hs'. intros Hlt. rewrite Hfb by auto.
    destruct (x =? bn); [|by apply Hm]. pose proof (data_pos _ _ Ha). lia.
  - intros x y Hx Hy. rewrite !Hfb by done. specialize (Hne x Hx) as Hnx. specialize (Hne y Hy) as Hny.
    destruct (Z.eqb_spec x bn), (Z.eqb_spec y bn); subst; try done; [by apply Hj].
  - intros x Hx. rewrite Hfb, Hind by done. destruct (x =? bn); auto.
Qed.

Lemma grow_refl v ip : file_ok g sb ds v ip → meta_ok g sb ds v → grow v ip v ip.
Proof. intros Hf Hm. split; try done; [by destruct ip|by left|by left]. Qed.

Lemma fblk_range v ip x : file_ok g sb ds v ip → 0 ≤ x < MAXFILE → 0 ≤ fblk v ip x < g_size g.
Proof.
  intros Hf Hx. destruct (decide (fblk v ip x = 0)) as [->|Hn]; [pose proof (la_ds _ _ _ Hla); lia|].
  pose proof (data_pos _ _ (fo_blk _ _ _ _ _ Hf x Hx Hn)). lia.
Qed.
Lemma ind_range v ip : file_ok g sb ds v ip → 0 ≤ addr_of ip NDIRECT < g_size g.
Proof.
  intros Hf. destruct (decide (addr_of ip NDIRECT = 0)) as [->|Hn]; [pose proof (la_ds _ _ _ Hla); lia|].
  pose proof (data_pos _ _ (fo_ind _ _ _ _ _ Hf Hn)). lia.
Qed.
Lemma grow_unused v ip v1 ip1 x :
  grow v ip v1 ip1 → 0 ≤ x < g_size g → used sb v1 x = false → used sb v x = false.
Proof.
  intros G1 Hx Hu. destruct (used sb v x) eqn:E; [|done].
  by rewrite (gr_used _ _ _ _ G1 x Hx E) in Hu.
Qed.

Lemma grow_trans v ip v1 ip1 v2 ip2 :
  grow v ip v1 ip1 → grow v1 ip1 v2 ip2 → grow v ip v2 ip2.
Proof.
  intros G1 G2. pose proof (gr_file _ _ _ _ G1) as Hf1. pose proof (gr_file _ _ _ _ G2) as Hf2.
  assert (∀ x, 0 ≤ x < MAXFILE → fblk v1 ip1 x = 0 →
    fblk v2 ip2 x = 0 ∨ used sb v (fblk v2 ip2 x) = false ∧ v2 (fblk v2 ip2 x) = zero_block) as Hz1.
  { intros x Hx E. destruct (gr_fresh _ _ _ _ G2 x Hx E) as [?|[E2 ?]]; [by left|right].
    split; [|done]. by apply (grow_unused _ _ _ _ _ G1); [apply (fblk_range v2)|]. }
  split; [done|apply G2|..].
  - rewrite (gr_ip _ _ _ _ G2). rewrite (gr_ip _ _ _ _ G1). by destruct ip.
  - intros x Hx Hn. pose proof (gr_blk _ _ _ _ G1 x Hx Hn) as E.
    rewrite (gr_blk _ _ _ _ G2 x Hx); congruence.
  - intros x Hx Hz. destruct (gr_fresh _ _ _ _ G1 x Hx Hz) as [E|[E Ez]]; [by apply Hz1|].
    destruct (decide (fblk v1 ip1 x = 0)) as [|Hn]; [by apply Hz1|].
    pose proof (fo_blk _ _ _ _ _ Hf1 x Hx Hn) as Hd.
    rewrite (gr_blk _ _ _ _ G2 x Hx Hn). right. split; [done|].
    rewrite (gr_frame _ _ _ _ G2); [done|by apply (used_not_map v1)|by intros; apply Hd|].
    by apply (fo_ind_ne _ _ _ _ _ Hf1).
  - destruct (gr_ind _ _ _ _ G2) as [->|[E2 Hu2]]; [apply G1|].
    assert (addr_of ip NDIRECT = 0) as -> by (destruct (gr_ind _ _ _ _ G1) as [?|[? _]]; congruence).
    right. split; [done|]. apply (grow_unused _ _ _ _ _ G1); [by apply (ind_range v2)|done].
  - intros b Hb Hub. by apply (gr_used _ _ _ _ G2), (gr_used _ _ _ _ G1).
  - intros x Hm Hux Hne. rewrite (gr_frame _ _ _ _ G2 x); [by apply (gr_frame _ _ _ _ G1)|done| |].
    + intros Hx. apply (gr_used _ _ _ _ G1); auto.
    + destruct (gr_ind _ _ _ _ G1) as [->|[E1 Hu1]]; [done|]. intros ->.
      rewrite Hux in Hu1 by (by apply (ind_range v1)). done.
Qed.

(** A block is allocated for a direct slot, for the indirect block, and for
    a slot of the indirect block. *)
Section attach.
Context (v : view) (ip : inode) (a : Z) (Hf : file_ok g sb ds v ip) (Hme : meta_ok g sb ds v)
  (Ha : 0 ≤ a < g_size g) (Hfree : used sb v a = false).
Let v1 := alloc_view sb v a.

Lemma alloc_frame x :
  ¬ is_map g sb x → (0 ≤ x < g_size g → used sb v x = true) → v1 x = v x.
Proof.
  intros Hm Hu. apply (alloc_view_other g sb v a Ha); [|done]. intros ->.
  rewrite Hu in Hfree by done. done.
Qed.
Lemma alloc_used_mono b : 0 ≤ b < g_size g → used sb v b = true → used sb v1 b = true.
Proof. intros Hb Hu. unfold v1. rewrite (alloc_used g sb ds Hla), Hu by done. apply orb_true_r. Qed.

Lemma grow_direct bn :
  0 ≤ bn < NDIRECT → addr_of ip bn = 0 →
  grow v ip v1 (set_addrs (<[Z.to_nat bn := a]> (i_addrs ip)) ip).
Proof.
  intros Hbn Hz. set (ip1 := set_addrs _ ip). unfold NDIRECT in *.
  assert (∀ k, 0 ≤ k → addr_of ip1 k = if k =? bn then a else addr_of ip k) as Hadr
    by (intros; apply addr_of_set; [apply Hf|lia|done]).
  assert (addr_of ip1 12 = addr_of ip 12) as Hi by (rewrite Hadr by lia; case_match; lia).
  assert (∀ x, 0 ≤ x < MAXFILE → fblk v1 ip1 x = if x =? bn then a else fblk v ip x) as Hfb.
  { intros x Hx. rewrite <-(alloc_fblk v a Ha Hfree ip x Hf). fold v1. unfold fblk, NDIRECT.
    rewrite Hi. destruct (Z.ltb_spec x 12); [apply Hadr; lia|].
    destruct (Z.eqb_spec x bn); [lia|done]. }
  split.
  - eapply (file_attach v ip v1 ip1 bn a); try done.
    + by apply alloc_data_new.
    + symmetry. by apply (file_ind_ne v).
    + intros x. by apply (file_fblk_ne v).
    + intros x. by apply alloc_data_ok.
    + unfold ip1. cbn. rewrite length_insert. apply Hf.
  - by apply (alloc_meta_ok g sb ds Hla).
  - done.
  - intros x Hx Hn. rewrite Hfb by done. destruct (Z.eqb_spec x bn) as [->|]; [|done].
    destruct Hn. unfold fblk, NDIRECT. by destruct (Z.ltb_spec bn 12); [|lia].
  - intros x Hx Hn. rewrite Hfb by done. destruct (x =? bn); [|by left].
    right. split; [done|]. apply alloc_view_a.
  - left. done.
  - apply alloc_used_mono.
  - intros x Hm Hu _. by apply alloc_frame.
Qed.

Lemma indirect_addr :
  addr_of (set_addrs (<[Z.to_nat NDIRECT := a]> (i_addrs ip)) ip) NDIRECT = a.
Proof. rewrite addr_of_set; [done|apply Hf|unfold NDIRECT; lia|done]. Qed.
Lemma indirect_fblk x :
  0 ≤ x → addr_of ip NDIRECT = 0 →
  fblk v1 (set_addrs (<[Z.to_nat NDIRECT := a]> (i_addrs ip)) ip) x = fblk v ip x.
Proof.
  intros Hx Hz. unfold fblk. rewrite indirect_addr, Hz.
  rewrite addr_of_set by (done || apply Hf). destruct (Z.ltb_spec x NDIRECT).
  - by destruct (Z.eqb_spec x NDIRECT); [lia|].
  - destruct (a =? 0); [done|]. unfold v1. rewrite alloc_view_a. by rewrite get32_zero.
Qed.
Lemma grow_indirect :
  addr_of ip NDIRECT = 0 → grow v ip v1 (set_addrs (<[Z.to_nat NDIRECT := a]> (i_addrs ip)) ip).
Proof.
  intros Hz. pose proof indirect_addr as Hi.
  assert (∀ x, 0 ≤ x → fblk v1 (set_addrs (<[Z.to_nat NDIRECT := a]> (i_addrs ip)) ip) x = fblk v ip x)
    as Hfb by (intros; by apply indirect_fblk).
  set (ip1 := set_addrs _ ip) in *.
  assert (∀ x, 0 ≤ x < MAXFILE → fblk v1 ip1 x = fblk v ip x) as Hfb' by (intros; apply Hfb; lia).
  split.
  - split.
    + unfold ip1. cbn. rewrite length_insert. apply Hf.
    + apply (fo_dev _ _ _ _ _ Hf).
    + apply (fo_size _ _ _ _ _ Hf).
    + intros x Hx. rewrite Hfb' by done. intros Hn. apply alloc_data_ok; [done..|].
      by apply (fo_blk _ _ _ _ _ Hf).
    + intros _. rewrite Hi. by apply alloc_data_new.
    + intros x Hx. rewrite Hfb by done. by apply (fo_mapped _ _ _ _ _ Hf).
    + intros x y Hx Hy. rewrite !Hfb' by done. by apply (fo_inj _ _ _ _ _ Hf).
    + intros x Hx _. rewrite Hfb', Hi by done. by apply (file_fblk_ne v).
  - by apply (alloc_meta_ok g sb ds Hla).
  - done.
  - intros x Hx _. by apply Hfb'.
  - intros x Hx Hn. left. by rewrite Hfb'.
  - right. by rewrite Hi.
  - apply alloc_used_mono.
  - intros x Hm Hu _. by apply alloc_frame.
Qed.

(** Slot [bn] of the indirect block. *)
Section slot.
Context (bn : Z).
Let ind := addr_of ip NDIRECT.
Let v2 := upd v1 ind (put32 (v1 ind) (4 * bn) a).
Context (Hbn : 0 ≤ bn < NINDIRECT) (Hi : ind ≠ 0).

Lemma slot_data_ind : data_ok g sb ds v ind.
Proof. by apply (fo_ind _ _ _ _ _ Hf). Qed.
Lemma slot_ind : v2 ind = put32 (v ind) (4 * bn) a.
Proof.
  unfold v2. rewrite fupd_at. unfold v1. by rewrite (alloc_view_data v a Ha Hfree _ slot_data_ind).
Qed.
Lemma slot_other x : x ≠ ind → v2 x = v1 x.
Proof. apply fupd_off. Qed.
Lemma slot_map b : 0 ≤ b < g_size g → v2 (bmapblk sb b) = v1 (bmapblk sb b).
Proof.
  intros Hb. apply slot_other. intros E. apply (used_not_map v ind slot_data_ind).
  rewrite <-E. by exists b.
Qed.
Lemma slot_fblk x :
  0 ≤ x < MAXFILE → fblk v2 ip x = if x =? bn + NDIRECT then a else fblk v ip x.
Proof.
  intros Hx. pose proof (dk_len _ _ _ _ _ slot_data_ind) as Hlen.
  pose proof (so_max _ _ (la_sb _ _ _ Hla)). pose proof slot_ind as Eind.
  unfold fblk, NINDIRECT, NDIRECT, BSIZE in *. change (512 / 4) with 128 in *.
  fold ind. destruct (Z.ltb_spec x 12).
  - by destruct (Z.eqb_spec x (bn + 12)); [lia|].
  - destruct (Z.eqb_spec ind 0); [done|]. rewrite Eind.
    destruct (Z.eqb_spec x (bn + 12)) as [->|].
    + replace (bn + 12 - 12) with bn by lia. rewrite get32_put32, u32_id; unfold is_u32; lia.
    + apply get32_put32_ne; lia.
Qed.
Lemma slot_data x : data_ok g sb ds v1 x → data_ok g sb ds v2 x.
Proof.
  intros [Hr Hu Hl]. pose proof (la_ds _ _ _ Hla). split; [done| |].
  - unfold used. by rewrite slot_map by lia.
  - pose proof (dk_len _ _ _ _ _ slot_data_ind). unfold NINDIRECT, BSIZE in *.
    change (512 / 4) with 128 in *.
    destruct (decide (x = ind)) as [->|]; [|by rewrite slot_other]. rewrite slot_ind, length_put32; lia.
Qed.
Lemma slot_fblk_old : get32 (v ind) (4 * bn) = 0 → fblk v ip (bn + NDIRECT) = 0.
Proof.
  intros Hz. unfold fblk, NDIRECT in *. destruct (Z.ltb_spec (bn + 12) 12); [lia|]. fold ind.
  destruct (Z.eqb_spec ind 0); [done|]. by replace (bn + 12 - 12) with bn by lia.
Qed.

Lemma grow_slot : get32 (v ind) (4 * bn) = 0 → grow v ip v2 ip.
Proof.
  intros Hz. pose proof (la_ds _ _ _ Hla). split.
  - eapply (file_attach v ip v2 ip (bn + NDIRECT) a); try done.
    + apply slot_data. by apply alloc_data_new.
    + symmetry. by apply (file_ind_ne v).
    + intros x. by apply (file_fblk_ne v).
    + intros x Hx. by apply slot_data, alloc_data_ok.
    + apply slot_fblk.
    + apply Hf.
  - destruct (alloc_meta_ok g sb ds Hla v a Hme Ha Hfree) as [Hml Hmu]. split.
    + intros b Hb. rewrite slot_map by done. by apply Hml.
    + intros b Hb. unfold used. rewrite slot_map by lia. by apply Hmu.
  - by destruct ip.
  - intros x Hx Hn. rewrite slot_fblk by done. destruct (Z.eqb_spec x (bn + NDIRECT)) as [->|]; [|done].
    by rewrite slot_fblk_old in Hn.
  - intros x Hx Hn. rewrite slot_fblk by done. destruct (x =? bn + NDIRECT); [right|by left].
    split; [done|]. rewrite slot_other; [apply alloc_view_a|]. apply not_eq_sym. by apply (file_ind_ne v).
  - by left.
  - intros b Hb Hu. unfold used. rewrite slot_map by done. by apply alloc_used_mono.
  - intros x Hm Hu Hx. rewrite slot_other by done. by apply alloc_frame.
Qed.
End slot.
End attach.
End grow.

(** ** [bmap] *)

(** The blocks in the log, counting the free map and the indirect block
    even if they are not yet in it. *)
Definition cost (mb : Z) (lg : list Z) (ip : inode) : nat :=
  length lg + (if decide (mb ∈ lg) then 0 else 1) +
  (if decide (addr_of ip NDIRECT ≠ 0 ∧ addr_of ip NDIRECT ∈ lg) then 0 else 1).

Lemma length_add_log_eq lg n : length (add_log lg n) = (length lg + (if decide (n ∈ lg) then 0 else 1))%nat.
Proof. unfold add_log. case_decide; [lia|]. by rewrite length_app. Qed.

Section bmap.
Context {B : Type} `{!BlockOps B, !BlockLaws B} (g : bgeo) (base : view) (ds : Z).
Context (s0 : fss B) (Hla : layout g (f_sb s0) ds).
Let sb := f_sb s0.
Let mb := bmapstart sb.
(** The free map is one block. *)
Context (Hone : g_size g ≤ BPB).
Context (i : nat) (ip : inode) (Hip : icache s0 !! i = Some ip).
Context (v : view) (lg : list Z) (Hfile : file_ok g sb ds v ip) (Hme : meta_ok g sb ds v).

Lemma one_map b : 0 ≤ b < g_size g → bmapblk sb b = mb.
Proof. intros Hb. unfold bmapblk, mb, BPB, BSIZE in *. rewrite Z.div_small; lia. Qed.

Lemma length_alloc_log a :
  0 ≤ a < g_size g →
  (length (alloc_log sb lg a) ≤ length lg + (if decide (mb ∈ lg) then 0 else 1) + 1)%nat.
Proof.
  intros Ha. unfold alloc_log. rewrite one_map by done.
  pose proof (length_add_log (add_log lg mb) a). rewrite (length_add_log_eq lg mb) in *. lia.
Qed.
Lemma elem_alloc_log a x : 0 ≤ a < g_size g → x ∈ alloc_log sb lg a ↔ x ∈ lg ∨ x = mb ∨ x = a.
Proof. intros Ha. unfold alloc_log. rewrite !elem_of_add_log, one_map by done. tauto. Qed.

(** An allocation in a state where buffers of allocated blocks are held. *)
Lemma balloc_free_wp s hold (Q : Z → fss B → Prop) :
  at_fs g base s0 s v lg hold → hold_ok g sb ds v hold → (0 < nfree g sb v)%nat →
  (length lg + size hold + 1 < Z.to_nat NBUF)%nat → Z.of_nat (length lg) + 1 < g_nlog g - 1 →
  (∀ a s', 0 ≤ a < g_size g → used sb v a = false →
     nfree g sb v = S (nfree g sb (alloc_view sb v a)) →
     at_fs g base s0 s' (alloc_view sb v a) (alloc_log sb lg a) hold → Q a s') →
  wp (balloc 1) Q s.
Proof.
  intros Ha Hh Hn Hr Hc HQ.
  eapply (balloc_wp g base s0 (la_sb _ _ _ Hla)); [done|..].
  - by apply (layout_map_ok g sb ds Hla).
  - by apply nfree_exists.
  - done.
  - done.
  - intros a s' Har Hu H'. apply HQ; try done. by apply nfree_alloc with ds.
Qed.

Lemma wp_addr_put s v1 lg1 hold k a (Q : unit → fss B → Prop) :
  at_fs g base s0 s v1 lg1 hold →
  (∀ s', at_fs g base (put_inode i (set_addrs (<[Z.to_nat k := a]> (i_addrs ip)) ip) s0) s' v1 lg1 hold →
    Q tt s') → wp (addr_put i k a) Q s.
Proof. intros Ha HQ. by eapply (wp_inode_upd g base s0 s). Qed.

Lemma cost_le lg' ip' k :
  mb ∈ lg' →
  (addr_of ip NDIRECT ≠ 0 ∧ addr_of ip NDIRECT ∈ lg → addr_of ip' NDIRECT ≠ 0 ∧ addr_of ip' NDIRECT ∈ lg') →
  (length lg' ≤ length lg + (if decide (mb ∈ lg) then 0 else 1) + k)%nat →
  (cost mb lg' ip' ≤ cost mb lg ip + k)%nat.
Proof.
  intros Hm Hi Hl. unfold cost. rewrite (decide_True _ _ Hm).
  destruct (decide (addr_of ip NDIRECT ≠ 0 ∧ _)) as [Hd|]; [rewrite (decide_True _ _ (Hi Hd)); lia|].
  destruct (decide (addr_of ip' NDIRECT ≠ 0 ∧ _)); lia.
Qed.

(** What a call of [bmap] for block [bn] leaves. *)
Record bmapped (bn : Z) (v' : view) (ip' : inode) (lg' : list Z) (s' : fss B) : Prop := {
  bm_grow : grow g sb ds v ip v' ip';
  bm_at : at_fs g base (put_inode i ip' s0) s' v' lg' ∅;
  bm_map : fblk v' ip' bn ≠ 0;
  bm_cost : (cost mb lg' ip' ≤ cost mb lg ip + (if decide (fblk v' ip' bn ∈ lg') then 1 else 0))%nat;
  bm_free : (nfree g sb v ≤ nfree g sb v' + 2)%nat;
  bm_same : fblk v ip bn ≠ 0 → v' = v ∧ ip' = ip;
}.

Lemma put_inode_same (s : fss B) : icache s !! i = Some ip → put_inode i ip s = s.
Proof.
  intros H. unfold put_inode, on_icache. destruct s; cbn in *. by rewrite list_insert_id.
Qed.

Context (Hroom : (cost mb lg ip + 2 < Z.to_nat NBUF)%nat) (Hcap : Z.of_nat (cost mb lg ip) + 1 < g_nlog g - 1).
Context (Hfree : (0 < nfree g sb v)%nat).

Lemma bmap_direct_wp s bn (Q : Z → fss B → Prop) :
  at_fs g base s0 s v lg ∅ → 0 ≤ bn < NDIRECT → fblk v ip bn = 0 →
  (∀ v' ip' lg' s', bmapped bn v' ip' lg' s' → Q (fblk v' ip' bn) s') → wp (bmap i bn) Q s.
Proof.
  intros Ha Hbn Hz HQ. pose proof Hroom as Hroom'. pose proof Hcap as Hcap'. unfold cost in Hroom', Hcap'.
  assert (addr_of ip bn = 0) as Hz' by (unfold fblk in Hz; by destruct (Z.ltb_spec bn NDIRECT); [|lia]).
  unfold bmap. destruct (Z.ltb_spec bn NDIRECT); [|lia].
  apply wp_bind. eapply wp_addr_get; [done|done|apply Hfile|lia|]. rewrite Hz'. cbn [Z.eqb].
  apply wp_bind. eapply wp_inode_get; [done|done|]. rewrite (fo_dev _ _ _ _ _ Hfile).
  apply wp_bind. eapply balloc_free_wp; [done|apply hold_ok_empty|lia|rewrite map_size_empty; lia|lia|].
  intros a s1 Har Hu Hnf H1. apply wp_bind. eapply wp_addr_put; [done|]. intros s2 H2. apply wp_ret.
  set (ip1 := set_addrs _ ip) in *.
  assert (fblk (alloc_view sb v a) ip1 bn = a) as Eb.
  { unfold fblk. destruct (Z.ltb_spec bn NDIRECT); [|lia]. unfold ip1.
    rewrite addr_of_set, Z.eqb_refl; [done|apply Hfile|unfold NDIRECT in *; lia|lia]. }
  assert (addr_of ip1 NDIRECT = addr_of ip NDIRECT) as Ei.
  { unfold ip1. rewrite addr_of_set; [|apply Hfile|unfold NDIRECT in *; lia|done].
    by destruct (Z.eqb_spec NDIRECT bn); [lia|]. }
  pose proof (alloc_ds g sb ds v a Hme Har Hu). pose proof (la_ds _ _ _ Hla).
  rewrite <-Eb. apply (HQ _ ip1 (alloc_log sb lg a)). split; [by apply grow_direct|done|lia| |lia|done].
  rewrite Eb. pose proof (length_alloc_log a Har) as Hlen.
  rewrite (decide_True _ _ (proj2 (elem_alloc_log a a Har) (or_intror (or_intror eq_refl)))).
  eapply cost_le; [apply elem_alloc_log; tauto| |lia].
  intros [? ?]. rewrite Ei. split; [done|]. apply elem_alloc_log; tauto.
Qed.

(** The indirect block is there, or is allocated. *)
Lemma bmap_ind_wp s (Q : Z → fss B → Prop) :
  at_fs g base s0 s v lg ∅ →
  (∀ v1 ip1 lg1 s1, grow g sb ds v ip v1 ip1 → at_fs g base (put_inode i ip1 s0) s1 v1 lg1 ∅ →
     addr_of ip1 NDIRECT ≠ 0 → (cost mb lg1 ip1 ≤ cost mb lg ip)%nat →
     (∀ x, 0 ≤ x → fblk v1 ip1 x = fblk v ip x) →
     (nfree g sb v ≤ nfree g sb v1 + 1)%nat → Q (addr_of ip1 NDIRECT) s1) →
  wp (if addr_of ip NDIRECT =? 0 then
        a ← balloc (i_dev ip); addr_put i NDIRECT a;; mret a
      else mret (addr_of ip NDIRECT)) Q s.
Proof.
  intros Ha HQ. pose proof Hroom as Hroom'. pose proof Hcap as Hcap'. unfold cost in Hroom', Hcap'.
  destruct (Z.eqb_spec (addr_of ip NDIRECT) 0) as [Hz|Hz].
  2: { apply wp_ret. apply (HQ v ip lg); [by apply grow_refl|by rewrite put_inode_same|done|lia|done|lia]. }
  rewrite (fo_dev _ _ _ _ _ Hfile).
  apply wp_bind. eapply balloc_free_wp; [done|apply hold_ok_empty|lia|rewrite map_size_empty; lia|lia|].
  intros a s1 Har Hu Hnf H1. apply wp_bind. eapply wp_addr_put; [done|]. intros s2 H2. apply wp_ret.
  set (ip1 := set_addrs _ ip) in *.
  assert (addr_of ip1 NDIRECT = a) as Ei by (by eapply indirect_addr).
  pose proof (alloc_ds g sb ds v a Hme Har Hu). pose proof (la_ds _ _ _ Hla).
  rewrite <-Ei. apply (HQ (alloc_view sb v a) ip1 (alloc_log sb lg a));
    [by apply grow_indirect|done|lia| |intros; by apply (indirect_fblk g sb ds)|lia].
  pose proof (length_alloc_log a Har) as Hlen. unfold cost. rewrite Ei, Hz.
  rewrite (decide_True _ _ (proj2 (elem_alloc_log a mb Har) (or_intror (or_introl eq_refl)))).
  rewrite (decide_False (P := 0 ≠ 0 ∧ _)) by tauto.
  rewrite decide_True; [lia|]. split; [lia|]. apply elem_alloc_log; tauto.
Qed.

(** The rest of [bmap] for an indirect block. *)
Definition bmap_slot (addr bn : Z) : M (fss B) Z :=
  bp ← blk (bread 1 addr);
  d ← blk (bdata bp);
  addr ←
    (if get32 d (4 * bn) =? 0 then
       a ← balloc 1;
       d ← blk (bdata bp);
       blk (bstore bp (put32 d (4 * bn) a));;
       blk (log_write bp);;
       mret a
     else mret (get32 d (4 * bn)));
  blk (brelse bp);;
  mret addr.

Lemma bmap_slot_wp s bn (Q : Z → fss B → Prop) :
  at_fs g base s0 s v lg ∅ → 0 ≤ bn < NINDIRECT → addr_of ip NDIRECT ≠ 0 →
  fblk v ip (bn + NDIRECT) = 0 →
  (∀ v' lg' s', bmapped (bn + NDIRECT) v' ip lg' s' → (nfree g sb v ≤ nfree g sb v' + 1)%nat →
     Q (fblk v' ip (bn + NDIRECT)) s') →
  wp (bmap_slot (addr_of ip NDIRECT) bn) Q s.
Proof.
  intros Ha Hbn Hi Hz HQ. pose proof Hroom as Hroom'. pose proof Hcap as Hcap'.
  unfold cost in Hroom', Hcap'.
  pose proof (fo_ind _ _ _ _ _ Hfile Hi) as Hid. destruct (data_home _ _ _ _ _ Hla Hid) as (Hih&Hir&_).
  set (ind := addr_of ip NDIRECT) in *.
  assert (get32 (v ind) (4 * bn) = 0) as Hz'.
  { unfold fblk in Hz. unfold NDIRECT in *. destruct (Z.ltb_spec (bn + 12) 12); [lia|].
    fold ind in Hz. destruct (Z.eqb_spec ind 0); [done|]. by replace (bn + 12 - 12) with bn in Hz by lia. }
  unfold bmap_slot. apply wp_bind.
  eapply fs_bread; [done|done|intros j; by rewrite lookup_empty|
    right; rewrite map_size_empty, Nat.add_0_r; lia|].
  intros j s1 Hj H1. pose proof (lookup_insert_eq (∅ : gmap nat Z) j ind) as Hl.
  apply wp_bind. eapply fs_bdata; [done|done|]. rewrite Hz'. cbn [Z.eqb].
  apply wp_bind, wp_bind. eapply balloc_free_wp; [done| |lia|rewrite map_size_insert_None, map_size_empty by done; lia|lia|].
  { intros j' n [[_ <-]|[_ ?]]%lookup_insert_Some; [|done]. split; apply Hid. }
  intros a s2 Har Hu Hnf H2. apply wp_bind. eapply fs_bdata; [done|done|].
  pose proof (length_alloc_log a Har) as Hlen. set (lg1 := alloc_log sb lg a) in *.
  apply wp_bind. eapply fs_bstore; [done|done|]. intros s3 H3.
  set (v2 := upd _ ind _) in H3.
  apply wp_bind. eapply fs_log; [done|done|done|repeat case_decide; lia|]. intros s4 H4. apply wp_ret.
  apply wp_bind. eapply fs_brelse; [done|done|left; apply elem_of_add_log; by right|].
  intros s5 H5. rewrite delete_insert_id in H5 by done. apply wp_ret.
  assert (fblk v2 ip (bn + NDIRECT) = a) as Eb.
  { unfold v2. rewrite (slot_fblk g sb ds Hla v ip a Hfile Har Hu bn Hbn Hi); [by rewrite Z.eqb_refl|].
    unfold MAXFILE, NDIRECT, NINDIRECT in *. lia. }
  assert (nfree g sb v2 = nfree g sb (alloc_view sb v a)) as En.
  { apply nfree_ext. intros b Hb. unfold used. f_equal.
    exact (slot_map g sb ds Hla v ip a Hfile bn Hi b Hb). }
  pose proof (alloc_ds g sb ds v a Hme Har Hu). pose proof (la_ds _ _ _ Hla).
  rewrite <-Eb. apply (HQ v2 (add_log lg1 ind)); [|lia].
  split; [by apply grow_slot|by rewrite put_inode_same|lia| |lia|done].
  rewrite Eb, decide_True by (apply elem_of_add_log; left; apply elem_alloc_log; tauto).
  unfold cost. fold ind. rewrite length_add_log_eq.
  rewrite (decide_True (P := mb ∈ _)) by (apply elem_of_add_log; left; apply elem_alloc_log; tauto).
  rewrite (decide_True (P := ind ≠ 0 ∧ ind ∈ add_log _ _)) by (split; [done|apply elem_of_add_log; tauto]).
  destruct (decide (ind ∈ lg)) as [Hl1|Hl1]; [rewrite (decide_True (P := ind ∈ lg1)) by (apply elem_alloc_log; tauto)|];
    repeat case_decide; lia || tauto.
Qed.
End bmap.

Section bmap_all.
Context {B : Type} `{!BlockOps B, !BlockLaws B} (g : bgeo) (base : view) (ds : Z).
Context (s0 : fss B) (Hla : layout g (f_sb s0) ds).
Let sb := f_sb s0.
Let mb := bmapstart sb.
Context (Hone : g_size g ≤ BPB) (i : nat).

Lemma put_inode_twice ip1 ip2 (s : fss B) : put_inode i ip2 (put_inode i ip1 s) = put_inode i ip2 s.
Proof. unfold put_inode, on_icache. cbn. by rewrite list_insert_insert_eq. Qed.
Lemma put_inode_lookup ip1 (s : fss B) ip : icache s !! i = Some ip → icache (put_inode i ip1 s) !! i = Some ip1.
Proof. intros H. apply list_lookup_insert_eq. by eapply lookup_lt_Some. Qed.

Lemma bmap_wp ip v lg s bn (Q : Z → fss B → Prop) :
  icache s0 !! i = Some ip → file_ok g sb ds v ip → meta_ok g sb ds v →
  (cost mb lg ip + 2 < Z.to_nat NBUF)%nat → Z.of_nat (cost mb lg ip) + 1 < g_nlog g - 1 →
  (2 ≤ nfree g sb v)%nat →
  at_fs g base s0 s v lg ∅ → 0 ≤ bn < MAXFILE →
  (∀ v' ip' lg' s', bmapped g base ds s0 i ip v lg bn v' ip' lg' s' → Q (fblk v' ip' bn) s') →
  wp (bmap i bn) Q s.
Proof.
  intros Hip Hfile Hme Hroom Hcap Hfree Ha Hbn HQ.
  destruct (decide (fblk v ip bn = 0)) as [Hz|Hz].
  2: { eapply (bmap_mapped g base ds s0 Hla i ip Hip v lg Hfile); try done.
       { unfold cost in Hroom. lia. }
       intros s' H'. apply (HQ v ip lg s'). split; try done; [by apply grow_refl|by rewrite put_inode_same|lia|lia]. }
  destruct (decide (bn < NDIRECT)) as [Hd|Hd].
  { eapply (bmap_direct_wp g base ds s0 Hla Hone i ip Hip v lg Hfile Hme); fold sb; fold mb; try done; lia. }
  unfold bmap. destruct (Z.ltb_spec bn NDIRECT); [lia|].
  unfold MAXFILE in Hbn. destruct (Z.ltb_spec (bn - NDIRECT) NINDIRECT); [|lia].
  apply wp_bind. eapply wp_addr_get; [done|done|apply Hfile|done|].
  apply wp_bind. eapply wp_inode_get; [done|done|].
  apply wp_bind. eapply (bmap_ind_wp g base ds s0 Hla Hone i ip Hip v lg Hfile Hme); fold sb; fold mb; [done|done|lia|done|].
  intros v1 ip1 lg1 s1 G1 H1 Hi1 Hc1 Hb1 Hf1. rewrite (fo_dev _ _ _ _ _ Hfile).
  set (s0' := put_inode i ip1 s0) in *.
  eapply (bmap_slot_wp g base ds s0' Hla Hone i ip1 (put_inode_lookup ip1 s0 ip Hip) v1 lg1
    (gr_file _ _ _ _ _ _ _ G1) (gr_meta _ _ _ _ _ _ _ G1)); change (f_sb s0') with sb; fold mb; try done; try lia.
  - replace (bn - NDIRECT + NDIRECT) with bn by lia. rewrite Hb1; [done|lia].
  - replace (bn - NDIRECT + NDIRECT) with bn by lia. intros v' lg' s' [G2 A2 M2 C2 F2 _] Hn.
    apply (HQ v' ip1 lg' s'). split; try done.
    + by eapply grow_trans.
    + unfold s0' in A2. by rewrite put_inode_twice in A2.
    + change (f_sb s0') with sb in C2. fold mb in C2. fold sb. fold mb. lia.
    + change (f_sb s0') with sb in Hn. fold sb. lia.
Qed.
End bmap_all.
