(* ===== verification/FsWrite.v ===== *)
(** * Reading and writing files

    [writei] replaces bytes of the file's contents, allocating the blocks it
    needs, and touches no other file; [readi] returns bytes of the contents. *)

From S2P Require Import Prelude Params Sleeplock Blocks Bio Log LogThms Fs BlockLaws FsBlocks FsFile.

(** ** Other views of the same file *)

Section frame.
Context (g : bgeo) (sb : superblock) (ds : Z) (Hla : layout g sb ds).

(** [x] is a block of the file. *)
Definition owns (v : view) (ip : inode) (x : Z) : Prop :=
  x ≠ 0 ∧ (x = addr_of ip NDIRECT ∨ ∃ bn, 0 ≤ bn < MAXFILE ∧ x = fblk v ip bn).

Lemma owns_data v ip x : file_ok g sb ds v ip → owns v ip x → data_ok g sb ds v x.
Proof.
  intros Hf [Hx [->|(bn&Hbn&->)]]; [by apply (fo_ind _ _ _ _ _ Hf)|by apply (fo_blk _ _ _ _ _ Hf)].
Qed.

Section agree.
Context (v v' : view) (ip : inode) (Hf : file_ok g sb ds v ip).
Context (Hown : ∀ x, owns v ip x → length (v' x) = Z.to_nat BSIZE).
Context (Hind : addr_of ip NDIRECT ≠ 0 → v' (addr_of ip NDIRECT) = v (addr_of ip NDIRECT)).
Context (Hused : ∀ b, 0 ≤ b < g_size g → used sb v b = true → used sb v' b = true).

Lemma fblk_agree bn : fblk v' ip bn = fblk v ip bn.
Proof.
  unfold fblk. destruct (bn <? NDIRECT); [done|].
  destruct (Z.eqb_spec (addr_of ip NDIRECT) 0); [done|]. by rewrite Hind.
Qed.
Lemma data_agree x : owns v ip x → data_ok g sb ds v' x.
Proof.
  intros Ho. pose proof (owns_data _ _ _ Hf Ho) as Hd. split; [apply Hd| |by apply Hown].
  apply Hused; [|apply Hd]. pose proof (data_pos g sb ds Hla _ _ Hd). lia.
Qed.
Lemma file_agree : file_ok g sb ds v' ip.
Proof.
  destruct Hf as [Hl Hd Hs Hb Hi Hm Hj Hn]. split; try done.
  - intros bn Hbn. rewrite fblk_agree. intros Hz. apply data_agree. split; [done|]. right. by exists bn.
  - intros Hz. apply data_agree. split; [done|by left].
  - intros bn. rewrite fblk_agree. apply Hm.
  - intros bn bn'. rewrite !fblk_agree. apply Hj.
  - intros bn. rewrite fblk_agree. apply Hn.
Qed.
Lemma fbyte_agree k : v' (fblk v ip (k / BSIZE)) = v (fblk v ip (k / BSIZE)) → fbyte v' ip k = fbyte v ip k.
Proof. intros E. unfold fbyte. by rewrite fblk_agree, E. Qed.
End agree.

Lemma fbytes_ext v ip v' ip' off n :
  0 ≤ off → (∀ k, off ≤ k < off + n → fbyte v' ip' k = fbyte v ip k) → fbytes v' ip' off n = fbytes v ip off n.
Proof.
  intros H0 H. unfold fbytes. apply list_fmap_ext. intros i x Hx. apply lookup_seqZ in Hx as [-> ?].
  apply H. lia.
Qed.

(** A file none of whose blocks changes. *)
Lemma file_frame v v' ip :
  file_ok g sb ds v ip → (∀ x, owns v ip x → v' x = v x) →
  (∀ b, 0 ≤ b < g_size g → used sb v b = true → used sb v' b = true) →
  file_ok g sb ds v' ip ∧ (∀ bn, fblk v' ip bn = fblk v ip bn) ∧
  (∀ k, 0 ≤ k < i_size ip → fbyte v' ip k = fbyte v ip k) ∧ content v' ip = content v ip.
Proof.
  intros Hf Ho Hu.
  assert (∀ x, owns v ip x → length (v' x) = Z.to_nat BSIZE) as Hl.
  { intros x Hx. rewrite Ho by done. by apply (owns_data _ _ _ Hf). }
  assert (addr_of ip NDIRECT ≠ 0 → v' (addr_of ip NDIRECT) = v (addr_of ip NDIRECT)) as Hi.
  { intros Hz. apply Ho. split; [done|by left]. }
  assert (∀ k, 0 ≤ k < i_size ip → fbyte v' ip k = fbyte v ip k) as Hb.
  { intros k Hk. apply fbyte_agree; [done|]. apply Ho. pose proof (fo_size _ _ _ _ _ Hf).
    split; [apply (fo_mapped _ _ _ _ _ Hf); unfold BSIZE; zdm|]. right. eexists; split; [|done].
    unfold MAXFILE, NDIRECT, NINDIRECT, BSIZE in *. change (512 / 4) with 128 in *. zdm. }
  split_and!; [by apply (file_agree v)|by intros; apply fblk_agree|done|].
  apply fbytes_ext; [done|]. intros k Hk. apply Hb. lia.
Qed.

(** Block [bn] of the file is overwritten. *)
Section poke.
Context (v : view) (ip : inode) (bn : Z) (d : list Z).
Context (Hf : file_ok g sb ds v ip) (Hme : meta_ok g sb ds v).
Context (Hbn : 0 ≤ bn < MAXFILE) (Hz : fblk v ip bn ≠ 0) (Hd : length d = Z.to_nat BSIZE).
Let a := fblk v ip bn.
Let v' := upd v a d.

Lemma poke_map b : 0 ≤ b < g_size g → v' (bmapblk sb b) = v (bmapblk sb b).
Proof.
  intros Hb. apply fupd_off. intros E. apply (used_not_map g sb ds Hla v a); [by apply (fo_blk _ _ _ _ _ Hf)|].
  by exists b.
Qed.
Lemma poke_used b : 0 ≤ b < g_size g → used sb v' b = used sb v b.
Proof. intros Hb. unfold used. by rewrite poke_map. Qed.
Lemma poke_meta : meta_ok g sb ds v'.
Proof.
  destruct Hme as [Hl Hu]. pose proof (la_ds _ _ _ Hla). split; intros b Hb; [rewrite poke_map by lia|rewrite poke_used by lia]; auto.
Qed.
Lemma poke_ind : addr_of ip NDIRECT ≠ 0 → v' (addr_of ip NDIRECT) = v (addr_of ip NDIRECT).
Proof. intros _. apply fupd_off. apply not_eq_sym. by apply (fo_ind_ne _ _ _ _ _ Hf). Qed.
Lemma poke_file : file_ok g sb ds v' ip.
Proof.
  apply (file_agree v); [done| |apply poke_ind|by intros; rewrite poke_used].
  intros x Hx. unfold v'. destruct (decide (x = a)) as [->|]; [by rewrite fupd_at|].
  rewrite fupd_off by done. by apply (owns_data _ _ _ Hf).
Qed.
Lemma poke_fblk x : fblk v' ip x = fblk v ip x.
Proof. apply fblk_agree. apply poke_ind. Qed.
Lemma poke_byte k :
  0 ≤ k / BSIZE < MAXFILE → fblk v ip (k / BSIZE) ≠ 0 →
  fbyte v' ip k = if k / BSIZE =? bn then byte_at d (k mod BSIZE) else fbyte v ip k.
Proof.
  intros Hk Hkz. unfold fbyte. rewrite poke_fblk. unfold v'.
  destruct (Z.eqb_spec (k / BSIZE) bn) as [->|Hne]; [by rewrite fupd_at|].
  rewrite fupd_off; [done|]. intros E. apply Hne. by apply (fo_inj _ _ _ _ _ Hf).
Qed.
End poke.
End frame.

(** ** [writei] *)

(** How many blocks [n] bytes from offset [off] on are spread over. *)
Definition nblocks_of (off n : Z) : nat :=
  if n <=? 0 then 0 else Z.to_nat ((off + n - 1) / BSIZE - off / BSIZE + 1).

Lemma nblocks_step off n m :
  0 ≤ off → m = Z.min n (BSIZE - off mod BSIZE) → 0 < n →
  nblocks_of off n = S (nblocks_of (off + m) (n - m)).
Proof.
  intros H0 -> Hn. unfold nblocks_of, BSIZE.
  destruct (Z.leb_spec n 0); [lia|].
  destruct (Z.leb_spec (n - Z.min n (512 - off mod 512)) 0); zdm.
Qed.

Section write.
Context (g : bgeo) (sb : superblock) (ds : Z) (Hla : layout g sb ds).

(** The first [off] bytes of the file are in mapped blocks. *)
Definition mapped_to (v : view) (ip : inode) (off : Z) : Prop :=
  ∀ bn, 0 ≤ bn → bn * BSIZE < off → fblk v ip bn ≠ 0.

(** The bytes [src] are written at offset [off] of the file. *)
Record written (off : Z) (src : list Z) (v : view) (ip : inode) (v' : view) (ip' : inode) : Prop := {
  wr_file : file_ok g sb ds v' ip';
  wr_meta : meta_ok g sb ds v';
  wr_ip : ip' = set_addrs (i_addrs ip') ip;
  wr_mapped : mapped_to v' ip' (Z.max (i_size ip) (off + Z.of_nat (length src)));
  wr_bytes k : 0 ≤ k < Z.max (i_size ip) (off + Z.of_nat (length src)) →
    fbyte v' ip' k = if (off <=? k) && (k <? off + Z.of_nat (length src)) then byte_at src (k - off)
                     else fbyte v ip k;
  wr_used b : 0 ≤ b < g_size g → used sb v b = true → used sb v' b = true;
  wr_frame x : ¬ is_map g sb x → (0 ≤ x < g_size g → used sb v x = true) → ¬ owns v ip x →
    v' x = v x ∨ x = 0;
  wr_same : off + Z.of_nat (length src) ≤ i_size ip → ip' = ip;
}.

Lemma written_nil off v ip :
  file_ok g sb ds v ip → meta_ok g sb ds v → mapped_to v ip (Z.max (i_size ip) off) →
  written off [] v ip v ip.
Proof.
  intros Hf Hm Hp. split; cbn [length]; rewrite ?Z.add_0_r; try done.
  - by destruct ip.
  - intros k _. by destruct (Z.leb_spec off k), (Z.ltb_spec k off); try lia.
  - by left.
Qed.

(** [bmap] extends what is mapped. *)
Lemma grow_mapped v ip v1 ip1 off :
  grow g sb ds v ip v1 ip1 → off ≤ MAXFILE * BSIZE → mapped_to v ip off → mapped_to v1 ip1 off.
Proof.
  intros G Ho Hm bn Hbn Hlt. specialize (Hm bn Hbn Hlt).
  rewrite (gr_blk _ _ _ _ _ _ _ G); [done|unfold BSIZE in *; lia|done].
Qed.
Lemma grow_byte v ip v1 ip1 k :
  file_ok g sb ds v ip → grow g sb ds v ip v1 ip1 → 0 ≤ k / BSIZE < MAXFILE → fblk v ip (k / BSIZE) ≠ 0 →
  fbyte v1 ip1 k = fbyte v ip k.
Proof.
  intros Hf G Hk Hz. pose proof (fo_blk _ _ _ _ _ Hf _ Hk Hz) as Hd.
  unfold fbyte. rewrite (gr_blk _ _ _ _ _ _ _ G) by done. f_equal.
  apply (gr_frame _ _ _ _ _ _ _ G); [by apply (used_not_map g sb ds Hla v)|intros; apply Hd|].
  by apply (fo_ind_ne _ _ _ _ _ Hf).
Qed.
Lemma grow_not_owns v ip v1 ip1 x :
  grow g sb ds v ip v1 ip1 → (0 ≤ x < g_size g → used sb v x = true) → ¬ owns v ip x → ¬ owns v1 ip1 x.
Proof.
  intros G Hu Hn [Hx0 Hx]. pose proof (gr_file _ _ _ _ _ _ _ G) as Hf1.
  pose proof (data_pos g sb ds Hla _ _ (owns_data g sb ds _ _ _ Hf1 (conj Hx0 Hx))) as Hr.
  destruct Hx as [->|(bn&Hbn&->)].
  - destruct (gr_ind _ _ _ _ _ _ _ G) as [E|[E Hfr]].
    + apply Hn. split; [done|by left].
    + rewrite Hu in Hfr by lia. done.
  - destruct (decide (fblk v ip bn = 0)) as [Hz|Hz].
    + destruct (gr_fresh _ _ _ _ _ _ _ G bn Hbn Hz) as [|[Hfr _]]; [done|]. rewrite Hu in Hfr by lia. done.
    + rewrite (gr_blk _ _ _ _ _ _ _ G) in Hn by done. apply Hn. split; [done|]. right. by exists bn.
Qed.

(** One round of the loop, followed by the rest. *)
Section step.
Context (off m : Z) (part rest : list Z) (v : view) (ip : inode) (v1 : view) (ip1 : inode) (v3 : view) (ip3 : inode).
Let bn := off / BSIZE.
Let a := fblk v1 ip1 bn.
Let v2 := upd v1 a (splice (Z.to_nat (off mod BSIZE)) part (v1 a)).
Context (Hf : file_ok g sb ds v ip) (Hpre : mapped_to v ip (Z.max (i_size ip) off)).
Context (G : grow g sb ds v ip v1 ip1) (Hz : fblk v1 ip1 bn ≠ 0).
Context (Hsame : fblk v ip bn ≠ 0 → ip1 = ip).
Context (Hoff : 0 ≤ off) (Hm : m = Z.of_nat (length part)) (Hm1 : 0 < m) (Hm2 : off mod BSIZE + m ≤ BSIZE).
Context (Hmax : off + m + Z.of_nat (length rest) ≤ MAXFILE * BSIZE).
Context (Hw : written (off + m) rest v2 ip1 v3 ip3).

Lemma step_bn : 0 ≤ bn < MAXFILE.
Proof. unfold bn, BSIZE in *. split; zdm. Qed.
Lemma step_len : length (splice (Z.to_nat (off mod BSIZE)) part (v1 a)) = Z.to_nat BSIZE.
Proof.
  pose proof (dk_len _ _ _ _ _ (fo_blk _ _ _ _ _ (gr_file _ _ _ _ _ _ _ G) bn step_bn Hz)) as Hl.
  fold a in Hl. rewrite length_splice; [done|]. rewrite Hl. unfold BSIZE in *. zdm.
Qed.
Lemma step_size : i_size ip1 = i_size ip.
Proof. by rewrite (gr_ip _ _ _ _ _ _ _ G). Qed.

Lemma step_poke k :
  0 ≤ k / BSIZE < MAXFILE → fblk v1 ip1 (k / BSIZE) ≠ 0 →
  fbyte v2 ip1 k = if k / BSIZE =? bn
    then byte_at (splice (Z.to_nat (off mod BSIZE)) part (v1 a)) (k mod BSIZE) else fbyte v1 ip1 k.
Proof. exact (poke_byte g sb ds v1 ip1 bn _ (gr_file _ _ _ _ _ _ _ G) step_bn Hz k). Qed.

Lemma step_bytes k :
  0 ≤ k < Z.max (i_size ip) (off + m) →
  fbyte v2 ip1 k = if (off <=? k) && (k <? off + m) then byte_at part (k - off) else fbyte v ip k.
Proof.
  intros Hk. pose proof step_bn. pose proof (fo_size _ _ _ _ _ Hf).
  pose proof (gr_file _ _ _ _ _ _ _ G) as Hf1.
  pose proof (dk_len _ _ _ _ _ (fo_blk _ _ _ _ _ Hf1 bn step_bn Hz)) as Hl.
  fold a in Hl. assert (0 ≤ k / BSIZE < MAXFILE) as Hkb by (unfold BSIZE in *; split; zdm).
  destruct (decide (off ≤ k < off + m)) as [Hin|Hout].
  - destruct (Z.leb_spec off k), (Z.ltb_spec k (off + m)); try lia. cbn.
    assert (k / BSIZE = bn ∧ k mod BSIZE = off mod BSIZE + (k - off)) as [E1 E2]
      by (unfold bn, BSIZE in *; split; zdm).
    rewrite step_poke by (rewrite ?E1; done). rewrite E1, Z.eqb_refl, E2.
    rewrite byte_at_splice_eq by (unfold BSIZE in *; zdm). f_equal. lia.
  - replace ((off <=? k) && (k <? off + m)) with false
      by (destruct (Z.leb_spec off k), (Z.ltb_spec k (off + m)); try done; lia).
    assert (fblk v ip (k / BSIZE) ≠ 0) as Hkz by (apply Hpre; unfold BSIZE in *; zdm).
    assert (fblk v1 ip1 (k / BSIZE) ≠ 0) as Hkz1 by (by rewrite (gr_blk _ _ _ _ _ _ _ G)).
    rewrite <-(grow_byte v ip v1 ip1 k) by done.
    rewrite step_poke by done.
    destruct (Z.eqb_spec (k / BSIZE) bn) as [E|]; [|done].
    unfold fbyte. rewrite E. fold a. apply byte_at_splice_ne; unfold bn, BSIZE in *; zdm.
Qed.

Lemma written_step : written off (part ++ rest) v ip v3 ip3.
Proof.
  pose proof (gr_file _ _ _ _ _ _ _ G) as Hf1. pose proof (fo_size _ _ _ _ _ Hf) as Hsz.
  pose proof step_size as Es.
  destruct Hw as [W1 W2 W3 W4 W5 W6 W7 W8]. rewrite Es in W4, W5, W8.
  split; rewrite ?length_app, ?Nat2Z.inj_add, <-?Hm, ?Z.add_assoc; try done.
  - rewrite W3. rewrite (gr_ip _ _ _ _ _ _ _ G). by destruct ip.
  - intros k Hk. rewrite W5 by done. unfold byte_at at 2. rewrite nth_lookup.
    destruct (Z.leb_spec (off + m) k), (Z.ltb_spec k (off + m + Z.of_nat (length rest)));
      cbn [andb]; try (rewrite step_bytes by lia);
      destruct (Z.leb_spec off k), (Z.ltb_spec k (off + m)); cbn [andb]; try lia; try done.
    + rewrite lookup_app_r by lia. unfold byte_at. rewrite nth_lookup. do 2 f_equal. lia.
    + rewrite lookup_app_l by lia. unfold byte_at. by rewrite nth_lookup.
  - intros b Hb Hu. apply W6; [done|]. unfold v2, a.
    rewrite (poke_used g sb ds Hla v1 ip1 bn _ Hf1 step_bn Hz) by done. by apply (gr_used _ _ _ _ _ _ _ G).
  - intros x Hx Hu Hn. pose proof (grow_not_owns _ _ _ _ _ G Hu Hn) as Hn1.
    destruct (decide (x = 0)) as [|Hx0]; [by right|].
    assert (x ≠ a) as Hxa.
    { intros ->. apply Hn1. split; [done|]. right. exists bn. split; [apply step_bn|done]. }
    destruct (W7 x) as [->|]; [done| | |left|by right].
    + intros Hr. unfold v2, a. rewrite (poke_used g sb ds Hla v1 ip1 bn _ Hf1 step_bn Hz) by done.
      apply (gr_used _ _ _ _ _ _ _ G); auto.
    + intros [_ Ho]. apply Hn1. split; [done|]. destruct Ho as [Ho|(bn'&Hb'&Ho)]; [by left|right].
      exists bn'. split; [done|]. rewrite Ho. apply (poke_fblk g sb ds v1 ip1 bn _ Hf1 step_bn Hz).
    + unfold v2. rewrite fupd_off by done. apply (gr_frame _ _ _ _ _ _ _ G); [done|done|].
      intros ->. apply Hn. split; [done|by left].
  - intros Hle. rewrite W8 by lia. apply Hsame. apply (fo_mapped _ _ _ _ _ Hf); unfold bn, BSIZE in *; zdm.
Qed.
End step.
End write.

Lemma cost_add_log mb lg ip a :
  (cost mb (add_log lg a) ip ≤ cost mb lg ip + (if decide (a ∈ lg) then 0 else 1))%nat.
Proof.
  unfold cost. rewrite length_add_log_eq.
  assert (∀ x, x ∈ lg → x ∈ add_log lg a) as Hsub by (intros; apply elem_of_add_log; by left).
  destruct (decide (mb ∈ lg)); [rewrite (decide_True (P := mb ∈ add_log _ _)) by auto|];
  (destruct (decide (addr_of ip NDIRECT ≠ 0 ∧ addr_of ip NDIRECT ∈ lg)) as [[? ?]|];
     [rewrite (decide_True (P := addr_of ip NDIRECT ≠ 0 ∧ addr_of ip NDIRECT ∈ add_log _ _)) by auto|]);
  repeat case_decide; lia.
Qed.
Lemma cost_length mb lg ip : (length lg ≤ cost mb lg ip ≤ length lg + 2)%nat.
Proof. unfold cost. repeat case_decide; lia. Qed.

Section loop.
Context {B : Type} `{!BlockOps B, !BlockLaws B} (g : bgeo) (base : view) (ds : Z) (i : nat).
Context (Hone : g_size g ≤ BPB).

(** What the loop leaves, from an inode [ip] and a view [v]. *)
Record wrote (s0 : fss B) (off : Z) (src : list Z) (v : view) (ip : inode) (lg : list Z)
    (v' : view) (ip' : inode) (lg' : list Z) (s' : fss B) : Prop := {
  wt_written : written g (f_sb s0) ds off src v ip v' ip';
  wt_at : at_fs g base (put_inode i ip' s0) s' v' lg' ∅;
  wt_cost : (cost (bmapstart (f_sb s0)) lg' ip' ≤
    cost (bmapstart (f_sb s0)) lg ip + nblocks_of off (Z.of_nat (length src)))%nat;
}.

(** One round of the loop, before the rest [k] of it. *)
Section round.
Context (s0 : fss B) (Hla : layout g (f_sb s0) ds).
Let mb := bmapstart (f_sb s0).
Context (ip : inode) (v : view) (lg : list Z) (Hip : icache s0 !! i = Some ip).
Context (Hfile : file_ok g (f_sb s0) ds v ip) (Hme : meta_ok g (f_sb s0) ds v).
Context (off : Z) (part : list Z) (Hoff : 0 ≤ off) (Hbn : 0 ≤ off / BSIZE < MAXFILE).
Context (Hpart : off mod BSIZE + Z.of_nat (length part) ≤ BSIZE).
Let bn := off / BSIZE.

Lemma write_round_wp s (k : M (fss B) Z) (Q : Z → fss B → Prop) :
  at_fs g base s0 s v lg ∅ →
  (cost mb lg ip + 2 < Z.to_nat NBUF)%nat → Z.of_nat (cost mb lg ip) + 1 < g_nlog g - 1 →
  (2 ≤ nfree g (f_sb s0) v)%nat →
  (∀ v1 ip1 lg2 s2, grow g (f_sb s0) ds v ip v1 ip1 → fblk v1 ip1 bn ≠ 0 →
     (fblk v ip bn ≠ 0 → ip1 = ip) →
     let a := fblk v1 ip1 bn in
     let v2 := upd v1 a (splice (Z.to_nat (off mod BSIZE)) part (v1 a)) in
     at_fs g base (put_inode i ip1 s0) s2 v2 lg2 ∅ →
     (cost mb lg2 ip1 ≤ cost mb lg ip + 1)%nat →
     (nfree g (f_sb s0) v ≤ nfree g (f_sb s0) v2 + 2)%nat → wp k Q s2) →
  wp (ip ← inode_get i;
      a ← bmap i (off / BSIZE);
      bp ← blk (bread (i_dev ip) a);
      d ← blk (bdata bp);
      blk (bstore bp (splice (Z.to_nat (off mod BSIZE)) part d));;
      blk (log_write bp);;
      blk (brelse bp);;
      k) Q s.
Proof.
  intros Ha Hroom Hcap Hfree HQ.
  apply wp_bind. eapply wp_inode_get; [done|done|].
  apply wp_bind. eapply (bmap_wp g base ds s0 Hla Hone i ip v lg); try done; [].
  intros v1 ip1 lg1 s1 [G A1 Hz Hc Hnf Hsame]. rewrite (fo_dev _ _ _ _ _ Hfile).
  pose proof (gr_file _ _ _ _ _ _ _ G) as Hf1. specialize (HQ v1 ip1). fold bn in Hz, Hc, Hsame |- *.
  destruct (data_home _ _ _ _ _ Hla (fo_blk _ _ _ _ _ Hf1 _ Hbn Hz)) as (Hh&Hr&_). fold bn in Hh, Hr.
  set (a := fblk v1 ip1 bn) in *. fold mb in Hc.
  pose proof (cost_length mb lg1 ip1). pose proof (cost_add_log mb lg1 ip1 a) as Hc2.
  apply wp_bind. eapply fs_bread; [done|done|intros j; by rewrite lookup_empty|
    right; rewrite map_size_empty; repeat case_decide; lia|].
  intros j s2 Hj H2. pose proof (lookup_insert_eq (∅ : gmap nat Z) j a) as Hl.
  apply wp_bind. eapply fs_bdata; [done|done|].
  apply wp_bind. eapply fs_bstore; [done|done|]. intros s3 H3.
  apply wp_bind. eapply fs_log; [done|done|done|repeat case_decide; lia|]. intros s4 H4.
  apply wp_bind. eapply fs_brelse; [done|done|left; apply elem_of_add_log; by right|].
  intros s5 H5. rewrite delete_insert_id in H5 by done.
  apply (HQ (add_log lg1 a)); try done.
  - intros Hn. by destruct (Hsame Hn).
  - destruct (decide (a ∈ lg1)); lia.
  - erewrite (nfree_ext g (f_sb s0) v1 (upd v1 a _)); [done|]. intros b Hb.
    by apply (poke_used g (f_sb s0) ds Hla v1 ip1 bn _ Hf1).
Qed.

(** The state it leaves is one the next round can start in. *)
Lemma write_round_ready v1 ip1 :
  0 < Z.of_nat (length part) → mapped_to v ip (Z.max (i_size ip) off) → off + Z.of_nat (length part) ≤ MAXFILE * BSIZE →
  grow g (f_sb s0) ds v ip v1 ip1 → fblk v1 ip1 bn ≠ 0 →
  let v2 := upd v1 (fblk v1 ip1 bn) (splice (Z.to_nat (off mod BSIZE)) part (v1 (fblk v1 ip1 bn))) in
  file_ok g (f_sb s0) ds v2 ip1 ∧ meta_ok g (f_sb s0) ds v2 ∧
  mapped_to v2 ip1 (Z.max (i_size ip1) (off + Z.of_nat (length part))).
Proof.
  intros Hpos Hmap Hmax G Hz v2. pose proof (gr_file _ _ _ _ _ _ _ G) as Hf1.
  assert (length (splice (Z.to_nat (off mod BSIZE)) part (v1 (fblk v1 ip1 bn))) = Z.to_nat BSIZE) as Hlen.
  { eapply (step_len g (f_sb s0) ds off (Z.of_nat (length part)) part [] v ip v1 ip1); try done.
    simpl. lia. }
  pose proof (fo_size _ _ _ _ _ Hfile).
  split_and!.
  - by apply poke_file.
  - eapply (poke_meta g (f_sb s0) ds Hla v1 ip1 bn); try done. apply G.
  - intros x Hx Hlt. unfold v2. rewrite (poke_fblk g (f_sb s0) ds v1 ip1 bn _ Hf1 Hbn Hz).
    rewrite (step_size g (f_sb s0) ds v ip v1 ip1 G) in Hlt.
    destruct (decide (x * BSIZE < Z.max (i_size ip) off)) as [Hl|Hl].
    + by eapply grow_mapped; [done|..|done|done|]; [unfold BSIZE in *; lia|].
    + replace x with bn; [done|]. unfold bn, BSIZE in *. zdm.
Qed.
End round.

Lemma writei_loop_wp fuel s0 src tot off n ip v lg s (Q : Z → fss B → Prop) :
  layout g (f_sb s0) ds → icache s0 !! i = Some ip →
  file_ok g (f_sb s0) ds v ip → meta_ok g (f_sb s0) ds v → mapped_to v ip (Z.max (i_size ip) off) →
  at_fs g base s0 s v lg ∅ →
  0 ≤ off → 0 ≤ tot ≤ n → n - tot = Z.of_nat (length src) → off + (n - tot) ≤ MAXFILE * BSIZE →
  n - tot < Z.of_nat fuel →
  (cost (bmapstart (f_sb s0)) lg ip + nblocks_of off (n - tot) + 1 < Z.to_nat NBUF)%nat →
  Z.of_nat (cost (bmapstart (f_sb s0)) lg ip + nblocks_of off (n - tot)) < g_nlog g - 1 →
  (2 * nblocks_of off (n - tot) ≤ nfree g (f_sb s0) v)%nat →
  (∀ v' ip' lg' s', wrote s0 off src v ip lg v' ip' lg' s' → Q (off + (n - tot)) s') →
  wp (writei_loop i fuel src tot off n) Q s.
Proof.
  revert s0 src tot off ip v lg s Q. induction fuel as [|fuel IH];
    intros s0 src tot off ip v lg s Q Hla Hip Hfile Hme Hmap Ha Hoff Htot Hlen Hmax Hf Hroom Hcap Hfree HQ; [lia|].
  cbn [writei_loop]. destruct (Z.ltb_spec tot n) as [Hlt|Hge].
  2: { apply wp_ret. replace (n - tot) with 0 in * by lia. rewrite Z.add_0_r in HQ.
       destruct src; [|simpl in Hlen; lia]. apply (HQ v ip lg s). split.
       - by apply written_nil.
       - by rewrite put_inode_same.
       - lia. }
  set (m := Z.min (n - tot) (BSIZE - off mod BSIZE)).
  pose proof (nblocks_step off (n - tot) m Hoff eq_refl ltac:(lia)) as Hnb. rewrite Hnb in Hroom, Hcap, Hfree.
  assert (0 < m ≤ n - tot ∧ off mod BSIZE + m ≤ BSIZE) as [Hm1 Hm2] by (unfold m, BSIZE; zdm).
  assert (0 ≤ off / BSIZE < MAXFILE) as Hbn by (unfold BSIZE in *; split; zdm).
  set (part := take (Z.to_nat m) src) in *. set (rest := drop (Z.to_nat m) src).
  assert (m = Z.of_nat (length part)) as Hmp by (unfold part; rewrite length_take; lia).
  assert (Z.of_nat (length rest) = n - tot - m) as Hrl by (unfold rest; rewrite length_drop; lia).
  assert (src = part ++ rest) as Esrc by (unfold part, rest; by rewrite take_drop).
  apply (write_round_wp s0 Hla ip v lg Hip Hfile Hme off part Hbn); [done|lia|lia|lia|].
  intros v1 ip1 lg2 s2 G Hz Hsame a v2 A2 Hc Hnf.
  destruct (write_round_ready s0 Hla ip v Hfile off part Hoff Hbn ltac:(lia) v1 ip1 ltac:(lia) Hmap ltac:(lia) G Hz)
    as (Hf2&Hme2&Hmap2).
  replace (off + (n - tot)) with (off + m + (n - (tot + m))) in HQ by lia.
  apply (IH (put_inode i ip1 s0) rest (tot + m) (off + m) ip1 v2 lg2);
    rewrite ?(Z.sub_add_distr n tot m); cbn [f_sb put_inode on_icache]; try done; try lia.
  - by eapply put_inode_lookup.
  - by rewrite Hmp.
  - intros v3 ip3 lg3 s3 [W A C]. cbn [f_sb put_inode on_icache] in W, C.
    rewrite put_inode_twice in A. rewrite <-(Z.sub_add_distr n tot m). apply (HQ v3 ip3 lg3). split; [|done|].
    + rewrite Esrc. eapply (written_step g (f_sb s0) ds Hla off m part rest v ip v1 ip1); try done; lia.
    + rewrite <-Hlen, Hnb. rewrite Hrl in C. lia.
Qed.
End loop.

(** ** The inode on disk *)

Definition iblk (sb : superblock) (ip : inode) : Z := inodestart sb + i_inum ip / IPB.
Definition ioff (ip : inode) : Z := i_inum ip mod IPB * sizeof_dinode.

(** The block of the inode is neither a data block nor part of the free map. *)
Record ino_ok (g : bgeo) (sb : superblock) (ds : Z) (v : view) (ip : inode) : Prop := {
  io_inum : 0 ≤ i_inum ip;
  io_home : home g (iblk sb ip);
  io_ds : 0 < iblk sb ip < ds;
  io_map : ¬ is_map g sb (iblk sb ip);
  io_len : length (v (iblk sb ip)) = Z.to_nat BSIZE;
}.

Lemma length_le32s (a : list Z) : length (a ≫= le32) = (4 * length a)%nat.
Proof. induction a as [|x a IH]; [done|]. cbn. rewrite IH. lia. Qed.
Lemma length_store_dinode d off ip :
  length (i_addrs ip) = 13%nat → 0 ≤ off → off + sizeof_dinode ≤ Z.of_nat (length d) →
  length (store_dinode d off ip) = length d.
Proof.
  intros Ha Ho Hl. unfold store_dinode, put_addrs, sizeof_dinode in *.
  assert (∀ e o x, length e = length d → 0 ≤ o → o + 2 ≤ Z.of_nat (length d) →
    length (put16 e o x) = length d) as H16 by (intros e o x <-; apply length_put16).
  assert (∀ e o x, length e = length d → 0 ≤ o → o + 4 ≤ Z.of_nat (length d) →
    length (put32 e o x) = length d) as H32 by (intros e o x <-; apply length_put32).
  match goal with |- length (splice _ _ ?e) = _ => assert (length e = length d) as E end.
  { apply H32; [repeat apply H16; lia|lia|lia]. }
  rewrite length_splice; [done|]. rewrite E, length_le32s, Ha. lia.
Qed.

Section disk_inode.
Context {B : Type} `{!BlockOps B, !BlockLaws B} (g : bgeo) (base : view) (ds : Z) (i : nat).
Context (s0 : fss B) (Hla : layout g (f_sb s0) ds).
Let sb := f_sb s0.

Definition updated (v : view) (ip : inode) : view :=
  upd v (iblk sb ip) (store_dinode (v (iblk sb ip)) (ioff ip) ip).

Lemma iupdate_wp ip v lg s (Q : unit → fss B → Prop) :
  icache s0 !! i = Some ip → i_dev ip = 1 → ino_ok g sb ds v ip →
  at_fs g base s0 s v lg ∅ → (length lg < Z.to_nat NBUF)%nat → Z.of_nat (length lg) < g_nlog g - 1 →
  (∀ s', at_fs g base s0 s' (updated v ip) (add_log lg (iblk sb ip)) ∅ → Q tt s') →
  wp (iupdate i) Q s.
Proof.
  intros Hip Hdev [Hi Hh Hr Hm Hl] Ha Hroom Hcap HQ. unfold iupdate.
  apply wp_bind. eapply wp_inode_get; [done|done|]. apply wp_bind, wp_gets.
  rewrite (at_sb _ _ _ _ _ _ _ Ha). fold sb. rewrite Hdev.
  assert (IBLOCK (i_inum ip) sb = iblk sb ip) as ->.
  { pose proof (so_max _ _ (la_sb _ _ _ Hla)). pose proof (la_ds _ _ _ Hla).
    unfold IBLOCK, iblk in *. rewrite u32_id; [lia|]. unfold is_u32. lia. }
  apply wp_bind. eapply fs_bread; [done|apply Hh|intros j; by rewrite lookup_empty|
    right; rewrite map_size_empty; lia|].
  intros j s2 Hj H2. pose proof (lookup_insert_eq (∅ : gmap nat Z) j (iblk sb ip)) as Hlk.
  apply wp_bind. eapply fs_bdata; [done|done|].
  apply wp_bind. eapply fs_bstore; [done|done|]. intros s3 H3.
  apply wp_bind. eapply fs_log; [done|done|done|done|]. intros s4 H4.
  eapply fs_brelse; [done|done|left; apply elem_of_add_log; by right|].
  intros s5 H5. rewrite delete_insert_id in H5 by done. by apply HQ.
Qed.

Lemma updated_other v ip x : x ≠ iblk sb ip → updated v ip x = v x.
Proof. apply fupd_off. Qed.
Lemma updated_map v ip b :
  ino_ok g sb ds v ip → 0 ≤ b < g_size g → updated v ip (bmapblk sb b) = v (bmapblk sb b).
Proof. intros Hi Hb. apply updated_other. intros E. apply (io_map _ _ _ _ _ Hi). by exists b. Qed.
Lemma updated_used v ip b : ino_ok g sb ds v ip → 0 ≤ b < g_size g → used sb (updated v ip) b = used sb v b.
Proof. intros Hi Hb. unfold used. by rewrite updated_map. Qed.
Lemma updated_meta v ip : ino_ok g sb ds v ip → meta_ok g sb ds v → meta_ok g sb ds (updated v ip).
Proof.
  intros Hi [Hl Hu]. pose proof (la_ds _ _ _ Hla).
  split; intros b Hb; [rewrite updated_map by (done || lia)|rewrite updated_used by (done || lia)]; auto.
Qed.
End disk_inode.

(** ** The contents after a write *)

Definition same_file (v v' : view) (jp : inode) : Prop :=
  (∀ x, owns v jp x → v' x = v x) ∧ content v' jp = content v jp.

(** The two files have no block in common. *)
Definition apart (v : view) (ip jp : inode) : Prop := ∀ x, owns v ip x → ¬ owns v jp x.

Lemma list_eq_byte (l l' : list Z) :
  length l = length l' → (∀ k, 0 ≤ k < Z.of_nat (length l) → byte_at l k = byte_at l' k) → l = l'.
Proof.
  intros Hl Hb. apply (list_eq_same_length _ _ (length l)); [done|done|].
  intros k x y Hk Hx Hy. specialize (Hb (Z.of_nat k) ltac:(lia)). unfold byte_at in Hb.
  rewrite !nth_lookup, Nat2Z.id, Hx, Hy in Hb. done.
Qed.
Lemma byte_at_fbytes v ip off n k : 0 ≤ k < n → byte_at (fbytes v ip off n) k = fbyte v ip (off + k).
Proof.
  intros Hk. unfold byte_at, fbytes. rewrite nth_lookup, list_lookup_fmap, lookup_seqZ_lt by lia.
  cbn. f_equal. lia.
Qed.
Lemma length_splice_max {A} (off : nat) (src l : list A) :
  (off ≤ length l)%nat → length (splice off src l) = (length l `max` (off + length src))%nat.
Proof. intros H. unfold splice. rewrite !length_app, length_take, length_drop. lia. Qed.
Lemma byte_at_splice off src l k :
  0 ≤ off ≤ Z.of_nat (length l) → 0 ≤ k →
  byte_at (splice (Z.to_nat off) src l) k =
    if (off <=? k) && (k <? off + Z.of_nat (length src)) then byte_at src (k - off) else byte_at l k.
Proof.
  intros Ho Hk. unfold byte_at, splice. rewrite !nth_lookup.
  destruct (Z.leb_spec off k); cbn [andb].
  - rewrite lookup_app_r by (rewrite length_take; lia). rewrite length_take.
    replace (Z.to_nat k - Z.to_nat off `min` length l)%nat with (Z.to_nat (k - off)) by lia.
    destruct (Z.ltb_spec k (off + Z.of_nat (length src))); [by rewrite lookup_app_l by lia|].
    rewrite lookup_app_r by lia. rewrite lookup_drop. do 2 f_equal. lia.
  - rewrite lookup_app_l by (rewrite length_take; lia). by rewrite lookup_take_lt by lia.
Qed.

Section contents.
Context (g : bgeo) (sb : superblock) (ds : Z) (Hla : layout g sb ds).

Lemma written_content off src v ip v' ip' :
  file_ok g sb ds v ip → written g sb ds off src v ip v' ip' → 0 ≤ off ≤ i_size ip →
  fbytes v' ip' 0 (Z.max (i_size ip) (off + Z.of_nat (length src))) =
  splice (Z.to_nat off) src (content v ip).
Proof.
  intros Hf W Hoff. apply list_eq_byte.
  - rewrite length_fbytes, length_splice_max; unfold content; rewrite length_fbytes; lia.
  - rewrite length_fbytes. intros k Hk.
    rewrite byte_at_splice by (unfold content; rewrite ?length_fbytes; lia).
    rewrite byte_at_fbytes, Z.add_0_l by lia. rewrite (wr_bytes _ _ _ _ _ _ _ _ _ W) by lia.
    destruct ((off <=? k) && (k <? off + Z.of_nat (length src))) eqn:E; [done|].
    symmetry. unfold content. rewrite byte_at_fbytes; [done|]. apply andb_false_iff in E as [E%Z.leb_gt|E%Z.ltb_ge]; lia.
Qed.

Lemma written_apart off src v ip v' ip' jp :
  written g sb ds off src v ip v' ip' → file_ok g sb ds v jp → apart v ip jp →
  file_ok g sb ds v' jp ∧ same_file v v' jp.
Proof.
  intros W Hj Hap.
  assert (∀ x, owns v jp x → v' x = v x) as Ho.
  { intros x Hx. pose proof (owns_data _ _ _ _ _ _ Hj Hx) as Hd.
    destruct (wr_frame _ _ _ _ _ _ _ _ _ W x) as [E|E].
    - by apply (used_not_map g sb ds Hla v).
    - intros _. apply Hd.
    - intros Hi. by apply (Hap x).
    - exact E.
    - pose proof (data_pos g sb ds Hla _ _ Hd). lia. }
  destruct (file_frame g sb ds Hla v v' jp Hj Ho (wr_used _ _ _ _ _ _ _ _ _ W)) as (H1&_&_&H2).
  done.
Qed.
End contents.

(** ** The theorems *)

Lemma file_resize g sb ds v ip n :
  file_ok g sb ds v ip → 0 ≤ n ≤ MAXFILE * BSIZE → mapped_to v ip n → file_ok g sb ds v (set_size n ip).
Proof. intros [Hl Hd Hs Hb Hi Hm Hj Hne] Hn Hmap. by split. Qed.

Section theorems.
Context {B : Type} `{!BlockOps B, !BlockLaws B} (devsw : Z → devops (B := B)).
Context (g : bgeo) (base : view) (ds : Z) (i : nat) (s0 : fss B) (Hla : layout g (f_sb s0) ds).
Context (Hone : g_size g ≤ BPB).
Let sb := f_sb s0.
Context (ip : inode) (v : view) (lg : list Z) (Hip : icache s0 !! i = Some ip).
Context (Hfile : file_ok g sb ds v ip) (Htype : i_type ip ≠ T_DEV).

Lemma readi_wp s off n (Q : Z * list Z → fss B → Prop) :
  (length lg < Z.to_nat NBUF)%nat → at_fs g base s0 s v lg ∅ →
  0 ≤ off → 0 ≤ n → off + n < 4294967296 → off ≤ i_size ip →
  (∀ s', at_fs g base s0 s' v lg ∅ →
     Q (Z.min n (i_size ip - off), fbytes v ip off (Z.min n (i_size ip - off))) s') →
  wp (readi devsw i off n) Q s.
Proof.
  intros Hroom Ha Hoff Hn Hmax Hle HQ. unfold readi. pose proof (fo_size _ _ _ _ _ Hfile) as Hsz.
  unfold MAXFILE, NDIRECT, NINDIRECT, BSIZE in Hsz. change (512 / 4) with 128 in Hsz.
  apply wp_bind. eapply wp_inode_get; [done|done|].
  destruct (Z.eqb_spec (i_type ip) T_DEV); [done|].
  rewrite (u32_id (off + n)) by (unfold is_u32; lia).
  destruct (Z.ltb_spec (i_size ip) off); [lia|]. destruct (Z.ltb_spec (off + n) off); [lia|]. cbn [orb].
  set (n' := if i_size ip <? off + n then i_size ip - off else n).
  assert (n' = Z.min n (i_size ip - off)) as En by (unfold n'; destruct (Z.ltb_spec (i_size ip) (off + n)); lia).
  rewrite <-En in HQ. apply wp_bind.
  eapply (readi_loop_wp g base ds s0 Hla i ip Hip v lg Hfile); try done; try lia.
  intros s' H'. apply wp_ret. rewrite Z.sub_0_r, s32_id by (unfold is_i32; lia). by apply HQ.
Qed.

(** The state after [src] has been written at [off]. *)
Record file_written (off : Z) (src : list Z) (v' : view) (ip' : inode) (lg' : list Z) (s' : fss B) : Prop := {
  fw_at : at_fs g base (put_inode i ip' s0) s' v' lg' ∅;
  fw_file : file_ok g sb ds v' ip';
  fw_meta : meta_ok g sb ds v';
  fw_ino : ino_ok g sb ds v' ip';
  fw_content : content v' ip' = splice (Z.to_nat off) src (content v ip);
  fw_ip : ip' = set_size (i_size ip') (set_addrs (i_addrs ip') ip);
  fw_others jp : file_ok g sb ds v jp → apart v ip jp →
    file_ok g sb ds v' jp ∧ content v' jp = content v jp;
  fw_log : (length lg' ≤ length lg + nblocks_of off (Z.of_nat (length src)) + 3)%nat;
}.

Lemma written_ino off src v1 ip1 :
  meta_ok g sb ds v → ino_ok g sb ds v ip → written g sb ds off src v ip v1 ip1 →
  ino_ok g sb ds v1 ip1 ∧ v1 (iblk sb ip) = v (iblk sb ip).
Proof.
  intros Hme [Hi Hh Hr Hm Hl] W. assert (v1 (iblk sb ip) = v (iblk sb ip)) as E.
  { destruct (wr_frame _ _ _ _ _ _ _ _ _ W (iblk sb ip)) as [?|?]; [done| | |done|lia].
    - intros _. apply (me_used _ _ _ _ Hme). lia.
    - intros Ho. pose proof (dk_range _ _ _ _ _ (owns_data _ _ _ _ _ _ Hfile Ho)). lia. }
  split; [|done]. rewrite (wr_ip _ _ _ _ _ _ _ _ _ W). split; try done.
  unfold iblk in *. cbn. by rewrite E.
Qed.

(** Writing the inode back after the loop. *)
Lemma written_update off src v1 ip1 lg1 s1 :
  meta_ok g sb ds v → ino_ok g sb ds v ip → 0 ≤ off ≤ i_size ip →
  off + Z.of_nat (length src) ≤ MAXFILE * BSIZE → i_size ip < off + Z.of_nat (length src) →
  let ip2 := set_size (off + Z.of_nat (length src)) ip1 in
  let v2 := updated s0 v1 ip2 in
  written g sb ds off src v ip v1 ip1 → at_fs g base (put_inode i ip2 s0) s1 v2 lg1 ∅ →
  (length lg1 ≤ length lg + nblocks_of off (Z.of_nat (length src)) + 3)%nat →
  file_written off src v2 ip2 lg1 s1.
Proof.
  intros Hme Hino Hoff Hmax Hgrow ip2 v2 W A Hlg.
  destruct (written_ino _ _ _ _ Hme Hino W) as [Hi1 Ei].
  assert (ino_ok g sb ds v1 ip2) as Hi2 by (by destruct Hi1; split).
  pose proof (wr_mapped _ _ _ _ _ _ _ _ _ W) as Hmap. rewrite Z.max_r in Hmap by lia.
  assert (file_ok g sb ds v1 ip2) as Hf1 by (by apply file_resize; [apply W|lia|]).
  assert (∀ x, ds ≤ x → v2 x = v1 x) as Ev.
  { intros x Hx. apply updated_other. pose proof (io_ds _ _ _ _ _ Hi2). fold sb. lia. }
  assert (∀ b, 0 ≤ b < g_size g → used sb v1 b = true → used sb v2 b = true) as Hu.
  { intros b Hb Hu. etrans; [exact (updated_used g ds s0 v1 ip2 b Hi2 Hb)|done]. }
  assert (∀ jp, file_ok g sb ds v1 jp → file_ok g sb ds v2 jp ∧ content v2 jp = content v1 jp) as Hfr.
  { intros jp Hj. destruct (file_frame g sb ds Hla v1 v2 jp Hj) as (?&_&_&?); [|done|done].
    intros x Hx. apply Ev. apply (owns_data _ _ _ _ _ _ Hj Hx). }
  destruct (Hfr ip2 Hf1) as [Hf2 Ec]. split; try done.
  - apply updated_meta; [done|done|apply W].
  - destruct Hi2 as [? ? ? ? Hl]. split; try done. unfold v2, updated. fold sb. rewrite fupd_at.
    rewrite <-Hl. apply length_store_dinode; [apply (fo_addrs _ _ _ _ _ Hf1)|..];
      rewrite ?Hl; unfold ioff, IPB, BSIZE, sizeof_dinode; zdm.
  - rewrite Ec, <-(written_content g sb ds off src v ip v1 ip1 Hfile W Hoff).
    by rewrite Z.max_r by lia.
  - unfold ip2. rewrite (wr_ip _ _ _ _ _ _ _ _ _ W). by destruct ip.
  - intros jp Hj Hap. destruct (written_apart g sb ds Hla _ _ _ _ _ _ jp W Hj Hap) as [Hj1 [_ Ec1]].
    destruct (Hfr jp Hj1) as [? ->]. done.
Qed.

Lemma writei_wp s src off (Q : Z → fss B → Prop) :
  let n := Z.of_nat (length src) in
  meta_ok g sb ds v → ino_ok g sb ds v ip → at_fs g base s0 s v lg ∅ →
  0 ≤ off ≤ i_size ip → off + n ≤ MAXFILE * BSIZE →
  (length lg + nblocks_of off n + 3 < Z.to_nat NBUF)%nat →
  Z.of_nat (length lg + nblocks_of off n + 3) < g_nlog g →
  (2 * nblocks_of off n ≤ nfree g sb v)%nat →
  (∀ v' ip' lg' s', file_written off src v' ip' lg' s' → Q n s') →
  wp (writei devsw i src off n) Q s.
Proof.
  intros n Hme Hino Ha Hoff Hmax Hroom Hcap Hfree HQ. unfold writei.
  pose proof (fo_size _ _ _ _ _ Hfile) as Hsz. pose proof (cost_length (bmapstart sb) lg ip) as Hcl.
  assert (0 ≤ off + n < 2147483648) as Hr.
  { unfold MAXFILE, NDIRECT, NINDIRECT, BSIZE in *. change (512 / 4) with 128 in *. lia. }
  apply wp_bind. eapply wp_inode_get; [done|done|].
  destruct (Z.eqb_spec (i_type ip) T_DEV); [done|].
  rewrite (u32_id (off + n)) by (unfold is_u32; lia).
  destruct (Z.ltb_spec (i_size ip) off); [lia|]. destruct (Z.ltb_spec (off + n) off); [lia|]. cbn [orb].
  destruct (Z.ltb_spec (MAXFILE * BSIZE) (off + n)); [lia|].
  apply wp_bind. eapply (writei_loop_wp g base ds i Hone _ s0 src 0 off n ip v lg); rewrite ?Z.sub_0_r;
    fold sb; try done; try lia.
  { rewrite Z.max_l by lia. intros bn. apply (fo_mapped _ _ _ _ _ Hfile). }
  intros v1 ip1 lg1 s1 [W A C]. fold sb in W, C. fold n in C.
  pose proof (cost_length (bmapstart sb) lg1 ip1) as Hcl1.
  assert (i_size ip1 = i_size ip) as Es by (by rewrite (wr_ip _ _ _ _ _ _ _ _ _ W)).
  pose proof (put_inode_lookup i ip1 s0 ip Hip) as Hip1.
  apply wp_bind. eapply wp_inode_get; [done|done|]. rewrite Es.
  destruct (Z.ltb_spec (i_size ip) (off + n)) as [Hg|Hng].
  - destruct (Z.ltb_spec 0 n); [|lia]. cbn [andb when]. apply wp_bind, wp_bind.
    eapply wp_inode_upd; [done|done|]. intros s2 A2. rewrite put_inode_twice in A2.
    destruct (written_ino _ _ _ _ Hme Hino W) as [Hi1 _].
    eapply (iupdate_wp g base ds i (put_inode i (set_size (off + n) ip1) s0) Hla); [by eapply put_inode_lookup| | |done|lia|lia|].
    { by rewrite (wr_ip _ _ _ _ _ _ _ _ _ W), <-(fo_dev _ _ _ _ _ Hfile). }
    { by destruct Hi1; split. }
    intros s3 A3. apply wp_ret. rewrite s32_id by (unfold is_i32; lia). eapply HQ.
    apply (written_update off src v1 ip1); try done.
    etrans; [apply length_add_log|]. fold n. lia.
  - rewrite andb_false_r. cbn [when]. apply wp_bind, wp_ret, wp_ret.
    rewrite s32_id by (unfold is_i32; lia). apply (HQ v1 ip1 lg1).
    pose proof (wr_same _ _ _ _ _ _ _ _ _ W Hng) as ->.
    split; try done; [apply W|apply W|by apply (written_ino off src)| |by destruct ip| |fold n; lia].
    + rewrite <-(written_content g sb ds off src v ip v1 ip Hfile W Hoff). by rewrite Z.max_l by lia.
    + intros jp Hj Hap. by destruct (written_apart g sb ds Hla _ _ _ _ _ _ jp W Hj Hap) as [? [_ ?]].
Qed.
End theorems.
