(* ===== verification/FsThms.v ===== *)
(** * Theorems on files

    [readi] and [writei] in terms of the contents of files, for any block
    layer that satisfies [BlockLaws]; witnessed on a small disk under the log. *)

From S2P Require Import Prelude Params Sleeplock Blocks Bio Log LogThms Fs BlockLaws FsBlocks FsFile FsWrite.

Lemma take_drop_content v ip off n :
  0 ≤ off ≤ i_size ip → 0 ≤ n →
  fbytes v ip off (Z.min n (i_size ip - off)) = take (Z.to_nat n) (drop (Z.to_nat off) (content v ip)).
Proof.
  intros Ho Hn. unfold content.
  replace (i_size ip) with (off + (i_size ip - off)) at 2 by lia. rewrite fbytes_app by lia.
  rewrite drop_app_length' by (rewrite length_fbytes; lia). cbn [Z.add].
  destruct (decide (n ≤ i_size ip - off)).
  - rewrite Z.min_l by lia. replace (i_size ip - off) with (n + (i_size ip - off - n)) by lia.
    rewrite fbytes_app by lia. by rewrite take_app_length' by (rewrite length_fbytes; lia).
  - rewrite Z.min_r by lia. by rewrite firstn_all2 by (rewrite length_fbytes; lia).
Qed.

(** ** A small disk *)

(** A disk of 60 blocks with an empty file: the log is in blocks 2 to 31,
    inodes in 32 and 33, the free map in 34, data from 35 on. *)
Definition small_map : list Z := [255; 255; 255; 255; 7] ++ replicate 507 0.
Definition small_super : list Z :=
  le32 60 ++ le32 25 ++ le32 8 ++ le32 30 ++ le32 2 ++ le32 32 ++ le32 34 ++ replicate 484 0.
Definition small_fs : disk :=
  Disk (λ n, if n =? 1 then small_super else if n =? 34 then small_map else replicate 512 0) 60 [].
Definition small_geo : bgeo := BGeo 60 2 30.
Definition small_sb : superblock := decode_sb small_super.
Definition no_dev : Z → devops (B := lst) := λ _, DevOps None None.
Definition empty_file (inum : Z) : inode :=
  Inode 1 inum 1 (SleepLock 1 1) 1 T_FILE 0 0 1 0 (replicate 13 0).
Definition small_state (b : lst) : fss lst := Fss b small_sb [empty_file 1; empty_file 2] 1 None [].

Lemma small_has_log : has_log 2 30 small_fs.
Proof.
  split; [done|done|lia|unfold LOGSIZE, MAXOPBLOCKS; lia|cbn; lia|done| |].
  - split; [by vm_compute|]. intros i Hi. exfalso. vm_compute in Hi. lia.
  - intros i Hi. exfalso. vm_compute in Hi. lia.
Qed.

Lemma small_rel :
  ∃ b v base, rel small_geo b v base [] ∅ ∧ ∀ x, ¬ (2 ≤ x < 32) → v x = blocks small_fs x.
Proof.
  assert (wp (boot;; Log.begin_op) (λ _ b, ∃ v base, log_rel small_geo b v base [] ∅ ∧
    ∀ x, ¬ (2 ≤ x < 32) → v x = recovered 2 (blocks small_fs) x) (log0 small_fs 1)) as Hwp.
  { apply wp_bind. eapply wp_mono; [apply (boot_ready 2 30); exact small_has_log|].
    intros [] s0 (v&Hr0&En&Eo&Ec&Est&Esz&Em&Eds&Hv).
    eapply wp_mono; [apply begin_op_wp; rewrite ?En, ?Eo; done|]. intros [] s1 ->. rewrite Eo.
    exists v, (blocks (the_disk (l_bio s0))). split; [|done].
    split; try done.
    - rewrite fmap_empty. apply (log_rep_flags (set_outstanding (0 + 1) s0) v ∅ 0 0).
      by apply (log_rep_flags s0 v ∅ 0 0).
    - unfold logged, nlogged. cbn. by rewrite En. }
  destruct (wp_elim _ _ _ Hwp) as ([]&b&_&v&base&Hr&Hv). exists b, v, base. split; [done|].
  intros x Hx. rewrite Hv by done. unfold recovered, rec_writes.
  assert (hdr_writes 2 (blocks small_fs) = []) as -> by (by vm_compute).
  cbn [app]. unfold vwrites. cbn [foldl fst snd]. apply fupd_off. lia.
Qed.

Lemma small_sb_eq : small_sb = Superblock 60 25 8 30 2 32 34.
Proof. by vm_compute. Qed.
Lemma small_bmapblk b : 0 ≤ b < 60 → bmapblk small_sb b = 34.
Proof. intros Hb. rewrite small_sb_eq. unfold bmapblk, BPB, BSIZE. cbn. rewrite Z.div_small; lia. Qed.
Lemma small_not_log x : 32 ≤ x → ¬ (2 ≤ x < 32).
Proof. lia. Qed.

Lemma small_layout b : layout small_geo (f_sb (small_state b)) 35.
Proof.
  cbn [f_sb small_state]. split; cbn [g_size small_geo].
  - rewrite small_sb_eq. split; cbn [g_size small_geo sb_size bmapstart]; unfold BPB, BSIZE; try done; try lia.
    intros b' Hb. rewrite Z.div_small by lia. unfold home. cbn. lia.
  - lia.
  - intros b' Hb. rewrite small_bmapblk; lia.
  - intros b' Hb. unfold home. cbn. lia.
Qed.

Lemma small_at b v base :
  rel small_geo b v base [] ∅ → at_fs small_geo base (small_state b) (small_state b) v [] ∅.
Proof. by split. Qed.

Section small.
Context (v : view) (Hv : ∀ x, ¬ (2 ≤ x < 32) → v x = blocks small_fs x).

Lemma small_v34 : v 34 = small_map.
Proof. by rewrite Hv by lia. Qed.
Lemma small_used x : 0 ≤ x < 60 → used small_sb v x = (x <? 35).
Proof.
  intros Hx. unfold used. rewrite small_bmapblk by done. rewrite small_v34. unfold BPB, BSIZE. rewrite Z.mod_small by lia.
  assert (forallb (λ x, Bool.eqb (bit small_map x) (x <? 35)) (seqZ 0 60) = true) as Hall by (by vm_compute).
  rewrite forallb_forall in Hall. apply eqb_prop, Hall, list_elem_of_In, elem_of_seqZ. lia.
Qed.
Lemma small_meta : meta_ok small_geo small_sb 35 v.
Proof.
  split; cbn [g_size small_geo].
  - intros x Hx. by rewrite small_bmapblk, small_v34.
  - intros x Hx. rewrite small_used by lia. apply Z.ltb_lt. lia.
Qed.
Lemma small_nfree : nfree small_geo small_sb v = 25%nat.
Proof.
  unfold nfree, free_blocks. cbn [g_size small_geo].
  rewrite (filter_iff_in (λ b, used small_sb v b = false) (λ b, (b <? 35) = false)); [by vm_compute|].
  intros x Hx%elem_of_seqZ. by rewrite small_used by lia.
Qed.
Lemma small_addr k j : addr_of (empty_file k) j = 0.
Proof.
  unfold addr_of. change (i_addrs (empty_file k)) with (replicate 13 0).
  rewrite nth_lookup. destruct (_ !! _) eqn:E; [|done]. by apply lookup_replicate in E as [-> _].
Qed.
Lemma small_fblk k bn : fblk v (empty_file k) bn = 0.
Proof. unfold fblk. rewrite !small_addr. by destruct (bn <? NDIRECT). Qed.
Lemma small_file k : file_ok small_geo small_sb 35 v (empty_file k).
Proof.
  split; cbn; try done; try (intros; by rewrite small_fblk in *).
  intros. unfold BSIZE in *. lia.
Qed.
Lemma small_ino k : 0 ≤ k < 8 → ino_ok small_geo small_sb 35 v (empty_file k).
Proof.
  intros Hk. assert (iblk small_sb (empty_file k) = 32) as E.
  { rewrite small_sb_eq. unfold iblk. change IPB with 8. cbn [inodestart i_inum empty_file].
    rewrite Z.div_small; lia. }
  split; rewrite ?E; cbn [i_inum empty_file]; try lia.
  - unfold home. cbn. lia.
  - intros (b&Hb&Eb). cbn in Hb. by rewrite small_bmapblk in Eb.
  - by rewrite Hv by lia.
Qed.
End small.

(** ** Reading and writing *)

Section theorems.
Context {B : Type} `{!BlockOps B, !BlockLaws B} (devsw : Z → devops (B := B)).
Context (g : bgeo) (base : view) (ds : Z).

(** A read of a file returns the bytes of its contents from the offset
    on, cut off at the end of the file, and changes neither the inode nor any
    block. *)
Theorem readi_contents (s0 s : fss B) i ip v lg off n :
  layout g (f_sb s0) ds → icache s0 !! i = Some ip → file_ok g (f_sb s0) ds v ip →
  i_type ip ≠ T_DEV → at_fs g base s0 s v lg ∅ → (length lg < Z.to_nat NBUF)%nat →
  0 ≤ off ≤ i_size ip → 0 ≤ n → off + n < 4294967296 →
  wp (readi devsw i off n) (λ r s',
    r = (Z.min n (i_size ip - off), take (Z.to_nat n) (drop (Z.to_nat off) (content v ip))) ∧
    at_fs g base s0 s' v lg ∅) s.
Proof.
  intros Hla Hip Hf Ht Ha Hl Hoff Hn Hmax.
  eapply (readi_wp devsw g base ds i s0 Hla ip v lg Hip Hf Ht); try done; try lia.
  intros s' H'. split; [|done]. f_equal. by apply take_drop_content.
Qed.


(** C14. What a write stores, a read of the same range returns. *)
Theorem writei_readi (s0 s : fss B) i ip v lg src off :
  layout g (f_sb s0) ds → g_size g ≤ BPB → icache s0 !! i = Some ip →
  file_ok g (f_sb s0) ds v ip → meta_ok g (f_sb s0) ds v → ino_ok g (f_sb s0) ds v ip →
  i_type ip ≠ T_DEV → at_fs g base s0 s v lg ∅ →
  let n := Z.of_nat (length src) in
  0 ≤ off ≤ i_size ip → off + n ≤ MAXFILE * BSIZE →
  (length lg + nblocks_of off n + 3 < Z.to_nat NBUF)%nat →
  Z.of_nat (length lg + nblocks_of off n + 3) < g_nlog g →
  (2 * nblocks_of off n ≤ nfree g (f_sb s0) v)%nat →
  wp (writei devsw i src off n;; readi devsw i off n) (λ r _, r = (n, src)) s.
Proof.
  intros Hla Hone Hip Hf Hm Hi Ht Ha n Hoff Hmax H1 H2 H3. apply wp_bind.
  eapply (writei_wp devsw g base ds i s0 Hla Hone ip v lg Hip Hf Ht); try done.
  intros v' ip' lg' s' W. pose proof (fw_content _ _ _ _ _ _ _ _ _ _ _ _ _ _ W) as Ec.
  assert (i_size ip' = Z.max (i_size ip) (off + n)) as Es.
  { apply (f_equal length) in Ec. unfold content in Ec. rewrite length_fbytes, length_splice_max in Ec;
      rewrite length_fbytes in *; pose proof (fo_size _ _ _ _ _ Hf);
      pose proof (fo_size _ _ _ _ _ (fw_file _ _ _ _ _ _ _ _ _ _ _ _ _ _ W)); lia. }
  eapply (readi_wp devsw g base ds i (put_inode i ip' s0) Hla ip' v' lg');
    [by eapply put_inode_lookup|apply W| | |apply W|lia|lia| |lia|].
  - rewrite (fw_ip _ _ _ _ _ _ _ _ _ _ _ _ _ _ W). done.
  - pose proof (fw_log _ _ _ _ _ _ _ _ _ _ _ _ _ _ W). fold n in H. lia.
  - unfold MAXFILE, NDIRECT, NINDIRECT, BSIZE in *. change (512 / 4) with 128 in *. lia.
  - intros s'' _. rewrite take_drop_content, Ec by lia. f_equal; [lia|]. unfold splice.
    rewrite drop_app_length' by (unfold content; rewrite length_take, length_fbytes; lia).
    by rewrite take_app_length' by lia.
Qed.
End theorems.

Definition hello : list Z := [104; 101; 108; 108; 111].

Lemma readi_contents_witness :
  ∃ b v base, wp (readi no_dev 0 0 10) (λ r s',
    r = (0, take 10 (drop 0 (content v (empty_file 1)))) ∧
    at_fs small_geo base (small_state b) s' v [] ∅) (small_state b).
Proof.
  destruct small_rel as (b&v&base&Hr&Hv). exists b, v, base.
  exact (readi_contents no_dev small_geo base 35 (small_state b) (small_state b) 0 (empty_file 1) v [] 0 10
    (small_layout b) eq_refl (small_file v 1) ltac:(done) (small_at b v base Hr)
    ltac:(vm_compute; lia) ltac:(cbn; lia) ltac:(lia) ltac:(lia)).
Defined.


Lemma writei_readi_witness :
  ∃ b, wp (writei no_dev 0 hello 0 5;; readi no_dev 0 0 5) (λ r _, r = (5, hello)) (small_state b).
Proof.
  destruct small_rel as (b&v&base&Hr&Hv). exists b.
  exact (writei_readi no_dev small_geo base 35 (small_state b) (small_state b) 0 (empty_file 1) v [] hello 0
    (small_layout b) ltac:(done) eq_refl (small_file v 1) (small_meta v Hv) (small_ino v Hv 1 ltac:(lia))
    ltac:(done) (small_at b v base Hr) ltac:(cbn; lia) ltac:(done)
    ltac:(vm_compute; lia) ltac:(by vm_compute)
    ltac:(change (f_sb (small_state b)) with small_sb; rewrite (small_nfree v Hv); apply Nat.leb_le; reflexivity)).
Defined.
