(* ===== verification/File.v ===== *)
(** * Open files: [file.c] and [pipealloc] of [pipe.c]

    The table of open files over the file system, the pipes and the page
    allocator.  A [struct file *] is an index of the table and a [struct
    pipe *] the address of its page.  Data read ([addr] of [fileread]) is
    returned, data written is a list of bytes.  Code runs from the point of
    view of one process: where a pipe would put it to sleep the run is
    [Blocked]. *)

From S2P Require Import Prelude Params Sleeplock Blocks Log Fs Pipe Kalloc.

(** What pipes use of the page allocator. *)
Class PageOps (K : Type) := {
  page_alloc : M K Z;
  page_free : Z → M K unit;
}.
(** The allocator of [kalloc.c], for the kernel's end address [e]. *)
Definition kalloc_pages (e : Z) : PageOps kst := {|
  page_alloc := kalloc;
  page_free := kfree e;
|}.

Inductive fdtype := FD_NONE | FD_PIPE | FD_INODE.
#[export] Instance fdtype_eq_dec : EqDecision fdtype.
Proof. solve_decision. Defined.

Record file := File {
  fd_type : fdtype;
  fd_ref : Z;
  fd_readable : Z;
  fd_writable : Z;
  fd_pipe : Z;
  fd_ip : option nat;
  fd_off : Z;
}.
Definition set_fref v f := File (fd_type f) v (fd_readable f) (fd_writable f) (fd_pipe f) (fd_ip f) (fd_off f).
Definition set_ftype v f := File v (fd_ref f) (fd_readable f) (fd_writable f) (fd_pipe f) (fd_ip f) (fd_off f).
Definition set_fmode r w f := File (fd_type f) (fd_ref f) r w (fd_pipe f) (fd_ip f) (fd_off f).
Definition set_fpipe v f := File (fd_type f) (fd_ref f) (fd_readable f) (fd_writable f) v (fd_ip f) (fd_off f).
Definition set_fip v f := File (fd_type f) (fd_ref f) (fd_readable f) (fd_writable f) (fd_pipe f) v (fd_off f).
Definition set_foff v f := File (fd_type f) (fd_ref f) (fd_readable f) (fd_writable f) (fd_pipe f) (fd_ip f) v.

Record flst (B K : Type) := Flst {
  fl_fs : fss B;
  ftable : list file;
  fl_pipes : gmap Z pipe;
  fl_pages : K;
  fl_killed : bool;             (* myproc()->killed *)
}.
Arguments Flst {B K}.
Arguments fl_fs {B K}.
Arguments ftable {B K}.
Arguments fl_pipes {B K}.
Arguments fl_pages {B K}.
Arguments fl_killed {B K}.

Definition on_fs {B K} (f : fss B → fss B) (s : flst B K) : flst B K :=
  Flst (f (fl_fs s)) (ftable s) (fl_pipes s) (fl_pages s) (fl_killed s).
Definition on_ftable {B K} (f : list file → list file) (s : flst B K) : flst B K :=
  Flst (fl_fs s) (f (ftable s)) (fl_pipes s) (fl_pages s) (fl_killed s).
Definition on_pipes {B K} (f : gmap Z pipe → gmap Z pipe) (s : flst B K) : flst B K :=
  Flst (fl_fs s) (ftable s) (f (fl_pipes s)) (fl_pages s) (fl_killed s).
Definition on_pages {B K} (f : K → K) (s : flst B K) : flst B K :=
  Flst (fl_fs s) (ftable s) (fl_pipes s) (f (fl_pages s)) (fl_killed s).

Section files.
Context {B K : Type} `{!BlockOps B, !PageOps K} (devsw : Z → devops (B := B)).
(** What a page handed out by [kalloc] holds where the pipe's data goes. *)
Context (junk : list Z).
Abbreviation OM := (M (flst B K)).

Definition fsm {A} (m : M (fss B) A) : OM A := λ s,
  match m (fl_fs s) with
  | Ok a x => Ok a (on_fs (λ _, x) s)
  | Fail f => Fail f
  end.
Definition pagem {A} (m : M K A) : OM A := λ s,
  match m (fl_pages s) with
  | Ok a x => Ok a (on_pages (λ _, x) s)
  | Fail f => Fail f
  end.
Definition file_get (i : nat) : OM file := λ s,
  match ftable s !! i with Some f => Ok f s | None => Fail (Undef "ftable index") end.
Definition file_upd (i : nat) (g : file → file) : OM unit := λ s,
  match ftable s !! i with
  | Some f => Ok tt (on_ftable (<[i := g f]>) s)
  | None => Fail (Undef "ftable index")
  end.
Definition pipe_get (p : Z) : OM pipe := λ s,
  match fl_pipes s !! p with Some x => Ok x s | None => Fail (Undef "pipe") end.
Definition pipe_put (p : Z) (x : pipe) : OM unit := modify (on_pipes (<[p := x]>)).

(** A field that must point to an inode. *)
Definition the_ip (f : file) : OM nat := of_option (Undef "null inode") (fd_ip f).

(** [fileinit] only initialises the lock of the table. *)
Definition fileinit : OM unit := mret tt.

Definition filealloc : OM (option nat) :=
  t ← gets ftable;
  match list_find (λ f, fd_ref f = 0) t with
  | Some (i, _) => file_upd i (set_fref 1);; mret (Some i)
  | None => mret None
  end.

Definition filedup (i : nat) : OM nat :=
  f ← file_get i;
  if fd_ref f <? 1 then panic "filedup"
  else file_upd i (set_fref (fd_ref f +i 1));; mret i.

(** [pipeclose] and the [kfree] of the page when both ends are closed. *)
Definition pipe_close (p : Z) (writable : bool) : OM unit :=
  x ← pipe_get p;
  let '(x, _, freed) := pipeclose x writable in
  if freed : bool then modify (on_pipes (delete p));; pagem (page_free p)
  else pipe_put p x.

Definition fileclose (i : nat) : OM unit :=
  f ← file_get i;
  if fd_ref f <? 1 then panic "fileclose"
  else
    file_upd i (set_fref (fd_ref f -i 1));;
    if 0 <? fd_ref f -i 1 then mret tt
    else
      ff ← file_get i;
      file_upd i (set_fref 0);;
      file_upd i (set_ftype FD_NONE);;
      match fd_type ff with
      | FD_PIPE => pipe_close (fd_pipe ff) (negb (fd_writable ff =? 0))
      | FD_INODE =>
          fsm (blk begin_op);;
          ip ← the_ip ff;
          fsm (iput ip);;
          fsm (blk end_op)
      | FD_NONE => mret tt
      end.

(** The result is the return value and, when it is 0, the status. *)
Definition filestat (i : nat) : OM (option fstat) :=
  f ← file_get i;
  match fd_type f with
  | FD_INODE =>
      fsm (ilock (fd_ip f));;
      ip ← the_ip f;
      st ← fsm (stati ip);
      fsm (iunlock (fd_ip f));;
      mret (Some st)
  | _ => mret None
  end.

Definition pipe_read (p n : Z) : OM (Z * list Z) :=
  x ← pipe_get p;
  k ← gets fl_killed;
  let '(x, _, l, o) := piperead k n x in
  pipe_put p x;;
  match o with Ret r => mret (r, l) | Sleep _ => fail (Blocked "piperead") end.
Definition pipe_write (p : Z) (l : list Z) (n : Z) : OM Z :=
  x ← pipe_get p;
  k ← gets fl_killed;
  let '(x, _, o) := pipewrite k n l x in
  pipe_put p x;;
  match o with Ret r => mret r | Sleep _ => fail (Blocked "pipewrite") end.

(** The return value and the bytes stored at [addr]. *)
Definition fileread (i : nat) (n : Z) : OM (Z * list Z) :=
  f ← file_get i;
  if fd_readable f =? 0 then mret (-1, [])
  else match fd_type f with
  | FD_PIPE => pipe_read (fd_pipe f) n
  | FD_INODE =>
      fsm (ilock (fd_ip f));;
      ip ← the_ip f;
      '(r, l) ← fsm (readi devsw ip (fd_off f) (u32 n));
      when (0 <? r) (file_upd i (λ f, set_foff (fd_off f +u r) f));;
      fsm (iunlock (fd_ip f));;
      mret (r, l)
  | FD_NONE => panic "fileread"
  end.

Definition filewrite_max : Z := (MAXOPBLOCKS - 1 - 1 - 2) / 2 * 512.
(** The loop of [filewrite] at [i]; [addr] holds the bytes from [addr + i] on. *)
Fixpoint filewrite_loop (fi : nat) (fuel : nat) (addr : list Z) (i n : Z) : OM Z :=
  match fuel with
  | O => fail OutOfFuel
  | S k =>
      if i <? n then
        let n1 := if filewrite_max <? n - i then filewrite_max else n - i in
        fsm (blk begin_op);;
        f ← file_get fi;
        fsm (ilock (fd_ip f));;
        ip ← the_ip f;
        f ← file_get fi;
        r ← fsm (writei devsw ip addr (fd_off f) n1);
        when (0 <? r) (file_upd fi (λ f, set_foff (fd_off f +u r) f));;
        f ← file_get fi;
        fsm (iunlock (fd_ip f));;
        fsm (blk end_op);;
        if r <? 0 then mret i
        else if negb (r =? n1) then panic "short filewrite"
        else filewrite_loop fi k (drop (Z.to_nat r) addr) (i + r) n
      else mret i
  end.
Definition filewrite (i : nat) (addr : list Z) (n : Z) : OM Z :=
  f ← file_get i;
  if fd_writable f =? 0 then mret (-1)
  else match fd_type f with
  | FD_PIPE => pipe_write (fd_pipe f) addr n
  | FD_INODE =>
      i' ← filewrite_loop i (Z.to_nat n + 1) addr 0 n;
      mret (if i' =? n then n else -1)
  | FD_NONE => panic "filewrite"
  end.

(** The cleanup of [pipealloc] at [bad]. *)
Definition pipealloc_bad (p : Z) (f0 f1 : option nat) : OM (option (nat * nat)) :=
  when (negb (p =? 0)) (modify (on_pipes (delete p));; pagem (page_free p));;
  match f0 with Some i => fileclose i | None => mret tt end;;
  match f1 with Some i => fileclose i | None => mret tt end;;
  mret None.
Definition pipealloc : OM (option (nat * nat)) :=
  f0 ← filealloc;
  match f0 with
  | None => pipealloc_bad 0 None None
  | Some i0 =>
      f1 ← filealloc;
      match f1 with
      | None => pipealloc_bad 0 f0 None
      | Some i1 =>
          p ← pagem page_alloc;
          if p =? 0 then pipealloc_bad 0 f0 f1
          else
            pipe_put p (pipe_new junk);;
            file_upd i0 (λ f, set_fpipe p (set_fmode 1 0 (set_ftype FD_PIPE f)));;
            file_upd i1 (λ f, set_fpipe p (set_fmode 0 1 (set_ftype FD_PIPE f)));;
            mret (Some (i0, i1))
      end
  end.
End files.
