(* ===== verification/Syscall.v ===== *)
(** * System call arguments: the first half of [syscall.c]

    Arguments are fetched from the user's stack, in the address space of the
    calling process.  [None] stands for the return value -1. *)

From S2P Require Import Prelude Params CString.

(** What the kernel uses of the calling process: its memory as the page table
    shows it, [sz] and the saved stack pointer. *)
Record uspace := Uspace { u_mem : mem; u_sz : Z; u_esp : Z }.

Definition fetchint (u : uspace) (addr : Z) : option Z :=
  if (u_sz u <=? addr) || (u_sz u <? addr +u 4) then None
  else Some (s32 (load32 (u_mem u) addr)).

(** The loop of [fetchstr] at [s]. *)
Fixpoint fetchstr_loop (m : mem) (fuel : nat) (s : Z) : option Z :=
  match fuel with
  | O => None
  | S k => if m s =? 0 then Some s else fetchstr_loop m k (s + 1)
  end.
(** The length of the string at [addr]. *)
Definition fetchstr (u : uspace) (addr : Z) : option Z :=
  if u_sz u <=? addr then None
  else
    s ← fetchstr_loop (u_mem u) (Z.to_nat (u_sz u - addr)) addr;
    Some (s - addr).

Definition argint (u : uspace) (n : Z) : option Z := fetchint u (u_esp u +u (4 + 4 * n)).

Definition argptr (u : uspace) (n size : Z) : option Z :=
  i ← argint u n;
  if (size <? 0) || (u_sz u <=? u32 i) || (u_sz u <? u32 i +u size) then None
  else Some (u32 i).

(** The address of the string and its length. *)
Definition argstr (u : uspace) (n : Z) : option (Z * Z) :=
  addr ← argint u n;
  len ← fetchstr u (u32 addr);
  Some (u32 addr, len).

(** The characters of a string that [argstr] has accepted. *)
Definition ustr (u : uspace) (p : Z * Z) : list Z := bytes_at (u_mem u) p.1 (Z.to_nat p.2).

(** ** Arguments lie in the address space *)

Lemma fetchstr_loop_spec m fuel s e :
  fetchstr_loop m fuel s = Some e →
  s ≤ e < s + Z.of_nat fuel ∧ m e = 0 ∧ ∀ a, s ≤ a < e → m a ≠ 0.
Proof.
  revert s. induction fuel as [|k IH]; intros s; cbn [fetchstr_loop]; [done|].
  destruct (Z.eqb_spec (m s) 0) as [E|E].
  - intros [= <-]. split_and!; [lia|lia|done|lia].
  - intros H%IH. destruct H as (?&?&Hn). split_and!; [lia|lia|done|].
    intros a Ha. destruct (decide (a = s)) as [->|]; [done|]. apply Hn. lia.
Qed.
Lemma fetchstr_loop_None m fuel s :
  fetchstr_loop m fuel s = None → ∀ a, s ≤ a < s + Z.of_nat fuel → m a ≠ 0.
Proof.
  revert s. induction fuel as [|k IH]; intros s; cbn [fetchstr_loop]; [lia|].
  destruct (Z.eqb_spec (m s) 0) as [E|E]; [done|]. intros H a Ha.
  destruct (decide (a = s)) as [->|]; [done|]. apply (IH _ H). lia.
Qed.

(** The address space of a process ends below the kernel. *)
Definition uspace_ok (u : uspace) : Prop := 0 ≤ u_sz u ≤ KERNBASE.

(** C37. A pointer that [argptr] accepts for [size] bytes, and a string that
    [argstr] accepts with its terminating NUL, lie in the address space of
    the process: the sums that are compared with [sz] do not wrap around.  No
    argument that lies there is refused. *)
Theorem argptr_argstr_in_bounds (u : uspace) (n i : Z) :
  uspace_ok u → argint u n = Some i →
  (∀ size, is_i32 size →
     argptr u n size = if decide (0 ≤ size ∧ u32 i < u_sz u ∧ u32 i + size ≤ u_sz u)
                       then Some (u32 i) else None) ∧
  (∀ a len, argstr u n = Some (a, len) ↔
     a = u32 i ∧ 0 ≤ len ∧ a + len < u_sz u ∧ u_mem u (a + len) = 0 ∧
     ∀ k, a ≤ k < a + len → u_mem u k ≠ 0).
Proof.
  intros [Hsz0 Hsz] Hi. unfold KERNBASE in *. pose proof (u32_range i) as Hr. unfold is_u32 in Hr. split.
  - intros size Hs. unfold is_i32 in Hs. unfold argptr. rewrite Hi. cbn.
    case_decide as Hd.
    + rewrite (u32_id (u32 i + size)) by (unfold is_u32; lia).
      destruct (Z.ltb_spec size 0), (Z.leb_spec (u_sz u) (u32 i)), (Z.ltb_spec (u_sz u) (u32 i + size)); try lia. done.
    + destruct (Z.ltb_spec size 0), (Z.leb_spec (u_sz u) (u32 i)); cbn; try done.
      rewrite (u32_id (u32 i + size)) by (unfold is_u32; lia).
      by destruct (Z.ltb_spec (u_sz u) (u32 i + size)); [|lia].
  - intros a len. unfold argstr. rewrite Hi. cbn. unfold fetchstr.
    destruct (Z.leb_spec (u_sz u) (u32 i)).
    { split; [done|]. intros (->&?&?&?). lia. }
    destruct (fetchstr_loop _ _ _) as [e|] eqn:E; cbn.
    + apply fetchstr_loop_spec in E as (He&H0&Hn). split.
      * intros [= <- <-]. replace (u32 i + (e - u32 i)) with e by lia. split_and!; try done; lia.
      * intros (->&Hl&Hlt&Hz&Hnz). do 2 f_equal.
        destruct (decide (e < u32 i + len)); [by destruct (Hnz e ltac:(lia))|].
        destruct (decide (u32 i + len < e)); [by destruct (Hn (u32 i + len) ltac:(lia))|]. lia.
    + split; [done|]. intros (->&Hl&Hlt&Hz&_).
      by destruct (fetchstr_loop_None _ _ _ E (u32 i + len) ltac:(lia)).
Qed.

(** The stack at 100 holds a return address and the argument 200, the
    address of the string a. *)
Definition demo_uspace : uspace :=
  Uspace (λ a, if a =? 104 then 200 else if a =? 200 then 97 else 0) 4096 100.

Lemma argptr_argstr_in_bounds_witness :
  argptr demo_uspace 0 16 = Some 200 ∧ argptr demo_uspace 0 4000 = None ∧
  argstr demo_uspace 0 = Some (200, 1) ∧
  (argptr demo_uspace 0 16 = if decide (0 ≤ 16 ∧ u32 200 < 4096 ∧ u32 200 + 16 ≤ 4096) then Some (u32 200) else None).
Proof.
  split_and!; [by vm_compute|by vm_compute|by vm_compute|].
  exact (proj1 (argptr_argstr_in_bounds demo_uspace 0 200 ltac:(by split) ltac:(by vm_compute)) 16 ltac:(by split)).
Defined.
