(* ===== verification/Sysfile.v ===== *)
(** * File system calls: [sysfile.c]

    The state of the calling process as these calls see it: the file layer,
    the descriptors [ofile], and the address space.  [cwd] is in the state of
    the file system ([f_cwd]).  A pointer argument is the address of user
    memory; the kernel's stack buffers are lists of bytes. *)

From S2P Require Import Prelude Params CString Sleeplock Blocks Log Fs Pipe File Syscall.

Record sst (B K : Type) := Sst {
  s_fl : flst B K;
  ofile : list (option nat);
  s_user : uspace;
}.
Arguments Sst {B K}.
Arguments s_fl {B K}.
Arguments ofile {B K}.
Arguments s_user {B K}.

Definition on_fl {B K} (f : flst B K → flst B K) (s : sst B K) : sst B K :=
  Sst (f (s_fl s)) (ofile s) (s_user s).
Definition on_ofile {B K} (f : list (option nat) → list (option nat)) (s : sst B K) : sst B K :=
  Sst (s_fl s) (f (ofile s)) (s_user s).
Definition on_umem {B K} (f : mem → mem) (s : sst B K) : sst B K :=
  Sst (s_fl s) (ofile s) (Uspace (f (u_mem (s_user s))) (u_sz (s_user s)) (u_esp (s_user s))).
Definition set_cwd {B} (v : option nat) (s : fss B) : fss B :=
  Fss (f_blk s) (f_sb s) (icache s) (f_me s) v (f_out s).

Definition DOT : list Z := [46; 0].
Definition DOTDOT : list Z := [46; 46; 0].

Section sysfile.
Context {B K : Type} `{!BlockOps B, !PageOps K} (devsw : Z → devops (B := B)).
(** The contents of a fresh page and of an uninitialised [name]. *)
Context (junk name0 : list Z).
Abbreviation SM := (M (sst B K)).

Definition flm {A} (m : M (flst B K) A) : SM A := λ s,
  match m (s_fl s) with
  | Ok a x => Ok a (on_fl (λ _, x) s)
  | Fail f => Fail f
  end.
(** A call into [fs.c], and into the log. *)
Definition fs {A} (m : M (fss B) A) : SM A := flm (fsm m).
Definition op_begin : SM unit := fs (blk begin_op).
Definition op_end : SM unit := fs (blk end_op).
Definition user {A} (f : uspace → A) : SM A := gets (λ s, f (s_user s)).

(** The descriptor and the file it refers to. *)
Definition argfd (n : Z) : SM (option (nat * nat)) :=
  o ← user (λ u, argint u n);
  match o with
  | None => mret None
  | Some fd =>
      if (fd <? 0) || (NOFILE <=? fd) then mret None
      else
        t ← gets ofile;
        o ← of_option (Undef "ofile index") (t !! Z.to_nat fd);
        match o with
        | None => mret None
        | Some f => mret (Some (Z.to_nat fd, f))
        end
  end.

Definition fdalloc (f : nat) : SM (option nat) :=
  t ← gets ofile;
  match list_find (λ o, o = None) t with
  | Some (fd, _) => modify (on_ofile (<[fd := Some f]>));; mret (Some fd)
  | None => mret None
  end.

Definition sys_dup : SM Z :=
  a ← argfd 0;
  match a with
  | None => mret (-1)
  | Some (_, f) =>
      o ← fdalloc f;
      match o with
      | None => mret (-1)
      | Some fd => flm (filedup f);; mret (Z.of_nat fd)
      end
  end.

(** The arguments of [read] and [write]: file, address and count. *)
Definition rw_args : SM (option (nat * Z * Z)) :=
  a ← argfd 0;
  match a with
  | None => mret None
  | Some (_, f) =>
      o ← user (λ u, argint u 2);
      match o with
      | None => mret None
      | Some n =>
          o ← user (λ u, argptr u 1 n);
          match o with
          | None => mret None
          | Some p => mret (Some (f, p, n))
          end
      end
  end.

Definition sys_read : SM Z :=
  a ← rw_args;
  match a with
  | None => mret (-1)
  | Some (f, p, n) =>
      '(r, l) ← flm (fileread devsw f n);
      modify (on_umem (λ m, store m p l));;
      mret r
  end.

Definition sys_write : SM Z :=
  a ← rw_args;
  match a with
  | None => mret (-1)
  | Some (f, p, n) =>
      l ← user (λ u, bytes_at (u_mem u) p (Z.to_nat n));
      flm (filewrite devsw f l n)
  end.

Definition sys_close : SM Z :=
  a ← argfd 0;
  match a with
  | None => mret (-1)
  | Some (fd, f) =>
      modify (on_ofile (<[fd := None]>));;
      flm (fileclose f);;
      mret 0
  end.

Definition sizeof_stat : Z := 20.
(** [struct stat] stored at [st]; the padding after the two shorts is kept. *)
Definition store_stat (m : mem) (st : Z) (v : fstat) : mem :=
  let m := store m st (le16 (st_type v)) in
  let m := store m (st + 4) (le32 (st_dev v)) in
  let m := store m (st + 8) (le32 (st_ino v)) in
  let m := store m (st + 12) (le16 (st_nlink v)) in
  store m (st + 16) (le32 (st_size v)).
Definition sys_fstat : SM Z :=
  a ← argfd 0;
  match a with
  | None => mret (-1)
  | Some (_, f) =>
      o ← user (λ u, argptr u 1 sizeof_stat);
      match o with
      | None => mret (-1)
      | Some st =>
          o ← flm (filestat f);
          match o with
          | None => mret (-1)
          | Some v => modify (on_umem (λ m, store_stat m st v));; mret 0
          end
      end
  end.

(** [ip->nlink += d; iupdate(ip);] *)
Definition link_add (ip : nat) (d : Z) : SM unit :=
  fs (inode_upd ip (λ i, set_nlink (s16 (i_nlink i + d)) i));;
  fs (iupdate ip).

(** The label [bad] of [sys_link]. *)
Definition link_bad (ip : nat) : SM Z :=
  fs (ilock (Some ip));;
  link_add ip (-1);;
  fs (iunlockput ip);;
  op_end;;
  mret (-1).

Definition sys_link : SM Z :=
  o ← user (λ u, (argstr u 0, argstr u 1));
  match o with
  | (Some old, Some new) =>
      old ← user (λ u, ustr u old);
      new ← user (λ u, ustr u new);
      op_begin;;
      o ← fs (namei devsw old);
      match o with
      | None => op_end;; mret (-1)
      | Some ip =>
          fs (ilock (Some ip));;
          i ← fs (inode_get ip);
          if i_type i =? T_DIR then
            fs (iunlockput ip);; op_end;; mret (-1)
          else
            link_add ip 1;;
            fs (iunlock (Some ip));;
            '(o, name) ← fs (nameiparent devsw new name0);
            match o with
            | None => link_bad ip
            | Some dp =>
                fs (ilock (Some dp));;
                d ← fs (inode_get dp);
                i ← fs (inode_get ip);
                r ← (if negb (i_dev d =? i_dev i) then mret (-1)
                     else fs (dirlink devsw dp name (i_inum i)));
                if r <? 0 then fs (iunlockput dp);; link_bad ip
                else
                  fs (iunlockput dp);;
                  fs (iput ip);;
                  op_end;;
                  mret 0
            end
      end
  | _ => mret (-1)
  end.

Fixpoint isdirempty_loop (dp : nat) (fuel : nat) (off : Z) : SM bool :=
  match fuel with
  | O => fail OutOfFuel
  | S k =>
      d ← fs (inode_get dp);
      if off <? i_size d then
        '(r, de) ← fs (readi devsw dp off sizeof_dirent);
        if negb (r =? sizeof_dirent) then panic "isdirempty: readi"
        else if negb (dirent_inum de =? 0) then mret false
        else isdirempty_loop dp k (off + sizeof_dirent)
      else mret true
  end.
Definition isdirempty (dp : nat) : SM bool :=
  d ← fs (inode_get dp);
  isdirempty_loop dp (Z.to_nat (i_size d / sizeof_dirent) + 2) (2 * sizeof_dirent).

(** The label [bad] of [sys_unlink]. *)
Definition unlink_bad (dp : nat) : SM Z :=
  fs (iunlockput dp);;
  op_end;;
  mret (-1).

Definition sys_unlink : SM Z :=
  o ← user (λ u, argstr u 0);
  match o with
  | None => mret (-1)
  | Some p =>
      path ← user (λ u, ustr u p);
      op_begin;;
      '(o, name) ← fs (nameiparent devsw path name0);
      match o with
      | None => op_end;; mret (-1)
      | Some dp =>
          fs (ilock (Some dp));;
          if (namecmp name DOT =? 0) || (namecmp name DOTDOT =? 0) then unlink_bad dp
          else
            o ← fs (dirlookup devsw dp name);
            match o with
            | None => unlink_bad dp
            | Some (ip, off) =>
                fs (ilock (Some ip));;
                i ← fs (inode_get ip);
                if i_nlink i <? 1 then panic "unlink: nlink < 1"
                else
                  e ← (if i_type i =? T_DIR then isdirempty ip else mret true);
                  if negb e then fs (iunlockput ip);; unlink_bad dp
                  else
                    r ← fs (writei devsw dp (replicate (Z.to_nat sizeof_dirent) 0) off sizeof_dirent);
                    if negb (r =? sizeof_dirent) then panic "unlink: writei"
                    else
                      i ← fs (inode_get ip);
                      when (i_type i =? T_DIR) (link_add dp (-1));;
                      fs (iunlockput dp);;
                      link_add ip (-1);;
                      fs (iunlockput ip);;
                      op_end;;
                      mret 0
            end
      end
  end.

Definition create (path : list Z) (type major minor : Z) : SM (option nat) :=
  '(o, name) ← fs (nameiparent devsw path name0);
  match o with
  | None => mret None
  | Some dp =>
      fs (ilock (Some dp));;
      o ← fs (dirlookup devsw dp name);
      match o with
      | Some (ip, _) =>
          fs (iunlockput dp);;
          fs (ilock (Some ip));;
          i ← fs (inode_get ip);
          if (type =? T_FILE) && (i_type i =? T_FILE) then mret (Some ip)
          else fs (iunlockput ip);; mret None
      | None =>
          d ← fs (inode_get dp);
          ip ← fs (ialloc (i_dev d) type);
          fs (ilock (Some ip));;
          fs (inode_upd ip (λ i, set_nlink 1 (set_majmin (s16 major) (s16 minor) i)));;
          fs (iupdate ip);;
          i ← fs (inode_get ip);
          d ← fs (inode_get dp);
          when (type =? T_DIR) (
            link_add dp 1;;
            r ← fs (dirlink devsw ip DOT (i_inum i));
            if r <? 0 then panic "create dots"
            else
              r ← fs (dirlink devsw ip DOTDOT (i_inum d));
              if r <? 0 then panic "create dots" else mret tt);;
          r ← fs (dirlink devsw dp name (i_inum i));
          if r <? 0 then panic "create: dirlink"
          else
            fs (iunlockput dp);;
            mret (Some ip)
      end
  end.

(** The first half of [sys_open]: the locked inode. *)
Definition open_ip (path : list Z) (omode : Z) : SM (option nat) :=
  if negb (Z.land omode O_CREATE =? 0) then create path T_FILE 0 0
  else
    o ← fs (namei devsw path);
    match o with
    | None => mret None
    | Some ip =>
        fs (ilock (Some ip));;
        i ← fs (inode_get ip);
        if (i_type i =? T_DIR) && negb (omode =? O_RDONLY) then
          fs (iunlockput ip);; mret None
        else mret (Some ip)
    end.

Definition b2z (b : bool) : Z := if b then 1 else 0.

Definition sys_open : SM Z :=
  o ← user (λ u, (argstr u 0, argint u 1));
  match o with
  | (Some p, Some omode) =>
      path ← user (λ u, ustr u p);
      op_begin;;
      o ← open_ip path omode;
      match o with
      | None => op_end;; mret (-1)
      | Some ip =>
          ofl ← flm filealloc;
          match ofl with
          | None => fs (iunlockput ip);; op_end;; mret (-1)
          | Some f =>
              ofd ← fdalloc f;
              match ofd with
              | None => flm (fileclose f);; fs (iunlockput ip);; op_end;; mret (-1)
              | Some fd =>
                  fs (iunlock (Some ip));;
                  op_end;;
                  flm (file_upd f (λ x, set_fmode
                    (b2z (Z.land omode O_WRONLY =? 0))
                    (b2z (negb (Z.land omode O_WRONLY =? 0) || negb (Z.land omode O_RDWR =? 0)))
                    (set_foff 0 (set_fip (Some ip) (set_ftype FD_INODE x)))));;
                  mret (Z.of_nat fd)
              end
          end
      end
  | _ => mret (-1)
  end.

(** The common end of [sys_mkdir] and [sys_mknod]. *)
Definition created (o : option nat) : SM Z :=
  match o with
  | None => op_end;; mret (-1)
  | Some ip => fs (iunlockput ip);; op_end;; mret 0
  end.

Definition sys_mkdir : SM Z :=
  op_begin;;
  o ← user (λ u, argstr u 0);
  match o with
  | None => created None
  | Some p =>
      path ← user (λ u, ustr u p);
      o ← create path T_DIR 0 0;
      created o
  end.

Definition sys_mknod : SM Z :=
  op_begin;;
  o ← user (λ u, (argstr u 0, argint u 1, argint u 2));
  match o with
  | (Some p, Some major, Some minor) =>
      path ← user (λ u, ustr u p);
      o ← create path T_DEV major minor;
      created o
  | _ => created None
  end.

Definition sys_chdir : SM Z :=
  op_begin;;
  o ← user (λ u, argstr u 0);
  match o with
  | None => op_end;; mret (-1)
  | Some p =>
      path ← user (λ u, ustr u p);
      o ← fs (namei devsw path);
      match o with
      | None => op_end;; mret (-1)
      | Some ip =>
          fs (ilock (Some ip));;
          i ← fs (inode_get ip);
          if negb (i_type i =? T_DIR) then
            fs (iunlockput ip);; op_end;; mret (-1)
          else
            fs (iunlock (Some ip));;
            cwd ← fs (gets f_cwd);
            c ← of_option (Undef "null cwd") cwd;
            fs (iput c);;
            op_end;;
            fs (modify (set_cwd (Some ip)));;
            mret 0
      end
  end.

(** The argument vector of [exec]: [None] for -1. *)
Fixpoint exec_args (u : uspace) (n : nat) (i : Z) (uargv : Z) : option (list (list Z)) :=
  match n with
  | O => None
  | S k =>
      uarg ← fetchint u (uargv +u 4 * i);
      if uarg =? 0 then Some []
      else
        len ← fetchstr u (u32 uarg);
        rest ← exec_args u k (i + 1) uargv;
        Some (ustr u (u32 uarg, len) :: rest)
  end.
Definition sys_exec (exec : list Z → list (list Z) → SM Z) : SM Z :=
  o ← user (λ u, (argstr u 0, argint u 1));
  match o with
  | (Some p, Some uargv) =>
      path ← user (λ u, ustr u p);
      o ← user (λ u, exec_args u (Z.to_nat MAXARG) 0 (u32 uargv));
      match o with
      | None => mret (-1)
      | Some argv => exec path argv
      end
  | _ => mret (-1)
  end.

(** Undo what [sys_pipe] has done so far. *)
Definition pipe_undo (fd0 : option nat) (rf wf : nat) : SM Z :=
  match fd0 with Some fd => modify (on_ofile (<[fd := None]>)) | None => mret tt end;;
  flm (fileclose rf);;
  flm (fileclose wf);;
  mret (-1).
Definition sys_pipe : SM Z :=
  o ← user (λ u, argptr u 0 8);
  match o with
  | None => mret (-1)
  | Some fd =>
      o ← flm (pipealloc junk);
      match o with
      | None => mret (-1)
      | Some (rf, wf) =>
          o0 ← fdalloc rf;
          match o0 with
          | None => pipe_undo None rf wf
          | Some fd0 =>
              o1 ← fdalloc wf;
              match o1 with
              | None => pipe_undo (Some fd0) rf wf
              | Some fd1 =>
                  modify (on_umem (λ m, store32 (store32 m fd (Z.of_nat fd0)) (fd + 4) (Z.of_nat fd1)));;
                  mret 0
              end
          end
      end
  end.
End sysfile.
