(* ===== verification/SysfileThms.v ===== *)
(** * Reference counts of open files

    The reference count of a file is the number of descriptors that refer to
    it; every file system call of a process keeps it so. *)

From S2P Require Import Prelude Params CString Sleeplock Blocks Bio Log LogThms Fs BlockLaws FsThms Kalloc Pipe File Syscall Sysfile.

Section refs.
Context {B K : Type} `{!BlockOps B, !PageOps K} (devsw : Z → devops (B := B)).
Context (junk name0 : list Z).
Abbreviation SM := (M (sst B K)).

(** How many of the descriptors [t] refer to file [i]. *)
Definition fds (t : list (option nat)) (i : nat) : Z := Z.of_nat (length (filter (λ x, x = Some i) t)).

(** The counts of the files, for a process with descriptors [t]: [o i] is the
    number of references to file [i] other than these, those of other
    processes and those the kernel holds while it works on a call. *)
Record frefs (t : list (option nat)) (o : nat → Z) (c : list Z) : Prop := {
  rf_count i r : c !! i = Some r → r = fds t i + o i;
  rf_valid i : Some i ∈ t → (i < length c)%nat;
  rf_out i : o i ≠ 0 → (i < length c)%nat;
  rf_len : length t = Z.to_nat NOFILE;
}.
Definition counts (fl : flst B K) : list Z := fd_ref <$> ftable fl.
Definition refs (o : nat → Z) (s : sst B K) : Prop := frefs (ofile s) o (counts (s_fl s)).

Definition bump (d : Z) (i : nat) (o : nat → Z) : nat → Z := λ j, if decide (j = i) then o j + d else o j.

(** [m] takes a state with outside references [o] to one with [q a]. *)
Definition moves {A} (o : nat → Z) (m : SM A) (q : A → nat → Z) : Prop :=
  ∀ s a s', refs o s → m s = Ok a s' → refs (q a) s'.
Definition fmoves {A} (t : list (option nat)) (o : nat → Z) (m : M (flst B K) A) (q : A → nat → Z) : Prop :=
  ∀ s a s', frefs t o (counts s) → m s = Ok a s' → frefs t (q a) (counts s').
(** [m] changes neither the counts nor the descriptors. *)
Definition keeps {A} (m : SM A) : Prop :=
  ∀ s a s', m s = Ok a s' → counts (s_fl s') = counts (s_fl s) ∧ ofile s' = ofile s.

Lemma moves_keeps {A} o (m : SM A) : keeps m → moves o m (λ _, o).
Proof. intros Hk s a s' H E. unfold refs. destruct (Hk _ _ _ E) as [-> ->]. done. Qed.
Lemma moves_bind {A A'} o (m : SM A) (k : A → SM A') q q' :
  moves o m q → (∀ a, moves (q a) (k a) q') → moves o (m ≫= k) q'.
Proof. intros Hm Hk s a s' Hr (b&s1&E1&E2)%bind_Ok. eapply Hk; [|done]. by eapply Hm. Qed.
Lemma fmoves_bind {A A'} t o (m : M (flst B K) A) (k : A → M (flst B K) A') q q' :
  fmoves t o m q → (∀ a, fmoves t (q a) (k a) q') → fmoves t o (m ≫= k) q'.
Proof. intros Hm Hk s a s' Hr (b&s1&E1&E2)%bind_Ok. eapply Hk; [|done]. by eapply Hm. Qed.
Lemma moves_flm {A} o (m : M (flst B K) A) q : (∀ t, fmoves t o m q) → moves o (flm m) q.
Proof.
  intros Hm s a s' Hr. unfold flm. destruct (m (s_fl s)) eqn:E; [|done]. intros [= <- <-].
  by eapply (Hm (ofile s)).
Qed.
Lemma frefs_ext t o o' c : (∀ i, o i = o' i) → frefs t o c → frefs t o' c.
Proof.
  intros He [H1 H2 H3 H4]. split; try done; intros i.
  - intros r. rewrite <-He. apply H1.
  - rewrite <-He. apply H3.
Qed.

Lemma keeps_ret {A} (a : A) : keeps (mret a).
Proof. by intros s a' s' [= <- <-]. Qed.
Lemma keeps_fail {A} f : keeps (fail f : SM A).
Proof. by intros s a s' E. Qed.
Lemma keeps_bind {A A'} (m : SM A) (k : A → SM A') : keeps m → (∀ a, keeps (k a)) → keeps (m ≫= k).
Proof.
  intros Hm Hk s a s' (b&s1&E1&E2)%bind_Ok. apply Hm in E1 as [E11 E12].
  apply Hk in E2 as [-> ->]. done.
Qed.
Lemma keeps_gets {A} (f : sst B K → A) : keeps (gets f).
Proof. by intros s a s' [= <- <-]. Qed.
Lemma keeps_fs {A} (m : M (fss B) A) : keeps (fs m).
Proof.
  intros s a s'. unfold fs, flm, fsm. destruct (m (fl_fs (s_fl s))); [|done]. by intros [= <- <-].
Qed.
Lemma keeps_umem f : keeps (modify (on_umem f)).
Proof. by intros s a s' [= <- <-]. Qed.
Lemma keeps_of_option {A} f (x : option A) : keeps (of_option f x).
Proof. destruct x; [apply keeps_ret|apply keeps_fail]. Qed.

(** Parts of the file layer that leave reference counts alone. *)
Definition fkeeps {A} (m : M (flst B K) A) : Prop :=
  ∀ s a s', m s = Ok a s' → counts s' = counts s.
Lemma keeps_flm {A} (m : M (flst B K) A) : fkeeps m → keeps (flm m).
Proof.
  intros Hm s a s'. unfold flm. destruct (m (s_fl s)) eqn:E; [|done]. intros [= <- <-].
  split; [|done]. by apply Hm in E.
Qed.
Lemma fkeeps_ret {A} (a : A) : fkeeps (mret a).
Proof. by intros s a' s' [= <- <-]. Qed.
Lemma fkeeps_fail {A} f : fkeeps (fail f : M (flst B K) A).
Proof. by intros s a s' E. Qed.
Lemma fkeeps_bind {A A'} (m : M (flst B K) A) (k : A → M (flst B K) A') :
  fkeeps m → (∀ a, fkeeps (k a)) → fkeeps (m ≫= k).
Proof. intros Hm Hk s a s' (b&s1&E1&E2)%bind_Ok. apply Hm in E1 as <-. by apply Hk in E2. Qed.
Lemma fkeeps_gets {A} (f : flst B K → A) : fkeeps (gets f).
Proof. by intros s a s' [= <- <-]. Qed.
Lemma fkeeps_fsm {A} (m : M (fss B) A) : fkeeps (fsm m).
Proof. intros s a s'. unfold fsm. destruct (m (fl_fs s)); [|done]. by intros [= <- <-]. Qed.
Lemma fkeeps_pagem {A} (m : M K A) : fkeeps (pagem m).
Proof. intros s a s'. unfold pagem. destruct (m (fl_pages s)); [|done]. by intros [= <- <-]. Qed.
Lemma fkeeps_pipes f : fkeeps (modify (on_pipes f)).
Proof. by intros s a s' [= <- <-]. Qed.
Lemma fkeeps_file_get i : fkeeps (file_get i).
Proof. intros s a s'. unfold file_get. destruct (ftable s !! i); [|done]. by intros [= <- <-]. Qed.
Lemma fkeeps_pipe_get p : fkeeps (pipe_get p).
Proof. intros s a s'. unfold pipe_get. destruct (fl_pipes s !! p); [|done]. by intros [= <- <-]. Qed.
Lemma fkeeps_upd i g : (∀ f, fd_ref (g f) = fd_ref f) → fkeeps (file_upd i g).
Proof.
  intros Hg s a s'. unfold file_upd. destruct (ftable s !! i) as [f|] eqn:E; [|done]. intros [= <- <-].
  unfold counts. cbn. rewrite list_fmap_insert, Hg. apply list_insert_id. by rewrite list_lookup_fmap, E.
Qed.

End refs.

Create HintDb keeps.
#[export] Hint Resolve keeps_ret keeps_fail keeps_gets keeps_fs keeps_umem keeps_of_option keeps_flm : keeps.
#[export] Hint Resolve fkeeps_ret fkeeps_fail fkeeps_gets fkeeps_fsm fkeeps_pagem fkeeps_pipes fkeeps_file_get fkeeps_pipe_get : keeps.

(** Walks through a program all of whose parts leave the counts alone. *)
Ltac keep :=
  repeat first
    [ progress intros
    | match goal with
      | |- keeps (mbind _ _) => apply keeps_bind
      | |- fkeeps (mbind _ _) => apply fkeeps_bind
      | |- keeps (when ?b _) => unfold when; destruct b
      | |- fkeeps (when ?b _) => unfold when; destruct b
      | |- keeps (if ?b then _ else _) => destruct b
      | |- fkeeps (if ?b then _ else _) => destruct b
      | |- keeps (match ?x with _ => _ end) => destruct x
      | |- fkeeps (match ?x with _ => _ end) => destruct x
      | |- keeps (let '(_, _) := ?x in _) => destruct x
      | |- fkeeps (file_upd _ _) => apply fkeeps_upd; done
      end
    | solve [eauto with keeps] ].

Section calls.
Context {B K : Type} `{!BlockOps B, !PageOps K} (devsw : Z → devops (B := B)).
Context (junk name0 : list Z).
Implicit Types s : sst B K.

(** ** Calls that leave the counts alone *)

Lemma fkeeps_pipe_read p n : fkeeps (B := B) (K := K) (pipe_read p n).
Proof. unfold pipe_read, pipe_put. keep. Qed.
Lemma fkeeps_pipe_write p l n : fkeeps (B := B) (K := K) (pipe_write p l n).
Proof. unfold pipe_write, pipe_put. keep. Qed.
Lemma fkeeps_fileread i n : fkeeps (B := B) (K := K) (fileread devsw i n).
Proof. unfold fileread, the_ip, of_option, panic. pose proof fkeeps_pipe_read. keep. Qed.
Lemma fkeeps_filestat i : fkeeps (B := B) (K := K) (filestat i).
Proof. unfold filestat, the_ip, of_option. keep. Qed.
Lemma fkeeps_filewrite_loop i fuel l k n : fkeeps (B := B) (K := K) (filewrite_loop devsw i fuel l k n).
Proof.
  revert l k. induction fuel as [|fuel IH]; intros l k; cbn [filewrite_loop]; unfold the_ip, of_option, panic; keep.
Qed.
Lemma fkeeps_filewrite i l n : fkeeps (B := B) (K := K) (filewrite devsw i l n).
Proof. unfold filewrite, panic. pose proof fkeeps_filewrite_loop. pose proof fkeeps_pipe_write. keep. Qed.

#[local] Hint Resolve fkeeps_fileread fkeeps_filestat fkeeps_filewrite : keeps.

Lemma keeps_argfd n : keeps (B := B) (K := K) (argfd n).
Proof. unfold argfd, user. keep. Qed.
#[local] Hint Resolve keeps_argfd : keeps.
Lemma keeps_rw_args : keeps (B := B) (K := K) rw_args.
Proof. unfold rw_args, user. keep. Qed.
Lemma keeps_link_add ip d : keeps (B := B) (K := K) (link_add ip d).
Proof. unfold link_add. keep. Qed.
Lemma keeps_op_end : keeps (B := B) (K := K) op_end.
Proof. apply keeps_fs. Qed.
Lemma keeps_op_begin : keeps (B := B) (K := K) op_begin.
Proof. apply keeps_fs. Qed.
#[local] Hint Resolve keeps_rw_args keeps_link_add keeps_op_end keeps_op_begin : keeps.
Lemma keeps_isdirempty_loop dp fuel off : keeps (B := B) (K := K) (isdirempty_loop devsw dp fuel off).
Proof. revert off. induction fuel as [|fuel IH]; intros off; cbn [isdirempty_loop]; unfold panic; keep. Qed.
Lemma keeps_isdirempty dp : keeps (B := B) (K := K) (isdirempty devsw dp).
Proof. unfold isdirempty. pose proof keeps_isdirempty_loop. keep. Qed.
#[local] Hint Resolve keeps_isdirempty : keeps.
Lemma keeps_create path type major minor :
  keeps (B := B) (K := K) (create devsw name0 path type major minor).
Proof. unfold create, panic. keep. Qed.
#[local] Hint Resolve keeps_create : keeps.
Lemma keeps_open_ip path omode : keeps (B := B) (K := K) (open_ip devsw name0 path omode).
Proof. unfold open_ip. keep. Qed.
Lemma keeps_created o : keeps (B := B) (K := K) (created o).
Proof. unfold created. keep. Qed.
#[local] Hint Resolve keeps_open_ip keeps_created : keeps.

Lemma keeps_sys_read : keeps (B := B) (K := K) (sys_read devsw).
Proof. unfold sys_read. keep. Qed.
Lemma keeps_sys_write : keeps (B := B) (K := K) (sys_write devsw).
Proof. unfold sys_write, user. keep. Qed.
Lemma keeps_sys_fstat : keeps (B := B) (K := K) sys_fstat.
Proof. unfold sys_fstat, user. keep. Qed.
Lemma keeps_sys_link : keeps (B := B) (K := K) (sys_link devsw name0).
Proof. unfold sys_link, link_bad, user. keep. Qed.
Lemma keeps_sys_unlink : keeps (B := B) (K := K) (sys_unlink devsw name0).
Proof. unfold sys_unlink, unlink_bad, user, panic. keep. Qed.
Lemma keeps_sys_mkdir : keeps (B := B) (K := K) (sys_mkdir devsw name0).
Proof. unfold sys_mkdir, user. keep. Qed.
Lemma keeps_sys_mknod : keeps (B := B) (K := K) (sys_mknod devsw name0).
Proof. unfold sys_mknod, user. keep. Qed.
Lemma keeps_sys_chdir : keeps (B := B) (K := K) (sys_chdir devsw).
Proof. unfold sys_chdir, user. keep. Qed.

(** ** Calls that take and give references *)

Lemma fmoves_keeps {A} t o (m : M (flst B K) A) : fkeeps m → fmoves t o m (λ _, o).
Proof. intros Hk s a s' H E. by rewrite (Hk _ _ _ E). Qed.

Lemma bump_eq d i o : bump d i o i = o i + d.
Proof. unfold bump. by rewrite decide_True. Qed.
Lemma bump_ne d i o j : j ≠ i → bump d i o j = o j.
Proof. intros H. unfold bump. by rewrite decide_False. Qed.
Lemma bump_undo d i o j : bump (- d) i (bump d i o) j = o j.
Proof. unfold bump. case_decide; lia. Qed.

Lemma fds_bound t o c i : frefs t o c → 0 ≤ fds t i ≤ NOFILE.
Proof.
  intros [_ _ _ Hl]. unfold fds. pose proof (length_filter (λ x, x = Some i) t). unfold NOFILE in *. lia.
Qed.

(** Changing the count of one file. *)
Lemma frefs_upd t o c i d r :
  c !! i = Some r → frefs t o c → frefs t (bump d i o) (<[i := r + d]> c).
Proof.
  intros Hi [H1 H2 H3 H4]. pose proof (lookup_lt_Some _ _ _ Hi) as Hlt. split.
  - intros j x. destruct (decide (j = i)) as [->|Hne].
    + rewrite list_lookup_insert_eq, bump_eq by done. intros [= <-]. rewrite (H1 _ _ Hi). lia.
    + rewrite list_lookup_insert_ne, bump_ne by done. apply H1.
  - intros j. rewrite length_insert. apply H2.
  - intros j. rewrite length_insert. destruct (decide (j = i)) as [->|Hne]; [done|].
    rewrite bump_ne by done. apply H3.
  - done.
Qed.
Lemma counts_upd i (g : file → file) (fl fl' : flst B K) f :
  ftable fl !! i = Some f → file_upd i g fl = Ok tt fl' →
  counts fl' = <[i := fd_ref (g f)]> (counts fl) ∧ ftable fl' !! i = Some (g f).
Proof.
  intros Hf. unfold file_upd. rewrite Hf. intros [= <-]. unfold counts. cbn. split.
  - apply list_fmap_insert.
  - apply list_lookup_insert_eq. by eapply lookup_lt_Some.
Qed.
Lemma counts_lookup (fl : flst B K) i f : ftable fl !! i = Some f → counts fl !! i = Some (fd_ref f).
Proof. intros H. unfold counts. by rewrite list_lookup_fmap, H. Qed.

Lemma fmoves_filealloc t o :
  fmoves t o (filealloc (B := B) (K := K)) (λ r, match r with Some i => bump 1 i o | None => o end).
Proof.
  intros fl a fl' Hr (x&s1&[= <- <-]&E)%bind_Ok.
  destruct (list_find (λ f, fd_ref f = 0) (ftable fl)) as [[i f]|] eqn:Ef.
  - apply list_find_Some in Ef as (Hf&Hz&_). apply bind_Ok in E as ([]&s2&E1&[= <- <-]).
    destruct (counts_upd _ _ _ _ _ Hf E1) as [-> _]. cbn.
    change 1 with (0 + 1) at 2. rewrite <-Hz. apply frefs_upd; [by apply counts_lookup|done].
  - by injection E as <- <-.
Qed.

Lemma fmoves_filedup t o i :
  -100 ≤ o i < 1000000 → fmoves t o (filedup (B := B) (K := K) i) (λ _, bump 1 i o).
Proof.
  intros Ho fl a fl' Hr (f&s1&E1&E)%bind_Ok. unfold file_get in E1.
  destruct (ftable fl !! i) as [f'|] eqn:Hf; [|done]. injection E1 as -> <-.
  destruct (fd_ref f <? 1); [done|]. apply bind_Ok in E as ([]&s2&E2&[= <- <-]).
  destruct (counts_upd _ _ _ _ _ Hf E2) as [-> _]. cbn.
  pose proof (rf_count _ _ _ Hr i _ (counts_lookup _ _ _ Hf)). pose proof (fds_bound _ _ _ i Hr).
  unfold NOFILE in *. rewrite s32_id by (unfold is_i32; lia). apply frefs_upd; [by apply counts_lookup|done].
Qed.

Lemma fmoves_fileclose t o i :
  -100 ≤ o i < 1000000 → fmoves t o (fileclose (B := B) (K := K) i) (λ _, bump (-1) i o).
Proof.
  intros Ho fl a fl' Hr (f&s1&E1&E)%bind_Ok. unfold file_get in E1.
  destruct (ftable fl !! i) as [f'|] eqn:Hf; [|done]. injection E1 as -> <-.
  destruct (Z.ltb_spec (fd_ref f) 1); [done|]. apply bind_Ok in E as ([]&s2&E2&E).
  destruct (counts_upd _ _ _ _ _ Hf E2) as [Ec Hf2]. cbn in Ec.
  pose proof (rf_count _ _ _ Hr i _ (counts_lookup _ _ _ Hf)). pose proof (fds_bound _ _ _ i Hr).
  unfold NOFILE in *. rewrite s32_id in * by (unfold is_i32; lia).
  assert (frefs t (bump (-1) i o) (counts s2)) as Hr2.
  { rewrite Ec. apply frefs_upd; [by apply counts_lookup|done]. }
  destruct (Z.ltb_spec 0 (fd_ref f - 1)); [by injection E as <- <-|].
  apply bind_Ok in E as (ff&s3&E3&E). unfold file_get in E3. rewrite Hf2 in E3. injection E3 as <- <-.
  apply bind_Ok in E as ([]&s4&E4&E). destruct (counts_upd _ _ _ _ _ Hf2 E4) as [Ec4 Hf4]. cbn in Ec4.
  assert (counts s4 = counts s2) as Ec42.
  { rewrite Ec4. apply list_insert_id. rewrite (counts_lookup _ _ _ Hf2). cbn. f_equal. lia. }
  rewrite <-Ec42 in Hr2. refine (fmoves_keeps t _ _ _ _ _ _ Hr2 E).
  unfold pipe_close, pipe_put, the_ip, of_option. keep.
Qed.

Lemma fmoves_weaken {A} t o (m : M (flst B K) A) q q' :
  fmoves t o m q → (∀ a i, q a i = q' a i) → fmoves t o m q'.
Proof. intros Hm He s a s' Hr E. eapply frefs_ext; [apply He|]. by eapply Hm. Qed.
Lemma moves_weaken {A} o (m : M (sst B K) A) q q' :
  moves o m q → (∀ a i, q a i = q' a i) → moves o m q'.
Proof. intros Hm He s a s' Hr E. eapply frefs_ext; [apply He|]. by eapply Hm. Qed.

(** Closing a file the kernel holds, if any. *)
Lemma fmoves_close_opt t o (x : option nat) :
  (∀ i, x = Some i → -100 ≤ o i < 1000000) →
  fmoves t o (match x with Some i => fileclose (B := B) (K := K) i | None => mret tt end)
    (λ _, match x with Some i => bump (-1) i o | None => o end).
Proof.
  intros Hx. destruct x as [i|]; [by apply fmoves_fileclose, Hx|apply fmoves_keeps, fkeeps_ret].
Qed.

Definition bumps (x y : option nat) (o : nat → Z) : nat → Z :=
  let o := match x with Some i => bump 1 i o | None => o end in
  match y with Some j => bump 1 j o | None => o end.

Lemma fmoves_pipealloc_bad t o p x y :
  (∀ i, 0 ≤ o i < 900000) →
  fmoves t (bumps x y o) (pipealloc_bad (B := B) (K := K) p x y) (λ _, o).
Proof.
  intros Ho. unfold pipealloc_bad.
  eapply fmoves_bind; [apply fmoves_keeps; keep|]. intros [].
  assert (∀ o' z i, (∀ j, o' j = bumps x y o j ∨ o' j = bumps x y o j - 1) → z = Some i → -100 ≤ o' i < 1000000) as Hb.
  { intros o' z i Ho' _. specialize (Ho i). specialize (Ho' i). unfold bumps, bump in Ho'.
    repeat case_match; lia. }
  eapply fmoves_bind; [apply fmoves_close_opt; intros i; apply Hb; by left|]. intros [].
  eapply fmoves_bind; [apply fmoves_close_opt; intros i; apply Hb; intros j; unfold bump; case_match; auto;
    case_decide; lia|].
  intros ?; cbv beta. eapply fmoves_weaken; [apply fmoves_keeps, fkeeps_ret|].
  intros ? i. unfold bumps, bump. specialize (Ho i). repeat case_match; simplify_eq; lia.
Qed.

Lemma fmoves_pipealloc t o :
  (∀ i, 0 ≤ o i < 900000) →
  fmoves t o (pipealloc (B := B) (K := K) junk)
    (λ r, match r with Some (i, j) => bumps (Some i) (Some j) o | None => o end).
Proof.
  intros Ho. pose proof (λ p x y, fmoves_pipealloc_bad t o p x y Ho) as Hbad.
  assert (∀ p x y, fmoves t (bumps x y o) (pipealloc_bad (B := B) (K := K) p x y)
    (λ r, match r with Some (i, j) => bumps (Some i) (Some j) o | None => o end)) as Hbad'.
  { intros p x y s a s' Hr E. assert (a = None) as ->.
    { unfold pipealloc_bad in E. inv_ok. done. }
    by eapply Hbad. }
  unfold pipealloc. eapply fmoves_bind; [apply fmoves_filealloc|]. intros [i0|].
  2: apply (Hbad' 0 None None).
  eapply fmoves_bind; [apply fmoves_filealloc|]. intros [i1|].
  2: apply (Hbad' 0 (Some i0) None).
  eapply fmoves_bind; [apply fmoves_keeps; keep|]. intros p.
  destruct (p =? 0); [apply (Hbad' 0 (Some i0) (Some i1))|].
  eapply fmoves_bind; [apply fmoves_keeps; unfold pipe_put; keep|]. intros [].
  eapply fmoves_bind; [apply fmoves_keeps; keep|]. intros [].
  eapply fmoves_bind; [apply fmoves_keeps; keep|]. intros [] s a s' Hr [= <- <-]. done.
Qed.

(** A descriptor is made for a file of the table. *)
Lemma fds_insert t fd f i :
  t !! fd = Some None → fds (<[fd := Some f]> t) i = fds t i + (if decide (i = f) then 1 else 0).
Proof.
  intros Hfd. unfold fds. rewrite <-(take_drop_middle t fd None) at 2 by done.
  rewrite insert_take_drop by (by eapply lookup_lt_Some).
  rewrite !filter_app, !filter_cons, !length_app. case_decide; case_decide; simplify_eq; cbn;
    repeat case_decide; simplify_eq; cbn; lia.
Qed.
Lemma fds_delete t fd f i :
  t !! fd = Some (Some f) → fds (<[fd := None]> t) i = fds t i - (if decide (i = f) then 1 else 0).
Proof.
  intros Hfd. unfold fds. rewrite <-(take_drop_middle t fd (Some f)) at 2 by done.
  rewrite insert_take_drop by (by eapply lookup_lt_Some).
  rewrite !filter_app, !filter_cons, !length_app.
  repeat (case_decide; simplify_eq; cbn); lia.
Qed.

Lemma fdalloc_refs o f s r s' :
  refs o s → (f < length (counts (s_fl s)))%nat → fdalloc f s = Ok r s' →
  refs (match r with Some _ => bump (-1) f o | None => o end) s' ∧ s_fl s' = s_fl s.
Proof.
  intros [H1 H2 H3 H4] Hf (t&s1&[= <- <-]&E)%bind_Ok.
  destruct (list_find _ (ofile s)) as [[fd x]|] eqn:Ef; [|by injection E as <- <-].
  apply list_find_Some in Ef as (Hfd&->&_). apply bind_Ok in E as ([]&s2&[= <-]&[= <- <-]).
  split; [|done]. split; cbn [ofile s_fl on_ofile].
  - intros i x Hx. rewrite (H1 i x Hx), fds_insert by done. unfold bump. case_decide; lia.
  - intros i [j Hj]%list_elem_of_lookup. apply list_lookup_insert_Some in Hj as [(?&[= ->]&?)|[? Hj]]; [done|].
    apply H2. by eapply list_elem_of_lookup_2.
  - intros i. unfold bump. case_decide; [by subst|apply H3].
  - by rewrite length_insert.
Qed.
Lemma moves_fdalloc o f :
  o f ≠ 0 → moves o (fdalloc (B := B) (K := K) f) (λ r, match r with Some _ => bump (-1) f o | None => o end).
Proof. intros Ho s r s' Hr E. by eapply fdalloc_refs; [|apply (rf_out _ _ _ Hr)|]. Qed.

Lemma argfd_spec n s r s' :
  argfd n s = Ok r s' → s' = s ∧ ∀ fd f, r = Some (fd, f) → ofile s !! fd = Some (Some f).
Proof.
  unfold argfd, user. intros (x&s1&[= <- <-]&E)%bind_Ok. destruct (argint _ n) as [fd|].
  2: { injection E as <- <-. done. }
  destruct (_ || _); [by injection E as <- <-|]. apply bind_Ok in E as (t&s2&[= <- <-]&E).
  apply bind_Ok in E as (x&s2&E2&E). destruct (ofile s !! Z.to_nat fd) as [y|] eqn:Ey; [|done].
  injection E2 as <- <-. destruct y as [f|]; injection E as <- <-; [|done]. split; [done|]. by intros ?? [= <- <-].
Qed.

(** The descriptor [fd] is given up. *)
Lemma refs_close o s fd f :
  refs o s → ofile s !! fd = Some (Some f) → refs (bump 1 f o) (on_ofile (<[fd := None]>) s).
Proof.
  intros [H1 H2 H3 H4] Ha. split; cbn [ofile s_fl on_ofile].
  - intros i x Hx. rewrite (H1 i x Hx), (fds_delete _ _ f) by done. unfold bump. case_decide; lia.
  - intros i [j Hj]%list_elem_of_lookup. apply list_lookup_insert_Some in Hj as [(?&[=]&?)|[? Hj]].
    apply H2. by eapply list_elem_of_lookup_2.
  - intros i. unfold bump. case_decide; [|apply H3]. subst. intros _. apply H2. by eapply list_elem_of_lookup_2.
  - by rewrite length_insert.
Qed.
Lemma fdalloc_spec f s r s' :
  fdalloc f s = Ok r s' →
  match r with Some fd => ofile s' !! fd = Some (Some f) | None => s' = s end.
Proof.
  intros (t&s1&[= <- <-]&E)%bind_Ok.
  destruct (list_find _ (ofile s)) as [[fd x]|] eqn:Ef; [|by injection E as <- <-].
  apply list_find_Some in Ef as (Hfd&->&_). apply bind_Ok in E as ([]&s2&[= <-]&[= <- <-]).
  cbn. apply list_lookup_insert_eq. by eapply lookup_lt_Some.
Qed.

Section outside.
Context (o : nat → Z) (Ho : ∀ i, 0 ≤ o i < 900000).

Lemma moves_dup : moves o (sys_dup (B := B) (K := K)) (λ _, o).
Proof.
  intros s r s' Hr (a&s1&Ea&E)%bind_Ok. apply argfd_spec in Ea as [-> Ha].
  destruct a as [[fd f]|]; [|by injection E as <- <-]. specialize (Ha _ _ eq_refl).
  apply bind_Ok in E as (x&s2&E2&E).
  apply (fdalloc_refs o) in E2 as [Hr2 _]; [|done|apply (rf_valid _ _ _ Hr), list_elem_of_lookup; eauto].
  destruct x as [fd'|]; [|by injection E as <- <-]. refine ((_ : moves _ _ (λ _, o)) _ _ _ Hr2 E).
  eapply moves_bind; [apply moves_flm; intros t; apply fmoves_filedup; rewrite bump_eq; specialize (Ho f); lia|].
  intros n. eapply moves_weaken; [apply moves_keeps, keeps_ret|]. intros ? j. unfold bump. case_decide; lia.
Qed.

Lemma moves_close : moves o (sys_close (B := B) (K := K)) (λ _, o).
Proof.
  intros s r s' Hr (a&s1&Ea&E)%bind_Ok. apply argfd_spec in Ea as [-> Ha].
  destruct a as [[fd f]|]; [|by injection E as <- <-]. specialize (Ha _ _ eq_refl).
  apply bind_Ok in E as ([]&s2&[= <-]&E). set (s2 := on_ofile _ s) in E.
  pose proof (refs_close o s fd f Hr Ha) as Hr2.
  refine ((_ : moves _ _ (λ _, o)) _ _ _ Hr2 E).
  eapply moves_bind; [apply moves_flm; intros t; apply fmoves_fileclose; rewrite bump_eq; specialize (Ho f); lia|].
  intros n. eapply moves_weaken; [apply moves_keeps, keeps_ret|]. intros ? j. unfold bump. case_decide; lia.
Qed.

Lemma moves_open : moves o (sys_open (B := B) (K := K) devsw name0) (λ _, o).
Proof.
  unfold sys_open, user. eapply moves_bind; [apply moves_keeps; keep|]. intros [[p|] [omode|]];
    try (apply moves_keeps; keep; fail).
  eapply moves_bind; [apply moves_keeps; keep|]. intros path.
  eapply moves_bind; [apply moves_keeps; keep|]. intros [].
  eapply moves_bind; [apply moves_keeps; keep|]. intros [ip|]; [|apply moves_keeps; keep].
  eapply moves_bind; [apply moves_flm; intros t; apply fmoves_filealloc|].
  intros [f|]; [|apply moves_keeps; keep].
  eapply moves_bind; [apply moves_fdalloc; rewrite bump_eq; specialize (Ho f); lia|]. intros [fd|].
  - eapply moves_weaken; [apply moves_keeps; keep; apply keeps_flm; keep|]. intros ? j. unfold bump. case_decide; lia.
  - eapply moves_bind; [apply moves_flm; intros t; apply fmoves_fileclose; rewrite bump_eq; specialize (Ho f); lia|].
    intros []. eapply moves_weaken; [apply moves_keeps; keep|]. intros ? j. unfold bump. case_decide; lia.
Qed.

Lemma moves_close2 o1 rf wf :
  (∀ i, o1 i = bumps (Some rf) (Some wf) o i) →
  moves (B := B) (K := K) o1 (flm (fileclose rf);; flm (fileclose wf);; mret (-1)) (λ _, o).
Proof.
  intros E1. assert (∀ i, 0 ≤ o1 i < 900002) as Hb.
  { intros i. rewrite E1. specialize (Ho i). unfold bumps, bump. repeat case_decide; lia. }
  eapply moves_bind; [apply moves_flm; intros t; apply fmoves_fileclose; specialize (Hb rf); lia|]. intros [].
  eapply moves_bind; [apply moves_flm; intros t; apply fmoves_fileclose|].
  { specialize (Hb wf). unfold bump. case_decide; lia. }
  intros []. eapply moves_weaken; [apply moves_keeps, keeps_ret|]. intros ? i. unfold bump at 1 2.
  rewrite E1. unfold bumps, bump. repeat case_decide; lia.
Qed.

Lemma moves_pipe : moves o (sys_pipe (B := B) (K := K) junk) (λ _, o).
Proof.
  unfold sys_pipe, user. eapply moves_bind; [apply moves_keeps; keep|]. intros [p|]; [|apply moves_keeps; keep].
  eapply moves_bind; [apply moves_flm; intros t; by apply fmoves_pipealloc|].
  intros [[rf wf]|]; [|apply moves_keeps; keep]. set (o1 := bumps _ _ o).
  assert (o1 rf ≠ 0 ∧ o1 wf ≠ 0) as [Hrf Hwf].
  { unfold o1, bumps, bump. pose proof (Ho rf). pose proof (Ho wf). repeat case_decide; simplify_eq; lia. }
  intros s r s' Hr (x0&s1&E0&E)%bind_Ok. pose proof (fdalloc_spec _ _ _ _ E0) as Hs0.
  apply (moves_fdalloc _ _ Hrf) in E0; [|done]. destruct x0 as [fd0|]; cbn beta iota in *.
  2: { apply bind_Ok in E as ([]&s2&[= <-]&E). by eapply (moves_close2 o1 rf wf). }
  apply bind_Ok in E as (x1&s2&E1&E). pose proof (fdalloc_spec _ _ _ _ E1) as Hs1.
  destruct x1 as [fd1|].
  - assert (bump (-1) rf o1 wf ≠ 0) as Hwf'.
    { unfold o1, bumps, bump. pose proof (Ho wf). repeat case_decide; simplify_eq; lia. }
    apply (moves_fdalloc _ _ Hwf') in E1; [|done]. cbn beta iota in E1.
    refine ((_ : moves _ _ (λ _, o)) _ _ _ E1 E). eapply moves_weaken; [apply moves_keeps; keep|].
    intros ? i. unfold o1, bumps, bump. repeat case_decide; lia.
  - subst s2. apply bind_Ok in E as ([]&s2&[= <-]&E).
    refine (moves_close2 _ rf wf _ _ _ _ (refs_close _ _ _ _ E0 Hs0) E).
    intros i. unfold bump. case_decide; fold o1; lia.
Qed.
End outside.

(** ** Sequences of calls *)

Inductive fcall :=
| C_dup | C_read | C_write | C_close | C_fstat | C_link | C_unlink | C_open | C_mkdir | C_mknod | C_chdir | C_pipe.
Definition run_call (c : fcall) : M (sst B K) Z :=
  match c with
  | C_dup => sys_dup
  | C_read => sys_read devsw
  | C_write => sys_write devsw
  | C_close => sys_close
  | C_fstat => sys_fstat
  | C_link => sys_link devsw name0
  | C_unlink => sys_unlink devsw name0
  | C_open => sys_open devsw name0
  | C_mkdir => sys_mkdir devsw name0
  | C_mknod => sys_mknod devsw name0
  | C_chdir => sys_chdir devsw
  | C_pipe => sys_pipe junk
  end.

(** The process makes calls, and changes its memory between them. *)
Inductive fstep : sst B K → sst B K → Prop :=
| F_call c r s s' : run_call c s = Ok r s' → fstep s s'
| F_user u s : fstep s (Sst (s_fl s) (ofile s) u).

Lemma call_refs o c : (∀ i, 0 ≤ o i < 900000) → moves o (run_call c) (λ _, o).
Proof.
  intros Ho. destruct c; cbn [run_call];
    auto using moves_dup, moves_close, moves_open, moves_pipe, moves_keeps, keeps_sys_read, keeps_sys_write,
      keeps_sys_fstat, keeps_sys_link, keeps_sys_unlink, keeps_sys_mkdir, keeps_sys_mknod, keeps_sys_chdir.
Qed.

(** C8. Whatever file system calls a process makes, the reference count of
    every open file is the number of its descriptors for it plus the number
    of references from elsewhere, which do not change; so a file that a
    descriptor refers to is never free to be allocated again. *)
Theorem file_refcounts (o : nat → Z) (s s' : sst B K) :
  refs o s → (∀ i, 0 ≤ o i < 900000) → rtc fstep s s' →
  refs o s' ∧
  ∀ fd f, ofile s' !! fd = Some (Some f) → ∃ x, ftable (s_fl s') !! f = Some x ∧ 1 ≤ fd_ref x.
Proof.
  intros Hr Ho Hs. assert (refs o s') as Hr'.
  { refine (rtc_invariant fstep (refs o) _ _ _ Hr Hs).
    intros a b Ha Hab. destruct Hab as [c r s1 s2 E|u s1]; [exact (call_refs o c Ho _ _ _ Ha E)|exact Ha]. }
  split; [done|]. intros fd f Hfd.
  assert (f < length (ftable (s_fl s')))%nat as Hlt.
  { rewrite <-(length_fmap fd_ref). apply (rf_valid _ _ _ Hr'). by eapply list_elem_of_lookup_2. }
  destruct (lookup_lt_is_Some_2 _ _ Hlt) as [x Hx]. exists x. split; [done|].
  rewrite (rf_count _ _ _ Hr' f _ (counts_lookup _ _ _ Hx)). specialize (Ho f).
  assert (0 < fds (ofile s') f); [|lia]. unfold fds.
  assert (Some f ∈ filter (λ x, x = Some f) (ofile s')) as Hin.
  { apply list_elem_of_filter. split; [done|]. by eapply list_elem_of_lookup_2. }
  destruct (filter _ _); [by apply not_elem_of_nil in Hin|]. cbn. lia.
Qed.
End calls.

(** A process with descriptor 0 open calls [dup(0)]. *)
#[local] Instance demo_pages : PageOps kst := kalloc_pages 0.
Definition dup_state : sst lst kst :=
  Sst (Flst (small_state (log0 small_fs 1)) [File FD_INODE 1 1 1 0 (Some 0%nat) 0; File FD_NONE 0 0 0 0 None 0]
         ∅ (Kst (λ _, 0) 0 0 false) false)
    (Some 0%nat :: replicate 15 None) (Uspace (λ _, 0) 4096 4000).
Definition dup_after : sst lst kst :=
  Sst (Flst (small_state (log0 small_fs 1)) [File FD_INODE 2 1 1 0 (Some 0%nat) 0; File FD_NONE 0 0 0 0 None 0]
         ∅ (Kst (λ _, 0) 0 0 false) false)
    (Some 0%nat :: Some 0%nat :: replicate 14 None) (Uspace (λ _, 0) 4096 4000).

Lemma file_refcounts_witness :
  rtc (fstep no_dev [] []) dup_state dup_after ∧ refs (λ _, 0) dup_after.
Proof.
  assert (rtc (fstep no_dev [] []) dup_state dup_after) as Hs.
  { apply rtc_once. by apply (F_call _ _ _ C_dup 1). }
  split; [exact Hs|].
  refine (proj1 (file_refcounts no_dev [] [] (λ _, 0) dup_state dup_after _ _ Hs)); [|done].
  split; [|set_solver| |done].
  - intros [|[|i]] r; [by intros [= <-]|by intros [= <-]|done].
  - done.
Defined.
