(* ===== verification/FileThms.v ===== *)
(** * Transactions of [filewrite]

    [filewrite] splits a write into chunks of [filewrite_max] bytes, each in a
    transaction of its own. *)

From S2P Require Import Prelude Params Sleeplock Blocks Bio Log LogThms Fs BlockLaws FsBlocks FsFile FsWrite FsThms File.

(** A chunk touches at most four blocks, being aligned or not. *)
Lemma chunk_blocks off n : 0 ≤ off → n ≤ filewrite_max → (nblocks_of off n ≤ 4)%nat.
Proof.
  intros Hoff Hn. unfold nblocks_of, filewrite_max, MAXOPBLOCKS, BSIZE in *. cbn in Hn.
  destruct (Z.leb_spec n 0); [lia|]. zdm.
Qed.

(** A chunk of [filewrite] fits in the [MAXOPBLOCKS] blocks that
    [begin_op] reserves, wherever it starts: with eight free blocks on the
    disk, [writei] of up to [filewrite_max] bytes in a fresh transaction
    succeeds and logs at most seven blocks. *)
Theorem filewrite_chunk_fits {B : Type} `{!BlockOps B, !BlockLaws B} (devsw : Z → devops (B := B))
    (g : bgeo) (base : view) (ds : Z) (s0 s : fss B) i ip v src off :
  layout g (f_sb s0) ds → g_size g ≤ BPB → g_nlog g = LOGSIZE → icache s0 !! i = Some ip →
  file_ok g (f_sb s0) ds v ip → meta_ok g (f_sb s0) ds v → ino_ok g (f_sb s0) ds v ip →
  i_type ip ≠ T_DEV → at_fs g base s0 s v [] ∅ →
  0 ≤ off ≤ i_size ip → Z.of_nat (length src) ≤ filewrite_max →
  off + Z.of_nat (length src) ≤ MAXFILE * BSIZE → (8 ≤ nfree g (f_sb s0) v)%nat →
  wp (writei devsw i src off (Z.of_nat (length src))) (λ r s',
    r = Z.of_nat (length src) ∧ ∃ v' ip' lg', at_fs g base (put_inode i ip' s0) s' v' lg' ∅ ∧
    Z.of_nat (length lg') ≤ 7 ∧ 7 ≤ MAXOPBLOCKS) s.
Proof.
  intros Hla Hone Hlog Hip Hf Hm Hi Ht Ha Hoff Hsrc Hmax Hfree.
  pose proof (chunk_blocks off (Z.of_nat (length src)) ltac:(lia) Hsrc) as Hnb.
  eapply (writei_wp devsw g base ds i s0 Hla Hone ip v [] Hip Hf Ht); try done; cbn [length].
  - unfold NBUF, MAXOPBLOCKS. lia.
  - rewrite Hlog. unfold LOGSIZE, MAXOPBLOCKS. lia.
  - lia.
  - intros v' ip' lg' s' W. split; [done|]. exists v', ip', lg'. split; [apply W|].
    pose proof (fw_log _ _ _ _ _ _ _ _ _ _ _ _ _ _ W) as Hl. cbn [length] in Hl.
    split; [lia|by unfold MAXOPBLOCKS].
Qed.

Lemma filewrite_chunk_fits_witness :
  ∃ b v base, wp (writei no_dev 0 hello 0 5) (λ r s',
    r = 5 ∧ ∃ v' ip' lg', at_fs small_geo base (put_inode 0 ip' (small_state b)) s' v' lg' ∅ ∧
    Z.of_nat (length lg') ≤ 7 ∧ 7 ≤ MAXOPBLOCKS) (small_state b) ∧ v 34 = small_map.
Proof.
  destruct small_rel as (b&v&base&Hr&Hv). exists b, v, base. split; [|exact (small_v34 v Hv)].
  exact (filewrite_chunk_fits no_dev small_geo base 35 (small_state b) (small_state b) 0 (empty_file 1) v hello 0
    (small_layout b) ltac:(done) eq_refl eq_refl (small_file v 1) (small_meta v Hv) (small_ino v Hv 1 ltac:(lia))
    ltac:(done) (small_at b v base Hr) ltac:(cbn; lia) ltac:(done) ltac:(done)
    ltac:(change (f_sb (small_state b)) with small_sb; rewrite (small_nfree v Hv); apply Nat.leb_le; reflexivity)).
Defined.
