(* ===== verification/Trap.v ===== *)
(** * System calls of processes, dispatch and traps: [sysproc.c], the second
    half of [syscall.c], and [trap.c]

    A call that returns gives [Some] value; [None] is a call in which the
    process gave up the cpu (it went to sleep or exited) and which has not
    returned.  Calls of [sysfile.c] work on another part of the state: they
    are a parameter of the dispatch. *)

From S2P Require Import Prelude Params CString Cprintf Spinlock Rand ProcState Sched Proc ProcCalls Syscall.

Definition SYS_fork := 1.
Definition SYS_exit := 2.
Definition SYS_wait := 3.
Definition SYS_kill := 6.
Definition SYS_getpid := 11.
Definition SYS_sbrk := 12.
Definition SYS_sleep := 13.
Definition SYS_uptime := 14.
Definition SYS_count_num_of_digits := 22.
Definition SYS_set_alarm := 23.
Definition SYS_print_syscalls := 24.
Definition SYS_set_edx := 25.
Definition SYS_read_registers := 26.
Definition SYS_ps := 27.
Definition SYS_set_tickets := 28.
Definition SYS_set_queue := 29.
(** [NELEM(syscalls)]: the last entry is [SYS_set_queue]. *)
Definition NSYSCALLS := 30.

Definition T_SYSCALL := 64.
Definition T_IRQ0 := 32.
Definition IRQ_TIMER := 0.
Definition IRQ_KBD := 1.
Definition IRQ_COM1 := 4.
Definition IRQ_IDE := 14.
Definition IRQ_SPURIOUS := 31.

Section traps.
Context {V F : Type} `{!MemOps V, !FileOps F}.
Abbreviation PM := (M (pst V F)).
(** The memory of the process with page directory [pgdir]; the address of
    [ticks], which is the channel of [sys_sleep]; the register [cr2]. *)
Context (umem : V → Z → mem) (a_ticks rcr2 : Z).

Definition uspace_of (p : proc) : PM uspace :=
  v ← gets vm;
  mret (Uspace (umem v (p_pgdir p)) (p_sz p) (tf_esp (p_tf p))).
Definition arg_int (c : nat) (n : Z) : PM (option Z) :=
  i ← curproc c;
  p ← proc_get i;
  u ← uspace_of p;
  mret (argint u n).
(** A call with one integer argument. *)
Definition with_int (c : nat) (k : Z → PM (option Z)) : PM (option Z) :=
  o ← arg_int c 0;
  match o with
  | None => mret (Some (-1))
  | Some n => k n
  end.
Definition returns (m : PM Z) : PM (option Z) := r ← m; mret (Some r).

Definition sys_fork (c : nat) : PM (option Z) := returns (fork c).
Definition sys_exit (c : nat) : PM (option Z) := exit c;; mret None.
Definition sys_wait (c : nat) : PM (option Z) := wait c.
Definition sys_kill (c : nat) : PM (option Z) := with_int c (λ pid, returns (kill pid)).
Definition sys_getpid (c : nat) : PM (option Z) :=
  i ← curproc c;
  p ← proc_get i;
  mret (Some (p_pid p)).
Definition sys_sbrk (c : nat) : PM (option Z) :=
  with_int c (λ n,
    i ← curproc c;
    p ← proc_get i;
    r ← growproc c n;
    mret (Some (if r <? 0 then -1 else s32 (p_sz p)))).

(** The loop of [sys_sleep], entered with [tickslock] held: [None] when the
    process went to sleep and will run another iteration.  The comparison of
    [ticks - ticks0] with [n] is unsigned. *)
Definition sleep_iter (c : nat) (ticks0 n : Z) : PM (option Z) :=
  t ← gets ticks;
  if t -u ticks0 <? u32 n then
    i ← curproc c;
    p ← proc_get i;
    if negb (p_killed p =? 0) then
      release_lk L_tickslock;;
      mret (Some (-1))
    else
      sleep c (ChAddr a_ticks) (Some L_tickslock);;
      mret None
  else
    release_lk L_tickslock;;
    mret (Some 0).
Definition sys_sleep (c : nat) : PM (option Z) :=
  with_int c (λ n,
    acquire_lk L_tickslock;;
    ticks0 ← gets ticks;
    sleep_iter c ticks0 n).

Definition sys_uptime (c : nat) : PM (option Z) :=
  acquire_lk L_tickslock;;
  xticks ← gets ticks;
  release_lk L_tickslock;;
  mret (Some (s32 xticks)).
Definition sys_count_num_of_digits (c : nat) : PM (option Z) := returns (count_num_of_digits c).
Definition sys_set_alarm (c : nat) : PM (option Z) := with_int c (λ n, set_alarm c n;; mret (Some 0)).
Definition sys_print_syscalls (c : nat) : PM (option Z) := returns print_syscalls.
Definition sys_set_edx (c : nat) : PM (option Z) := with_int c (λ value, returns (set_edx c value)).
Definition sys_read_registers (c : nat) : PM (option Z) := returns (read_registers c).
Definition sys_ps (c : nat) : PM (option Z) := returns ps.
Definition sys_set_tickets (c : nat) : PM (option Z) := with_int c (λ value, returns (set_tickets c value)).
Definition sys_set_queue (c : nat) : PM (option Z) := with_int c (λ value, returns (set_queue c value)).

(** ** Dispatch *)

Section dispatch.
(** The calls of [sysfile.c]. *)
Context (file_call : Z → nat → PM (option Z)).

Definition syscalls (num : Z) : nat → PM (option Z) :=
  if num =? SYS_fork then sys_fork
  else if num =? SYS_exit then sys_exit
  else if num =? SYS_wait then sys_wait
  else if num =? SYS_kill then sys_kill
  else if num =? SYS_getpid then sys_getpid
  else if num =? SYS_sbrk then sys_sbrk
  else if num =? SYS_sleep then sys_sleep
  else if num =? SYS_uptime then sys_uptime
  else if num =? SYS_count_num_of_digits then sys_count_num_of_digits
  else if num =? SYS_set_alarm then sys_set_alarm
  else if num =? SYS_print_syscalls then sys_print_syscalls
  else if num =? SYS_set_edx then sys_set_edx
  else if num =? SYS_read_registers then sys_read_registers
  else if num =? SYS_ps then sys_ps
  else if num =? SYS_set_tickets then sys_set_tickets
  else if num =? SYS_set_queue then sys_set_queue
  else file_call num.

(** The first unused pair of the log, or [NLOGPAIR]. *)
Fixpoint log_slot (l : list (Z * Z)) (n : nat) : nat :=
  match n, l with
  | O, _ | _, [] => 0
  | S k, (callno, _) :: l' => if callno =? 0 then 0 else S (log_slot l' k)
  end.

Definition set_eax (i : nat) (r : Z) : PM unit :=
  proc_upd i (λ p, set_tf (set_tf_eax (u32 r) (p_tf p)) p).
(** After the call has returned [r]. *)
Definition syscall_return (i : nat) (npair : nat) (num r : Z) : PM unit :=
  set_eax i r;;
  when (Z.of_nat npair <? NLOGPAIR)
    (proc_upd i (λ p, set_sysclog (<[npair := (num, s32 r)]> (p_sysclog p)) p)).
(** How a call ends: it has returned, or process [i] gave up the cpu inside
    call [num], whose result will go to slot [npair] of the log. *)
Inductive call_end := CallReturns | CallBlocks (i npair : nat) (num : Z).
Definition syscall (c : nat) : PM call_end :=
  i ← curproc c;
  p ← proc_get i;
  let npair := log_slot (p_sysclog p) (Z.to_nat NLOGPAIR) in
  let num := s32 (tf_eax (p_tf p)) in
  if (0 <? num) && (num <? NSYSCALLS) then
    o ← syscalls num c;
    match o with
    | Some r => syscall_return i npair num r;; mret CallReturns
    | None => mret (CallBlocks i npair num)
    end
  else
    print "%d %s: unknown sys call %d\n" [AInt (p_pid p); name_arg (p_name p); AInt num];;
    set_eax i (-1);;
    mret CallReturns.

(** ** Traps *)

(** The interrupt handlers of the disk, the keyboard and the serial line. *)
Context (ideintr kbdintr uartintr : PM unit).

(** [if(myproc() && myproc()->killed && (tf->cs&3) == DPL_USER) exit();],
    [true] if the process is gone. *)
Definition exit_if_killed (c : nat) (tf : trapframe) : PM bool :=
  o ← myproc c;
  match o with
  | None => mret false
  | Some i =>
      p ← proc_get i;
      if negb (p_killed p =? 0) && (Z.land (tf_cs tf) 3 =? DPL_USER) then exit c;; mret true
      else mret false
  end.

Definition trap_timer (c : nat) : PM unit :=
  when (c =? 0)%nat (
    acquire_lk L_tickslock;;
    modify (on_ticks (λ t, t +u 1));;
    wakeup (ChAddr a_ticks);;
    release_lk L_tickslock).

Definition unexpected_trap (c : nat) (tf : trapframe) : PM unit :=
  print "unexpected trap %d from cpu %d eip %x (cr2=0x%x)\n"
    [AInt (s32 (tf_trapno tf)); AInt (Z.of_nat c); AInt (s32 (tf_eip tf)); AInt (s32 rcr2)];;
  panic "trap".
(** The [switch].  [lapiceoi] acknowledges an interrupt to the local APIC (see
    [Apic]) and changes no state of the processes. *)
Definition trap_switch (c : nat) (tf : trapframe) : PM unit :=
  let n := tf_trapno tf in
  if n =? T_IRQ0 + IRQ_TIMER then trap_timer c
  else if n =? T_IRQ0 + IRQ_IDE then ideintr
  else if n =? T_IRQ0 + IRQ_IDE + 1 then mret tt
  else if n =? T_IRQ0 + IRQ_KBD then kbdintr
  else if n =? T_IRQ0 + IRQ_COM1 then uartintr
  else if (n =? T_IRQ0 + 7) || (n =? T_IRQ0 + IRQ_SPURIOUS) then
    print "cpu%d: spurious interrupt at %x:%x\n"
      [AInt (Z.of_nat c); AInt (s32 (tf_cs tf)); AInt (s32 (tf_eip tf))]
  else
    o ← myproc c;
    match o with
    | None => unexpected_trap c tf
    | Some i =>
        if Z.land (tf_cs tf) 3 =? 0 then unexpected_trap c tf
        else
          p ← proc_get i;
          print "pid %d %s: trap %d err %d on cpu %d eip 0x%x addr 0x%x--kill proc\n"
            [AInt (p_pid p); name_arg (p_name p); AInt (s32 n); AInt (s32 (tf_err tf));
             AInt (Z.of_nat c); AInt (s32 (tf_eip tf)); AInt (s32 rcr2)];;
          proc_upd i (set_killed 1)
    end.

(** How a trap ends: it returns to the interrupted code; the process exited;
    it gave up the cpu in [yield], and [trap_resume] is the rest of the trap;
    or it gave up the cpu inside a system call, and [trap_syscall_resume] is
    the rest of the trap once the call returns. *)
Inductive trap_end := T_return | T_exit | T_yield | T_call (i npair : nat) (num : Z).

(** [if(myproc()->killed) exit(); return;], after [syscall]. *)
Definition trap_syscall_end (c : nat) : PM trap_end :=
  i ← curproc c;
  p ← proc_get i;
  if negb (p_killed p =? 0) then exit c;; mret T_exit else mret T_return.
(** The last check of [trap]. *)
Definition trap_resume (c : nat) (tf : trapframe) : PM trap_end :=
  gone ← exit_if_killed c tf;
  mret (if gone : bool then T_exit else T_return).
Definition trap (c : nat) (tf : trapframe) : PM trap_end :=
  if tf_trapno tf =? T_SYSCALL then
    i ← curproc c;
    p ← proc_get i;
    if negb (p_killed p =? 0) then exit c;; mret T_exit
    else
      proc_upd i (set_tf tf);;
      r ← syscall c;
      match r with
      | CallReturns => trap_syscall_end c
      | CallBlocks i npair num => mret (T_call i npair num)
      end
  else
    trap_switch c tf;;
    gone ← exit_if_killed c tf;
    if gone : bool then mret T_exit
    else
      o ← myproc c;
      match o with
      | None => trap_resume c tf
      | Some i =>
          p ← proc_get i;
          if bool_decide (p_state p = RUNNING) && (tf_trapno tf =? T_IRQ0 + IRQ_TIMER) then
            yield c;; mret T_yield
          else trap_resume c tf
      end.
(** The end of the trap of process [i], running again on cpu [c], when the
    call in which it had given up the cpu returns [r]. *)
Definition trap_syscall_resume (c i npair : nat) (num r : Z) : PM trap_end :=
  syscall_return i npair num r;;
  trap_syscall_end c.

End dispatch.
End traps.
