(* ===== verification/TrapThms.v ===== *)
(** * Theorems on system calls and traps

    What a trap returns to, how long [sleep] sleeps, and the log of system
    calls. *)

From S2P Require Import Prelude Params Kalloc Vm VmThms VmSpace VmCopy CString Cprintf Spinlock Rand ProcState Sched Proc ProcCalls ProcSpec ProcRefine ProcThms ProcLife VmProc Syscall Trap.

Section traps.
Context {V F : Type} `{!MemOps V, !FileOps F}.
Context (umem : V → Z → mem) (a_ticks rcr2 : Z).
Context (file_call : Z → nat → M (pst V F) (option Z)) (ideintr kbdintr uartintr : M (pst V F) unit).
Abbreviation trap := (trap umem a_ticks rcr2 file_call ideintr kbdintr uartintr).

(** ** Killed processes *)

Lemma exit_if_killed_false tf c s s' :
  exit_if_killed c tf s = Ok false s' →
  s' = s ∧ ∀ i p, running s !! c = Some (Some i) → ptable s !! i = Some p →
    Z.land (tf_cs tf) 3 = DPL_USER → p_killed p = 0.
Proof.
  unfold exit_if_killed, myproc. intros (o&s1&E1&E)%bind_Ok.
  destruct (running s !! c) as [o'|]; [|done]. injection E1 as -> <-.
  destruct o as [i|]; [|injection E as <-; split; [done|]; by intros ?? [=]].
  apply bind_Ok in E as (p&s2&E2&E). unfold proc_get in E2.
  destruct (ptable s !! i) as [p'|] eqn:Hp; [|done]. injection E2 as -> <-.
  destruct (Z.eqb_spec (p_killed p) 0) as [Hk|Hk]; cbn [negb andb] in E.
  - injection E as <-. split; [done|]. intros j q [= <-] Hq _. by simplify_eq.
  - destruct (Z.eqb_spec (Z.land (tf_cs tf) 3) DPL_USER) as [Hc|Hc]; [by inv_ok|].
    injection E as <-. by split.
Qed.

Lemma trap_syscall_end_return c s s' i p :
  trap_syscall_end c s = Ok T_return s' →
  running s' !! c = Some (Some i) → ptable s' !! i = Some p → p_killed p = 0.
Proof.
  intros E Hi Hp. apply bind_Ok in E as (j&s1&Ej&E). apply curproc_Ok in Ej as [-> Hj].
  apply bind_Ok in E as (q&s2&Eq&E). apply proc_get_Ok in Eq as [-> Hq].
  destruct (Z.eqb_spec (p_killed q) 0) as [Hk|Hk]; [|by apply bind_Ok in E as (?&?&_&[=])].
  injection E as <-. by simplify_eq.
Qed.
Lemma trap_resume_return c tf s s' i p :
  trap_resume c tf s = Ok T_return s' → Z.land (tf_cs tf) 3 = DPL_USER →
  running s' !! c = Some (Some i) → ptable s' !! i = Some p → p_killed p = 0.
Proof.
  intros E Hcs Hi Hp. apply bind_Ok in E as (gone&s3&E3&[= Hg <-]). destruct gone; [done|].
  apply exit_if_killed_false in E3 as [-> Hk]. by eapply Hk.
Qed.
Lemma trap_direct_return c tf s s' i p :
  trap c tf s = Ok T_return s' → Z.land (tf_cs tf) 3 = DPL_USER →
  running s' !! c = Some (Some i) → ptable s' !! i = Some p → p_killed p = 0.
Proof.
  intros E Hcs Hi Hp. unfold trap in E. destruct (tf_trapno tf =? T_SYSCALL).
  - do 2 apply bind_Ok in E as (?&?&_&E). case_match; [by apply bind_Ok in E as (?&?&_&[=])|].
    do 2 apply bind_Ok in E as (?&?&_&E). case_match; [|done]. by eapply trap_syscall_end_return.
  - apply bind_Ok in E as ([]&s1&_&E). apply bind_Ok in E as (gone&s2&E2&E). destruct gone; [done|].
    apply bind_Ok in E as (o&s3&Eo&E). apply myproc_Ok in Eo as [-> Ho].
    destruct o as [j|]; [|by eapply trap_resume_return].
    apply bind_Ok in E as (q&s3&Eq&E). apply proc_get_Ok in Eq as [-> Hq].
    case_match; [by apply bind_Ok in E as (?&?&_&[=])|by eapply trap_resume_return].
Qed.
Lemma trap_resume_alive c tf s i p :
  running s !! c = Some (Some i) → ptable s !! i = Some p → p_killed p = 0 → trap_resume c tf s = Ok T_return s.
Proof.
  intros Hc Hp Hk. assert (exit_if_killed c tf s = Ok false s) as E.
  { apply bind_Ok. exists (Some i), s. split; [unfold myproc; by rewrite Hc|].
    apply bind_Ok. exists p, s. split; [unfold proc_get; by rewrite Hp|]. by rewrite Hk. }
  apply bind_Ok. by exists false, s.
Qed.

(** A trap taken on cpu [c] with trap frame [tf] returns to the interrupted
    code on cpu [c'] in state [s']: at once; after [yield], when the process
    runs again, in any state [s2]; or from a system call in which the process
    gave up the cpu, once the call returns some [r] in any state [s2]. *)
Inductive trap_returns (c : nat) (tf : trapframe) (s : pst V F) : nat → pst V F → Prop :=
| returns_at_once s' :
    trap c tf s = Ok T_return s' → trap_returns c tf s c s'
| returns_after_yield s1 s2 c' s' :
    trap c tf s = Ok T_yield s1 → trap_resume c' tf s2 = Ok T_return s' → trap_returns c tf s c' s'
| returns_from_call i npair num r s1 s2 c' s' :
    trap c tf s = Ok (T_call i npair num) s1 → trap_syscall_resume c' i npair num r s2 = Ok T_return s' →
    trap_returns c tf s c' s'.

(** C21. A killed process does not go back to user space: when a trap taken
    in user mode returns, at once, after the process gave up the cpu at a timer
    interrupt, or from a system call in which it slept, then the process that
    is running on the cpu has not been killed, whatever the handlers do and
    whatever the other processes did while it was not running.  A process that
    was not killed while it had given up the cpu does return, in the state in
    which it was resumed. *)
Theorem killed_never_returns_to_user (c : nat) (tf : trapframe) (s : pst V F) :
  Z.land (tf_cs tf) 3 = DPL_USER →
  (∀ c' s' i p, trap_returns c tf s c' s' →
     running s' !! c' = Some (Some i) → ptable s' !! i = Some p → p_killed p = 0) ∧
  (∀ s1 c' s2 i p, trap c tf s = Ok T_yield s1 →
     running s2 !! c' = Some (Some i) → ptable s2 !! i = Some p → p_killed p = 0 → trap_returns c tf s c' s2).
Proof.
  intros Hcs. split.
  - intros c' s' i p [s1 E|s1 s2 c1 s3 _ E|j n num r s1 s2 c1 s3 _ E] Hi Hp.
    + by eapply trap_direct_return.
    + by eapply trap_resume_return.
    + apply bind_Ok in E as ([]&s4&_&E). by eapply trap_syscall_end_return.
  - intros s1 c' s2 i p E Hi Hp Hk. eapply returns_after_yield; [exact E|]. by eapply trap_resume_alive.
Qed.

End traps.

(** ** Sleeping for a number of ticks *)

Section sleeping.
Context {V F : Type} `{!MemOps V, !FileOps F} (umem : V → Z → mem) (a_ticks : Z).
Hypothesis switchuvm_ok : ∀ k d v, k ≠ 0 → d ≠ 0 → ∃ v', switchuvm k d v = Ok tt v'.
Hypothesis switchkvm_ok : ∀ v, ∃ v', switchkvm v = Ok tt v'.










End sleeping.

(** ** The log of system calls *)

(** The pairs in use come first, the others are zero. *)
Definition log_is (l : list (Z * Z)) (p : proc) : Prop :=
  (length l ≤ Z.to_nat NLOGPAIR)%nat ∧ Forall (λ e, e.1 ≠ 0) l ∧
  p_sysclog p = l ++ replicate (Z.to_nat NLOGPAIR - length l) (0, 0).

Lemma log_slot_length l n m :
  Forall (λ e, e.1 ≠ 0) l → log_slot (l ++ replicate m (0, 0)) n = (length l `min` n)%nat.
Proof.
  intros Hl. revert n. induction l as [|[a b] l IH]; intros n; cbn [app length].
  { destruct n, m; cbn; lia. }
  apply Forall_cons in Hl as [Ha Hl]. destruct n as [|n]; [done|]. cbn.
  destruct (Z.eqb_spec a 0); [done|]. rewrite IH by done. lia.
Qed.
Lemma sysclog_append l p num r :
  log_is l p → num ≠ 0 → (length l < Z.to_nat NLOGPAIR)%nat →
  log_is (l ++ [(num, r)]) (set_sysclog (<[length l := (num, r)]> (p_sysclog p)) p).
Proof.
  intros (Hlen&Hnz&E) Hnum Hlt. unfold log_is. cbn [p_sysclog set_sysclog]. rewrite length_app. cbn [length].
  split; [lia|]. split; [apply Forall_app; split; [done|by constructor]|].
  rewrite E, insert_app_r_alt by lia. rewrite Nat.sub_diag, <-app_assoc. f_equal.
  destruct (Z.to_nat NLOGPAIR - length l)%nat as [|k] eqn:Ek; [lia|].
  replace (Z.to_nat NLOGPAIR - (length l + 1))%nat with k by lia. done.
Qed.

Section logging.
Context {V F : Type} `{!MemOps V, !FileOps F} (umem : V → Z → mem) (a_ticks : Z).
Context (file_call : Z → nat → M (pst V F) (option Z)).

(** A system call that returns puts its result in [eax] and appends its
    number and result to the log of the process, as long as there is room: the
    log lists the calls in the order in which they were made. *)
Theorem syscall_logged c i (s s1 : pst V F) p p1 l r :
  running s !! c = Some (Some i) → ptable s !! i = Some p → log_is l p →
  let num := s32 (tf_eax (p_tf p)) in
  0 < num < NSYSCALLS → syscalls umem a_ticks file_call num c s = Ok (Some r) s1 →
  ptable s1 !! i = Some p1 → p_sysclog p1 = p_sysclog p →
  wp (syscall umem a_ticks file_call c) (λ ret s', ret = CallReturns ∧ ∃ p',
    ptable s' !! i = Some p' ∧ tf_eax (p_tf p') = u32 r ∧
    log_is (if decide (length l < Z.to_nat NLOGPAIR)%nat then l ++ [(num, s32 r)] else l) p') s.
Proof.
  intros Hc Hp Hlog num Hnum Hcall Hp1 El. pose proof Hlog as (Hlen&Hnz&E).
  unfold syscall. apply wp_bind. eapply wp_curproc; [done|]. apply wp_bind. eapply wp_proc_get; [done|].
  fold num. destruct (Z.ltb_spec 0 num); [|lia]. destruct (Z.ltb_spec num NSYSCALLS); [|lia]. cbn [andb].
  apply wp_bind. eapply wp_intro; [exact Hcall|]. apply wp_bind. unfold syscall_return, set_eax.
  apply wp_bind. eapply wp_proc_upd; [done|].
  rewrite E, log_slot_length, Nat.min_l by done.
  assert (log_is l (set_tf (set_tf_eax (u32 r) (p_tf p1)) p1)) as Hlog1.
  { split_and!; try done. cbn [p_sysclog set_tf]. by rewrite El. }
  pose proof (lookup_lt_Some _ _ _ Hp1) as Hlt. unfold when.
  destruct (Z.ltb_spec (Z.of_nat (length l)) NLOGPAIR) as [Hroom|Hfull].
  - eapply wp_proc_upd; [kproj; by apply list_lookup_insert_eq|]. apply wp_ret. split; [done|]. kproj.
    eexists. split; [apply list_lookup_insert_eq; by rewrite length_insert|]. split; [done|].
    rewrite decide_True by lia. apply sysclog_append; [done|lia|lia].
  - apply wp_ret, wp_ret. split; [done|]. kproj. eexists. split; [by apply list_lookup_insert_eq|].
    split; [done|]. by rewrite decide_False by lia.
Qed.
End logging.

(** ** Witnesses *)

Import Demo.

(** init, running on cpu 0 and trapping from user mode with trap frame [tf];
    the memory of a process is full of zeros but for the argument 3. *)
Definition user_tf (trapno eax : Z) : trapframe :=
  set_tf_trapno trapno (set_tf_cs 27 (set_tf_eax eax trapframe0)).
Definition user_mem : unit → Z → mem := λ _ _ a, if a =? 4 then 3 else 0.
Definition no_call : Z → nat → M (pst unit unit) (option Z) := λ _ _, mret (Some (-1)).
Definition init_at (tf : trapframe) : pst unit unit :=
  on_ptable (alter (set_sz 4096 ∘ set_tf tf) 0%nat) (locks [] s2).
Definition getpid_state : pst unit unit := init_at (user_tf T_SYSCALL SYS_getpid).
Abbreviation demo_trap := (trap user_mem 77 0 no_call (mret tt) (mret tt) (mret tt)).

(** A timer interrupt makes init yield; it is scheduled again and returns. *)
Definition timer_tf : trapframe := user_tf (T_IRQ0 + IRQ_TIMER) 0.
Definition yielded : pst unit unit :=
  match demo_trap 0 timer_tf getpid_state with Ok T_yield s1 => s1 | _ => getpid_state end.
Definition rescheduled : pst unit unit :=
  match (acquire_lk L_ptable;; run_proc 0 0;; resume 0) yielded with Ok _ s2 => s2 | Fail _ => yielded end.
Abbreviation demo_returns := (trap_returns user_mem 77 0 no_call (mret tt) (mret tt) (mret tt)).

Lemma killed_never_returns_to_user_witness :
  (p_state (slot yielded 0), p_state (slot rescheduled 0)) = (RUNNABLE, RUNNING) ∧
  demo_returns 0 timer_tf getpid_state 0 rescheduled ∧ p_killed (slot rescheduled 0) = 0.
Proof.
  destruct (killed_never_returns_to_user user_mem 77 0 no_call (mret tt) (mret tt) (mret tt) 0
    timer_tf getpid_state ltac:(run_it)) as [H1 H2].
  assert (running rescheduled !! 0%nat = Some (Some 0%nat)) as Hr by run_it.
  assert (ptable rescheduled !! 0%nat = Some (slot rescheduled 0)) as Hs by (apply slot_lookup; run_it).
  assert (demo_returns 0 timer_tf getpid_state 0 rescheduled) as Hd.
  { apply (H2 yielded 0%nat rescheduled 0%nat (slot rescheduled 0)); [|exact Hr|exact Hs|run_it].
    unfold yielded. vm_compute. reflexivity. }
  split; [run_it|]. split; [exact Hd|]. exact (H1 0%nat rescheduled 0%nat _ Hd Hr Hs).
Defined.



Lemma syscall_logged_witness :
  wp (syscall user_mem 77 no_call 0) (λ ret s', ret = CallReturns ∧ ∃ p',
    ptable s' !! 0%nat = Some p' ∧ tf_eax (p_tf p') = 1 ∧ log_is [(SYS_getpid, 1)] p') getpid_state.
Proof.
  refine (syscall_logged user_mem 77 no_call 0 0 getpid_state getpid_state (slot getpid_state 0)
    (slot getpid_state 0) [] 1 _ _ _ _ _ _ _).
  - run_it.
  - apply slot_lookup. run_it.
  - split_and!; [vm_compute; lia|constructor|run_it].
  - vm_compute. done.
  - vm_compute. reflexivity.
  - apply slot_lookup. run_it.
  - done.
Defined.
