(* ===== verification/Kbd.v ===== *)
(** * The keyboard: [kbd.c] and [kbd.h]

    [kbdgetc] turns scan codes into characters.  A call reads the status
    port and, if it says so, one scan code; what the ports hold is an argument
    of the model.  The second half describes the keyboard as its user sees it,
    the caps of the keys and what the modifier keys do, and shows that
    [kbdgetc] decodes every sequence of keys pressed and released to that. *)

From S2P Require Import Prelude CString Cprintf.

Definition KBS_DIB : Z := 1.
Definition SHIFT : Z := 1.
Definition CTL : Z := 2.
Definition ALT : Z := 4.
Definition CAPSLOCK : Z := 8.
Definition NUMLOCK : Z := 16.
Definition SCROLLLOCK : Z := 32.
Definition E0ESC : Z := 64.

Definition KEY_HOME := 224.
Definition KEY_END := 225.
Definition KEY_UP := 226.
Definition KEY_DN := 227.
Definition KEY_LF := 228.
Definition KEY_RT := 229.
Definition KEY_PGUP := 230.
Definition KEY_PGDN := 231.
Definition KEY_INS := 232.
Definition KEY_DEL := 233.

(** [C('A')] is Control-A. *)
Definition C (x : Z) : Z := x - 64.

(** [static uchar t[256]] with its first elements and those that are given by
    index; the others are zero.  Indexing past the end has no value. *)
Definition table (l : list Z) (given : list (nat * Z)) : list Z :=
  foldl (λ t e, <[e.1 := e.2]> t) (l ++ replicate (256 - length l) 0) given.
Definition idx {A} (t : list A) (k : Z) : option A := if k <? 0 then None else t !! Z.to_nat k.

Definition shiftcode : list Z :=
  table [] [(29%nat, CTL); (42%nat, SHIFT); (54%nat, SHIFT); (56%nat, ALT); (157%nat, CTL); (184%nat, ALT)].
Definition togglecode : list Z := table [] [(58%nat, CAPSLOCK); (69%nat, NUMLOCK); (70%nat, SCROLLLOCK)].

(** The elements given by index, the same in the three maps but for the first
    two, the keys Enter and / of the keypad. *)
Definition keypad (enter div : Z) : list (nat * Z) :=
  [(156%nat, enter); (181%nat, div); (200%nat, KEY_UP); (208%nat, KEY_DN); (201%nat, KEY_PGUP); (209%nat, KEY_PGDN);
   (203%nat, KEY_LF); (205%nat, KEY_RT); (151%nat, KEY_HOME); (207%nat, KEY_END); (210%nat, KEY_INS); (211%nat, KEY_DEL)].

Definition normalmap : list Z := table
  [0; 27; 49; 50; 51; 52; 53; 54;
   55; 56; 57; 48; 45; 61; 8; 9;
   113; 119; 101; 114; 116; 121; 117; 105;
   111; 112; 91; 93; 10; 0; 97; 115;
   100; 102; 103; 104; 106; 107; 108; 59;
   39; 96; 0; 92; 122; 120; 99; 118;
   98; 110; 109; 44; 46; 47; 0; 42;
   0; 32; 0; 0; 0; 0; 0; 0;
   0; 0; 0; 0; 0; 0; 0; 55;
   56; 57; 45; 52; 53; 54; 43; 49;
   50; 51; 48; 46; 0; 0; 0; 0] (keypad 10 47).
Definition shiftmap : list Z := table
  [0; 27; 33; 64; 35; 36; 37; 94;
   38; 42; 40; 41; 95; 43; 8; 9;
   81; 87; 69; 82; 84; 89; 85; 73;
   79; 80; 123; 125; 10; 0; 65; 83;
   68; 70; 71; 72; 74; 75; 76; 58;
   34; 126; 0; 124; 90; 88; 67; 86;
   66; 78; 77; 60; 62; 63; 0; 42;
   0; 32; 0; 0; 0; 0; 0; 0;
   0; 0; 0; 0; 0; 0; 0; 55;
   56; 57; 45; 52; 53; 54; 43; 49;
   50; 51; 48; 46; 0; 0; 0; 0] (keypad 10 47).
Definition ctlmap : list Z := table
  [0; 0; 0; 0; 0; 0; 0; 0;
   0; 0; 0; 0; 0; 0; 0; 0;
   C 81; C 87; C 69; C 82; C 84; C 89; C 85; C 73;
   C 79; C 80; 0; 0; 13; 0; C 65; C 83;
   C 68; C 70; C 71; C 72; C 74; C 75; C 76; 0;
   0; 0; 0; C 92; C 90; C 88; C 67; C 86;
   C 66; C 78; C 77; 0; 0; u8 (C 47); 0; 0] (keypad 13 (u8 (C 47))).
Definition charcode : list (list Z) := [normalmap; shiftmap; ctlmap; ctlmap].

(** The static [shift] after the call and the result, or [None] if an index is
    out of bounds; [st] and [data] are what the two ports hold. *)
Definition kbdgetc (shift st data : Z) : option (Z * Z) :=
  if Z.land st KBS_DIB =? 0 then Some (shift, -1)
  else if data =? 224 then Some (Z.lor shift E0ESC, 0)
  else if negb (Z.land data 128 =? 0) then
    let data := if negb (Z.land shift E0ESC =? 0) then data else Z.land data 127 in
    code ← idx shiftcode data;
    Some (Z.land shift (u32 (Z.lnot (Z.lor code E0ESC))), 0)
  else
    let '(shift, data) :=
      if negb (Z.land shift E0ESC =? 0)
      then (Z.land shift (u32 (Z.lnot E0ESC)), Z.lor data 128) else (shift, data) in
    code ← idx shiftcode data;
    let shift := Z.lor shift code in
    toggle ← idx togglecode data;
    let shift := Z.lxor shift toggle in
    map ← idx charcode (Z.land shift (Z.lor CTL SHIFT));
    c ← idx map data;
    let c :=
      if negb (Z.land shift CAPSLOCK =? 0) then
        if (97 <=? c) && (c <=? 122) then c - 32
        else if (65 <=? c) && (c <=? 90) then c + 32 else c
      else c in
    Some (shift, c).

(** Calls of [kbdgetc] for the scan codes [l], one after the other: the last
    [shift] and the results. *)
Fixpoint kbd_run (shift : Z) (l : list Z) : option (Z * list Z) :=
  match l with
  | [] => Some (shift, [])
  | data :: l' =>
      '(shift1, c) ← kbdgetc shift 1 data;
      '(shift2, out) ← kbd_run shift1 l';
      Some (shift2, c :: out)
  end.

(** ** The keyboard *)

(** What is on a key: a character for the key alone and one with shift; a key
    that has the same code with all modifiers; a modifier; or nothing. *)
Inductive keycap := Typing (lo hi : Z) | Nav (code : Z) | KShift | KCtl | KAlt | KCaps | KNum | KScroll | NoKey.

(** Keys in a row from scan code [k] on. *)
Fixpoint key_row (k : Z) (lo hi : list Z) : list (Z * keycap) :=
  match lo, hi with
  | a :: lo', b :: hi' => (k, Typing a b) :: key_row (k + 1) lo' hi'
  | _, _ => []
  end.
(** The US keyboard, by the scan codes of set 1. *)
Definition main_keys : list (Z * keycap) :=
  [(1, Typing 27 27); (14, Typing 8 8); (15, Typing 9 9); (28, Typing 10 10); (57, Typing 32 32);
   (29, KCtl); (42, KShift); (54, KShift); (56, KAlt); (58, KCaps); (69, KNum); (70, KScroll); (55, Typing 42 42)] ++
  key_row 2 (lit "1234567890-=") (lit "!@#$%^&*()_+") ++
  key_row 16 (lit "qwertyuiop[]") (lit "QWERTYUIOP{}") ++
  key_row 30 (lit "asdfghjkl;'`") (lit "ASDFGHJKL:" ++ [34] ++ lit "~") ++
  key_row 43 (92 :: lit "zxcvbnm,./") (lit "|ZXCVBNM<>?") ++
  key_row 71 (lit "789-456+1230.") (lit "789-456+1230.").
(** The keys that send the prefix E0.  The Home key, 71, has no entry in the
    maps; its code is in the place of key 23, which keyboards do not have. *)
Definition e0_keys : list (Z * keycap) :=
  [(28, Typing 10 10); (53, Typing 47 47); (29, KCtl); (56, KAlt); (72, Nav KEY_UP); (80, Nav KEY_DN);
   (73, Nav KEY_PGUP); (81, Nav KEY_PGDN); (75, Nav KEY_LF); (77, Nav KEY_RT); (79, Nav KEY_END);
   (82, Nav KEY_INS); (83, Nav KEY_DEL); (23, Nav KEY_HOME)].
Definition cap (e0 : bool) (k : Z) : keycap :=
  match list_find (λ e, e.1 = k) (if e0 then e0_keys else main_keys) with Some (_, (_, x)) => x | None => NoKey end.

(** The modifiers: keys that are down, and locks. *)
Record mods := Mods { m_shift : bool; m_ctl : bool; m_alt : bool; m_caps : bool; m_num : bool; m_scroll : bool }.
Definition no_mods : mods := Mods false false false false false false.

Definition is_lower (c : Z) : bool := (97 <=? c) && (c <=? 122).
Definition is_upper (c : Z) : bool := (65 <=? c) && (c <=? 90).
Definition swap_case (c : Z) : Z := if is_lower c then c - 32 else if is_upper c then c + 32 else c.
(** The character of a key with control: those of letters and of the backslash
    are their codes less 64, Enter is a carriage return, and 239 is what is left
    of ['/' - '@'] in a byte. *)
Definition control (c : Z) : Z :=
  if is_lower c then c - 96 else if c =? 92 then 28 else if c =? 47 then 239 else if c =? 10 then 13 else 0.
Definition key_char (m : mods) (x : keycap) : Z :=
  match x with
  | Typing lo hi =>
      let c := if m_ctl m then control lo else if m_shift m then hi else lo in
      if m_caps m then swap_case c else c
  | Nav code => code
  | _ => 0
  end.

(** Key [k], with the prefix or not, goes down or up. *)
Record event := Event { e_e0 : bool; e_key : Z; e_down : bool }.
Definition event_ok (e : event) : Prop := 0 ≤ e_key e < 128 ∧ e_key e ≠ 96.
Definition scan (e : event) : list Z :=
  (if e_e0 e then [224] else []) ++ [if e_down e then e_key e else e_key e + 128].
Definition press (m : mods) (x : keycap) : mods :=
  let '(Mods sh ct al ca nu sc) := m in
  match x with
  | KShift => Mods true ct al ca nu sc
  | KCtl => Mods sh true al ca nu sc
  | KAlt => Mods sh ct true ca nu sc
  | KCaps => Mods sh ct al (negb ca) nu sc
  | KNum => Mods sh ct al ca (negb nu) sc
  | KScroll => Mods sh ct al ca nu (negb sc)
  | _ => m
  end.
Definition release (m : mods) (x : keycap) : mods :=
  let '(Mods sh ct al ca nu sc) := m in
  match x with
  | KShift => Mods false ct al ca nu sc
  | KCtl => Mods sh false al ca nu sc
  | KAlt => Mods sh ct false ca nu sc
  | _ => m
  end.
Definition react (m : mods) (e : event) : mods * Z :=
  let x := cap (e_e0 e) (e_key e) in
  if e_down e then (press m x, key_char m x) else (release m x, 0).
(** The characters of a sequence of events; 0, which is no character, for each
    prefix, modifier and key released. *)
Fixpoint reacts (m : mods) (es : list event) : mods * list Z :=
  match es with
  | [] => (m, [])
  | e :: es' =>
      let '(m1, c) := react m e in
      let '(m2, out) := reacts m1 es' in
      (m2, (if e_e0 e then [0] else []) ++ c :: out)
  end.

(** The bits of [shift] that stand for the modifiers. *)
Definition encode (m : mods) : Z :=
  Z.b2z (m_shift m) * SHIFT + Z.b2z (m_ctl m) * CTL + Z.b2z (m_alt m) * ALT + Z.b2z (m_caps m) * CAPSLOCK +
  Z.b2z (m_num m) * NUMLOCK + Z.b2z (m_scroll m) * SCROLLLOCK.

(** How one types a character: its key alone or with shift held down. *)
Definition key_of (c : Z) : option (Z * bool) :=
  match List.find (λ e, match e.2 with Typing lo hi => (lo =? c) || (hi =? c) | _ => false end) main_keys with
  | Some (k, Typing lo _) => Some (k, negb (lo =? c))
  | _ => None
  end.
Definition strokes (c : Z) : list event :=
  match key_of c with
  | Some (k, sh) =>
      (if sh then [Event false 42 true] else []) ++ [Event false k true; Event false k false] ++
      (if sh then [Event false 42 false] else [])
  | None => []
  end.
Definition typeable (c : Z) : Prop := 32 ≤ c ≤ 126 ∨ 8 ≤ c ≤ 10.

(** ** Finite checks *)

Definition shift_ok (shift : Z) : Prop := 0 ≤ shift < 128.
Definition call_ok (shift data : Z) : bool :=
  match kbdgetc shift 1 data with
  | Some (shift', c) => (0 <=? shift') && (shift' <? 128) && (0 <=? c) && (c <? 256)
  | None => false
  end.
Lemma all_calls_ok : forallb (λ sh, forallb (call_ok sh) (seqZ 0 256)) (seqZ 0 128) = true.
Proof. vm_compute. reflexivity. Qed.
Lemma call_in_bounds shift data : shift_ok shift → is_u8 data →
  ∃ shift' c, kbdgetc shift 1 data = Some (shift', c) ∧ shift_ok shift' ∧ is_u8 c.
Proof.
  intros Hs Hd. pose proof all_calls_ok as H. rewrite forallb_forall in H.
  specialize (H shift ltac:(apply list_elem_of_In, elem_of_seqZ; unfold shift_ok in *; lia)). rewrite forallb_forall in H.
  specialize (H data ltac:(apply list_elem_of_In, elem_of_seqZ; unfold is_u8 in *; lia)). unfold call_ok in H.
  destruct (kbdgetc shift 1 data) as [[shift' c]|]; [|done]. exists shift', c.
  rewrite !andb_true_iff, !Z.leb_le, !Z.ltb_lt in H. unfold shift_ok, is_u8. split_and!; try done; lia.
Qed.

Definition all_mods : list mods :=
  let b := [false; true] in
  sh ← b; ct ← b; al ← b; ca ← b; nu ← b; sc ← b; [Mods sh ct al ca nu sc].
Definition all_events : list event :=
  e0 ← [false; true]; k ← filter (λ k, k ≠ 96) (seqZ 0 128); d ← [false; true]; [Event e0 k d].
Lemma elem_of_mods m : m ∈ all_mods.
Proof. destruct m as [[] [] [] [] [] []]; unfold all_mods; vm_compute; set_solver. Qed.
Lemma elem_of_events e : event_ok e → e ∈ all_events.
Proof.
  destruct e as [e0 k d]. intros [Hk Hn]. cbn [e_key] in *. unfold all_events.
  refine (proj2 (list_elem_of_bind _ _ _) _). exists e0. split; [|destruct e0; set_solver].
  refine (proj2 (list_elem_of_bind _ _ _) _). exists k.
  split; [|apply list_elem_of_filter; split; [done|apply elem_of_seqZ; lia]].
  refine (proj2 (list_elem_of_bind _ _ _) _). exists d. split; [by left|destruct d; set_solver].
Qed.
Definition event_decoded (m : mods) (e : event) : bool :=
  let '(m', c) := react m e in
  bool_decide (kbd_run (encode m) (scan e) = Some (encode m', (if e_e0 e then [0] else []) ++ [c])).
Lemma all_events_decoded : forallb (λ m, forallb (event_decoded m) all_events) all_mods = true.
Proof. vm_compute. reflexivity. Qed.
Lemma react_decoded m e : event_ok e →
  kbd_run (encode m) (scan e) = Some (encode (react m e).1, (if e_e0 e then [0] else []) ++ [(react m e).2]).
Proof.
  intros He. pose proof all_events_decoded as H. rewrite forallb_forall in H.
  specialize (H m ltac:(apply list_elem_of_In, elem_of_mods)). rewrite forallb_forall in H.
  specialize (H e ltac:(by apply list_elem_of_In, elem_of_events)). unfold event_decoded in H.
  destruct (react m e) as [m' c]. by apply bool_decide_eq_true in H.
Qed.

(** ** Decoding *)

Lemma kbd_run_in_bounds l shift : Forall is_u8 l → shift_ok shift →
  ∃ shift' out, kbd_run shift l = Some (shift', out) ∧ shift_ok shift' ∧ Forall is_u8 out.
Proof.
  intros Hl. revert shift. induction Hl as [|data l Hd Hl IH]; intros shift Hs; cbn [kbd_run]; [by exists shift, []|].
  destruct (call_in_bounds shift data Hs Hd) as (s1&c&E&Hs1&Hc). destruct (IH s1 Hs1) as (s2&out&E2&Hs2&Ho).
  exists s2, (c :: out). rewrite E. cbn. rewrite E2. cbn. split_and!; [done|done|by constructor].
Qed.
Lemma kbd_run_app shift l l' s1 o1 s2 o2 :
  kbd_run shift l = Some (s1, o1) → kbd_run s1 l' = Some (s2, o2) → kbd_run shift (l ++ l') = Some (s2, o1 ++ o2).
Proof.
  revert shift o1. induction l as [|data l IH]; intros shift o1; cbn [kbd_run app]; [by intros [= -> <-]|].
  destruct (kbdgetc shift 1 data) as [[s0 c]|]; [|done]. cbn. destruct (kbd_run s0 l) as [[s3 o3]|] eqn:E; [|done]. cbn.
  intros [= -> <-] E2. by rewrite (IH s0 o3 E E2).
Qed.
Lemma kbd_run_reacts es m : Forall event_ok es →
  kbd_run (encode m) (es ≫= scan) = Some (encode (reacts m es).1, (reacts m es).2).
Proof.
  intros He. revert m. induction He as [|e es He Hes IH]; intros m; [done|]. cbn [mbind list_bind reacts].
  pose proof (react_decoded m e He) as E. destruct (react m e) as [m1 c]. cbn [fst snd] in E. specialize (IH m1).
  destruct (reacts m1 es) as [m2 out]. rewrite (kbd_run_app _ _ _ _ _ _ _ E IH). by rewrite <-app_assoc.
Qed.

Lemma reacts_app m es es' :
  reacts m (es ++ es') = ((reacts (reacts m es).1 es').1, (reacts m es).2 ++ (reacts (reacts m es).1 es').2).
Proof.
  revert m. induction es as [|e es IH]; intros m; cbn [app reacts fst snd]; [by destruct (reacts m es')|].
  destruct (react m e) as [m1 c]. rewrite IH. destruct (reacts m1 es). cbn. by rewrite <-app_assoc.
Qed.
#[export] Instance event_ok_dec e : Decision (event_ok e).
Proof. unfold event_ok. apply _. Defined.
#[export] Instance mods_eq : EqDecision mods.
Proof. solve_decision. Defined.
Definition types (c : Z) : bool :=
  bool_decide (Forall event_ok (strokes c)) && bool_decide ((reacts no_mods (strokes c)).1 = no_mods) &&
  bool_decide (filter (λ x, x ≠ 0) (reacts no_mods (strokes c)).2 = [c]).
Lemma all_typed : forallb types (seqZ 32 95 ++ seqZ 8 3) = true.
Proof. vm_compute. reflexivity. Qed.
Lemma typeable_types c : typeable c → Forall event_ok (strokes c) ∧ (reacts no_mods (strokes c)).1 = no_mods ∧
  filter (λ x, x ≠ 0) (reacts no_mods (strokes c)).2 = [c].
Proof.
  intros Hc. pose proof all_typed as H. rewrite forallb_forall in H. specialize (H c). unfold types in H.
  rewrite !andb_true_iff, !bool_decide_eq_true in H. destruct H as [[H1 H2] H3]; [|by split_and!].
  apply list_elem_of_In, elem_of_app. rewrite !elem_of_seqZ. unfold typeable in Hc. lia.
Qed.
Lemma typed_text text : Forall typeable text → Forall event_ok (text ≫= strokes) ∧
  (reacts no_mods (text ≫= strokes)).1 = no_mods ∧ filter (λ x, x ≠ 0) (reacts no_mods (text ≫= strokes)).2 = text.
Proof.
  induction 1 as [|c text Hc Ht [IH1 [IH2 IH3]]]; [done|]. cbn [mbind list_bind].
  destruct (typeable_types c Hc) as (H1&H2&H3). rewrite reacts_app. cbn [fst snd]. rewrite H2, filter_app, H3.
  split_and!; [by apply Forall_app|done|]. cbn [app]. f_equal. exact IH3.
Qed.

(** C39. [kbdgetc] decodes the keyboard.  Whatever bytes come, no table is
    indexed out of bounds, the state of the modifiers keeps to the seven bits
    the header defines, and each result is a byte.  For every sequence of keys
    of a US keyboard pressed and released, the results are the characters on
    the caps of the keys, with shift, control and caps lock as they are at that
    moment, and 0 for prefixes, modifiers and keys released; [shift] ends with
    exactly the modifiers that are down or locked.  In particular what one
    types on it, printable text, tabs, newlines and backspaces, arrives. *)
Theorem kbdgetc_decodes :
  (∀ l shift, Forall is_u8 l → shift_ok shift →
     ∃ shift' out, kbd_run shift l = Some (shift', out) ∧ shift_ok shift' ∧ Forall is_u8 out) ∧
  (∀ es m, Forall event_ok es → kbd_run (encode m) (es ≫= scan) = Some (encode (reacts m es).1, (reacts m es).2)) ∧
  (∀ text, Forall typeable text → ∃ out,
     kbd_run 0 ((text ≫= strokes) ≫= scan) = Some (0, out) ∧ filter (λ x, x ≠ 0) out = text).
Proof.
  split_and!.
  - apply kbd_run_in_bounds.
  - apply kbd_run_reacts.
  - intros text (H1&H2&H3)%typed_text. exists (reacts no_mods (text ≫= strokes)).2. split; [|exact H3].
    change 0 with (encode no_mods). rewrite kbd_run_reacts, H2 by done. done.
Qed.

(** Caps lock, then control and the key c, then the arrow up and the key a. *)
Lemma kbdgetc_decodes_witness :
  let es := [Event false 58 true; Event false 29 true; Event false 46 true; Event false 29 false; Event true 72 true; Event false 30 true] in
  kbd_run 0 (es ≫= scan) = Some (CAPSLOCK, [0; 0; 3; 0; 0; KEY_UP; 65]).
Proof.
  intros es. destruct kbdgetc_decodes as (_&H&_). refine (eq_trans (H es no_mods _) _); [repeat constructor; done|].
  vm_compute. reflexivity.
Defined.
