(* ===== verification/Console.v ===== *)
(** * The console: [console.c] and the output half of [uart.c]

    Input goes through a ring buffer of 128 characters with three 32-bit
    indices that only grow and wrap: [r] where readers take characters, [w]
    up to where lines are complete, [e] where the next character goes.
    Output goes to the serial line and to the screen.  [consoleintr] is given
    the characters its [getc] returns until the first negative one. *)

From S2P Require Import Prelude Params Kbd.

Definition HIS_SIZE : Z := 10.
Definition INPUT_BUF : Z := 128.
Definition BACKSPACE : Z := 256.
Definition NEWLINE : Z := 10.
Definition TAB : Z := 9.
Definition CTRL_D : Z := C 68.
Definition CTRL_H : Z := C 72.
Definition CTRL_P : Z := C 80.
Definition CTRL_R : Z := C 82.
Definition CTRL_U : Z := C 85.

Record cst := Cst {
  c_buf : list Z;
  c_r : Z;
  c_w : Z;
  c_e : Z;
  h_command : list (list Z);
  h_size : list Z;
  h_index : Z;
  crt : Z → Z;                  (* the cells of the screen *)
  c_pos : Z;                    (* the cursor, in the registers of the CGA *)
  c_serial : list Z;            (* characters sent to the serial line *)
  c_wakeups : Z;                (* calls of wakeup(&input.r) *)
  c_dumps : Z;                  (* calls of procdump *)
}.
Definition set_buf v s := Cst v (c_r s) (c_w s) (c_e s) (h_command s) (h_size s) (h_index s) (crt s) (c_pos s) (c_serial s) (c_wakeups s) (c_dumps s).
Definition set_r v s := Cst (c_buf s) v (c_w s) (c_e s) (h_command s) (h_size s) (h_index s) (crt s) (c_pos s) (c_serial s) (c_wakeups s) (c_dumps s).
Definition set_w v s := Cst (c_buf s) (c_r s) v (c_e s) (h_command s) (h_size s) (h_index s) (crt s) (c_pos s) (c_serial s) (c_wakeups s) (c_dumps s).
Definition set_e v s := Cst (c_buf s) (c_r s) (c_w s) v (h_command s) (h_size s) (h_index s) (crt s) (c_pos s) (c_serial s) (c_wakeups s) (c_dumps s).
Definition set_hist cmd sz ix s := Cst (c_buf s) (c_r s) (c_w s) (c_e s) cmd sz ix (crt s) (c_pos s) (c_serial s) (c_wakeups s) (c_dumps s).
Definition set_screen m pos s := Cst (c_buf s) (c_r s) (c_w s) (c_e s) (h_command s) (h_size s) (h_index s) m pos (c_serial s) (c_wakeups s) (c_dumps s).
Definition set_serial v s := Cst (c_buf s) (c_r s) (c_w s) (c_e s) (h_command s) (h_size s) (h_index s) (crt s) (c_pos s) v (c_wakeups s) (c_dumps s).
Definition set_wakeups v s := Cst (c_buf s) (c_r s) (c_w s) (c_e s) (h_command s) (h_size s) (h_index s) (crt s) (c_pos s) (c_serial s) v (c_dumps s).
Definition set_dumps v s := Cst (c_buf s) (c_r s) (c_w s) (c_e s) (h_command s) (h_size s) (h_index s) (crt s) (c_pos s) (c_serial s) (c_wakeups s) v.
Abbreviation CM := (M cst).

(** ** Output *)

Definition cell (m : Z → Z) (k v : Z) : Z → Z := λ x, if x =? k then v else m x.

(** The new screen and cursor, or [None] for the panic. *)
Definition cgaputc (c : Z) (m : Z → Z) (pos : Z) : option ((Z → Z) * Z) :=
  let '(m, pos) :=
    if c =? CTRL_R then ((λ x, if (0 <=? x) && (x <? pos) then Z.lor (Z.land BACKSPACE 255) 1792 else m x), 0)
    else if c =? NEWLINE then (m, pos + (80 - pos mod 80))
    else if c =? BACKSPACE then (m, if 0 <? pos then pos - 1 else pos)
    else (cell m pos (Z.lor (Z.land c 255) 1792), pos + 1) in
  if (pos <? 0) || (25 * 80 <? pos) then None
  else
    let '(m, pos) :=
      if 24 <=? pos / 80 then
        let m' := λ x, if (0 <=? x) && (x <? 23 * 80) then m (x + 80) else m x in
        let pos := pos - 80 in
        ((λ x, if (pos <=? x) && (x <? 24 * 80) then 0 else m' x), pos)
      else (m, pos) in
    Some (cell m pos (Z.lor 32 1792), pos).

Definition uartputc (c : Z) : CM unit := modify (λ s, set_serial (c_serial s ++ [u8 c]) s).

Definition consputc (c : Z) : CM unit :=
  (if c =? BACKSPACE then uartputc 8;; uartputc 32;; uartputc 8 else uartputc c);;
  s ← get;
  match cgaputc c (crt s) (c_pos s) with
  | Some (m, pos) => modify (set_screen m pos)
  | None => panic "pos under/overflow"
  end.

(** ** Input *)

Section input.
(** What reads past the end of [input.buf] return: the bytes of [struct input]
    and of what the linker puts after it, which the language leaves open. *)
Context (beyond : Z → Z).

Definition buf_get (k : Z) (s : cst) : Z :=
  if k <? INPUT_BUF then nth (Z.to_nat k) (c_buf s) 0 else beyond k.
(** [input.buf[k] = c]. *)
Definition buf_put (k c : Z) : CM unit :=
  if (0 <=? k) && (k <? INPUT_BUF) then modify (λ s, set_buf (<[Z.to_nat k := u8 c]> (c_buf s)) s)
  else fail (Undef "input.buf index").

(** [strncmp] of two sequences of characters. *)
Fixpoint strncmp_at (p q : Z → Z) (n : nat) (k : Z) : Z :=
  match n with
  | O => 0
  | S n' => if (p k =? 0) || negb (p k =? q k) then p k - q k else strncmp_at p q n' (k + 1)
  end.
(** The [n] characters that [strncpy] stores. *)
Fixpoint strncpy_at (p : Z → Z) (n : nat) (k : Z) : list Z :=
  match n with
  | O => []
  | S n' => if p k =? 0 then replicate n 0 else p k :: strncpy_at p n' (k + 1)
  end.

(** The inner loop of [tabhandler] from [j] on. *)
Fixpoint tab_copy (cmd : list Z) (n : nat) (j : Z) : CM unit :=
  match n with
  | O => mret tt
  | S n' =>
      let c := nth (Z.to_nat j) cmd 0 in
      consputc c;;
      e ← gets c_e;
      modify (set_e (e +u 1));;
      buf_put e c;;
      tab_copy cmd n' (j + 1)
  end.
(** The search from [i] on. *)
Fixpoint tab_search (wlen : Z) (n : nat) (i : Z) : CM unit :=
  match n with
  | O => mret tt
  | S n' =>
      s ← get;
      let index := (h_index s -u i) mod HIS_SIZE in
      let cmd := nth (Z.to_nat index) (h_command s) [] in
      if strncmp_at (λ k, buf_get (c_r s + k) s) (λ k, nth (Z.to_nat k) cmd 0) (Z.to_nat wlen) 0 =? 0 then
        tab_copy cmd (Z.to_nat (nth (Z.to_nat index) (h_size s) 0 - wlen)) wlen
      else tab_search wlen n' (i + 1)
  end.
Definition tabhandler : CM unit :=
  s ← get;
  tab_search (c_e s -u c_r s) (Z.to_nat HIS_SIZE) 0.

(** [while(input.e != input.w && input.buf[(input.e-1) % INPUT_BUF] != '\n')
    { input.e--; consputc(BACKSPACE); }] *)
Fixpoint kill_line (fuel : nat) : CM unit :=
  match fuel with
  | O => fail OutOfFuel
  | S k =>
      s ← get;
      if negb (c_e s =? c_w s) && negb (buf_get ((c_e s -u 1) mod INPUT_BUF) s =? NEWLINE) then
        modify (set_e (c_e s -u 1));;
        consputc BACKSPACE;;
        kill_line k
      else mret tt
  end.
Definition kill_fuel (s : cst) : nat := S (Z.to_nat (c_e s -u c_w s)).

(** The line goes to the history. *)
Definition remember : CM unit :=
  s ← get;
  let size := s32 (c_e s - c_r s - 1) in
  let i := Z.to_nat (h_index s) in
  let line := strncpy_at (λ k, buf_get (c_r s + k) s) (Z.to_nat size) 0 in
  modify (set_hist (<[i := splice 0 line (nth i (h_command s) [])]> (h_command s))
                   (<[i := u32 size]> (h_size s)) ((h_index s + 1) mod HIS_SIZE)).

(** The [default] case of [consoleintr]. *)
Definition input_char (c : Z) : CM unit :=
  s ← get;
  if negb (c =? 0) && (c_e s -u c_r s <? INPUT_BUF) then
    let c := if c =? 13 then NEWLINE else c in
    modify (set_e (c_e s +u 1));;
    buf_put (c_e s mod INPUT_BUF) c;;
    consputc c;;
    when (c =? NEWLINE) remember;;
    s ← get;
    when ((c =? NEWLINE) || (c =? CTRL_D) || (c_e s =? c_r s +u INPUT_BUF)) (
      modify (set_w (c_e s));;
      modify (λ s, set_wakeups (c_wakeups s + 1) s))
  else mret tt.

(** The [switch], and whether it sets [doprocdump]. *)
Definition consoleintr_char (c : Z) : CM bool :=
  if c =? CTRL_P then mret true
  else if c =? CTRL_U then
    s ← get; kill_line (kill_fuel s);; mret false
  else if (c =? CTRL_H) || (c =? 127) then
    s ← get;
    when (negb (c_e s =? c_w s)) (modify (set_e (c_e s -u 1));; consputc BACKSPACE);;
    mret false
  else if c =? CTRL_R then
    s ← get; kill_line (kill_fuel s);; consputc c;; consputc 36;; consputc 32;; mret false
  else if c =? TAB then tabhandler;; mret false
  else input_char c;; mret false.

Fixpoint consoleintr_loop (l : list Z) (doprocdump : bool) : CM bool :=
  match l with
  | [] => mret doprocdump
  | c :: l' => b ← consoleintr_char c; consoleintr_loop l' (doprocdump || b)
  end.
Definition consoleintr (l : list Z) : CM unit :=
  doprocdump ← consoleintr_loop l false;
  when doprocdump (modify (λ s, set_dumps (c_dumps s + 1) s)).

(** How a run of [consoleread] ends: it returns, or it sleeps with [n]
    characters still to read. *)
Inductive read_end := RRet (r : Z) | RSleep (n : Z).

(** The loop with [n] characters to go; the characters stored at [dst]. *)
Fixpoint consoleread_loop (killed : bool) (target : Z) (n : nat) : CM (list Z * read_end) :=
  match n with
  | O => mret ([], RRet target)
  | S n' =>
      s ← get;
      if c_r s =? c_w s then
        if killed then mret ([], RRet (-1)) else mret ([], RSleep (Z.of_nat n))
      else
        let c := buf_get (c_r s mod INPUT_BUF) s in
        modify (set_r (c_r s +u 1));;
        if c =? CTRL_D then
          when (Z.of_nat n <? target) (modify (λ s, set_r (c_r s -u 1) s));;
          mret ([], RRet (target - Z.of_nat n))
        else if c =? NEWLINE then mret ([c], RRet (target - Z.of_nat n'))
        else
          '(l, r) ← consoleread_loop killed target n';
          mret (c :: l, r)
  end.
Definition consoleread (killed : bool) (n : Z) : CM (list Z * read_end) :=
  consoleread_loop killed (u32 n) (Z.to_nat n).

Fixpoint consolewrite_loop (l : list Z) : CM unit :=
  match l with
  | [] => mret tt
  | c :: l' => consputc (Z.land c 255);; consolewrite_loop l'
  end.
Definition consolewrite (buf : list Z) (n : Z) : CM Z :=
  consolewrite_loop (take (Z.to_nat n) buf);;
  mret n.
End input.

(** ** The cursor stays on the screen *)

Definition on_screen (pos : Z) : Prop := 0 ≤ pos < 24 * 80.

Lemma cgaputc_spec c m pos :
  on_screen pos →
  ∃ m' pos', cgaputc c m pos = Some (m', pos') ∧ on_screen pos' ∧
    ∀ x, ¬ on_screen x → m' x = m x.
Proof.
  unfold on_screen. intros Hp. unfold cgaputc. set (r := if c =? CTRL_R then _ else _).
  assert (0 ≤ r.2 ≤ 24 * 80 ∧ ∀ x, ¬ (0 ≤ x < 24 * 80) → r.1 x = m x) as [Hr Hx].
  { unfold r. destruct (c =? CTRL_R); [|destruct (c =? NEWLINE); [|destruct (c =? BACKSPACE)]]; cbn [fst snd].
    - split; [lia|]. intros x Hx. destruct (Z.leb_spec 0 x), (Z.ltb_spec x pos); cbn; try done; lia.
    - split; [zdm|done].
    - split; [destruct (Z.ltb_spec 0 pos); lia|done].
    - split; [lia|]. intros x Hx. unfold cell. destruct (Z.eqb_spec x pos); [lia|done]. }
  destruct r as [m1 pos1]. cbn [fst snd] in *.
  destruct (Z.ltb_spec pos1 0); [lia|]. destruct (Z.ltb_spec (25 * 80) pos1); [lia|]. cbn [orb].
  destruct (Z.leb_spec 24 (pos1 / 80)).
  - eexists _, _. split; [done|]. split; [zdm|]. intros x Hnx. unfold cell.
    destruct (Z.eqb_spec x (pos1 - 80)); [zdm|].
    destruct (Z.leb_spec (pos1 - 80) x), (Z.ltb_spec x (24 * 80)); cbn [andb]; try zdm;
      destruct (Z.leb_spec 0 x), (Z.ltb_spec x (23 * 80)); cbn [andb]; try lia; by apply Hx.
  - eexists _, _. split; [done|]. split; [zdm|]. intros x Hnx. unfold cell.
    destruct (Z.eqb_spec x pos1); [zdm|]. by apply Hx.
Qed.

(** Writing to the console never panics and never writes outside the
    screen: whatever characters are written, the cursor stays within the
    first 24 lines and no other cell of the video memory changes. *)
Theorem consolewrite_on_screen (l : list Z) (n : Z) (s : cst) :
  on_screen (c_pos s) →
  wp (consolewrite l n) (λ r s', r = n ∧ on_screen (c_pos s') ∧
    (∀ x, ¬ on_screen x → crt s' x = crt s x) ∧
    c_serial s' = c_serial s ++ ((λ c, Z.land c 255) <$> take (Z.to_nat n) l)) s.
Proof.
  intros Hp. unfold consolewrite. apply wp_bind.
  enough (∀ k s, on_screen (c_pos s) → wp (consolewrite_loop k) (λ _ s', on_screen (c_pos s') ∧
    (∀ x, ¬ on_screen x → crt s' x = crt s x) ∧ c_serial s' = c_serial s ++ ((λ c, Z.land c 255) <$> k)) s) as Hk.
  { eapply wp_mono; [by apply Hk|]. intros [] s' (?&?&?). by apply wp_ret. }
  clear s Hp. induction k as [|c k IH]; intros s Hp; cbn [consolewrite_loop].
  { apply wp_ret. cbn. by rewrite app_nil_r. }
  apply wp_bind. unfold consputc. destruct (Z.eqb_spec (Z.land c 255) BACKSPACE) as [E|_].
  { exfalso. assert (Z.land c 255 < 256); [|unfold BACKSPACE in *; lia].
    change 255 with (Z.ones 8). rewrite Z.land_ones by lia. apply Z.mod_pos_bound. lia. }
  apply wp_bind, wp_modify, wp_bind. unfold wp at 1, get. cbn [crt c_pos set_serial].
  destruct (cgaputc_spec (Z.land c 255) (crt s) (c_pos s) Hp) as (m&pos&->&Hpos&Hm).
  apply wp_modify. eapply wp_mono; [by apply IH|]. cbn [crt c_pos c_serial set_screen set_serial].
  intros [] s' (H1&H2&H3). split_and!; [done| |].
  - intros x Hx. rewrite H2, Hm by done. done.
  - rewrite H3, <-app_assoc. cbn [fmap list_fmap app]. do 2 f_equal. unfold u8.
    rewrite Z.mod_small; [done|]. change 255 with (Z.ones 8). rewrite Z.land_ones by lia. apply Z.mod_pos_bound. lia.
Qed.

Definition console0 : cst :=
  Cst (replicate 128 0) 0 0 0 (replicate 10 (replicate 128 0)) (replicate 10 0) 0 (λ _, 0) 0 [] 0 0.

Lemma consolewrite_on_screen_witness :
  wp (consolewrite [104; 105; 10] 3) (λ r s', r = 3 ∧ on_screen (c_pos s') ∧
    (∀ x, ¬ on_screen x → crt s' x = crt console0 x) ∧
    c_serial s' = [104; 105; 10]) console0.
Proof. exact (consolewrite_on_screen [104; 105; 10] 3 console0 ltac:(by split)). Defined.
