(* ===== verification/ConsoleThms.v ===== *)
(** * The line discipline of the console

    The ring buffer with its three indices implements a line editor: complete
    lines wait to be read, the last line can still be edited. *)

From S2P Require Import Prelude Params Kbd Console.

(** ** The line editor *)

Record line := Line { ready : list Z; editing : list Z }.

Definition key (c : Z) (l : line) : line :=
  if c =? CTRL_P then l
  else if (c =? CTRL_U) || (c =? CTRL_R) then Line (ready l) []
  else if (c =? CTRL_H) || (c =? 127) then Line (ready l) (removelast (editing l))
  else if (c =? 0) || (128 <=? Z.of_nat (length (ready l) + length (editing l))) then l
  else
    let c := if c =? 13 then NEWLINE else c in
    let ed := editing l ++ [c] in
    if (c =? NEWLINE) || (c =? CTRL_D) || (128 =? Z.of_nat (length (ready l) + length ed))
    then Line (ready l ++ ed) [] else Line (ready l) ed.

(** Reading up to [n] characters: those read, how the read ends, and what
    is left. *)
Fixpoint take_line (killed : bool) (target : Z) (n : nat) (l : list Z) : list Z * read_end * list Z :=
  match n with
  | O => ([], RRet target, l)
  | S n' =>
      match l with
      | [] => ([], if killed then RRet (-1) else RSleep (Z.of_nat n), [])
      | c :: l' =>
          if c =? CTRL_D then
            ([], RRet (target - Z.of_nat n), if Z.of_nat n <? target then l else l')
          else if c =? NEWLINE then ([c], RRet (target - Z.of_nat n'), l')
          else let '(r, e, rest) := take_line killed target n' l' in (c :: r, e, rest)
      end
  end.

(** ** The ring buffer *)

Lemma wp_get {S} (Q : S → S → Prop) s : Q s s → wp get Q s.
Proof. done. Qed.

Section ring.
Context (beyond : Z → Z).

Lemma wp_buf_put k c (Q : unit → cst → Prop) s :
  is_u8 c → Q tt (set_buf (<[Z.to_nat (k mod 128) := c]> (c_buf s)) s) → wp (buf_put (k mod INPUT_BUF) c) Q s.
Proof.
  intros Hc HQ. unfold buf_put, INPUT_BUF.
  destruct (Z.leb_spec 0 (k mod 128)); [|zdm]. destruct (Z.ltb_spec (k mod 128) 128); [|zdm]. cbn [andb].
  unfold u8. unfold is_u8 in Hc. rewrite (Z.mod_small c) by lia. by apply wp_modify.
Qed.

Record ring (s : cst) (l : line) : Prop := {
  rg_len : length (c_buf s) = 128%nat;
  rg_u32 : is_u32 (c_r s);
  rg_w : c_w s = u32 (c_r s + Z.of_nat (length (ready l)));
  rg_e : c_e s = u32 (c_r s + Z.of_nat (length (ready l ++ editing l)));
  rg_room : (length (ready l ++ editing l) ≤ 128)%nat;
  rg_data k c : (ready l ++ editing l) !! k = Some c →
    c_buf s !! Z.to_nat ((c_r s + Z.of_nat k) mod 128) = Some c;
  rg_bytes : Forall is_u8 (ready l ++ editing l);
  rg_pos : on_screen (c_pos s);
}.

(** Only the fields of the ring and the cursor matter. *)
Lemma ring_same s s' l :
  ring s l → c_buf s' = c_buf s → c_r s' = c_r s → c_w s' = c_w s → c_e s' = c_e s → on_screen (c_pos s') →
  ring s' l.
Proof. intros [] E1 E2 E3 E4 E5. split; rewrite ?E1, ?E2, ?E3, ?E4; done. Qed.

Lemma ring_mod a : (u32 a) mod 128 = a mod 128.
Proof. unfold u32. zdm. Qed.
Lemma ring_sub a b : 0 ≤ b < 4294967296 → u32 (a + b) -u a = b.
Proof. intros Hb. unfold u32. rewrite Zminus_mod_idemp_l. rewrite Z.mod_small; lia. Qed.

Lemma ring_get s l k c :
  ring s l → (ready l ++ editing l) !! k = Some c → buf_get beyond ((c_r s + Z.of_nat k) mod INPUT_BUF) s = c.
Proof.
  intros Hr Hk. unfold buf_get, INPUT_BUF. destruct (Z.ltb_spec ((c_r s + Z.of_nat k) mod 128) 128); [|zdm].
  apply nth_lookup_Some. by apply (rg_data _ _ Hr).
Qed.

(** [consputc] does not touch the ring. *)
Lemma consputc_wp c s l (Q : unit → cst → Prop) :
  ring s l → (∀ s', ring s' l → c_r s' = c_r s → c_w s' = c_w s → c_e s' = c_e s →
    h_index s' = h_index s → h_command s' = h_command s → h_size s' = h_size s → Q tt s') →
  wp (consputc c) Q s.
Proof.
  intros Hr HQ. pose proof (rg_pos _ _ Hr) as Hp. unfold consputc, uartputc.
  destruct (cgaputc_spec c (crt s) (c_pos s) Hp) as (m&pos&E&Hpos&_).
  destruct (c =? BACKSPACE); repeat (apply wp_bind || apply wp_modify);
    unfold wp at 1, get; cbn [crt c_pos set_serial]; rewrite E; apply wp_modify; apply HQ; try done;
    by apply (ring_same s).
Qed.

(** Taking back the last character. *)
Lemma ring_back s l c ed :
  ring s (Line l (ed ++ [c])) → ring (set_e (c_e s -u 1) s) (Line l ed).
Proof.
  intros [Hl Hu Hw He Hroom Hd Hb Hp]. cbn [ready editing] in *. rewrite app_assoc, length_app in *.
  cbn [length] in *. split; try done; cbn [ready editing c_buf c_r c_w c_e c_pos set_e].
  - rewrite He. unfold u32. rewrite Zminus_mod_idemp_l. f_equal. lia.
  - lia.
  - intros k x Hk. apply Hd. by apply lookup_app_l_Some.
  - by apply Forall_app in Hb as [? _].
Qed.

Lemma ring_eq_we s l : ring s l → (c_e s =? c_w s) = bool_decide (editing l = []).
Proof.
  intros [Hl Hu Hw He Hroom Hd Hb Hp]. rewrite length_app in *. unfold is_u32 in Hu.
  destruct (Z.eqb_spec (c_e s) (c_w s)) as [E|E].
  - symmetry. apply bool_decide_eq_true_2. apply length_zero_iff_nil.
    rewrite He, Hw in E. unfold u32 in E. zdm.
  - symmetry. apply bool_decide_eq_false_2. intros E0. apply E. rewrite He, Hw, E0. cbn. f_equal. lia.
Qed.

Lemma kill_line_wp fuel s l (Q : unit → cst → Prop) :
  ring s l → (NEWLINE ∉ editing l) → (length (editing l) < fuel)%nat →
  (∀ s', ring s' (Line (ready l) []) → Q tt s') → wp (kill_line beyond fuel) Q s.
Proof.
  revert s l. induction fuel as [|fuel IH]; intros s l Hr Hn Hf HQ; [lia|]. cbn [kill_line].
  apply wp_bind. apply wp_get. rewrite (ring_eq_we s l Hr).
  destruct l as [rd ed]. cbn [ready editing] in *.
  destruct ed as [|c ed _] using rev_ind.
  { cbn. apply wp_ret. by apply HQ. }
  rewrite bool_decide_eq_false_2 by (by destruct ed). cbn [negb andb].
  assert (buf_get beyond ((c_e s -u 1) mod INPUT_BUF) s = c) as ->.
  { rewrite <-(ring_get s _ (length (rd ++ ed)) c Hr).
    - f_equal. rewrite (rg_e _ _ Hr). cbn [ready editing]. rewrite app_assoc, (length_app (rd ++ ed)). cbn [length].
      unfold u32, INPUT_BUF. zdm.
    - cbn [ready editing]. rewrite app_assoc. by apply list_lookup_middle. }
  rewrite elem_of_app, list_elem_of_singleton in Hn.
  destruct (Z.eqb_spec c NEWLINE) as [->|]; [tauto|]. cbn [negb].
  apply wp_bind, wp_modify, wp_bind. eapply consputc_wp; [by eapply ring_back|].
  intros s' Hs' _ _ _ _ _ _. eapply IH; [exact Hs'|tauto| |done]. cbn [editing]. rewrite length_app in Hf. cbn in Hf. lia.
Qed.
Lemma kill_fuel_enough s l : ring s l → (length (editing l) < kill_fuel s)%nat.
Proof.
  intros Hr. unfold kill_fuel. destruct Hr as [Hl Hu Hw He Hroom Hd Hb Hp].
  rewrite He, Hw. rewrite length_app in *. unfold is_u32 in Hu.
  assert (u32 (c_r s + Z.of_nat (length (ready l) + length (editing l))) -u
          u32 (c_r s + Z.of_nat (length (ready l))) = Z.of_nat (length (editing l))) as ->; [|lia].
  unfold u32. rewrite <-Zminus_mod. rewrite Z.mod_small; lia.
Qed.

(** A character is stored, and the line is complete. *)
Lemma ring_push s rd ed c :
  ring s (Line rd ed) → (length (rd ++ ed) < 128)%nat → is_u8 c →
  ring (set_buf (<[Z.to_nat (c_e s mod 128) := c]> (c_buf s)) (set_e (c_e s +u 1) s)) (Line rd (ed ++ [c])).
Proof.
  intros [Hl Hu Hw He Hroom Hd Hb Hp] Hlt Hc. cbn [ready editing] in *. unfold is_u32 in Hu.
  split; try done; cbn [ready editing c_buf c_r c_w c_e c_pos set_e set_buf]; rewrite ?(app_assoc rd ed [c]).
  - by rewrite length_insert.
  - rewrite He, (length_app (rd ++ ed)). cbn [length]. unfold u32. rewrite Zplus_mod_idemp_l. f_equal. lia.
  - rewrite (length_app (rd ++ ed)). cbn [length]. lia.
  - intros k x Hk. rewrite He, ring_mod. apply lookup_app_Some in Hk as [Hk|[Hk1 Hk]].
    + rewrite list_lookup_insert_ne; [by apply Hd|]. pose proof (lookup_lt_Some _ _ _ Hk). zdm.
    + apply list_lookup_singleton_Some in Hk as [Hk <-].
      replace k with (length (rd ++ ed)) by lia. apply list_lookup_insert_eq. rewrite Hl. zdm.
  - apply Forall_app. split; [done|by constructor].
Qed.
Lemma ring_commit s rd ed : ring s (Line rd ed) → ring (set_w (c_e s) s) (Line (rd ++ ed) []).
Proof.
  intros [Hl Hu Hw He Hroom Hd Hb Hp]. cbn [ready editing] in *.
  split; try done; cbn [ready editing c_buf c_r c_w c_e c_pos set_w]; rewrite ?app_nil_r; done.
Qed.
Lemma ring_full s rd ed :
  ring s (Line rd ed) → (c_e s =? c_r s +u INPUT_BUF) = (128 =? Z.of_nat (length rd + length ed)).
Proof.
  intros [Hl Hu Hw He Hroom Hd Hb Hp]. cbn [ready editing] in *. rewrite length_app in *.
  unfold is_u32, INPUT_BUF in *. rewrite He.
  destruct (Z.eqb_spec 128 (Z.of_nat (length rd + length ed))) as [<-|Hne]; [apply Z.eqb_refl|].
  apply Z.eqb_neq. unfold u32. zdm.
Qed.

Lemma remember_wp s l (Q : unit → cst → Prop) :
  ring s l → (∀ s', ring s' l → c_e s' = c_e s → c_r s' = c_r s → Q tt s') → wp (remember beyond) Q s.
Proof.
  intros Hr HQ. unfold remember. apply wp_bind. apply wp_get. apply wp_modify. apply HQ; [|done|done].
  apply (ring_same s); try done. apply Hr.
Qed.

Lemma input_char_wp c s l (Q : unit → cst → Prop) :
  ring s l → is_u8 c → (NEWLINE ∉ editing l) →
  c ∉ [CTRL_P; CTRL_U; CTRL_R; CTRL_H; 127] →
  (∀ s', ring s' (key c l) → Q tt s') → wp (input_char beyond c) Q s.
Proof.
  intros Hr Hc Hn Hk HQ. destruct l as [rd ed]. unfold key in HQ. cbn [ready editing] in *.
  rewrite !not_elem_of_cons in Hk. destruct Hk as (H1&H2&H3&H4&H5&_).
  rewrite (proj2 (Z.eqb_neq _ _) H1), (proj2 (Z.eqb_neq _ _) H2), (proj2 (Z.eqb_neq _ _) H3),
    (proj2 (Z.eqb_neq _ _) H4), (proj2 (Z.eqb_neq _ _) H5) in HQ. cbn [orb] in HQ.
  unfold input_char. apply wp_bind. apply wp_get.
  pose proof (rg_room _ _ Hr) as Hroom. cbn [ready editing] in Hroom. rewrite length_app in Hroom.
  assert (c_e s -u c_r s = Z.of_nat (length rd + length ed)) as ->.
  { rewrite (rg_e _ _ Hr). cbn [ready editing]. rewrite length_app. apply ring_sub. lia. }
  destruct (Z.eqb_spec c 0) as [E0|E0]; cbn [negb andb orb] in *; [apply wp_ret; by apply HQ|].
  unfold INPUT_BUF at 1. rewrite Z.ltb_antisym.
  destruct (Z.leb_spec 128 (Z.of_nat (length rd + length ed))); cbn [negb]; [apply wp_ret; by apply HQ|].
  set (c' := if c =? 13 then NEWLINE else c) in *.
  assert (is_u8 c') as Hc' by (unfold c'; destruct (c =? 13); [by split|done]).
  apply wp_bind, wp_modify, wp_bind, wp_buf_put; [done|].
  pose proof (ring_push s rd ed c' Hr ltac:(rewrite length_app; lia) Hc') as Hr1.
  apply wp_bind. eapply consputc_wp; [exact Hr1|]. intros s1 Hs1 _ _ _ _ _ _. apply wp_bind.
  assert (∀ s2, ring s2 (Line rd (ed ++ [c'])) → wp (s ← get; when ((c' =? NEWLINE) || (c' =? CTRL_D) ||
    (c_e s =? c_r s +u INPUT_BUF)) (modify (set_w (c_e s));; modify (λ s, set_wakeups (c_wakeups s + 1) s))) Q s2)
    as Hrest.
  { intros s2 Hs2. apply wp_bind. apply wp_get. rewrite (ring_full s2 rd (ed ++ [c']) Hs2).
    destruct ((c' =? NEWLINE) || (c' =? CTRL_D) || _); cbn [when] in *.
    - apply wp_bind, wp_modify, wp_modify. apply HQ. eapply ring_same; [by apply ring_commit|done..|]. apply Hs2.
    - apply wp_ret. by apply HQ. }
  destruct (c' =? NEWLINE); cbn [when].
  - eapply remember_wp; [exact Hs1|]. intros s2 Hs2 _ _. by apply Hrest.
  - apply wp_ret. by apply Hrest.
Qed.

(** One character from the keyboard. *)
Definition line_ok (l : line) : Prop := NEWLINE ∉ editing l.

Lemma removelast_snoc {A} (l : list A) x : removelast (l ++ [x]) = l.
Proof. rewrite removelast_app by done. cbn. apply app_nil_r. Qed.

Lemma key_ok c l : line_ok l → line_ok (key c l).
Proof.
  unfold line_ok. intros Hn. destruct l as [rd ed]. unfold key. cbn [ready editing] in *.
  repeat match goal with |- context [if ?b then _ else _] =>
    lazymatch b with c =? 13 => fail | _ => destruct b eqn:? end end; cbn [editing]; try done; try set_solver.
  - destruct ed as [|x ed _] using rev_ind; [done|]. rewrite removelast_snoc. set_solver.
  - rewrite elem_of_app, list_elem_of_singleton. intros [?|E]; [done|].
    rewrite <-E, Z.eqb_refl in *. done.
Qed.

Lemma consoleintr_char_wp c s l (Q : bool → cst → Prop) :
  ring s l → line_ok l → is_u8 c → c ≠ TAB →
  (∀ s', ring s' (key c l) → Q (c =? CTRL_P) s') → wp (consoleintr_char beyond c) Q s.
Proof.
  intros Hr Hn Hc Ht HQ. unfold consoleintr_char.
  destruct (Z.eqb_spec c CTRL_P) as [->|H1]; [apply wp_ret; by apply HQ|].
  destruct (Z.eqb_spec c CTRL_U) as [->|H2].
  { apply wp_bind, wp_get, wp_bind. eapply kill_line_wp; [done|done|by apply kill_fuel_enough|].
    intros s' Hs'. apply wp_ret. by apply HQ. }
  destruct (decide (c = CTRL_H ∨ c = 127)) as [H3|H3].
  { rewrite (proj2 (orb_true_iff _ _)) by (rewrite !Z.eqb_eq; done).
    apply wp_bind, wp_get, wp_bind. rewrite (ring_eq_we s l Hr). destruct l as [rd ed].
    assert (key c (Line rd ed) = Line rd (removelast ed)) as Ek.
    { unfold key. destruct H3 as [->| ->]; done. }
    rewrite Ek in HQ. cbn [editing] in *. destruct ed as [|x ed _] using rev_ind.
    - cbn. apply wp_ret, wp_ret. by apply HQ.
    - rewrite removelast_snoc in HQ. rewrite bool_decide_eq_false_2 by (by destruct ed). cbn [negb when].
      apply wp_bind, wp_modify. eapply consputc_wp; [by eapply ring_back|].
      intros s' Hs' _ _ _ _ _ _. apply wp_ret. by apply HQ. }
  rewrite (proj2 (orb_false_iff _ _)) by (rewrite !Z.eqb_neq; tauto).
  destruct (Z.eqb_spec c CTRL_R) as [->|H4].
  { apply wp_bind, wp_get, wp_bind. eapply kill_line_wp; [done|done|by apply kill_fuel_enough|]. intros s1 Hs1.
    apply wp_bind. eapply consputc_wp; [exact Hs1|]. intros s2 Hs2 _ _ _ _ _ _.
    apply wp_bind. eapply consputc_wp; [exact Hs2|]. intros s3 Hs3 _ _ _ _ _ _.
    apply wp_bind. eapply consputc_wp; [exact Hs3|]. intros s4 Hs4 _ _ _ _ _ _.
    apply wp_ret. by apply HQ. }
  destruct (Z.eqb_spec c TAB); [done|]. apply wp_bind. eapply input_char_wp; [done|done|done| |].
  - rewrite !not_elem_of_cons. split_and!; try tauto. apply not_elem_of_nil.
  - intros s' Hs'. apply wp_ret. by apply HQ.
Qed.

(** ** Reading *)

Lemma ring_pop s c rd ed : ring s (Line (c :: rd) ed) → ring (set_r (c_r s +u 1) s) (Line rd ed).
Proof.
  intros [Hl Hu Hw He Hroom Hd Hb Hp]. cbn [ready editing app length] in *.
  split; try done; cbn [ready editing c_buf c_r c_w c_e c_pos set_r].
  - apply u32_range.
  - rewrite Hw. unfold u32. rewrite Zplus_mod_idemp_l. f_equal. lia.
  - rewrite He. unfold u32. rewrite Zplus_mod_idemp_l. f_equal. lia.
  - lia.
  - intros k x Hk. rewrite <-(Hd (S k) x) by done. do 2 f_equal. unfold u32. zdm.
  - by apply Forall_cons in Hb as [_ ?].
Qed.
Lemma ring_eq_rw s l : ring s l → (c_r s =? c_w s) = bool_decide (ready l = []).
Proof.
  intros [Hl Hu Hw He Hroom Hd Hb Hp]. rewrite length_app in *. unfold is_u32 in Hu. rewrite Hw.
  destruct (ready l) as [|c rd]; cbn [length].
  - rewrite bool_decide_eq_true_2 by done. apply Z.eqb_eq. rewrite Z.add_0_r. symmetry. by apply u32_id.
  - rewrite bool_decide_eq_false_2 by done. apply Z.eqb_neq. cbn [length] in Hroom. unfold u32. zdm.
Qed.

Lemma consoleread_loop_wp killed target n s rd ed (Q : list Z * read_end → cst → Prop) :
  ring s (Line rd ed) →
  (∀ s', ring s' (Line (take_line killed target n rd).2 ed) → Q (take_line killed target n rd).1 s') →
  wp (consoleread_loop beyond killed target n) Q s.
Proof.
  revert s rd Q. induction n as [|n IH]; intros s rd Q Hr HQ; cbn [consoleread_loop].
  { apply wp_ret. by apply HQ. }
  apply wp_bind, wp_get. rewrite (ring_eq_rw s _ Hr). cbn [ready].
  destruct rd as [|c rd]; cbn [take_line] in HQ.
  { rewrite bool_decide_eq_true_2 by done. destruct killed; apply wp_ret; by apply HQ. }
  rewrite bool_decide_eq_false_2 by done.
  assert (buf_get beyond (c_r s mod INPUT_BUF) s = c) as ->.
  { rewrite <-(ring_get s _ 0 c Hr) by done. by rewrite Z.add_0_r. }
  pose proof (ring_pop s c rd ed Hr) as Hr1. apply wp_bind, wp_modify.
  destruct (Z.eqb_spec c CTRL_D).
  { apply wp_bind. destruct (Z.of_nat (S n) <? target); cbn [when].
    - apply wp_modify, wp_ret. apply HQ. cbn [snd].
      apply (ring_same s); [done..| |done|done|apply Hr]. cbn [c_r set_r].
      pose proof (rg_u32 _ _ Hr). unfold is_u32, u32 in *. rewrite Zminus_mod_idemp_l. rewrite Z.mod_small; lia.
    - apply wp_ret, wp_ret. by apply HQ. }
  destruct (Z.eqb_spec c NEWLINE); [apply wp_ret; by apply HQ|].
  apply wp_bind. eapply IH; [exact Hr1|]. intros s' Hs'.
  destruct (take_line killed target n rd) as [[r e] rest]. cbn [fst snd] in *. apply wp_ret. by apply HQ.
Qed.

(** ** Sequences of events *)

(** Characters typed and reads that are started or continued. *)
Inductive event := EKey (c : Z) | ERead (killed : bool) (target n : Z).

Fixpoint run_events (l : list event) : M cst (list (list Z * read_end)) :=
  match l with
  | [] => mret []
  | EKey c :: l' => consoleintr beyond [c];; run_events l'
  | ERead k t n :: l' =>
      x ← consoleread_loop beyond k t (Z.to_nat n);
      rest ← run_events l';
      mret (x :: rest)
  end.
Fixpoint edit_events (l : list event) (a : line) : list (list Z * read_end) * line :=
  match l with
  | [] => ([], a)
  | EKey c :: l' => edit_events l' (key c a)
  | ERead k t n :: l' =>
      let '(x, rest) := take_line k t (Z.to_nat n) (ready a) in
      let '(xs, a') := edit_events l' (Line rest (editing a)) in
      (x :: xs, a')
  end.

Definition is_typed (e : event) : Prop := match e with EKey c => is_u8 c ∧ c ≠ TAB | ERead _ _ _ => True end.

(** C20. The console is a line editor: for every sequence of characters typed
    (other than TAB) and of reads, the reads return what the editor gives
    them, complete lines in the order they were typed, with erased characters
    and killed lines gone, cut at newlines and at Control-D; the indices may
    wrap around, and nothing is ever written outside the buffer. *)
Theorem console_line_editor (l : list event) (s : cst) (a : line) :
  ring s a → line_ok a → Forall is_typed l →
  wp (run_events l) (λ out s', out = (edit_events l a).1 ∧ ring s' (edit_events l a).2) s.
Proof.
  revert s a. induction l as [|[c|k t n] l IH]; intros s a Hr Hn Hl; cbn [run_events edit_events].
  - by apply wp_ret.
  - apply Forall_cons in Hl as [[Hc Ht] Hl]. apply wp_bind. unfold consoleintr. apply wp_bind. cbn [consoleintr_loop].
    apply wp_bind. eapply consoleintr_char_wp; [done..|]. intros s' Hs'. apply wp_ret. cbn [orb].
    destruct (c =? CTRL_P); cbn [when].
    + apply wp_modify. apply IH; [|by apply key_ok|done]. apply (ring_same s'); try done. apply Hs'.
    + apply wp_ret. apply IH; [done|by apply key_ok|done].
  - apply Forall_cons in Hl as [_ Hl]. destruct a as [rd ed]. apply wp_bind.
    eapply consoleread_loop_wp; [exact Hr|]. intros s' Hs'. cbn [ready editing] in *.
    destruct (take_line k t (Z.to_nat n) rd) as [x rest]. cbn [fst snd] in *.
    apply wp_bind. eapply wp_mono; [by apply IH|]. intros xs s'' [-> Hs''].
    destruct (edit_events l (Line rest ed)) as [ys a']. cbn [fst snd] in *. by apply wp_ret.
Qed.
End ring.

(** ** Witness and the TAB key *)

Lemma ring0 : ring console0 (Line [] []).
Proof. split; cbn; try done. lia. Qed.

Definition beyond0 : Z → Z := λ _, 0.
(** a b ^H c Enter, then a read of 10 characters. *)
Definition demo_events : list event :=
  [EKey 97; EKey 98; EKey CTRL_H; EKey 99; EKey 13; ERead false 10 10].

Lemma console_line_editor_witness :
  edit_events demo_events (Line [] []) = ([([97; 99; 10], RRet 3)], Line [] []) ∧
  wp (run_events beyond0 demo_events) (λ out s', out = (edit_events demo_events (Line [] [])).1 ∧
    ring s' (edit_events demo_events (Line [] [])).2) console0.
Proof.
  split; [by vm_compute|].
  refine (console_line_editor beyond0 demo_events console0 (Line [] []) ring0 _ _).
  - apply not_elem_of_nil.
  - repeat (apply Forall_cons; split; [by vm_compute|]). constructor.
Defined.

(** Twenty-one lines of six characters, each read by the shell, and then the
    first letter of one of them and a TAB. *)
Definition cmd_line : list event :=
  [EKey 108; EKey 115; EKey 97; EKey 97; EKey 97; EKey 13; ERead false 100 100].
Definition tab_events : list event := concat (replicate 21 cmd_line) ++ [EKey 108].

(** TAB completion writes past the end of the input buffer: [tabhandler]
    uses the index [input.e] without reducing it, so after 126 characters
    have been typed in lines that were all read, completing the first letter
    of one of these commands stores outside [input.buf]. *)
Theorem tab_overruns :
  match run_events beyond0 tab_events console0 with
  | Ok _ s => c_e s = 127 ∧ c_r s = 126 ∧ consoleintr beyond0 [TAB] s = Fail (Undef "input.buf index")
  | Fail _ => False
  end.
Proof. vm_compute. done. Qed.
