(* ===== verification/Exec.v ===== *)
(** * Loading a program: [exec.c]

    [exec] over the file system and the virtual memory: it builds a new
    address space from an ELF file, puts the arguments on its stack, and
    switches to it.  The arguments are the strings that [argv] points to. *)

From S2P Require Import Prelude Params CString Cprintf Sleeplock Blocks Log Fs Kalloc Vm.

Definition ELF_MAGIC : Z := 1179403647.
Definition ELF_PROG_LOAD : Z := 1.
Definition sizeof_elfhdr : Z := 52.
Definition sizeof_proghdr : Z := 32.
Definition PL2 : Z := 1.

(** The fields of [struct elfhdr] and [struct proghdr] that are used. *)
Definition elf_magic (h : list Z) : Z := get32 h 0.
Definition elf_entry (h : list Z) : Z := get32 h 24.
Definition elf_phoff (h : list Z) : Z := get32 h 28.
Definition elf_phnum (h : list Z) : Z := get16 h 44.
Definition ph_type (h : list Z) : Z := get32 h 0.
Definition ph_off (h : list Z) : Z := get32 h 4.
Definition ph_vaddr (h : list Z) : Z := get32 h 8.
Definition ph_filesz (h : list Z) : Z := get32 h 16.
Definition ph_memsz (h : list Z) : Z := get32 h 20.

(** What [exec] uses of the current process. *)
Record uproc := UProc {
  x_pgdir : Z;
  x_sz : Z;
  x_kstack : Z;
  x_eip : Z;
  x_esp : Z;
  x_name : list Z;
  x_priority : Z;
}.

Record est (B : Type) := Est { e_fs : fss B; e_vm : vst; e_proc : uproc }.
Arguments Est {B}.
Arguments e_fs {B}.
Arguments e_vm {B}.
Arguments e_proc {B}.

Section exec.
Context {B : Type} `{!BlockOps B} (devsw : Z → devops (B := B)).
(** The end of the kernel, the start of its data, the address of the cpu's
    task state. *)
Context (end_ data_ ts_addr : Z).
Abbreviation EM := (M (est B)).

Definition efs {A} (m : M (fss B) A) : EM A := λ s,
  match m (e_fs s) with
  | Ok a x => Ok a (Est x (e_vm s) (e_proc s))
  | Fail f => Fail f
  end.
Definition evm (A : Type) (m : M vst A) : EM A := λ s,
  match m (e_vm s) with
  | Ok a x => Ok a (Est (e_fs s) x (e_proc s))
  | Fail f => Fail f
  end.

(** The label [bad]. *)
Definition exec_bad (pgdir : Z) (ip : option nat) : EM Z :=
  when (negb (pgdir =? 0)) (evm _ (freevm end_ pgdir));;
  match ip with
  | Some i => efs (iunlockput i);; efs (blk end_op)
  | None => mret tt
  end;;
  mret (-1).

(** [readi] into kernel memory. *)
Definition readi_mem (ip : nat) (dst off n : Z) : EM Z :=
  '(r, l) ← efs (readi devsw ip off n);
  evm _ (modify (on_mem (λ m, store m dst l)));;
  mret r.

(** The loop over the program headers: the size reached, or [None] for bad. *)
Fixpoint load_segments (ip : nat) (pgdir : Z) (n : nat) (off sz : Z) : EM (option Z) :=
  match n with
  | O => mret (Some sz)
  | S n' =>
      '(r, ph) ← efs (readi devsw ip off sizeof_proghdr);
      if negb (r =? sizeof_proghdr) then mret None
      else if negb (ph_type ph =? ELF_PROG_LOAD) then load_segments ip pgdir n' (off +u sizeof_proghdr) sz
      else if ph_memsz ph <? ph_filesz ph then mret None
      else if ph_vaddr ph +u ph_memsz ph <? ph_vaddr ph then mret None
      else
        sz ← evm _ (allocuvm end_ pgdir sz (ph_vaddr ph +u ph_memsz ph));
        if sz =? 0 then mret None
        else if negb (ph_vaddr ph mod PGSIZE =? 0) then mret None
        else
          r ← loaduvm evm (readi_mem ip) pgdir (ph_vaddr ph) (ph_off ph) (ph_filesz ph);
          if r <? 0 then mret None
          else load_segments ip pgdir n' (off +u sizeof_proghdr) sz
  end.

(** Where the string [arg] goes, below [sp]. *)
Definition arg_sp (sp : Z) (arg : list Z) : Z := Z.land (sp -u (Z.of_nat (length arg) + 1)) (not32 3).
(** The loop over the arguments: the stack pointer and the addresses stored
    in [ustack] from index 3 on, or [None] for bad. *)
Fixpoint push_args (pgdir : Z) (argv : list (list Z)) (argc sp : Z) : EM (option (Z * list Z)) :=
  match argv with
  | [] => mret (Some (sp, []))
  | arg :: argv' =>
      if MAXARG <=? argc then mret None
      else
        let sp := arg_sp sp arg in
        r ← evm _ (copyout pgdir sp (arg ++ [0]) (Z.of_nat (length arg) + 1));
        if r <? 0 then mret None
        else
          o ← push_args pgdir argv' (argc + 1) sp;
          match o with
          | None => mret None
          | Some (sp', l) => mret (Some (sp', sp :: l))
          end
  end.

(** The words of [ustack], for the addresses [l] of the arguments. *)
Definition ustack (sp : Z) (l : list Z) : list Z :=
  let argc := Z.of_nat (length l) in
  [4294967295; argc; sp -u (argc + 1) * 4] ++ l ++ [0].

(** The part of the path after its last slash. *)
Fixpoint last_elem (path last : list Z) : list Z :=
  match path with
  | [] => last
  | c :: p => last_elem p (if c =? SLASH then p else last)
  end.
(** [safestrcpy(name, src, sizeof(name))]. *)
Definition copy_to_name (name src : list Z) : list Z :=
  let n := length name in
  let m : mem := λ a, if a <? 0 then 0 else nth (Z.to_nat a) (name ++ src ++ [0]) 0 in
  bytes_at (safestrcpy m 0 (Z.of_nat n) (Z.of_nat n)) 0 n.

(** From the new stack on; [ip] has been released. *)
Definition exec_stack (path : list Z) (argv : list (list Z)) (pgdir sz entry : Z) : EM Z :=
  let sz := PGROUNDUP sz in
  sz ← evm _ (allocuvm end_ pgdir sz (sz +u 2 * PGSIZE));
  if sz =? 0 then exec_bad pgdir None
  else
    evm _ (clearpteu pgdir (sz -u 2 * PGSIZE));;
    o ← push_args pgdir argv 0 sz;
    match o with
    | None => exec_bad pgdir None
    | Some (sp, l) =>
        let u := ustack sp l in
        let n := Z.of_nat (length u) * 4 in
        let sp := sp -u n in
        r ← evm _ (copyout pgdir sp (u ≫= le32) n);
        if r <? 0 then exec_bad pgdir None
        else
          p ← gets e_proc;
          let p' := UProc pgdir sz (x_kstack p) entry sp (copy_to_name (x_name p) (last_elem path path)) PL2 in
          modify (λ s, Est (e_fs s) (e_vm s) p');;
          evm _ (switchuvm ts_addr (x_kstack p) pgdir);;
          evm _ (freevm end_ (x_pgdir p));;
          mret 0
    end.

Definition exec (path : list Z) (argv : list (list Z)) : EM Z :=
  efs (blk begin_op);;
  o ← efs (namei devsw path);
  match o with
  | None =>
      efs (blk end_op);;
      evm _ (vprint "exec: fail\n");;
      mret (-1)
  | Some ip =>
      efs (ilock (Some ip));;
      '(r, elf) ← efs (readi devsw ip 0 sizeof_elfhdr);
      if negb (r =? sizeof_elfhdr) then exec_bad 0 (Some ip)
      else if negb (elf_magic elf =? ELF_MAGIC) then exec_bad 0 (Some ip)
      else
        pgdir ← evm _ (setupkvm end_ data_);
        if pgdir =? 0 then exec_bad 0 (Some ip)
        else
          o ← load_segments ip pgdir (Z.to_nat (elf_phnum elf)) (elf_phoff elf) 0;
          match o with
          | None => exec_bad pgdir (Some ip)
          | Some sz =>
              efs (iunlockput ip);;
              efs (blk end_op);;
              exec_stack path argv pgdir sz (elf_entry elf)
          end
  end.
End exec.
