(* ===== verification/ExecVm.v ===== *)
(** * User memory as [exec] fills it

    An address space under construction holds an image: the flags and the byte
    at every address below its size.  What [allocuvm], [loaduvm], [clearpteu]
    and [copyout] do to the image. *)

From S2P Require Import Prelude Params CString Cprintf Kalloc Vm VmThms VmSpace VmCopy VmGrow.

(** The bytes [l] at [a], and [b] everywhere else. *)
Definition put_bytes (a : Z) (l : list Z) (b : Z → Z) : Z → Z :=
  λ x, if (a <=? x) && (x <? a + Z.of_nat (length l)) then nth (Z.to_nat (x - a)) l 0 else b x.

Lemma put_bytes_off a l b x : x < a ∨ a + Z.of_nat (length l) ≤ x → put_bytes a l b x = b x.
Proof. intros Hx. unfold put_bytes. zcases. Qed.
Lemma put_bytes_at a l b k : 0 ≤ k < Z.of_nat (length l) → put_bytes a l b (a + k) = nth (Z.to_nat k) l 0.
Proof. intros Hk. unfold put_bytes. rewrite (proj2 (Z.leb_le a _)), (proj2 (Z.ltb_lt (a + k) _)) by lia. cbn. do 2 f_equal. lia. Qed.
Lemma put_bytes_next a d b (i k : nat) x : (i + k ≤ length d)%nat →
  put_bytes (a + Z.of_nat i) (take k (drop i d)) (put_bytes a (take i d) b) x = put_bytes a (take (i + k) d) b x.
Proof.
  intros Hl. unfold put_bytes. rewrite !length_take, length_drop, !Nat.min_l by lia.
  destruct (Z.lt_ge_cases x a); [zcases|]. destruct (Z.lt_ge_cases x (a + Z.of_nat (i + k))); [|zcases].
  rewrite (proj2 (Z.leb_le a x)), (proj2 (Z.ltb_lt x (a + Z.of_nat (i + k)))) by lia. cbn [andb].
  rewrite (nth_lookup (take (i + k) d)), lookup_take_lt by lia. destruct (Z.lt_ge_cases x (a + Z.of_nat i)).
  - rewrite (proj2 (Z.leb_gt (a + Z.of_nat i) x)), (proj2 (Z.ltb_lt x (a + Z.of_nat i))) by lia. cbn [andb].
    by rewrite nth_lookup, lookup_take_lt by lia.
  - rewrite (proj2 (Z.leb_le (a + Z.of_nat i) x)), (proj2 (Z.ltb_lt x (a + Z.of_nat i + Z.of_nat k))) by lia. cbn [andb].
    rewrite nth_lookup, lookup_take_lt, lookup_drop by lia. do 2 f_equal. lia.
Qed.
Lemma store_put m a l x : store m a l x = put_bytes a l m x.
Proof.
  revert m a. induction l as [|c l IH]; intros m a; cbn [store].
  { unfold put_bytes. cbn [length]. zcases. }
  rewrite IH. unfold put_bytes. cbn [length]. destruct (Z.eq_dec x a) as [->|Hne].
  - rewrite (proj2 (Z.leb_gt (a + 1) a)), (proj2 (Z.leb_le a a)), (proj2 (Z.ltb_lt a (a + Z.of_nat (S (length l))))) by lia. cbn [andb].
    rewrite upd_eq, Z.sub_diag. done.
  - rewrite upd_ne by done. destruct (Z.leb_spec (a + 1) x), (Z.leb_spec a x); try lia; cbn [andb]; [|done].
    replace (a + Z.of_nat (S (length l))) with (a + 1 + Z.of_nat (length l)) by lia. case_match; [|done].
    replace (Z.to_nat (x - a)) with (S (Z.to_nat (x - (a + 1)))) by lia. done.
Qed.
Lemma store_bytes_ok m a l : Forall is_u8 l → bytes_ok m → bytes_ok (store m a l).
Proof.
  intros Hl. revert m a. induction Hl as [|c l Hc Hl IH]; intros m a Hm; [done|]. cbn [store]. apply IH.
  intros x. unfold upd. case_match; [done|apply Hm].
Qed.

Section image.
Context (end_ data_ : Z) (He : KERNBASE < end_) (Hd : KERNLINK < data_ < KERNBASE + PHYSTOP).
Abbreviation kp := (kpage end_).
Abbreviation inv := (pt_inv end_).

(** Writing to a page of the address space that is not part of its tables. *)
Lemma building_touch pd m0 fl0 ex s fl v (f : mem → mem) :
  building end_ pd m0 fl0 ex s fl → kp v → (v ∉ fl) → ¬ dir_page (v_mem s) pd v → v ∈ fl0 →
  bytes_ok (f (v_mem s)) → (∀ x, off_page x v → f (v_mem s) x = v_mem s x) →
  building end_ pd m0 fl0 ex (on_mem f s) fl ∧ ∀ va, get_pte (v_mem (on_mem f s)) pd va = get_pte (v_mem s) pd va.
Proof.
  intros [Hi Hu Ht Hx Hk] Hv Hn Ho Hin Hb Hoff. change (v_mem (on_mem f s)) with (f (v_mem s)) in *. set (m' := f (v_mem s)) in *.
  assert (Hkq : ∀ q, kp q → q ≠ v → keeps q (v_mem s) m').
  { intros q Hq Hne x Hxx. apply Hoff. by apply (off_other end_ v q x). }
  pose proof (pi_dir _ _ _ _ Hi) as Hdo. destruct (dir_frame end_ (v_mem s) m' pd fl fl Hdo) as (Hd'&Hg&Hdp); [|done|].
  { intros q Hq. destruct (dir_page_ok _ _ _ _ _ Hdo Hq). split; [|done]. apply Hkq; [done|]. by intros ->. }
  assert (Hown : ∀ q, owns m' pd q ↔ owns (v_mem s) pd q).
  { intros q. rewrite (owns_grows pd (v_mem s) m' q) by done. unfold owns. by rewrite Hdp. }
  split; [|done]. split; change (v_mem (on_mem f s)) with m'.
  - split; [|apply Hi|done]. refine (free_pages_frame end_ _ _ _ (pi_free _ _ _ _ Hi) _). intros w x Hw Hxx. apply Hoff.
    pose proof (fp_pages _ _ _ (pi_free _ _ _ _ Hi)) as Hpg. rewrite Forall_forall in Hpg.
    apply (off_other end_ v w x); [done|by apply Hpg| |unfold PGSIZE; lia]. by intros ->.
  - destruct Hu as [_ Hp Hinj]. split; [done| |].
    + intros va Hva. rewrite (umapped_same (v_mem s) m') in Hva by done.
      rewrite (upg_same (v_mem s) m') by (done || apply Hva). rewrite Hdp. by apply Hp.
    + intros va va' Hva Hva'. rewrite (umapped_same (v_mem s) m') in Hva, Hva' by done.
      rewrite !(upg_same (v_mem s) m') by (done || apply Hva || apply Hva'). by apply Hinj.
  - intros q. by rewrite Ht, Hown.
  - intros q Hq. rewrite Hown. by apply Hx.
  - intros q Hq Hnq x Hxx. rewrite (Hkq q); [by apply (Hk q)|done| |done]. by intros ->.
Qed.

(** The user memory below [top] has flags [wf] and contents [wb]; nothing else
    is mapped but the kernel. *)
Definition image (pd : Z) (m0 : mem) (fl0 : list Z) (top : Z) (wf wb : Z → Z) (s : vst) (fl : list Z) : Prop :=
  building end_ pd m0 fl0 [] s fl ∧ filled pd 0 top wf wb (kvm_pte data_) (λ _, 0) (v_mem s).

Lemma image_has pd m0 fl0 top wf wb s fl va :
  image pd m0 fl0 top wf wb s fl → 0 ≤ va < top → has (v_mem s) pd va (wf va) (wb va).
Proof. intros [_ [F _ _]]. apply F. Qed.
Lemma image_mapped pd m0 fl0 top wf wb s fl va :
  image pd m0 fl0 top wf wb s fl → top ≤ KERNBASE → 0 ≤ va < top → umapped (v_mem s) pd va.
Proof. intros Hm Ht Hva. split; [lia|]. by destruct (image_has _ _ _ _ _ _ _ _ va Hm Hva). Qed.
Lemma image_ext pd m0 fl0 top wf wb wf' wb' s fl :
  (∀ va, 0 ≤ va < top → wf va = wf' va ∧ wb va = wb' va) → image pd m0 fl0 top wf wb s fl → image pd m0 fl0 top wf' wb' s fl.
Proof. intros E [Hb [F1 F2 F3]]. split; [done|]. split; [|done|done]. intros va Hva. destruct (E va Hva) as [<- <-]. by apply F1. Qed.

(** Writing [l] at the user address [va], inside a page. *)
Lemma image_write pd m0 fl0 top wf wb s fl va l :
  image pd m0 fl0 top wf wb s fl → top ≤ KERNBASE → top mod PGSIZE = 0 → 0 ≤ va < top →
  va mod PGSIZE + Z.of_nat (length l) ≤ PGSIZE → Forall is_u8 l →
  image pd m0 fl0 top wf (put_bytes va l wb) (on_mem (λ m, store m (upg (v_mem s) pd va + va mod PGSIZE) l) s) fl.
Proof.
  intros Him Ht Htm Hva Hl Hb. pose proof Him as [Hbu Hfi]. pose proof (image_mapped _ _ _ _ _ _ _ _ va Him Ht Hva) as Hum.
  pose proof (bu_user _ _ _ _ _ _ _ Hbu) as Hu. destruct (uo_page _ _ _ _ Hu va Hum) as (Hv&Hn&Ho).
  pose proof (Z.mod_pos_bound va PGSIZE eq_refl) as Hmod. set (v := upg (v_mem s) pd va) in *. set (a := v + va mod PGSIZE).
  destruct (building_touch pd m0 fl0 [] s fl v (λ m, store m a l) Hbu Hv Hn Ho) as [Hb' Hg].
  { apply (bu_taken _ _ _ _ _ _ _ Hbu). right. right. right. by exists va. }
  { apply store_bytes_ok; [done|]. apply (uo_dir _ _ _ _ Hu). }
  { intros x Hx. apply store_ne. unfold off_page, a in *. lia. }
  split; [done|]. destruct Hfi as [F1 F2 F3]. split.
  - intros x Hx. destruct (F1 x Hx) as (E1&E2&E3). unfold has. rewrite Hg. split_and!; [done|done|].
    unfold ubyte, upg. rewrite Hg. change (v_mem (on_mem _ s)) with (store (v_mem s) a l). fold (upg (v_mem s) pd x). rewrite store_put.
    destruct (decide (x / PGSIZE = va / PGSIZE)) as [Ep|Ep].
    + assert (upg (v_mem s) pd x = v) as Eu.
      { unfold v, upg. rewrite (get_pte_same_page _ _ x va); [done| | |done]; unfold is_u32, KERNBASE in *; lia. }
      assert (Hdx : x mod PGSIZE - va mod PGSIZE = x - va) by (unfold PGSIZE in *; zdm).
      unfold ubyte in E3. rewrite Eu in *. unfold put_bytes, a. rewrite <-E3.
      destruct (Z.leb_spec va x), (Z.leb_spec (v + va mod PGSIZE) (v + x mod PGSIZE)); try lia; cbn [andb]; [|done].
      destruct (Z.ltb_spec x (va + Z.of_nat (length l))), (Z.ltb_spec (v + x mod PGSIZE) (v + va mod PGSIZE + Z.of_nat (length l))); try lia.
      do 2 f_equal. lia.
    + rewrite (put_bytes_off va) by (unfold PGSIZE in *; zdm). rewrite put_bytes_off; [exact E3|].
      assert (Hux : umapped (v_mem s) pd x) by (apply (image_mapped _ _ _ _ _ _ _ _ x Him Ht Hx)).
      destruct (uo_page _ _ _ _ Hu x Hux) as (Hvx&_). pose proof (Z.mod_pos_bound x PGSIZE eq_refl).
      assert (v ≠ upg (v_mem s) pd x) as Hne by (intros E; apply Ep; symmetry; by apply (uo_inj _ _ _ _ Hu)).
      destruct (kpage_disjoint end_ v (upg (v_mem s) pd x) Hv Hvx Hne); unfold a; lia.
  - intros x Hx Hox. rewrite Hg. by apply F2.
  - intros x Hx Hox Hp. destruct Hox as [?|Hox]; [lia|]. by rewrite (kvm_pte_user data_ Hd x Hx) in Hp.
Qed.

(** ** allocuvm *)

Lemma resize_building pd m0 fl0 s fl s' fl' :
  building end_ pd m0 fl0 [] s fl → inv pd fl' s' → resized end_ pd (v_mem s) fl (v_mem s') fl' → building end_ pd m0 fl0 [] s' fl'.
Proof.
  intros [Hi Hu Ht Hx Hk] Hi' [R1 R2 R3 R4]. split; [done|done| |intros q Hq; by apply elem_of_nil in Hq|].
  - intros q. specialize (R2 q). rewrite Ht, elem_of_nil. tauto.
  - intros q Hq Hn x Hxx. rewrite Ht in Hn. rewrite (R3 q) by tauto. apply (Hk q); [done| |done]. rewrite Ht. tauto.
Qed.
Lemma image_kernel pd m0 fl0 top wf wb s fl va :
  image pd m0 fl0 top wf wb s fl → 0 ≤ top → top ≤ va < KERNBASE → present (get_pte (v_mem s) pd va) = false.
Proof.
  intros [_ [_ F _]] Ht Hva. rewrite F by (unfold is_u32, KERNBASE in *; lia). by rewrite (kvm_pte_user data_ Hd) by lia.
Qed.

(** The image grows by zeroed pages, or the size is too large for the memory
    that there was. *)
Lemma image_alloc pd m0 fl0 wb s fl oldsz newsz :
  image pd m0 fl0 (PGROUNDUP oldsz) (λ _, 7) wb s fl → NoDup fl0 → 0 ≤ oldsz ≤ KERNBASE → is_u32 newsz →
  (∀ va, PGROUNDUP oldsz ≤ va → wb va = 0) →
  wp (allocuvm end_ pd oldsz newsz) (λ r s', ∃ fl',
    (newsz < KERNBASE ∧ r = Z.max oldsz newsz ∧ image pd m0 fl0 (PGROUNDUP (Z.max oldsz newsz)) (λ _, 7) wb s' fl' ∨
     r = 0 ∧ building end_ pd m0 fl0 [] s' fl' ∧
       (KERNBASE ≤ newsz ∨ (length fl0 ≤ 1026 + Z.to_nat (newsz / PGSIZE))%nat))) s.
Proof.
  intros Him Hnd Ho Hn Hz. pose proof Him as [Hbu [F1 F2 F3]]. destruct (PGROUNDUP_range oldsz) as (Hm&Hr&Hrk); [lia|].
  destruct (Z.lt_ge_cases newsz KERNBASE) as [Hk|Hk].
  2:{ unfold allocuvm. rewrite (proj2 (Z.leb_le KERNBASE newsz)) by done. apply wp_ret. exists fl. right. split_and!; [done|done|by left]. }
  destruct (Z.lt_ge_cases newsz oldsz) as [Hlt|Hge].
  { unfold allocuvm. rewrite (proj2 (Z.leb_gt KERNBASE newsz)), (proj2 (Z.ltb_lt newsz oldsz)) by done. apply wp_ret. exists fl. left.
    rewrite Z.max_l by lia. done. }
  rewrite Z.max_r by lia. destruct (PGROUNDUP_range newsz) as (Hm'&Hr'&Hrk'); [unfold is_u32 in *; lia|].
  eapply wp_mono; [apply (allocuvm_wp_of end_ He fl0 s pd fl oldsz newsz); try done; try lia|].
  { apply Hbu. }
  { apply Hbu. }
  { intros q Hq. apply (bu_taken _ _ _ _ _ _ _ Hbu) in Hq. rewrite elem_of_nil in Hq. tauto. }
  { intros va Hva. eapply image_kernel; [exact Him|lia|done]. }
  cbn beta. intros r s' (fl'&Hi'&Hrz&Hres). exists fl'. pose proof (resize_building _ _ _ _ _ _ _ Hbu Hi' Hrz) as Hbu'.
  destruct Hres as [(->&Hg)|(->&Hl&_)]; [left; split_and!; [done|done|]|right; split_and!; [done|done|by right]].
  split; [done|]. split.
  - intros va Hva. specialize (Hg va ltac:(lia)). destruct (in_range (PGROUNDUP oldsz) newsz va) eqn:E.
    + apply andb_true_iff in E as [E%Z.leb_le _]. by rewrite Hz.
    + assert (va < PGROUNDUP oldsz) as Hlow.
      { unfold in_range in E. destruct (Z.leb_spec (PGROUNDUP oldsz) va); [|done]. apply Z.ltb_ge in E. unfold PGSIZE in *. zdm. }
      destruct Hg as [Eg Eb]. destruct (F1 va) as (H1&H2&H3); [lia|]. unfold has. rewrite Eg. split_and!; [done|done|]. by rewrite Eb.
  - intros va Hva [?|Hge']; [unfold is_u32 in *; lia|]. destruct (Z.lt_ge_cases va KERNBASE) as [Hlk|Hgk].
    + specialize (Hg va ltac:(lia)). assert (in_range (PGROUNDUP oldsz) newsz va = false) as E.
      { unfold in_range. apply andb_false_iff. right. apply Z.ltb_ge. unfold PGSIZE in *. zdm. }
      rewrite E in Hg. destruct Hg as [-> _]. apply F2; [done|]. right. unfold PGSIZE in *. zdm.
    + rewrite (rz_kernel _ _ _ _ _ _ Hrz) by (unfold is_u32 in *; lia). apply F2; [done|]. right. lia.
  - intros va Hva Hout Hp. by rewrite (kvm_pte_user data_ Hd va Hva) in Hp.
Qed.

(** ** clearpteu *)

(** An entry with all three flags, without [PTE_U]. *)
Lemma clear_user e : is_u32 e → PTE_FLAGS e = 7 → let e' := Z.land e (not32 PTE_U) in
  is_u32 e' ∧ present e' = true ∧ PTE_ADDR e' = PTE_ADDR e ∧ PTE_FLAGS e' = 3.
Proof.
  intros He7 Hf e'. rewrite PTE_FLAGS_eq in Hf. assert (Ee : e' = e - 4).
  { unfold e'. assert (e = Z.lor (e - 7) 7) as E.
    { rewrite lor_flags by (zdm || lia). lia. }
    rewrite E at 1. rewrite Z.land_lor_distr_l. change (Z.land 7 (not32 PTE_U)) with 3.
    assert (Z.land (e - 7) (not32 PTE_U) = e - 7) as ->; [|rewrite lor_flags by (zdm || lia); lia].
    assert (Z.land (e - 7) (not32 4095) = e - 7) as Em by (rewrite land_page_mask; unfold is_u32 in *; zdm).
    rewrite <-Em, <-Z.land_assoc. done. }
  rewrite Ee. unfold is_u32 in *. split; [zdm|]. split_and!.
  - rewrite present_odd. replace (e - 4) with (3 + 2 * ((e - 7) / 2)) by zdm. by rewrite Z.odd_add_mul_2.
  - rewrite !PTE_ADDR_eq by (unfold is_u32; zdm). zdm.
  - rewrite PTE_FLAGS_eq. zdm.
Qed.

(** Changing the flags in the entry of a mapped page. *)
Lemma building_flags pd m0 fl0 s fl a e' :
  building end_ pd m0 fl0 [] s fl → umapped (v_mem s) pd a → is_u32 e' → present e' = true →
  PTE_ADDR e' = PTE_ADDR (get_pte (v_mem s) pd a) →
  let s' := on_mem (λ m, store32 m (pte_at (v_mem s) pd a) e') s in
  building end_ pd m0 fl0 [] s' fl ∧
  (∀ va, is_u32 va → get_pte (v_mem s') pd va = if at_page a va then e' else get_pte (v_mem s) pd va) ∧
  ∀ va, umapped (v_mem s) pd va → keeps (upg (v_mem s) pd va) (v_mem s) (v_mem s').
Proof.
  intros Hbu Hum He' Hp' Ea s'. pose proof Hbu as [Hi Hu Ht Hx Hk]. pose proof (pi_dir _ _ _ _ Hi) as Hdo. destruct Hum as [Har Hap].
  assert (Hpd : present (pde (v_mem s) pd (PDX a)) = true).
  { unfold get_pte in Hap. by destruct (present (pde (v_mem s) pd (PDX a))). }
  destruct (store_pte_inv end_ s pd fl a e' Hi Hpd He') as [Hi' Hg0]. fold s' in Hi', Hg0.
  pose proof (store_grows end_ (v_mem s) pd fl a e' Hdo Hpd He') as Hgr. change (store32 _ _ e') with (v_mem s') in Hgr.
  assert (Hau : is_u32 a) by (unfold is_u32, KERNBASE in *; lia).
  assert (Hg : ∀ va, is_u32 va → get_pte (v_mem s') pd va = if at_page a va then e' else get_pte (v_mem s) pd va).
  { intros va Hva. rewrite Hg0, same_indices by done. done. }
  assert (Hdp : ∀ q, dir_page (v_mem s') pd q ↔ dir_page (v_mem s) pd q).
  { destruct (gr_taken _ _ _ _ _ Hgr) as (tk&Etk&Hdp). assert (tk = []) as ->.
    { destruct tk; [done|]. apply (f_equal length) in Etk. rewrite length_app in Etk. cbn in Etk. lia. }
    intros q. rewrite Hdp, elem_of_nil. tauto. }
  assert (Hpg : ∀ va, at_page a va = true → is_u32 va → get_pte (v_mem s) pd va = get_pte (v_mem s) pd a).
  { intros va E Hva. apply bool_decide_eq_true in E. by apply get_pte_same_page. }
  assert (Hpr : ∀ va, 0 ≤ va < KERNBASE → present (get_pte (v_mem s') pd va) = present (get_pte (v_mem s) pd va)).
  { intros va Hva. assert (is_u32 va) by (unfold is_u32, KERNBASE in *; lia). rewrite Hg by done. destruct (at_page a va) eqn:E; [|done].
    by rewrite Hp', (Hpg va). }
  assert (Hup : ∀ va, 0 ≤ va < KERNBASE → upg (v_mem s') pd va = upg (v_mem s) pd va).
  { intros va Hva. assert (is_u32 va) by (unfold is_u32, KERNBASE in *; lia). unfold upg. rewrite Hg by done. destruct (at_page a va) eqn:E; [|done].
    by rewrite Ea, (Hpg va). }
  assert (Hkq : ∀ q, kp q → (q ∉ fl) → ¬ dir_page (v_mem s) pd q → keeps q (v_mem s) (v_mem s')).
  { intros q H1 H2 H3. by destruct (grows_keeps end_ pd _ _ _ _ q Hgr (pi_dir _ _ _ _ Hi') H1 H2 H3). }
  assert (Hum' : ∀ va, umapped (v_mem s') pd va ↔ umapped (v_mem s) pd va).
  { intros va. unfold umapped. split; intros [Hr Hp]; (split; [done|]); [by rewrite Hpr in Hp|by rewrite Hpr]. }
  split_and!; [split|done|].
  - done.
  - destruct Hu as [_ Hp Hinj]. split; [apply Hi'| |].
    + intros va Hva%Hum'. rewrite Hup by apply Hva. rewrite Hdp. by apply Hp.
    + intros va va' Hva%Hum' Hva'%Hum'. rewrite !Hup by (apply Hva || apply Hva'). by apply Hinj.
  - intros q. rewrite Ht. unfold owns. rewrite Hdp.
    split; (intros [?|[?|[?|(va&Hva&->)]]]; [tauto..|]); right; right; right; exists va; rewrite Hum' in *; rewrite Hup by apply Hva; done.
  - intros q Hq. by apply elem_of_nil in Hq.
  - intros q Hq Hn x Hxx. rewrite Ht in Hn. rewrite (Hkq q); [|done|tauto|unfold owns in *; tauto|done]. apply (Hk q); [done| |done]. rewrite Ht. tauto.
  - intros va Hva. destruct (uo_page _ _ _ _ Hu va Hva) as (?&?&?). by apply Hkq.
Qed.

Lemma image_clear pd m0 fl0 top wb s fl a :
  image pd m0 fl0 top (λ _, 7) wb s fl → top ≤ KERNBASE → 0 ≤ a < top →
  wp (clearpteu pd a) (λ _ s', image pd m0 fl0 top (λ va, if at_page a va then 3 else 7) wb s' fl) s.
Proof.
  intros Him Ht Ha. pose proof Him as [Hbu [F1 F2 F3]]. pose proof (image_mapped _ _ _ _ _ _ _ _ a Him Ht Ha) as Hum.
  pose proof (pi_dir _ _ _ _ (bu_inv _ _ _ _ _ _ _ Hbu)) as Hdo. destruct (F1 a Ha) as (_&Hf&_).
  destruct (walk_present end_ s pd fl a Hdo (proj2 Hum)) as (Ew&Hn0&El).
  assert (Hu32 : is_u32 (get_pte (v_mem s) pd a)) by (rewrite <-El; apply load32_u32, Hdo).
  destruct (clear_user _ Hu32 Hf) as (C1&C2&C3&C4). set (e' := Z.land _ (not32 PTE_U)) in *.
  unfold clearpteu. apply wp_bind. eapply wp_intro; [exact Ew|]. rewrite (proj2 (Z.eqb_neq _ 0) Hn0). apply wp_modify.
  assert (Es : on_mem (λ m, store32 m (pte_at (v_mem s) pd a) (Z.land (load32 m (pte_at (v_mem s) pd a)) (not32 PTE_U))) s =
    on_mem (λ m, store32 m (pte_at (v_mem s) pd a) e') s).
  { unfold on_mem, on_k, set_kmem. cbn. unfold v_mem in *. by rewrite El. }
  rewrite Es. destruct (building_flags pd m0 fl0 s fl a e' Hbu Hum C1 C2 C3) as (Hb'&Hg&Hk). set (s' := on_mem _ s) in *.
  split; [done|]. split.
  - intros va Hva. assert (is_u32 va) by (unfold is_u32, KERNBASE in *; lia). destruct (F1 va Hva) as (E1&E2&E3).
    assert (Ep : at_page a va = true → get_pte (v_mem s) pd va = get_pte (v_mem s) pd a).
    { intros E%bool_decide_eq_true. apply get_pte_same_page; [done|unfold is_u32, KERNBASE in *; lia|done]. }
    unfold has. split_and!.
    + rewrite Hg by done. by destruct (at_page a va).
    + rewrite Hg by done. by destruct (at_page a va).
    + unfold ubyte, upg. rewrite Hg by done. rewrite <-E3. unfold ubyte, upg. destruct (at_page a va) eqn:E.
      * rewrite C3, Ep by done. apply (Hk a Hum). unfold upg. pose proof (Z.mod_pos_bound va PGSIZE eq_refl). lia.
      * apply (Hk va (image_mapped _ _ _ _ _ _ _ _ va Him Ht Hva)). unfold upg. pose proof (Z.mod_pos_bound va PGSIZE eq_refl). lia.
  - intros va Hva [?|Hge]; [unfold is_u32 in *; lia|]. rewrite Hg by done. destruct (at_page a va) eqn:E; [|apply F2; [done|by right]].
    exfalso. apply bool_decide_eq_true in E. destruct (F1 a Ha) as (Hp&_). rewrite (get_pte_same_page _ _ a va) in Hp; [|unfold is_u32, KERNBASE in *; lia|done|done].
    rewrite F2 in Hp by (done || by right). destruct (Z.lt_ge_cases va KERNBASE).
    + by rewrite (kvm_pte_user data_ Hd) in Hp by lia.
    + unfold KERNBASE, PGSIZE in *. zdm.
  - intros va Hva Hout Hp. by rewrite (kvm_pte_user data_ Hd va Hva) in Hp.
Qed.

(** ** copyout *)

(** [copyout] to a part of one page. *)
Lemma image_copyout pd m0 fl0 top wf wb s fl va l :
  image pd m0 fl0 top wf wb s fl → top ≤ KERNBASE → top mod PGSIZE = 0 → 0 ≤ va < top →
  (wf va = 7 → va mod PGSIZE + Z.of_nat (length l) ≤ PGSIZE) → Forall is_u8 l → (0 < length l)%nat → wf va = 3 ∨ wf va = 7 →
  wf (va - va mod PGSIZE) = wf va →
  wp (copyout pd va l (Z.of_nat (length l))) (λ r s',
    wf va = 7 ∧ r = 0 ∧ image pd m0 fl0 top wf (put_bytes va l wb) s' fl ∨
    wf va = 3 ∧ r = -1 ∧ s' = s) s.
Proof.
  intros Him Ht Htm Hva Hl Hb Hpos Hwf Epg. pose proof Him as [Hbu [F1 F2 F3]].
  pose proof (pi_dir _ _ _ _ (bu_inv _ _ _ _ _ _ _ Hbu)) as Hdo. pose proof (Z.mod_pos_bound va PGSIZE eq_refl) as Hmod.
  assert (Hvu : is_u32 va) by (unfold is_u32, KERNBASE in *; lia). set (va0 := va - va mod PGSIZE) in *.
  assert (Hva0 : 0 ≤ va0 < top) by (unfold va0, PGSIZE in *; zdm). assert (H0u : is_u32 va0) by (unfold is_u32, KERNBASE in *; lia).
  destruct (F1 va0 Hva0) as (Hp&Hf&_). destruct (walk_present end_ s pd fl va0 Hdo Hp) as (Ew&Hn0&El).
  assert (Eg : get_pte (v_mem s) pd va0 = get_pte (v_mem s) pd va).
  { apply get_pte_same_page; [done|done|]. unfold va0, PGSIZE in *. zdm. }
  assert (Eu : Z.land (get_pte (v_mem s) pd va0) PTE_U = Z.land (wf va) PTE_U).
  { rewrite <-Epg, <-Hf. unfold PTE_FLAGS. by rewrite <-Z.land_assoc. }
  unfold copyout. assert (∃ f, Z.to_nat (Z.of_nat (length l)) = S f) as [f Ef] by (exists (length l - 1)%nat; lia).
  generalize (Z.to_nat (Z.of_nat (length l))) Ef. intros fuel ->. set (fuel := S f). cbn [copyout_loop].
  rewrite (proj2 (Z.ltb_lt 0 (Z.of_nat (length l)))) by lia. rewrite PGROUNDDOWN_eq by done. fold va0.
  apply wp_bind. unfold uva2ka. apply wp_bind. eapply wp_intro; [exact Ew|]. rewrite (proj2 (Z.eqb_neq _ 0) Hn0). apply wp_bind, wp_gets.
  rewrite El. unfold present in Hp. destruct (Z.land (get_pte (v_mem s) pd va0) PTE_P =? 0) eqn:Epp; [done|]. rewrite Eu.
  destruct Hwf as [Hw|Hw]; rewrite Hw; [change (Z.land 3 PTE_U =? 0) with true|change (Z.land 7 PTE_U =? 0) with false]; cbv iota; apply wp_ret.
  { cbn [Z.eqb]. apply wp_ret. by right. }
  specialize (Hl Hw). rewrite Eg. fold (upg (v_mem s) pd va). pose proof (image_mapped _ _ _ _ _ _ _ _ va Him Ht Hva) as Hum.
  destruct (uo_page _ _ _ _ (bu_user _ _ _ _ _ _ _ Hbu) va Hum) as (Hv&_).
  rewrite (proj2 (Z.eqb_neq (upg (v_mem s) pd va) 0)) by (unfold kpage, KERNBASE in *; lia).
  assert (Hoff : va -u va0 = va mod PGSIZE) by (unfold va0; rewrite u32_id; unfold is_u32, PGSIZE in *; lia). rewrite Hoff.
  rewrite (u32_id (PGSIZE - va mod PGSIZE)) by (unfold is_u32, PGSIZE in *; lia). set (n := if _ <? _ then _ else _).
  assert (n = Z.of_nat (length l)) as -> by (unfold n; destruct (Z.ltb_spec (Z.of_nat (length l)) (PGSIZE - va mod PGSIZE)); lia).
  apply wp_bind, wp_modify. rewrite Nat2Z.id, (take_ge l), Z.sub_diag by lia. change (u32 0) with 0.
  assert (Hfin : ∀ a b (x : vst), wp (copyout_loop fuel pd a b 0) (λ r s', r = 0 ∧ s' = x) x) by done.
  eapply wp_mono; [apply Hfin|]. cbn beta. intros r s' [-> ->]. left. split_and!; [done|done|].
  by apply image_write.
Qed.

(** ** Leaving the old address space *)

(** An address space whose pages are kept is the same address space. *)
Lemma space_frame m fl d m' fl' :
  user_ok end_ m d fl → (∀ q, owns m d q → keeps q m m' ∧ q ∉ fl') → bytes_ok m' →
  user_ok end_ m' d fl' ∧ (∀ va, get_pte m' d va = get_pte m d va) ∧ (∀ q, owns m' d q ↔ owns m d q) ∧
  ∀ va, umapped m d va → ubyte m' d va = ubyte m d va.
Proof.
  intros [Hdo Hp Hinj] Hk Hb. destruct (dir_frame end_ m m' d fl fl' Hdo) as (H1&H2&H3); [intros q Hq; apply Hk; by left|done|].
  assert (Hu : ∀ va, umapped m' d va ↔ umapped m d va) by (intros va; unfold umapped; by rewrite H2).
  assert (Eu : ∀ va, upg m' d va = upg m d va) by (intros va; unfold upg; by rewrite H2).
  split_and!; [split; [done| |]|done| |].
  - intros va Hva%Hu. rewrite Eu, H3. destruct (Hp va Hva) as (?&_&?). split_and!; [done| |done]. apply Hk. right. by exists va.
  - intros va va' Hva%Hu Hva'%Hu. rewrite !Eu. by apply Hinj.
  - intros q. unfold owns. rewrite H3. split; (intros [?|(va&Hva&->)]; [by left|]); right; exists va; rewrite Hu in *; by rewrite Eu.
  - intros va Hva. apply ubyte_keeps; [done|]. apply Hk. right. by exists va.
Qed.
Lemma owned_page m d fl q : user_ok end_ m d fl → owns m d q → kp q ∧ q ∉ fl.
Proof.
  intros [Hdo Hp _] [Hq|(va&Hva&->)]; [by apply (dir_page_ok _ _ _ _ _ Hdo)|]. by destruct (Hp va Hva) as (?&?&_).
Qed.

(** The address space [old] has been freed and [pd] built: no page is lost and
    every other address space is as it was. *)
Record replaced (old pd : Z) (m0 : mem) (fl0 : list Z) (m' : mem) (fl' : list Z) : Prop := {
  re_user : user_ok end_ m' pd fl';
  re_pages q : q ∈ fl' ∨ owns m' pd q ↔ q ∈ fl0 ∨ owns m0 old q;
  re_others d : user_ok end_ m0 d fl0 → (∀ q, owns m0 d q → ¬ owns m0 old q) →
    user_ok end_ m' d fl' ∧ (∀ va, get_pte m' d va = get_pte m0 d va) ∧ ∀ va, umapped m0 d va → ubyte m' d va = ubyte m0 d va;
}.
Lemma freevm_replaced old pd m0 fl0 s fl :
  building end_ pd m0 fl0 [] s fl → user_ok end_ m0 old fl0 →
  wp (freevm end_ old) (λ _ s', ∃ fl', alloc_ok end_ fl' s' ∧ replaced old pd m0 fl0 (v_mem s') fl' ∧
    (∀ va, get_pte (v_mem s') pd va = get_pte (v_mem s) pd va) ∧
    ∀ va, umapped (v_mem s) pd va → ubyte (v_mem s') pd va = ubyte (v_mem s) pd va) s.
Proof.
  intros [Hi Hu Ht Hx Hk] Hold. pose proof (do_bytes _ _ _ _ (pi_dir _ _ _ _ Hi)) as Hb.
  assert (Hsub : ∀ q, q ∈ fl → q ∈ fl0) by (intros q Hq; apply Ht; by left).
  assert (Hkeep : ∀ d, user_ok end_ m0 d fl0 → ∀ q, owns m0 d q → keeps q m0 (v_mem s) ∧ q ∉ fl).
  { intros d Hud q Hq. destruct (owned_page _ _ _ _ Hud Hq) as [Hkq Hn]. split; [by apply Hk|]. intros Hin. by apply Hn, Hsub. }
  destruct (space_frame m0 fl0 old (v_mem s) fl Hold (Hkeep old Hold) Hb) as (Hu1&_&Ho1&_).
  eapply wp_mono; [apply (freevm_wp end_ He s old fl); [|done]|].
  { split; [apply Hi|apply Hi|apply Hu1]. }
  cbn beta. intros _ s' (fl'&Ha'&Hf'&Hk'). exists fl'. split; [done|].
  assert (Hn : ∀ q, owns (v_mem s) pd q → kp q ∧ q ∉ fl').
  { intros q Hq. destruct (owned_page _ _ _ _ Hu Hq) as [Hkq Hnq]. split; [done|]. rewrite Hf', Ho1. intros [?|Hoq]; [done|].
    destruct (owned_page _ _ _ _ Hold Hoq) as [_ Hn0]. apply Hn0, Ht. tauto. }
  destruct (space_frame (v_mem s) fl pd (v_mem s') fl' Hu) as (N1&N2&N3&N4); [|apply Ha'|].
  { intros q Hq. destruct (Hn q Hq) as [Hkq Hnq]. split; [by apply Hk'|done]. }
  split; [|done]. split; [done| |].
  - intros q. rewrite N3, Hf', Ho1, Ht, elem_of_nil. tauto.
  - intros d Hud Hdis. destruct (space_frame m0 fl0 d (v_mem s') fl' Hud) as (?&?&_&?); [|apply Ha'|done].
    intros q Hq. destruct (owned_page _ _ _ _ Hud Hq) as [Hkq Hn0].
    assert (q ∉ fl') as Hnq by (rewrite Hf', Ho1; intros [?|?]; [by apply Hn0, Hsub|by apply (Hdis q)]). split; [|done].
    intros x Hxx. rewrite (Hk' q) by done. by apply (Hk q).
Qed.
End image.

(** [freevm] does not touch the page table register. *)
Section cr3.
Context (end_ : Z).
Definition cr3_kept {A} (m : M vst A) : Prop := ∀ s a s', m s = Ok a s' → v_cr3 s' = v_cr3 s.
Lemma cr3_bind {A A'} (m : M vst A) (k : A → M vst A') : cr3_kept m → (∀ a, cr3_kept (k a)) → cr3_kept (m ≫= k).
Proof. intros Hm Hk s a s' (x&s1&E1&E2)%bind_Ok. rewrite (Hk x s1 a s' E2). by apply (Hm s x). Qed.
Lemma cr3_ret {A} (a : A) : cr3_kept (mret a).
Proof. by intros s x s' [= _ <-]. Qed.
Lemma cr3_gets {A} (f : vst → A) : cr3_kept (gets f).
Proof. by intros s x s' [= _ <-]. Qed.
Lemma cr3_mem f : cr3_kept (modify (on_mem f)).
Proof. by intros s x s' [= _ <-]. Qed.
Lemma cr3_kfree v : cr3_kept (vm_kfree end_ v).
Proof. intros s a s'. unfold vm_kfree, lift_k. destruct (kfree end_ v (v_k s)); [|done]. by intros [= _ <-]. Qed.
Lemma cr3_walk pd va : cr3_kept (walkpgdir pd va false).
Proof. unfold walkpgdir. apply cr3_bind; [apply cr3_gets|]. intros e. case_match; [apply cr3_ret|]. apply cr3_ret. Qed.
Lemma cr3_dealloc_loop n pd a oldsz : cr3_kept (deallocuvm_loop end_ n pd a oldsz).
Proof.
  revert a. induction n as [|n IH]; intros a; cbn [deallocuvm_loop]; [done|]. case_match; [|apply cr3_ret].
  apply cr3_bind; [apply cr3_walk|]. intros pte. case_match; [apply IH|]. apply cr3_bind; [apply cr3_gets|]. intros e.
  apply cr3_bind; [|intros _; apply IH]. unfold when. case_match; [|apply cr3_ret]. case_match; [done|].
  apply cr3_bind; [apply cr3_kfree|]. intros _. apply cr3_mem.
Qed.
Lemma cr3_free_loop n pd i : cr3_kept (freevm_loop end_ n pd i).
Proof.
  revert i. induction n as [|n IH]; intros i; cbn [freevm_loop]; [apply cr3_ret|]. apply cr3_bind; [apply cr3_gets|]. intros e.
  apply cr3_bind; [|intros _; apply IH]. unfold when. case_match; [apply cr3_kfree|apply cr3_ret].
Qed.
Lemma freevm_cr3 pd : cr3_kept (freevm end_ pd).
Proof.
  unfold freevm. case_match; [done|]. apply cr3_bind; [|intros _; apply cr3_bind; [apply cr3_free_loop|intros _; apply cr3_kfree]].
  unfold deallocuvm. case_match; [apply cr3_ret|]. apply cr3_bind; [apply cr3_dealloc_loop|intros _; apply cr3_ret].
Qed.
End cr3.
