(* ===== verification/ExecThms.v ===== *)
(** * Theorems on [exec]

    What [exec] makes of a file: the address space it builds from the segments,
    the stack on which the program finds its arguments, and that nothing is
    lost or changed when it fails.  The file system is used through an
    interface, [ProgFile]; [ExecFile] shows that fs.c and log.c implement it. *)

From S2P Require Import Prelude Params CString Cprintf Sleeplock Blocks Fs Kalloc Vm VmThms VmSpace VmCopy VmGrow ExecVm Exec.

(** ** The file *)

Section file.
Context {B : Type} `{!BlockOps B} (devsw : Z → devops (B := B)).

(** What [readi] returns for a file with contents [c]. *)
Definition read_at (c : list Z) (off n : Z) : Z * list Z :=
  let size := Z.of_nat (length c) in
  if (size <? off) || (off +u n <? off) then (-1, [])
  else (Z.min n (size - off), take (Z.to_nat n) (drop (Z.to_nat off) c)).

(** What exec relies on of the file system: [opened ip c fs] says that in state
    [fs], inside an operation of the log, the inode [ip] is locked and its
    contents are [c]; [closed fs] that the file has been released and the
    operation has ended. *)
Class ProgFile (opened : nat → list Z → fss B → Prop) (closed : fss B → Prop) := {
  pf_size ip c fs : opened ip c fs → Z.of_nat (length c) < 2147483648;
  pf_read ip c fs off n : opened ip c fs → is_u32 off → is_u32 n →
    wp (readi devsw ip off n) (λ r fs', r = read_at c off n ∧ opened ip c fs') fs;
  pf_close ip c fs : opened ip c fs → wp (iunlockput ip;; blk end_op) (λ _ fs', closed fs') fs;
}.

(** The first calls of [exec], up to the lock of the inode. *)
Definition open_prog (path : list Z) : M (fss B) (option nat) :=
  blk begin_op;;
  o ← namei devsw path;
  match o with
  | Some ip => ilock (Some ip);; mret (Some ip)
  | None => blk end_op;; mret None
  end.
(** In state [fs] the path names a file with contents [c], or none. *)
Definition names (opened : nat → list Z → fss B → Prop) (closed : fss B → Prop) (path : list Z) (o : option (list Z)) (fs : fss B) : Prop :=
  wp (open_prog path) (λ r fs', match r, o with
    | Some ip, Some c => opened ip c fs'
    | None, None => closed fs'
    | _, _ => False
    end) fs.
End file.
Arguments pf_size {B _} devsw {opened closed _} ip c fs.
Arguments pf_read {B _} devsw {opened closed _} ip c fs off n.
Arguments pf_close {B _} devsw {opened closed _} ip c fs.

(** ** What a program file means *)

Section program.
Context (c : list Z).

Definition part (off n : Z) : list Z := take (Z.to_nat n) (drop (Z.to_nat off) c).
(** The segments given by [n] program headers from offset [off] on: the size of
    the memory and its contents; [None] if a header or a segment is not in the
    file, or is not one that can be loaded. *)
Fixpoint segments (n : nat) (off sz : Z) (b : Z → Z) : option (Z * (Z → Z)) :=
  match n with
  | O => Some (sz, b)
  | S n' =>
      let ph := part off sizeof_proghdr in
      if negb (Z.of_nat (length ph) =? sizeof_proghdr) then None
      else if negb (ph_type ph =? ELF_PROG_LOAD) then segments n' (off + sizeof_proghdr) sz b
      else
        let top := Z.max sz (ph_vaddr ph + ph_memsz ph) in
        let data := part (ph_off ph) (ph_filesz ph) in
        if (ph_memsz ph <? ph_filesz ph) || (KERNBASE <=? ph_vaddr ph + ph_memsz ph) || (top =? 0) ||
           negb (ph_vaddr ph mod PGSIZE =? 0) || negb (Z.of_nat (length data) =? ph_filesz ph) then None
        else segments n' (off + sizeof_proghdr) top (put_bytes (ph_vaddr ph) data b)
  end.
Definition elf : list Z := part 0 sizeof_elfhdr.
(** The size of the program's memory and its contents when it starts. *)
Definition program : option (Z * (Z → Z)) :=
  if negb (Z.of_nat (length elf) =? sizeof_elfhdr) || negb (elf_magic elf =? ELF_MAGIC) then None
  else segments (Z.to_nat (elf_phnum elf)) (elf_phoff elf) 0 (λ _, 0).

Lemma segments_mono n off sz b sz' b' : segments n off sz b = Some (sz', b') → sz ≤ sz'.
Proof.
  revert off sz b. induction n as [|n IH]; intros off sz b; cbn [segments]; [by intros [= -> ->]|].
  case_match; [done|]. case_match; [by apply IH|]. case_match; [done|]. intros E%IH. lia.
Qed.
Lemma segments_below n off sz b sz' b' : segments n off sz b = Some (sz', b') → sz < KERNBASE → sz' < KERNBASE.
Proof.
  revert off sz b. induction n as [|n IH]; intros off sz b; cbn [segments]; [by intros [= -> ->]|].
  case_match; [done|]. case_match; [by apply IH|]. case_match eqn:E; [done|]. intros Hs Hk; apply IH in Hs; [done|].
  rewrite !orb_false_iff, Z.leb_gt in E. lia.
Qed.
End program.

(** ** The stack of a new program *)

(** Where a string goes that is pushed at [sp]. *)
Definition arg_top (sp : Z) (arg : list Z) : Z :=
  let a := sp - (Z.of_nat (length arg) + 1) in a - a mod 4.
(** The stack pointer with which the program starts: below the strings are the
    return address, the count, the pointer to the vector, the vector and a
    null pointer. *)
Definition stack_sp (top : Z) (argv : list (list Z)) : Z :=
  foldl arg_top top argv - 4 * (Z.of_nat (length argv) + 4).
Definition stack_fits (top : Z) (argv : list (list Z)) : Prop :=
  Z.of_nat (length argv) ≤ MAXARG ∧ top - PGSIZE ≤ stack_sp top argv.
Fixpoint arg_addrs (sp : Z) (argv : list (list Z)) : list Z :=
  match argv with
  | [] => []
  | arg :: argv' => arg_top sp arg :: arg_addrs (arg_top sp arg) argv'
  end.

Lemma arg_top_le sp arg : arg_top sp arg + (Z.of_nat (length arg) + 1) ≤ sp.
Proof. unfold arg_top. zdm. Qed.
Lemma arg_top_aligned sp arg : arg_top sp arg mod 4 = 0.
Proof. unfold arg_top. zdm. Qed.
Lemma args_sp_le sp argv : foldl arg_top sp argv ≤ sp.
Proof. revert sp. induction argv as [|a l IH]; intros sp; cbn [foldl]; [lia|]. pose proof (IH (arg_top sp a)). pose proof (arg_top_le sp a). lia. Qed.
Lemma args_sp_aligned sp argv : sp mod 4 = 0 → foldl arg_top sp argv mod 4 = 0.
Proof. revert sp. induction argv as [|a l IH]; intros sp Hs; cbn [foldl]; [done|]. apply IH, arg_top_aligned. Qed.
Lemma length_addrs sp argv : length (arg_addrs sp argv) = length argv.
Proof. revert sp. induction argv as [|a l IH]; intros sp; cbn; [done|]. by rewrite IH. Qed.
Lemma land_word_mask a : is_u32 a → Z.land a (not32 3) = a - a mod 4.
Proof.
  intros Ha. replace (not32 3) with (Z.ldiff (Z.ones 32) (Z.ones 2)) by reflexivity.
  assert (Z.land a (Z.ldiff (Z.ones 32) (Z.ones 2)) = Z.ldiff a (Z.ones 2)) as ->.
  { apply Z.bits_inj'. intros i Hi. rewrite Z.land_spec, !Z.ldiff_spec, !Z.testbit_ones_nonneg by lia.
    destruct (Z.ltb_spec i 32) as [|Hge]; [done|]. by rewrite (u32_bits_above a i). }
  rewrite Z.ldiff_ones_r, Z.shiftr_div_pow2, Z.shiftl_mul_pow2 by lia.
  change (2 ^ 2) with 4. zdm.
Qed.
Lemma arg_sp_top sp arg : Z.of_nat (length arg) + 1 ≤ sp < 4294967296 → arg_sp sp arg = arg_top sp arg.
Proof. intros H. unfold arg_sp. rewrite u32_id by (unfold is_u32; lia). rewrite land_word_mask by (unfold is_u32; lia). done. Qed.

(** The strings are at their addresses. *)
Definition args_at (b : Z → Z) (l : list Z) (argv : list (list Z)) : Prop :=
  Forall2 (λ a arg, ∀ k, 0 ≤ k ≤ Z.of_nat (length arg) → b (a + k) = nth (Z.to_nat k) (arg ++ [0]) 0) l argv.
Lemma args_at_ext b b' sp argv :
  (∀ x, foldl arg_top sp argv ≤ x < sp → b' x = b x) → args_at b (arg_addrs sp argv) argv → args_at b' (arg_addrs sp argv) argv.
Proof.
  revert sp. induction argv as [|a l IH]; intros sp Hb Ha; cbn [arg_addrs foldl] in *; [constructor|].
  apply Forall2_cons in Ha as [H1 H2]. pose proof (arg_top_le sp a). pose proof (args_sp_le (arg_top sp a) l). constructor.
  - intros k Hk. rewrite Hb by lia. by apply H1.
  - apply IH; [|done]. intros x Hx. apply Hb. lia.
Qed.

(** ** Loading *)

Section load.
Context {B : Type} `{!BlockOps B} (devsw : Z → devops (B := B)) (end_ data_ : Z).
Context (He : KERNBASE < end_) (Hd : KERNLINK < data_ < KERNBASE + PHYSTOP).
Context (opened : nat → list Z → fss B → Prop) (closed : fss B → Prop) `{!ProgFile devsw opened closed}.
Abbreviation img := (image end_ data_).

Lemma wp_efs {A} (m : M (fss B) A) (Q : A → est B → Prop) s :
  wp m (λ a x, Q a (Est x (e_vm s) (e_proc s))) (e_fs s) → wp (efs m) Q s.
Proof. unfold wp, efs. by destruct (m (e_fs s)). Qed.
Lemma wp_evm {A} (m : M vst A) (Q : A → est B → Prop) s :
  wp m (λ a x, Q a (Est (e_fs s) x (e_proc s))) (e_vm s) → wp (evm A m) Q s.
Proof. unfold wp, evm. by destruct (m (e_vm s)). Qed.

Context (ip : nat) (c : list Z) (Hc : Forall is_u8 c).

Lemma part_bytes off n : Forall is_u8 (part c off n).
Proof. by apply Forall_take, Forall_drop. Qed.
Lemma length_part off n : 0 ≤ off → 0 ≤ n → Z.of_nat (length (part c off n)) = Z.max 0 (Z.min n (Z.of_nat (length c) - off)).
Proof. intros Ho Hn. unfold part. rewrite length_take, length_drop. lia. Qed.
Lemma byte_at_u8 l k : Forall is_u8 l → is_u8 (byte_at l k).
Proof.
  intros Hl. unfold byte_at. rewrite nth_lookup. destruct (l !! _) as [x|] eqn:E; [|done].
  rewrite Forall_forall in Hl. apply Hl. by eapply list_elem_of_lookup_2.
Qed.
Lemma get32_u32 l k : Forall is_u8 l → is_u32 (get32 l k).
Proof.
  intros Hl. unfold get32, is_u32. pose proof (byte_at_u8 l k Hl). pose proof (byte_at_u8 l (k + 1) Hl).
  pose proof (byte_at_u8 l (k + 2) Hl). pose proof (byte_at_u8 l (k + 3) Hl). unfold is_u8 in *. lia.
Qed.

(** A read of exactly [n] bytes, or one that falls short. *)
Lemma read_exact fs off n : opened ip c fs → is_u32 off → 0 < n < 2147483648 →
  ((read_at c off n).1 =? n) = (Z.of_nat (length (part c off n)) =? n) ∧ ((read_at c off n).1 = n → (read_at c off n).2 = part c off n).
Proof.
  intros Ho Hoff Hn. pose proof (pf_size devsw ip c fs Ho) as Hs. unfold is_u32 in *. unfold read_at, part. rewrite length_take, length_drop.
  destruct (Z.ltb_spec (Z.of_nat (length c)) off); cbn [orb fst snd].
  { split; [|lia]. destruct (Z.eqb_spec (-1) n); [lia|]. symmetry. apply Z.eqb_neq. lia. }
  rewrite (u32_id (off + n)) by (unfold is_u32; lia). rewrite (proj2 (Z.ltb_ge (off + n) off)) by lia. cbn [fst snd]. split; [|done].
  f_equal. lia.
Qed.

(** One page of [loaduvm] after the other; [d] is the part of the file. *)
Lemma loaduvm_loop_wp n pd m0 fl0 top b addr off sz i s fl :
  let d := part c off sz in
  opened ip c (e_fs s) → img pd m0 fl0 top (λ _, 7) (put_bytes addr (take (Z.to_nat i) d) b) (e_vm s) fl →
  top ≤ KERNBASE → top mod PGSIZE = 0 → addr mod PGSIZE = 0 → 0 ≤ addr → 0 ≤ sz → addr + sz ≤ top → is_u32 off →
  0 ≤ i → i mod PGSIZE = 0 → (i ≤ Z.of_nat (length d) ∨ sz ≤ i ∧ Z.of_nat (length d) = sz) → i < sz + PGSIZE → sz + PGSIZE ≤ i + PGSIZE * Z.of_nat n →
  wp (loaduvm_loop evm (readi_mem devsw ip) n pd addr off sz i) (λ r s', opened ip c (e_fs s') ∧ e_proc s' = e_proc s ∧
    (r = 0 ∧ Z.of_nat (length d) = sz ∧ img pd m0 fl0 top (λ _, 7) (put_bytes addr d b) (e_vm s') fl ∨
     r = -1 ∧ Z.of_nat (length d) ≠ sz ∧ building end_ pd m0 fl0 [] (e_vm s') fl)) s.
Proof.
  intros d. revert i s. induction n as [|n IH]; intros i s Ho Him Ht Htm Ham Ha0 Hs0 Hat Hoff Hi Hmi Hdi Hlt Hn; [cbn in Hn; lia|].
  cbn [loaduvm_loop]. assert (Hdl : Z.of_nat (length d) = Z.max 0 (Z.min sz (Z.of_nat (length c) - off))) by (apply length_part; unfold is_u32 in *; lia).
  pose proof (pf_size devsw ip c _ Ho) as Hcs. destruct (Z.ltb_spec i sz) as [His|His].
  2:{ apply wp_ret. split_and!; [done|done|]. left. assert (Z.of_nat (length d) = sz) as E by lia. split_and!; [done|done|].
      by rewrite take_ge in Him by lia. }
  assert (Hau : addr +u i = addr + i) by (apply u32_id; unfold is_u32, KERNBASE in *; lia).
  assert (Hou : off +u i = off + i) by (apply u32_id; unfold is_u32 in *; lia). rewrite Hau, Hou.
  pose proof Him as [Hbu [F1 _ _]]. destruct (F1 (addr + i)) as (Hp&_); [lia|].
  destruct (walk_present end_ (e_vm s) pd fl (addr + i) (pi_dir _ _ _ _ (bu_inv _ _ _ _ _ _ _ Hbu)) Hp) as (Ew&Hn0&El).
  apply wp_bind, wp_evm. eapply wp_intro; [exact Ew|]. rewrite (proj2 (Z.eqb_neq _ 0) Hn0). apply wp_bind, wp_evm, wp_gets. cbn [e_vm e_fs e_proc].
  rewrite El. fold (upg (v_mem (e_vm s)) pd (addr + i)). rewrite (u32_id (sz - i)) by (unfold is_u32, KERNBASE in *; lia).
  set (k := if sz - i <? PGSIZE then sz - i else PGSIZE). assert (Hk : k = Z.min (sz - i) PGSIZE) by (unfold k; destruct (Z.ltb_spec (sz - i) PGSIZE); lia).
  clearbody k. assert (Hkr : 0 < k ≤ PGSIZE) by (unfold PGSIZE in *; lia).
  destruct (read_exact (e_fs s) (off + i) k Ho) as [Er1 Er2]; [unfold is_u32 in *; lia|unfold PGSIZE in *; lia|].
  apply wp_bind. unfold readi_mem. apply wp_bind, wp_efs.
  eapply wp_mono; [apply (pf_read devsw ip c (e_fs s) (off + i) k Ho); unfold is_u32, PGSIZE in *; lia|]. cbn [e_vm e_fs e_proc].
  intros [r l] fs' [Erl Ho']. rewrite <-Erl in Er1, Er2. cbn [fst snd] in *. apply wp_bind, wp_evm, wp_modify, wp_ret. cbn [e_vm e_fs e_proc].
  assert (Hl8 : Forall is_u8 l).
  { assert (l = (read_at c (off + i) k).2) as -> by (by rewrite <-Erl). unfold read_at. case_match; [constructor|]. by apply Forall_take, Forall_drop. }
  assert (Hll : Z.of_nat (length l) ≤ k).
  { assert (l = (read_at c (off + i) k).2) as -> by (by rewrite <-Erl). unfold read_at. case_match; cbn [snd length]; [lia|]. rewrite length_take. lia. }
  assert (Emod : (addr + i) mod PGSIZE = 0) by (unfold PGSIZE in *; zdm).
  pose proof (image_write end_ data_ Hd pd m0 fl0 top _ _ (e_vm s) fl (addr + i) l Him Ht Htm ltac:(lia) ltac:(lia) Hl8) as Him'.
  rewrite Emod, Z.add_0_r in Him'. rewrite Er1, length_part by (unfold is_u32 in *; lia).
  destruct (Z.eqb_spec (Z.max 0 (Z.min k (Z.of_nat (length c) - (off + i)))) k) as [Ek|Ek]; cbn [negb].
  2:{ apply wp_ret. split_and!; [done|done|]. right. split_and!; [done|lia|apply Him']. }
  assert (l = part c (off + i) k) as -> by (apply Er2, Z.eqb_eq; rewrite Er1, length_part by (unfold is_u32 in *; lia); by apply Z.eqb_eq).
  rewrite (u32_id (i + PGSIZE)) by (unfold is_u32, KERNBASE, PGSIZE in *; lia).
  assert (Epart : part c (off + i) k = take (Z.to_nat k) (drop (Z.to_nat i) d)).
  { unfold d, part. symmetry. rewrite take_drop_commute, take_take, Nat.min_l, <-take_drop_commute, drop_drop by lia. do 2 f_equal. unfold is_u32 in *. lia. }
  eapply wp_mono; [apply (IH (i + PGSIZE)); try done; [|unfold PGSIZE in *; (lia || zdm)..]|done].
  eapply image_ext; [|exact Him']. intros x Hx. split; [done|]. cbn beta. rewrite Epart.
  rewrite <-(Z2Nat.id i) at 1 by lia. rewrite put_bytes_next by lia. f_equal. destruct (Z.eq_dec k PGSIZE) as [->|Hne].
  - f_equal. lia.
  - rewrite !take_ge by lia. done.
Qed.
Lemma put_bytes_nil a b x : put_bytes a [] b x = b x.
Proof. apply put_bytes_off. cbn. lia. Qed.
Lemma loaduvm_wp pd m0 fl0 top b addr off sz s fl :
  let d := part c off sz in
  opened ip c (e_fs s) → img pd m0 fl0 top (λ _, 7) b (e_vm s) fl → top ≤ KERNBASE → top mod PGSIZE = 0 →
  addr mod PGSIZE = 0 → 0 ≤ addr → 0 ≤ sz → addr + sz ≤ top → is_u32 off →
  wp (loaduvm evm (readi_mem devsw ip) pd addr off sz) (λ r s', opened ip c (e_fs s') ∧ e_proc s' = e_proc s ∧
    (r = 0 ∧ Z.of_nat (length d) = sz ∧ img pd m0 fl0 top (λ _, 7) (put_bytes addr d b) (e_vm s') fl ∨
     r = -1 ∧ Z.of_nat (length d) ≠ sz ∧ building end_ pd m0 fl0 [] (e_vm s') fl)) s.
Proof.
  intros d Ho Him Ht Htm Ham Ha Hs Hat Hoff. unfold loaduvm. rewrite Ham. cbn [Z.eqb negb].
  apply loaduvm_loop_wp; try done; [|lia|unfold PGSIZE; lia|].
  - eapply image_ext; [|exact Him]. intros x _. split; [done|]. by rewrite put_bytes_nil.
  - assert (0 ≤ sz / PGSIZE) by (unfold PGSIZE; zdm). rewrite Nat2Z.inj_succ, Z2Nat.id by lia. unfold PGSIZE in *. zdm.
Qed.

Section segs.
Context (pd : Z) (m0 : mem) (fl0 : list Z) (Hnd : NoDup fl0).

Lemma header_offset fs off : opened ip c fs → is_u32 off → Z.of_nat (length (part c off sizeof_proghdr)) = sizeof_proghdr →
  off +u sizeof_proghdr = off + sizeof_proghdr ∧ is_u32 (off + sizeof_proghdr).
Proof.
  intros Ho Hoff El. pose proof (pf_size devsw ip c fs Ho). rewrite length_part in El by (unfold is_u32, sizeof_proghdr in *; lia).
  unfold is_u32, sizeof_proghdr in *. split; [apply u32_id; unfold is_u32|]; lia.
Qed.
(** The program does not fit if a part of it does not. *)
Lemma segments_pages n off sz b sz' b' k :
  0 ≤ k ≤ sz → segments c n off sz b = Some (sz', b') → (length fl0 ≤ 1026 + Z.to_nat (k / PGSIZE))%nat →
  (length fl0 ≤ 1026 + Z.to_nat (sz' / PGSIZE))%nat.
Proof.
  intros Hk Es%segments_mono Hl. etrans; [exact Hl|]. apply Nat.add_le_mono_l, Z2Nat.inj_le; [unfold PGSIZE; zdm..|].
  apply Z.div_le_mono; [done|lia].
Qed.

(** The loop over the program headers. *)
Ltac no_segment f := apply wp_ret; split; [done|]; split; [done|]; exists f; split; [match goal with H : img _ _ _ _ _ _ _ f |- _ => apply H | H : building _ _ _ _ _ _ f |- _ => exact H end|].
Lemma load_segments_wp n off sz b s fl :
  opened ip c (e_fs s) → img pd m0 fl0 (PGROUNDUP sz) (λ _, 7) b (e_vm s) fl → 0 ≤ sz < KERNBASE → is_u32 off →
  (∀ va, PGROUNDUP sz ≤ va → b va = 0) →
  wp (load_segments devsw end_ ip pd n off sz) (λ r s', opened ip c (e_fs s') ∧ e_proc s' = e_proc s ∧ ∃ fl',
    match r with
    | Some sz' => 0 ≤ sz' < KERNBASE ∧ ∃ b', segments c n off sz b = Some (sz', b') ∧
        img pd m0 fl0 (PGROUNDUP sz') (λ _, 7) b' (e_vm s') fl' ∧ ∀ va, PGROUNDUP sz' ≤ va → b' va = 0
    | None => building end_ pd m0 fl0 [] (e_vm s') fl' ∧
        ∀ sz' b', segments c n off sz b = Some (sz', b') → (length fl0 ≤ 1026 + Z.to_nat (sz' / PGSIZE))%nat
    end) s.
Proof.
  revert off sz b s fl. induction n as [|n IH]; intros off sz b s fl Ho Him Hsz Hoff Hz; cbn [load_segments segments].
  { apply wp_ret. split_and!; [done|done|]. exists fl. split; [done|]. by exists b. }
  destruct (read_exact (e_fs s) off sizeof_proghdr Ho Hoff) as [Er1 Er2]; [done|].
  apply wp_bind, wp_efs. eapply wp_mono; [by apply (pf_read devsw ip c (e_fs s) off sizeof_proghdr Ho)|].
  intros [r ph] fs [Erl Ho']. rewrite <-Erl in Er1, Er2. cbn [fst snd] in Er1, Er2. rewrite Er1.
  destruct (Z.eqb_spec (Z.of_nat (length (part c off sizeof_proghdr))) sizeof_proghdr) as [El|El]; cbn [negb].
  2:{ by no_segment fl. }
  apply Z.eqb_eq in Er1. rewrite (Er2 Er1). clear r Erl Er1 Er2. set (p := part c off sizeof_proghdr) in *.
  destruct (header_offset fs off Ho' Hoff El) as [-> Hoff'].
  destruct (ph_type p =? ELF_PROG_LOAD); cbn [negb].
  2:{ eapply wp_mono; [by apply (IH _ sz b _ fl)|done]. }
  assert (Hp : Forall is_u8 p) by apply part_bytes.
  pose proof (get32_u32 p 8 Hp) as Hva. fold (ph_vaddr p) in Hva. pose proof (get32_u32 p 20 Hp) as Hms. fold (ph_memsz p) in Hms.
  pose proof (get32_u32 p 16 Hp) as Hfs. fold (ph_filesz p) in Hfs. pose proof (get32_u32 p 4 Hp) as Hpo. fold (ph_off p) in Hpo.
  set (va := ph_vaddr p) in *. set (ms := ph_memsz p) in *. set (fz := ph_filesz p) in *. set (po := ph_off p) in *. clearbody va ms fz po.
  destruct (Z.ltb_spec ms fz) as [Hmf|Hmf]; cbn [orb].
  { by no_segment fl. }
  destruct (Z.lt_ge_cases (va + ms) 4294967296) as [Hw|Hw].
  2:{ rewrite (proj2 (Z.ltb_lt (va +u ms) va)) by (unfold u32, is_u32 in *; zdm).
      no_segment fl.
      rewrite (proj2 (Z.leb_le KERNBASE (va + ms))) by (unfold KERNBASE; lia). done. }
  assert (Hu : is_u32 (va + ms)) by (unfold is_u32 in *; lia). rewrite (u32_id (va + ms)) by done.
  rewrite (proj2 (Z.ltb_ge (va + ms) va)) by (unfold is_u32 in *; lia). apply wp_bind, wp_evm. cbn [e_vm e_fs e_proc].
  eapply wp_mono; [apply (image_alloc end_ data_ He Hd pd m0 fl0 b (e_vm s) fl sz (va + ms)); try done; lia|]. cbn beta.
  intros r v1 (fl1&[(Hk&->&Him1)|(->&Hb1&Hbig)]).
  2:{ cbn [Z.eqb]. no_segment fl1. intros sz' b' Es.
      destruct Hbig as [Hbig|Hl]; [by rewrite (proj2 (Z.leb_le KERNBASE (va + ms)) Hbig) in Es|].
      destruct (_ || _); [done|]. eapply segments_pages; [|exact Es|exact Hl]. unfold is_u32 in *. lia. }
  rewrite (proj2 (Z.leb_gt KERNBASE (va + ms)) Hk). cbn [orb]. set (top := Z.max sz (va + ms)) in *.
  destruct (Z.eqb_spec top 0) as [E0|E0]; cbn [orb].
  { by no_segment fl1. }
  destruct (Z.eqb_spec (va mod PGSIZE) 0) as [Ea|Ea]; cbn [negb orb].
  2:{ by no_segment fl1. }
  assert (Htop : 0 ≤ top < KERNBASE) by (unfold is_u32 in *; lia). destruct (PGROUNDUP_range top) as (Hm&Hr&Hrk); [lia|].
  apply wp_bind. eapply wp_mono; [apply (loaduvm_wp pd m0 fl0 (PGROUNDUP top) b va po fz _ fl1); try done; cbn [e_fs e_vm]; unfold is_u32 in *; lia|].
  cbn beta. intros r s2 (Ho2&Ep2&[(->&Elen&Him2)|(->&Hne&Hb2)]); cbn [Z.ltb Z.compare].
  2:{ no_segment fl1. by rewrite (proj2 (Z.eqb_neq _ _) Hne). }
  rewrite (proj2 (Z.eqb_eq _ _) Elen). cbn [negb]. cbn [e_proc] in Ep2. rewrite <-Ep2.
  eapply wp_mono; [apply (IH _ top (put_bytes va (part c po fz) b) s2 fl1); try done|done].
  intros x Hx. assert (PGROUNDUP sz ≤ PGROUNDUP top).
  { destruct (PGROUNDUP_range sz) as (Hms'&Hrs&_); [lia|]. unfold PGSIZE in *. zdm. }
  rewrite put_bytes_off by (unfold is_u32 in *; lia). apply Hz. lia.
Qed.
End segs.
End load.

(** ** The stack *)

Section stack.
Context {B : Type} `{!BlockOps B} (end_ data_ : Z).
Context (He : KERNBASE < end_) (Hd : KERNLINK < data_ < KERNBASE + PHYSTOP).
Context (pd : Z) (m0 : mem) (fl0 : list Z) (top : Z).
Context (Ht : top ≤ KERNBASE) (Htm : top mod PGSIZE = 0) (Ht2 : 2 * PGSIZE ≤ top).

(** The flags: the page below the stack is not for the user. *)
Definition guarded (va : Z) : Z := if at_page (top - 2 * PGSIZE) va then 3 else 7.
Abbreviation img := (image end_ data_ pd m0 fl0 top guarded).

Lemma guarded_stack va : top - PGSIZE ≤ va < top → guarded va = 7.
Proof. intros Hva. unfold guarded, at_page. rewrite bool_decide_eq_false_2; [done|]. unfold PGSIZE in *. zdm. Qed.
Lemma guarded_guard va : top - 2 * PGSIZE ≤ va < top - PGSIZE → guarded va = 3.
Proof. intros Hva. unfold guarded, at_page. rewrite bool_decide_eq_true_2; [done|]. unfold PGSIZE in *. zdm. Qed.

(** [copyout] to the stack, or to the page below it. *)
Lemma stack_copyout b s fl va l :
  img b s fl → top - 2 * PGSIZE ≤ va → va + Z.of_nat (length l) ≤ top → (0 < length l)%nat → Forall is_u8 l →
  wp (copyout pd va l (Z.of_nat (length l))) (λ r s',
    top - PGSIZE ≤ va ∧ r = 0 ∧ img (put_bytes va l b) s' fl ∨ va < top - PGSIZE ∧ r = -1 ∧ s' = s) s.
Proof.
  intros Him Hlo Hhi Hl Hb.
  assert (Hcase : top - PGSIZE ≤ va ∧ guarded va = 7 ∨ va < top - PGSIZE ∧ guarded va = 3).
  { destruct (Z.lt_ge_cases va (top - PGSIZE)); [right|left]; (split; [done|]); [by apply guarded_guard|apply guarded_stack; lia]. }
  eapply wp_mono; [apply (image_copyout end_ data_ Hd pd m0 fl0 top guarded b s fl va l Him Ht Htm); try done|].
  - unfold PGSIZE in *. lia.
  - intros H7. destruct Hcase as [[? _]|[_ E]]; [|congruence]. unfold PGSIZE in *. zdm.
  - destruct Hcase as [[_ ->]|[_ ->]]; auto.
  - unfold guarded, at_page. assert ((va - va mod PGSIZE) / PGSIZE = va / PGSIZE) as ->; [unfold PGSIZE; zdm|done].
  - cbn beta. intros r s' [(E7&->&H)|(E3&->&->)]; destruct Hcase as [[? ?]|[? ?]]; try congruence; auto.
Qed.

Lemma push_args_wp argv argc sp b s fl :
  img b (e_vm s) fl → 0 ≤ argc → sp mod 4 = 0 → top - PGSIZE ≤ sp ≤ top →
  Forall (λ a, Z.of_nat (length a) < PGSIZE ∧ Forall is_u8 a) argv →
  wp (push_args (B := B) pd argv argc sp) (λ o s', e_fs s' = e_fs s ∧ e_proc s' = e_proc s ∧
    match o with
    | Some (sp', l) => (argv = [] ∨ argc + Z.of_nat (length argv) ≤ MAXARG) ∧ sp' = foldl arg_top sp argv ∧ top - PGSIZE ≤ sp' ∧
        l = arg_addrs sp argv ∧ ∃ b', img b' (e_vm s') fl ∧ (∀ x, x < sp' ∨ sp ≤ x → b' x = b x) ∧ args_at b' l argv
    | None => building end_ pd m0 fl0 [] (e_vm s') fl ∧ (MAXARG < argc + Z.of_nat (length argv) ∨ foldl arg_top sp argv < top - PGSIZE)
    end) s.
Proof.
  revert argc sp b s. induction argv as [|arg argv IH]; intros argc sp b s Him Hc Ha Hsp Hargs; cbn [push_args foldl arg_addrs length].
  { apply wp_ret. split; [done|]. split; [done|]. split_and!; [by left|done|lia|done|]. exists b. split_and!; [done|done|constructor]. }
  apply Forall_cons in Hargs as [[Hlen H8] Hargs]. destruct (Z.leb_spec MAXARG argc) as [Hm|Hm].
  { apply wp_ret. split; [done|]. split; [done|]. split; [apply Him|left; lia]. }
  rewrite arg_sp_top by (unfold PGSIZE, KERNBASE in *; lia). pose proof (arg_top_le sp arg) as Hle. pose proof (arg_top_aligned sp arg) as Hal.
  assert (Hlo : sp - PGSIZE ≤ arg_top sp arg) by (unfold arg_top, PGSIZE in *; zdm). set (sp1 := arg_top sp arg) in *. clearbody sp1.
  assert (El : Z.of_nat (length arg) + 1 = Z.of_nat (length (arg ++ [0]))) by (rewrite length_app; cbn; lia). rewrite El in *.
  apply wp_bind, wp_evm. eapply wp_mono; [apply (stack_copyout b (e_vm s) fl sp1 (arg ++ [0]) Him); [lia|lia|rewrite length_app; cbn; lia|]|].
  { apply Forall_app. split; [done|]. by repeat constructor. }
  cbn beta. intros r v1 [(Hin&->&Him1)|(Hout&->&->)]; cbn [Z.ltb Z.compare].
  2:{ apply wp_ret. split; [done|]. split; [done|]. split; [apply Him|right]. pose proof (args_sp_le sp1 argv). lia. }
  apply wp_bind. eapply wp_mono; [apply (IH (argc + 1) sp1 (put_bytes sp1 (arg ++ [0]) b) (Est (e_fs s) v1 (e_proc s))); [done|lia|done|lia|done]|]. cbn [e_vm e_fs e_proc].
  intros o s2 (Ef&Ep&Ho). destruct o as [[sp' l]|].
  2:{ apply wp_ret. split; [done|]. split; [done|]. destruct Ho as [Hb Ho]. split; [done|]. lia. }
  destruct Ho as (Hn&->&Hlo'&->&b'&Him2&Hrest&Hat). apply wp_ret. split; [done|]. split; [done|]. pose proof (args_sp_le sp1 argv) as Hs1.
  split_and!; [right; destruct Hn as [->|Hn]; cbn; lia|done|done|done|]. exists b'. split_and!; [done| |].
  - intros x Hx. rewrite Hrest by lia. apply put_bytes_off. lia.
  - constructor; [|done]. intros k Hk. rewrite Hrest by lia. rewrite put_bytes_at by lia. done.
Qed.

(** ** Words *)

Lemma load32_put a u b j w :
  u !! j = Some w → is_u32 w → load32 (put_bytes a (u ≫= le32) b) (a + 4 * Z.of_nat j) = w.
Proof.
  intros Hj Hw. assert (Hb : ∀ k, 0 ≤ k < 4 → put_bytes a (u ≫= le32) b (a + (4 * Z.of_nat j + k)) = nth (Z.to_nat k) (le32 w) 0).
  { intros k Hk. pose proof (lookup_lt_Some _ _ _ Hj) as Hlt.
    assert (Hlen : ∀ l : list Z, length (l ≫= le32) = (4 * length l)%nat) by (induction l as [|x l IH]; [done|]; cbn in *; lia).
    rewrite put_bytes_at by (rewrite Hlen; lia).
    assert (Et : length (take j u ≫= le32) = (4 * j)%nat) by (rewrite Hlen, length_take; lia).
    rewrite <-(take_drop_middle u j w Hj), bind_app, bind_cons, app_nth2; rewrite Et; [|lia].
    rewrite app_nth1 by (cbn; lia). f_equal. lia. }
  pose proof (Hb 0 ltac:(lia)) as B0. pose proof (Hb 1 ltac:(lia)) as B1. pose proof (Hb 2 ltac:(lia)) as B2. pose proof (Hb 3 ltac:(lia)) as B3.
  rewrite Z.add_0_r in B0. rewrite Z.add_assoc in B1, B2, B3. unfold load32. rewrite B0, B1, B2, B3.
  change (Z.to_nat 0) with 0%nat. change (Z.to_nat 1) with 1%nat. change (Z.to_nat 2) with 2%nat. change (Z.to_nat 3) with 3%nat.
  unfold le32, u8, is_u32 in *. cbn [nth]. clear -Hw. zdm.
Qed.
End stack.

(** ** The new program *)

(** The word at a user address. *)
Definition uword (m : mem) (pd a : Z) : Z := load32 (ubyte m pd) a.

(** The address space [pd] of size [top] is that of a program about to start:
    the program [b], a page that the user cannot touch, and a stack page with
    the arguments, as the calling convention has it on entry to a function. *)
Record started (data_ : Z) (argv : list (list Z)) (pd top esp : Z) (b : Z → Z) (m : mem) : Prop := {
  st_prog va : 0 ≤ va < top - 2 * PGSIZE → has m pd va 7 (b va);
  st_guard va : top - 2 * PGSIZE ≤ va < top - PGSIZE → has m pd va 3 0;
  st_stack va : top - PGSIZE ≤ va < top → present (get_pte m pd va) = true ∧ PTE_FLAGS (get_pte m pd va) = 7;
  st_return : uword m pd esp = 4294967295;
  st_argc : uword m pd (esp + 4) = Z.of_nat (length argv);
  st_argv : uword m pd (esp + 8) = esp + 12;
  st_arg i arg : argv !! i = Some arg → let a := uword m pd (esp + 12 + 4 * Z.of_nat i) in
    esp < a ∧ a + Z.of_nat (length arg) < top ∧
    ∀ k, 0 ≤ k ≤ Z.of_nat (length arg) → ubyte m pd (a + k) = nth (Z.to_nat k) (arg ++ [0]) 0;
  st_null : uword m pd (esp + 12 + 4 * Z.of_nat (length argv)) = 0;
  st_kernel va : top ≤ va < 4294967296 → get_pte m pd va = kvm_pte data_ va;
}.

Lemma arg_addrs_bounds sp argv i a arg :
  arg_addrs sp argv !! i = Some a → argv !! i = Some arg → foldl arg_top sp argv ≤ a ∧ a + Z.of_nat (length arg) + 1 ≤ sp.
Proof.
  revert sp i. induction argv as [|x l IH]; intros sp [|i]; cbn [arg_addrs foldl lookup list_lookup]; try done.
  - intros [= <-] [= <-]. pose proof (args_sp_le (arg_top sp x) l). pose proof (arg_top_le sp x). lia.
  - intros H1 H2. pose proof (IH _ _ H1 H2). pose proof (arg_top_le sp x). lia.
Qed.
Lemma le32_bytes u : Forall is_u8 (u ≫= le32).
Proof.
  induction u as [|x u IH]; [constructor|]. cbn [mbind list_bind]. apply Forall_app. split; [|done].
  repeat constructor; apply u8_range.
Qed.
Lemma length_le32 (u : list Z) : length (u ≫= le32) = (4 * length u)%nat.
Proof. induction u as [|x u IH]; [done|]. cbn in *. lia. Qed.

Section start.
Context (end_ data_ : Z) (He : KERNBASE < end_) (Hd : KERNLINK < data_ < KERNBASE + PHYSTOP).
Context (pd : Z) (m0 : mem) (fl0 : list Z) (top : Z).
Context (Ht : top ≤ KERNBASE) (Htm : top mod PGSIZE = 0) (Ht2 : 2 * PGSIZE ≤ top).
Context (argv : list (list Z)).
Let sp := foldl arg_top top argv.
Let esp := stack_sp top argv.
Let l := arg_addrs top argv.

Lemma image_started b b' s fl :
  image end_ data_ pd m0 fl0 top (guarded top) (put_bytes esp (ustack sp l ≫= le32) b') s fl →
  stack_fits top argv → (∀ x, x < sp → b' x = b x) → args_at b' l argv → (∀ va, top - 2 * PGSIZE ≤ va → b va = 0) →
  started data_ argv pd top esp b (v_mem s).
Proof.
  intros Him [Hn Hfit] Hb Hat Hz. pose proof Him as [_ [F1 F2 _]]. fold esp in Hfit.
  assert (Hsp : sp ≤ top) by apply args_sp_le. assert (Hesp : esp = sp - 4 * (Z.of_nat (length argv) + 4)) by done.
  assert (Hll : length l = length argv) by apply length_addrs.
  assert (Hul : length (ustack sp l) = (length argv + 4)%nat) by (unfold ustack; rewrite !length_app; cbn; lia).
  assert (Hlow : ∀ x, x < esp → put_bytes esp (ustack sp l ≫= le32) b' x = b x).
  { intros x Hx. rewrite put_bytes_off by lia. apply Hb. lia. }
  assert (Hword : ∀ j w, ustack sp l !! j = Some w → is_u32 w → uword (v_mem s) pd (esp + 4 * Z.of_nat j) = w).
  { intros j w Hj Hw. rewrite <-(load32_put esp (ustack sp l) b' j w Hj Hw). apply load32_ext. intros x Hx.
    apply lookup_lt_Some in Hj. destruct (F1 x) as (_&_&E); [unfold PGSIZE in *; lia|done]. }
  assert (Haddr : ∀ i arg, argv !! i = Some arg → ∃ a, l !! i = Some a ∧ sp ≤ a ∧ a + Z.of_nat (length arg) + 1 ≤ top).
  { intros i arg Hi. destruct (lookup_lt_is_Some_2 l i) as [a Ha]; [rewrite Hll; by eapply lookup_lt_Some|].
    exists a. split; [done|]. by apply (arg_addrs_bounds top argv i a arg). }
  assert (Hu : ∀ x, esp ≤ x < top → is_u32 x) by (intros x Hx; unfold is_u32, KERNBASE, PGSIZE in *; lia).
  split.
  - intros va Hva. rewrite <-(Hlow va) by (unfold PGSIZE in *; lia). replace 7 with (guarded top va); [apply F1; unfold PGSIZE in *; lia|].
    unfold guarded, at_page. rewrite bool_decide_eq_false_2; [done|]. unfold PGSIZE in *. zdm.
  - intros va Hva. rewrite <-(guarded_guard top Htm va Hva), <-(Hz va), <-(Hlow va) by (unfold PGSIZE in *; lia). apply F1. unfold PGSIZE in *. lia.
  - intros va Hva. destruct (F1 va) as (?&E&_); [unfold PGSIZE in *; lia|]. split; [done|]. by rewrite E, guarded_stack.
  - rewrite <-(Z.add_0_r esp). by apply (Hword 0%nat).
  - apply (Hword 1%nat); [cbn; by rewrite Hll|]. unfold is_u32, MAXARG in *. lia.
  - assert (Eu : sp -u (Z.of_nat (length l) + 1) * 4 = esp + 12) by (rewrite Hll, u32_id; [lia|unfold is_u32, KERNBASE, PGSIZE in *; lia]).
    apply (Hword 2%nat); [unfold ustack; cbn; by rewrite Eu|]. apply Hu. unfold PGSIZE in *. lia.
  - intros i arg Hi. destruct (Haddr i arg Hi) as (a&Ha&Ha1&Ha2). cbv zeta.
    assert (uword (v_mem s) pd (esp + 12 + 4 * Z.of_nat i) = a) as ->.
    { replace (esp + 12 + 4 * Z.of_nat i) with (esp + 4 * Z.of_nat (3 + i)) by lia. apply Hword; [|apply Hu; lia].
      unfold ustack. rewrite lookup_app_r by (cbn; lia). cbn [length]. replace (3 + i - 3)%nat with i by lia. by rewrite lookup_app_l by (by eapply lookup_lt_Some). }
    split_and!; [lia|lia|]. intros k Hk. destruct (F1 (a + k)) as (_&_&->); [unfold PGSIZE in *; lia|].
    rewrite put_bytes_off by (rewrite length_le32; lia). destruct (Forall2_lookup_l _ _ _ i a Hat Ha) as (arg'&Ea&Hstr).
    rewrite Hi in Ea. injection Ea as <-. by apply Hstr.
  - replace (esp + 12 + 4 * Z.of_nat (length argv)) with (esp + 4 * Z.of_nat (3 + length argv)) by lia. apply Hword; [|done].
    unfold ustack. rewrite app_assoc, lookup_app_r by (rewrite length_app; cbn; lia). rewrite length_app. cbn [length].
    by replace (3 + length argv - (3 + length l))%nat with 0%nat by lia.
  - intros va Hva. apply F2; [unfold is_u32, PGSIZE in *; lia|right; lia].
Qed.

Lemma started_same b m m' :
  started data_ argv pd top esp b m → stack_fits top argv → (∀ va, get_pte m' pd va = get_pte m pd va) →
  (∀ va, umapped m pd va → ubyte m' pd va = ubyte m pd va) → started data_ argv pd top esp b m'.
Proof.
  intros [S1 S2 S3 S4 S5 S6 S7 S8 S9] [Hn Hfit] Hg Hb. fold esp in Hfit.
  assert (Hpres : ∀ va, top - PGSIZE ≤ va < top → ubyte m' pd va = ubyte m pd va).
  { intros va Hva. apply Hb. split; [unfold PGSIZE in *; lia|by apply S3]. }
  assert (Hsp : sp ≤ top) by apply args_sp_le. assert (Hesp : esp = sp - 4 * (Z.of_nat (length argv) + 4)) by done.
  assert (Hw : ∀ a, esp ≤ a → a + 4 ≤ top → uword m' pd a = uword m pd a).
  { intros a H1 H2. apply load32_ext. intros x Hx. apply Hpres. lia. }
  assert (Hh : ∀ va f x, 0 ≤ va < top → has m pd va f x → has m' pd va f x).
  { intros va f x Hva (H1&H2&H3). unfold has. rewrite Hg. split_and!; [done|done|]. rewrite Hb; [done|]. split; [lia|done]. }
  split; rewrite ?Hw by lia; try done.
  - intros va Hva. apply Hh; [unfold PGSIZE in *; lia|by apply S1].
  - intros va Hva. apply Hh; [unfold PGSIZE in *; lia|by apply S2].
  - intros va Hva. rewrite Hg. by apply S3.
  - intros i arg Hi. pose proof (lookup_lt_Some _ _ _ Hi). cbv zeta. rewrite Hw by lia. destruct (S7 i arg Hi) as (H1&H2&H3).
    split_and!; [done|done|]. intros k Hk. rewrite Hpres by lia. by apply H3.
  - intros va Hva. rewrite Hg. by apply S9.
Qed.
End start.

(** ** exec *)

Lemma PGROUNDUP_id a : 0 ≤ a ≤ KERNBASE → a mod PGSIZE = 0 → PGROUNDUP a = a.
Proof. intros Ha Hm. destruct (PGROUNDUP_range a Ha) as (H1&H2&_). unfold PGSIZE in *. zdm. Qed.

Section exec.
Context {B : Type} `{!BlockOps B} (devsw : Z → devops (B := B)) (end_ data_ ts_addr : Z).
Context (He : KERNBASE < end_) (Hda : data_ mod PGSIZE = 0) (Hd : KERNLINK < data_ < KERNBASE + PHYSTOP).
Context (opened : nat → list Z → fss B → Prop) (closed : fss B → Prop) `{!ProgFile devsw opened closed}.

(** A program of [top] bytes with these arguments cannot be started: it does
    not fit below the kernel, the arguments do not fit in the stack, or there
    are too few free pages. *)
Definition too_large (top : Z) (argv : list (list Z)) (fl : list Z) : Prop :=
  KERNBASE ≤ top ∨ ¬ stack_fits top argv ∨ (length fl ≤ 1026 + Z.to_nat (top / PGSIZE))%nat.
(** Why exec fails: there is no such file, it is not a program, or it is too
    large. *)
Definition cannot_exec (o : option (list Z)) (argv : list (list Z)) (fl : list Z) : Prop :=
  match o ≫= program with
  | None => True
  | Some (sz, _) => too_large (PGROUNDUP sz + 2 * PGSIZE) argv fl
  end.
(** The process after exec. *)
Definition exec_proc (p : uproc) (pd top entry esp : Z) (path : list Z) : uproc :=
  UProc pd top (x_kstack p) entry esp (copy_to_name (x_name p) (last_elem path path)) PL2.

Lemma exec_bad_wp pd (oip : option nat) c (s : est B) m0 fl0 fl :
  match oip with Some ip => opened ip c (e_fs s) | None => closed (e_fs s) end → NoDup fl0 →
  (pd = 0 ∧ restored end_ m0 fl0 (e_vm s) ∨ pd ≠ 0 ∧ building end_ pd m0 fl0 [] (e_vm s) fl) →
  wp (exec_bad end_ pd oip) (λ r s', r = -1 ∧ closed (e_fs s') ∧ e_proc s' = e_proc s ∧ restored end_ m0 fl0 (e_vm s')) s.
Proof.
  intros Hf Hnd Hm. unfold exec_bad. apply wp_bind.
  assert (Hfree : wp (when (negb (pd =? 0)) (evm unit (freevm end_ pd))) (λ _ s', e_fs s' = e_fs s ∧ e_proc s' = e_proc s ∧ restored end_ m0 fl0 (e_vm s')) s).
  { destruct Hm as [[-> Hr]|[Hne Hb]]; [by apply wp_ret|]. rewrite (proj2 (Z.eqb_neq pd 0) Hne). cbn [negb when]. apply wp_evm.
    eapply wp_mono; [by apply (building_freevm end_ He pd m0 fl0 (e_vm s) fl)|]. done. }
  eapply wp_mono; [exact Hfree|]. cbn beta. intros _ s1 (Ef&Ep&Hr). apply wp_bind. destruct oip as [ip|].
  - rewrite <-Ef in Hf. pose proof (pf_close devsw ip c (e_fs s1) Hf) as Hcl. apply wp_elim in Hcl as (x&fs'&E&Hc).
    apply bind_Ok in E as ([]&fs1&E1&E2). apply wp_bind, wp_efs. eapply wp_intro; [exact E1|]. apply wp_efs. cbn [e_fs e_vm e_proc].
    eapply wp_intro; [exact E2|]. apply wp_ret. done.
  - apply wp_ret, wp_ret. by rewrite Ef.
Qed.

Section commit.
Context (path : list Z) (argv : list (list Z)) (pd sz entry : Z) (b : Z → Z) (p : uproc) (m0 : mem) (fl0 : list Z).
Context (Hnd : NoDup fl0) (Hsz : 0 ≤ sz < KERNBASE) (Hz : ∀ va, PGROUNDUP sz ≤ va → b va = 0).
Context (Hold : user_ok end_ m0 (x_pgdir p) fl0) (Hks : x_kstack p ≠ 0).
Let top := PGROUNDUP sz + 2 * PGSIZE.

Definition stack_post (r : Z) (s' : est B) : Prop := closed (e_fs s') ∧
  (r = -1 ∧ e_proc s' = p ∧ restored end_ m0 fl0 (e_vm s') ∧ too_large top argv fl0 ∨
   r = 0 ∧ top < KERNBASE ∧ stack_fits top argv ∧ e_proc s' = exec_proc p pd top entry (stack_sp top argv) path ∧
     v_cr3 (e_vm s') = V2P pd ∧ ∃ fl', alloc_ok end_ fl' (e_vm s') ∧
     replaced end_ (x_pgdir p) pd m0 fl0 (v_mem (e_vm s')) fl' ∧
     started data_ argv pd top (stack_sp top argv) b (v_mem (e_vm s'))).

Lemma stack_bad s fl : closed (e_fs s) → e_proc s = p → building end_ pd m0 fl0 [] (e_vm s) fl → too_large top argv fl0 →
  wp (exec_bad end_ pd None) stack_post s.
Proof.
  intros Hcl Ep Hb Hwhy. pose proof (do_page _ _ _ _ (uo_dir _ _ _ _ (bu_user _ _ _ _ _ _ _ Hb))) as Hpd.
  eapply wp_mono; [apply (exec_bad_wp pd None [] s m0 fl0 fl); [done|done|right; unfold kpage, KERNBASE in *; split; [lia|done]]|].
  cbn beta. intros r s' (->&Hc&Ep'&Hres). split; [done|]. left. split_and!; [done|congruence|done|done].
Qed.

(** From [ustack] on. *)
Lemma exec_commit_wp b3 s fl :
  closed (e_fs s) → e_proc s = p → top < KERNBASE → Z.of_nat (length argv) ≤ MAXARG →
  let sp := foldl arg_top top argv in let l := arg_addrs top argv in
  image end_ data_ pd m0 fl0 top (guarded top) b3 (e_vm s) fl → top - PGSIZE ≤ sp →
  (∀ x, x < sp → b3 x = b x) → args_at b3 l argv →
  wp (let u := ustack sp l in
      let n := Z.of_nat (length u) * 4 in
      let sp := sp -u n in
      r ← evm _ (copyout pd sp (u ≫= le32) n);
      if r <? 0 then exec_bad end_ pd None
      else
        p ← gets e_proc;
        let p' := UProc pd top (x_kstack p) entry sp (copy_to_name (x_name p) (last_elem path path)) PL2 in
        modify (λ s, Est (e_fs s) (e_vm s) p');;
        evm _ (switchuvm ts_addr (x_kstack p) pd);;
        evm _ (freevm end_ (x_pgdir p));;
        mret 0) stack_post s.
Proof.
  intros Hcl Ep Hk Hn sp l Him Hsp Hrest Hat. destruct (PGROUNDUP_range sz) as (Hm&Hr&Hrk); [lia|].
  assert (Htm : top mod PGSIZE = 0) by (unfold top, PGSIZE in *; zdm). assert (Ht2 : 2 * PGSIZE ≤ top) by (unfold top; lia).
  assert (Hul : length (ustack sp l) = (length argv + 4)%nat) by (unfold ustack, l; rewrite !length_app, length_addrs; cbn; lia).
  assert (Hsp2 : sp ≤ top) by apply args_sp_le. cbv zeta. rewrite Hul.
  assert (Esp : sp -u Z.of_nat (length argv + 4) * 4 = stack_sp top argv).
  { unfold stack_sp. fold sp. rewrite u32_id by (unfold is_u32, KERNBASE, PGSIZE, MAXARG in *; lia). lia. }
  assert (Elen : Z.of_nat (length argv + 4) * 4 = Z.of_nat (length (ustack sp l ≫= le32))) by (rewrite length_le32, Hul; lia).
  rewrite Esp, Elen. set (esp := stack_sp top argv) in *. assert (Hesp : esp = sp - 4 * (Z.of_nat (length argv) + 4)) by done.
  apply wp_bind, wp_evm. eapply wp_mono.
  { apply (stack_copyout end_ data_ Hd pd m0 fl0 top ltac:(lia) Htm Ht2 b3 (e_vm s) fl esp (ustack sp l ≫= le32) Him).
    - unfold PGSIZE, MAXARG in *. lia.
    - rewrite length_le32. lia.
    - rewrite length_le32. lia.
    - apply le32_bytes. }
  cbn beta. intros r v4 [(Hfit&->&Him4)|(Hout&->&->)]; cbn [Z.ltb Z.compare].
  2:{ eapply stack_bad; [done|done|apply Him|]. right. left. intros [_ Hf]. fold esp in Hf. lia. }
  assert (Hfits : stack_fits top argv) by done.
  pose proof (image_started end_ data_ pd m0 fl0 top ltac:(lia) Htm Ht2 argv b b3 v4 fl Him4 Hfits Hrest Hat) as Hst.
  pose proof (do_page _ _ _ _ (uo_dir _ _ _ _ (bu_user _ _ _ _ _ _ _ (proj1 Him4)))) as Hpd.
  apply wp_bind, wp_gets, wp_bind, wp_modify. cbn [e_fs e_vm e_proc]. rewrite Ep. apply wp_bind, wp_evm. cbn [e_fs e_vm e_proc].
  assert (∃ v5, switchuvm ts_addr (x_kstack p) pd v4 = Ok tt v5 ∧ v_k v5 = v_k v4 ∧ v_cr3 v5 = V2P pd) as (v5&E5&Ek5&Ec5).
  { unfold switchuvm. rewrite (proj2 (Z.eqb_neq _ 0) Hks), (proj2 (Z.eqb_neq pd 0)) by (unfold kpage, KERNBASE in *; lia). eexists. done. }
  eapply wp_intro; [exact E5|]. apply wp_bind, wp_evm. cbn [e_fs e_vm e_proc].
  assert (Em5 : v_mem v5 = v_mem v4) by (unfold v_mem; by rewrite Ek5).
  destruct (wp_elim _ _ _ (freevm_replaced end_ data_ He Hd (x_pgdir p) pd m0 fl0 v5 fl ltac:(by eapply building_vk, Him4) Hold))
    as (x&v6&E6&fl'&Ha6&Hre&Hg6&Hb6). eapply wp_intro; [exact E6|]. apply wp_ret. cbn [e_fs e_vm e_proc]. rewrite Em5 in Hg6, Hb6.
  split; [done|]. right. refine (conj eq_refl (conj Hk (conj Hfits (conj eq_refl (conj _ _))))); [cbn [e_vm]; by rewrite (freevm_cr3 _ _ _ _ _ E6)|].
  exists fl'. split; [done|]. split; [done|].
  apply (started_same data_ pd top ltac:(lia) Ht2 argv b (v_mem v4)); [|done|done|done]. apply Hst. intros va Hva. apply Hz. unfold top in Hva. lia.
Qed.

Lemma exec_stack_wp s fl :
  image end_ data_ pd m0 fl0 (PGROUNDUP sz) (λ _, 7) b (e_vm s) fl → closed (e_fs s) → e_proc s = p →
  Forall (λ a, Z.of_nat (length a) < PGSIZE ∧ Forall is_u8 a) argv →
  wp (exec_stack end_ ts_addr path argv pd sz entry) stack_post s.
Proof.
  intros Him Hcl Ep Hargs. destruct (PGROUNDUP_range sz) as (Hm&Hr&Hrk); [lia|].
  unfold exec_stack. rewrite (u32_id (PGROUNDUP sz + 2 * PGSIZE)) by (unfold is_u32, KERNBASE, PGSIZE in *; lia). fold top.
  apply wp_bind, wp_evm. eapply wp_mono.
  { apply (image_alloc end_ data_ He Hd pd m0 fl0 b (e_vm s) fl (PGROUNDUP sz) top); rewrite ?PGROUNDUP_id by lia; try done; [lia|].
    unfold is_u32, top, KERNBASE, PGSIZE in *. lia. }
  cbn beta. intros r v1 (fl1&[(Hk&->&Him1)|(->&Hb1&Hbig)]).
  2:{ cbn [Z.eqb]. eapply stack_bad; [done|done|exact Hb1|]. unfold too_large. tauto. }
  rewrite Z.max_r in * by (unfold top, PGSIZE in *; lia). rewrite (proj2 (Z.eqb_neq top 0)) by (unfold top, PGSIZE in *; lia).
  assert (Htm : top mod PGSIZE = 0) by (unfold top, PGSIZE in *; zdm). assert (Ht2 : 2 * PGSIZE ≤ top) by (unfold top; lia).
  rewrite PGROUNDUP_id in Him1 by (unfold PGSIZE in *; lia). rewrite (u32_id (top - 2 * PGSIZE)) by (unfold is_u32, KERNBASE, PGSIZE in *; lia).
  apply wp_bind, wp_evm. cbn [e_vm e_fs e_proc].
  eapply wp_mono; [apply (image_clear end_ data_ Hd pd m0 fl0 top b v1 fl1 (top - 2 * PGSIZE) Him1); [lia|unfold PGSIZE in *; lia]|].
  cbn beta. intros _ v2 Him2. fold (guarded top) in Him2. apply wp_bind.
  eapply wp_mono; [apply (push_args_wp end_ data_ Hd pd m0 fl0 top ltac:(lia) Htm Ht2 argv 0 top b _ fl1); cbn [e_vm]; try done; unfold PGSIZE in *; (lia || zdm)|].
  cbn [e_vm e_fs e_proc]. intros o s3 (Ef3&Ep3&Ho). destruct o as [[sp l]|].
  2:{ destruct Ho as [Hb3 Hwhy]. eapply stack_bad; [by rewrite Ef3|congruence|exact Hb3|]. right. left. unfold stack_fits, stack_sp. lia. }
  destruct Ho as (Hn&->&Hsp&->&b3&Him3&Hrest&Hat). apply (exec_commit_wp b3 s3 fl1); try done; [by rewrite Ef3|congruence| |].
  - destruct Hn as [->|Hn]; [done|lia].
  - intros x Hx. apply Hrest. by left.
Qed.
End commit.

Section opened.
Context (path : list Z) (argv : list (list Z)) (o : option (list Z)) (s : est B) (fl : list Z).
Let m0 := v_mem (e_vm s).
Let p := e_proc s.
Context (Hc8 : ∀ c, o = Some c → Forall is_u8 c) (Ha : alloc_ok end_ fl (e_vm s)).
Context (Hold : user_ok end_ m0 (x_pgdir p) fl) (Hks : x_kstack p ≠ 0).
Context (Hargs : Forall (λ a, Z.of_nat (length a) < PGSIZE ∧ Forall is_u8 a) argv).

Definition exec_post (r : Z) (s' : est B) : Prop := closed (e_fs s') ∧ ∃ fl', alloc_ok end_ fl' (e_vm s') ∧
  (r = -1 ∧ cannot_exec o argv fl ∧ e_proc s' = p ∧ fl' ≡ₚ fl ∧ spaces_kept end_ m0 fl (v_mem (e_vm s')) fl' ∨
   r = 0 ∧ ∃ c sz b pd, o = Some c ∧ program c = Some (sz, b) ∧ let top := PGROUNDUP sz + 2 * PGSIZE in
     e_proc s' = exec_proc p pd top (elf_entry (elf c)) (stack_sp top argv) path ∧ v_cr3 (e_vm s') = V2P pd ∧
     top < KERNBASE ∧ stack_fits top argv ∧ started data_ argv pd top (stack_sp top argv) b (v_mem (e_vm s')) ∧
     replaced end_ (x_pgdir p) pd m0 fl (v_mem (e_vm s')) fl').

Lemma failed_post s' :
  closed (e_fs s') → e_proc s' = p → restored end_ m0 fl (e_vm s') → cannot_exec o argv fl → exec_post (-1) s'.
Proof.
  intros Hcl Ep (fl'&Ha'&Hpm&Hk) Hwhy. split; [done|]. exists fl'. split; [done|]. left. split_and!; [done|done|done|done|].
  apply spaces_keeps; [done|intros q; by rewrite Hpm|apply Ha'].
Qed.
Lemma bad_post pd c ip s1 fl1 : opened ip c (e_fs s1) → e_proc s1 = p →
  (pd = 0 ∧ restored end_ m0 fl (e_vm s1) ∨ pd ≠ 0 ∧ building end_ pd m0 fl [] (e_vm s1) fl1) → cannot_exec o argv fl →
  wp (exec_bad end_ pd (Some ip)) exec_post s1.
Proof.
  intros Ho Ep Hm Hwhy. eapply wp_mono; [apply (exec_bad_wp pd (Some ip) c s1 m0 fl fl1 Ho); [apply Ha|done]|].
  cbn beta. intros r s' (->&Hcl&Ep'&Hres). apply failed_post; [done|congruence|done|done].
Qed.

(** What [exec] does with the locked inode. *)
Lemma exec_opened_wp ip c fs :
  o = Some c → opened ip c fs →
  wp ('(r, elf) ← efs (readi devsw ip 0 sizeof_elfhdr);
      if negb (r =? sizeof_elfhdr) then exec_bad end_ 0 (Some ip)
      else if negb (elf_magic elf =? ELF_MAGIC) then exec_bad end_ 0 (Some ip)
      else
        pgdir ← evm _ (setupkvm end_ data_);
        if pgdir =? 0 then exec_bad end_ 0 (Some ip)
        else
          o ← load_segments devsw end_ ip pgdir (Z.to_nat (elf_phnum elf)) (elf_phoff elf) 0;
          match o with
          | None => exec_bad end_ pgdir (Some ip)
          | Some sz =>
              efs (iunlockput ip);;
              efs (blk end_op);;
              exec_stack end_ ts_addr path argv pgdir sz (elf_entry elf)
          end) exec_post (Est fs (e_vm s) p).
Proof.
  intros Eo Ho. pose proof (Hc8 c Eo) as Hc. pose proof (fp_nodup _ _ _ (ao_free _ _ _ Ha)) as Hnd.
  assert (Hsame : restored end_ m0 fl (e_vm s)) by (exists fl; split_and!; done).
  assert (Hnone : program c = None → cannot_exec o argv fl) by (intros E; unfold cannot_exec; rewrite Eo; cbn; by rewrite E).
  destruct (read_exact devsw opened closed ip c fs 0 sizeof_elfhdr Ho) as [Er1 Er2]; [done|done|].
  apply wp_bind, wp_efs. eapply wp_mono; [by apply (pf_read devsw ip c fs 0 sizeof_elfhdr Ho)|]. cbn [e_fs e_vm e_proc].
  intros [r h] fs1 [Erl Ho1]. rewrite <-Erl in Er1, Er2. cbn [fst snd] in Er1, Er2. rewrite Er1. unfold program in Hnone. fold (elf c) in *.
  destruct (Z.eqb_spec (Z.of_nat (length (elf c))) sizeof_elfhdr) as [El|El]; cbn [negb orb] in *; [|by apply (bad_post 0 c ip _ []); [..|left|apply Hnone]].
  apply Z.eqb_eq in Er1. rewrite (Er2 Er1). clear r Erl Er1 Er2.
  destruct (elf_magic (elf c) =? ELF_MAGIC) eqn:Emag; cbn [negb] in *; [|by apply (bad_post 0 c ip _ []); [..|left|apply Hnone]].
  assert (Hprog : program c = segments c (Z.to_nat (elf_phnum (elf c))) (elf_phoff (elf c)) 0 (λ _, 0)).
  { unfold program. by rewrite (proj2 (Z.eqb_eq _ _) El), Emag. }
  assert (Hlarge : ∀ n, (length fl ≤ 1026 + n)%nat →
    (∀ sz b, program c = Some (sz, b) → (n ≤ Z.to_nat ((PGROUNDUP sz + 2 * PGSIZE) / PGSIZE))%nat) → cannot_exec o argv fl).
  { intros n Hn Hle. unfold cannot_exec. rewrite Eo. cbn. destruct (program c) as [[sz b]|]; [|done]. right. right.
    specialize (Hle sz b eq_refl). lia. }
  apply wp_bind, wp_evm. cbn [e_fs e_vm e_proc]. eapply wp_mono; [by apply (setupkvm_wp end_ data_ He Hda Hd (e_vm s) fl)|]. cbn beta.
  intros pd v1 [(->&Hr1&Hl)|(Hkd&fl1&Hb1&Hg1)].
  { cbn [Z.eqb]. apply (bad_post 0 c ip _ []); [done|done|by left|]. apply (Hlarge 0%nat); [lia|]. intros. lia. }
  rewrite (proj2 (Z.eqb_neq pd 0)) by (unfold kpage, KERNBASE in *; lia). apply wp_bind.
  eapply wp_mono; [apply (load_segments_wp devsw end_ data_ He Hd opened closed ip c Hc pd m0 fl Hnd _ _ 0 (λ _, 0) _ fl1); cbn [e_fs e_vm]; try done|].
  { split; [done|]. split; [intros va Hva; change (PGROUNDUP 0) with 0 in Hva; lia|intros va Hva _; by apply Hg1|].
    intros va Hva _ Hp. by rewrite (kvm_pte_user data_ Hd va Hva) in Hp. }
  { apply get32_u32, part_bytes, Hc. }
  cbn [e_fs e_vm e_proc]. intros r s2 (Ho2&Ep2&fl2&Hres). destruct r as [sz|].
  2:{ destruct Hres as [Hb2 Hl]. eapply bad_post; [done|done|right; split; [unfold kpage, KERNBASE in *; lia|exact Hb2]|].
      unfold cannot_exec. rewrite Eo. cbn. destruct (program c) as [[sz b]|] eqn:Epr; [|done]. right. right. symmetry in Hprog.
      specialize (Hl sz b Hprog). etrans; [exact Hl|]. apply Nat.add_le_mono_l.
      pose proof (segments_mono _ _ _ _ _ _ _ Hprog). pose proof (segments_below _ _ _ _ _ _ _ Hprog ltac:(done)).
      destruct (PGROUNDUP_range sz) as (_&Hru&_); [lia|]. assert (sz ≤ PGROUNDUP sz + 2 * PGSIZE) by (unfold PGSIZE in *; lia).
      apply Z2Nat.inj_le; [unfold PGSIZE in *; zdm..|]. by apply Z.div_le_mono. }
  destruct Hres as (Hszr&b&Eseg&Him&Hz). rewrite <-Hprog in Eseg.
  pose proof (pf_close devsw ip c (e_fs s2) Ho2) as Hcl. apply wp_elim in Hcl as (x&fs'&E&Hcl).
  apply bind_Ok in E as ([]&fs2&E1&E2). apply wp_bind, wp_efs. eapply wp_intro; [exact E1|]. apply wp_bind, wp_efs. cbn [e_fs e_vm e_proc].
  eapply wp_intro; [exact E2|].
  eapply wp_mono; [apply (exec_stack_wp path argv pd sz (elf_entry (elf c)) b p m0 fl Hnd Hszr Hz Hold Hks _ fl2); cbn [e_fs e_vm e_proc]; try done|].
  intros r s' (Hcl'&[(->&Ep'&Hres&Hwhy)|(->&Ht&Hfit&Ep'&Ec&fl'&Ha'&Hre&Hst)]).
  - apply failed_post; [done|done|done|]. unfold cannot_exec. rewrite Eo. cbn. by rewrite Eseg.
  - split; [done|]. exists fl'. split; [done|]. right. split; [done|]. by exists c, sz, b, pd.
Qed.
End opened.

(** C29. [exec] starts a program or leaves everything as it was.  It always
    returns.  If the path names a file that is an executable, whose segments and
    stack fit below the kernel and in the free pages and whose arguments fit in
    the stack page, the process has a new address space made of pages that were
    free: its memory is that of the segments of the file, followed by a page
    that the user cannot touch and a stack with the arguments; the process
    starts at the entry point of the file with the stack pointer at the fake
    return address that precedes the arguments; it has the size of that
    memory, the name of the file and the second scheduling queue; the page table
    register points to the new directory, and all the pages of the old address
    space are free.  Otherwise the result is -1, the process is as it was and
    exactly the pages that were free are free.  In both cases the address
    spaces of all other processes keep their mappings and contents, and the
    file has been released. *)
Theorem exec_loads path argv o (s : est B) fl :
  names devsw opened closed path o (e_fs s) → (∀ c, o = Some c → Forall is_u8 c) →
  alloc_ok end_ fl (e_vm s) → user_ok end_ (v_mem (e_vm s)) (x_pgdir (e_proc s)) fl → x_kstack (e_proc s) ≠ 0 →
  Forall (λ a, Z.of_nat (length a) < PGSIZE ∧ Forall is_u8 a) argv →
  wp (exec devsw end_ data_ ts_addr path argv) (λ r s', closed (e_fs s') ∧ ∃ fl', alloc_ok end_ fl' (e_vm s') ∧
    (r = -1 ∧ cannot_exec o argv fl ∧ e_proc s' = e_proc s ∧ fl' ≡ₚ fl ∧
       spaces_kept end_ (v_mem (e_vm s)) fl (v_mem (e_vm s')) fl' ∨
     r = 0 ∧ ∃ c sz b pd, o = Some c ∧ program c = Some (sz, b) ∧ let top := PGROUNDUP sz + 2 * PGSIZE in
       e_proc s' = exec_proc (e_proc s) pd top (elf_entry (elf c)) (stack_sp top argv) path ∧ v_cr3 (e_vm s') = V2P pd ∧
       top < KERNBASE ∧ stack_fits top argv ∧ started data_ argv pd top (stack_sp top argv) b (v_mem (e_vm s')) ∧
       replaced end_ (x_pgdir (e_proc s)) pd (v_mem (e_vm s)) fl (v_mem (e_vm s')) fl')) s.
Proof.
  intros Hnames Hc8 Ha Hold Hks Hargs. change (wp (exec devsw end_ data_ ts_addr path argv) (exec_post path argv o s fl) s).
  apply wp_elim in Hnames as (r&fs3&E&Hr). apply bind_Ok in E as ([]&fs1&E1&E). apply bind_Ok in E as (oip&fs2&E2&E).
  unfold exec. apply wp_bind, wp_efs. eapply wp_intro; [exact E1|]. apply wp_bind, wp_efs. cbn [e_fs e_vm e_proc].
  eapply wp_intro; [exact E2|]. destruct oip as [ip|]; apply bind_Ok in E as ([]&fs3'&E3&[= <- ->]).
  - destruct o as [c|]; [|done]. apply wp_bind, wp_efs. cbn [e_fs e_vm e_proc]. eapply wp_intro; [exact E3|]. cbn [e_fs e_vm e_proc].
    by apply (exec_opened_wp path argv (Some c) s fl Hc8 Ha Hold Hks Hargs ip c fs3).
  - destruct o as [c|]; [done|]. apply wp_bind, wp_efs. cbn [e_fs e_vm e_proc]. eapply wp_intro; [exact E3|].
    apply wp_bind, wp_evm, wp_modify, wp_ret. cbn [e_fs e_vm e_proc]. eapply failed_post; [done..| |done].
    exists fl. split_and!; [by destruct Ha; split|done|done].
Qed.
End exec.
