(* ===== verification/Grep.v ===== *)
(** * Searching files: [grep.c]

    The pattern matcher of Kernighan and Pike and the loop of [grep] that
    splits a file into lines.  A C string is the list of its characters
    without the terminating zero.  The matcher is shown equivalent to the
    language that the pattern denotes, and [grep] to selecting lines. *)

From S2P Require Import Prelude.

Definition CARET : Z := 94.
Definition DOLLAR : Z := 36.
Definition PERIOD : Z := 46.
Definition STAR : Z := 42.
Definition NL : Z := 10.

(** [matchstar], with [mh] for [matchhere(re, .)]. *)
Definition matchstar (c : Z) (mh : list Z → bool) : list Z → bool :=
  fix go text :=
    if mh text then true
    else
      match text with
      | [] => false
      | t :: text' => if (t =? c) || (c =? PERIOD) then go text' else false
      end.

Fixpoint matchhere (re : list Z) : list Z → bool :=
  match re with
  | [] => λ _, true
  | c :: re1 =>
      let plain text :=
        if (c =? DOLLAR) && (match re1 with [] => true | _ => false end) then
          match text with [] => true | _ => false end
        else
          match text with
          | [] => false
          | t :: text' => if (c =? PERIOD) || (c =? t) then matchhere re1 text' else false
          end in
      match re1 with
      | b :: re2 => if b =? STAR then matchstar c (matchhere re2) else plain
      | [] => plain
      end
  end.

(** The loop of [match] over the suffixes of the text. *)
Fixpoint match_loop (re text : list Z) : bool :=
  if matchhere re text then true
  else match text with [] => false | _ :: text' => match_loop re text' end.
Definition grep_match (re text : list Z) : bool :=
  match re with
  | c :: re' => if c =? CARET then matchhere re' text else match_loop re text
  | [] => match_loop re text
  end.

(** [strchr(p, NL)]: the text up to the newline and the text after it.  The
    search stops at a zero. *)
Fixpoint find_nl (l : list Z) : option (list Z * list Z) :=
  match l with
  | [] => None
  | c :: l' =>
      if c =? 0 then None
      else if c =? NL then Some ([], l')
      else (λ p, (c :: p.1, p.2)) <$> find_nl l'
  end.

(** The inner loop of [grep] from [p] on: what it writes and where it leaves
    [p].  Each round passes a newline. *)
Fixpoint grep_lines (pattern : list Z) (n : nat) (p : list Z) : list Z * list Z :=
  match n with
  | O => ([], p)
  | S n' =>
      match find_nl p with
      | None => ([], p)
      | Some (line, p') =>
          let '(out, rest) := grep_lines pattern n' p' in
          ((if grep_match pattern line then line ++ [NL] else []) ++ out, rest)
      end
  end.

(** The outer loop: [held] are the [m] bytes kept in the buffer and [input]
    what is left of the file, of which a read takes as much as fits.  [None] if
    it does not return within [n] rounds. *)
Definition BUFSIZE : Z := 1024.
Fixpoint grep_loop (pattern : list Z) (n : nat) (held input : list Z) : option (list Z) :=
  match n with
  | O => None
  | S n' =>
      let room := Z.to_nat (BUFSIZE - Z.of_nat (length held) - 1) in
      match take room input with
      | [] => Some []
      | chunk =>
          let buf := held ++ chunk in
          let '(out, p) := grep_lines pattern (length buf) buf in
          let held' := if (length p =? length buf)%nat then [] else p in
          app out <$> grep_loop pattern n' held' (drop room input)
      end
  end.
Definition grep (pattern input : list Z) : option (list Z) :=
  grep_loop pattern (S (length input)) [] input.

(** ** What a pattern means *)

Inductive item := One (c : Z) | Many (c : Z).
(** The items of a pattern, and whether it must match up to the end. *)
Fixpoint items (re : list Z) : list item * bool :=
  match re with
  | [] => ([], false)
  | c :: re1 =>
      match re1 with
      | b :: re2 =>
          if b =? STAR then (Many c :: (items re2).1, (items re2).2)
          else (One c :: (items re1).1, (items re1).2)
      | [] => if c =? DOLLAR then ([], true) else ([One c], false)
      end
  end.

(** A character of a pattern stands for itself; a period for any character. *)
Definition stands (c t : Z) : Prop := c = PERIOD ∨ c = t.

Inductive lang : list item → list Z → Prop :=
| L_nil : lang [] []
| L_one c t l w : stands c t → lang l w → lang (One c :: l) (t :: w)
| L_many c l u w : Forall (stands c) u → lang l w → lang (Many c :: l) (u ++ w).

(** The text has a prefix in the language of the pattern, which is all of it
    if the pattern ends in a dollar. *)
Definition here (re text : list Z) : Prop :=
  ∃ w post, text = w ++ post ∧ lang (items re).1 w ∧ ((items re).2 = true → post = []).
(** The text has an occurrence of the pattern. *)
Definition occurs (re text : list Z) : Prop :=
  match re with
  | 94 :: re' => here re' text
  | _ => ∃ pre post, text = pre ++ post ∧ here re post
  end.

Lemma matchstar_spec c (mh : list Z → bool) text :
  matchstar c mh text = true ↔ ∃ u post, text = u ++ post ∧ Forall (stands c) u ∧ mh post = true.
Proof.
  induction text as [|t text IH]; cbn.
  { split; [destruct (mh []) eqn:E; [|done]; intros _; exists [], []; split_and!; [done|by constructor|done]|].
    intros (u&post&E&_&Hm). symmetry in E. apply app_eq_nil in E as [-> ->]. by rewrite Hm. }
  destruct (mh (t :: text)) eqn:E.
  { split; [intros _|done]. exists [], (t :: text). split_and!; [done|by constructor|done]. }
  assert ((t =? c) || (c =? PERIOD) = true ↔ stands c t) as Hs.
  { unfold stands. rewrite orb_true_iff, !Z.eqb_eq. intuition congruence. }
  split.
  - destruct (_ || _); [|done]. intros (u&post&->&Hu&Hp)%IH. exists (t :: u), post.
    split_and!; [done|constructor; [by apply Hs|done]|done].
  - intros ([|t' u]&post&Et&Hu&Hp); [simplify_eq/=; congruence|].
    injection Et as <- ->. apply Forall_cons in Hu as [Ht Hu]. apply Hs in Ht as ->.
    apply IH. eauto.
Qed.

Lemma here_many c b re text :
  b = STAR → here (c :: b :: re) text ↔ ∃ u post, text = u ++ post ∧ Forall (stands c) u ∧ here re post.
Proof.
  intros ->. unfold here. cbn [items]. cbn. split.
  - intros (w&post&->&Hl&He). inversion Hl; simplify_eq. rewrite <-app_assoc. eauto 10.
  - intros (u&?&->&Hu&w&post&->&Hl&He). exists (u ++ w), post. rewrite app_assoc.
    split_and!; [done|by constructor|done].
Qed.
Lemma here_one c re t text :
  (c ≠ DOLLAR ∨ re ≠ []) → (∀ b re', re = b :: re' → b ≠ STAR) →
  here (c :: re) (t :: text) ↔ stands c t ∧ here re text.
Proof.
  intros Hd Hb. assert (items (c :: re) = (One c :: (items re).1, (items re).2)) as E.
  { cbn. destruct re as [|b re].
    - destruct (Z.eqb_spec c DOLLAR); [|done]. destruct Hd; done.
    - destruct (Z.eqb_spec b STAR); [|done]. by destruct (Hb b re). }
  unfold here. rewrite E. cbn [fst snd]. split.
  - intros (w&post&Et&Hl&He). inversion Hl; simplify_eq/=. eauto 10.
  - intros (Hs&w&post&->&Hl&He). exists (t :: w), post. split_and!; [done|by constructor|done].
Qed.

(** One character, when no star follows. *)
Lemma matchhere_plain c re text :
  (∀ b re', re = b :: re' → b ≠ STAR) → (∀ t, matchhere re t = true ↔ here re t) →
  matchhere (c :: re) text = true ↔ here (c :: re) text.
Proof.
  intros Hb IH.
  assert (matchhere (c :: re) text = if (c =? DOLLAR) && (match re with [] => true | _ => false end) then
      match text with [] => true | _ => false end
    else match text with [] => false
      | t :: text' => if (c =? PERIOD) || (c =? t) then matchhere re text' else false end) as ->.
  { cbn. destruct re as [|b re]; [done|]. destruct (Z.eqb_spec b STAR); [|done]. by destruct (Hb b re). }
  destruct (Z.eqb_spec c DOLLAR) as [Hd|Hd]; cbn [andb].
  - destruct re as [|b re].
    + unfold here. cbn. rewrite (proj2 (Z.eqb_eq c DOLLAR) Hd). split.
      * destruct text; [|done]. intros _. exists [], []. split_and!; [done|constructor|done].
      * intros (w&post&->&Hl&He). inversion Hl; subst. by rewrite He.
    + destruct text as [|t text].
      * split; [done|]. intros (w&post&E&Hl&_). symmetry in E. apply app_eq_nil in E as [-> _].
        cbn in Hl. destruct (Z.eqb_spec b STAR); [by destruct (Hb b re)|]. by inversion Hl.
      * rewrite here_one by (by auto). rewrite <-IH. unfold stands.
        destruct (Z.eqb_spec c PERIOD), (Z.eqb_spec c t); cbn; intuition done.
  - destruct text as [|t text].
    + split; [done|]. intros (w&post&E&Hl&_). symmetry in E. apply app_eq_nil in E as [-> _].
      cbn in Hl. destruct re as [|b re].
      * destruct (Z.eqb_spec c DOLLAR); [done|]. by inversion Hl.
      * destruct (Z.eqb_spec b STAR); [by destruct (Hb b re)|]. by inversion Hl.
    + rewrite here_one by (by auto). rewrite <-IH. unfold stands.
      destruct (Z.eqb_spec c PERIOD), (Z.eqb_spec c t); cbn; intuition done.
Qed.

Lemma matchhere_spec re text : matchhere re text = true ↔ here re text.
Proof.
  remember (length re) as n eqn:Hn. revert re text Hn.
  induction n as [n IH] using (well_founded_induction lt_wf). intros [|c [|b re]] text ->.
  - split; [|done]. intros _. exists [], text. split_and!; [done|constructor|done].
  - apply matchhere_plain; [done|]. intros t. by apply (IH 0%nat); [cbn; lia|].
  - destruct (decide (b = STAR)) as [Hb|Hb].
    + rewrite (here_many c b re text Hb). cbn [matchhere]. rewrite (proj2 (Z.eqb_eq b STAR) Hb).
      rewrite matchstar_spec. setoid_rewrite (IH (length re)); [done|cbn; lia|done].
    + apply matchhere_plain; [by intros ? ? [= <- <-]|]. intros t. by apply (IH (S (length re))); [cbn; lia|].
Qed.

Lemma match_loop_spec re text :
  match_loop re text = true ↔ ∃ pre post, text = pre ++ post ∧ here re post.
Proof.
  induction text as [|t text IH]; cbn [match_loop]; destruct (matchhere re _) eqn:E.
  - split; [intros _|done]. exists [], []. split; [done|]. by apply matchhere_spec.
  - split; [done|]. intros (pre&post&Et&Hh). symmetry in Et. apply app_eq_nil in Et as [-> ->].
    apply matchhere_spec in Hh. congruence.
  - split; [intros _|done]. exists [], (t :: text). split; [done|]. by apply matchhere_spec.
  - rewrite IH. split; [intros (pre&post&->&Hh); by exists (t :: pre), post|].
    intros ([|t' pre]&post&Et&Hh); [apply matchhere_spec in Hh; simplify_eq/=; congruence|].
    injection Et as -> ->. eauto.
Qed.

(** C33. The matcher is correct: [match(re, text)] is true exactly when the
    text has an occurrence of the pattern, that is a substring in the language
    of its items, at the start of the text if the pattern starts with a caret
    and at the end if it ends in a dollar. *)
Theorem match_correct re text : grep_match re text = true ↔ occurs re text.
Proof.
  unfold grep_match, occurs. destruct re as [|c re]; [apply match_loop_spec|].
  destruct (Z.eqb_spec c CARET) as [->|Hc]; [apply matchhere_spec|]. rewrite match_loop_spec.
  unfold CARET in Hc. repeat case_match; done.
Qed.

(** ** Lines *)

(** The lines of a text, without their newlines, and what follows the last
    newline. *)
Fixpoint split_nl (l : list Z) : list (list Z) * list Z :=
  match l with
  | [] => ([], [])
  | c :: l' =>
      if c =? NL then ([] :: (split_nl l').1, (split_nl l').2)
      else
        match (split_nl l').1 with
        | [] => ([], c :: (split_nl l').2)
        | x :: ls => ((c :: x) :: ls, (split_nl l').2)
        end
  end.
(** The lines in which the pattern occurs. *)
Definition selected (pattern : list Z) (ls : list (list Z)) : list Z :=
  concat ((λ l, l ++ [NL]) <$> filter (λ l, grep_match pattern l = true) ls).

Lemma split_app l r :
  split_nl (l ++ r) = ((split_nl l).1 ++ (split_nl ((split_nl l).2 ++ r)).1, (split_nl ((split_nl l).2 ++ r)).2).
Proof.
  induction l as [|c l IH]; cbn [app split_nl fst snd]; [by destruct (split_nl r)|]. rewrite IH. cbn [fst snd].
  destruct (c =? NL) eqn:Ec; [done|].
  destruct (split_nl l) as [[|x ls] t]; cbn [fst snd app split_nl]; [|done]. rewrite Ec.
  by destruct (split_nl (t ++ r)) as [[|]].
Qed.
Lemma split_rest l : (split_nl l).2 `suffix_of` l ∧ (split_nl (split_nl l).2).1 = [].
Proof.
  induction l as [|c l [IH1 IH2]]; [done|]. cbn [split_nl]. destruct (c =? NL) eqn:Ec; cbn [fst snd];
    [split; [by apply suffix_cons_r|done]|].
  destruct (split_nl l) as [[|x ls] t] eqn:E; cbn [fst snd] in *; [|split; [by apply suffix_cons_r|done]].
  assert (t = l) as ->.
  { clear -E. revert t E. induction l as [|d l IH]; intros t E; cbn in E; [by simplify_eq|].
    destruct (d =? NL); [done|]. destruct (split_nl l) as [[|] u]; simplify_eq/=. by rewrite (IH u). }
  split; [done|]. cbn [split_nl]. by rewrite Ec, E.
Qed.
Lemma selected_app pattern a b : selected pattern (a ++ b) = selected pattern a ++ selected pattern b.
Proof. unfold selected. by rewrite filter_app, fmap_app, concat_app. Qed.
Lemma find_nl_spec l :
  Forall (λ c, c ≠ 0) l →
  match find_nl l with
  | None => split_nl l = ([], l)
  | Some (a, r) => l = a ++ NL :: r ∧ split_nl l = (a :: (split_nl r).1, (split_nl r).2)
  end.
Proof.
  induction 1 as [|c l Hc Hl IH]; [done|]. cbn [find_nl split_nl]. destruct (Z.eqb_spec c 0); [done|].
  destruct (Z.eqb_spec c NL) as [->|Hn]; [done|].
  destruct (find_nl l) as [[a r]|]; cbn [fmap option_fmap option_map fst snd].
  - destruct IH as [-> ->]. done.
  - by rewrite IH.
Qed.

Lemma grep_lines_spec pattern n l :
  Forall (λ c, c ≠ 0) l → (length l ≤ n)%nat →
  grep_lines pattern n l = (selected pattern (split_nl l).1, (split_nl l).2).
Proof.
  revert l. induction n as [|n IH]; intros l Hl Hn; [destruct l; [reflexivity|cbn in Hn; lia]|].
  cbn [grep_lines]. pose proof (find_nl_spec l Hl) as Hf. destruct (find_nl l) as [[a r]|]; [|by rewrite Hf].
  destruct Hf as [-> ->]. rewrite length_app in Hn. cbn [length] in Hn.
  apply Forall_app in Hl as [_ Hr]. apply Forall_cons in Hr as [_ Hr].
  rewrite IH by (done || lia). cbn [fst snd]. f_equal. unfold selected. rewrite filter_cons.
  case_decide as Hd; [by rewrite Hd|]. by destruct (grep_match pattern a).
Qed.

(** Lines that do not fit in the buffer with their newline are lost. *)
Definition short_lines (l : list Z) : Prop := Forall (λ x, Z.of_nat (length x) < BUFSIZE - 1) (split_nl l).1.

Lemma split_prefix l r :
  (split_nl l).1 = [] →
  split_nl (l ++ r) = match (split_nl r).1 with
    | [] => ([], l ++ (split_nl r).2)
    | x :: ls => ((l ++ x) :: ls, (split_nl r).2)
    end.
Proof.
  induction l as [|c l IH]; cbn [app split_nl]; [by destruct (split_nl r) as [[|]]|].
  destruct (c =? NL); [done|]. destruct (split_nl l) as [[|] t]; [|done]. intros _.
  rewrite IH by done. by destruct (split_nl r) as [[|]].
Qed.
Lemma no_newline_yet l r :
  (split_nl l).1 = [] → BUFSIZE - 1 ≤ Z.of_nat (length l) → short_lines (l ++ r) → (split_nl r).1 = [].
Proof.
  intros Hl Hn Hs. unfold short_lines in Hs. rewrite split_prefix in Hs by done.
  destruct (split_nl r) as [[|x ls] t]; [done|]. cbn in Hs. apply Forall_cons in Hs as [Hx _].
  rewrite length_app in Hx. lia.
Qed.

Lemma grep_loop_spec pattern n held input :
  Forall (λ c, c ≠ 0) (held ++ input) → (split_nl held).1 = [] → short_lines (held ++ input) →
  Z.of_nat (length held) < BUFSIZE - 1 → (length input < n)%nat →
  grep_loop pattern n held input = Some (selected pattern (split_nl (held ++ input)).1).
Proof.
  revert held input. induction n as [|n IH]; intros held input Hz Hh Hs Hm Hn; [lia|]. cbn [grep_loop].
  set (room := Z.to_nat (BUFSIZE - Z.of_nat (length held) - 1)).
  assert (0 < room)%nat as Hroom by lia.
  destruct input as [|c input]; [rewrite take_nil, app_nil_r, Hh; reflexivity|].
  destruct (take room (c :: input)) as [|c' chunk] eqn:Et; [by destruct room; [lia|]|]. rewrite <-Et.
  set (l := held ++ take room (c :: input)). set (r := drop room (c :: input)).
  assert (held ++ c :: input = l ++ r) as El by (unfold l, r; by rewrite <-app_assoc, take_drop).
  rewrite El in *. apply Forall_app in Hz as [Hl Hr].
  rewrite grep_lines_spec by (done || lia).
  assert (length r < n)%nat as Hlr by (unfold r; rewrite length_drop; cbn [length] in *; lia).
  destruct (split_rest l) as [Hsuf Hnil].
  destruct (Nat.eqb_spec (length (split_nl l).2) (length l)) as [Ee|Ene].
  - assert ((split_nl l).1 = []) as Hl1.
    { pose proof (find_nl_spec l Hl) as Hf. destruct (find_nl l) as [[a b]|]; [|by rewrite Hf].
      destruct Hf as [Ea Eb]. rewrite Eb in Ee. cbn [snd] in Ee. pose proof (split_rest b) as [Hb%suffix_length _].
      rewrite Ea, length_app in Ee. cbn [length] in Ee. lia. }
    assert ((split_nl r).1 = []) as Hr1.
    { destruct (decide (BUFSIZE - 1 ≤ Z.of_nat (length l))); [by eapply no_newline_yet|].
      unfold r. rewrite drop_ge; [done|]. unfold l in *. rewrite length_app, length_take in *. lia. }
    rewrite Hl1, (IH [] r); cbn [app length]; [|done|done| |unfold BUFSIZE; lia|done].
    + rewrite Hr1, split_prefix, Hr1 by done. done.
    + unfold short_lines. by rewrite Hr1.
  - unfold short_lines in Hs. rewrite split_app in Hs |- *. cbn [fst snd] in *.
    apply Forall_app in Hs as [_ Hs]. rewrite selected_app, (IH _ r); try done.
    + apply Forall_app. split; [|done]. destruct Hsuf as [k Hk]. rewrite Hk in Hl. by apply Forall_app in Hl as [_ ?].
    + apply suffix_length in Hsuf. unfold l in *. rewrite length_app, length_take in *. lia.
Qed.

(** [grep] returns, and prints the lines of the file in which the pattern
    occurs, in order and with their newlines, and nothing else: for a file
    without zero bytes whose lines fit in the buffer.  What follows the last
    newline is not searched. *)
Theorem grep_selects pattern input :
  Forall (λ c, c ≠ 0) input → short_lines input →
  grep pattern input = Some (selected pattern (split_nl input).1).
Proof. intros Hz Hs. apply grep_loop_spec; cbn; try done. lia. Qed.

(** The pattern [^a.*c$] on the lines [abc], [xabc] and [ac]. *)
Lemma grep_selects_witness :
  grep [94; 97; 46; 42; 99; 36] [97; 98; 99; 10; 120; 97; 98; 99; 10; 97; 99; 10; 97; 99] =
    Some [97; 98; 99; 10; 97; 99; 10].
Proof.
  refine (eq_trans (grep_selects [94; 97; 46; 42; 99; 36]
    [97; 98; 99; 10; 120; 97; 98; 99; 10; 97; 99; 10; 97; 99] _ _) _).
  - repeat constructor; done.
  - unfold short_lines. vm_compute. repeat constructor.
  - vm_compute. reflexivity.
Defined.
