(* ===== verification/Sh.v ===== *)
(** * The shell: [sh.c]

    The parser of command lines.  A pointer into the line is the rest of the
    line from there on, so the end [es] is the empty rest and the character at
    it is the terminating zero; a token is the pair of its start and its end.
    [panic] ends the shell's child and is a failure of the monad. *)

From S2P Require Import Prelude.

Definition BAR : Z := 124.
Definition LPAREN : Z := 40.
Definition RPAREN : Z := 41.
Definition SEMI : Z := 59.
Definition AMP : Z := 38.
Definition LT : Z := 60.
Definition GT : Z := 62.
Definition PLUS : Z := 43.
Definition WORD : Z := 97.
Definition whitespace : list Z := [32; 9; 13; 10; 11].
Definition symbols : list Z := [LT; BAR; GT; AMP; SEMI; LPAREN; RPAREN].
Definition O_RDONLY : Z := 0.
Definition O_WRONLY_CREATE : Z := Z.lor 1 512.
Definition MAXARGS : Z := 10.

(** [strchr(l, c)] as a condition. *)
Definition strchr (l : list Z) (c : Z) : bool := bool_decide (c ∈ l).

(** Parsed commands, over the type of their strings. *)
Inductive cmd (W : Type) :=
| EXEC (argv : list W)
| REDIR (c : cmd W) (file : W) (mode fd : Z)
| PIPE (left right : cmd W)
| LIST (left right : cmd W)
| BACK (c : cmd W).
Arguments EXEC {W}.
Arguments REDIR {W}.
Arguments PIPE {W}.
Arguments LIST {W}.
Arguments BACK {W}.

Definition tok : Type := list Z * list Z.
Abbreviation PM := (M (list Z)).

Fixpoint skip_ws (s : list Z) : list Z :=
  match s with
  | c :: s' => if strchr whitespace c then skip_ws s' else s
  | [] => []
  end.
Fixpoint skip_word (s : list Z) : list Z :=
  match s with
  | c :: s' => if strchr whitespace c || strchr symbols c then s else skip_word s'
  | [] => []
  end.

Definition gettoken : PM (Z * tok) :=
  s ← get;
  let q := skip_ws s in
  let '(ret, eq) :=
    match q with
    | [] => (0, [])
    | c :: s =>
        if (c =? BAR) || (c =? LPAREN) || (c =? RPAREN) || (c =? SEMI) || (c =? AMP) || (c =? LT) then (c, s)
        else if c =? GT then
          match s with
          | d :: s' => if d =? GT then (PLUS, s') else (GT, s)
          | [] => (GT, [])
          end
        else (WORD, skip_word q)
    end in
  put (skip_ws eq);;
  mret (ret, (q, eq)).

Definition peek (toks : list Z) : PM bool :=
  modify skip_ws;;
  s ← get;
  mret (match s with [] => false | c :: _ => strchr toks c end).

(** [parseredirs] wraps the command it is given in redirections: it returns
    them in the order of the line. *)
Definition redir : Type := tok * Z * Z.
Definition redircmd {W} (c : cmd W) (r : W * Z * Z) : cmd W := REDIR c r.1.1 r.1.2 r.2.
Definition wrap {W} (c : cmd W) (rs : list (W * Z * Z)) : cmd W := foldl redircmd c rs.

Fixpoint parseredirs (n : nat) : PM (list redir) :=
  match n with
  | O => fail OutOfFuel
  | S n' =>
      b ← peek [LT; GT];
      if (b : bool) then
        '(t, _) ← gettoken;
        '(a, f) ← gettoken;
        if negb (a =? WORD) then panic "missing file for redirection"
        else
          rs ← parseredirs n';
          mret (if t =? LT then (f, O_RDONLY, 0) :: rs
                else if t =? GT then (f, O_WRONLY_CREATE, 1) :: rs
                else if t =? PLUS then (f, O_WRONLY_CREATE, 1) :: rs
                else rs)
      else mret []
  end.
(** Each iteration consumes a token. *)
Definition redirs : PM (list redir) := s ← get; parseredirs (S (length s)).

(** The loop of [parseexec]; [argc] arguments have been stored.  The
    redirections wrap the command whose arguments are still being stored. *)
Fixpoint parseargs (n : nat) (argc : Z) : PM (list tok * list redir) :=
  match n with
  | O => fail OutOfFuel
  | S n' =>
      b ← peek [BAR; RPAREN; AMP; SEMI];
      if (b : bool) then mret ([], [])
      else
        '(t, a) ← gettoken;
        if t =? 0 then mret ([], [])
        else if negb (t =? WORD) then panic "syntax"
        else if MAXARGS <=? argc + 1 then panic "too many args"
        else
          rs ← redirs;
          '(args, rs') ← parseargs n' (argc + 1);
          mret (a :: args, rs ++ rs')
  end.

(** The loop of [parseline] over ampersands. *)
Fixpoint parseback (n : nat) (c : cmd tok) : PM (cmd tok) :=
  match n with
  | O => fail OutOfFuel
  | S n' =>
      b ← peek [AMP];
      if (b : bool) then gettoken;; parseback n' (BACK c) else mret c
  end.

(** [n] bounds the depth of the recursion. *)
Fixpoint parseline (n : nat) : PM (cmd tok) :=
  match n with
  | O => fail OutOfFuel
  | S n' =>
      c ← parsepipe n';
      s ← get;
      c ← parseback (S (length s)) c;
      b ← peek [SEMI];
      if (b : bool) then
        gettoken;;
        r ← parseline n';
        mret (LIST c r)
      else mret c
  end
with parsepipe (n : nat) : PM (cmd tok) :=
  match n with
  | O => fail OutOfFuel
  | S n' =>
      c ← parseexec n';
      b ← peek [BAR];
      if (b : bool) then
        gettoken;;
        r ← parsepipe n';
        mret (PIPE c r)
      else mret c
  end
with parseexec (n : nat) : PM (cmd tok) :=
  match n with
  | O => fail OutOfFuel
  | S n' =>
      b ← peek [LPAREN];
      if (b : bool) then parseblock n'
      else
        rs ← redirs;
        s ← get;
        '(args, rs') ← parseargs (S (length s)) 0;
        mret (wrap (EXEC args) (rs ++ rs'))
  end
with parseblock (n : nat) : PM (cmd tok) :=
  match n with
  | O => fail OutOfFuel
  | S n' =>
      b ← peek [LPAREN];
      if negb b then panic "parseblock"
      else
        gettoken;;
        c ← parseline n';
        b ← peek [RPAREN];
        if negb b then panic "syntax - missing )"
        else
          gettoken;;
          rs ← redirs;
          mret (wrap c rs)
  end.

(** [*e = 0], in a line of length [len] with its terminating zero. *)
Definition put0 (len : nat) (e : list Z) (b : list Z) : list Z := <[(len - length e)%nat := 0]> b.
Fixpoint nulterminate (len : nat) (c : cmd tok) (b : list Z) : list Z :=
  match c with
  | EXEC argv => foldl (λ b a, put0 len a.2 b) b argv
  | REDIR c f _ _ => put0 len f.2 (nulterminate len c b)
  | PIPE l r => nulterminate len r (nulterminate len l b)
  | LIST l r => nulterminate len r (nulterminate len l b)
  | BACK c => nulterminate len c b
  end.

(** Enough for the recursion: between two calls of the same function at least
    one character is consumed. *)
Definition parse_fuel (s : list Z) : nat := 4 * length s + 4.

(** [parsecmd] on the line [s]: the command and the line as it is left. *)
Definition parsecmd (s : list Z) : PM (cmd tok * list Z) :=
  put s;;
  c ← parseline (parse_fuel s);
  peek [];;
  r ← get;
  match r with
  | [] => mret (c, nulterminate (length s) c (s ++ [0]))
  | _ => panic "syntax"
  end.

(** ** Running commands

    [runcmd] as the tree of the system calls it makes, branching on their
    results.  A fork has the child's and the parent's continuation, and the
    parent's gets the pid. *)
Inductive act (W : Type) :=
| Exit
| Exec (argv : list W) (failed : act W)
| Print (msg : string) (arg : option W) (k : act W)
| Close (fd : Z) (k : act W)
| Open (file : W) (mode : Z) (failed : act W) (k : Z → act W)
| MkPipe (failed : act W) (k : Z → Z → act W)
| Dup (fd : Z) (k : act W)
| Fork (failed child : act W) (parent : Z → act W)
| Wait (k : Z → act W)
| Chdir (dir : W) (failed k : act W)
| Mknod (file : W) (major minor : Z) (k : act W).
Arguments Exit {W}.
Arguments Exec {W}.
Arguments Print {W}.
Arguments Close {W}.
Arguments Open {W}.
Arguments MkPipe {W}.
Arguments Dup {W}.
Arguments Fork {W}.
Arguments Wait {W}.
Arguments Chdir {W}.
Arguments Mknod {W}.

(** [panic], and [fork1] followed by [child] in the child. *)
Definition sh_panic {W} (msg : string) : act W := Print msg None Exit.
Definition fork1 {W} (child parent : act W) : act W := Fork (sh_panic "fork") child (λ _, parent).

(** Every branch ends in [exit]: [runcmd] does not return. *)
Fixpoint runcmd {W} (c : cmd W) : act W :=
  match c with
  | EXEC argv =>
      match argv with
      | [] => Exit
      | a :: _ => Exec argv (Print "exec %s failed\n" (Some a) Exit)
      end
  | REDIR c file mode fd =>
      Close fd (Open file mode (Print "open %s failed\n" (Some file) Exit) (λ _, runcmd c))
  | LIST l r => fork1 (runcmd l) (Wait (λ _, runcmd r))
  | PIPE l r =>
      MkPipe (sh_panic "pipe") (λ p0 p1,
        fork1 (Close 1 (Dup p1 (Close p0 (Close p1 (runcmd l)))))
          (fork1 (Close 0 (Dup p0 (Close p0 (Close p1 (runcmd r)))))
            (Close p0 (Close p1 (Wait (λ _, Wait (λ _, Exit)))))))
  | BACK c => fork1 (runcmd c) Exit
  end.
