(* ===== verification/ShPrint.v ===== *)
(** * Printing and parsing commands

    A printer for the shell's commands, and the round trip through the parser. *)

From S2P Require Import Prelude Sh ShThms.

(** Where a command occurs; the parser accepts at each level the commands of
    the next ones, and any command between parentheses at the last. *)
Inductive level := Line | Back | Pipe | Exec.
#[export] Instance level_eq_dec : EqDecision level.
Proof. solve_decision. Defined.

Definition SP : Z := 32.
Definition parens (b : bool) (s : list Z) : list Z :=
  if b then [LPAREN; SP] ++ s ++ [RPAREN; SP] else s.
Definition show_word (w : list Z) : list Z := w ++ [SP].
Definition show_redir (r : list Z * Z * Z) : list Z :=
  [if r.2 =? 0 then LT else GT; SP] ++ show_word r.1.1.
Fixpoint show (v : level) (c : cmd (list Z)) : list Z :=
  match c with
  | EXEC argv => argv ≫= show_word
  | REDIR c f mode fd => show Exec c ++ show_redir (f, mode, fd)
  | PIPE l r => parens (bool_decide (v = Exec)) (show Exec l ++ [BAR; SP] ++ show Pipe r)
  | BACK c => parens (bool_decide (v = Exec ∨ v = Pipe)) (show Back c ++ [AMP; SP])
  | LIST l r => parens (bool_decide (v ≠ Line)) (show Back l ++ [SEMI; SP] ++ show Line r)
  end.

(** Commands that the parser can return: at most nine arguments, made of
    words, and redirections in one of the two modes. *)
Definition word_ok (w : list Z) : Prop := plain w ∧ Forall (λ c, c ≠ 0) w.
Definition redir_ok (r : list Z * Z * Z) : Prop :=
  word_ok r.1.1 ∧ (r.1.2 = O_RDONLY ∧ r.2 = 0 ∨ r.1.2 = O_WRONLY_CREATE ∧ r.2 = 1).
Fixpoint cmd_ok (c : cmd (list Z)) : Prop :=
  match c with
  | EXEC argv => Forall word_ok argv ∧ Z.of_nat (length argv) < MAXARGS
  | REDIR c f mode fd => cmd_ok c ∧ redir_ok (f, mode, fd)
  | PIPE l r | LIST l r => cmd_ok l ∧ cmd_ok r
  | BACK c => cmd_ok c
  end.

Fixpoint cmd_map {W W'} (f : W → W') (c : cmd W) : cmd W' :=
  match c with
  | EXEC argv => EXEC (f <$> argv)
  | REDIR c x mode fd => REDIR (cmd_map f c) (f x) mode fd
  | PIPE l r => PIPE (cmd_map f l) (cmd_map f r)
  | LIST l r => LIST (cmd_map f l) (cmd_map f r)
  | BACK c => BACK (cmd_map f c)
  end.
(** The characters of a token. *)
Definition word_of (t : tok) : list Z := take (length t.1 - length t.2) t.1.
Definition redir_word (r : redir) : list Z * Z * Z := (word_of r.1.1, r.1.2, r.2).

Lemma cmd_map_wrap c rs : cmd_map word_of (wrap c rs) = wrap (cmd_map word_of c) (redir_word <$> rs).
Proof. revert c. induction rs as [|r rs IH]; intros c; [done|]. cbn. apply IH. Qed.
Lemma word_of_app w e : word_of (w ++ e, e) = w.
Proof.
  unfold word_of. cbn. rewrite length_app. replace (length w + length e - length e)%nat with (length w) by lia.
  apply take_app_length.
Qed.

(** The rest of the line is empty or starts with one of these characters. *)
Definition ends (toks : list Z) (s : list Z) : Prop := match s with [] => True | c :: _ => c ∈ toks end.

Lemma ends_mono t t' s : t ⊆ t' → ends t s → ends t' s.
Proof. destruct s; [done|]. cbn. set_solver. Qed.
Lemma ends_skip toks s : ends toks s → (∀ c, c ∈ toks → c ∉ whitespace) → skip_ws s = s.
Proof.
  destruct s as [|c s]; [done|]. cbn. intros Hc Ht. unfold strchr. by rewrite bool_decide_eq_false_2 by auto.
Qed.
Lemma peek_yes toks c s :
  c ∈ toks → c ∉ whitespace → peek toks (c :: s) = Ok true (c :: s).
Proof.
  intros Hc Hw. unfold peek, mbind, M_bind, modify, get, mret, M_ret. cbn. unfold strchr.
  rewrite (bool_decide_eq_false_2 (c ∈ whitespace)) by done. by rewrite bool_decide_eq_true_2.
Qed.
(** The next character is not one of these. *)
Definition avoids (toks : list Z) (s : list Z) : Prop := match s with [] => True | c :: _ => c ∉ toks end.
Lemma ends_avoids t t' s : ends t s → (∀ c, c ∈ t → c ∉ t') → avoids t' s.
Proof. destruct s; [done|]. cbn. auto. Qed.
Lemma avoids_skip s : avoids whitespace s → skip_ws s = s.
Proof. destruct s as [|c s]; [done|]. cbn. intros H. unfold strchr. by rewrite bool_decide_eq_false_2. Qed.
Lemma peek_no toks s : avoids whitespace s → avoids toks s → peek toks s = Ok false s.
Proof.
  intros Hw Ht. unfold peek, mbind, M_bind, modify, get, mret, M_ret. rewrite avoids_skip by done.
  destruct s as [|c s]; [done|]. unfold strchr. by rewrite bool_decide_eq_false_2.
Qed.
Lemma special_false c : special c = false → (c ∉ whitespace) ∧ (c ∉ symbols).
Proof. unfold special, strchr. rewrite orb_false_iff, !bool_decide_eq_false. done. Qed.
Lemma plain_head w s : plain w → avoids (whitespace ++ symbols) (w ++ s).
Proof.
  intros [Hne Hw]. destruct w as [|c w]; [done|]. apply Forall_cons in Hw as [Hc _].
  apply special_false in Hc. change (c ∉ whitespace ++ symbols). rewrite elem_of_app. tauto.
Qed.
Lemma avoids_app t t' s : avoids (t ++ t') s ↔ avoids t s ∧ avoids t' s.
Proof. destruct s as [|c s]; [cbn; tauto|]. unfold avoids. rewrite elem_of_app. tauto. Qed.
Lemma avoids_sub t t' s : t' ⊆ t → avoids t s → avoids t' s.
Proof. destruct s; cbn; [done|]. set_solver. Qed.

(** ** Tokens *)

Lemma gettoken_symbol c s :
  c ∈ [BAR; LPAREN; RPAREN; SEMI; AMP; LT; GT] → avoids whitespace s →
  ∃ t, gettoken (c :: SP :: s) = Ok (c, t) s.
Proof.
  intros Hc Hs. assert (skip_ws (SP :: s) = s) as E by exact (avoids_skip s Hs).
  rewrite !elem_of_cons in Hc. destruct_or! Hc; [..|by apply not_elem_of_nil in Hc].
  all: subst c; eexists; unfold gettoken, mbind, M_bind, get, put, mret, M_ret.
  all: rewrite (avoids_skip (_ :: SP :: s)) by (by apply (bool_decide_unpack _); vm_compute).
  all: refine (eq_trans _ (f_equal (Ok _) E)); reflexivity.
Qed.
Lemma skip_word_app w s : Forall (λ c, special c = false) w → stops s → skip_word (w ++ s) = s.
Proof.
  intros Hw Hs. induction Hw as [|c w Hc _ IH]; cbn [app].
  - destruct s as [|c s]; [done|]. cbn in Hs |- *. change (_ || _) with (special c). by rewrite Hs.
  - cbn. change (_ || _) with (special c). by rewrite Hc.
Qed.
Lemma gettoken_word w s :
  plain w → avoids whitespace s →
  gettoken (w ++ SP :: s) = Ok (WORD, (w ++ SP :: s, SP :: s)) s.
Proof.
  intros Hp Hs. pose proof (plain_head w (SP :: s) Hp) as [Hw Hsym]%avoids_app.
  unfold gettoken, mbind, M_bind, get, put, mret, M_ret. rewrite (avoids_skip (w ++ _)) by done.
  destruct Hp as [Hne Hpl]. rewrite skip_word_app by done. destruct w as [|c w]; [done|]. cbn [app] in *.
  cbn in Hsym. unfold symbols in Hsym. rewrite !not_elem_of_cons in Hsym. destruct Hsym as (H1&H2&H3&H4&H5&H6&H7&_).
  rewrite !(proj2 (Z.eqb_neq _ _)) by done. cbn [orb].
  refine (f_equal (Ok _) _). exact (avoids_skip s Hs).
Qed.

Lemma bind_eq {A B} (m : PM A) (k : A → PM B) s a s' r : m s = Ok a s' → k a s' = r → (m ≫= k) s = r.
Proof. intros E <-. unfold mbind, M_bind. by rewrite E. Qed.

(** ** Redirections and arguments *)

Abbreviation show_redirs rs := (rs ≫= show_redir).

Lemma redirs_avoid rs s : avoids whitespace s → avoids whitespace (show_redirs rs ++ s).
Proof.
  destruct rs as [|r rs]; [done|]. intros _. cbn.
  destruct (r.2 =? 0); by apply (bool_decide_unpack _); vm_compute.
Qed.
Lemma parseredirs_print n rs s :
  (length (show_redirs rs ++ s) < n)%nat → Forall redir_ok rs → avoids (whitespace ++ [LT; GT]) s →
  ∃ rs', parseredirs n (show_redirs rs ++ s) = Ok rs' s ∧ redir_word <$> rs' = rs.
Proof.
  intros Hn Hr [Hw Hs]%avoids_app. revert n Hn. induction Hr as [|[[f md] fd] rs [[Hf _] Hm] Hrs IH]; intros n Hn;
    (destruct n as [|n]; [lia|]); cbn [parseredirs].
  { exists []. split; [|done]. eapply bind_eq; [by apply peek_no|]. done. }
  cbn [fst snd] in *. cbn [mbind list_bind] in *. unfold show_redir at 1 in Hn. rewrite !length_app in Hn.
  destruct (IH n) as (rs'&E&Ers). { rewrite length_app. cbn in Hn. unfold mbind in *. lia. }
  assert (∀ c s', c ∈ [LT; GT] → peek [LT; GT] (c :: s') = Ok true (c :: s')) as Hpk.
  { intros c s' Hc. apply peek_yes; [done|]. rewrite !elem_of_cons in Hc.
    destruct_or! Hc; [..|by apply not_elem_of_nil in Hc]; subst c; by apply (bool_decide_unpack _); vm_compute. }
  pose proof (redirs_avoid rs s Hw) as Hrw.
  set (q := f ++ SP :: (show_redirs rs ++ s)).
  assert (∀ c, show_redir (f, md, fd) = [c; SP] ++ f ++ [SP] →
    (show_redir (f, md, fd) ++ show_redirs rs) ++ s = c :: SP :: q) as Eq.
  { intros c ->. unfold q. by rewrite <-!app_assoc. }
  assert (avoids whitespace q) as Hq by (by apply (avoids_app whitespace symbols), plain_head).
  destruct Hm as [[Hmd Hfd]|[Hmd Hfd]]; rewrite Hmd, Hfd in *.
  - destruct (gettoken_symbol LT q) as [t Et]; [set_solver|done|].
    exists (((q, SP :: (show_redirs rs ++ s)), O_RDONLY, 0) :: rs'). split;
      [|rewrite fmap_cons, Ers; unfold redir_word; cbn [fst snd]; unfold q; by rewrite word_of_app].
    etrans; [by rewrite (Eq LT)|]. eapply bind_eq; [apply Hpk; set_solver|]. eapply bind_eq; [exact Et|].
    eapply bind_eq; [by apply gettoken_word|]. cbn [negb Z.eqb]. eapply bind_eq; [exact E|]. done.
  - destruct (gettoken_symbol GT q) as [t Et]; [set_solver|done|].
    exists (((q, SP :: (show_redirs rs ++ s)), O_WRONLY_CREATE, 1) :: rs'). split;
      [|rewrite fmap_cons, Ers; unfold redir_word; cbn [fst snd]; unfold q; by rewrite word_of_app].
    etrans; [by rewrite (Eq GT)|]. eapply bind_eq; [apply Hpk; set_solver|]. eapply bind_eq; [exact Et|].
    eapply bind_eq; [by apply gettoken_word|]. cbn [negb Z.eqb]. eapply bind_eq; [exact E|]. done.
Qed.
Lemma redirs_print rs s :
  Forall redir_ok rs → avoids (whitespace ++ [LT; GT]) s →
  ∃ rs', redirs (show_redirs rs ++ s) = Ok rs' s ∧ redir_word <$> rs' = rs.
Proof.
  intros Hr Hs. destruct (parseredirs_print (S (length (show_redirs rs ++ s))) rs s) as (rs'&E&Ers); [lia|done|done|].
  exists rs'. split; [|done]. eapply bind_eq; [done|exact E].
Qed.

Definition after_exec : list Z := [BAR; RPAREN; AMP; SEMI].
Lemma after_exec_avoids s :
  ends after_exec s → avoids whitespace s ∧ avoids (whitespace ++ [LT; GT]) s ∧ avoids [LPAREN] s.
Proof.
  intros Hs. assert (avoids (whitespace ++ [LT; GT] ++ [LPAREN]) s) as H.
  { eapply ends_avoids; [exact Hs|]. intros c. apply (Forall_forall (λ c, c ∉ whitespace ++ [LT; GT] ++ [LPAREN])).
    by apply (bool_decide_unpack _); vm_compute. }
  apply avoids_app in H as [H1 [H2 H3]%avoids_app]. split_and!; [done|by apply avoids_app|done].
Qed.

Lemma words_avoid ws s :
  Forall word_ok ws → ws ≠ [] → avoids (whitespace ++ symbols) ((ws ≫= show_word) ++ s).
Proof.
  intros Hw Hne. destruct ws as [|w ws]; [done|]. apply Forall_cons in Hw as [[Hp _] _].
  cbn. unfold show_word at 1. rewrite <-!app_assoc. by apply plain_head.
Qed.

Lemma parseargs_end n argc s : ends after_exec s → parseargs (S n) argc s = Ok ([], []) s.
Proof.
  intros Hs. destruct (after_exec_avoids s Hs) as (Hs1&_&_). cbn [parseargs]. destruct s as [|c s].
  - eapply bind_eq; [by apply peek_no|]. cbn iota. by apply (bind_eq _ _ _ (0, ([], [])) []).
  - eapply bind_eq; [apply peek_yes; [exact Hs|exact Hs1]|]. done.
Qed.
Lemma parseargs_print n argc ws rs s :
  (length ((ws ≫= show_word) ++ show_redirs rs ++ s) < n)%nat → Forall word_ok ws → Forall redir_ok rs →
  (ws = [] → rs = []) → argc + Z.of_nat (length ws) < MAXARGS → ends after_exec s →
  ∃ args rs', parseargs n argc ((ws ≫= show_word) ++ show_redirs rs ++ s) = Ok (args, rs') s ∧
    word_of <$> args = ws ∧ redir_word <$> rs' = rs.
Proof.
  intros Hn Hws Hrs Hnil Hc Hs. destruct (after_exec_avoids s Hs) as (Hs1&Hs2&_).
  revert n argc Hn Hnil Hc. induction Hws as [|w ws [Hw _] Hws IH]; intros n argc Hn Hnil Hc;
    (destruct n as [|n]; [lia|]); cbn [parseargs].
  { rewrite Hnil in * by done. exists [], []. split; [|done]. change (([] ≫= show_word) ++ show_redirs [] ++ s) with s.
    by apply (parseargs_end n argc). }
  set (rest := (ws ≫= show_word) ++ show_redirs rs ++ s).
  assert (((w :: ws) ≫= show_word) ++ show_redirs rs ++ s = w ++ SP :: rest) as E.
  { unfold rest. cbn. unfold show_word at 1. by rewrite <-!app_assoc. }
  rewrite E in *. pose proof (plain_head w (SP :: rest) Hw) as [Hh1 Hh2]%avoids_app.
  rewrite length_app in Hn. cbn [length] in Hn, Hc.
  assert (avoids whitespace rest) as Hrw.
  { unfold rest. destruct ws as [|w' ws]; [by apply redirs_avoid|].
    by apply (avoids_app whitespace symbols), words_avoid. }
  assert (∃ r1 r2 rest', redirs rest = Ok r1 rest' ∧ ∃ args, parseargs n (argc + 1) rest' = Ok (args, r2) s ∧
    word_of <$> args = ws ∧ redir_word <$> (r1 ++ r2) = rs) as (r1&r2&rest'&Er&args&Ea&Ew&Err).
  { destruct ws as [|w' ws].
    - destruct (redirs_print rs s) as (rs'&Er&Ers); [done|done|]. exists rs', [], s. split; [exact Er|].
      exists []. rewrite app_nil_r. split_and!; [|done|done].
      destruct n as [|n]; [lia|]. by apply parseargs_end.
    - destruct (IH n (argc + 1)) as (args&rs'&Ea&Ew&Ers); [unfold rest in Hn; lia|done|lia|].
      exists [], rs', rest. split; [|by exists args].
      assert (avoids (whitespace ++ [LT; GT]) rest) as Hav.
      { eapply avoids_sub; [|by apply (words_avoid (w' :: ws))]. unfold symbols. set_solver. }
      destruct (redirs_print [] rest) as (r0&Er&Hr0); [done|done|]. by apply fmap_nil_inv in Hr0 as ->. }
  exists ((w ++ SP :: rest, SP :: rest) :: args), (r1 ++ r2). split;
    [|rewrite fmap_cons, word_of_app, Ew; done].
  eapply bind_eq.
  { apply peek_no; [done|]. eapply avoids_sub; [|exact Hh2]. unfold symbols. set_solver. }
  cbn iota. eapply bind_eq; [by apply gettoken_word|]. change (WORD =? 0) with false. change (WORD =? WORD) with true.
  cbn [negb]. destruct (Z.leb_spec MAXARGS (argc + 1)); [unfold MAXARGS in *; lia|].
  eapply bind_eq; [exact Er|]. by eapply bind_eq; [exact Ea|].
Qed.

(** ** Commands *)

Lemma parens_avoid b x s : avoids whitespace (x ++ s) → avoids whitespace (parens b x ++ s).
Proof. destruct b; [|done]. intros _. by apply (bool_decide_unpack _); vm_compute. Qed.
Lemma symbol_avoid c s : c ∈ symbols → avoids whitespace (c :: s).
Proof.
  apply (Forall_forall (λ c, c ∉ whitespace)). by apply (bool_decide_unpack _); vm_compute.
Qed.
Lemma show_avoid v c s : cmd_ok c → avoids whitespace s → avoids whitespace (show v c ++ s).
Proof.
  revert v s. induction c as [ws|c IH f md fd|l IHl r IHr|l IHl r IHr|c IH]; intros v s Hc Hs; cbn [show cmd_ok] in *.
  - destruct ws as [|w ws]; [done|]. apply (avoids_app whitespace symbols), words_avoid; [apply Hc|done].
  - rewrite <-app_assoc. apply IH; [apply Hc|]. cbn. destruct (fd =? 0); by apply symbol_avoid; unfold symbols; set_solver.
  - apply parens_avoid. rewrite <-app_assoc. apply IHl; [apply Hc|]. apply symbol_avoid. unfold symbols; set_solver.
  - apply parens_avoid. rewrite <-app_assoc. apply IHl; [apply Hc|]. apply symbol_avoid. unfold symbols; set_solver.
  - apply parens_avoid. rewrite <-app_assoc. apply IH; [apply Hc|]. apply symbol_avoid. unfold symbols; set_solver.
Qed.

Definition after_pipe : list Z := [RPAREN; AMP; SEMI].
Definition exec_claim (c : cmd (list Z)) : Prop := ∀ n rs s,
  (4 * length (show Exec c ++ show_redirs rs ++ s) + 2 ≤ n)%nat → Forall redir_ok rs → ends after_exec s →
  ∃ c' rs', parseexec n (show Exec c ++ show_redirs rs ++ s) = Ok (wrap c' rs') s ∧
    cmd_map word_of c' = c ∧ redir_word <$> rs' = rs.
Definition pipe_claim (c : cmd (list Z)) : Prop := ∀ n s,
  (4 * length (show Pipe c ++ s) + 3 ≤ n)%nat → ends after_pipe s →
  ∃ c', parsepipe n (show Pipe c ++ s) = Ok c' s ∧ cmd_map word_of c' = c.
Definition pipe_back (n : nat) : PM (cmd tok) := c ← parsepipe n; s ← get; parseback (S (length s)) c.
Definition back_claim (c : cmd (list Z)) : Prop := ∀ n s,
  (4 * length (show Back c ++ s) + 3 ≤ n)%nat → ends after_pipe s →
  ∃ c' k, pipe_back n (show Back c ++ s) = parseback k c' s ∧ (length s < k)%nat ∧ cmd_map word_of c' = c.
Definition line_claim (c : cmd (list Z)) : Prop := ∀ n s,
  (4 * length (show Line c ++ s) + 4 ≤ n)%nat → ends [RPAREN] s →
  ∃ c', parseline n (show Line c ++ s) = Ok c' s ∧ cmd_map word_of c' = c.

Lemma ends_ws t s : t ⊆ symbols → ends t s → avoids whitespace s.
Proof. destruct s as [|c s]; [done|]. intros Ht Hc. apply symbol_avoid. by apply Ht. Qed.
Lemma ends_not (c : Z) t s : bool_decide (c ∈ t) = false → ends t s → avoids [c] s.
Proof.
  intros Hc%bool_decide_eq_false Hs. eapply ends_avoids; [exact Hs|]. intros d Hd ->%list_elem_of_singleton. done.
Qed.
Ltac by_symbols := first [exact I | solve [unfold after_exec, after_pipe, symbols; set_solver]].

Lemma pipe_of_exec c : show Pipe c = show Exec c → exec_claim c → pipe_claim c.
Proof.
  intros E HE n s Hn Hs. rewrite E in *. destruct n as [|n]; [lia|].
  destruct (HE n [] s) as (c'&rs'&Ep&Ec&Er); [cbn; lia|done|eapply ends_mono; [|exact Hs]; by_symbols|].
  apply fmap_nil_inv in Er as ->. exists c'. split; [|done]. cbn [parsepipe].
  eapply bind_eq; [exact Ep|]. eapply bind_eq; [apply peek_no|]; [eapply ends_ws; [|exact Hs]; by_symbols| |done].
  eapply ends_not; [|exact Hs]. done.
Qed.
Lemma back_of_pipe c : show Back c = show Pipe c → pipe_claim c → back_claim c.
Proof.
  intros E HP n s Hn Hs. rewrite E in *. destruct (HP n s Hn Hs) as (c'&Ep&Ec).
  exists c', (S (length s)). split_and!; [|lia|done]. unfold pipe_back. eapply bind_eq; [exact Ep|].
  by eapply bind_eq.
Qed.
Lemma parseback_stop k c s : avoids whitespace s → avoids [AMP] s → (length s < k)%nat → parseback k c s = Ok c s.
Proof. intros Hw Ha Hk. destruct k; [lia|]. cbn. by eapply bind_eq; [apply peek_no|]. Qed.
Lemma parseback_amp k c s : avoids whitespace s → parseback (S k) c (AMP :: SP :: s) = parseback k (BACK c) s.
Proof.
  intros Hs. cbn [parseback]. eapply bind_eq.
  { apply peek_yes; [set_solver|]. apply (symbol_avoid AMP []). by_symbols. }
  cbn iota. destruct (gettoken_symbol AMP s) as [t Et]; [set_solver|done|]. by eapply bind_eq.
Qed.
Lemma parseline_eq n s :
  parseline (S n) s = (c ← pipe_back n; b ← peek [SEMI];
    if b : bool then gettoken;; r ← parseline n; mret (LIST c r) else mret c) s.
Proof. cbn [parseline]. unfold pipe_back, mbind, M_bind. by destruct (parsepipe n s). Qed.
Lemma line_of_back c : show Line c = show Back c → back_claim c → line_claim c.
Proof.
  intros E HB n s Hn Hs. rewrite E in *. destruct n as [|n]; [lia|].
  assert (avoids whitespace s) as Hw by (eapply ends_ws; [|exact Hs]; by_symbols).
  destruct (HB n s) as (c'&k&Ep&Hk&Ec); [lia|eapply ends_mono; [|exact Hs]; by_symbols|].
  exists c'. split; [|done]. rewrite parseline_eq. eapply bind_eq.
  { rewrite Ep. apply parseback_stop; [done| |done]. eapply ends_not; [|exact Hs]. done. }
  eapply bind_eq; [apply peek_no; [done|]|done]. eapply ends_not; [|exact Hs]. done.
Qed.
Lemma exec_of_line c :
  show Exec c = parens true (show Line c) → cmd_ok c → line_claim c → exec_claim c.
Proof.
  intros E Hok HL n rs s Hn Hrs Hs. rewrite E in *. destruct (after_exec_avoids s Hs) as (Hs1&Hs2&_).
  set (t := show_redirs rs ++ s) in *. assert (avoids whitespace t) as Ht by (by apply redirs_avoid).
  set (u := RPAREN :: SP :: t). assert (parens true (show Line c) ++ t = LPAREN :: SP :: (show Line c ++ u)) as Eu.
  { unfold u. cbn. by rewrite <-app_assoc. }
  rewrite Eu in *. cbn [length] in Hn. destruct n as [|[|n]]; [lia|lia|].
  destruct (HL n u) as (c'&Ep&Ec); [lia|unfold u; cbn; set_solver|].
  destruct (redirs_print rs s Hrs Hs2) as (rs'&Er&Ers). exists c', rs'. split; [|done].
  assert (avoids whitespace (show Line c ++ u)) as Hav.
  { apply show_avoid; [done|]. apply symbol_avoid. by_symbols. }
  assert (∀ d x, d ∈ symbols → peek [d] (d :: x) = Ok true (d :: x)) as Hpk.
  { intros d x Hd. apply peek_yes; [set_solver|]. by apply (symbol_avoid d []). }
  cbn [parseexec]. eapply bind_eq; [apply Hpk; by_symbols|]. cbn [parseblock].
  eapply bind_eq; [apply Hpk; by_symbols|]. cbn [negb].
  destruct (gettoken_symbol LPAREN (show Line c ++ u)) as [t1 Et1]; [set_solver|done|].
  eapply bind_eq; [exact Et1|]. eapply bind_eq; [exact Ep|]. eapply bind_eq; [apply Hpk; by_symbols|]. cbn [negb].
  destruct (gettoken_symbol RPAREN t) as [t2 Et2]; [set_solver|done|].
  eapply bind_eq; [exact Et2|]. by eapply bind_eq; [exact Er|].
Qed.

Lemma exec_claim_exec ws : cmd_ok (EXEC ws) → exec_claim (EXEC ws).
Proof.
  intros [Hws Hlen] n rs s Hn Hrs Hs. destruct (after_exec_avoids s Hs) as (Hs1&Hs2&Hs3).
  cbn [show] in *. destruct n as [|n]; [lia|]. cbn [parseexec].
  assert (∃ rs1 rs2 s1, redirs ((ws ≫= show_word) ++ show_redirs rs ++ s) = Ok rs1 s1 ∧
    ∃ args, parseargs (S (length s1)) 0 s1 = Ok (args, rs2) s ∧ word_of <$> args = ws ∧
      redir_word <$> (rs1 ++ rs2) = rs) as (rs1&rs2&s1&E1&args&E2&Ew&Er).
  { destruct ws as [|w ws].
    - destruct (redirs_print rs s Hrs Hs2) as (rs'&E&Ers). exists rs', [], s. split; [exact E|].
      exists []. rewrite app_nil_r. split_and!; [by apply parseargs_end|done|done].
    - set (x := ((w :: ws) ≫= show_word) ++ show_redirs rs ++ s).
      destruct (parseargs_print (S (length x)) 0 (w :: ws) rs s) as (args&rs'&E&Ew&Ers); [unfold x; lia|done..|].
      exists [], rs', x. split; [|by exists args].
      destruct (redirs_print [] x) as (r0&Er&Hr0); [done| |by apply fmap_nil_inv in Hr0 as ->].
      eapply avoids_sub; [|by apply (words_avoid (w :: ws))]. unfold symbols. set_solver. }
  exists (EXEC args), (rs1 ++ rs2). split; [|split; [cbn; by rewrite Ew|done]].
  eapply bind_eq.
  { apply peek_no.
    - apply (show_avoid Exec (EXEC ws)); [done|by apply redirs_avoid].
    - destruct ws as [|w ws]; [|eapply avoids_sub; [|by apply (words_avoid (w :: ws))]; unfold symbols; set_solver].
      destruct rs as [|[[f md] fd] rs]; [done|]. cbn. destruct (fd =? 0); set_solver. }
  cbn iota. eapply bind_eq; [exact E1|]. eapply bind_eq; [done|]. by eapply bind_eq; [exact E2|].
Qed.
Lemma exec_claim_redir c f md fd :
  redir_ok (f, md, fd) → exec_claim c → exec_claim (REDIR c f md fd).
Proof.
  intros Hr HE n rs s Hn Hrs Hs. cbn [show] in *.
  assert ((show Exec c ++ show_redir (f, md, fd)) ++ show_redirs rs ++ s =
    show Exec c ++ show_redirs ((f, md, fd) :: rs) ++ s) as E by (rewrite <-app_assoc; f_equal; by rewrite bind_cons, <-app_assoc).
  rewrite E in *. destruct (HE n ((f, md, fd) :: rs) s Hn) as (c'&rs'&Ep&Ec&Er); [by constructor|done|].
  destruct rs' as [|r rs']; [done|]. rewrite fmap_cons in Er. injection Er as Er1 Er2 Er3 Er4.
  exists (redircmd c' r), rs'. split; [exact Ep|]. split; [|done].
  unfold redircmd. cbn. by rewrite Ec, Er1, Er2, Er3.
Qed.
Lemma pipe_claim_pipe l r : cmd_ok r → exec_claim l → pipe_claim r → pipe_claim (PIPE l r).
Proof.
  intros Hok HE HP n s Hn Hs. cbn [show] in *. rewrite bool_decide_eq_false_2 in * by done. cbn [parens] in *.
  set (t := show Pipe r ++ s).
  assert ((show Exec l ++ [BAR; SP] ++ show Pipe r) ++ s = show Exec l ++ show_redirs [] ++ BAR :: SP :: t) as E
    by (unfold t; by rewrite <-!app_assoc).
  rewrite E in *. destruct n as [|n]; [lia|].
  assert (4 * length t + 3 ≤ n)%nat as Ht by (rewrite length_app in Hn; cbn in Hn; lia).
  assert (avoids whitespace t) as Hav by (apply show_avoid; [done|]; eapply ends_ws; [|exact Hs]; by_symbols).
  destruct (HE n [] (BAR :: SP :: t)) as (c'&rs'&Ep&Ec&Er); [lia|done|cbn; by_symbols|].
  apply fmap_nil_inv in Er as ->. destruct (HP n s Ht Hs) as (r'&Epr&Er).
  exists (PIPE c' r'). split; [|cbn; congruence]. cbn [parsepipe].
  eapply bind_eq; [exact Ep|]. eapply bind_eq; [apply peek_yes; [set_solver|]|].
  { apply (symbol_avoid BAR []). by_symbols. }
  cbn iota. destruct (gettoken_symbol BAR t) as [t1 Et1]; [set_solver|done|].
  eapply bind_eq; [exact Et1|]. by eapply bind_eq; [exact Epr|].
Qed.
Lemma back_claim_back c : back_claim c → back_claim (BACK c).
Proof.
  intros HB n s Hn Hs. cbn [show] in *. rewrite bool_decide_eq_false_2 in * by naive_solver. cbn [parens] in *.
  rewrite <-app_assoc in *. destruct (HB n (AMP :: SP :: s)) as (c'&k&Ep&Hk&Ec); [exact Hn|cbn; by_symbols|].
  cbn [length] in Hk. destruct k as [|k]; [lia|]. exists (BACK c'), k. split_and!; [|lia|cbn; congruence].
  etrans; [exact Ep|]. apply parseback_amp. eapply ends_ws; [|exact Hs]. by_symbols.
Qed.
Lemma line_claim_list l r : cmd_ok r → back_claim l → line_claim r → line_claim (LIST l r).
Proof.
  intros Hok HB HL n s Hn Hs. cbn [show] in *. rewrite bool_decide_eq_false_2 in * by naive_solver. cbn [parens] in *.
  set (t := show Line r ++ s).
  assert ((show Back l ++ [SEMI; SP] ++ show Line r) ++ s = show Back l ++ SEMI :: SP :: t) as E
    by (unfold t; by rewrite <-!app_assoc).
  rewrite E in *. destruct n as [|n]; [lia|].
  assert (4 * length t + 4 ≤ n)%nat as Ht by (rewrite length_app in Hn; cbn in Hn; lia).
  assert (avoids whitespace t) as Hav by (apply show_avoid; [done|]; eapply ends_ws; [|exact Hs]; by_symbols).
  destruct (HB n (SEMI :: SP :: t)) as (c'&k&Ep&Hk&Ec); [lia|cbn; by_symbols|].
  destruct (HL n s Ht Hs) as (r'&Epr&Er). exists (LIST c' r'). split; [|cbn; congruence].
  assert (SEMI ∉ whitespace) as Hsw by (apply (symbol_avoid SEMI []); by_symbols).
  rewrite parseline_eq. eapply bind_eq; [etrans; [exact Ep|]; apply parseback_stop; [done| |done]|].
  { cbn. by apply (bool_decide_unpack _); vm_compute. }
  eapply bind_eq; [apply peek_yes; [set_solver|done]|].
  cbn iota. destruct (gettoken_symbol SEMI t) as [t1 Et1]; [set_solver|done|].
  eapply bind_eq; [exact Et1|]. by eapply bind_eq; [exact Epr|].
Qed.

Lemma print_claims c : cmd_ok c → exec_claim c ∧ pipe_claim c ∧ back_claim c ∧ line_claim c.
Proof.
  induction c as [ws|c IH f md fd|l IHl r IHr|l IHl r IHr|c IH]; intros Hok.
  - assert (exec_claim (EXEC ws)) as HE by (by apply exec_claim_exec).
    assert (pipe_claim (EXEC ws)) as HP by (by apply pipe_of_exec).
    assert (back_claim (EXEC ws)) as HB by (by apply back_of_pipe). split_and!; try done. by apply line_of_back.
  - destruct Hok as [Hc Hr]. destruct (IH Hc) as (HE0&_).
    assert (exec_claim (REDIR c f md fd)) as HE by (by apply exec_claim_redir).
    assert (pipe_claim (REDIR c f md fd)) as HP by (by apply pipe_of_exec).
    assert (back_claim (REDIR c f md fd)) as HB by (by apply back_of_pipe). split_and!; try done. by apply line_of_back.
  - pose proof Hok as [Hl Hr]. destruct (IHl Hl) as (HE0&_). destruct (IHr Hr) as (_&HP0&_).
    assert (pipe_claim (PIPE l r)) as HP by (by apply pipe_claim_pipe).
    assert (back_claim (PIPE l r)) as HB by (by apply back_of_pipe).
    assert (line_claim (PIPE l r)) as HL by (by apply line_of_back). split_and!; try done. by apply exec_of_line.
  - pose proof Hok as [Hl Hr]. destruct (IHl Hl) as (_&_&HB0&_). destruct (IHr Hr) as (_&_&_&HL0).
    assert (line_claim (LIST l r)) as HL by (by apply line_claim_list).
    assert (exec_claim (LIST l r)) as HE by (by apply exec_of_line).
    assert (pipe_claim (LIST l r)) as HP by (by apply pipe_of_exec). split_and!; try done. by apply back_of_pipe.
  - destruct (IH Hok) as (_&_&HB0&_). assert (back_claim (BACK c)) as HB by (by apply back_claim_back).
    assert (line_claim (BACK c)) as HL by (by apply line_of_back).
    assert (exec_claim (BACK c)) as HE by (by apply exec_of_line). split_and!; try done. by apply pipe_of_exec.
Qed.

Lemma show_nonzero v c : cmd_ok c → Forall (λ c, c ≠ 0) (show v c).
Proof.
  assert (∀ w, word_ok w → Forall (λ c, c ≠ 0) (show_word w)) as Hw.
  { intros w [_ H]. apply Forall_app. split; [done|]. by constructor. }
  assert (∀ b s, Forall (λ c, c ≠ 0) s → Forall (λ c, c ≠ 0) (parens b s)) as Hp.
  { intros [] s H; [|done]. apply Forall_app. split; [by repeat constructor|]. apply Forall_app. split; [done|].
    by repeat constructor. }
  revert v. induction c as [ws|c IH f md fd|l IHl r IHr|l IHl r IHr|c IH]; intros v Hok; cbn [show cmd_ok] in *.
  - destruct Hok as [Hws _]. induction Hws as [|w ws H _ IH]; [constructor|]. rewrite bind_cons. apply Forall_app; auto.
  - destruct Hok as [Hc [Hf _]]. apply Forall_app. split; [by apply IH|]. unfold show_redir. apply Forall_app.
    split; [|by apply Hw]. constructor; [by destruct (_ =? 0)|by constructor].
  - destruct Hok. apply Hp, Forall_app. split; [by apply IHl|]. apply Forall_app. split; [by repeat constructor|by apply IHr].
  - destruct Hok. apply Hp, Forall_app. split; [by apply IHl|]. apply Forall_app. split; [by repeat constructor|by apply IHr].
  - apply Hp, Forall_app. split; [by apply IH|by repeat constructor].
Qed.
Lemma cmd_map_ext {W W'} (P : W → Prop) (f g : W → W') c :
  (∀ x, P x → f x = g x) → cmd_all P c → cmd_map f c = cmd_map g c.
Proof.
  intros H. induction c; cbn; intros Hc; try (f_equal; naive_solver). f_equal.
  apply list_fmap_ext. intros i x Hx. apply H. by eapply Forall_lookup_1.
Qed.

(** C13. Parsing inverts printing.  The line printed for a command parses,
    and the command that is returned, with its strings read from the line as
    [nulterminate] leaves it, is the command that was printed: precedence,
    grouping by parentheses, backgrounding and redirection are all recovered,
    for commands of any depth. *)
Theorem parse_print c s0 :
  cmd_ok c →
  ∃ c' b, parsecmd (show Line c) s0 = Ok (c', b) [] ∧
    cmd_map (λ t, string_at (length (show Line c)) b t.1) c' = c.
Proof.
  intros Hok. set (l := show Line c). destruct (print_claims c Hok) as (_&_&_&HL).
  destruct (HL (parse_fuel l) []) as (c'&Ep&Ec); [rewrite app_nil_r; unfold parse_fuel, l; lia|done|].
  rewrite app_nil_r in Ep. fold l in Ep. destruct (parse_all l (parse_fuel l) l) as (Hall&_); [done|].
  unfold parses in Hall. rewrite Ep in Hall. destruct Hall as [_ Hc]; [unfold parse_fuel; lia|].
  exists c', (nulterminate (length l) c' (l ++ [0])). split.
  - unfold parsecmd. eapply bind_eq; [done|]. eapply bind_eq; [exact Ep|]. reflexivity.
  - etrans; [|exact Ec]. eapply cmd_map_ext; [|by apply nulterminate_strings; [apply show_nonzero|]].
    cbn beta. intros [q e] (_&E&_). cbn [fst snd] in *. rewrite E at 2. by rewrite word_of_app.
Qed.

(** [( a ; b ) < f | c &] in the grammar of the shell. *)
Definition demo_cmd : cmd (list Z) :=
  BACK (PIPE (REDIR (LIST (EXEC [[97]]) (EXEC [[98]; [120; 121]])) [102] O_RDONLY 0) (EXEC [[99]])).
Lemma parse_print_witness :
  ∃ c' b, parsecmd (show Line demo_cmd) [] = Ok (c', b) [] ∧
    cmd_map (λ t, string_at (length (show Line demo_cmd)) b t.1) c' = demo_cmd.
Proof.
  apply (parse_print demo_cmd []). cbn. unfold redir_ok, word_ok, plain, MAXARGS. cbn.
  repeat first [split | constructor]; try done; try lia.
Defined.
