(* ===== verification/ShRun.v ===== *)
(** * How the shell connects commands

    The descriptor table of the shell's children under the system calls of
    [runcmd], and what each program finds as its input and output. *)

From S2P Require Import Prelude Sh.

(** What a descriptor refers to: a file opened by name, an end of a pipe, or
    something inherited. *)
Inductive obj (W : Type) :=
| Inherited (n : Z)
| Opened (file : W) (mode : Z)
| ReadEnd (pipe : Z)
| WriteEnd (pipe : Z).
Arguments Inherited {W}.
Arguments Opened {W}.
Arguments ReadEnd {W}.
Arguments WriteEnd {W}.

Section run.
Context {W : Type}.
Abbreviation table := (list (option (obj W))).

(** The lowest free descriptor gets [x]. *)
Fixpoint alloc (x : obj W) (t : table) : option (Z * table) :=
  match t with
  | [] => None
  | None :: t' => Some (0, Some x :: t')
  | o :: t' =>
      match alloc x t' with
      | Some (fd, t'') => Some (fd + 1, o :: t'')
      | None => None
      end
  end.
Definition close (fd : Z) (t : table) : table := <[Z.to_nat fd := None]> t.
Definition lookup_fd (fd : Z) (t : table) : option (obj W) := t !! Z.to_nat fd ≫= id.

(** [reaches t a argv t']: a process that performs [a] with descriptors [t],
    or a descendant of it, executes [argv] with descriptors [t'].  Any call may
    fail. *)
Inductive reaches : table → act W → list W → table → Prop :=
| R_exec t argv k : reaches t (Exec argv k) argv t
| R_exec_failed t argv k argv' t' : reaches t k argv' t' → reaches t (Exec argv k) argv' t'
| R_print t msg x k argv t' : reaches t k argv t' → reaches t (Print msg x k) argv t'
| R_close t fd k argv t' : reaches (close fd t) k argv t' → reaches t (Close fd k) argv t'
| R_open t f mode bad k fd t1 argv t' :
    alloc (Opened f mode) t = Some (fd, t1) → reaches t1 (k fd) argv t' → reaches t (Open f mode bad k) argv t'
| R_open_failed t f mode bad k argv t' : reaches t bad argv t' → reaches t (Open f mode bad k) argv t'
| R_pipe t n bad k p0 p1 t1 t2 argv t' :
    alloc (ReadEnd n) t = Some (p0, t1) → alloc (WriteEnd n) t1 = Some (p1, t2) →
    reaches t2 (k p0 p1) argv t' → reaches t (MkPipe bad k) argv t'
| R_pipe_failed t bad k argv t' : reaches t bad argv t' → reaches t (MkPipe bad k) argv t'
| R_dup t fd x k fd' t1 argv t' :
    lookup_fd fd t = Some x → alloc x t = Some (fd', t1) → reaches t1 k argv t' → reaches t (Dup fd k) argv t'
| R_dup_failed t fd k argv t' :
    (lookup_fd fd t = None ∨ ∃ x, lookup_fd fd t = Some x ∧ alloc x t = None) →
    reaches t k argv t' → reaches t (Dup fd k) argv t'
| R_child t bad ch pa argv t' : reaches t ch argv t' → reaches t (Fork bad ch pa) argv t'
| R_parent t bad ch pa pid argv t' : 0 < pid → reaches t (pa pid) argv t' → reaches t (Fork bad ch pa) argv t'
| R_fork_failed t bad ch pa argv t' : reaches t bad argv t' → reaches t (Fork bad ch pa) argv t'
| R_wait t k pid argv t' : reaches t (k pid) argv t' → reaches t (Wait k) argv t'
| R_chdir t d bad k argv t' : reaches t k argv t' → reaches t (Chdir d bad k) argv t'
| R_chdir_failed t d bad k argv t' : reaches t bad argv t' → reaches t (Chdir d bad k) argv t'
| R_mknod t f ma mi k argv t' : reaches t k argv t' → reaches t (Mknod f ma mi k) argv t'.

(** What a command means: which programs it runs, each with its input and
    output, given the input and output of the whole command. *)
Inductive wired : obj W → obj W → cmd W → list W → obj W → obj W → Prop :=
| W_exec i o a argv : wired i o (EXEC (a :: argv)) (a :: argv) i o
| W_input i o c f mode argv i' o' :
    wired (Opened f mode) o c argv i' o' → wired i o (REDIR c f mode 0) argv i' o'
| W_output i o c f mode argv i' o' :
    wired i (Opened f mode) c argv i' o' → wired i o (REDIR c f mode 1) argv i' o'
| W_left i o n l r argv i' o' : wired i (WriteEnd n) l argv i' o' → wired i o (PIPE l r) argv i' o'
| W_right i o n l r argv i' o' : wired (ReadEnd n) o r argv i' o' → wired i o (PIPE l r) argv i' o'
| W_first i o l r argv i' o' : wired i o l argv i' o' → wired i o (LIST l r) argv i' o'
| W_second i o l r argv i' o' : wired i o r argv i' o' → wired i o (LIST l r) argv i' o'
| W_back i o c argv i' o' : wired i o c argv i' o' → wired i o (BACK c) argv i' o'.

(** Descriptors 0, 1 and 2 are open and no others; [n] more are free. *)
Definition stdio (n : nat) (i o e : obj W) : table := Some i :: Some o :: Some e :: replicate n None.

(** Redirections are of descriptors 0 and 1. *)
Fixpoint fds_ok (c : cmd W) : Prop :=
  match c with
  | EXEC _ => True
  | REDIR c _ _ fd => fds_ok c ∧ (fd = 0 ∨ fd = 1)
  | PIPE l r | LIST l r => fds_ok l ∧ fds_ok r
  | BACK c => fds_ok c
  end.

(** ** Inversions *)

Lemma reaches_exit t argv t' : ¬ reaches t Exit argv t'.
Proof. by inversion 1. Qed.
Lemma reaches_dead t msg x argv t' : ¬ reaches t (Print msg x Exit) argv t'.
Proof. inversion 1; subst. by eapply reaches_exit. Qed.
Lemma reaches_wait t k argv t' : reaches t (Wait (λ _, k)) argv t' ↔ reaches t k argv t'.
Proof. split; [by inversion 1|by apply (R_wait _ (λ _, k) 0)]. Qed.
Lemma reaches_close t fd k argv t' : reaches t (Close fd k) argv t' ↔ reaches (close fd t) k argv t'.
Proof. split; [by inversion 1|by constructor]. Qed.
Lemma reaches_fork1 t ch pa argv t' :
  reaches t (fork1 ch pa) argv t' ↔ reaches t ch argv t' ∨ reaches t pa argv t'.
Proof.
  split; [|intros [H|H]; [by apply R_child|by apply (R_parent _ _ _ _ 1)]]. inversion 1; subst; [by left|by right|].
  by edestruct reaches_dead.
Qed.
Lemma reaches_open t f mode msg x k fd t1 argv t' :
  alloc (Opened f mode) t = Some (fd, t1) →
  reaches t (Open f mode (Print msg x Exit) k) argv t' ↔ reaches t1 (k fd) argv t'.
Proof.
  intros E. split; [|by eapply R_open]. inversion 1; subst; [congruence|]. by edestruct reaches_dead.
Qed.
Lemma reaches_dup t fd x fd' t1 k argv t' :
  lookup_fd fd t = Some x → alloc x t = Some (fd', t1) → reaches t (Dup fd k) argv t' ↔ reaches t1 k argv t'.
Proof.
  intros Ex Ea. split; [|by eapply R_dup]. inversion 1; subst; [congruence|].
  match goal with H : _ ∨ _ |- _ => destruct H as [?|(?&?&?)]; congruence end.
Qed.
(** A pipe made with descriptors 0, 1 and 2 open has descriptors 3 and 4. *)
Lemma reaches_pipe n i o e k argv t' :
  reaches (stdio (S (S n)) i o e) (MkPipe (sh_panic "pipe") k) argv t' ↔
  ∃ p, reaches (Some i :: Some o :: Some e :: Some (ReadEnd p) :: Some (WriteEnd p) :: replicate n None)
    (k 3 4) argv t'.
Proof.
  split; [|by intros [p H]; eapply (R_pipe _ p)]. inversion 1; subst; [|by edestruct reaches_dead].
  simplify_eq/=. eauto.
Qed.

Abbreviation with_pipe n i o e p :=
  (Some i :: Some o :: Some e :: Some (ReadEnd p) :: Some (WriteEnd p) :: replicate n None).
Lemma reaches_left n i o e p k argv t' :
  reaches (with_pipe n i o e p) (Close 1 (Dup 4 (Close 3 (Close 4 k)))) argv t' ↔
  reaches (stdio (S (S n)) i (WriteEnd p) e) k argv t'.
Proof. rewrite reaches_close, (reaches_dup _ 4 (WriteEnd p)) by reflexivity. by rewrite !reaches_close. Qed.
Lemma reaches_right n i o e p k argv t' :
  reaches (with_pipe n i o e p) (Close 0 (Dup 3 (Close 3 (Close 4 k)))) argv t' ↔
  reaches (stdio (S (S n)) (ReadEnd p) o e) k argv t'.
Proof. rewrite reaches_close, (reaches_dup _ 3 (ReadEnd p)) by reflexivity. by rewrite !reaches_close. Qed.

(** The shell connects the programs of a command as the command says.
    Started with descriptors 0, 1 and 2, the programs that are executed by
    [runcmd] or its children are those of the command, each with the input and
    output that redirections and pipes give it and the error output of the
    shell, and with no other descriptor open: no end of a pipe is left open in
    a program, so readers see the end of their input. *)
Theorem runcmd_wiring n i o e c argv t' :
  (2 ≤ n)%nat → fds_ok c →
  reaches (stdio n i o e) (runcmd c) argv t' ↔ ∃ i' o', t' = stdio n i' o' e ∧ wired i o c argv i' o'.
Proof.
  intros Hn. destruct n as [|[|n]]; [lia|lia|clear Hn]. revert i o.
  induction c as [[|a ws]|c IH f mode fd|l IHl r IHr|l IHl r IHr|c IH]; intros i o Hok; cbn [runcmd fds_ok] in *.
  - split; [by intros ?%reaches_exit|]. intros (?&?&_&H). by inversion H.
  - split.
    + inversion 1; subst; [|by edestruct reaches_dead]. exists i, o. split; [done|constructor].
    + intros (?&?&->&H). inversion H; subst. constructor.
  - destruct Hok as [Hok Hfd]. rewrite reaches_close. destruct Hfd as [-> | ->].
    + rewrite reaches_open by reflexivity. rewrite (IH (Opened f mode) o Hok).
      split; intros (i'&o'&->&H); exists i', o'; (split; [done|]); [by constructor|by inversion H].
    + rewrite reaches_open by reflexivity. rewrite (IH i (Opened f mode) Hok).
      split; intros (i'&o'&->&H); exists i', o'; (split; [done|]); [by constructor|by inversion H].
  - destruct Hok as [Hl Hr]. rewrite reaches_pipe.
    setoid_rewrite reaches_fork1. setoid_rewrite reaches_fork1. setoid_rewrite reaches_left.
    setoid_rewrite reaches_right. setoid_rewrite reaches_close. setoid_rewrite reaches_close.
    setoid_rewrite reaches_wait. setoid_rewrite reaches_wait.
    split.
    + intros (p&[H%(IHl _ _ Hl)|[H%(IHr _ _ Hr)|[]%reaches_exit]]); destruct H as (i'&o'&->&H); exists i', o';
        (split; [done|]); [by eapply W_left|by eapply W_right].
    + intros (i'&o'&->&H). inversion H; subst; exists n0; [left; apply IHl; eauto|right; left; apply IHr; eauto].
  - destruct Hok as [Hl Hr]. rewrite reaches_fork1, reaches_wait, IHl, IHr by done. split.
    + intros [H|H]; destruct H as (i'&o'&->&H); exists i', o'; (split; [done|]); [by constructor|by apply W_second].
    + intros (i'&o'&->&H). inversion H; subst; eauto.
  - rewrite reaches_fork1, IH by done. split.
    + intros [H|[]%reaches_exit]. destruct H as (i'&o'&->&H). exists i', o'. split; [done|by constructor].
    + intros (i'&o'&->&H). inversion H; subst; eauto.
Qed.
End run.

(** In [a | b > f] program [a] writes to the pipe that [b] reads. *)
Lemma runcmd_wiring_witness :
  let c := PIPE (EXEC ["a"]) (REDIR (EXEC ["b"]) "f" O_WRONLY_CREATE 1) in
  let io := stdio 13 (Inherited 0) (Inherited 1) (Inherited 2) in
  reaches io (runcmd c) ["a"] (stdio 13 (Inherited 0) (WriteEnd 7) (Inherited 2)) ∧
  reaches io (runcmd c) ["b"] (stdio 13 (ReadEnd 7) (Opened "f" O_WRONLY_CREATE) (Inherited 2)).
Proof.
  intros c io. split.
  - refine (proj2 (runcmd_wiring 13 (Inherited 0) (Inherited 1) (Inherited 2) c ["a"] _ _ _) _); [lia|by cbn; auto|].
    do 2 eexists. split; [reflexivity|]. by apply (W_left _ _ 7), W_exec.
  - refine (proj2 (runcmd_wiring 13 (Inherited 0) (Inherited 1) (Inherited 2) c ["b"] _ _ _) _); [lia|by cbn; auto|].
    do 2 eexists. split; [reflexivity|]. by apply (W_right _ _ 7), W_output, W_exec.
Defined.
