(* ===== verification/Umalloc.v ===== *)
(** * The allocator of user programs: [umalloc.c]

    [malloc] and [free] over the circular list of free blocks, in the order of
    their addresses.  The memory is that of the headers: for an address, the
    fields [ptr] and [size] of the header there.  [base] is the address of the
    static header of that name, which lies below the heap. *)

From S2P Require Import Prelude.

Definition sizeof_Header : Z := 8.

Record ust := Ust {
  h_ptr : Z → Z;
  h_size : Z → Z;
  freep : Z;
  u_brk : Z;
  u_lim : Z;
}.
Definition put_at (f : Z → Z) (a v : Z) : Z → Z := λ x, if x =? a then v else f x.
Definition set_ptr (a v : Z) (s : ust) : ust := Ust (put_at (h_ptr s) a v) (h_size s) (freep s) (u_brk s) (u_lim s).
Definition set_size (a v : Z) (s : ust) : ust := Ust (h_ptr s) (put_at (h_size s) a v) (freep s) (u_brk s) (u_lim s).
Definition set_freep (v : Z) (s : ust) : ust := Ust (h_ptr s) (h_size s) v (u_brk s) (u_lim s).
Definition set_brk (v : Z) (s : ust) : ust := Ust (h_ptr s) (h_size s) (freep s) v (u_lim s).

Section umalloc.
Context (base : Z).
Abbreviation UM := (M ust).

(** The system call, for a process whose memory ends at [u_brk] and can grow
    to [u_lim], which the free pages of the machine determine and the process
    cannot see; here other processes neither take nor free any.  It returns the old
    end, or -1 when there is no more memory.  A negative size takes memory away, unless that would take it all. *)
Definition sbrk (n : Z) : UM Z := λ s,
  if 0 <? n then
    if u_lim s <? u_brk s + n then Ok (-1) s else Ok (u_brk s) (set_brk (u_brk s + n) s)
  else if n <? 0 then
    let newsz := u_brk s +u n in
    let sz := if u_brk s <=? newsz then u_brk s else newsz in
    if sz =? 0 then Ok (-1) s else Ok (u_brk s) (set_brk sz s)
  else Ok (u_brk s) s.

(** The loop of [free]: where the block [bp] goes. *)
Fixpoint free_loop (fuel : nat) (bp p : Z) : UM Z :=
  match fuel with
  | O => fail OutOfFuel
  | S f =>
      q ← gets (λ s, h_ptr s p);
      if (p <? bp) && (bp <? q) then mret p
      else if (q <=? p) && ((p <? bp) || (bp <? q)) then mret p
      else free_loop f bp q
  end.
(** The list has no more nodes than there are headers between [base] and the
    end of the memory. *)
Definition list_fuel (s : ust) : nat := S (S (Z.to_nat ((u_brk s - base) / sizeof_Header))).

Definition free (ap : Z) : UM unit :=
  let bp := ap - sizeof_Header in
  s ← get;
  p ← free_loop (list_fuel s) bp (freep s);
  s ← get;
  let q := h_ptr s p in
  (if bp +u sizeof_Header * h_size s bp =? q then
     modify (set_size bp (h_size s bp +u h_size s q));;
     modify (set_ptr bp (h_ptr s q))
   else modify (set_ptr bp q));;
  s ← get;
  (if p +u sizeof_Header * h_size s p =? bp then
     modify (set_size p (h_size s p +u h_size s bp));;
     modify (set_ptr p (h_ptr s bp))
   else modify (set_ptr p bp));;
  modify (set_freep p).

Definition morecore (nu : Z) : UM Z :=
  let nu := if nu <? 4096 then 4096 else nu in
  p ← sbrk (s32 (nu *u sizeof_Header));
  if p =? -1 then mret 0
  else
    modify (set_size p nu);;
    free (p + sizeof_Header);;
    gets freep.

(** The loop of [malloc]. *)
Fixpoint malloc_loop (fuel : nat) (nunits prevp p : Z) : UM Z :=
  match fuel with
  | O => fail OutOfFuel
  | S f =>
      s ← get;
      if nunits <=? h_size s p then
        r ← (if h_size s p =? nunits then
               modify (set_ptr prevp (h_ptr s p));;
               mret p
             else
               let p' := p +u sizeof_Header * (h_size s p -u nunits) in
               modify (set_size p (h_size s p -u nunits));;
               modify (set_size p' nunits);;
               mret p');
        modify (set_freep prevp);;
        mret (r + sizeof_Header)
      else if p =? freep s then
        p ← morecore nunits;
        if p =? 0 then mret 0
        else
          q ← gets (λ s, h_ptr s p);
          malloc_loop f nunits p q
      else malloc_loop f nunits p (h_ptr s p)
  end.

Definition units (nbytes : Z) : Z := (nbytes +u (sizeof_Header - 1)) / sizeof_Header +u 1.
(** The loop goes around the list at most once before memory is added and
    once after that. *)
Definition malloc (nbytes : Z) : UM Z :=
  let nunits := units nbytes in
  s ← get;
  (if freep s =? 0 then
     modify (set_ptr base base);;
     modify (set_freep base);;
     modify (set_size base 0)
   else mret tt);;
  s ← get;
  malloc_loop (2 * list_fuel s + 1) nunits (freep s) (h_ptr s (freep s)).

(** ** The free list *)

(** A block: the address of its header and its size in headers. *)
Abbreviation block := (Z * Z)%type.
Definition in_block (b : block) (x : Z) : Prop := b.1 ≤ x < b.1 + 8 * b.2.
Definition in_blocks (l : list block) (x : Z) : Prop := ∃ b, b ∈ l ∧ in_block b x.

(** The blocks [l] are linked in this order, and the last points to [e]. *)
Definition hd_addr (l : list block) (e : Z) : Z := match l with [] => e | b :: _ => b.1 end.
Fixpoint linked (s : ust) (l : list block) (e : Z) : Prop :=
  match l with
  | [] => True
  | b :: l' => h_size s b.1 = b.2 ∧ h_ptr s b.1 = hd_addr l' e ∧ linked s l' e
  end.
(** They are in the order of their addresses from [lo] on, not empty, with
    space between them, and aligned. *)
Fixpoint spaced (lo : Z) (l : list block) : Prop :=
  match l with
  | [] => True
  | b :: l' => lo < b.1 ∧ 1 ≤ b.2 ∧ b.1 mod 8 = 0 ∧ spaced (b.1 + 8 * b.2) l'
  end.
Definition end_of (lo : Z) (l : list block) : Z := match last l with None => lo | Some b => b.1 + 8 * b.2 end.

Record free_list (s : ust) (l : list block) : Prop := {
  fl_linked : linked s ((base, 0) :: l) base;
  fl_spaced : spaced base l;
  fl_freep : freep s ∈ base :: l.*1;
  fl_range : ∀ x, in_blocks l x → base + 8 ≤ x < u_brk s;
  fl_brk : base + 8 ≤ u_brk s < 2147483648 ∧ u_brk s mod 8 = 0 ∧ u_lim s < 2147483648;
  fl_base : 0 < base;
}.

Lemma put_at_eq f a v : put_at f a v a = v.
Proof. unfold put_at. by rewrite Z.eqb_refl. Qed.
Lemma put_at_ne f a v x : x ≠ a → put_at f a v x = f x.
Proof. unfold put_at. intros. by destruct (Z.eqb_spec x a). Qed.

Lemma hd_addr_app l l' e : hd_addr (l ++ l') e = hd_addr l (hd_addr l' e).
Proof. by destruct l. Qed.
Lemma linked_app s l l' e : linked s (l ++ l') e ↔ linked s l (hd_addr l' e) ∧ linked s l' e.
Proof. induction l as [|b l IH]; cbn; [tauto|]. rewrite IH, hd_addr_app. tauto. Qed.
Lemma linked_frame s s' l e :
  (∀ a, a ∈ l.*1 → h_ptr s' a = h_ptr s a ∧ h_size s' a = h_size s a) → linked s l e → linked s' l e.
Proof.
  induction l as [|b l IH]; [done|]. cbn. intros H (H1&H2&H3). destruct (H b.1) as [-> ->]; [left|].
  split_and!; try done. apply IH; [|done]. intros a Ha. apply H. by right.
Qed.
Lemma end_of_cons lo b l : end_of lo (b :: l) = end_of (b.1 + 8 * b.2) l.
Proof. unfold end_of. rewrite last_cons. by destruct (last l). Qed.
Lemma end_of_app lo l l' : end_of lo (l ++ l') = end_of (end_of lo l) l'.
Proof. revert lo. induction l as [|b l IH]; intros lo; [done|]. cbn [app]. by rewrite !end_of_cons. Qed.
Lemma spaced_app lo l l' : spaced lo (l ++ l') ↔ spaced lo l ∧ spaced (end_of lo l) l'.
Proof.
  revert lo. induction l as [|b l IH]; intros lo; cbn [app spaced]; [unfold end_of; cbn; tauto|].
  rewrite IH, end_of_cons. tauto.
Qed.
Lemma spaced_end lo l : spaced lo l → lo ≤ end_of lo l ∧ 8 * Z.of_nat (length l) ≤ end_of lo l - lo.
Proof.
  revert lo. induction l as [|b l IH]; intros lo; [unfold end_of; cbn; lia|].
  cbn [spaced length]. rewrite end_of_cons. intros (H1&H2&_&H3). apply IH in H3. lia.
Qed.
Lemma spaced_bounds lo l b : spaced lo l → b ∈ l → lo < b.1 ∧ 1 ≤ b.2 ∧ b.1 mod 8 = 0 ∧ b.1 + 8 * b.2 ≤ end_of lo l.
Proof.
  revert lo. induction l as [|c l IH]; intros lo; [intros _ Hb; by apply not_elem_of_nil in Hb|].
  cbn [spaced]. rewrite end_of_cons. intros (H1&H2&H2'&H3) [->|Hb]%elem_of_cons.
  - pose proof (spaced_end _ _ H3). lia.
  - specialize (IH _ H3 Hb). lia.
Qed.
Lemma in_blocks_app l l' x : in_blocks (l ++ l') x ↔ in_blocks l x ∨ in_blocks l' x.
Proof. unfold in_blocks. setoid_rewrite elem_of_app. naive_solver. Qed.
Lemma in_blocks_cons b l x : in_blocks (b :: l) x ↔ in_block b x ∨ in_blocks l x.
Proof. unfold in_blocks. setoid_rewrite elem_of_cons. naive_solver. Qed.
Lemma in_blocks_nil x : ¬ in_blocks [] x.
Proof. intros (b&Hb&_). by apply not_elem_of_nil in Hb. Qed.

(** ** Finding the place of a block *)

Definition stop (bp p q : Z) : bool := (p <? bp) && (bp <? q) || (q <=? p) && ((p <? bp) || (bp <? q)).
Fixpoint passes (bp : Z) (l : list block) (e : Z) : Prop :=
  match l with
  | [] => True
  | b :: l' => stop bp b.1 (hd_addr l' e) = false ∧ passes bp l' e
  end.
Lemma free_loop_step f bp p s :
  free_loop (S f) bp p s = if stop bp p (h_ptr s p) then Ok p s else free_loop f bp (h_ptr s p) s.
Proof.
  unfold stop. cbn. unfold mbind, M_bind, gets. destruct (_ && _); cbn; [done|]. by destruct (_ && _).
Qed.
Lemma free_loop_walk s bp l e f :
  linked s l e → passes bp l e → free_loop (length l + f) bp (hd_addr l e) s = free_loop f bp e s.
Proof.
  induction l as [|b l IH]; [done|]. cbn [linked passes hd_addr length Nat.add]. intros (H1&H2&H3) [H4 H5].
  rewrite free_loop_step, H2, H4. by apply IH.
Qed.
Lemma hd_addr_spaced lo l e : spaced lo l → end_of lo l < e → lo < hd_addr l e ≤ e.
Proof.
  destruct l as [|b l]; [unfold end_of; cbn; lia|]. cbn [spaced hd_addr]. rewrite end_of_cons.
  intros (H1&H2&_&H3) He. apply spaced_end in H3. lia.
Qed.
Lemma passes_below bp lo l p : spaced lo l → end_of lo l < p → p < bp → passes bp l p.
Proof.
  revert lo. induction l as [|b l IH]; intros lo; [done|]. cbn [spaced passes]. rewrite end_of_cons.
  intros (H1&H2&_&H3) Hp Hbp. split; [|by eapply IH]. pose proof (hd_addr_spaced _ _ _ H3 Hp). unfold stop. zcases.
Qed.
Lemma passes_above bp lo l e : spaced lo l → bp ≤ lo → e < bp → passes bp l e.
Proof.
  revert lo. induction l as [|b l IH]; intros lo; [done|]. cbn [spaced passes].
  intros (H1&H2&_&H3) Hp Hbp. split; [|eapply IH; [done|lia|done]].
  destruct l as [|c l]; cbn [hd_addr spaced] in *; unfold stop; zcases.
Qed.

(** The node before the place of a block: the last one of [l], or [base]. *)
Definition last_addr (l : list block) : Z := match last l with None => base | Some b => b.1 end.
Lemma nodes_snoc l : spaced base l → ∃ N k,
  (base, 0) :: l = N ++ [(last_addr l, k)] ∧ end_of base l = last_addr l + 8 * k ∧ 0 ≤ k ∧ base ≤ last_addr l ∧
  ((l = [] ∧ N = [] ∧ k = 0) ∨ ∃ l', l = l' ++ [(last_addr l, k)] ∧ N = (base, 0) :: l' ∧ 1 ≤ k).
Proof.
  intros Hsp. unfold last_addr, end_of. destruct l as [|[a k] l _] using rev_ind.
  - exists [], 0. cbn. split_and!; [done|lia..|]. by left.
  - exists ((base, 0) :: l), k. rewrite last_snoc. cbn [fst snd].
    apply spaced_app in Hsp as [H1 (H2&H3&_)]. apply spaced_end in H1. cbn in *. split_and!; [done|done|lia..|]. right. eauto.
Qed.
Lemma passes_nodes bp l N k :
  spaced base l → (base, 0) :: l = N ++ [(last_addr l, k)] → last_addr l < bp → passes bp N (last_addr l).
Proof.
  intros Hsp HN Hbp. destruct (nodes_snoc l Hsp) as (N'&k'&HN'&_&_&_&Hc). rewrite HN' in HN.
  apply app_inj_2 in HN as [<- _]; [|done]. destruct Hc as [(_&->&_)|(l'&Hl&->&Hk)]; [done|].
  rewrite Hl in Hsp. apply spaced_app in Hsp as [H1 H2]. cbn [spaced fst] in H2. destruct H2 as [H2 _].
  split; [|by eapply passes_below]. pose proof (hd_addr_spaced _ _ _ H1 H2). unfold stop. cbn [fst]. zcases.
Qed.

Lemma fuel_enough s l : free_list s l → (length l + 2 ≤ list_fuel s)%nat.
Proof.
  intros []. apply spaced_end in fl_spaced0 as HH. assert (end_of base l ≤ u_brk s) as He.
  { destruct l as [|b l _] using rev_ind; [unfold end_of; cbn; lia|]. unfold end_of. rewrite last_snoc.
    apply spaced_app in fl_spaced0 as [_ (H1&H2&_)].
    enough (b.1 + 8 * b.2 - 1 < u_brk s) by lia. apply fl_range0. exists b. split; [set_solver|]. unfold in_block. lia. }
  unfold list_fuel, sizeof_Header. enough (Z.of_nat (length l) ≤ (u_brk s - base) / 8) by lia.
  apply Z.div_le_lower_bound; lia.
Qed.

(** The loop of [free] finds the node before the place of the block. *)
Lemma free_place s l1 l2 bp :
  free_list s (l1 ++ l2) → last_addr l1 < bp → spaced bp l2 →
  free_loop (list_fuel s) bp (freep s) s = Ok (last_addr l1) s.
Proof.
  intros Hfl Hbp Hl2. pose proof (fuel_enough _ _ Hfl) as Hfuel. rewrite length_app in Hfuel. destruct Hfl.
  pose proof fl_spaced0 as [Hl1 _]%spaced_app. destruct (nodes_snoc l1 Hl1) as (N&k&HN&Hend&Hk&Hba&Hc).
  assert (HNl : length l1 = length N). { apply (f_equal length) in HN. rewrite length_app in HN. cbn in HN. lia. }
  pose proof (passes_nodes bp _ _ _ Hl1 HN Hbp) as HpN.
  change ((base, 0) :: l1 ++ l2) with (((base, 0) :: l1) ++ l2) in fl_linked0.
  rewrite HN, <- app_assoc in fl_linked0. apply linked_app in fl_linked0 as (HlN&Hlp). cbn [app hd_addr fst] in HlN.
  apply (linked_app s [_] l2) in Hlp as [(_&Hptr&_) HlL]. cbn [hd_addr fst] in Hptr.
  assert (Hstop : ∀ f, free_loop (S f) bp (last_addr l1) s = Ok (last_addr l1) s).
  { intros f. rewrite free_loop_step, Hptr. unfold stop. destruct l2 as [|b l2]; cbn [hd_addr spaced] in *; zcases. }
  assert (HhN : hd_addr N (last_addr l1) = base). { destruct N; cbn in HN |- *; by simplify_eq. }
  assert (Hfr : freep s ∈ (N ++ [(last_addr l1, k)] ++ l2).*1).
  { rewrite app_assoc, <- HN. cbn. rewrite fmap_app. by rewrite fmap_app in fl_freep0. }
  rewrite !fmap_app, !elem_of_app in Hfr. destruct Hfr as [Hfr|[->%list_elem_of_singleton|Hfr]].
  - apply list_elem_of_fmap in Hfr as (b&->&(A&C&->)%list_elem_of_split).
    apply linked_app in HlN as [_ HlN]. rewrite length_app in HNl. cbn [length] in HNl.
    assert (passes bp (b :: C) (last_addr l1)). { clear -HpN. induction A as [|? A IH]; [done|]. destruct HpN. by apply IH. }
    replace (list_fuel s) with (length (b :: C) + S (list_fuel s - length (b :: C) - 1))%nat by (cbn [length]; lia).
    rewrite (free_loop_walk s bp (b :: C) (last_addr l1)); [apply Hstop|done..].
  - replace (list_fuel s) with (S (list_fuel s - 1)) by lia. apply Hstop.
  - apply list_elem_of_fmap in Hfr as (b&->&(A&C&->)%list_elem_of_split).
    apply linked_app in HlL as [_ HlL]. rewrite length_app in Hfuel. cbn [length] in Hfuel.
    apply spaced_app in Hl2 as [Hl2a Hl2b]. apply spaced_end in Hl2a.
    replace (list_fuel s) with (length (b :: C) + (length N + S (list_fuel s - length (b :: C) - length N - 1)))%nat
      by (cbn [length]; lia).
    rewrite (free_loop_walk s bp (b :: C) base); [|done|eapply passes_above; [done|lia..]].
    rewrite <- HhN at 1. rewrite (free_loop_walk s bp N (last_addr l1)); [apply Hstop|done..].
Qed.

(** ** Joining a block with its neighbours *)

Definition join_next (bp p : Z) (s : ust) : ust :=
  let q := h_ptr s p in
  if bp +u sizeof_Header * h_size s bp =? q then set_ptr bp (h_ptr s q) (set_size bp (h_size s bp +u h_size s q) s)
  else set_ptr bp q s.
Definition join_prev (bp p : Z) (s : ust) : ust :=
  if p +u sizeof_Header * h_size s p =? bp then set_ptr p (h_ptr s bp) (set_size p (h_size s p +u h_size s bp) s)
  else set_ptr p bp s.
Lemma free_joins bp p s :
  free_loop (list_fuel s) bp (freep s) s = Ok p s →
  free (bp + sizeof_Header) s = Ok tt (set_freep p (join_prev bp p (join_next bp p s))).
Proof.
  intros Hp. unfold free, mbind, M_bind, get, modify. replace (bp + sizeof_Header - sizeof_Header) with bp by lia.
  rewrite Hp. unfold join_prev, join_next. destruct (_ =? h_ptr s p); cbn; by destruct (_ =? bp).
Qed.

(** The headers that a step leaves alone. *)
Definition same_at (s s' : ust) (x : Z) : Prop := h_ptr s' x = h_ptr s x ∧ h_size s' x = h_size s x.
Definition same_end (s s' : ust) : Prop := u_brk s' = u_brk s ∧ u_lim s' = u_lim s.
Lemma linked_same s s' l e : (∀ a, a ∈ l.*1 → same_at s s' a) → linked s l e → linked s' l e.
Proof. apply linked_frame. Qed.
Lemma spaced_mono lo lo' l : lo' ≤ lo → spaced lo l → spaced lo' l.
Proof. destruct l; [done|]. cbn. intuition lia. Qed.
Lemma spaced_addr lo l a : spaced lo l → a ∈ l.*1 → lo < a.
Proof. intros Hsp (b&->&Hb)%list_elem_of_fmap. eapply spaced_bounds in Hb; [|done]. lia. Qed.
Ltac same_put := split; cbn; rewrite ?put_at_ne; try done.

Lemma join_next_ok s p bp m l2 e :
  linked s l2 base → spaced (bp + 8 * m - 1) l2 → h_ptr s p = hd_addr l2 base → h_size s bp = m →
  0 < base < bp → 1 ≤ m → bp mod 8 = 0 → end_of (bp + 8 * m) l2 ≤ e → e < 2147483648 →
  let s1 := join_next bp p s in
  ∃ m' r, linked s1 ((bp, m') :: r) base ∧ spaced (bp - 1) ((bp, m') :: r) ∧
    (∀ x, in_blocks ((bp, m') :: r) x ↔ in_block (bp, m) x ∨ in_blocks l2 x) ∧
    (∀ x, x ≠ bp → same_at s s1 x) ∧ same_end s s1 ∧ m ≤ m' ∧
    end_of (bp - 1) ((bp, m') :: r) ≤ e ∧ (length r ≤ length l2)%nat.
Proof.
  intros Hl Hsp Hp Hm Hb Hm1 Hal He He2. cbn zeta. unfold join_next, sizeof_Header. rewrite Hp, Hm.
  assert (bp + 8 * m ≤ e) as Hbm.
  { destruct l2 as [|c l2]; [done|]. rewrite end_of_cons in He. destruct Hsp as (?&?&_&Hsp). apply spaced_end in Hsp. lia. }
  rewrite u32_id by (unfold is_u32; lia). destruct (Z.eqb_spec (bp + 8 * m) (hd_addr l2 base)) as [Heq|Hne].
  - destruct l2 as [|[q k] r]; cbn [hd_addr fst] in *; [lia|]. rewrite end_of_cons in He. cbn [fst snd] in He.
    destruct Hl as (Hq&Hqp&Hr). destruct Hsp as (_&Hk&_&Hsr). cbn [fst snd] in *. pose proof (spaced_end _ _ Hsr).
    clear Hp. subst q.
    exists (m + k), r. cbn [length]. rewrite Hqp, Hq, u32_id by (unfold is_u32; lia).
    split_and!; try done; try lia.
    + cbn. rewrite !put_at_eq. split_and!; [done..|]. eapply linked_same; [|done]. intros a Ha.
      eapply spaced_addr in Ha; [|done]. same_put; lia.
    + cbn [spaced fst snd]. split_and!; [lia..|done|]. by replace (bp + 8 * (m + k)) with (bp + 8 * m + 8 * k) by lia.
    + intros x. rewrite !in_blocks_cons. unfold in_block. cbn [fst snd]. intuition lia.
    + intros x Hx. same_put.
    + rewrite end_of_cons. cbn [fst snd]. by replace (bp + 8 * (m + k)) with (bp + 8 * m + 8 * k) by lia.
  - exists m, l2. split_and!; try done; try lia.
    + cbn. rewrite put_at_eq. split_and!; [done..|]. eapply linked_same; [|done]. intros a Ha.
      eapply spaced_addr in Ha; [|done]. same_put; lia.
    + cbn [spaced fst snd]. split_and!; [lia..|done|]. destruct l2 as [|[q k] r]; [done|]. cbn [spaced hd_addr fst snd] in Hsp, Hne |- *. intuition lia.
    + intros x. by rewrite in_blocks_cons.
    + intros x Hx. same_put.
    + by rewrite end_of_cons.
Qed.

Lemma join_prev_ok s p k bp m N r e :
  linked s N p → h_size s p = k → linked s ((bp, m) :: r) base → spaced (bp - 1) ((bp, m) :: r) →
  p ∉ N.*1 → p < bp → p + 8 * k ≤ bp → 0 < p → 0 ≤ k → end_of (bp - 1) ((bp, m) :: r) ≤ e → e < 2147483648 →
  let s2 := join_prev bp p s in
  ∃ k' r', linked s2 (N ++ (p, k') :: r') base ∧
    ((p + 8 * k = bp ∧ k' = k + m ∧ r' = r) ∨ (p + 8 * k < bp ∧ k' = k ∧ r' = (bp, m) :: r)) ∧
    (∀ x, x ≠ p → same_at s s2 x) ∧ same_end s s2.
Proof.
  intros HlN Hk Hl Hsp HpN Hpb Hle Hp Hk0 He He2. cbn zeta. unfold join_prev, sizeof_Header. rewrite Hk.
  rewrite end_of_cons in He. destruct Hsp as (_&Hm&_&Hsr). cbn [fst snd] in *. pose proof (spaced_end _ _ Hsr).
  rewrite u32_id by (unfold is_u32; lia). pose proof Hl as (Hbs&Hbp&Hlr). cbn [fst snd] in *.
  assert (Hfr : ∀ l, spaced (bp + 8 * m) l → p ∉ l.*1). { intros l Hs Hin. eapply spaced_addr in Hin; [|done]. lia. }
  destruct (Z.eqb_spec (p + 8 * k) bp) as [Heq|Hne].
  - exists (k + m), r. rewrite Hbs, Hbp, u32_id by (unfold is_u32; lia). split_and!; try done; [|tauto|].
    + apply linked_app. split; [|cbn; rewrite !put_at_eq; split_and!; [done..|]].
      all: eapply linked_same; [|done]; intros a Ha; same_put; intros ->; first [by apply HpN|by eapply Hfr].
    + intros x Hx. same_put.
  - exists k, ((bp, m) :: r). split_and!; try done; [|right; split_and!; [lia|done..]|].
    + apply linked_app. split; [|split; [done|split; [cbn; by rewrite put_at_eq|]]].
      * eapply linked_same; [|done]; intros a Ha; same_put. by intros ->.
      * change (linked (set_ptr p bp s) ((bp, m) :: r) base). eapply linked_same; [|done]. cbn. intros a Ha.
        same_put. intros ->. apply elem_of_cons in Ha as [?|Ha]; [lia|]. by eapply Hfr.
    + intros x Hx. same_put.
Qed.

Lemma free_split lo l bp m :
  spaced lo l → lo ≤ bp → 1 ≤ m → (∀ x, in_block (bp, m) x → ¬ in_blocks l x) →
  ∃ l1 l2, l = l1 ++ l2 ∧ end_of lo l1 ≤ bp ∧ spaced (bp + 8 * m - 1) l2.
Proof.
  revert lo. induction l as [|b l IH]; intros lo Hsp Hlo Hm Hd; [by exists [], []|].
  destruct Hsp as (H1&H2&H2'&H3). destruct (decide (b.1 + 8 * b.2 ≤ bp)) as [Hle|Hgt].
  - destruct (IH _ H3 Hle Hm) as (l1&l2&->&He&Hs). { intros x Hx Hl. apply (Hd x); [done|]. apply in_blocks_cons. by right. }
    exists (b :: l1), l2. by rewrite end_of_cons.
  - exists [], (b :: l). split; [done|]. split; [done|].
    assert (∀ x, in_block b x → in_block (bp, m) x → False) as Hbb.
    { intros x ??. apply (Hd x); [done|]. apply in_blocks_cons. by left. }
    unfold in_block in Hbb. cbn [fst snd] in Hbb. pose proof (Hbb bp). pose proof (Hbb b.1). split_and!; [lia|done..].
Qed.
Lemma last_addr_max l N k a :
  spaced base l → (base, 0) :: l = N ++ [(last_addr l, k)] → a ∈ N.*1 → a < last_addr l.
Proof.
  intros Hsp HN. destruct (nodes_snoc l Hsp) as (N'&k'&HN'&_&_&_&Hc). rewrite HN' in HN.
  apply app_inj_2 in HN as [<- _]; [|done].
  destruct Hc as [(_&->&_)|(l'&Hl&->&Hk)]; [intros Ha; by apply not_elem_of_nil in Ha|].
  rewrite Hl in Hsp. apply spaced_app in Hsp as [H1 H2]. destruct H2 as [H2 _]. cbn [fst] in H2.
  pose proof (spaced_end _ _ H1). cbn. intros [?|(b&Hb&Hin)%list_elem_of_fmap]%elem_of_cons; [lia|].
  eapply spaced_bounds in Hin; [|done]. lia.
Qed.

(** The list after the two joins. *)
Lemma joined_list l1 N k bp m r k' r' :
  let p := last_addr l1 in
  spaced base l1 → (base, 0) :: l1 = N ++ [(p, k)] → end_of base l1 ≤ bp → base < bp → spaced (bp - 1) ((bp, m) :: r) →
  (p + 8 * k = bp ∧ k' = k + m ∧ r' = r) ∨ (p + 8 * k < bp ∧ k' = k ∧ r' = (bp, m) :: r) →
  ∃ l', N ++ (p, k') :: r' = (base, 0) :: l' ∧ spaced base l' ∧
    (∀ x, in_blocks l' x ↔ in_blocks l1 x ∨ in_blocks ((bp, m) :: r) x) ∧
    (∃ b, b ∈ l' ∧ m ≤ b.2) ∧ (length l' ≤ length l1 + 1 + length r)%nat ∧ p ∈ base :: l'.*1.
Proof.
  cbn zeta. intros Hsp HN He Hb Hs2 Hcase. destruct (nodes_snoc l1 Hsp) as (N'&k0&HN'&Hend&Hk0&_&Hc). rewrite HN' in HN.
  apply app_inj_2 in HN as [<- [= <-]]; [|done]. destruct Hs2 as (Hs2a&Hm&Hal&Hsr). cbn [fst snd] in *.
  destruct Hc as [(->&->&->)|(l'&Hl&->&Hk)].
  - unfold last_addr in *. cbn [last] in *. destruct Hcase as [(?&_)|(_&->&->)]; [lia|]. exists ((bp, m) :: r).
    split; [done|]. split; [done|]. split; [|split; [exists (bp, m); split; [left|done]|split; [cbn; lia|left]]].
    intros x. pose proof (in_blocks_nil x). tauto.
  - rewrite Hl in Hsp. apply spaced_app in Hsp as [H1 (H2&_&H4&_)]. cbn [fst snd] in *.
    assert (Hlen : length l1 = (length l' + 1)%nat) by (by rewrite Hl, length_app).
    exists (l' ++ (last_addr l1, k') :: r'). rewrite spaced_app. cbn [spaced fst snd].
    destruct Hcase as [(Heq&->&->)|(Hlt&->&->)]; (split; [done|]); (split; [|split; [|split; [|split]]]).
    + split_and!; try done; [lia|]. by replace (last_addr l1 + 8 * (k0 + m)) with (bp + 8 * m) by lia.
    + intros x. rewrite Hl, !in_blocks_app, !in_blocks_cons. rewrite <- Hl.
      unfold in_block. cbn [fst snd]. pose proof (in_blocks_nil x). intuition lia.
    + eexists. split; [apply elem_of_app; right; left|cbn; lia].
    + rewrite length_app, Hlen. cbn. lia.
    + rewrite fmap_app. set_solver.
    + split_and!; try done; lia.
    + intros x. rewrite Hl, !in_blocks_app, !in_blocks_cons. rewrite <- Hl. pose proof (in_blocks_nil x). tauto.
    + exists (bp, m). split; [set_solver|done].
    + rewrite length_app, Hlen. cbn. lia.
    + rewrite fmap_app. set_solver.
Qed.

(** What [free] does to the list, the block being [(bp, m)]. *)
Lemma free_spec s l bp m :
  free_list s l → h_size s bp = m → 1 ≤ m → bp mod 8 = 0 → base + 8 ≤ bp → bp + 8 * m ≤ u_brk s →
  (∀ x, in_block (bp, m) x → ¬ in_blocks l x) →
  ∃ s' l', free (bp + sizeof_Header) s = Ok tt s' ∧ free_list s' l' ∧
    (∀ x, in_blocks l' x ↔ in_blocks l x ∨ in_block (bp, m) x) ∧ same_end s s' ∧
    (∀ x, x ≠ base → ¬ in_blocks l x → x ≠ bp → h_size s' x = h_size s x) ∧
    (∃ b, b ∈ l' ∧ m ≤ b.2) ∧ (length l' ≤ length l + 1)%nat.
Proof.
  intros Hfl Hsz Hm Hal Hb Hbrk Hd.
  destruct (free_split base l bp m) as (l1&l2&->&He1&Hs2); [apply Hfl|lia|done..|].
  pose proof Hfl as [Hlk Hsp Hfr Hrg Hbk Hba]. pose proof Hsp as [Hs1 _]%spaced_app.
  destruct (nodes_snoc l1 Hs1) as (N&k&HN&Hend&Hk&Hbl&Hc).
  assert (Hlt : last_addr l1 < bp). { destruct Hc as [(->&_)|(?&_&_&?)]; [unfold last_addr; cbn; lia|lia]. }
  pose proof (free_joins _ _ _ (free_place s l1 l2 bp Hfl Hlt ltac:(eapply spaced_mono; [|done]; lia))) as Hfree.
  pose proof (λ a, last_addr_max _ _ _ a Hs1 HN) as HpN.
  change ((base, 0) :: l1 ++ l2) with (((base, 0) :: l1) ++ l2) in Hlk. rewrite HN, <- app_assoc in Hlk.
  apply linked_app in Hlk as (HlN&Hlp). cbn [app hd_addr fst] in HlN.
  apply (linked_app s [_] l2) in Hlp as [(Hps&Hptr&_) HlL]. cbn [hd_addr fst snd] in Hptr, Hps.
  assert (Hend2 : end_of (bp + 8 * m) l2 ≤ u_brk s).
  { destruct l2 as [|b l2 _] using rev_ind; [done|]. rewrite end_of_app. unfold end_of at 1. cbn [last].
    apply spaced_app in Hs2 as [_ (?&?&_)]. enough (b.1 + 8 * b.2 - 1 < u_brk s) by lia.
    apply Hrg. exists b. split; [set_solver|unfold in_block; lia]. }
  destruct (join_next_ok s (last_addr l1) bp m l2 (u_brk s))
    as (m'&r&Hl1'&Hsp1&Hin1&Hsa1&Hse1&Hmm&He1'&Hlr); try done; try lia.
  destruct (join_prev_ok (join_next bp (last_addr l1) s) (last_addr l1) k bp m' N r (u_brk s))
    as (k'&r'&Hl2'&Hcase&Hsa2&Hse2); try done; try lia.
  { eapply linked_same; [|done]. intros a Ha. apply Hsa1. specialize (HpN _ Ha). lia. }
  { rewrite <- Hps. apply Hsa1. lia. }
  { intros Ha. specialize (HpN _ Ha). lia. }
  destruct (joined_list l1 N k bp m' r k' r') as (l'&HN'&Hsp'&Hin'&Hbig&Hlen&Hfp); try done; [lia|].
  rewrite HN' in Hl2'. eexists _, l'. split; [exact Hfree|].
  assert (Hin : ∀ x, in_blocks l' x ↔ in_blocks (l1 ++ l2) x ∨ in_block (bp, m) x).
  { intros x. rewrite Hin', Hin1, in_blocks_app. tauto. }
  destruct Hse1 as [Hb1 Hu1], Hse2 as [Hb2 Hu2].
  split_and!; [|done|split; cbn; congruence| |destruct Hbig as (b&?&?); exists b; split; [done|lia]|rewrite length_app; lia].
  - assert (Hbrk' : u_brk (join_prev bp (last_addr l1) (join_next bp (last_addr l1) s)) = u_brk s) by congruence.
    split; cbn [set_freep u_brk u_lim freep]; rewrite ?Hbrk', ?Hu2, ?Hu1; try done; [eapply linked_same, Hl2'; by split|].
    intros x [?|Hx]%Hin; [by apply Hrg|]. unfold in_block in Hx. cbn in Hx. lia.
  - intros x Hxb Hx Hxbp. cbn. destruct (decide (x = last_addr l1)) as [->|Hne].
    + destruct Hx. destruct Hc as [(->&_)|(l0&Hl&_&?)]; [done|].
      exists (last_addr l1, k). split; [|unfold in_block; cbn; lia]. apply elem_of_app. left.
      remember (last_addr l1) as q. rewrite Hl. set_solver.
    + destruct (Hsa2 x Hne) as [_ ->]. by apply Hsa1.
Qed.

(** ** Finding a block that is large enough *)

Lemma malloc_loop_walk s nu l e prevp f :
  linked s l e → (∀ b, b ∈ l → b.2 < nu ∧ b.1 ≠ freep s) →
  malloc_loop (length l + f) nu prevp (hd_addr l e) s =
  malloc_loop f nu (match last l with None => prevp | Some b => b.1 end) e s.
Proof.
  revert prevp. induction l as [|b l IH]; intros prevp; [done|]. intros (H1&H2&H3) Hs. cbn [length Nat.add hd_addr].
  destruct (Hs b) as [Hlt Hne]; [left|]. cbn [malloc_loop]. unfold mbind, M_bind, get. rewrite H1, H2.
  destruct (Z.leb_spec nu b.2); [lia|]. destruct (Z.eqb_spec b.1 (freep s)); [done|].
  rewrite IH, last_cons; [by destruct (last l)|done|]. intros c Hc. apply Hs. by right.
Qed.

Lemma first_fit (nu : Z) (l : list block) :
  (∀ b, b ∈ l → b.2 < nu) ∨ ∃ l1 b l2, l = l1 ++ b :: l2 ∧ nu ≤ b.2 ∧ ∀ c, c ∈ l1 → c.2 < nu.
Proof.
  induction l as [|b l [IH|(l1&c&l2&->&Hc&IH)]]; [left; intros b Hb; by apply not_elem_of_nil in Hb|..].
  all: destruct (decide (nu ≤ b.2)) as [Hb|Hb].
  2: left; intros c [->|Hc]%elem_of_cons; [lia|by apply IH].
  1,2: right; exists [], b; eexists; split_and!; [done..|]; intros c' Hc'; by apply not_elem_of_nil in Hc'.
  right. exists (b :: l1), c, l2. split_and!; [done..|]. intros c' [->|Hc']%elem_of_cons; [lia|by apply IH].
Qed.

Lemma spaced_NoDup lo l : spaced lo l → NoDup l.*1.
Proof.
  revert lo. induction l as [|b l IH]; intros lo; [constructor|]. intros (H1&H2&_&H3). cbn. constructor; [|by eapply IH].
  intros Ha. eapply spaced_addr in Ha; [|done]. lia.
Qed.

(** The ring from [freep] on: the other nodes, in the order of the loop. *)
Lemma ring s l :
  free_list s l → ∃ k V, h_size s (freep s) = k ∧ (freep s, k) :: V ≡ₚ (base, 0) :: l ∧
    linked s V (freep s) ∧ h_ptr s (freep s) = hd_addr V (freep s) ∧ length V = length l ∧ freep s ∉ V.*1.
Proof.
  intros [Hlk Hsp Hfr Hrg Hbk Hba]. change (base :: l.*1) with (((base, 0) :: l).*1) in Hfr.
  assert (Hnd : NoDup (((base, 0) :: l).*1)).
  { cbn. constructor; [|by eapply spaced_NoDup]. intros Ha. eapply spaced_addr in Ha; [|done]. lia. }
  apply list_elem_of_fmap in Hfr as ([fp k]&->&(A&C&HA)%list_elem_of_split). cbn [fst]. rewrite HA in *.
  assert (Hb : base = hd_addr A fp). { destruct A; cbn in HA |- *; by simplify_eq. }
  apply linked_app in Hlk as [HlA (Hk&Hp&HlC)]. cbn [fst snd hd_addr] in *.
  exists k, (C ++ A). split_and!; try done.
  - by rewrite <- (Permutation_middle A C (fp, k)), (Permutation_app_comm C A).
  - apply linked_app. by rewrite <- Hb.
  - by rewrite hd_addr_app, <- Hb.
  - apply (f_equal length) in HA. rewrite length_app in HA |- *. cbn in HA. lia.
  - rewrite fmap_app in Hnd |- *. cbn in Hnd. apply NoDup_app in Hnd as (_&H1&H2%NoDup_cons).
    destruct H2 as [H2 _]. set_solver.
Qed.
Lemma ring_next s V e b l1 l2 prevp : linked s V e → V = l1 ++ b :: l2 → h_ptr s prevp = hd_addr V e →
  h_ptr s (match last l1 with None => prevp | Some c => c.1 end) = b.1.
Proof.
  intros Hl -> Hp. destruct l1 as [|c l1 _] using rev_ind; [done|]. rewrite last_snoc.
  rewrite <- app_assoc in Hl. by apply linked_app in Hl as [_ (_&Hn&_)].
Qed.

(** The loop of [malloc], until it finds a block or has been around. *)
Lemma malloc_scan s l nu f :
  free_list s l → 1 ≤ nu →
  (∃ b pr g, b ∈ l ∧ nu ≤ b.2 ∧ pr ∈ base :: l.*1 ∧ h_ptr s pr = b.1 ∧
     malloc_loop (S (length l) + f) nu (freep s) (h_ptr s (freep s)) s = malloc_loop (S g) nu pr b.1 s) ∨
  (∀ b, b ∈ l → b.2 < nu) ∧ ∃ pr,
     malloc_loop (S (length l) + f) nu (freep s) (h_ptr s (freep s)) s = malloc_loop (S f) nu pr (freep s) s.
Proof.
  intros Hfl Hnu. destruct (ring s l Hfl) as (k&V&Hk&Hperm&HlV&Hp&Hlen&HnV).
  assert (Hin : ∀ b, b ∈ (freep s, k) :: V → nu ≤ b.2 → b ∈ l).
  { intros b Hb ?. rewrite Hperm in Hb. apply elem_of_cons in Hb as [->|?]; [cbn in *; lia|done]. }
  assert (Hadr : ∀ b, b ∈ (freep s, k) :: V → b.1 ∈ base :: l.*1).
  { intros b Hb. rewrite Hperm in Hb. change (b.1 ∈ ((base, 0) :: l).*1). by apply list_elem_of_fmap_2. }
  assert (Hlast : ∀ W, W ⊆ V → (match last W with None => freep s | Some c => c.1 end) ∈ base :: l.*1).
  { intros W HW. destruct (last W) as [c|] eqn:Hc; [apply Hadr; right; apply HW; by apply last_Some_elem_of|].
    apply (Hadr (freep s, k)). left. }
  assert (Hne : ∀ W, W ⊆ V → ∀ c, c ∈ W → c.1 ≠ freep s).
  { intros W HW c Hc Heq. apply HnV. rewrite <- Heq. by apply list_elem_of_fmap_2, HW. }
  rewrite Hp, <- Hlen. destruct (first_fit nu V) as [Hall|(V1&b&V2&HV&Hb&HV1)].
  - replace (S (length V) + f)%nat with (length V + S f)%nat by lia.
    rewrite malloc_loop_walk; [|done|intros c Hc; split; [by apply Hall|by apply (Hne V)]].
    destruct (decide (nu ≤ k)) as [Hnk|Hnk].
    + left. exists (freep s, k), (match last V with None => freep s | Some c => c.1 end), f.
      split_and!; [apply Hin; [left|done]|done|by apply Hlast| |done].
      destruct V as [|c V _] using rev_ind; [done|]. rewrite last_snoc. by apply linked_app in HlV as [_ (_&Hn&_)].
    + right. split; [|by eexists]. intros b Hb. assert (b ∈ (freep s, k) :: V) as [->|Hv]%elem_of_cons by (rewrite Hperm; by right).
      * cbn. lia.
      * by apply Hall.
  - left. exists b, (match last V1 with None => freep s | Some c => c.1 end), (length V2 + S f)%nat.
    split_and!; [apply Hin; [right; set_solver|done]|done|apply Hlast; set_solver|by eapply ring_next|].
    rewrite HV, length_app, hd_addr_app. cbn [length hd_addr].
    replace (S (length V1 + S (length V2)) + f)%nat with (length V1 + S (length V2 + S f))%nat by lia.
    rewrite malloc_loop_walk; [done|rewrite HV in HlV; by apply linked_app in HlV as [? _]|].
    intros c Hc. split; [by apply HV1|]. apply (Hne V1); set_solver.
Qed.

(** ** Taking a block from the list *)

Lemma prev_unique s l1 b l2 pr :
  free_list s (l1 ++ b :: l2) → pr ∈ base :: (l1 ++ b :: l2).*1 → h_ptr s pr = b.1 → pr = last_addr l1.
Proof.
  intros [Hlk Hsp Hfr Hrg Hbk Hba] Hpr Hn. pose proof Hsp as [Hs1 (Hb1&Hb2&_&Hs2)]%spaced_app.
  destruct (nodes_snoc l1 Hs1) as (N&k&HN&Hend&Hk&Hbl&Hc).
  change (base :: (l1 ++ b :: l2).*1) with ((((base, 0) :: l1) ++ b :: l2).*1) in Hpr.
  change ((base, 0) :: l1 ++ b :: l2) with (((base, 0) :: l1) ++ b :: l2) in Hlk.
  rewrite HN, <- app_assoc in Hlk, Hpr. apply linked_app in Hlk as [HlN Hlk]. apply (linked_app s [_]) in Hlk as [_ Hlb].
  rewrite !fmap_app, !elem_of_app in Hpr. destruct Hpr as [Hpr|[->%list_elem_of_singleton|Hpr]]; [exfalso|done|exfalso].
  - apply list_elem_of_fmap in Hpr as (c&->&(A&C&->)%list_elem_of_split).
    apply linked_app in HlN as [_ (_&Hcn&_)]. rewrite Hn in Hcn. cbn [app hd_addr fst] in Hcn.
    assert (b.1 ≤ last_addr l1); [|lia]. destruct C as [|d C]; cbn [hd_addr] in Hcn; [lia|].
    enough (d.1 < last_addr l1) by lia. eapply last_addr_max; [done..|]. rewrite fmap_app. set_solver.
  - apply list_elem_of_fmap in Hpr as (c&->&(A&C&HC)%list_elem_of_split). rewrite HC in Hlb.
    apply linked_app in Hlb as [_ (_&Hcn&_)]. rewrite Hn in Hcn. destruct C as [|d C]; cbn [hd_addr] in Hcn; [lia|].
    assert (d ∈ l2) as Hd by (destruct A; cbn in HC; simplify_eq; set_solver).
    eapply spaced_bounds in Hd; [|done]. lia.
Qed.

Lemma linked_retarget s s' l1 e e' pr k :
  spaced base l1 → (base, 0) :: l1 = pr ++ [(last_addr l1, k)] → linked s ((base, 0) :: l1) e →
  (∀ a, a ∈ pr.*1 → same_at s s' a) → h_size s' (last_addr l1) = h_size s (last_addr l1) → h_ptr s' (last_addr l1) = e' →
  linked s' ((base, 0) :: l1) e'.
Proof.
  intros Hsp HN Hlk Hsa Hsz Hp. rewrite HN in *. apply linked_app in Hlk as [H1 (H2&H3&_)]. cbn [fst snd] in *.
  apply linked_app. split; [by eapply linked_same|]. cbn. by rewrite Hsz.
Qed.

(** What the loop of [malloc] does when it is at a block that is large enough. *)
Definition takes (s s' : ust) (l l' : list block) (nb : block) : Prop :=
  free_list s' l' ∧ (∀ x, in_blocks l x ↔ in_blocks l' x ∨ in_block nb x) ∧ (∀ x, in_block nb x → ¬ in_blocks l' x) ∧
  h_size s' nb.1 = nb.2 ∧ nb.1 mod 8 = 0 ∧ same_end s s' ∧ (∀ x, x ≠ base → ¬ in_blocks l x → h_size s' x = h_size s x).

Lemma take_exact s l1 b l2 :
  free_list s (l1 ++ b :: l2) →
  takes s (set_freep (last_addr l1) (set_ptr (last_addr l1) (h_ptr s b.1) s)) (l1 ++ b :: l2) (l1 ++ l2) b.
Proof.
  intros [Hlk Hsp Hfr Hrg Hbk Hba]. pose proof Hsp as [Hs1 (Hb1&Hb2&Hal&Hs2)]%spaced_app.
  destruct (nodes_snoc l1 Hs1) as (N&k&HN&Hend&Hk&Hbl&Hc).
  pose proof (λ a, last_addr_max _ _ _ a Hs1 HN) as HpN.
  change ((base, 0) :: l1 ++ b :: l2) with (((base, 0) :: l1) ++ b :: l2) in Hlk.
  apply linked_app in Hlk as [Hl1 (Hbs&Hbp&Hl2)].
  assert (Hin : ∀ x, in_blocks (l1 ++ b :: l2) x ↔ in_blocks (l1 ++ l2) x ∨ in_block b x).
  { intros x. rewrite !in_blocks_app, in_blocks_cons. tauto. }
  unfold takes. split; [|split_and!; try done].
  - split; cbn [set_freep set_ptr u_brk u_lim freep]; try done.
    + change ((base, 0) :: l1 ++ l2) with (((base, 0) :: l1) ++ l2). apply linked_app. split.
      * eapply linked_retarget; [done..| | |by rewrite Hbp; cbn; rewrite put_at_eq]; [|done].
        intros a Ha. specialize (HpN _ Ha). same_put; lia.
      * eapply linked_same; [|done]. intros a Ha. eapply spaced_addr in Ha; [|done]. same_put; lia.
    + apply spaced_app. split; [done|]. eapply spaced_mono; [|done]. lia.
    + assert (last_addr l1 ∈ ((base, 0) :: l1).*1) as Hla by (rewrite HN, fmap_app; set_solver).
      cbn in Hla. rewrite fmap_app. set_solver.
    + intros x Hx. apply Hrg, Hin. by left.
  - intros x Hx. rewrite in_blocks_app. intros [(c&Hc1&Hc2)|(c&Hc1&Hc2)]; unfold in_block in *.
    + eapply spaced_bounds in Hc1; [|done]. lia.
    + eapply spaced_bounds in Hc1; [|done]. lia.
Qed.

Lemma take_split s l1 b l2 nu :
  free_list s (l1 ++ b :: l2) → 1 ≤ nu < b.2 →
  takes s (set_freep (last_addr l1) (set_size (b.1 + 8 * (b.2 - nu)) nu (set_size b.1 (b.2 - nu) s)))
    (l1 ++ b :: l2) (l1 ++ (b.1, b.2 - nu) :: l2) (b.1 + 8 * (b.2 - nu), nu).
Proof.
  intros [Hlk Hsp Hfr Hrg Hbk Hba] Hnu. pose proof Hsp as [Hs1 (Hb1&Hb2&Hal&Hs2)]%spaced_app.
  destruct (nodes_snoc l1 Hs1) as (N&k&HN&Hend&Hk&Hbl&Hc).
  change ((base, 0) :: l1 ++ b :: l2) with (((base, 0) :: l1) ++ b :: l2) in Hlk.
  apply linked_app in Hlk as [Hl1 (Hbs&Hbp&Hl2)]. cbn [hd_addr] in Hl1.
  assert (Hin : ∀ x, in_blocks (l1 ++ b :: l2) x ↔
    in_blocks (l1 ++ (b.1, b.2 - nu) :: l2) x ∨ in_block (b.1 + 8 * (b.2 - nu), nu) x).
  { intros x. rewrite !in_blocks_app, !in_blocks_cons. unfold in_block. cbn [fst snd]. intuition lia. }
  assert (Hlow : ∀ a, a ∈ ((base, 0) :: l1).*1 → a < b.1).
  { cbn. pose proof (spaced_end _ _ Hs1). intros a [->|(c&->&Hc1)%list_elem_of_fmap]%elem_of_cons; [lia|].
    eapply spaced_bounds in Hc1; [|done]. lia. }
  unfold takes. cbn [fst snd]. split; [|split_and!; try done].
  - split; cbn [set_freep set_size u_brk u_lim freep]; try done.
    + change ((base, 0) :: l1 ++ (b.1, b.2 - nu) :: l2) with (((base, 0) :: l1) ++ (b.1, b.2 - nu) :: l2).
      apply linked_app. cbn [hd_addr fst]. split; [|split; [|split; [done|]]].
      * eapply linked_same; [|done]. intros a Ha%Hlow. same_put; lia.
      * cbn. rewrite put_at_ne by lia. apply put_at_eq.
      * eapply linked_same; [|done]. intros a Ha. eapply spaced_addr in Ha; [|done]. same_put; lia.
    + apply spaced_app. split; [done|]. cbn [spaced fst snd]. split_and!; try done; [lia|]. eapply spaced_mono; [|done]. lia.
    + assert (last_addr l1 ∈ ((base, 0) :: l1).*1) as Hla by (rewrite HN, fmap_app; set_solver).
      cbn in Hla. rewrite fmap_app. set_solver.
    + intros x Hx. apply Hrg, Hin. by left.
  - intros x Hx. rewrite in_blocks_app, in_blocks_cons. unfold in_block in *. cbn [fst snd] in *.
    intros [(c&Hc1&Hc2)|[?|(c&Hc1&Hc2)]]; unfold in_block in *; [|lia|]; eapply spaced_bounds in Hc1; try done; lia.
  - cbn. apply put_at_eq.
  - by rewrite (Z.mul_comm 8), Z_mod_plus_full.
  - intros x Hxb Hx. assert (¬ in_block b x) as Hnb. { intros ?. apply Hx. exists b. set_solver. }
    unfold in_block in Hnb. cbn. rewrite !put_at_ne; [done|lia..].
Qed.

Lemma malloc_take s l b pr nu g :
  free_list s l → b ∈ l → 1 ≤ nu ≤ b.2 → pr ∈ base :: l.*1 → h_ptr s pr = b.1 →
  ∃ r s' l', malloc_loop (S g) nu pr b.1 s = Ok (r + sizeof_Header) s' ∧ takes s s' l l' (r, nu).
Proof.
  intros Hfl (l1&l2&->)%list_elem_of_split Hnu Hpr Hn. pose proof (prev_unique _ _ _ _ _ Hfl Hpr Hn) as ->.
  assert (h_size s b.1 = b.2) as Hbs.
  { destruct Hfl as [Hlk _ _ _ _ _]. destruct Hlk as (_&_&Hlk). by apply linked_app in Hlk as [_ (?&_)]. }
  assert (0 ≤ b.1 ∧ b.1 + 8 * b.2 < 4294967296) as Hbnd.
  { destruct Hfl as [_ Hsp _ Hrg Hbk Hba]. assert (b.1 + 8 * b.2 - 1 < u_brk s).
    { apply Hrg. exists b. unfold in_block. split; [set_solver|lia]. }
    apply spaced_app in Hsp as [Hs1 (?&_)]. pose proof (spaced_end _ _ Hs1). lia. }
  cbn [malloc_loop]. unfold mbind, M_bind, get, modify. rewrite Hbs, (u32_id (b.2 - nu)) by (unfold is_u32; lia).
  destruct (Z.leb_spec nu b.2); [|lia]. destruct (Z.eqb_spec b.2 nu) as [Heq|Hne].
  - exists b.1. do 2 eexists. split; [done|]. subst nu. destruct b as [a n]. by apply take_exact.
  - unfold sizeof_Header. rewrite u32_id by (unfold is_u32; lia). do 3 eexists. split; [done|]. apply take_split; [done|lia].
Qed.

(** ** The heap *)

Fixpoint apart (al : list block) : Prop :=
  match al with
  | [] => True
  | b :: al' => (∀ x, in_block b x → ¬ in_blocks al' x) ∧ apart al'
  end.
Context (bot : Z).
(** The memory from [bot], where the heap starts, to the end of the process:
    the free blocks [l] and the blocks [al] that the program has. *)
Record heap (s : ust) (l al : list block) : Prop := {
  hp_list : free_list s l;
  hp_alloc : ∀ b, b ∈ al → 1 ≤ b.2 ∧ b.1 mod 8 = 0 ∧ h_size s b.1 = b.2;
  hp_apart : apart al;
  hp_free : ∀ x, in_blocks al x → ¬ in_blocks l x;
  hp_cover : ∀ x, in_blocks l x ∨ in_blocks al x ↔ bot ≤ x < u_brk s;
  hp_bot : base + 8 ≤ bot ≤ u_brk s;
}.
Definition fresh (s : ust) : Prop :=
  freep s = 0 ∧ u_brk s = bot ∧ 0 < base ∧ base + 8 ≤ bot < 2147483648 ∧ bot mod 8 = 0 ∧ u_lim s < 2147483648.
Definition heap_ok (s : ust) (al : list block) : Prop := (fresh s ∧ al = []) ∨ ∃ l, heap s l al.

Lemma in_head b : 1 ≤ b.2 → in_block b b.1.
Proof. unfold in_block. lia. Qed.
Lemma heap_header s l al b : heap s l al → b ∈ al → b.1 ≠ base ∧ ¬ in_blocks l b.1 ∧ bot ≤ b.1 ∧ b.1 + 8 * b.2 ≤ u_brk s.
Proof.
  intros [Hl Hal Hap Hfr Hcv Hb] Hin. destruct (Hal b Hin) as (H1&_&_).
  assert (∀ x, in_block b x → in_blocks al x) as Hi by (intros; by exists b).
  pose proof (proj1 (Hcv b.1) (or_intror (Hi _ (in_head b H1)))).
  assert (bot ≤ b.1 + 8 * b.2 - 1 < u_brk s). { apply Hcv. right. apply Hi. unfold in_block. lia. }
  split_and!; [lia| |lia..]. apply Hfr, Hi. by apply in_head.
Qed.
Lemma freep_pos s l : free_list s l → 0 < freep s.
Proof.
  intros [_ Hsp Hfr _ _ Hba]. apply elem_of_cons in Hfr as [->|Ha]; [done|]. eapply spaced_addr in Ha; [|done]. lia.
Qed.

(** The memory grows at its end. *)
Lemma free_list_grow s l n m :
  free_list s l → 1 ≤ n → u_brk s + 8 * n ≤ u_lim s →
  free_list (set_size (u_brk s) m (set_brk (u_brk s + 8 * n) s)) l.
Proof.
  intros [Hlk Hsp Hfr Hrg Hbk Hba] Hn Hlim. split; cbn [set_size set_brk u_brk u_lim freep h_ptr]; try done.
  - eapply linked_same; [|done]. intros a Ha. cbn in Ha. same_put. intros ->. apply elem_of_cons in Ha as [?|Ha]; [lia|].
    apply list_elem_of_fmap in Ha as (b&Hb1&Hb2). eapply spaced_bounds in Hb2 as Hbb; [|done].
    enough (b.1 < u_brk s) by lia. apply Hrg. exists b. split; [done|]. apply in_head. lia.
  - intros x Hx%Hrg. lia.
  - rewrite (Z.mul_comm 8), Z_mod_plus_full. lia.
Qed.
Definition core (nu : Z) : Z := Z.max nu 4096.
Lemma morecore_sbrk nu s : 1 ≤ nu → 8 * core nu < 2147483648 →
  morecore nu s =
    if u_lim s <? u_brk s + 8 * core nu then Ok 0 s
    else (if u_brk s =? -1 then mret 0
          else modify (set_size (u_brk s) (core nu));; free (u_brk s + sizeof_Header);; gets freep)
         (set_brk (u_brk s + 8 * core nu) s).
Proof.
  intros Hnu Hc. unfold morecore. cbn zeta. replace (if nu <? 4096 then 4096 else nu) with (core nu) by (unfold core; zcases).
  assert (Hcp : 4096 ≤ core nu) by (unfold core; lia). unfold sizeof_Header.
  rewrite (u32_id (_ * _)) by (unfold is_u32; lia). rewrite s32_id by (unfold is_i32; lia). rewrite (Z.mul_comm _ 8).
  unfold mbind at 1, M_bind at 1, sbrk. destruct (Z.ltb_spec 0 (8 * core nu)); [|lia].
  by destruct (u_lim s <? u_brk s + 8 * core nu).
Qed.
Lemma morecore_grow s l al nu :
  heap s l al → 1 ≤ nu → 8 * core nu < 2147483648 → u_brk s + 8 * core nu ≤ u_lim s →
  ∃ s' l', morecore nu s = Ok (freep s') s' ∧ heap s' l' al ∧ (∃ b, b ∈ l' ∧ nu ≤ b.2) ∧ (length l' ≤ length l + 1)%nat.
Proof.
  intros Hh Hnu Hc Hlim. rewrite morecore_sbrk by done. assert (Hcn : nu ≤ core nu ∧ 4096 ≤ core nu) by (unfold core; lia).
  destruct (Z.ltb_spec (u_lim s) (u_brk s + 8 * core nu)); [lia|].
  pose proof Hh as [Hl Hal Hap Hfr Hcv Hb]. pose proof Hl as [_ _ _ Hrg Hbk Hba].
  destruct (Z.eqb_spec (u_brk s) (-1)); [lia|].
  set (s1 := set_size (u_brk s) (core nu) (set_brk (u_brk s + 8 * core nu) s)).
  destruct (free_spec s1 l (u_brk s) (core nu)) as (s'&l'&Hf&Hfl&Hin&[Hbk' Hlm']&Hsz&(b&Hb1&Hb2)&Hlen); try done; try lia.
  { apply free_list_grow; [done|lia|done]. }
  { cbn. apply put_at_eq. }
  { intros x Hx Hx'%Hrg. unfold in_block in Hx. cbn in Hx. lia. }
  exists s', l'. unfold mbind, M_bind, modify, gets. fold s1. rewrite Hf.
  split; [done|]. split; [|split; [exists b; split; [done|lia]|done]].
  split; try done.
  - intros c Hc'. destruct (Hal c Hc') as (H1&H2&H3). split_and!; [done..|].
    destruct (heap_header _ _ _ _ Hh Hc') as (?&?&?&?). rewrite Hsz; [cbn; by rewrite put_at_ne by lia|done..|lia].
  - intros x Hx. rewrite Hin. intros [?|Hi]; [by eapply Hfr|]. unfold in_block in Hi. cbn in Hi.
    assert (bot ≤ x < u_brk s); [|lia]. apply Hcv. by right.
  - intros x. rewrite Hin, Hbk'. unfold in_block, s1. cbn [fst snd u_brk set_size set_brk]. specialize (Hcv x).
    destruct (decide (x < u_brk s)); intuition lia.
  - rewrite Hbk'. unfold s1. cbn [u_brk set_size set_brk]. lia.
Qed.

Lemma heap_take s s' l l' al nb : heap s l al → takes s s' l l' nb → 1 ≤ nb.2 → heap s' l' (nb :: al).
Proof.
  intros Hh (Hl'&Hin&Hd&Hsz&Hal'&[Hbk Hlm]&Hsame) Hn. pose proof Hh as [Hl Hal Hap Hfr Hcv Hb]. split; try done.
  - intros b [->|Hb']%elem_of_cons; [done|]. destruct (Hal b Hb') as (?&?&?). destruct (heap_header _ _ _ _ Hh Hb') as (?&?&_).
    by rewrite Hsame.
  - split; [|done]. intros x Hx Ha. apply (Hfr x Ha), Hin. by right.
  - intros x [?|Ha]%in_blocks_cons; [by apply Hd|]. intros ?. apply (Hfr x Ha), Hin. by left.
  - intros x. rewrite in_blocks_cons, Hbk, <- Hcv, Hin. tauto.
  - by rewrite Hbk.
Qed.
Lemma apart_middle a1 b a2 : apart (a1 ++ b :: a2) → apart (a1 ++ a2) ∧ ∀ x, in_block b x → ¬ in_blocks (a1 ++ a2) x.
Proof.
  induction a1 as [|c a1 IH]; cbn; [tauto|]. intros [H1 [H2 H3]%IH].
  split; [split; [|done]|].
  - intros x Hx Hi. apply (H1 x Hx). rewrite in_blocks_app in *. rewrite in_blocks_cons. tauto.
  - intros x Hx [Hc|Hi]%in_blocks_cons; [|by eapply H3]. apply (H1 x Hc). rewrite in_blocks_app, in_blocks_cons. tauto.
Qed.
Lemma heap_free s l a1 b a2 :
  heap s l (a1 ++ b :: a2) → ∃ s' l', free (b.1 + sizeof_Header) s = Ok tt s' ∧ heap s' l' (a1 ++ a2).
Proof.
  intros Hh. pose proof Hh as [Hl Hal Hap Hfr Hcv Hb]. assert (Hbin : b ∈ a1 ++ b :: a2) by set_solver.
  destruct (Hal b Hbin) as (H1&H2&H3). destruct (heap_header _ _ _ _ Hh Hbin) as (H4&H5&H6&H7).
  apply apart_middle in Hap as [Hap Hbd]. destruct b as [bp m]. cbn [fst snd] in *.
  assert (Hall : ∀ x, in_blocks (a1 ++ (bp, m) :: a2) x ↔ in_blocks (a1 ++ a2) x ∨ in_block (bp, m) x).
  { intros x. rewrite !in_blocks_app, in_blocks_cons. tauto. }
  destruct (free_spec s l bp m) as (s'&l'&Hf&Hfl&Hin&[Hbk' Hlm']&Hsz&_); try done; try lia.
  { intros x Hx. apply Hfr, Hall. by right. }
  exists s', l'. split; [done|]. split; try done.
  - intros c Hc. assert (Hc' : c ∈ a1 ++ (bp, m) :: a2) by set_solver. destruct (Hal c Hc') as (?&?&?).
    destruct (heap_header _ _ _ _ Hh Hc') as (?&?&_). rewrite Hsz; try done. intros Heq.
    apply (Hbd bp); [unfold in_block; cbn; lia|]. exists c. split; [done|]. rewrite <- Heq. by apply in_head.
  - intros x Hx [?|Hi]%Hin; [|by eapply Hbd]. apply (Hfr x); [|done]. apply Hall. by left.
  - intros x. rewrite Hin, Hbk', <- Hcv, Hall. tauto.
  - by rewrite Hbk'.
Qed.

Lemma malloc_loop_found s l al nu f :
  heap s l al → 1 ≤ nu → (∃ b, b ∈ l ∧ nu ≤ b.2) →
  ∃ r s' l', malloc_loop (S (length l) + f) nu (freep s) (h_ptr s (freep s)) s = Ok (r + sizeof_Header) s' ∧
    heap s' l' ((r, nu) :: al).
Proof.
  intros Hh Hnu (b0&Hb0&Hb0'). pose proof (hp_list _ _ _ Hh) as Hl.
  destruct (malloc_scan s l nu f Hl Hnu) as [(b&pr&g&Hb&Hbn&Hpr&Hp&Heq)|[Hno _]]; [|specialize (Hno _ Hb0); lia].
  destruct (malloc_take s l b pr nu g) as (r&s'&l'&Ht&Htk); [done..|]. rewrite Heq. exists r, s', l'.
  split; [done|]. by eapply heap_take.
Qed.

(** The loop of [malloc] ends: with a block, or without one when no block is
    large enough and the memory can not grow. *)
Lemma malloc_loop_ok s l al nu :
  heap s l al → 1 ≤ nu → 8 * core nu < 2147483648 →
  let run := malloc_loop (2 * list_fuel s + 1) nu (freep s) (h_ptr s (freep s)) s in
  (run = Ok 0 s ∧ (∀ b, b ∈ l → b.2 < nu) ∧ u_lim s < u_brk s + 8 * core nu) ∨
  ∃ r s' l', run = Ok (r + sizeof_Header) s' ∧ heap s' l' ((r, nu) :: al).
Proof.
  intros Hh Hnu Hc. cbn zeta. pose proof (hp_list _ _ _ Hh) as Hl. pose proof (fuel_enough _ _ Hl) as Hfuel.
  set (f := (2 * list_fuel s - length l)%nat).
  replace (2 * list_fuel s + 1)%nat with (S (length l) + f)%nat by lia.
  destruct (malloc_scan s l nu f Hl Hnu) as [(b&pr&g&Hb&Hbn&Hpr&Hp&Heq)|[Hno (pr&Heq)]].
  { right. apply malloc_loop_found; eauto. }
  rewrite Heq. destruct (ring s l Hl) as (k&V&Hk&Hperm&_).
  assert (Hkn : k < nu).
  { assert ((freep s, k) ∈ (base, 0) :: l) as [Hk0|Hin]%elem_of_cons by (rewrite <- Hperm; left).
    - simplify_eq. lia.
    - by apply Hno in Hin. }
  assert (malloc_loop (S f) nu pr (freep s) s =
    (p ← morecore nu; if p =? 0 then mret 0 else q ← gets (λ s, h_ptr s p); malloc_loop f nu p q) s) as ->.
  { cbn [malloc_loop]. unfold mbind at 1, M_bind at 1, get. rewrite Hk, Z.eqb_refl. by destruct (Z.leb_spec nu k); [lia|]. }
  unfold mbind, M_bind, gets.
  destruct (Z.ltb_spec (u_lim s) (u_brk s + 8 * core nu)) as [Hlim|Hlim].
  - left. rewrite morecore_sbrk by done. by destruct (Z.ltb_spec (u_lim s) (u_brk s + 8 * core nu)); [|lia].
  - right. destruct (morecore_grow s l al nu) as (s'&l'&->&Hh'&Hbig&Hlen); try done.
    pose proof (freep_pos _ _ (hp_list _ _ _ Hh')). destruct (Z.eqb_spec (freep s') 0); [lia|].
    replace f with (S (length l') + (f - S (length l')))%nat by lia.
    by eapply malloc_loop_found.
Qed.

Lemma units_enough nbytes :
  0 ≤ nbytes ≤ 2147483600 → 1 ≤ units nbytes ∧ nbytes ≤ 8 * (units nbytes - 1) < nbytes + 8 ∧ 8 * core (units nbytes) < 2147483648.
Proof.
  intros Hn. unfold units, core, sizeof_Header. rewrite (u32_id (nbytes + (8 - 1))) by (unfold is_u32; lia).
  rewrite u32_id by (unfold is_u32; zdm). zdm.
Qed.
Lemma heap_init s :
  fresh s → let s1 := set_size base 0 (set_freep base (set_ptr base base s)) in heap s1 [] [].
Proof.
  intros (Hf&Hb&Hba&Hbo&Hal&Hlm). pose proof in_blocks_nil as Hn.
  split; cbn; try done; [split; cbn; try done| |..].
  - by rewrite !put_at_eq.
  - left.
  - intros x Hx. by apply Hn in Hx.
  - rewrite Hb. lia.
  - intros b Hx. by apply not_elem_of_nil in Hx.
  - intros x. specialize (Hn x). rewrite Hb. intuition lia.
  - lia.
Qed.

Lemma heap_ok_list s al : heap_ok s al → ∃ s1 l, heap s1 l al ∧ same_end s s1 ∧ ∀ nbytes,
  malloc nbytes s = malloc_loop (2 * list_fuel s1 + 1) (units nbytes) (freep s1) (h_ptr s1 (freep s1)) s1.
Proof.
  intros [[Hf ->]|[l Hh]].
  - exists (set_size base 0 (set_freep base (set_ptr base base s))), []. split; [by apply heap_init|]. split; [done|].
    intros nbytes. unfold malloc, mbind, M_bind, get, modify. destruct Hf as [-> _]. done.
  - exists s, l. split; [done|]. split; [done|]. intros nbytes. unfold malloc, mbind, M_bind, get.
    pose proof (freep_pos _ _ (hp_list _ _ _ Hh)). by destruct (Z.eqb_spec (freep s) 0); [lia|].
Qed.
Lemma malloc_ok s al nbytes :
  heap_ok s al → 1 ≤ units nbytes → 8 * core (units nbytes) < 2147483648 →
  ∃ p s', malloc nbytes s = Ok p s' ∧
    ((p = 0 ∧ heap_ok s' al ∧ u_lim s < u_brk s + 8 * core (units nbytes)) ∨
     (8 < p ∧ heap_ok s' ((p - 8, units nbytes) :: al))).
Proof.
  intros Hok Hn Hc. destruct (heap_ok_list s al Hok) as (s1&l&Hh&[Hb Hl]&Heq). rewrite Heq, <- Hb, <- Hl.
  destruct (malloc_loop_ok s1 l al (units nbytes) Hh Hn Hc) as [(Hr&_&Hlim)|(r&s'&l'&Hr&Hh')].
  - exists 0, s1. split; [done|]. left. split; [done|]. split; [right; by exists l|done].
  - exists (r + sizeof_Header), s'. split; [done|]. right. unfold sizeof_Header. replace (r + 8 - 8) with r by lia.
    destruct (heap_header s' l' _ (r, units nbytes) Hh') as (_&_&H1&_); [left|]. destruct Hh' as [[] ? ? ? ? ?].
    cbn in *. split; [lia|]. right. exists l'. by split.
Qed.
Lemma free_ok s a1 b a2 :
  heap_ok s (a1 ++ b :: a2) → ∃ s', free (b.1 + sizeof_Header) s = Ok tt s' ∧ heap_ok s' (a1 ++ a2).
Proof.
  intros [[_ Hn]|[l Hh]]; [by destruct a1|]. destruct (heap_free _ _ _ _ _ Hh) as (s'&l'&?&?). exists s'.
  split; [done|]. right. by exists l'.
Qed.

(** A program that allocates and frees: the blocks that it has. *)
Inductive heap_step : ust * list block → ust * list block → Prop :=
  | step_malloc s al nbytes p s' :
      0 ≤ nbytes ≤ 2147483600 → malloc nbytes s = Ok p s' →
      heap_step (s, al) (s', if p =? 0 then al else (p - sizeof_Header, units nbytes) :: al)
  | step_free s a1 b a2 s' :
      free (b.1 + sizeof_Header) s = Ok tt s' → heap_step (s, a1 ++ b :: a2) (s', a1 ++ a2).

Lemma heap_reachable s0 s al : fresh s0 → rtc heap_step (s0, []) (s, al) → heap_ok s al.
Proof.
  intros Hf Hr. refine (rtc_invariant heap_step (λ x, heap_ok x.1 x.2) (s0, []) (s, al) _ _ Hr); [|by left].
  intros x y Hx Hs. destruct Hs as [s1 al1 nbytes p s1' Hn Hm|s1 a1 b a2 s1' Hfr]; cbn in *.
  - destruct (units_enough nbytes Hn) as (H1&_&H2). destruct (malloc_ok s1 al1 nbytes Hx H1 H2) as (p'&s2&Heq&Hres).
    rewrite Heq in Hm. injection Hm as -> ->. unfold sizeof_Header. destruct (Z.eqb_spec p 0); destruct Hres as [(?&?&?)|[? ?]]; (done || lia).
  - destruct (free_ok _ _ _ _ Hx) as (s2&Heq&?). rewrite Heq in Hfr. by injection Hfr as ->.
Qed.
End umalloc.

(** C11. Whatever sequence of [malloc] and [free] a program makes, from the
    empty heap on: the blocks that it has are aligned, lie between the start
    of the heap and the end of the memory, and no two of them overlap; [free]
    of each of them returns, and [malloc] of any size returns either such a
    block with room for the size, or 0 and then the memory can not grow by
    what was asked for. *)
Theorem malloc_free_safe base bot s0 s al :
  fresh base bot s0 → rtc (heap_step base) (s0, []) (s, al) →
  apart al ∧
  (∀ b, b ∈ al → b.1 mod 8 = 0 ∧ bot ≤ b.1 ∧ b.1 + 8 * b.2 ≤ u_brk s) ∧
  (∀ b, b ∈ al → ∃ s', free base (b.1 + sizeof_Header) s = Ok tt s') ∧
  (∀ nbytes, 0 ≤ nbytes ≤ 2147483600 → ∃ p s', malloc base nbytes s = Ok p s' ∧
     ((p = 0 ∧ u_lim s < u_brk s + Z.max 32768 (nbytes + 16)) ∨
      (0 < p ∧ p mod 8 = 0 ∧ apart ((p - 8, units nbytes) :: al) ∧ p + nbytes ≤ u_brk s'))).
Proof.
  intros Hf Hr. pose proof (heap_reachable _ _ _ _ _ Hf Hr) as Hok.
  assert (Hal : ∀ s1 al1, heap_ok base bot s1 al1 → apart al1 ∧
    ∀ b, b ∈ al1 → b.1 mod 8 = 0 ∧ bot ≤ b.1 ∧ b.1 + 8 * b.2 ≤ u_brk s1).
  { intros s1 al1 [[_ ->]|[l Hh]]; [split; [done|intros b Hb; by apply not_elem_of_nil in Hb]|].
    split; [by destruct Hh|]. intros b Hb. pose proof (hp_alloc _ _ _ _ _ Hh b Hb). pose proof (heap_header _ _ _ _ _ _ Hh Hb). lia. }
  destruct (Hal s al Hok) as [Hap Hrg]. split_and!; [done..| |].
  - intros b (a1&a2&->)%list_elem_of_split. destruct (free_ok _ _ _ _ _ _ Hok) as (s'&?&_). by exists s'.
  - intros nbytes Hn. destruct (units_enough nbytes Hn) as (H1&H2&H3).
    destruct (malloc_ok _ _ _ _ _ Hok H1 H3) as (p&s'&Hm&Hres). exists p, s'. split; [done|].
    destruct Hres as [(?&_&?)|[Hp Hh]]; [left; unfold core in *; split; [done|lia]|right].
    destruct (Hal _ _ Hh) as [? Hb]. destruct (Hb (p - 8, units nbytes)) as (Hb1&_&Hb2); [left|]. cbn [fst snd] in *.
    split_and!; [lia|zdm|done|lia].
Qed.

(** Once every block has been freed, the free list has one block again: all
    the memory that the heap ever got. *)
Lemma one_block base bot s l :
  heap base bot s l [] → bot < u_brk s → l = [(bot, (u_brk s - bot) / 8)].
Proof.
  intros [[_ Hsp _ Hrg _ _] _ _ _ Hcv Hb] Hlt.
  assert (Hcv' : ∀ x, in_blocks l x ↔ bot ≤ x < u_brk s). { intros x. rewrite <- Hcv. pose proof (in_blocks_nil x). tauto. }
  destruct l as [|[a n] l]. { exfalso. eapply in_blocks_nil, Hcv'. split; [apply Z.le_refl|done]. }
  destruct Hsp as (H1&H2&_&Hsl). cbn [fst snd] in *.
  assert (∀ x, in_blocks l x → a + 8 * n < x) as Hl.
  { intros x (c&Hc&Hx). unfold in_block in Hx. eapply spaced_bounds in Hc; [|done]. lia. }
  assert (Hin : ∀ x, in_block (a, n) x ∨ in_blocks l x ↔ bot ≤ x < u_brk s) by (intros; by rewrite <- in_blocks_cons).
  unfold in_block in Hin. cbn [fst snd] in Hin.
  assert (a = bot) as ->.
  { pose proof (proj1 (Hin a)). destruct (proj2 (Hin bot)) as [?|?%Hl]; lia. }
  assert (bot + 8 * n = u_brk s) as Hend.
  { pose proof (proj1 (Hin (bot + 8 * n - 1))). destruct (decide (bot + 8 * n < u_brk s)); [|lia].
    destruct (proj2 (Hin (bot + 8 * n))) as [?|?%Hl]; lia. }
  f_equal; [f_equal; zdm|]. destruct l as [|c l]; [done|]. destruct Hsl as (H3&H4&_).
  assert (in_blocks (c :: l) c.1) as Hc. { exists c. split; [left|unfold in_block; lia]. }
  pose proof (proj1 (Hin c.1) (or_intror Hc)). lia.
Qed.

(** Nothing is lost and the blocks are joined again: when a program has
    freed all that it allocated, in whatever order, the free list is one block
    that holds all the memory of the heap. *)
Theorem free_coalesces base bot s0 s :
  fresh base bot s0 → rtc (heap_step base) (s0, []) (s, []) → bot < u_brk s →
  h_ptr s base = bot ∧ h_size s bot = (u_brk s - bot) / 8 ∧ h_ptr s bot = base.
Proof.
  intros Hf Hr Hlt. destruct (heap_reachable _ _ _ _ _ Hf Hr) as [[(_&?&_) _]|[l Hh]]; [lia|].
  pose proof (one_block _ _ _ _ Hh Hlt) as ->. destruct Hh as [[Hlk _ _ _ _ _] _ _ _ _ _].
  destruct Hlk as (_&H1&H2&H3&_). done.
Qed.

(** A size in the last seven bytes of the range of [uint] wraps around in
    the number of units: [malloc] returns a block with no room at all for a
    request of 4 GB. *)
Theorem malloc_size_wraps base bot s nbytes :
  fresh base bot s → 4294967289 ≤ nbytes < 4294967296 → bot + 32768 ≤ u_lim s →
  ∃ p s', malloc base nbytes s = Ok p s' ∧ 0 < p ∧ h_size s' (p - sizeof_Header) = 1.
Proof.
  intros Hf Hn Hlim. assert (Hu : units nbytes = 1) by (unfold units, sizeof_Header, u32; zdm).
  destruct (malloc_ok base bot s [] nbytes) as (p&s'&Hm&Hres); rewrite ?Hu; [by left|done..|].
  exists p, s'. split; [done|]. destruct Hf as (_&Hb&_). rewrite Hu, Hb in Hres. unfold core in Hres.
  destruct Hres as [(?&_&?)|[Hp [[_ ?]|[l Hh]]]]; [lia|done|]. split; [lia|].
  by destruct (hp_alloc _ _ _ _ _ Hh (p - 8, 1)) as (_&_&?); [left|].
Qed.

(** A program that allocates 100 bytes and 20 bytes and then frees both. *)
Definition demo_heap : ust := Ust (λ _, 0) (λ _, 0) 0 8192 1048576.
Definition after {A} (m : M ust A) (s : ust) : ust := match m s with Ok _ s' => s' | Fail _ => s end.
Definition demo1 : ust := after (malloc 4096 100) demo_heap.
Definition demo2 : ust := after (malloc 4096 20) demo1.
Definition demo3 : ust := after (free 4096 40856) demo2.
Definition demo4 : ust := after (free 4096 40824) demo3.
Lemma demo_run : rtc (heap_step 4096) (demo_heap, []) (demo3, [(40816, 4)]).
Proof.
  eapply rtc_l; [apply (step_malloc 4096 demo_heap [] 100 40856 demo1); [lia|by vm_compute]|].
  eapply rtc_l; [apply (step_malloc 4096 demo1 [(40848, 14)] 20 40824 demo2); [lia|by vm_compute]|].
  eapply rtc_l; [apply (step_free 4096 demo2 [(40816, 4)] (40848, 14) [] demo3); by vm_compute|]. apply rtc_refl.
Qed.
Lemma malloc_free_safe_witness : ∃ s', free 4096 (40816 + sizeof_Header) demo3 = Ok tt s'.
Proof.
  refine (proj1 (proj2 (proj2 (malloc_free_safe 4096 8192 demo_heap demo3 [(40816, 4)] _ demo_run))) (40816, 4) _); [repeat split; done|by left].
Defined.
Lemma free_coalesces_witness : h_ptr demo4 4096 = 8192 ∧ h_size demo4 8192 = 4096 ∧ h_ptr demo4 8192 = 4096.
Proof.
  apply (free_coalesces 4096 8192 demo_heap demo4); [repeat split; done| |by vm_compute].
  eapply rtc_r; [apply demo_run|]. apply (step_free 4096 demo3 [] (40816, 4) [] demo4). by vm_compute.
Defined.
Lemma malloc_size_wraps_witness :
  ∃ p s', malloc 4096 4294967290 demo_heap = Ok p s' ∧ 0 < p ∧ h_size s' (p - sizeof_Header) = 1.
Proof. apply (malloc_size_wraps 4096 8192); [repeat split; done|lia|by vm_compute]. Defined.
