(* ===== verification/Ulib.v ===== *)
(** * The user library: [ulib.c]

    The string routines of user programs over the memory of a process, one
    definition per routine.  A loop that runs up to the NUL of a string has a
    bound on its steps as first argument; the theorems give a bound that is
    enough.  [gets] reads the bytes of [input], one for each call of [read],
    and then the end of the file. *)

From S2P Require Import Prelude CString Cprintf Uprintf.

Fixpoint strcpy (fuel : nat) (m : mem) (s t : Z) : option mem :=
  match fuel with
  | O => None
  | S k =>
      let m' := upd m s (m t) in
      if m t =? 0 then Some m' else strcpy k m' (s + 1) (t + 1)
  end.

Fixpoint strcmp (fuel : nat) (m : mem) (p q : Z) : option Z :=
  match fuel with
  | O => None
  | S k => if negb (m p =? 0) && (m p =? m q) then strcmp k m (p + 1) (q + 1) else Some (m p - m q)
  end.

Fixpoint strlen_loop (fuel : nat) (m : mem) (s n : Z) : option Z :=
  match fuel with
  | O => None
  | S k => if m (s + n) =? 0 then Some n else strlen_loop k m s (n + 1)
  end.
Definition strlen (fuel : nat) (m : mem) (s : Z) : option Z := strlen_loop fuel m s 0.

Definition memset (m : mem) (dst c n : Z) : mem := stosb m dst (u8 c) (Z.to_nat n).

Fixpoint strchr (fuel : nat) (m : mem) (s c : Z) : option Z :=
  match fuel with
  | O => None
  | S k => if m s =? 0 then Some 0 else if m s =? c then Some s else strchr k m (s + 1) c
  end.

(** [k] is how often the condition [i+1 < max] can still hold.  The result is
    the memory, the index of the NUL and what is left of the input. *)
Fixpoint gets_loop (k : nat) (m : mem) (buf i : Z) (input : list Z) : mem * Z * list Z :=
  match k, input with
  | S k', c :: input' =>
      let m' := upd m (buf + i) c in
      if (c =? 10) || (c =? 13) then (m', i + 1, input') else gets_loop k' m' buf (i + 1) input'
  | _, _ => (m, i, input)
  end.
Definition gets (m : mem) (buf max : Z) (input : list Z) : mem * list Z :=
  let '(m', i, input') := gets_loop (Z.to_nat (max - 1)) m buf 0 input in
  (upd m' (buf + i) 0, input').

Fixpoint atoi_loop (fuel : nat) (m : mem) (s n : Z) : option Z :=
  match fuel with
  | O => None
  | S k =>
      if (48 <=? m s) && (m s <=? 57) then atoi_loop k m (s + 1) (n *i 10 +i m s -i 48) else Some n
  end.
Definition atoi (fuel : nat) (m : mem) (s : Z) : option Z := atoi_loop fuel m s 0.

Definition memmove (m : mem) (vdst vsrc n : Z) : mem := copy_up m vdst vsrc (Z.to_nat n).

(** [stat], over the system calls that it makes. *)
Section stat.
Context {W : Type} (open : list Z → Z → M W Z) (fstat : Z → M W Z) (close : Z → M W Z).
Definition stat (n : list Z) : M W Z :=
  fd ← open n 0;
  if fd <? 0 then mret (-1)
  else
    r ← fstat fd;
    close fd;;
    mret r.
End stat.

(** ** Strings in memory *)

(** The string [l] is at [a], its NUL included. *)
Definition string_at (m : mem) (a : Z) (l : list Z) : Prop :=
  Forall (λ c, 0 < c < 256) l ∧ bytes_at m a (length l) = l ∧ m (a + Z.of_nat (length l)) = 0.
Lemma string_at_nil m a : string_at m a [] ↔ m a = 0.
Proof. unfold string_at. cbn. rewrite Z.add_0_r. split; [tauto|]. by repeat split. Qed.
Lemma string_at_cons m a c l : string_at m a (c :: l) ↔ 0 < c < 256 ∧ m a = c ∧ string_at m (a + 1) l.
Proof.
  unfold string_at. rewrite Forall_cons. cbn [length bytes_at]. replace (a + Z.of_nat (S (length l))) with (a + 1 + Z.of_nat (length l)) by lia.
  split; [intros ([??]&[= ??]&?)|intros (?&->&?&->&?)]; tauto.
Qed.
Lemma string_at_ext m m' a l :
  (∀ x, a ≤ x ≤ a + Z.of_nat (length l) → m' x = m x) → string_at m a l → string_at m' a l.
Proof.
  intros Hx (H1&H2&H3). split; [done|]. rewrite Hx by lia. split; [|done]. rewrite <- H2 at 2. apply bytes_at_ext.
  intros. apply Hx. lia.
Qed.

Lemma strlen_ok m s l fuel n :
  string_at m (s + n) l → (length l < fuel)%nat → strlen_loop fuel m s n = Some (n + Z.of_nat (length l)).
Proof.
  revert fuel n. induction l as [|c l IH]; intros [|fuel] n Hs Hf; cbn [length strlen_loop] in *; try lia.
  - apply string_at_nil in Hs as ->. cbn. f_equal. lia.
  - apply string_at_cons in Hs as (Hc&->&Hs). destruct (Z.eqb_spec c 0); [lia|].
    rewrite IH; [f_equal; lia|by rewrite Z.add_assoc|lia].
Qed.

(** The order of the dictionary, on the bytes as unsigned characters. *)
Fixpoint dict_lt (a b : list Z) : Prop :=
  match a, b with
  | _, [] => False
  | [], _ :: _ => True
  | x :: a', y :: b' => x < y ∨ x = y ∧ dict_lt a' b'
  end.

(** [strcmp] compares two strings in the order of the dictionary. *)
Theorem strcmp_order m p q a b fuel :
  string_at m p a → string_at m q b → (length a < fuel)%nat →
  ∃ r, strcmp fuel m p q = Some r ∧ (r = 0 ↔ a = b) ∧ (r < 0 ↔ dict_lt a b).
Proof.
  revert p q b fuel. induction a as [|c a IH]; intros p q b [|fuel] Ha Hb Hf; cbn [length strcmp] in *; try lia.
  - apply string_at_nil in Ha as ->. cbn. eexists. split; [done|]. destruct b as [|d b].
    + apply string_at_nil in Hb as ->. cbn. split; [done|lia].
    + apply string_at_cons in Hb as (?&->&_). split; [split; [lia|done]|]. split; [done|lia].
  - apply string_at_cons in Ha as (Hc&->&Ha). destruct (Z.eqb_spec c 0); [lia|]. cbn [negb andb].
    destruct b as [|d b].
    + apply string_at_nil in Hb as ->. destruct (Z.eqb_spec c 0); [lia|]. eexists. split; [done|]. cbn. split; [split; [lia|done]|lia].
    + apply string_at_cons in Hb as (Hd&->&Hb). destruct (Z.eqb_spec c d) as [->|Hne].
      * destruct (IH (p + 1) (q + 1) b fuel) as (r&->&H0&Hlt); [done..|lia|]. exists r. split; [done|].
        cbn. split; [rewrite H0; split; congruence|]. rewrite Hlt. split; [tauto|intros [?|[_ ?]]; [lia|done]].
      * eexists. split; [done|]. cbn. split; [split; [lia|congruence]|]. lia.
Qed.

(** [strcpy] to a place that does not meet the string makes a copy of it, and
    writes nothing else. *)
Theorem strcpy_copies m s t l fuel :
  string_at m t l → disjoint_regions s (Z.of_nat (length l) + 1) t (Z.of_nat (length l) + 1) → (length l < fuel)%nat →
  ∃ m', strcpy fuel m s t = Some m' ∧ string_at m' s l ∧ string_at m' t l ∧
    ∀ x, ¬ (s ≤ x ≤ s + Z.of_nat (length l)) → m' x = m x.
Proof.
  intros Ht Hd Hf. assert (∃ m', strcpy fuel m s t = Some m' ∧ string_at m' s l ∧
    ∀ x, ¬ (s ≤ x ≤ s + Z.of_nat (length l)) → m' x = m x) as (m'&H1&H2&H3); cycle 1.
  { exists m'. split_and!; try done. eapply string_at_ext; [|done]. intros x Hx. apply H3. unfold disjoint_regions in Hd. lia. }
  revert m s t fuel Ht Hd Hf. unfold disjoint_regions.
  induction l as [|c l IH]; intros m s t [|fuel] Ht Hd Hf; cbn [length strcpy] in *; try lia.
  - apply string_at_nil in Ht as ->. eexists. split; [done|]. split; [apply string_at_nil, upd_eq|].
    intros x Hx. apply upd_ne. lia.
  - apply string_at_cons in Ht as (Hc&->&Ht). destruct (Z.eqb_spec c 0); [lia|].
    destruct (IH (upd m s c) (s + 1) (t + 1) fuel) as (m'&Heq&H1&H2); [|lia..|].
    { eapply string_at_ext; [|done]. intros x Hx. apply upd_ne. lia. }
    exists m'. split; [done|]. split; [apply string_at_cons; split; [done|split; [|done]]|].
    + rewrite H2 by lia. apply upd_eq.
    + intros x Hx. rewrite H2 by lia. apply upd_ne. lia.
Qed.

(** ** [gets] *)

(** A line: up to and including the first newline or return. *)
Fixpoint line (l : list Z) : list Z :=
  match l with
  | [] => []
  | c :: l' => if (c =? 10) || (c =? 13) then [c] else c :: line l'
  end.
Lemma line_prefix l : line l ++ drop (length (line l)) l = l.
Proof. induction l as [|c l IH]; [done|]. cbn. destruct (_ || _); [done|]. cbn. by f_equal. Qed.
Lemma gets_loop_spec k m buf i input :
  let got := take k (line input) in
  gets_loop k m buf i input = (store m (buf + i) got, i + Z.of_nat (length got), drop (length got) input).
Proof.
  revert m i input. induction k as [|k IH]; intros m i input; [cbn; by rewrite Z.add_0_r, drop_0|].
  destruct input as [|c input]; [cbn; by rewrite Z.add_0_r|]. cbn [gets_loop line].
  destruct (_ || _); [cbn; by rewrite take_nil, drop_0|]. cbn zeta in IH. rewrite IH. cbn [take store length drop].
  f_equal; [f_equal; [|lia]]. by rewrite Z.add_assoc.
Qed.

(** [gets] puts the next line of the input into the buffer, or the first
    [max-1] bytes of it when it is longer, and a NUL after that; it takes
    these bytes from the input and writes to no byte outside of the buffer. *)
Theorem gets_line m buf max input :
  1 ≤ max →
  let '(m', input') := gets m buf max input in
  let got := take (Z.to_nat (max - 1)) (line input) in
  bytes_at m' buf (length got) = got ∧ m' (buf + Z.of_nat (length got)) = 0 ∧ input = got ++ input' ∧
  ∀ x, ¬ (buf ≤ x < buf + max) → m' x = m x.
Proof.
  intros Hmax. unfold gets. rewrite gets_loop_spec. cbn zeta. rewrite Z.add_0_r.
  set (got := take _ _). assert (Hlen : Z.of_nat (length got) ≤ max - 1) by (unfold got; rewrite length_take; lia).
  replace (buf + (0 + Z.of_nat (length got))) with (buf + Z.of_nat (length got)) by lia. split_and!.
  - trans (bytes_at (store m buf got) buf (length got)); [|apply bytes_at_store]. apply bytes_at_ext. intros x Hx. apply upd_ne. lia.
  - apply upd_eq.
  - assert (got `prefix_of` input) as [r Hr]; [|rewrite Hr at 2; by rewrite drop_app_length].
    etrans; [apply prefix_take|]. exists (drop (length (line input)) input). by rewrite line_prefix.
  - intros x Hx. rewrite upd_ne by lia. apply store_ne. lia.
Qed.
Lemma gets_line_witness :
  let '(m', input') := gets (λ _, 7) 100 8 (lit "ls\nrm\n") in bytes_at m' 100 5 = lit "ls\n" ++ [0; 7] ∧ input' = lit "rm\n".
Proof. pose proof (gets_line (λ _, 7) 100 8 (lit "ls\nrm\n") ltac:(lia)) as _. by vm_compute. Defined.

(** ** [atoi] *)

Definition decimal (ds : list Z) (n : Z) : Z := foldl (λ n c, 10 * n + (c - 48)) n ds.
Definition is_digit (c : Z) : Prop := 48 ≤ c ≤ 57.

Lemma decimal_mono ds n : 0 ≤ n → Forall is_digit ds → n ≤ decimal ds n.
Proof.
  revert n. induction ds as [|c ds IH]; intros n Hn Hd; [done|]. apply Forall_cons in Hd as [Hc Hd]. unfold is_digit in Hc.
  specialize (IH (10 * n + (c - 48)) ltac:(lia) Hd). change (n ≤ decimal ds (10 * n + (c - 48))). lia.
Qed.
Lemma atoi_loop_spec fuel m s n ds :
  Forall is_digit ds → bytes_at m s (length ds) = ds → ¬ is_digit (m (s + Z.of_nat (length ds))) →
  0 ≤ n → decimal ds n < 2147483648 → (length ds < fuel)%nat → atoi_loop fuel m s n = Some (decimal ds n).
Proof.
  unfold is_digit. revert fuel s n. induction ds as [|c ds IH]; intros [|fuel] s n Hd Hb He Hn Hmax Hf; cbn [length atoi_loop] in *; try lia.
  - rewrite Z.add_0_r in He. destruct (Z.leb_spec 48 (m s)), (Z.leb_spec (m s) 57); try done. lia.
  - apply Forall_cons in Hd as [Hc Hd]. cbn in Hb. injection Hb as Hb0 Hb. rewrite Hb0.
    destruct (Z.leb_spec 48 c), (Z.leb_spec c 57); try lia. cbn [andb].
    assert (10 * n + (c - 48) ≤ decimal (c :: ds) n) as Hle by (apply (decimal_mono ds); [lia|done]).
    assert (n *i 10 +i c -i 48 = 10 * n + (c - 48)) as ->.
    { rewrite (s32_id (n * 10)) by (unfold is_i32; lia). unfold s32. zdm. }
    apply IH; try done; [|lia|lia]. by replace (s + 1 + Z.of_nat (length ds)) with (s + Z.of_nat (S (length ds))) by lia.
Qed.

(** The digits that [printint] writes. *)
Lemma digit_loop_digits fuel x :
  0 ≤ x < 10 ^ Z.of_nat fuel → 0 < Z.of_nat fuel →
  Forall is_digit (rev (digit_loop Uprintf.digits fuel x 10)) ∧ decimal (rev (digit_loop Uprintf.digits fuel x 10)) 0 = x ∧
  (length (digit_loop Uprintf.digits fuel x 10) ≤ fuel)%nat.
Proof.
  revert x. induction fuel as [|k IH]; intros x Hx Hk; [lia|]. unfold digit_loop; fold digit_loop.
  assert (Hdig : nth (Z.to_nat (x mod 10)) Uprintf.digits 0 = 48 + x mod 10).
  { assert (∀ d, 0 ≤ d < 10 → nth (Z.to_nat d) Uprintf.digits 0 = 48 + d) as Hd.
    { intros d Hd. assert (d ∈ [0;1;2;3;4;5;6;7;8;9]) as Hin by (set_unfold; lia).
      set_unfold in Hin. by destruct_or!; subst. }
    apply Hd. apply Z.mod_pos_bound. lia. }
  rewrite Hdig. pose proof (Z.mod_pos_bound x 10 ltac:(lia)). destruct (Z.eqb_spec (x / 10) 0) as [Hz|Hnz].
  - cbn. split_and!; [|zdm|lia]. apply Forall_singleton. unfold is_digit. lia.
  - destruct (IH (x / 10)) as (H1&H2&H3).
    { split; [apply Z.div_pos; lia|]. apply Z.div_lt_upper_bound; [lia|]. rewrite <- Z.pow_succ_r by lia.
      replace (Z.succ (Z.of_nat k)) with (Z.of_nat (S k)) by lia. apply Hx. }
    { destruct k; [|lia]. cbn in Hx. zdm. }
    cbn [rev length]. split_and!; [|unfold decimal in *; rewrite foldl_app, H2; cbn; zdm|lia].
    apply Forall_app. split; [done|]. apply Forall_singleton. unfold is_digit. lia.
Qed.

(** [atoi] reads back what [printf] prints for ["%d"]: of the string of
    digits of any number from 0 to the largest [int], in memory, it returns
    that number. *)
Theorem atoi_printint m s x fuel :
  0 ≤ x < 2147483648 → string_at m s (Uprintf.printint x 10 1) → (32 < fuel)%nat → atoi fuel m s = Some x.
Proof.
  intros Hx (H1&H2&H3) Hf. unfold Uprintf.printint in *. destruct (Z.ltb_spec x 0); [lia|]. rewrite andb_false_r in *.
  rewrite (u32_id x) in * by (unfold is_u32; lia).
  destruct (digit_loop_digits 32 x) as (Hd&Hdec&Hlen); [split; [lia|]; cbn; lia|lia|].
  unfold atoi. rewrite <- Hdec at 1. apply atoi_loop_spec; try done; rewrite ?Hdec; try lia.
  - rewrite H3. unfold is_digit. lia.
  - rewrite length_rev. lia.
Qed.
Lemma atoi_printint_witness : atoi 40 (store (λ _, 0) 100 (Uprintf.printint 2147483647 10 1)) 100 = Some 2147483647.
Proof.
  apply atoi_printint; [lia| |lia]. split; [|by vm_compute].
  apply Forall_forall. intros c Hc. vm_compute in Hc. set_unfold in Hc. lia.
Defined.

(** ** [memmove] *)

(** What the forward copy of the user library leaves in memory: a copy of the
    source, unless the destination starts inside of it; then the bytes between
    the two starts are repeated. *)
Theorem umemmove_result m dst src n x :
  0 ≤ n →
  memmove m dst src n x =
    if (dst <=? x) && (x <? dst + n)
    then m (src + (if (src <? dst) && (dst <? src + n) then (x - dst) mod (dst - src) else x - dst)) else m x.
Proof.
  intros Hn. unfold memmove. destruct (Z.ltb_spec src dst), (Z.ltb_spec dst (src + n)); cbn [andb].
  2-4: rewrite copy_up_spec by lia; by rewrite Z2Nat.id by lia.
  replace n with (Z.of_nat (Z.to_nat n)) at 2 by lia. clear H0 Hn.
  revert m dst src H. induction (Z.to_nat n) as [|k IH]; intros m d s Hlt; cbn [copy_up]; [zcases|].
  rewrite IH by lia. replace (d + 1 - (s + 1)) with (d - s) by lia.
  pose proof (Z.mod_pos_bound (x - (d + 1)) (d - s) ltac:(lia)) as Hm.
  assert (x - d - 1 = x - (d + 1)) as Hsub by lia.
  destruct (decide (x = d)) as [->|Hxd].
  - zcases; rewrite upd_eq; f_equal; rewrite Z.sub_diag, Zmod_0_l; lia.
  - zcases; try (by apply upd_ne). destruct (decide ((x - (d + 1)) mod (d - s) = d - s - 1)) as [Hr|Hr].
    + replace (s + 1 + (x - (d + 1)) `mod` (d - s)) with d by lia. rewrite upd_eq. f_equal.
      enough ((x - d) mod (d - s) = 0) by lia. replace (x - d) with (x - (d + 1) + 1) by lia.
      rewrite <- Zplus_mod_idemp_l, Hr. replace (d - s - 1 + 1) with (d - s) by lia. apply Z_mod_same_full.
    + rewrite upd_ne by lia. f_equal. enough ((x - d) mod (d - s) = (x - (d + 1)) mod (d - s) + 1) by lia.
      replace (x - d) with (x - (d + 1) + 1) by lia. rewrite <- Zplus_mod_idemp_l. apply Z.mod_small. lia.
Qed.
(** So it differs from [memmove] of the kernel, which copies in both
    directions: the bytes 1 2 3 4 moved up by one. *)
Example umemmove_differs : bytes_at (memmove demo_mem 1 0 4) 0 5 = [1; 1; 1; 1; 1] ∧ bytes_at (CString.memmove demo_mem 1 0 4) 0 5 = [1; 1; 2; 3; 4].
Proof. by vm_compute. Qed.
