(* ===== verification/ShMain.v ===== *)
(** * The shell's main loop and the first program: [main] of [sh.c], [init.c]

    A session of the shell: it makes sure that three descriptors are open, and
    then reads lines, changes directory itself and forks a child for every
    other line.  The input is a list with the bytes that the calls of [read]
    give to each call of [getcmd], so that what the children read from the same
    descriptor is left open; after the list the input is at its end. *)

From S2P Require Import Prelude CString Cprintf Ulib Sh ShThms ShPrint ShRun.

Definition O_RDWR : Z := 2.
Definition console : list Z := bytes "console".

(** The C string at [a], in a buffer of [n] bytes. *)
Definition cstring (m : mem) (a : Z) (n : nat) : list Z := upto0 (bytes_at m a n).

(** [getcmd]: its value, the memory and what is left of the input.  The prompt
    is printed by the caller below. *)
Definition getcmd (m : mem) (buf nbuf : Z) (input : list Z) : Z * mem * list Z :=
  let m1 := memset m buf 0 nbuf in
  let '(m2, input') := gets m1 buf nbuf input in
  (if m2 buf =? 0 then -1 else 0, m2, input').

(** What [parsecmd] leaves of a line when it parses a prefix of it. *)
Definition leftovers (l : list Z) : list Z :=
  match (put l;; c ← parseline (parse_fuel l); peek [];; get) [] with
  | Ok r _ => r
  | Fail _ => []
  end.
(** [runcmd(parsecmd(buf))], in the child.  The strings of the command are read
    from the line as [nulterminate] leaves it. *)
Definition run_line (l : list Z) : act (list Z) :=
  match parsecmd l [] with
  | Ok (c, b) _ => runcmd (cmd_map (λ t, string_at (length l) b t.1) c)
  | Fail (Panic msg) =>
      match leftovers l with
      | [] => sh_panic msg
      | r => Print "leftovers: %s\n" (Some r) (sh_panic msg)
      end
  | Fail _ => Exit
  end.

(** The loop that opens the console until descriptors 0, 1 and 2 are open.
    Four rounds are enough, as each gets a higher descriptor. *)
Fixpoint open_console (k : nat) (rest : act (list Z)) : act (list Z) :=
  match k with
  | O => Exit
  | S k' => Open console O_RDWR rest (λ fd, if 3 <=? fd then Close fd rest else open_console k' rest)
  end.

Definition sizeof_buf : Z := 100.
Definition is_cd (m : mem) (buf : Z) : bool := (m buf =? chr "c") && (m (buf + 1) =? chr "d") && (m (buf + 2) =? chr " ").
Fixpoint sh_loop (m : mem) (buf : Z) (inputs : list (list Z)) : act (list Z) :=
  match inputs with
  | [] => Print "$ " None Exit
  | input :: inputs' =>
      Print "$ " None
        (let '(r, m1, _) := getcmd m buf sizeof_buf input in
         if r <? 0 then Exit
         else if is_cd m1 buf then
           let len := Z.of_nat (length (cstring m1 buf (Z.to_nat sizeof_buf))) in
           let m2 := upd m1 (buf + (len - 1)) 0 in
           let dir := cstring m2 (buf + 3) (Z.to_nat (sizeof_buf - 3)) in
           Chdir dir (Print "cannot cd %s\n" (Some dir) (sh_loop m2 buf inputs')) (sh_loop m2 buf inputs')
         else fork1 (run_line (cstring m1 buf (Z.to_nat sizeof_buf))) (Wait (λ _, sh_loop m1 buf inputs')))
  end.
Definition sh_main (m : mem) (buf : Z) (inputs : list (list Z)) : act (list Z) :=
  open_console 4 (sh_loop m buf inputs).

(** [init.c], cut off after [n] rounds of its two loops. *)
Fixpoint init_loop (n : nat) : act (list Z) :=
  match n with
  | O => Exit
  | S n' =>
      Print "init: starting sh\n" None
        (Fork (Print "init: fork failed\n" None Exit)
          (Sh.Exec [bytes "sh"] (Print "init: exec sh failed\n" None Exit))
          (λ pid, init_wait n' pid))
  end
with init_wait (n : nat) (pid : Z) : act (list Z) :=
  match n with
  | O => Exit
  | S n' => Wait (λ wpid, if (0 <=? wpid) && negb (wpid =? pid) then Print "zombie!\n" None (init_wait n' pid) else init_loop n')
  end.
Definition init_dups (n : nat) : act (list Z) := Dup 0 (Dup 0 (init_loop n)).
Definition init_main (n : nat) : act (list Z) :=
  Open console O_RDWR (Mknod console 1 1 (Open console O_RDWR (init_dups n) (λ _, init_dups n))) (λ _, init_dups n).

(** ** Redirections that the parser makes *)

Definition yields {A} (m : PM A) (Q : A → Prop) : Prop := ∀ s a s', m s = Ok a s' → Q a.
Lemma yields_ret {A} (a : A) (Q : A → Prop) : Q a → yields (mret a) Q.
Proof. intros H s a' s' [= <- _]. done. Qed.
Lemma yields_any {A} (m : PM A) : yields m (λ _, True).
Proof. done. Qed.
Lemma yields_bind {A B} (m : PM A) (k : A → PM B) (P : A → Prop) Q :
  yields m P → (∀ a, P a → yields (k a) Q) → yields (m ≫= k) Q.
Proof. intros Hm Hk s b s' E. apply bind_Ok in E as (a&s1&E1&E2). eapply Hk; [|done]. by eapply Hm. Qed.
Lemma yields_fail {A} f (Q : A → Prop) : yields (fail f) Q.
Proof. by intros s a s' [=]. Qed.
Create HintDb yields.
#[local] Hint Resolve yields_ret yields_any yields_fail : yields.
Ltac ybind := eapply yields_bind; [eauto with yields|cbn beta; intros].

Definition std_redir (r : redir) : Prop := r.2 = 0 ∨ r.2 = 1.
Lemma parseredirs_std n : yields (parseredirs n) (Forall std_redir).
Proof.
  induction n as [|n IH]; cbn [parseredirs]; [apply yields_fail|]. ybind.
  destruct a; [|apply yields_ret; constructor]. ybind. destruct a as [t ?]. ybind. destruct a as [a f].
  destruct (negb _); [apply yields_fail|]. eapply yields_bind; [exact IH|]. intros rs Hrs. apply yields_ret.
  unfold std_redir. repeat case_match; [..|done]; (constructor; [cbn; auto|done]).
Qed.
Lemma redirs_std : yields redirs (Forall std_redir).
Proof. unfold redirs. ybind. apply parseredirs_std. Qed.
Lemma parseargs_std n argc : yields (parseargs n argc) (λ r, Forall std_redir r.2).
Proof.
  revert argc. induction n as [|n IH]; intros argc; cbn [parseargs]; [apply yields_fail|]. ybind.
  destruct a; [by apply yields_ret|]. ybind. destruct a as [t a].
  repeat (case_match; [by eauto with yields|]). eapply yields_bind; [apply redirs_std|]. intros rs Hrs.
  eapply yields_bind; [apply IH|]. intros [args rs'] Hrs'. apply yields_ret. by apply Forall_app.
Qed.
Lemma fds_ok_wrap (c : cmd tok) rs : fds_ok c → Forall std_redir rs → fds_ok (wrap c rs).
Proof. intros Hc H. revert c Hc. induction H as [|r rs Hr _ IH]; intros c Hc; [done|]. apply IH. done. Qed.
Lemma parseback_fds n c : fds_ok c → yields (parseback n c) fds_ok.
Proof.
  revert c. induction n as [|n IH]; intros c Hc; cbn [parseback]; [apply yields_fail|]. ybind.
  destruct a; [|by apply yields_ret]. ybind. by apply IH.
Qed.
Lemma parse_fds n :
  yields (parseline n) fds_ok ∧ yields (parsepipe n) fds_ok ∧ yields (parseexec n) fds_ok ∧ yields (parseblock n) fds_ok.
Proof.
  induction n as [|n (IHL&IHP&IHE&IHB)]; [split_and!; apply yields_fail|]. split_and!.
  - eapply yields_bind; [exact IHP|]. intros c Hc. ybind. eapply yields_bind; [by apply parseback_fds|]. intros c' Hc'.
    ybind. destruct a0; [|by apply yields_ret]. ybind. eapply yields_bind; [exact IHL|]. intros r Hr. by apply yields_ret.
  - eapply yields_bind; [exact IHE|]. intros c Hc. ybind. destruct a; [|by apply yields_ret]. ybind.
    eapply yields_bind; [exact IHP|]. intros r Hr. by apply yields_ret.
  - cbn [parseexec]. ybind. destruct a; [exact IHB|]. eapply yields_bind; [apply redirs_std|]. intros rs Hrs. ybind.
    eapply yields_bind; [apply parseargs_std|]. intros [args rs'] Hrs'. apply yields_ret, fds_ok_wrap; [done|by apply Forall_app].
  - cbn [parseblock]. ybind. destruct (negb a); [apply yields_fail|]. ybind. eapply yields_bind; [exact IHL|]. intros c Hc.
    ybind. destruct (negb a1); [apply yields_fail|]. ybind. eapply yields_bind; [apply redirs_std|]. intros rs Hrs.
    by apply yields_ret, fds_ok_wrap.
Qed.
Lemma parsecmd_fds l : yields (parsecmd l) (λ r, fds_ok r.1).
Proof.
  unfold parsecmd. ybind. eapply yields_bind; [apply parse_fds|]. intros c Hc. ybind. ybind.
  case_match; [by apply yields_ret|apply yields_fail].
Qed.
Lemma fds_ok_map {W W'} (f : W → W') c : fds_ok c → fds_ok (cmd_map f c).
Proof. induction c; cbn; tauto. Qed.

(** ** A session *)

(** The line that a call of [gets] takes from its input. *)
Definition typed (input : list Z) : list Z := upto0 (take (Z.to_nat (sizeof_buf - 1)) (line input)).
Definition cd_line (l : list Z) : bool :=
  match l with
  | c :: d :: s :: _ => (c =? chr "c") && (d =? chr "d") && (s =? chr " ")
  | _ => false
  end.
(** The lines of a session that are given to a child, up to an empty one, which
    stands for the end of the input. *)
Fixpoint command_lines (inputs : list (list Z)) : list (list Z) :=
  match inputs with
  | [] => []
  | input :: inputs' =>
      match typed input with
      | [] => []
      | l => if cd_line l then command_lines inputs' else l :: command_lines inputs'
      end
  end.

Lemma upto0_app_zero l r : upto0 (l ++ 0 :: r) = upto0 l.
Proof. induction l as [|c l IH]; [done|]. cbn. by rewrite IH. Qed.
Lemma bytes_at_cut m a n k : bytes_at m a (n + k) = bytes_at m a n ++ bytes_at m (a + Z.of_nat n) k.
Proof.
  revert a. induction n as [|n IH]; intros a; [cbn; by rewrite Z.add_0_r|]. cbn [Nat.add bytes_at app]. f_equal.
  rewrite IH. do 2 f_equal. lia.
Qed.
Lemma cstring_of m a n l : bytes_at m a (length l) = l → m (a + Z.of_nat (length l)) = 0 → (length l < n)%nat →
  cstring m a n = upto0 l.
Proof.
  intros Hb Hz Hn. unfold cstring. replace n with (length l + S (n - length l - 1))%nat by lia.
  rewrite bytes_at_cut, Hb. cbn [bytes_at]. by rewrite Hz, upto0_app_zero.
Qed.
Lemma cstring_is_cd m a n : (3 ≤ n)%nat → is_cd m a = cd_line (cstring m a n).
Proof.
  intros Hn. unfold is_cd, cstring. destruct n as [|[|[|n]]]; [lia..|]. cbn [bytes_at].
  replace (a + 1 + 1) with (a + 2) by lia. cbn [upto0].
  destruct (Z.eqb_spec (m a) 0) as [->|]; [done|]. destruct (Z.eqb_spec (m (a + 1)) 0) as [->|]; [by rewrite andb_false_r|].
  destruct (Z.eqb_spec (m (a + 2)) 0) as [->|]; [by rewrite andb_false_r|]. done.
Qed.

Lemma getcmd_typed m buf input :
  let '(r, m1, _) := getcmd m buf sizeof_buf input in
  cstring m1 buf (Z.to_nat sizeof_buf) = typed input ∧ r = match typed input with [] => -1 | _ => 0 end.
Proof.
  unfold getcmd. pose proof (gets_line (memset m buf 0 sizeof_buf) buf sizeof_buf input ltac:(done)) as H.
  destruct (gets _ buf sizeof_buf input) as [m2 input']. destruct H as (Hb&Hz&_&_).
  set (got := take (Z.to_nat (sizeof_buf - 1)) (line input)) in *.
  assert (E : cstring m2 buf (Z.to_nat sizeof_buf) = typed input).
  { apply cstring_of; [done..|]. unfold got. rewrite length_take. unfold sizeof_buf. lia. }
  split; [done|]. rewrite <- E. unfold cstring. change (Z.to_nat sizeof_buf) with 100%nat. cbn [bytes_at upto0].
  by destruct (m2 buf =? 0).
Qed.

Section session.
Context (n : nat) (Hn : (2 ≤ n)%nat) (i o e : obj (list Z)).
Abbreviation table := (stdio n i o e).

(** A program runs, with its descriptors, for the command of the line [l]. *)
Definition runs (l : list Z) (argv : list (list Z)) (t' : list (option (obj (list Z)))) : Prop :=
  ∃ c b s, parsecmd l [] = Ok (c, b) s ∧
    ∃ i' o', t' = stdio n i' o' e ∧ wired i o (cmd_map (λ t, string_at (length l) b t.1) c) argv i' o'.
Lemma reaches_print t msg x k argv t' : reaches (W := list Z) t (Print msg x k) argv t' ↔ reaches t k argv t'.
Proof. split; [by inversion 1|by constructor]. Qed.
Lemma run_line_reaches l argv t' : reaches table (run_line l) argv t' ↔ runs l argv t'.
Proof.
  unfold run_line, runs. destruct (parsecmd l []) as [[c b] s|f] eqn:E.
  - rewrite runcmd_wiring by (done || by eapply fds_ok_map, (parsecmd_fds l _ _ _ E)). split; [naive_solver|].
    by intros (?&?&?&[= <- <- <-]&?).
  - split; [|naive_solver]. destruct f; try by intros ?%reaches_exit.
    unfold sh_panic. case_match; rewrite ?reaches_print; by intros ?%reaches_exit.
Qed.
Lemma reaches_chdir d bad k argv t' :
  reaches table (Chdir d bad k) argv t' ↔ reaches table bad argv t' ∨ reaches table k argv t'.
Proof. split; [inversion 1; auto|intros [?|?]; [by apply R_chdir_failed|by apply R_chdir]]. Qed.

Lemma sh_loop_reaches m buf inputs argv t' :
  reaches table (sh_loop m buf inputs) argv t' ↔ ∃ l, l ∈ command_lines inputs ∧ runs l argv t'.
Proof.
  revert m. induction inputs as [|input inputs IH]; intros m; cbn [sh_loop command_lines].
  { rewrite reaches_print. split; [by intros ?%reaches_exit|by intros (?&?%elem_of_nil&_)]. }
  rewrite reaches_print. pose proof (getcmd_typed m buf input) as H. destruct (getcmd _ _ _ _) as [[r m1] rest].
  destruct H as [El Er]. rewrite (cstring_is_cd m1 buf (Z.to_nat sizeof_buf)), !El by (unfold sizeof_buf; lia).
  rewrite Er. destruct (typed input) as [|x l] eqn:Et.
  { cbn. split; [by intros ?%reaches_exit|by intros (?&?%elem_of_nil&_)]. }
  cbn [Z.ltb Z.compare]. destruct (cd_line (x :: l)).
  - rewrite reaches_chdir, reaches_print, !IH. tauto.
  - rewrite reaches_fork1, reaches_wait, run_line_reaches, IH. set_solver.
Qed.
End session.

(** ** The descriptors of the shell *)

Abbreviation con := (Opened console O_RDWR).
(** Descriptors from 0 on are open on [objs], [k] more are free. *)
Definition first_open (objs : list (obj (list Z))) (k : nat) : list (option (obj (list Z))) := (Some <$> objs) ++ replicate k None.
Lemma alloc_first x objs k : alloc x (first_open objs (S k)) = Some (Z.of_nat (length objs), first_open (objs ++ [x]) k).
Proof.
  unfold first_open. induction objs as [|y objs IH]; [done|]. rewrite fmap_cons. cbn [app]. cbn [alloc length].
  rewrite IH. f_equal. f_equal. lia.
Qed.
Lemma close_last objs x k : close (Z.of_nat (length objs)) (first_open (objs ++ [x]) k) = first_open objs (S k).
Proof.
  unfold close, first_open. rewrite Nat2Z.id, fmap_app, <- app_assoc, insert_app_r_alt by (by rewrite length_fmap).
  by rewrite length_fmap, Nat.sub_diag.
Qed.
Lemma reaches_open_any t f mode bad k fd t1 argv t' :
  alloc (Opened f mode) t = Some (fd, t1) →
  reaches (W := list Z) t (Open f mode bad k) argv t' ↔ reaches t bad argv t' ∨ reaches t1 (k fd) argv t'.
Proof. intros E. split; [inversion 1; simplify_eq; auto|]. intros [?|?]; [by apply R_open_failed|by eapply R_open]. Qed.

Lemma reaches_dup_closed t fd k argv t' :
  lookup_fd fd t = None → reaches (W := list Z) t (Dup fd k) argv t' ↔ reaches t k argv t'.
Proof. intros E. split; [inversion 1; simplify_eq; done|]. intros ?. apply R_dup_failed; auto. Qed.
Lemma reaches_mknod t f ma mi k argv t' : reaches (W := list Z) t (Mknod f ma mi k) argv t' ↔ reaches t k argv t'.
Proof. split; [by inversion 1|by constructor]. Qed.

(** The loop that opens the console leaves the shell with descriptors 0, 1 and
    2 open on it, those that were open before apart, or with fewer when a call
    of [open] fails. *)
Theorem open_console_fills objs k rest argv t' :
  (length objs ≤ 3)%nat → (4 ≤ length objs + k)%nat →
  reaches (first_open objs k) (open_console (4 - length objs) rest) argv t' ↔
  ∃ j, (j ≤ 3 - length objs)%nat ∧ reaches (first_open (objs ++ replicate j con) (k - j)) rest argv t'.
Proof.
  remember (3 - length objs)%nat as d eqn:Ed. revert objs k Ed. induction d as [|d IH]; intros objs k Ed H3 H4;
    (destruct k as [|k]; [lia|]); replace (4 - length objs)%nat with (S (3 - length objs)) by lia; rewrite <- Ed; cbn [open_console];
    rewrite (reaches_open_any _ _ _ _ _ _ _ _ _ (alloc_first con objs k)).
  - destruct (Z.leb_spec 3 (Z.of_nat (length objs))); [|lia]. rewrite reaches_close, close_last. split.
    + intros H'. exists 0%nat. split; [lia|]. rewrite app_nil_r, Nat.sub_0_r. tauto.
    + intros (j&Hj&H'). replace j with 0%nat in H' by lia. rewrite app_nil_r, Nat.sub_0_r in H'. by left.
  - destruct (Z.leb_spec 3 (Z.of_nat (length objs))); [lia|].
    specialize (IH (objs ++ [con]) k). rewrite length_app in IH. cbn [length] in IH.
    replace (4 - (length objs + 1))%nat with (S d) in IH by lia. rewrite IH by lia. split.
    + intros [H'|(j&Hj&H')]; [exists 0%nat; split; [lia|]; by rewrite app_nil_r, Nat.sub_0_r|].
      exists (S j). split; [lia|]. by rewrite <- app_assoc in H'.
    + intros ([|j]&Hj&H'); [left; by rewrite app_nil_r, Nat.sub_0_r in H'|]. right. exists j. split; [lia|]. by rewrite <- app_assoc.
Qed.
Lemma open_console_fills_witness :
  ∃ j, (j ≤ 3)%nat ∧ reaches (first_open (replicate j con) (16 - j)) (Sh.Exec [] Exit) [] (first_open [con; con; con] 13).
Proof.
  apply (open_console_fills [] 16); [cbn; lia..|]. cbn [length Nat.sub]. do 3 (eapply R_open; [reflexivity|]; cbn).
  eapply R_open; [reflexivity|]. cbn. apply R_close, R_exec.
Defined.

(** C12. A session of the shell, from its start with descriptors 0, 1 and 2 to
    the end of its input, executes exactly the programs of the lines typed:
    a program is executed with descriptors [t'] if and only if some line other
    than [cd] that comes before the end of the input parses to a command of
    which it is a part, and [t'] has its input and output as the command says,
    the error output of the shell, and no other descriptor.  Lines that do not
    parse execute nothing, and do not end the session. *)
Theorem shell_session n i o e m buf inputs argv t' :
  (2 ≤ n)%nat →
  reaches (stdio n i o e) (sh_main m buf inputs) argv t' ↔ ∃ l, l ∈ command_lines inputs ∧ runs n i o e l argv t'.
Proof.
  intros Hn. rewrite <- (sh_loop_reaches n Hn i o e m buf). unfold sh_main.
  destruct n as [|n]; [lia|]. cbn [open_console].
  rewrite (reaches_open_any _ _ _ _ _ _ _ _ _ (alloc_first con [i; o; e] n)).
  cbv beta. change (3 <=? Z.of_nat (length [i; o; e])) with true. cbv iota.
  rewrite reaches_close, (close_last [i; o; e] con n). tauto.
Qed.

(** The lines [cd d], [a | b], [|], and the end of the input. *)
Definition demo_session : list (list Z) := [lit "cd d\n"; lit "a | b\n"; lit "|\n"; []; lit "c\n"].
Lemma shell_session_witness :
  reaches (stdio 13 (Inherited 0) (Inherited 1) (Inherited 2)) (sh_main (λ _, 7) 5000 demo_session) [bytes "b"]
    (stdio 13 (ReadEnd 7) (Inherited 1) (Inherited 2)).
Proof.
  apply (shell_session 13 (Inherited 0) (Inherited 1) (Inherited 2)); [lia|].
  exists (lit "a | b\n"). split; [vm_compute; by left|]. do 3 eexists. split; [by vm_compute|]. do 2 eexists. split; [reflexivity|].
  by apply (W_right _ _ 7), W_exec.
Defined.

(** ** init *)

Lemma init_loop_reaches n t argv t' :
  (reaches t (init_loop n) argv t' ↔ (0 < n)%nat ∧ argv = [bytes "sh"] ∧ t' = t) ∧
  (∀ pid, reaches t (init_wait n pid) argv t' → argv = [bytes "sh"] ∧ t' = t).
Proof.
  induction n as [|n [IHl IHw]]; cbn [init_loop init_wait].
  { split; [split; [by intros ?%reaches_exit|lia]|by intros _ ?%reaches_exit]. }
  split.
  - rewrite reaches_print. split.
    + inversion 1; subst.
      * match goal with H : reaches _ (Sh.Exec _ _) _ _ |- _ => inversion H; subst end; [split_and!; [lia|done|done]|].
        match goal with H : reaches _ (Print _ _ Exit) _ _ |- _ => by apply reaches_dead in H end.
      * match goal with H : reaches _ (init_wait _ _) _ _ |- _ => apply IHw in H as [??] end. split_and!; [lia|done|done].
      * match goal with H : reaches _ (Print _ _ Exit) _ _ |- _ => by apply reaches_dead in H end.
    + intros (_&->&->). apply R_child, R_exec.
  - intros pid. inversion 1 as [| | | | | | | | | | | | |t0 k wpid a0 t0' H0| | |]; subst. destruct (_ && _).
    + rewrite reaches_print in H0. by eapply IHw.
    + by apply IHl in H0 as (_&?&?).
Qed.

(** The first program starts the shell, and only it, as often as it exits: with
    the console as descriptors 0, 1 and 2, or with no descriptor at all when
    the console cannot be opened. *)
Theorem init_starts_sh n k argv t' :
  (0 < n)%nat → (3 ≤ k)%nat →
  reaches (first_open [] k) (init_main n) argv t' ↔
  argv = [bytes "sh"] ∧ (t' = first_open [con; con; con] (k - 3) ∨ t' = first_open [] k).
Proof.
  intros Hn Hk. destruct k as [|[|[|k]]]; [lia..|]. unfold init_main.
  assert (Hd : ∀ a u, reaches (first_open [con] (S (S k))) (init_dups n) a u ↔ a = [bytes "sh"] ∧ u = first_open [con; con; con] k).
  { intros a u. unfold init_dups. rewrite (reaches_dup (first_open [con] (S (S k))) 0 con _ _ _ _ _ eq_refl (alloc_first con [con] (S k))).
    rewrite (reaches_dup (first_open [con; con] (S k)) 0 con _ _ _ _ _ eq_refl (alloc_first con [con; con] k)).
    rewrite (proj1 (init_loop_reaches n _ a u)). cbn [app]. split; [tauto|auto]. }
  assert (Hf : ∀ a u, reaches (first_open [] (S (S (S k)))) (init_dups n) a u ↔ a = [bytes "sh"] ∧ u = first_open [] (S (S (S k)))).
  { intros a u. unfold init_dups. rewrite !reaches_dup_closed by done. rewrite (proj1 (init_loop_reaches n _ a u)). split; [tauto|auto]. }
  rewrite !(reaches_open_any _ _ _ _ _ _ _ _ _ (alloc_first con [] (S (S k)))), reaches_mknod.
  rewrite !(reaches_open_any _ _ _ _ _ _ _ _ _ (alloc_first con [] (S (S k)))). cbn [app]. rewrite Hd, Hf.
  replace (S (S (S k)) - 3)%nat with k by lia. tauto.
Qed.
Lemma init_starts_sh_witness : reaches (first_open [] 16) (init_main 2) [bytes "sh"] (first_open [con; con; con] 13).
Proof. apply (init_starts_sh 2 16); [lia..|]. auto. Defined.
