(* ===== verification/Upgms.v ===== *)
(** * User programs: [cat.c], [wc.c], [echo.c], [kill.c], [ln.c], [mkdir.c],
      [rm.c], [ls.c], [touch.c], [ps.c], [psc.c], [pregs.c], [main] of [grep.c]

    Programs over an interface of the system calls that they make.  Strings are
    lists of characters without the terminating zero, and the data that [read]
    stores is returned.  A program that calls [exit] has the value [None]; every
    [main] ends in it. *)

From S2P Require Import Prelude Params CString Cprintf Uprintf Ulib Grep.

(** What [fstat] stores, as far as the programs look at it. *)
Record ustat := Ustat { us_type : Z; us_ino : Z; us_size : Z }.

Class Usys (W : Type) := {
  u_open : list Z → Z → M W Z;
  u_close : Z → M W Z;
  u_read : Z → Z → M W (Z * list Z);
  u_write : Z → list Z → M W Z;
  u_fstat : Z → M W (Z * ustat);
  u_mkdir : list Z → M W Z;
  u_unlink : list Z → M W Z;
  u_link : list Z → list Z → M W Z;
  u_kill : Z → M W Z;
  u_ps : M W Z;
  u_print_syscalls : M W Z;
  u_read_registers : M W Z;
  u_set_edx : Z → M W Z;
}.

(** Code that may call [exit]. *)
Definition P (W A : Type) : Type := M W (option A).
#[export] Instance P_ret {W} : MRet (P W) := λ A a w, Ok (Some a) w.
#[export] Instance P_bind {W} : MBind (P W) := λ A B k m w,
  match m w with
  | Ok (Some a) w' => k a w'
  | Ok None w' => Ok None w'
  | Fail f => Fail f
  end.
Definition exit {W A} : P W A := λ w, Ok None w.
Definition call {W A} (m : M W A) : P W A := λ w, match m w with Ok a w' => Ok (Some a) w' | Fail f => Fail f end.
Definition stuck {W A} (f : fault) : P W A := λ _, Fail f.

Section programs.
Context {W : Type} `{!Usys W}.

(** [printf(fd, fmt, ...)] writes one character at a time and does not look at
    the result. *)
Fixpoint putcs (fd : Z) (l : list Z) : P W unit :=
  match l with
  | [] => mret tt
  | c :: l' => call (u_write fd [c]);; putcs fd l'
  end.
Definition fprint (fd : Z) (fmt : string) (ap : list carg) : P W unit :=
  match printf (lit fmt) ap with
  | Some l => putcs fd l
  | None => stuck (Undef "printf")
  end.

(** The loop over the arguments of cat.c, wc.c and grep.c: open the file, work
    on it, close it; a file that cannot be opened ends the program. *)
Fixpoint for_files (body : Z → list Z → P W unit) (msg : string) (argv : list (list Z)) : P W unit :=
  match argv with
  | [] => mret tt
  | a :: argv' =>
      fd ← call (u_open a 0);
      if fd <? 0 then fprint 1 msg [AStr a];; exit
      else body fd a;; call (u_close fd);; for_files body msg argv'
  end.

(** ** cat.c *)

Definition CAT_BUF : Z := 512.
Fixpoint cat (fuel : nat) (fd : Z) : P W unit :=
  match fuel with
  | O => stuck OutOfFuel
  | S k =>
      '(n, buf) ← call (u_read fd CAT_BUF);
      if 0 <? n then
        r ← call (u_write 1 buf);
        if negb (r =? n) then fprint 1 "cat: write error\n" [];; exit
        else cat k fd
      else if n <? 0 then fprint 1 "cat: read error\n" [];; exit
      else mret tt
  end.
Definition cat_main (fuel : nat) (argv : list (list Z)) : P W unit :=
  (if bool_decide (length argv ≤ 1)%nat then cat fuel 0;; exit else mret tt);;
  for_files (λ fd _, cat fuel fd) "cat: cannot open %s\n" (drop 1 argv);; exit.

(** ** wc.c *)

Definition spaces : list Z := [32; 13; 9; 10; 11].
(** [l], [w], [c] and [inword]. *)
Record wcs := Wcs { wl : Z; ww : Z; wch : Z; inword : bool }.
Definition wc_char (s : wcs) (c : Z) : wcs :=
  let l := if c =? 10 then wl s +i 1 else wl s in
  if bool_decide (c ∈ spaces) then Wcs l (ww s) (wch s +i 1) false
  else if inword s then Wcs l (ww s) (wch s +i 1) true
  else Wcs l (ww s +i 1) (wch s +i 1) true.
Fixpoint wc_loop (fuel : nat) (fd : Z) (s : wcs) : P W (Z * wcs) :=
  match fuel with
  | O => stuck OutOfFuel
  | S k =>
      '(n, buf) ← call (u_read fd CAT_BUF);
      if 0 <? n then wc_loop k fd (foldl wc_char s buf) else mret (n, s)
  end.
Definition wc (fuel : nat) (fd : Z) (name : list Z) : P W unit :=
  '(n, s) ← wc_loop fuel fd (Wcs 0 0 0 false);
  if n <? 0 then fprint 1 "wc: read error\n" [];; exit
  else fprint 1 "%d %d %d %s\n" [AInt (wl s); AInt (ww s); AInt (wch s); AStr name].
Definition wc_main (fuel : nat) (argv : list (list Z)) : P W unit :=
  (if bool_decide (length argv ≤ 1)%nat then wc fuel 0 [];; exit else mret tt);;
  for_files (wc fuel) "wc: cannot open %s\n" (drop 1 argv);; exit.

(** ** grep.c *)

(** The inner loop from [p] on, which passes a newline in each round; the value
    is where it leaves [p]. *)
Fixpoint grep_buf (pattern : list Z) (k : nat) (p : list Z) : P W (list Z) :=
  match k with
  | O => mret p
  | S k' =>
      match find_nl p with
      | None => mret p
      | Some (l, p') =>
          (if grep_match pattern l then call (u_write 1 (l ++ [NL]));; mret tt else mret tt);;
          grep_buf pattern k' p'
      end
  end.
(** [held] are the [m] bytes kept in the buffer. *)
Fixpoint grep_fd (pattern : list Z) (fuel : nat) (fd : Z) (held : list Z) : P W unit :=
  match fuel with
  | O => stuck OutOfFuel
  | S k =>
      '(n, chunk) ← call (u_read fd (BUFSIZE - Z.of_nat (length held) - 1));
      if 0 <? n then
        let buf := held ++ chunk in
        p ← grep_buf pattern (length buf) buf;
        grep_fd pattern k fd (if (length p =? length buf)%nat then [] else p)
      else mret tt
  end.
Definition grep_main (fuel : nat) (argv : list (list Z)) : P W unit :=
  match argv with
  | _ :: pattern :: files =>
      (if bool_decide (length argv ≤ 2)%nat then grep_fd pattern fuel 0 [];; exit else mret tt);;
      for_files (λ fd _, grep_fd pattern fuel fd []) "grep: cannot open %s\n" files;; exit
  | _ => fprint 2 "usage: grep pattern [file ...]\n" [];; exit
  end.

(** ** echo.c, kill.c, ln.c, mkdir.c, rm.c *)

Fixpoint echo_args (argv : list (list Z)) : P W unit :=
  match argv with
  | [] => mret tt
  | a :: argv' =>
      fprint 1 "%s%s" [AStr a; AStr (match argv' with [] => lit "\n" | _ => lit " " end)];;
      echo_args argv'
  end.
Definition echo_main (argv : list (list Z)) : P W unit := echo_args (drop 1 argv);; exit.

(** [atoi] of a string. *)
Definition atoi_of (l : list Z) : P W Z :=
  match atoi (S (length l)) (store (λ _, 0) 0 l) 0 with
  | Some n => mret n
  | None => stuck OutOfFuel
  end.
Fixpoint kill_args (argv : list (list Z)) : P W unit :=
  match argv with
  | [] => mret tt
  | a :: argv' => pid ← atoi_of a; call (u_kill pid);; kill_args argv'
  end.
Definition kill_main (argv : list (list Z)) : P W unit :=
  if bool_decide (length argv < 2)%nat then fprint 2 "usage: kill pid...\n" [];; exit
  else kill_args (drop 1 argv);; exit.

Definition ln_main (argv : list (list Z)) : P W unit :=
  match argv with
  | [_; old; new] =>
      r ← call (u_link old new);
      (if r <? 0 then fprint 2 "link %s %s: failed\n" [AStr old; AStr new] else mret tt);;
      exit
  | _ => fprint 2 "Usage: ln old new\n" [];; exit
  end.

(** The loop of mkdir.c and rm.c, which stops at the first failure. *)
Fixpoint each_file (op : list Z → M W Z) (msg : string) (argv : list (list Z)) : P W unit :=
  match argv with
  | [] => mret tt
  | a :: argv' =>
      r ← call (op a);
      if r <? 0 then fprint 2 msg [AStr a] else each_file op msg argv'
  end.
Definition mkdir_main (argv : list (list Z)) : P W unit :=
  if bool_decide (length argv < 2)%nat then fprint 2 "Usage: mkdir files...\n" [];; exit
  else each_file u_mkdir "mkdir: %s failed to create\n" (drop 1 argv);; exit.
Definition rm_main (argv : list (list Z)) : P W unit :=
  if bool_decide (length argv < 2)%nat then fprint 2 "Usage: rm files...\n" [];; exit
  else each_file u_unlink "rm: %s failed to delete\n" (drop 1 argv);; exit.

(** ** ls.c *)

(** The characters after the last slash. *)
Fixpoint after_slash (path : list Z) : list Z :=
  match path with
  | [] => []
  | c :: path' => if bool_decide (chr "/" ∈ path') then after_slash path' else if c =? chr "/" then path' else path
  end.
Definition fmtname (path : list Z) : list Z :=
  let p := after_slash path in
  if DIRSIZ <=? Z.of_nat (length p) then p else p ++ replicate (Z.to_nat (DIRSIZ - Z.of_nat (length p))) (chr " ").
(** [stat] of ulib.c. *)
Definition u_stat (n : list Z) : M W (Z * ustat) :=
  fd ← u_open n 0;
  if fd <? 0 then mret (-1, Ustat 0 0 0)
  else
    r ← u_fstat fd;
    u_close fd;;
    mret r.
Definition ls_line (name : list Z) (st : ustat) : P W unit :=
  fprint 1 "%s %d %d %d\n" [AStr (fmtname name); AInt (us_type st); AInt (s32 (us_ino st)); AInt (s32 (us_size st))].
(** A directory entry of 16 bytes: the inode number, and the characters of the
    name up to a zero or to its end. *)
Definition de_inum (de : list Z) : Z := nth 0 de 0 + 256 * nth 1 de 0.
Fixpoint until0 (l : list Z) : list Z :=
  match l with
  | [] => []
  | c :: l' => if c =? 0 then [] else c :: until0 l'
  end.
Definition de_name (de : list Z) : list Z := until0 (drop 2 de).
Definition sizeof_de : Z := 16.
Fixpoint ls_entries (fuel : nat) (fd : Z) (path : list Z) : P W unit :=
  match fuel with
  | O => stuck OutOfFuel
  | S k =>
      '(n, de) ← call (u_read fd sizeof_de);
      if negb (n =? sizeof_de) then mret tt
      else if de_inum de =? 0 then ls_entries k fd path
      else
        let buf := path ++ chr "/" :: de_name de in
        '(r, st) ← call (u_stat buf);
        (if r <? 0 then fprint 1 "ls: cannot stat %s\n" [AStr buf] else ls_line buf st);;
        ls_entries k fd path
  end.
Definition ls (fuel : nat) (path : list Z) : P W unit :=
  fd ← call (u_open path 0);
  if fd <? 0 then fprint 2 "ls: cannot open %s\n" [AStr path]
  else
    '(r, st) ← call (u_fstat fd);
    if r <? 0 then fprint 2 "ls: cannot stat %s\n" [AStr path];; call (u_close fd);; mret tt
    else
      (if us_type st =? T_FILE then ls_line path st
       else if us_type st =? T_DIR then
         if CAT_BUF <? Z.of_nat (length path) + 1 + DIRSIZ + 1 then fprint 1 "ls: path too long\n" []
         else ls_entries fuel fd path
       else mret tt);;
      call (u_close fd);; mret tt.
Fixpoint ls_args (fuel : nat) (argv : list (list Z)) : P W unit :=
  match argv with
  | [] => mret tt
  | a :: argv' => ls fuel a;; ls_args fuel argv'
  end.
Definition ls_main (fuel : nat) (argv : list (list Z)) : P W unit :=
  (if bool_decide (length argv < 2)%nat then ls fuel (lit ".");; exit else mret tt);;
  ls_args fuel (drop 1 argv);; exit.

(** ** touch.c, ps.c, psc.c, pregs.c *)

(** With [WITH_CONTENT] the line is read to the address zero. *)
Definition touch (fname : list Z) (with_content : bool) : P W unit :=
  if with_content then
    fd ← call (u_open fname O_RDONLY);
    (if 0 <? fd then call (u_unlink fname);; mret tt else mret tt);;
    call (u_close fd);;
    call (u_open fname (Z.lor O_CREATE O_WRONLY));;
    stuck (Undef "gets: null buffer")
  else
    fd ← call (u_open fname O_RDONLY);
    (if fd <? 0 then cfd ← call (u_open fname O_CREATE); call (u_close cfd);; mret tt else mret tt);;
    call (u_close fd);; mret tt.
Definition touch_main (argv : list (list Z)) : P W unit :=
  match argv with
  | [_; fname] => touch fname false;; exit
  | [_; opt; fname] =>
      if bool_decide (opt = lit "-w") then touch fname true;; exit
      else fprint 1 "touch: too many arguments\n" [];; exit
  | _ => if bool_decide (length argv < 2)%nat then fprint 1 "touch: provide file name\n" [];; exit
         else fprint 1 "touch: too many arguments\n" [];; exit
  end.

Definition ps_main : P W unit := call u_ps;; exit.
Definition psc_main : P W unit := call u_print_syscalls;; exit.
Definition pregs_main (argv : list (list Z)) : P W unit :=
  call u_read_registers;;
  (match argv with
   | [_; a] => n ← atoi_of a; call (u_set_edx n);; mret tt
   | _ => call (u_set_edx 4276803);; mret tt
   end);;
  call u_read_registers;;
  exit.
End programs.
