(* ===== verification/UpgmThms.v ===== *)
(** * What the user programs do

    Programs that read a descriptor are verified against a stream: a sequence
    of bytes of which each [read] takes a part, however long.  The main
    functions are verified against a relation between the state of the system
    and an abstract one, with the files by name, the open descriptors and the
    output. *)

From S2P Require Import Prelude Params CString Cprintf Uprintf Ulib Grep Pipe Upgms.

Lemma pwp_bind {W A B} (m : P W A) (k : A → P W B) (Q : option B → W → Prop) w :
  wp m (λ r w', match r with Some a => wp (k a) Q w' | None => Q None w' end) w → wp (m ≫= k) Q w.
Proof. unfold wp, mbind, P_bind. destruct (m w) as [[a|] w'|]; done. Qed.
Lemma pwp_ret {W A} (a : A) (Q : option A → W → Prop) w : Q (Some a) w → wp (mret a : P W A) Q w.
Proof. done. Qed.
Lemma pwp_exit {W A} (Q : option A → W → Prop) w : Q None w → wp (exit : P W A) Q w.
Proof. done. Qed.
Lemma pwp_call {W A} (m : M W A) a w w' (Q : option A → W → Prop) : m w = Ok a w' → Q (Some a) w' → wp (call m) Q w.
Proof. unfold wp, call. by intros ->. Qed.

(** ** Counting words *)

Definition is_space (c : Z) : bool := bool_decide (c ∈ spaces).
(** The pieces of a text between white space characters. *)
Fixpoint pieces (l : list Z) : list (list Z) :=
  match l with
  | [] => [[]]
  | c :: l' =>
      if is_space c then [] :: pieces l'
      else match pieces l' with
           | [] => [[c]]
           | x :: xs => (c :: x) :: xs
           end
  end.
Definition words (l : list Z) : list (list Z) := filter (λ x, x ≠ []) (pieces l).
Definition newlines (l : list Z) : list Z := filter (λ c, c = 10) l.
(** The text starts with a word. *)
Definition starts_word (l : list Z) : bool := match l with [] => false | c :: _ => negb (is_space c) end.

Lemma pieces_cons l : ∃ x xs, pieces l = x :: xs ∧ (starts_word l = true ↔ x ≠ []).
Proof.
  destruct l as [|c l]; cbn [pieces starts_word]; [exists [], []; naive_solver|].
  destruct (is_space c); [exists [], (pieces l); naive_solver|]. destruct (pieces l) as [|x xs]; naive_solver.
Qed.
(** A character adds a word when it starts one that does not go on in the rest. *)
Lemma words_cons c l :
  length (words (c :: l)) = (length (words l) + if is_space c then 0 else if starts_word l then 0 else 1)%nat.
Proof.
  unfold words. cbn [pieces]. destruct (pieces_cons l) as (x&xs&E&Hx). rewrite E. destruct (is_space c).
  - rewrite filter_cons_False by naive_solver. lia.
  - rewrite (filter_cons_True _ (c :: x)) by done. cbn [length]. destruct (starts_word l).
    + rewrite filter_cons_True by naive_solver. cbn [length]. lia.
    + rewrite filter_cons_False by naive_solver. lia.
Qed.
Lemma words_starts l : starts_word l = true → (0 < length (words l))%nat.
Proof.
  unfold words. destruct (pieces_cons l) as (x&xs&E&Hx). rewrite E. intros H%Hx. rewrite filter_cons_True by done. cbn. lia.
Qed.

Lemma wc_char_eq s c :
  0 ≤ wl s → 0 ≤ ww s → wl s ≤ wch s → ww s ≤ wch s → wch s < 2147483647 →
  wc_char s c = Wcs (wl s + if decide (c = 10) then 1 else 0) (ww s + if is_space c || inword s then 0 else 1) (wch s + 1) (negb (is_space c)).
Proof.
  intros H1 H2 H3 H4 H5. assert (Es : ∀ x, 0 ≤ x ≤ wch s → x +i 1 = x + 1) by (intros; apply s32_id; unfold is_i32; lia).
  unfold wc_char. fold (is_space c). rewrite !Es by lia.
  assert ((if c =? 10 then wl s + 1 else wl s) = wl s + if decide (c = 10) then 1 else 0) as ->.
  { destruct (Z.eqb_spec c 10), (decide (c = 10)); try done; lia. }
  destruct (is_space c), (inword s); cbn [orb negb]; f_equal; lia.
Qed.
Lemma wc_fold s l :
  0 ≤ wl s → 0 ≤ ww s → wl s ≤ wch s → ww s ≤ wch s → wch s + Z.of_nat (length l) < 2147483648 →
  let s' := foldl wc_char s l in
  wl s' = wl s + Z.of_nat (length (newlines l)) ∧ wch s' = wch s + Z.of_nat (length l) ∧
  ww s' = ww s + Z.of_nat (length (words l)) - (if inword s && starts_word l then 1 else 0).
Proof.
  revert s. induction l as [|c l IH]; intros s H1 H2 H3 H4 H5; cbn [foldl].
  { cbn [starts_word]. rewrite andb_false_r. change (words []) with (@nil (list Z)). change (newlines []) with (@nil Z). cbn [length]. lia. }
  cbn [length] in H5. unfold newlines. rewrite filter_cons, words_cons. cbn [starts_word]. fold (newlines l).
  rewrite wc_char_eq by lia. pose proof (words_starts l) as Hw.
  match goal with |- context [foldl _ ?x l] => destruct (IH x) as (E1&E2&E3); cbn [wl ww wch inword] in * end;
    [first [lia|case_match; lia]..|].
  rewrite E1, E2, E3. destruct (is_space c), (inword s), (starts_word l); cbn [orb andb negb]; case_decide; cbn [length]; lia.
Qed.
Lemma wc_counts_text l :
  Z.of_nat (length l) < 2147483648 →
  let s := foldl wc_char (Wcs 0 0 0 false) l in
  wl s = Z.of_nat (length (newlines l)) ∧ ww s = Z.of_nat (length (words l)) ∧ wch s = Z.of_nat (length l).
Proof. intros Hl. destruct (wc_fold (Wcs 0 0 0 false) l) as (E1&E2&E3); cbn in *; [lia..|]. split_and!; lia. Qed.


(** ** Streams *)

(** The bytes left to read from descriptor [fd] and the output so far.  The
    programs read at most a page at a time. *)
Class Stream {W : Type} `{!Usys W} (fd : Z) (I : list Z → list Z → W → Prop) := {
  stream_read : ∀ rest out w n, I rest out w → 0 ≤ n < 4096 →
    ∃ k w', u_read fd n w = Ok (Z.of_nat k, take k rest) w' ∧ Z.of_nat k ≤ n ∧ (k ≤ length rest)%nat ∧
      (0 < n → rest ≠ [] → (0 < k)%nat) ∧ I (drop k rest) out w';
  stream_write : ∀ rest out w l, I rest out w →
    ∃ w', u_write 1 l w = Ok (Z.of_nat (length l)) w' ∧ I rest (out ++ l) w';
}.
(** A stream of which a read takes as much as it is asked for. *)
Class FullStream {W : Type} `{!Usys W} (fd : Z) (I : list Z → list Z → W → Prop) := {
  full_read : ∀ rest out w n, I rest out w → 0 ≤ n < 4096 →
    ∃ w', u_read fd n w = Ok (Z.min n (Z.of_nat (length rest)), take (Z.to_nat n) rest) w' ∧ I (drop (Z.to_nat n) rest) out w';
  full_write : ∀ rest out w l, I rest out w →
    ∃ w', u_write 1 l w = Ok (Z.of_nat (length l)) w' ∧ I rest (out ++ l) w';
}.
#[export] Instance full_stream {W : Type} `{!Usys W} fd I : FullStream fd I → Stream fd I.
Proof.
  intros F. split; [|apply F]. intros rest out w n HI Hn. destruct (full_read rest out w n HI Hn) as (w'&E&HI').
  destruct (Z.min_spec n (Z.of_nat (length rest))) as [[Hl Em]|[Hl Em]]; rewrite Em in E.
  - exists (Z.to_nat n), w'. rewrite Z2Nat.id by lia. split_and!; [done|lia|lia|lia|done].
  - exists (length rest), w'. rewrite take_ge in E |- * by lia. rewrite drop_ge in HI' |- * by lia.
    split_and!; [done|lia|lia| |done]. intros _ Hr. destruct rest; [done|cbn; lia].
Qed.

Section stream.
Context {W : Type} `{!Usys W} (fd : Z) (I : list Z → list Z → W → Prop).

Section writing.
Context (Hw : ∀ rest out w l, I rest out w → ∃ w', u_write 1 l w = Ok (Z.of_nat (length l)) w' ∧ I rest (out ++ l) w').
Lemma putcs_wp rest out w l : I rest out w → wp (putcs 1 l) (λ r w', r = Some tt ∧ I rest (out ++ l) w') w.
Proof.
  revert out w. induction l as [|c l IH]; intros out w HI; cbn [putcs]; [apply pwp_ret; by rewrite app_nil_r|].
  apply pwp_bind. destruct (Hw rest out w [c] HI) as (w'&E&HI'). eapply pwp_call; [exact E|]. eapply wp_mono; [by apply IH|].
  cbn beta. intros r w'' [-> H]. split; [done|]. by rewrite <- app_assoc in H.
Qed.
Lemma fprint_wp rest out w fmt ap l : printf (lit fmt) ap = Some l → I rest out w →
  wp (fprint 1 fmt ap) (λ r w', r = Some tt ∧ I rest (out ++ l) w') w.
Proof. unfold fprint. intros ->. apply putcs_wp. Qed.
Lemma grep_buf_wp pattern k p rest out w :
  I rest out w →
  wp (grep_buf pattern k p) (λ r w', r = Some (grep_lines pattern k p).2 ∧ I rest (out ++ (grep_lines pattern k p).1) w') w.
Proof.
  revert p out w. induction k as [|k IH]; intros p out w HI; cbn [grep_buf grep_lines]; [apply pwp_ret; by rewrite app_nil_r|].
  destruct (find_nl p) as [[l p']|]; [|apply pwp_ret; by rewrite app_nil_r]. apply pwp_bind.
  destruct (grep_lines pattern k p') as [o q] eqn:Eg. destruct (grep_match pattern l).
  - apply pwp_bind. destruct (Hw rest out w (l ++ [NL]) HI) as (w1&E&H1). eapply pwp_call; [exact E|]. apply pwp_ret.
    eapply wp_mono; [by apply IH|]. cbn beta. rewrite Eg. intros r w2 [-> H2]. by rewrite <- app_assoc in H2.
  - apply pwp_ret. eapply wp_mono; [by apply IH|]. by rewrite Eg.
Qed.
End writing.

Context `{!Stream fd I}.
Lemma read_wp {A} rest out w n (k : Z * list Z → P W A) (Q : option A → W → Prop) :
  I rest out w → 0 ≤ n < 4096 →
  (∀ j w', Z.of_nat j ≤ n → (j ≤ length rest)%nat → (0 < n → rest ≠ [] → (0 < j)%nat) → I (drop j rest) out w' →
    wp (k (Z.of_nat j, take j rest)) Q w') →
  wp (call (u_read fd n) ≫= k) Q w.
Proof.
  intros HI Hn Hk. apply pwp_bind. destruct (stream_read rest out w n HI Hn) as (j&w'&E&?&?&?&?).
  eapply pwp_call; [exact E|]. by apply Hk.
Qed.

Lemma cat_wp fuel rest out w :
  I rest out w → (length rest < fuel)%nat → wp (cat fuel fd) (λ r w', r = Some tt ∧ I [] (out ++ rest) w') w.
Proof.
  revert rest out w. induction fuel as [|fuel IH]; intros rest out w HI Hf; [lia|]. cbn [cat].
  apply (read_wp rest out w); [done|done|]. intros j w' Hj Hlen Hpos HI'. destruct (Z.ltb_spec 0 (Z.of_nat j)).
  - apply pwp_bind. destruct (stream_write _ _ _ (take j rest) HI') as (w2&E&HI2). eapply pwp_call; [exact E|].
    rewrite length_take_le, Z.eqb_refl by lia. cbn [negb]. eapply wp_mono; [apply (IH _ _ _ HI2); rewrite length_drop; lia|].
    cbn beta. intros r w3 [-> H3]. split; [done|]. by rewrite <- app_assoc, take_drop in H3.
  - assert (j = 0%nat) as -> by lia. cbn. assert (rest = []) as ->; [|by rewrite app_nil_r].
    destruct rest as [|c rest]; [done|]. enough (0 < 0)%nat by lia. by apply Hpos.
Qed.

Lemma wc_loop_wp fuel rest out w s :
  I rest out w → (length rest < fuel)%nat →
  wp (wc_loop fuel fd s) (λ r w', r = Some (0, foldl wc_char s rest) ∧ I [] out w') w.
Proof.
  revert rest w s. induction fuel as [|fuel IH]; intros rest w s HI Hf; [lia|]. cbn [wc_loop].
  apply (read_wp rest out w); [done|done|]. intros j w' Hj Hlen Hpos HI'. destruct (Z.ltb_spec 0 (Z.of_nat j)).
  - eapply wp_mono; [apply IH; [exact HI'|rewrite length_drop; lia]|]. cbn beta. intros r w2 [-> H2].
    by rewrite <- foldl_app, take_drop.
  - assert (j = 0%nat) as -> by lia. destruct rest as [|c rest]; [by apply pwp_ret|]. enough (0 < 0)%nat by lia. by apply Hpos.
Qed.

(** What wc prints for a text. *)
Definition wc_line (l name : list Z) : list Z :=
  let num x := printint (Z.of_nat x) 10 1 in
  num (length (newlines l)) ++ [32] ++ num (length (words l)) ++ [32] ++ num (length l) ++ [32] ++ name ++ [10].
Lemma wc_wp fuel rest out w name :
  I rest out w → (length rest < fuel)%nat → Z.of_nat (length rest) < 2147483648 →
  wp (wc fuel fd name) (λ r w', r = Some tt ∧ I [] (out ++ wc_line rest name) w') w.
Proof.
  intros HI Hf Hl. unfold wc. apply pwp_bind. eapply wp_mono; [by apply (wc_loop_wp fuel rest out)|]. cbn beta.
  intros r w1 [-> H1]. cbn [Z.ltb Z.compare]. destruct (wc_counts_text rest Hl) as (E1&E2&E3).
  set (s := foldl _ _ _) in *. clearbody s. eapply fprint_wp; [apply stream_write| |exact H1].
  unfold wc_line. rewrite E1, E2, E3. reflexivity.
Qed.

End stream.

Section full.
Context {W : Type} `{!Usys W} (fd : Z) (I : list Z → list Z → W → Prop) `{!FullStream fd I}.
End full.

(** ** The system as programs see it *)

(** The files by name, the descriptors of open files with what is left to read
    of each, and what has been written to descriptors 1 and 2. *)
Record uw := Uw {
  uw_files : gmap (list Z) (list Z);
  uw_fds : gmap Z (list Z);
  uw_out : list Z;
  uw_err : list Z;
}.
Definition set_fds (f : gmap Z (list Z)) (u : uw) : uw := Uw (uw_files u) f (uw_out u) (uw_err u).
Definition add_out (l : list Z) (u : uw) : uw := Uw (uw_files u) (uw_fds u) (uw_out u ++ l) (uw_err u).
Definition add_err (l : list Z) (u : uw) : uw := Uw (uw_files u) (uw_fds u) (uw_out u) (uw_err u ++ l).
Definition del_file (n : list Z) (u : uw) : uw := Uw (delete n (uw_files u)) (uw_fds u) (uw_out u) (uw_err u).

(** What programs rely on of the system calls: [R u w] says that the system is
    in a state [w] that looks like [u]. *)
Class UsysLaws {W : Type} `{!Usys W} (R : uw → W → Prop) := {
  law_open : ∀ u w a, R u w → Z.of_nat (size (uw_fds u)) < NOFILE - 3 →
    match uw_files u !! a with
    | Some c => ∃ fd w', u_open a 0 w = Ok fd w' ∧ 2 < fd ∧ uw_fds u !! fd = None ∧ R (set_fds (<[fd := c]> (uw_fds u)) u) w'
    | None => ∃ w', u_open a 0 w = Ok (-1) w' ∧ R u w'
    end;
  law_close : ∀ u w fd c, R u w → uw_fds u !! fd = Some c →
    ∃ w', u_close fd w = Ok 0 w' ∧ R (set_fds (delete fd (uw_fds u)) u) w';
  law_read : ∀ u w fd c n, R u w → uw_fds u !! fd = Some c → 0 ≤ n →
    ∃ w', u_read fd n w = Ok (Z.min n (Z.of_nat (length c)), take (Z.to_nat n) c) w' ∧
      R (set_fds (<[fd := drop (Z.to_nat n) c]> (uw_fds u)) u) w';
  law_write1 : ∀ u w l, R u w → ∃ w', u_write 1 l w = Ok (Z.of_nat (length l)) w' ∧ R (add_out l u) w';
  law_write2 : ∀ u w l, R u w → ∃ w', u_write 2 l w = Ok (Z.of_nat (length l)) w' ∧ R (add_err l u) w';
  law_unlink : ∀ u w a, R u w →
    ∃ w', u_unlink a w = Ok (if bool_decide (is_Some (uw_files u !! a)) then 0 else -1) w' ∧ R (del_file a u) w';
}.

Section mains.
Context {W : Type} `{!Usys W} (R : uw → W → Prop) `{!UsysLaws R}.

(** A descriptor of [u] is a stream. *)
Definition at_fd (u : uw) (fd : Z) (rest out : list Z) (w : W) : Prop :=
  R (Uw (uw_files u) (<[fd := rest]> (uw_fds u)) out (uw_err u)) w.
#[export] Instance at_fd_full u fd : FullStream fd (at_fd u fd).
Proof.
  split.
  - intros rest out w n HR Hn. destruct (law_read _ w fd rest n HR) as (w'&E&HR'); [apply lookup_insert_eq|lia|].
    exists w'. split; [done|]. unfold at_fd, set_fds in *. cbn in HR'. by rewrite insert_insert_eq in HR'.
  - intros rest out w l HR. destruct (law_write1 _ w l HR) as (w'&E&HR'). by exists w'.
Qed.

(** What a program prints that works on the files [names] in turn; [f] gives the
    output for a file from its contents and name. *)
Fixpoint files_out (f : list Z → list Z → list Z) (msg : list Z) (F : gmap (list Z) (list Z)) (names : list (list Z)) : list Z :=
  match names with
  | [] => []
  | a :: names' =>
      match F !! a with
      | Some c => f c a ++ files_out f msg F names'
      | None => msg ++ a ++ [10]
      end
  end.
Lemma add_out_app l l' u : add_out l' (add_out l u) = add_out (l ++ l') u.
Proof. unfold add_out. cbn. by rewrite app_assoc. Qed.
Lemma fprint_out u w fmt ap l : printf (lit fmt) ap = Some l → R u w → wp (fprint 1 fmt ap) (λ r w', r = Some tt ∧ R (add_out l u) w') w.
Proof.
  intros E HR. eapply wp_mono.
  - apply (fprint_wp (λ _ out, R (Uw (uw_files u) (uw_fds u) out (uw_err u)))) with (rest := []) (out := uw_out u); [|exact E|by destruct u].
    intros _ out w0 l0 H0. by destruct (law_write1 _ w0 l0 H0) as (w'&?&?); exists w'.
  - done.
Qed.

Lemma for_files_wp body f msg m u w names :
  R u w → Z.of_nat (size (uw_fds u)) < NOFILE - 3 →
  (∀ a, printf (lit msg) [AStr a] = Some (m ++ a ++ [10])) →
  (∀ a c fd u' w', a ∈ names → uw_files u !! a = Some c → at_fd u' fd c (uw_out u') w' →
    wp (body fd a) (λ r w2, r = Some tt ∧ ∃ rest, at_fd u' fd rest (uw_out u' ++ f c a) w2) w') →
  wp (for_files body msg names) (λ r w', R (add_out (files_out f m (uw_files u) names) u) w') w.
Proof.
  intros HR Hs Hm. revert u w HR Hs. induction names as [|a names IH]; intros u w HR Hs Hb; cbn [for_files files_out].
  { apply pwp_ret. unfold add_out. rewrite app_nil_r. by destruct u. }
  apply pwp_bind. pose proof (law_open u w a HR Hs) as Ho. destruct (uw_files u !! a) as [c|] eqn:Ea.
  - destruct Ho as (fd&w1&E&Hfd&Hn&H1). eapply pwp_call; [exact E|]. destruct (Z.ltb_spec fd 0); [lia|]. apply pwp_bind.
    eapply wp_mono; [apply (Hb a c fd u w1); [by left|done|exact H1]|]. cbn beta. intros r w2 [-> (rest&H2)]. apply pwp_bind.
    destruct (law_close _ w2 fd rest H2) as (w3&E3&H3); [apply lookup_insert_eq|]. eapply pwp_call; [exact E3|].
    assert (H4 : R (add_out (f c a) u) w3).
    { unfold set_fds in H3. cbn in H3. by rewrite delete_insert_id in H3 by done. }
    eapply wp_mono; [apply (IH _ _ H4); [done|]|].
    + intros a' c' fd' u' w' Ha'. apply Hb. by right.
    + cbn beta. intros r w4 H5. by rewrite add_out_app in H5.
  - destruct Ho as (w1&E&H1). eapply pwp_call; [exact E|]. cbn [Z.ltb Z.compare]. apply pwp_bind.
    eapply wp_mono; [eapply (fprint_out u w1); [apply Hm|done]|]. cbn beta. intros r w2 [-> H2]. by apply pwp_exit.
Qed.

(** Every file fits the bound on the rounds of the loops. *)
Definition files_below (n : nat) (u : uw) : Prop := ∀ a c, uw_files u !! a = Some c → (length c < n)%nat.

(** cat prints the contents of the files it is given, one after the other,
    up to the first that cannot be opened, for which it prints a message; it
    exits with the descriptors and files as they were. *)
Theorem cat_main_copies u w fuel prog names :
  R u w → Z.of_nat (size (uw_fds u)) < NOFILE - 3 → files_below fuel u → names ≠ [] →
  wp (cat_main fuel (prog :: names))
    (λ r w', r = None ∧ R (add_out (files_out (λ c _, c) (lit "cat: cannot open ") (uw_files u) names) u) w') w.
Proof.
  intros HR Hs Hf Hn. destruct names as [|a names]; [done|]. unfold cat_main. rewrite bool_decide_eq_false_2 by (cbn; lia).
  apply pwp_bind, pwp_ret, pwp_bind. cbn [drop]. eapply wp_mono.
  - apply for_files_wp with (u := u) (f := λ c _, c) (m := lit "cat: cannot open "); try done.
    intros a' c fd u' w' _ Ha HI. eapply wp_mono; [eapply (cat_wp fd (at_fd u' fd)); [exact HI|by eapply Hf]|].
    cbn beta. intros r w2 [-> H2]. eauto.
  - cbn beta. intros [[]|] w' H'; done.
Qed.

(** wc prints for every file the numbers of its newlines, of its words, which
    are the pieces between white space that are not empty, and of its bytes,
    however the reads of the file divide it. *)
Theorem wc_main_counts u w fuel prog names :
  R u w → Z.of_nat (size (uw_fds u)) < NOFILE - 3 → files_below fuel u → Z.of_nat fuel < 2147483648 → names ≠ [] →
  wp (wc_main fuel (prog :: names))
    (λ r w', r = None ∧ R (add_out (files_out wc_line (lit "wc: cannot open ") (uw_files u) names) u) w') w.
Proof.
  intros HR Hs Hf Hb Hn. destruct names as [|a names]; [done|]. unfold wc_main. rewrite bool_decide_eq_false_2 by (cbn; lia).
  apply pwp_bind, pwp_ret, pwp_bind. cbn [drop]. eapply wp_mono.
  - apply for_files_wp with (u := u) (f := wc_line) (m := lit "wc: cannot open "); try done.
    intros a' c fd u' w' _ Ha HI. specialize (Hf a' c Ha).
    eapply wp_mono; [eapply (wc_wp fd (at_fd u' fd)); [exact HI|done|lia]|]. cbn beta. intros r w2 [-> H2]. eauto.
  - cbn beta. intros [[]|] w' H'; done.
Qed.


(** What rm leaves: the files up to the first that does not exist are gone. *)
Fixpoint rm_spec (u : uw) (names : list (list Z)) : uw :=
  match names with
  | [] => u
  | a :: names' =>
      if bool_decide (is_Some (uw_files u !! a)) then rm_spec (del_file a u) names'
      else add_err (lit "rm: " ++ a ++ lit " failed to delete\n") u
  end.
Lemma putcs_err u w l : R u w → wp (putcs 2 l) (λ r w', r = Some tt ∧ R (add_err l u) w') w.
Proof.
  revert u w. induction l as [|c l IH]; intros u w HR; cbn [putcs].
  { apply pwp_ret. unfold add_err. rewrite app_nil_r. by destruct u. }
  apply pwp_bind. destruct (law_write2 u w [c] HR) as (w'&E&H'). eapply pwp_call; [exact E|].
  eapply wp_mono; [by apply IH|]. unfold add_err. cbn. by rewrite <- app_assoc.
Qed.
(** rm deletes the files it is given, in order, up to the first that it cannot
    delete, which it reports. *)
Theorem rm_main_removes u w prog names :
  R u w → names ≠ [] → wp (rm_main (prog :: names)) (λ r w', r = None ∧ R (rm_spec u names) w') w.
Proof.
  intros HR Hn. destruct names as [|a0 names]; [done|]. unfold rm_main. rewrite bool_decide_eq_false_2 by (cbn; lia).
  cbn [drop]. clear Hn. apply pwp_bind. eapply wp_mono with (Q := λ _, R (rm_spec u (a0 :: names))).
  2:{ by intros [[]|]. }
  generalize (a0 :: names). clear a0 names. intros names. revert u w HR. induction names as [|a names IH]; intros u w HR; cbn [each_file rm_spec].
  { by apply pwp_ret. }
  apply pwp_bind. destruct (law_unlink u w a HR) as (w'&E&H'). eapply pwp_call; [exact E|].
  destruct (bool_decide (is_Some (uw_files u !! a))) eqn:Ea; cbn [Z.ltb Z.compare]; [by apply IH|].
  apply bool_decide_eq_false in Ea. assert (del_file a u = u) as Ed.
  { unfold del_file. rewrite delete_id; [by destruct u|]. by apply eq_None_not_Some. }
  rewrite Ed in H'. eapply wp_mono; [by apply putcs_err|]. by intros r w2 [_ H2].
Qed.
End mains.

(** ** A system that satisfies the laws *)

Definition free_fd (u : uw) : option Z := head (filter (λ fd, uw_fds u !! fd = None) (seqZ 3 (NOFILE - 3))).
Definition no_call {W} : M W Z := mret (-1).
#[export] Instance uw_sys : Usys uw := {|
  u_open a mode := u ← get;
    match uw_files u !! a, free_fd u with
    | Some c, Some fd => modify (set_fds (<[fd := c]> (uw_fds u)));; mret fd
    | _, _ => mret (-1)
    end;
  u_close fd := modify (λ u, set_fds (delete fd (uw_fds u)) u);; mret 0;
  u_read fd n := u ← get;
    match uw_fds u !! fd with
    | Some c => modify (set_fds (<[fd := drop (Z.to_nat n) c]> (uw_fds u)));; mret (Z.min n (Z.of_nat (length c)), take (Z.to_nat n) c)
    | None => mret (-1, [])
    end;
  u_write fd l := (if fd =? 1 then modify (add_out l) else modify (add_err l));; mret (Z.of_nat (length l));
  u_fstat _ := mret (-1, Ustat 0 0 0);
  u_mkdir _ := no_call;
  u_unlink a := u ← get; modify (del_file a);; mret (if bool_decide (is_Some (uw_files u !! a)) then 0 else -1);
  u_link _ _ := no_call;
  u_kill _ := no_call;
  u_ps := no_call;
  u_print_syscalls := no_call;
  u_read_registers := no_call;
  u_set_edx _ := no_call;
|}.
Lemma free_fd_ok u : Z.of_nat (size (uw_fds u)) < NOFILE - 3 → ∃ fd, free_fd u = Some fd ∧ 2 < fd ∧ uw_fds u !! fd = None.
Proof.
  intros Hs. unfold free_fd. set (l := seqZ 3 (NOFILE - 3)).
  destruct (filter (λ fd, uw_fds u !! fd = None) l) as [|fd r] eqn:E.
  - exfalso. assert (size (list_to_set l : gset Z) ≤ size (dom (uw_fds u)))%nat as Hle.
    { apply subseteq_size. intros fd Hfd%elem_of_list_to_set. apply elem_of_dom, not_eq_None_Some. intros Hn.
      assert (fd ∈ filter (λ fd, uw_fds u !! fd = None) l) as Hin by (by apply list_elem_of_filter). rewrite E in Hin. by apply elem_of_nil in Hin. }
    rewrite size_dom, size_list_to_set in Hle by apply NoDup_seqZ. unfold l in Hle. rewrite length_seqZ in Hle. lia.
  - exists fd. assert (fd ∈ filter (λ fd, uw_fds u !! fd = None) l) as Hin by (rewrite E; by left).
    apply list_elem_of_filter in Hin as [Hn Hin]. apply elem_of_seqZ in Hin. split_and!; [done|lia|done].
Qed.
#[export] Instance uw_laws : UsysLaws (λ u w : uw, w = u).
Proof.
  split.
  - intros u w a -> Hs. cbn. unfold mbind, M_bind, get. destruct (free_fd_ok u Hs) as (fd&->&Hfd&Hn).
    destruct (uw_files u !! a) as [c|]; [exists fd|]; eexists; split_and!; try done.
  - intros u w fd c -> E. eexists. split; reflexivity.
  - intros u w fd c n -> E Hn. cbn. unfold mbind, M_bind, get. rewrite E. eexists. split; reflexivity.
  - intros u w l ->. eexists. split; reflexivity.
  - intros u w l ->. eexists. split; reflexivity.
  - intros u w a ->. eexists. split; reflexivity.
Qed.
(** Two files, and a name that is not one. *)
Definition demo_uw : uw := Uw {[ lit "a" := lit "one two\nthree\n"; lit "b" := lit "two\n" ]} ∅ [] [].
Lemma demo_below : files_below 100 demo_uw.
Proof.
  intros a c E. unfold demo_uw in E. cbn [uw_files] in E. apply lookup_insert_Some in E as [[_ <-]|[_ E]]; [cbn; lia|].
  apply lookup_singleton_Some in E as [_ <-]. cbn. lia.
Qed.
Lemma cat_main_copies_witness :
  wp (cat_main 100 [lit "cat"; lit "b"; lit "a"; lit "c"; lit "a"])
    (λ r w', r = None ∧ w' = add_out (lit "two\none two\nthree\ncat: cannot open c\n") demo_uw) demo_uw.
Proof.
  eapply wp_mono; [apply (cat_main_copies (λ u w, w = u) demo_uw demo_uw 100); [done|done|apply demo_below|done]|].
  cbn beta. intros r w' [-> ->]. split; [done|]. by vm_compute.
Defined.
Lemma wc_main_counts_witness :
  wp (wc_main 100 [lit "wc"; lit "a"]) (λ r w', r = None ∧ w' = add_out (lit "2 3 14 a\n") demo_uw) demo_uw.
Proof.
  eapply wp_mono; [apply (wc_main_counts (λ u w, w = u) demo_uw demo_uw 100); [done|done|apply demo_below|done|done]|].
  cbn beta. intros r w' [-> ->]. split; [done|]. by vm_compute.
Defined.
Lemma rm_main_removes_witness :
  wp (rm_main [lit "rm"; lit "a"; lit "c"; lit "b"])
    (λ r w', r = None ∧ w' = Uw {[ lit "b" := lit "two\n" ]} ∅ [] (lit "rm: c failed to delete\n")) demo_uw.
Proof.
  eapply wp_mono; [apply (rm_main_removes (λ u w, w = u) demo_uw demo_uw); done|].
  cbn beta. intros r w' [-> ->]. split; [done|]. by vm_compute.
Defined.

(** ** Reading from a pipe *)

(** The pieces in which the input arrives, none of them empty, and the output. *)
Record piped := Piped { p_in : list (list Z); p_out : list Z }.
#[export] Instance piped_sys : Usys piped := {|
  u_open _ _ := no_call;
  u_close _ := no_call;
  u_read _ n := s ← get;
    match p_in s with
    | [] => mret (0, [])
    | c :: cs =>
        let k := Z.to_nat n in
        put (Piped (if bool_decide (drop k c = []) then cs else drop k c :: cs) (p_out s));;
        mret (Z.of_nat (length (take k c)), take k c)
    end;
  u_write _ l := modify (λ s, Piped (p_in s) (p_out s ++ l));; mret (Z.of_nat (length l));
  u_fstat _ := mret (-1, Ustat 0 0 0);
  u_mkdir _ := no_call;
  u_unlink _ := no_call;
  u_link _ _ := no_call;
  u_kill _ := no_call;
  u_ps := no_call;
  u_print_syscalls := no_call;
  u_read_registers := no_call;
  u_set_edx _ := no_call;
|}.
Definition pipe_at (rest out : list Z) (s : piped) : Prop := concat (p_in s) = rest ∧ Forall (λ c, c ≠ []) (p_in s) ∧ p_out s = out.
#[export] Instance piped_stream : Stream 0 pipe_at.
Proof.
  split.
  - intros rest out s n (<-&Hne&<-) [Hn _]. cbn. unfold mbind, M_bind, get. destruct (p_in s) as [|c cs] eqn:Es.
    { exists 0%nat, s. split_and!; [done|done|done|done|]. by rewrite drop_0; split_and!; [rewrite Es|rewrite Es|]. }
    apply Forall_cons in Hne as [Hc Hcs]. cbn [concat]. unfold put.
    set (k := length (take (Z.to_nat n) c)). assert (Hk : (k ≤ length c)%nat ∧ (k ≤ Z.to_nat n)%nat) by (unfold k; rewrite length_take; lia).
    assert (Hpos : 0 < n → (0 < k)%nat) by (unfold k; rewrite length_take; destruct c; [done|cbn; lia]).
    exists k. eexists. rewrite (take_app_le c) by lia. unfold pipe_at. cbn [p_in p_out]. split_and!; [|lia|rewrite length_app; lia|auto| | |].
    + assert (Et : take (Z.to_nat n) c = take k c).
      { unfold k. rewrite length_take. destruct (Nat.min_spec (Z.to_nat n) (length c)) as [[? ->]|[? ->]]; [done|]. by rewrite !take_ge by lia. }
      fold k. rewrite Et. reflexivity.
    + rewrite drop_app_le by lia. assert (Ed : drop k c = drop (Z.to_nat n) c).
      { unfold k. rewrite length_take. destruct (Nat.min_spec (Z.to_nat n) (length c)) as [[? ->]|[? ->]]; [done|]. by rewrite !drop_ge by lia. }
      rewrite Ed. case_bool_decide as E0; [by rewrite E0|done].
    + cbn [p_in]. case_bool_decide; [done|]. by constructor.
    + done.
  - intros rest out s l (Hr&Hne&<-). eexists. split; [reflexivity|]. by split_and!.
Qed.

(** cat copies what comes through a pipe, in whatever pieces it comes. *)
Theorem cat_copies_pipe fuel rest s :
  pipe_at rest [] s → (length rest < fuel)%nat → wp (cat fuel 0) (λ r s', r = Some tt ∧ p_out s' = rest) s.
Proof.
  intros Hs Hf. eapply wp_mono; [by apply (cat_wp 0 pipe_at fuel rest [])|]. cbn beta. by intros r s' [-> (_&_&->)].
Qed.
Lemma cat_copies_pipe_witness : wp (cat 9 0) (λ r s', r = Some tt ∧ p_out s' = lit "abc\n") (Piped [lit "ab"; lit "c\n"] []).
Proof. apply (cat_copies_pipe 9 (lit "abc\n")); [split_and!; [done|repeat constructor; done|done]|cbn; lia]. Defined.

(** The lines that grep sees when its input arrives in the pieces [cs] and its
    buffer holds [held]: a piece that leaves the buffer without a newline
    empties it. *)
Fixpoint seen (held : list Z) (cs : list (list Z)) : list (list Z) :=
  match cs with
  | [] => []
  | c :: cs' =>
      let buf := held ++ c in
      (split_nl buf).1 ++ seen (if decide (NL ∈ c) then (split_nl buf).2 else []) cs'
  end.
(** A piece as a read of a pipe of the kernel returns it. *)
Definition piece (c : list Z) : Prop := 0 < Z.of_nat (length c) ≤ PIPESIZE ∧ Forall (λ x, x ≠ 0) c.

Lemma split_none l : (split_nl l).1 = [] ↔ NL ∉ l.
Proof.
  induction l as [|c l IH]; [split; [by intros _ ?%elem_of_nil|done]|]. cbn [split_nl]. rewrite not_elem_of_cons.
  destruct (Z.eqb_spec c NL) as [->|Hc]; [split; [done|by intros [[] _]]|].
  destruct (split_nl l) as [[|x ls] t]; cbn [fst] in *; [|split; [done|intros [_ H]; by apply IH in H]]. naive_solver.
Qed.
Lemma split_none_rest l : NL ∉ l → (split_nl l).2 = l.
Proof.
  induction l as [|c l IH]; [done|]. intros [Hc Hl]%not_elem_of_cons. cbn [split_nl].
  destruct (Z.eqb_spec c NL) as [->|_]; [done|]. rewrite (proj2 (split_none l) Hl). cbn. by rewrite IH.
Qed.
(** What is left after the last newline of a piece is shorter than the piece. *)
Lemma split_left held c : NL ∉ held → NL ∈ c → (length (split_nl (held ++ c)).2 < length c)%nat.
Proof.
  intros Hh Hc. rewrite split_prefix by (by apply split_none).
  destruct (split_nl c) as [[|x ls] t] eqn:E.
  { exfalso. by apply (proj1 (split_none c)); [rewrite E|]. }
  cbn [fst snd]. clear -E. revert x ls t E. induction c as [|a c IH]; intros x ls t; cbn [split_nl]; [done|].
  destruct (split_rest c) as [Hs%suffix_length _]. cbn [length].
  destruct (a =? NL); [intros [= _ _ <-]; lia|]. destruct (split_nl c) as [[|y ys] u]; [done|]. intros [= _ _ <-]. cbn in Hs. specialize (IH y ys u eq_refl). lia.
Qed.
Lemma split_rest_no_nl l : NL ∉ (split_nl l).2.
Proof. apply split_none. by apply split_rest. Qed.

Lemma grep_pieces_wp pattern fuel held cs out :
  NL ∉ held → Forall (λ x, x ≠ 0) held → Z.of_nat (length held) < PIPESIZE → Forall piece cs → (length cs < fuel)%nat →
  wp (grep_fd pattern fuel 0 held) (λ r s', r = Some tt ∧ p_out s' = out ++ selected pattern (seen held cs)) (Piped cs out).
Proof.
  revert held cs out. induction fuel as [|fuel IH]; intros held cs out Hnl Hz Hl Hcs Hf; [lia|]. cbn [grep_fd].
  destruct cs as [|c cs]; [split; [done|by rewrite app_nil_r]|]. apply Forall_cons in Hcs as [[Hc Hcz] Hcs]. cbn [length] in Hf.
  set (n := BUFSIZE - Z.of_nat (length held) - 1). assert (Hn : (length c ≤ Z.to_nat n)%nat) by (unfold n, BUFSIZE, PIPESIZE in *; lia).
  apply pwp_bind. eapply (pwp_call _ (Z.of_nat (length c), c) _ (Piped cs out)).
  { cbn. unfold mbind, M_bind, get, put. cbn. rewrite take_ge, drop_ge by done. reflexivity. }
  rewrite (proj2 (Z.ltb_lt 0 (Z.of_nat (length c)))) by lia. cbn [seen]. set (buf := held ++ c). apply pwp_bind.
  assert (Hbz : Forall (λ x, x ≠ 0) buf) by (by apply Forall_app).
  eapply wp_mono; [apply (grep_buf_wp (λ _ o s, s = Piped cs o)) with (rest := []) (out := out); [|done]|].
  { intros _ o w l ->. eexists. split; reflexivity. }
  cbn beta. rewrite grep_lines_spec by done. cbn [fst snd]. intros r w [-> ->]. rewrite selected_app, (app_assoc out).
  assert (Hd : (if (length (split_nl buf).2 =? length buf)%nat then [] else (split_nl buf).2) =
    (if decide (NL ∈ c) then (split_nl buf).2 else [])).
  { destruct (decide (NL ∈ c)) as [Hin|Hin].
    - pose proof (split_left held c Hnl Hin). unfold buf. rewrite length_app. destruct (Nat.eqb_spec (length (split_nl (held ++ c)).2) (length held + length c)); [lia|done].
    - rewrite split_none_rest, Nat.eqb_refl; [done|]. unfold buf. by rewrite elem_of_app; intros []. }
  rewrite Hd. destruct (split_rest buf) as [[k Hk] _]. apply IH; [..|lia]; [| | |done]; destruct (decide (NL ∈ c)) as [Hin|Hin].
  - apply split_rest_no_nl.
  - by apply not_elem_of_nil.
  - rewrite Hk in Hbz. by apply Forall_app in Hbz as [_ ?].
  - done.
  - pose proof (split_left held c Hnl Hin). fold buf in H. unfold PIPESIZE in *. lia.
  - done.
Qed.

Lemma seen_whole held cs : NL ∉ held → Forall (λ c, NL ∈ c) cs → seen held cs = (split_nl (held ++ concat cs)).1.
Proof.
  revert held. induction cs as [|c cs IH]; intros held Hh Hc; cbn [seen concat].
  { rewrite app_nil_r. symmetry. by apply split_none. }
  apply Forall_cons in Hc as [Hc Hcs]. rewrite decide_True by done. rewrite app_assoc, (split_app (held ++ c)). cbn [fst].
  f_equal. apply IH; [apply split_rest_no_nl|done].
Qed.
Lemma seen_dropped held cs a cs' : NL ∉ held → NL ∉ a → seen held (cs ++ a :: cs') = seen held cs ++ seen [] cs'.
Proof.
  intros Hh Ha. revert held Hh. induction cs as [|c cs IH]; intros held Hh; cbn [app seen].
  - rewrite decide_False by done. rewrite (proj2 (split_none _)); [done|]. by rewrite elem_of_app; intros [].
  - rewrite <- app_assoc. f_equal. apply IH. destruct (decide (NL ∈ c)); [apply split_rest_no_nl|by apply not_elem_of_nil].
Qed.

(** C40. grep at the end of a pipe returns, and prints the lines it sees in
    which the pattern occurs.  If each piece that a read returns has a newline
    these are the lines of the text.  A piece without a newline is dropped
    together with the beginning of the line that was in the buffer: grep
    behaves as if the text started anew after it, and so misses or cuts lines
    of the text. *)
Theorem grep_pipe_pieces pattern fuel cs :
  Forall piece cs → (length cs < fuel)%nat →
  wp (grep_fd pattern fuel 0 []) (λ r s', r = Some tt ∧ p_out s' = selected pattern (seen [] cs)) (Piped cs []) ∧
  (Forall (λ c, NL ∈ c) cs → seen [] cs = (split_nl (concat cs)).1) ∧
  (∀ cs1 a cs2, cs = cs1 ++ a :: cs2 → NL ∉ a → seen [] cs = seen [] cs1 ++ seen [] cs2).
Proof.
  intros Hc Hf. split_and!.
  - apply (grep_pieces_wp pattern fuel [] cs []); try done. by apply not_elem_of_nil.
  - intros Hn. apply (seen_whole [] cs); [by apply not_elem_of_nil|done].
  - intros cs1 a cs2 -> Ha. apply seen_dropped; [by apply not_elem_of_nil|done].
Qed.
Lemma grep_pipe_pieces_witness :
  let s := Piped [lit "ab"; lit "c\nabc\na"; lit "bc\n"] [] in
  wp (grep_fd (lit "abc") 4 0 []) (λ r s', r = Some tt ∧ p_out s' = lit "abc\nabc\n") s ∧
  selected (lit "abc") (split_nl (concat (p_in s))).1 = lit "abc\nabc\nabc\n".
Proof.
  intros s. split; [|by vm_compute]. destruct (grep_pipe_pieces (lit "abc") 4 (p_in s)) as [H _].
  - repeat constructor; done.
  - cbn. lia.
  - eapply wp_mono; [exact H|]. cbn beta. intros r s' [-> ->]. split; [reflexivity|]. by vm_compute.
Defined.
