(* ===== verification/Ports.v ===== *)
(** * Ports of the machine: the [in] and [out] instructions of [x86.h]

    A device behind ports is a state [D] with what a read and a write of a
    port do to it; the drivers are written over this interface, and what they
    rely on of a device is stated where they are verified. *)

From S2P Require Import Prelude.

Class Ports (D : Type) := {
  port_in : Z → D → Z * D;
  port_out : Z → Z → D → D;
  port_ins : Z → nat → D → list Z * D;
  port_outs : Z → list Z → D → D;
}.

Section ports.
Context {D : Type} `{!Ports D}.
Definition inb (port : Z) : M D Z := λ d, let '(v, d') := port_in port d in Ok v d'.
Definition outb (port data : Z) : M D unit := modify (port_out port (u8 data)).
(** [cnt] words of four bytes each. *)
Definition insl (port : Z) (cnt : nat) : M D (list Z) := λ d, let '(l, d') := port_ins port (4 * cnt) d in Ok l d'.
Definition outsl (port : Z) (l : list Z) (cnt : nat) : M D unit := modify (port_outs port (take (4 * cnt) l)).
End ports.
