(* ===== verification/Apic.v ===== *)
(** * Interrupt controllers, the timer, the clock and the serial port:
    [ioapic.c], [picirq.c], [lapic.c] and [uart.c]

    The registers of the I/O APIC are reached through an index and a data
    register.  The local APIC is an array of registers; a write is kept in
    [lapic_log] too, as the order of the writes is what starts a processor.
    The other devices are behind ports.  [hw] puts them together. *)

From S2P Require Import Prelude Params CString Trap Ports.

(** ** ioapic.c *)

Definition REG_ID : Z := 0.
Definition REG_VER : Z := 1.
Definition REG_TABLE : Z := 16.
Definition INT_DISABLED : Z := 65536.

Record ioapic := Ioapic { io_reg : Z; io_data : Z → Z }.
Definition put_reg (f : Z → Z) (r v : Z) : Z → Z := λ x, if x =? r then v else f x.

Definition ioapicread (reg : Z) : M ioapic Z :=
  modify (λ a, Ioapic reg (io_data a));;
  gets (λ a, io_data a (io_reg a)).
Definition ioapicwrite (reg data : Z) : M ioapic unit :=
  modify (λ a, Ioapic reg (io_data a));;
  modify (λ a, Ioapic (io_reg a) (put_reg (io_data a) (io_reg a) (u32 data))).

Fixpoint ioapicinit_loop (n : nat) (i : Z) : M ioapic unit :=
  match n with
  | O => mret tt
  | S n' =>
      ioapicwrite (REG_TABLE + 2 * i) (Z.lor INT_DISABLED (T_IRQ0 + i));;
      ioapicwrite (REG_TABLE + 2 * i + 1) 0;;
      ioapicinit_loop n' (i + 1)
  end.
(** The result: whether the message is printed that the id is not
    [ioapicid], which mpinit has found. *)
Definition ioapicinit (ioapicid : Z) : M ioapic bool :=
  v ← ioapicread REG_VER;
  let maxintr := Z.land (Z.shiftr v 16) 255 in
  w ← ioapicread REG_ID;
  let id := Z.shiftr w 24 in
  ioapicinit_loop (Z.to_nat (maxintr + 1)) 0;;
  mret (negb (id =? ioapicid)).

Definition ioapicenable (irq cpunum : Z) : M ioapic unit :=
  ioapicwrite (REG_TABLE + 2 * irq) (T_IRQ0 + irq);;
  ioapicwrite (REG_TABLE + 2 * irq + 1) (Z.shiftl cpunum 24).

(** ** lapic.c *)

Definition ID : Z := 32 / 4.
Definition VER : Z := 48 / 4.
Definition TPR : Z := 128 / 4.
Definition EOI : Z := 176 / 4.
Definition SVR : Z := 240 / 4.
Definition ENABLE : Z := 256.
Definition ESR : Z := 640 / 4.
Definition ICRLO : Z := 768 / 4.
Definition INIT : Z := 1280.
Definition STARTUP : Z := 1536.
Definition DELIVS : Z := 4096.
Definition ASSERT : Z := 16384.
Definition LEVEL : Z := 32768.
Definition BCAST : Z := 524288.
Definition ICRHI : Z := 784 / 4.
Definition TIMER : Z := 800 / 4.
Definition X1 : Z := 11.
Definition PERIODIC : Z := 131072.
Definition PCINT : Z := 832 / 4.
Definition LINT0 : Z := 848 / 4.
Definition LINT1 : Z := 864 / 4.
Definition ERROR : Z := 880 / 4.
Definition MASKED : Z := 65536.
Definition TICR : Z := 896 / 4.
Definition TDCR : Z := 992 / 4.
Definition IRQ_ERROR : Z := 19.

(** The local APIC of a processor; [lapic_on] is whether mpinit has set the
    pointer.  [lapic_polls] is how often the delivery status will be read as
    pending. *)
Record lapicst := Lapic {
  lapic_on : bool;
  lapic_regs : Z → Z;
  lapic_polls : nat;
  lapic_log : list (Z * Z);
}.
Definition lapicw (index value : Z) : M lapicst unit :=
  modify (λ a, Lapic (lapic_on a) (put_reg (lapic_regs a) index (u32 value)) (lapic_polls a)
    (lapic_log a ++ [(index, u32 value)])).
Definition lapicr (index : Z) : M lapicst Z := gets (λ a, lapic_regs a index).
(** A read of [ICRLO], whose delivery status clears by itself. *)
Definition read_icrlo : M lapicst Z := λ a,
  match lapic_polls a with
  | O => Ok (Z.ldiff (lapic_regs a ICRLO) DELIVS) a
  | S n => Ok (Z.lor (lapic_regs a ICRLO) DELIVS) (Lapic (lapic_on a) (lapic_regs a) n (lapic_log a))
  end.
Fixpoint wait_delivered (fuel : nat) : M lapicst unit :=
  match fuel with
  | O => fail OutOfFuel
  | S f =>
      v ← read_icrlo;
      if Z.land v DELIVS =? 0 then mret tt else wait_delivered f
  end.

Definition lapicinit : M lapicst unit :=
  on ← gets lapic_on;
  if negb on then mret tt
  else
    lapicw SVR (Z.lor ENABLE (T_IRQ0 + IRQ_SPURIOUS));;
    lapicw TDCR X1;;
    lapicw TIMER (Z.lor PERIODIC (T_IRQ0 + IRQ_TIMER));;
    lapicw TICR 10000000;;
    lapicw LINT0 MASKED;;
    lapicw LINT1 MASKED;;
    v ← lapicr VER;
    when (4 <=? Z.land (Z.shiftr v 16) 255) (lapicw PCINT MASKED);;
    lapicw ERROR (T_IRQ0 + IRQ_ERROR);;
    lapicw ESR 0;;
    lapicw ESR 0;;
    lapicw EOI 0;;
    lapicw ICRHI 0;;
    lapicw ICRLO (Z.lor (Z.lor BCAST INIT) LEVEL);;
    a ← get;
    wait_delivered (S (lapic_polls a));;
    lapicw TPR 0.

Definition lapicid : M lapicst Z :=
  on ← gets lapic_on;
  if negb on then mret 0
  else v ← lapicr ID; mret (Z.shiftr v 24).
Definition lapiceoi : M lapicst unit :=
  on ← gets lapic_on;
  when on (lapicw EOI 0).

(** The loop of [lapicstartap]. *)
Fixpoint startup_ipis (n : nat) (apicid addr : Z) : M lapicst unit :=
  match n with
  | O => mret tt
  | S n' =>
      lapicw ICRHI (Z.shiftl apicid 24);;
      lapicw ICRLO (Z.lor STARTUP (Z.shiftr addr 12));;
      startup_ipis n' apicid addr
  end.

(** ** The clock *)

Record rtcdate := Rtc { second : Z; minute : Z; hour : Z; day : Z; month : Z; year : Z }.
#[export] Instance rtcdate_eq_dec : EqDecision rtcdate.
Proof. solve_decision. Defined.
Definition CMOS_PORT : Z := 112.
Definition CMOS_RETURN : Z := 113.
Definition CMOS_STATA : Z := 10.
Definition CMOS_STATB : Z := 11.
Definition CMOS_UIP : Z := Z.shiftl 1 7.
Definition SECS : Z := 0.
Definition MINS : Z := 2.
Definition HOURS : Z := 4.
Definition DAY : Z := 7.
Definition MONTH : Z := 8.
Definition YEAR : Z := 9.

Section cmos.
Context {D : Type} `{!Ports D}.
Definition cmos_read (reg : Z) : M D Z := outb CMOS_PORT reg;; inb CMOS_RETURN.
Definition fill_rtcdate : M D rtcdate :=
  s ← cmos_read SECS;
  m ← cmos_read MINS;
  h ← cmos_read HOURS;
  d ← cmos_read DAY;
  mo ← cmos_read MONTH;
  y ← cmos_read YEAR;
  mret (Rtc s m h d mo y).
(** The loop that reads the date until two reads agree. *)
Fixpoint cmostime_loop (fuel : nat) : M D rtcdate :=
  match fuel with
  | O => fail OutOfFuel
  | S f =>
      t1 ← fill_rtcdate;
      a ← cmos_read CMOS_STATA;
      if negb (Z.land a CMOS_UIP =? 0) then cmostime_loop f
      else
        t2 ← fill_rtcdate;
        if bool_decide (t1 = t2) then mret t1 else cmostime_loop f
  end.
Definition CONV (x : Z) : Z := (Z.shiftr x 4 *u 10) +u Z.land x 15.
Definition conv_date (bcd : bool) (t : rtcdate) : rtcdate :=
  if bcd then Rtc (CONV (second t)) (CONV (minute t)) (CONV (hour t)) (CONV (day t)) (CONV (month t)) (CONV (year t)) else t.
Definition cmostime (fuel : nat) : M D rtcdate :=
  sb ← cmos_read CMOS_STATB;
  let bcd := Z.land sb (Z.shiftl 1 2) =? 0 in
  t1 ← cmostime_loop fuel;
  let t := conv_date bcd t1 in
  mret (Rtc (second t) (minute t) (hour t) (day t) (month t) (year t +u 2000)).

(** ** picirq.c *)

Definition IO_PIC1 : Z := 32.
Definition IO_PIC2 : Z := 160.
Definition picinit : M D unit :=
  outb (IO_PIC1 + 1) 255;;
  outb (IO_PIC2 + 1) 255.

(** ** The machine *)

Record hw := Hw {
  h_io : ioapic;
  h_lapic : lapicst;
  h_mem : mem;
  h_uart : bool;
  h_dev : D;
}.
Definition lift {S A} (proj : hw → S) (put : S → hw → hw) (m : M S A) : M hw A := λ h,
  match m (proj h) with Ok a s => Ok a (put s h) | Fail f => Fail f end.
Definition io {A} : M ioapic A → M hw A := lift h_io (λ x h, Hw x (h_lapic h) (h_mem h) (h_uart h) (h_dev h)).
Definition lap {A} : M lapicst A → M hw A := lift h_lapic (λ x h, Hw (h_io h) x (h_mem h) (h_uart h) (h_dev h)).
Definition port {A} : M D A → M hw A := lift h_dev (λ x h, Hw (h_io h) (h_lapic h) (h_mem h) (h_uart h) x).
Definition mem_upd (f : mem → mem) : M hw unit := modify (λ h, Hw (h_io h) (h_lapic h) (f (h_mem h)) (h_uart h) (h_dev h)).
Definition set_uart (b : bool) : M hw unit := modify (λ h, Hw (h_io h) (h_lapic h) (h_mem h) b (h_dev h)).

Definition store16 (m : mem) (a v : Z) : mem := upd (upd m a (u8 v)) (a + 1) (u8 (v / 256)).
Definition lapicstartap (apicid addr : Z) : M hw unit :=
  port (outb CMOS_PORT 15);;
  port (outb (CMOS_PORT + 1) 10);;
  let wrv := P2V (Z.lor (Z.shiftl 64 4) 103) in
  mem_upd (λ m, store16 m wrv 0);;
  mem_upd (λ m, store16 m (wrv + 2) (Z.shiftr addr 4));;
  lap (lapicw ICRHI (Z.shiftl apicid 24));;
  lap (lapicw ICRLO (Z.lor (Z.lor INIT LEVEL) ASSERT));;
  lap (lapicw ICRLO (Z.lor INIT LEVEL));;
  lap (startup_ipis 2 apicid addr).

(** ** uart.c *)

Definition COM1 : Z := 1016.
(** The loop of [uartputc]: at most [n] reads of the line status. *)
Fixpoint uart_wait (n : nat) : M D unit :=
  match n with
  | O => mret tt
  | S n' =>
      v ← inb (COM1 + 5);
      if negb (Z.land v 32 =? 0) then mret tt else uart_wait n'
  end.
Definition uartputc (c : Z) : M hw unit :=
  uart ← gets h_uart;
  if negb uart then mret tt
  else
    port (uart_wait 128);;
    port (outb (COM1 + 0) c).
Definition uartgetc : M hw Z :=
  uart ← gets h_uart;
  if negb uart then mret (-1)
  else
    v ← port (inb (COM1 + 5));
    if Z.land v 1 =? 0 then mret (-1)
    else port (inb (COM1 + 0)).
Fixpoint uart_puts (l : list Z) : M hw unit :=
  match l with
  | [] => mret tt
  | c :: l' => uartputc c;; uart_puts l'
  end.
Definition uartinit : M hw unit :=
  port (outb (COM1 + 2) 0);;
  port (outb (COM1 + 3) 128);;
  port (outb (COM1 + 0) (115200 / 9600));;
  port (outb (COM1 + 1) 0);;
  port (outb (COM1 + 3) 3);;
  port (outb (COM1 + 4) 0);;
  port (outb (COM1 + 1) 1);;
  v ← port (inb (COM1 + 5));
  if v =? 255 then mret tt
  else
    set_uart true;;
    _ ← port (inb (COM1 + 2));
    _ ← port (inb (COM1 + 0));
    io (ioapicenable IRQ_COM1 0);;
    uart_puts (bytes "xv6..." ++ [10]).
End cmos.

(** ** Routing of interrupts *)

(** The entry of an interrupt in the table, and who serves it. *)
Definition route (a : ioapic) (irq : Z) : Z * Z := (io_data a (REG_TABLE + 2 * irq), io_data a (REG_TABLE + 2 * irq + 1)).
Definition masked (irq : Z) : Z * Z := (Z.lor INT_DISABLED (T_IRQ0 + irq), 0).
Definition routed (irq cpu : Z) : Z * Z := (T_IRQ0 + irq, cpu * 16777216).

Lemma ioapicwrite_run reg v a : ioapicwrite reg v a = Ok tt (Ioapic reg (put_reg (io_data a) reg (u32 v))).
Proof. done. Qed.
Lemma put_reg_eq f r v : put_reg f r v r = v.
Proof. unfold put_reg. by rewrite Z.eqb_refl. Qed.
Lemma put_reg_ne f r v x : x ≠ r → put_reg f r v x = f x.
Proof. unfold put_reg. intros. by destruct (Z.eqb_spec x r). Qed.

(** Writing both registers of an entry changes that entry. *)
Definition write_entry (irq : Z) (v : Z * Z) : M ioapic unit :=
  ioapicwrite (REG_TABLE + 2 * irq) v.1;; ioapicwrite (REG_TABLE + 2 * irq + 1) v.2.
Lemma write_entry_run irq v a :
  ∃ a', write_entry irq v a = Ok tt a' ∧ route a' irq = (u32 v.1, u32 v.2) ∧
    (∀ j, j ≠ irq → route a' j = route a j) ∧ (∀ r, r < REG_TABLE → 0 ≤ irq → io_data a' r = io_data a r).
Proof.
  unfold write_entry, mbind, M_bind. rewrite ioapicwrite_run. cbn beta iota. rewrite ioapicwrite_run. eexists. split; [done|].
  unfold route, REG_TABLE. cbn [io_data]. split_and!.
  - by rewrite put_reg_eq, put_reg_ne, put_reg_eq by lia.
  - intros j Hj. by rewrite !put_reg_ne by lia.
  - intros r Hr Hi. by rewrite !put_reg_ne by lia.
Qed.
Lemma ioapicinit_loop_run n i a :
  0 ≤ i → i + Z.of_nat n ≤ 256 →
  ∃ a', ioapicinit_loop n i a = Ok tt a' ∧ (∀ r, r < REG_TABLE → io_data a' r = io_data a r) ∧
    ∀ j, route a' j = if (i <=? j) && (j <? i + Z.of_nat n) then masked j else route a j.
Proof.
  revert i a. induction n as [|n IH]; intros i a Hi Hn.
  - exists a. split_and!; [done..|]. intros j. zcases.
  - destruct (write_entry_run i (masked i) a) as (a1&H1&H2&H3&H4).
    destruct (IH (i + 1) a1) as (a2&H5&H6&H7); [lia..|]. exists a2. split_and!.
    + cbn [ioapicinit_loop]. unfold write_entry in H1. cbn [fst snd masked] in H1. unfold mbind, M_bind in *.
      destruct (ioapicwrite _ _ a) as [u b|]; [|done]. by rewrite H1.
    + intros r Hr. rewrite H6 by done. by apply H4.
    + intros j. rewrite H7. destruct (decide (j = i)) as [->|Hj].
      * rewrite H2. zcases. unfold masked. cbn [fst snd]. rewrite !u32_id; [done|unfold is_u32; lia|].
        apply lor_u32; unfold is_u32, INT_DISABLED, T_IRQ0; lia.
      * rewrite (H3 j) by done. zcases.
Qed.

(** The enabling of a list of interrupts, each for a processor. *)
Fixpoint enable_all (l : list (Z * Z)) : M ioapic unit :=
  match l with
  | [] => mret tt
  | (irq, cpu) :: l' => ioapicenable irq cpu;; enable_all l'
  end.

Lemma enable_all_run l a :
  Forall (λ p, 0 ≤ p.1 ≤ 255 ∧ 0 ≤ p.2 < 256) l →
  ∃ a', enable_all l a = Ok tt a' ∧ ∀ irq,
    route a' irq = match last (filter (λ p, p.1 = irq) l) with Some (_, cpu) => routed irq cpu | None => route a irq end.
Proof.
  revert a. induction l as [|[irq cpu] l IH]; intros a Hl; [by exists a|].
  apply Forall_cons in Hl as [[Hi Hc] Hl]. cbn [fst snd] in *.
  destruct (write_entry_run irq (T_IRQ0 + irq, Z.shiftl cpu 24) a) as (a1&H1&H2&H3&_).
  destruct (IH a1 Hl) as (a2&H4&H5). exists a2. split.
  - cbn [enable_all]. change (ioapicenable irq cpu) with (write_entry irq (T_IRQ0 + irq, Z.shiftl cpu 24)).
    unfold mbind, M_bind. by rewrite H1.
  - intros j. rewrite H5. rewrite filter_cons. cbn [fst]. destruct (decide (irq = j)) as [->|Hne].
    + rewrite last_cons. destruct (last (filter _ l)) as [[? ?]|]; [done|]. rewrite H2. unfold routed. cbn [fst snd].
      rewrite Z.shiftl_mul_pow2 by lia. rewrite !u32_id; [done|unfold is_u32, T_IRQ0; lia..].
    + destruct (last (filter _ l)) as [[? ?]|]; [done|]. by apply H3.
Qed.

(** After ioapicinit and any calls of ioapicenable, an interrupt that
    was enabled is delivered with the vector that [trap] dispatches on, to the
    processor of the last call for it, and every other one is masked. *)
Theorem ioapic_routes a id l :
  let maxintr := Z.land (Z.shiftr (io_data a REG_VER) 16) 255 in
  Forall (λ p, 0 ≤ p.1 ≤ maxintr ∧ 0 ≤ p.2 < 256) l →
  wp (ioapicinit id;; enable_all l)
    (λ _ a', ∀ irq, 0 ≤ irq ≤ maxintr →
       route a' irq = match last (filter (λ p, p.1 = irq) l) with Some (_, cpu) => routed irq cpu | None => masked irq end) a.
Proof.
  intros maxintr Hl.
  assert (Hmax : 0 ≤ maxintr ≤ 255).
  { unfold maxintr. change 255 with (Z.ones 8) at 1 2. rewrite Z.land_ones by lia.
    pose proof (Z.mod_pos_bound (Z.shiftr (io_data a REG_VER) 16) (2 ^ 8) ltac:(lia)). lia. }
  destruct (ioapicinit_loop_run (Z.to_nat (maxintr + 1)) 0 (Ioapic REG_ID (io_data a))) as (a1&H1&_&H2); [lia..|].
  destruct (enable_all_run l a1) as (a2&H3&H4). { eapply Forall_impl; [done|]. cbn. lia. }
  eapply wp_intro.
  - unfold ioapicinit, ioapicread, modify, gets, mbind, M_bind. cbn [io_data io_reg]. fold maxintr. rewrite H1. exact H3.
  - intros irq Hirq. rewrite H4, H2. destruct (last _) as [[? ?]|]; [done|]. zcases.
Qed.
Lemma ioapic_routes_witness :
  wp (ioapicinit 0;; enable_all [(1, 0); (14, 1)])
    (λ _ a', ∀ irq, 0 ≤ irq ≤ 23 →
       route a' irq = match last (filter (λ p, p.1 = irq) [(1, 0); (14, 1)]) with Some (_, cpu) => routed irq cpu | None => masked irq end)
    (Ioapic 0 (λ r, if r =? REG_VER then 1507345 else 0)).
Proof. apply (ioapic_routes (Ioapic 0 (λ r, if r =? REG_VER then 1507345 else 0)) 0 [(1, 0); (14, 1)]). apply (bool_decide_unpack _). by vm_compute. Defined.

(** ** The local APIC *)

Lemma wp_lapicw r v (Q : unit → lapicst → Prop) a :
  (∀ a', lapic_regs a' = put_reg (lapic_regs a) r (u32 v) → lapic_polls a' = lapic_polls a → Q tt a') → wp (lapicw r v) Q a.
Proof. intros H. apply wp_modify. by apply H. Qed.
Ltac lapic_step := apply wp_bind, wp_lapicw; let a' := fresh "a" in let H1 := fresh "Hr" in let H2 := fresh "Hp" in
  intros a' H1 H2; match type of H1 with _ = put_reg (lapic_regs ?b) _ _ => try match goal with H : lapic_regs b = _ |- _ => rewrite H in H1 end end.

(** After lapicinit the timer interrupts periodically with the vector of the
    clock, errors with theirs, the two interrupt pins are masked, interrupts of
    every priority are taken and the unit is enabled; the wait for the delivery
    of the first message ends. *)
Theorem lapicinit_registers a :
  lapic_on a = true →
  wp lapicinit (λ _ a',
    lapic_regs a' TIMER = Z.lor PERIODIC (T_IRQ0 + IRQ_TIMER) ∧ lapic_regs a' TICR = 10000000 ∧
    lapic_regs a' ERROR = T_IRQ0 + IRQ_ERROR ∧ lapic_regs a' LINT0 = MASKED ∧ lapic_regs a' LINT1 = MASKED ∧
    lapic_regs a' TPR = 0 ∧ lapic_regs a' SVR = Z.lor ENABLE (T_IRQ0 + IRQ_SPURIOUS) ∧ lapic_polls a' = O) a.
Proof.
  intros Hon.
  assert (Hwait : ∀ n b, lapic_polls b = n → wp (wait_delivered (S n))
    (λ _ b', lapic_regs b' = lapic_regs b ∧ lapic_polls b' = O) b).
  { induction n as [|n IH]; intros b Hb.
    - unfold wp. cbn. unfold mbind, M_bind, read_icrlo. rewrite Hb, Z.land_ldiff. done.
    - cbn [wait_delivered]. apply wp_bind. unfold wp at 1, read_icrlo. rewrite Hb.
      destruct (Z.land _ DELIVS =? 0) eqn:E.
      { exfalso. revert E. rewrite Z.land_lor_distr_l, Z.land_diag. intros E%Z.eqb_eq%Z.lor_eq_0_iff. by destruct E. }
      eapply wp_mono; [by apply IH|]. done. }
  unfold lapicinit. apply wp_bind, wp_gets. rewrite Hon. cbn [negb].
  do 6 lapic_step. apply wp_bind, wp_gets. apply wp_bind.
  apply wp_when; intros _; [apply wp_lapicw; intros a6 Hr6 Hp6; rewrite Hr4 in Hr6|].
  all: do 6 lapic_step; apply wp_bind.
  all: unfold get, wp at 1; apply wp_bind.
  all: eapply wp_mono; [by apply Hwait|]; intros [] b [Hrb Hpb]; apply wp_lapicw; intros c Hrc Hpc.
  all: rewrite Hrc, Hrb, Hpc.
  all: match goal with H : lapic_regs ?x = _ |- context [lapic_regs ?x] => rewrite H end.
  all: clear -Hpb; do 7 (refine (conj _ _); [vm_compute; reflexivity|]); exact Hpb.
Qed.

(** ** The clock *)

Section clock.
Context {D : Type} `{!Ports D}.
(** The clock as it is seen by the reads: [tl n r] is what register [r] has at
    the [n]-th read, and [now] counts the reads. *)
Context (tl : nat → Z → Z) (now : D → nat).
Definition clock_law : Prop := ∀ r d, ∃ d', cmos_read r d = Ok (tl (now d) r) d' ∧ now d' = S (now d).
Definition date_at (n : nat) : rtcdate := Rtc (tl n SECS) (tl n MINS) (tl n HOURS) (tl n DAY) (tl n MONTH) (tl n YEAR).
(** The clock is updated at most once during thirteen reads. *)
Definition slow_clock : Prop := ∀ n, ∃ k, ∀ i, (i ≤ 12)%nat → date_at (n + i) = if (i <? k)%nat then date_at n else date_at (n + 12).
(** From the [N]-th read on there is a while without an update. *)
Definition quiet_from (N : nat) : Prop :=
  ∀ i, (i ≤ 26)%nat → date_at (N + i) = date_at N ∧ Z.land (tl (N + i) CMOS_STATA) CMOS_UIP = 0.

Lemma fill_run d : clock_law → ∃ d', fill_rtcdate d =
  Ok (Rtc (tl (now d) SECS) (tl (now d + 1) MINS) (tl (now d + 2) HOURS) (tl (now d + 3) DAY) (tl (now d + 4) MONTH) (tl (now d + 5) YEAR)) d' ∧
  now d' = (now d + 6)%nat.
Proof.
  intros Hl. unfold fill_rtcdate, mbind, M_bind.
  destruct (Hl SECS d) as (d1&->&H1). destruct (Hl MINS d1) as (d2&->&H2). destruct (Hl HOURS d2) as (d3&->&H3).
  destruct (Hl DAY d3) as (d4&->&H4). destruct (Hl MONTH d4) as (d5&->&H5). destruct (Hl YEAR d5) as (d6&->&H6).
  exists d6. split; [|lia]. unfold mret, M_ret. repeat f_equal; lia.
Qed.
Lemma f_equal6 {A B} (f : A → A → A → A → A → A → B) a b c d e g a' b' c' d' e' g' :
  a = a' → b = b' → c = c' → d = d' → e = e' → g = g' → f a b c d e g = f a' b' c' d' e' g'.
Proof. by intros -> -> -> -> -> ->. Qed.
(** A date that was read piece by piece is the date of some time in between
    when all of it is the same the second time. *)
Lemma two_reads n :
  slow_clock →
  Rtc (tl n SECS) (tl (n + 1) MINS) (tl (n + 2) HOURS) (tl (n + 3) DAY) (tl (n + 4) MONTH) (tl (n + 5) YEAR) =
  Rtc (tl (n + 7) SECS) (tl (n + 7 + 1) MINS) (tl (n + 7 + 2) HOURS) (tl (n + 7 + 3) DAY) (tl (n + 7 + 4) MONTH) (tl (n + 7 + 5) YEAR) →
  ∃ i, (n ≤ i < n + 13)%nat ∧
    Rtc (tl n SECS) (tl (n + 1) MINS) (tl (n + 2) HOURS) (tl (n + 3) DAY) (tl (n + 4) MONTH) (tl (n + 5) YEAR) = date_at i.
Proof.
  intros Hs E. destruct (Hs n) as [k Hk]. destruct (decide (k ≤ 6)%nat) as [Hle|Hgt].
  - exists (n + 12)%nat. split; [lia|]. rewrite E.
    assert (Hn : ∀ i, (7 ≤ i ≤ 12)%nat → date_at (n + i) = date_at (n + 12)).
    { intros i Hi. rewrite Hk by lia. by destruct (Nat.ltb_spec i k); [lia|]. }
    rewrite <- !Nat.add_assoc. cbn [Nat.add].
    apply (f_equal6 Rtc); [apply (f_equal second (Hn 7%nat ltac:(lia)))|apply (f_equal minute (Hn 8%nat ltac:(lia)))
      |apply (f_equal hour (Hn 9%nat ltac:(lia)))|apply (f_equal day (Hn 10%nat ltac:(lia)))
      |apply (f_equal month (Hn 11%nat ltac:(lia)))|done].
  - exists n. split; [lia|].
    assert (Ho : ∀ i, (i ≤ 6)%nat → date_at (n + i) = date_at n).
    { intros i Hi. rewrite Hk by lia. by destruct (Nat.ltb_spec i k); [|lia]. }
    apply (f_equal6 Rtc); [done|apply (f_equal minute (Ho 1%nat ltac:(lia)))|apply (f_equal hour (Ho 2%nat ltac:(lia)))
      |apply (f_equal day (Ho 3%nat ltac:(lia)))|apply (f_equal month (Ho 4%nat ltac:(lia)))|apply (f_equal year (Ho 5%nat ltac:(lia)))].
Qed.

Lemma cmostime_loop_run N fuel d :
  clock_law → slow_clock → quiet_from N → (now d ≤ N + 13)%nat → (N + 1 - now d < fuel)%nat →
  ∃ d' i, cmostime_loop fuel d = Ok (date_at i) d' ∧ (now d ≤ i < now d')%nat.
Proof.
  intros Hl Hs Hq. revert d. induction fuel as [|fuel IH]; intros d Hd Hf; [lia|]. cbn [cmostime_loop]. unfold mbind, M_bind.
  destruct (fill_run d Hl) as (d1&->&H1). destruct (Hl CMOS_STATA d1) as (d2&->&H2).
  assert (Hquiet : (N ≤ now d)%nat → ∀ i, (i ≤ 12)%nat → date_at (now d + i) = date_at N ∧ Z.land (tl (now d + i) CMOS_STATA) CMOS_UIP = 0).
  { intros HN i Hi. replace (now d + i)%nat with (N + (now d - N + i))%nat by lia. apply Hq. lia. }
  destruct (Z.eqb_spec (Z.land (tl (now d1) CMOS_STATA) CMOS_UIP) 0) as [Hu|Hu]; cbn [negb]; cycle 1.
  { destruct (decide (N ≤ now d)%nat) as [HN|HN]; [destruct (Hquiet HN 6%nat) as [_ ?]; [lia|]; rewrite H1 in Hu; done|].
    destruct (IH d2) as (d'&i&->&?); [lia..|]. exists d', i. split; [done|lia]. }
  destruct (fill_run d2 Hl) as (d3&->&H3). rewrite H2, H1 in *. replace (S (now d + 6)) with (now d + 7)%nat in * by lia.
  case_bool_decide as E.
  - destruct (two_reads _ Hs E) as (i&Hi&Heq). exists d3, i. rewrite Heq. split; [done|lia].
  - destruct (decide (N ≤ now d)%nat) as [HN|HN].
    + destruct E. assert (∀ j, (j ≤ 12)%nat → date_at (now d + j) = date_at N) as Hj by (intros; by apply Hquiet).
      assert (Hjj : ∀ j j', (j ≤ 12)%nat → (j' ≤ 12)%nat → date_at (now d + j) = date_at (now d + j')) by (intros; by rewrite !Hj).
      rewrite <- !Nat.add_assoc. cbn [Nat.add]. rewrite <- (Nat.add_0_r (now d)) at 1.
      apply (f_equal6 Rtc); [apply (f_equal second (Hjj 0%nat 7%nat ltac:(lia) ltac:(lia)))|apply (f_equal minute (Hjj 1%nat 8%nat ltac:(lia) ltac:(lia)))
        |apply (f_equal hour (Hjj 2%nat 9%nat ltac:(lia) ltac:(lia)))|apply (f_equal day (Hjj 3%nat 10%nat ltac:(lia) ltac:(lia)))
        |apply (f_equal month (Hjj 4%nat 11%nat ltac:(lia) ltac:(lia)))|apply (f_equal year (Hjj 5%nat 12%nat ltac:(lia) ltac:(lia)))].
    + destruct (IH d3) as (d'&i&->&?); [lia..|]. exists d', i. split; [done|lia].
Qed.
End clock.

(** The digits of a number below 100, as the clock keeps them. *)
Definition bcd (x : Z) : Z := 16 * (x / 10) + x mod 10.
Lemma CONV_bcd x : 0 ≤ x < 100 → CONV (bcd x) = x.
Proof.
  intros Hx. apply Z.eqb_eq. revert x Hx. apply (range_check (λ x, CONV (bcd x) =? x) 100). by vm_compute.
Qed.

(** [cmostime] returns, once the clock has been quiet for a while, the date
    that the clock had at one moment during the call, although it reads the
    date one field at a time while the clock runs; the fields are decimal, as
    the status register says, and the year has its century. *)
Theorem cmostime_consistent {D} `{!Ports D} tl now N fuel (d : D) :
  clock_law tl now → slow_clock tl → quiet_from tl N → (now d < N)%nat → (N < fuel)%nat →
  ∃ d' i, (now d < i < now d')%nat ∧ cmostime fuel d =
    (let t := conv_date (Z.land (tl (now d) CMOS_STATB) 4 =? 0) (date_at tl i) in
     Ok (Rtc (second t) (minute t) (hour t) (day t) (month t) (year t +u 2000)) d').
Proof.
  intros Hl Hs Hq Hd Hf. unfold cmostime, mbind, M_bind. destruct (Hl CMOS_STATB d) as (d1&->&H1).
  destruct (cmostime_loop_run tl now N fuel d1) as (d'&i&->&Hi); [done..|lia|lia|]. exists d', i. split; [lia|done].
Qed.

(** A clock that goes from 58 to 59 seconds at the fourth read. *)
Definition demo_tl (n : nat) (r : Z) : Z := if r =? SECS then (if (n <? 4)%nat then 88 else 89) else if r =? CMOS_STATA then 0 else r.
#[local] Instance demo_clock : Ports (Z * nat) := {|
  port_in p d := if p =? CMOS_RETURN then (demo_tl d.2 d.1, (d.1, S d.2)) else (0, d);
  port_out p v d := if p =? CMOS_PORT then (v, d.2) else d;
  port_ins _ _ d := ([], d);
  port_outs _ _ d := d;
|}.
Definition demo_tl8 (n : nat) (r : Z) : Z := demo_tl n (u8 r).
Lemma cmostime_consistent_witness : ∃ d' i, (0 < i < d'.2)%nat ∧ cmostime 5 ((0, 0%nat) : Z * nat) =
    (let t := conv_date (Z.land (demo_tl8 0 CMOS_STATB) 4 =? 0) (date_at demo_tl8 i) in
     Ok (Rtc (second t) (minute t) (hour t) (day t) (month t) (year t +u 2000)) d').
Proof.
  apply (cmostime_consistent demo_tl8 snd 4 5 (0, 0%nat)); [| | |cbn; lia..].
  - intros r d. eexists. split; [reflexivity|done].
  - assert (Hd : ∀ n, date_at demo_tl8 n = if (n <? 4)%nat then date_at demo_tl8 0 else date_at demo_tl8 4).
    { intros n. unfold date_at, demo_tl8, demo_tl. by destruct (Nat.ltb_spec n 4). }
    intros n. exists (4 - n)%nat. intros i Hi. rewrite (Hd (n + i)%nat), (Hd n), (Hd (n + 12)%nat).
    destruct (Nat.ltb_spec (n + i) 4), (Nat.ltb_spec i (4 - n)), (Nat.ltb_spec n 4), (Nat.ltb_spec (n + 12) 4); (done || lia).
  - intros i Hi. unfold date_at, demo_tl8, demo_tl. by destruct (Nat.ltb_spec (4 + i) 4); [lia|].
Defined.
