(* ===== verification/Mp.v ===== *)
(** * Finding the processors: [mp.c] and [mp.h]

    The BIOS describes the machine in tables in physical memory, which is here
    a function from addresses to bytes.  [mpsearch] finds the floating pointer
    structure, [mpconfig] the configuration table that it points to, and
    [mpinit] goes over the entries of the table.  An address of a structure is
    a number, with 0 for the null pointer. *)

From S2P Require Import Prelude Params CString Ports.

Definition sizeof_mp : Z := 16.
Definition sizeof_mpconf : Z := 44.
Definition sizeof_mpproc : Z := 20.
Definition sizeof_mpioapic : Z := 8.
Definition MPPROC : Z := 0.
Definition MPBUS : Z := 1.
Definition MPIOAPIC : Z := 2.
Definition MPIOINTR : Z := 3.
Definition MPLINTR : Z := 4.

(** The fields of the structures that the code uses. *)
Definition mp_physaddr (m : mem) (mp : Z) : Z := load32 m (mp + 4).
Definition mp_imcrp (m : mem) (mp : Z) : Z := m (mp + 12).
Definition conf_length (m : mem) (conf : Z) : Z := m (conf + 4) + 256 * m (conf + 5).
Definition conf_version (m : mem) (conf : Z) : Z := m (conf + 6).
Definition conf_lapicaddr (m : mem) (conf : Z) : Z := load32 m (conf + 36).

Fixpoint sum_loop (m : mem) (addr : Z) (len : nat) (s : Z) : Z :=
  match len with
  | O => s
  | S n => sum_loop m (addr + 1) n (s +i m addr)
  end.
Definition sum (m : mem) (addr len : Z) : Z := u8 (sum_loop m addr (Z.to_nat len) 0).

(** [memcmp(p, s, 4) == 0] *)
Definition signature (m : mem) (p : Z) (s : list Z) : bool := bool_decide (bytes_at m p 4 = s).

Fixpoint mpsearch1_loop (m : mem) (n : nat) (p : Z) : Z :=
  match n with
  | O => 0
  | S n' =>
      if signature m p (bytes "_MP_") && (sum m p sizeof_mp =? 0) then p
      else mpsearch1_loop m n' (p + sizeof_mp)
  end.
Definition mpsearch1 (m : mem) (a len : Z) : Z := mpsearch1_loop m (Z.to_nat ((len + sizeof_mp - 1) / sizeof_mp)) (P2V a).

Definition mpsearch (m : mem) : Z :=
  let bda := P2V 1024 in
  let p := Z.shiftl (Z.lor (Z.shiftl (m (bda + 15)) 8) (m (bda + 14))) 4 in
  let mp :=
    if negb (p =? 0) then mpsearch1 m p 1024
    else
      let p := Z.lor (Z.shiftl (m (bda + 20)) 8) (m (bda + 19)) * 1024 in
      mpsearch1 m (p -u 1024) 1024 in
  if negb (mp =? 0) then mp else mpsearch1 m 983040 65536.

(** The result: the configuration table, and the structure that led to it. *)
Definition mpconfig (m : mem) : option (Z * Z) :=
  let mp := mpsearch m in
  if (mp =? 0) || (mp_physaddr m mp =? 0) then None
  else
    let conf := P2V (mp_physaddr m mp) in
    if negb (signature m conf (bytes "PCMP")) then None
    else if negb (conf_version m conf =? 1) && negb (conf_version m conf =? 4) then None
    else if negb (sum m conf (conf_length m conf) =? 0) then None
    else Some (conf, mp).

Section mpinit.
Context {D : Type} `{!Ports D}.

Record mpst := Mpst {
  ncpu : Z;
  apicids : list Z;           (* [cpus[i].apicid] *)
  ioapicid : Z;
  lapic : Z;
  mp_dev : D;
}.
Definition add_cpu (id : Z) (s : mpst) : mpst :=
  if ncpu s <? NCPU then Mpst (ncpu s + 1) (<[Z.to_nat (ncpu s) := id]> (apicids s)) (ioapicid s) (lapic s) (mp_dev s) else s.
Definition set_ioapicid (id : Z) (s : mpst) : mpst := Mpst (ncpu s) (apicids s) id (lapic s) (mp_dev s).
Definition set_lapic (a : Z) (s : mpst) : mpst := Mpst (ncpu s) (apicids s) (ioapicid s) a (mp_dev s).
Definition on_dev {A} (k : M D A) : M mpst A := λ s,
  match k (mp_dev s) with
  | Ok a d => Ok a (Mpst (ncpu s) (apicids s) (ioapicid s) (lapic s) d)
  | Fail f => Fail f
  end.

(** The loop over the entries of the table: the final value of [ismp].  The
    [break] of the default case ends the switch and not the loop. *)
Fixpoint mpinit_loop (fuel : nat) (m : mem) (p e : Z) (ismp : bool) : M mpst bool :=
  match fuel with
  | O => fail OutOfFuel
  | S f =>
      if e <=? p then mret ismp
      else if m p =? MPPROC then
        modify (add_cpu (m (p + 1)));;
        mpinit_loop f m (p + sizeof_mpproc) e ismp
      else if m p =? MPIOAPIC then
        modify (set_ioapicid (m (p + 1)));;
        mpinit_loop f m (p + sizeof_mpioapic) e ismp
      else if (m p =? MPBUS) || (m p =? MPIOINTR) || (m p =? MPLINTR) then
        mpinit_loop f m (p + 8) e ismp
      else mpinit_loop f m p e false
  end.
Definition mpinit (fuel : nat) (m : mem) : M mpst unit :=
  match mpconfig m with
  | None => panic "Expect to run on an SMP"
  | Some (conf, mp) =>
      modify (set_lapic (conf_lapicaddr m conf));;
      ismp ← mpinit_loop fuel m (conf + sizeof_mpconf) (conf + conf_length m conf) true;
      if negb (ismp : bool) then panic "Didn't find a suitable machine"
      else
        when (negb (mp_imcrp m mp =? 0))
          (on_dev (outb 34 112);;
           v ← on_dev (inb 35);
           on_dev (outb 35 (Z.lor v 1)))
  end.
End mpinit.
Arguments mpst : clear implicits.

(** ** The search *)

(** A structure with its signature, whose bytes add up to 0. *)
Definition is_mp (m : mem) (p : Z) : Prop :=
  bytes_at m p 4 = bytes "_MP_" ∧ foldr Z.add 0 (bytes_at m p 16) mod 256 = 0.

Lemma sum_loop_spec m a n s : sum_loop m a n s mod 256 = (s + foldr Z.add 0 (bytes_at m a n)) mod 256.
Proof.
  revert a s. induction n as [|n IH]; intros a s; cbn [sum_loop bytes_at foldr]; [by rewrite Z.add_0_r|].
  rewrite IH. rewrite Z.add_assoc. rewrite <- Zplus_mod_idemp_l. symmetry. rewrite <- Zplus_mod_idemp_l. symmetry.
  f_equal. f_equal. unfold s32. zdm.
Qed.
Lemma mp_test m p : signature m p (bytes "_MP_") && (sum m p sizeof_mp =? 0) = true ↔ is_mp m p.
Proof.
  unfold signature, sum, is_mp, u8. rewrite andb_true_iff, bool_decide_eq_true, Z.eqb_eq.
  change (Z.to_nat sizeof_mp) with 16%nat. by rewrite sum_loop_spec.
Qed.
(** The search of one region returns the first structure in it, at a multiple
    of its size from the start, and 0 only when there is none. *)
Lemma mpsearch1_loop_spec m n p :
  0 < p →
  let r := mpsearch1_loop m n p in
  (r = 0 ∧ ∀ i, 0 ≤ i < Z.of_nat n → ¬ is_mp m (p + 16 * i)) ∨
  (∃ i, 0 ≤ i < Z.of_nat n ∧ r = p + 16 * i ∧ is_mp m r ∧ ∀ j, 0 ≤ j < i → ¬ is_mp m (p + 16 * j)).
Proof.
  cbn zeta. revert p. induction n as [|n IH]; intros p Hp; [left; split; [done|lia]|]. cbn [mpsearch1_loop].
  destruct (_ && _) eqn:E.
  - right. exists 0. apply mp_test in E. rewrite Z.mul_0_r, Z.add_0_r. split_and!; [lia..|done|lia].
  - assert (¬ is_mp m p) as Hn by (rewrite <- mp_test, E; done). unfold sizeof_mp.
    assert (Hstep : ∀ i, ¬ is_mp m (p + 16 + 16 * (i - 1)) → ¬ is_mp m (p + 16 * i)).
    { intros i. by replace (p + 16 + 16 * (i - 1)) with (p + 16 * i) by lia. }
    destruct (IH (p + 16) ltac:(lia)) as [[H1 H2]|(i&Hi&H1&H2&H3)].
    + left. split; [done|]. intros i Hi. destruct (decide (i = 0)) as [->|]; [by rewrite Z.mul_0_r, Z.add_0_r|].
      apply Hstep, H2. lia.
    + right. exists (i + 1). split_and!; [lia..|done|]. intros j Hj.
      destruct (decide (j = 0)) as [->|]; [by rewrite Z.mul_0_r, Z.add_0_r|]. apply Hstep, H3. lia.
Qed.

(** ** The table *)

Inductive entry :=
| EProc (apicid : Z) (rest : list Z)
| EIoapic (apicno : Z) (rest : list Z)
| EOther (type : Z) (rest : list Z).
Definition entry_bytes (e : entry) : list Z :=
  match e with
  | EProc id rest => MPPROC :: id :: rest
  | EIoapic id rest => MPIOAPIC :: id :: rest
  | EOther t rest => t :: rest
  end.
Definition entry_ok (e : entry) : Prop :=
  match e with
  | EProc _ rest => length rest = 18%nat
  | EIoapic _ rest => length rest = 6%nat
  | EOther t rest => t ∈ [MPBUS; MPIOINTR; MPLINTR] ∧ length rest = 7%nat
  end.
Definition table_bytes (es : list entry) : list Z := concat (entry_bytes <$> es).
Definition procs_of (es : list entry) : list Z := omap (λ e, match e with EProc id _ => Some id | _ => None end) es.
Definition ioapics_of (es : list entry) : list Z := omap (λ e, match e with EIoapic id _ => Some id | _ => None end) es.

Section thms.
Context {D : Type} `{!Ports D}.
Abbreviation mpst := (mpst D).

(** The processors recorded so far are [l], as many as fit. *)
Definition has_cpus (l : list Z) (s : mpst) : Prop :=
  ncpu s = Z.min NCPU (Z.of_nat (length l)) ∧ length (apicids s) = Z.to_nat NCPU ∧
  take (Z.to_nat (ncpu s)) (apicids s) = take (Z.to_nat NCPU) l.
Lemma add_cpu_ok l id s : has_cpus l s → has_cpus (l ++ [id]) (add_cpu id s).
Proof.
  unfold has_cpus, add_cpu, NCPU. intros (H1&H2&H3). rewrite length_app. cbn [length].
  destruct (Z.ltb_spec (ncpu s) 8) as [Hlt|Hge]; cbn [ncpu apicids].
  - assert (Hl : ncpu s = Z.of_nat (length l)) by lia. rewrite length_insert. split_and!; [lia|done|].
    rewrite Hl in *. replace (Z.to_nat (Z.of_nat (length l) + 1)) with (S (length l)) by lia.
    rewrite Nat2Z.id in *. rewrite (take_S_r _ _ id), take_insert_ge, H3 by (try lia; apply list_lookup_insert_eq; lia).
    rewrite !(take_ge _ (Z.to_nat 8)); [done|rewrite length_app; cbn; lia|lia].
  - split_and!; [lia|done|]. rewrite H3. rewrite take_app_le by lia. done.
Qed.

Lemma bytes_at_app (m : mem) a l1 l2 :
  bytes_at m a (length (l1 ++ l2)) = l1 ++ l2 →
  bytes_at m a (length l1) = l1 ∧ bytes_at m (a + Z.of_nat (length l1)) (length l2) = l2.
Proof.
  revert a. induction l1 as [|c l1 IH]; intros a; cbn [app length bytes_at]; [by rewrite Z.add_0_r|].
  intros [= -> H]. destruct (IH _ H) as [-> H2]. split; [done|]. by replace (a + Z.of_nat (S (length l1))) with (a + 1 + Z.of_nat (length l1)) by lia.
Qed.
Definition apply_entry (e : entry) (s : mpst) : mpst :=
  match e with EProc id _ => add_cpu id s | EIoapic id _ => set_ioapicid id s | EOther _ _ => s end.
Lemma mpinit_loop_entry f m p en ismp e s :
  entry_ok e → bytes_at m p (length (entry_bytes e)) = entry_bytes e → p < en →
  mpinit_loop (S f) m p en ismp s = mpinit_loop f m (p + Z.of_nat (length (entry_bytes e))) en ismp (apply_entry e s).
Proof.
  intros He Hb Hlt. cbn [mpinit_loop]. destruct (Z.leb_spec en p); [lia|].
  destruct e as [id rest|id rest|t rest]; cbn [entry_bytes entry_ok length bytes_at apply_entry] in *.
  - injection Hb as H0 H1 _. by rewrite H0, H1, He.
  - injection Hb as H0 H1 _. by rewrite H0, H1, He.
  - injection Hb as H0 _. destruct He as [Ht He]. rewrite H0, He.
    assert (Hsw : (t =? MPPROC) = false ∧ (t =? MPIOAPIC) = false ∧ (t =? MPBUS) || (t =? MPIOINTR) || (t =? MPLINTR) = true).
    { clear -Ht. unfold MPBUS, MPIOINTR, MPLINTR in Ht. set_unfold in Ht. by destruct_or!; subst. }
    by destruct Hsw as (->&->&->).
Qed.
Lemma mpinit_loop_entries f m p en ismp es s :
  Forall entry_ok es → bytes_at m p (length (table_bytes es)) = table_bytes es → p + Z.of_nat (length (table_bytes es)) ≤ en →
  mpinit_loop (length es + f) m p en ismp s =
  mpinit_loop f m (p + Z.of_nat (length (table_bytes es))) en ismp (foldl (λ s e, apply_entry e s) s es).
Proof.
  revert p s. induction es as [|e es IH]; intros p s He Hb Hle; [cbn; by rewrite Z.add_0_r|].
  apply Forall_cons in He as [He Hes]. change (table_bytes (e :: es)) with (entry_bytes e ++ table_bytes es) in *.
  apply bytes_at_app in Hb as [Hb1 Hb2]. rewrite length_app in *. rewrite Nat2Z.inj_add, Z.add_assoc in *.
  cbn [length Nat.add foldl]. rewrite (mpinit_loop_entry _ _ _ _ _ e) by (try done; destruct e; cbn in *; lia). by apply IH.
Qed.
Lemma entries_result es l io s :
  has_cpus l s → ioapicid s = io →
  let s' := foldl (λ s e, apply_entry e s) s es in
  has_cpus (l ++ procs_of es) s' ∧ ioapicid s' = default io (last (ioapics_of es)) ∧ lapic s' = lapic s.
Proof.
  cbn zeta. revert l io s. induction es as [|e es IH]; intros l io s Hc Hio; [by rewrite app_nil_r|]. cbn [foldl].
  destruct e as [id rest|id rest|t rest]; cbn [apply_entry procs_of ioapics_of omap list_omap].
  - destruct (IH (l ++ [id]) io (add_cpu id s)) as (H1&H2&H3); [by apply add_cpu_ok|unfold add_cpu; by destruct (_ <? _)|].
    rewrite <- app_assoc in H1. split_and!; try done. rewrite H3. unfold add_cpu. by destruct (_ <? _).
  - destruct (IH l id (set_ioapicid id s)) as (H1&H2&H3); [done..|]. split_and!; try done. rewrite H2, last_cons. by destruct (last _).
  - by apply IH.
Qed.

(** An entry of a type that the code does not know: the loop never ends. *)
Lemma mpinit_loop_unknown fuel m p e ismp (s : mpst) :
  p < e → m p ∉ [MPPROC; MPBUS; MPIOAPIC; MPIOINTR; MPLINTR] → mpinit_loop fuel m p e ismp s = Fail OutOfFuel.
Proof.
  intros Hp Ht. revert ismp. induction fuel as [|fuel IH]; intros ismp; [done|]. cbn [mpinit_loop].
  destruct (Z.leb_spec e p); [lia|].
  assert (Hsw : (m p =? MPPROC) = false ∧ (m p =? MPIOAPIC) = false ∧ (m p =? MPBUS) || (m p =? MPIOINTR) || (m p =? MPLINTR) = false).
  { unfold MPPROC, MPIOAPIC, MPBUS, MPIOINTR, MPLINTR in *. set_unfold in Ht. rewrite !orb_false_iff, !Z.eqb_neq. lia. }
  destruct Hsw as (->&->&->). apply IH.
Qed.

Lemma mpinit_loop_less f f' m p e ismp (s : mpst) :
  (f ≤ f')%nat → mpinit_loop f' m p e ismp s = Fail OutOfFuel → mpinit_loop f m p e ismp s = Fail OutOfFuel.
Proof.
  revert f' p ismp s. induction f as [|f IH]; intros [|f'] p ismp s Hf; try done; [lia|]. cbn [mpinit_loop]. unfold mbind, M_bind, modify.
  repeat destruct (_ <=? _); [done|]. repeat case_match; apply IH; lia.
Qed.

(** When the BIOS has left a valid configuration table with the entries
    [es], mpinit returns with the processors of the table in their order, as
    many as the kernel has room for, the id of the last I/O APIC, and the
    address of the local APIC. *)
Theorem mpinit_finds m conf mp es fuel (s : mpst) :
  mpconfig m = Some (conf, mp) → conf_length m conf = sizeof_mpconf + Z.of_nat (length (table_bytes es)) →
  bytes_at m (conf + sizeof_mpconf) (length (table_bytes es)) = table_bytes es → Forall entry_ok es →
  ncpu s = 0 → length (apicids s) = Z.to_nat NCPU → (length es < fuel)%nat →
  wp (mpinit fuel m) (λ _ s', ncpu s' = Z.min NCPU (Z.of_nat (length (procs_of es))) ∧
    take (Z.to_nat (ncpu s')) (apicids s') = take (Z.to_nat NCPU) (procs_of es) ∧
    ioapicid s' = default (ioapicid s) (last (ioapics_of es)) ∧ lapic s' = conf_lapicaddr m conf) s.
Proof.
  intros Hm Hlen Hb He Hn Hl Hf. unfold mpinit. rewrite Hm. apply wp_bind, wp_modify, wp_bind.
  rewrite Hlen, Z.add_assoc. set (s1 := set_lapic _ s).
  destruct (entries_result es [] (ioapicid s) s1) as ((H1&H2&H3)&H4&H5); [unfold has_cpus; cbn; rewrite Hn; by repeat split|done|].
  eapply (wp_intro _ _ _ true).
  { replace fuel with (length es + S (fuel - length es - 1))%nat by lia. rewrite mpinit_loop_entries by (done || lia).
    cbn [mpinit_loop]. by rewrite Z.leb_refl. }
  cbn [negb]. apply wp_when; intros _; [|done].
  unfold wp, mbind, M_bind, on_dev, outb, inb, modify. cbn. by destruct (port_in 35 _).
Qed.

(** A table with an entry of an unknown type, after any entries that are
    known: mpinit does not report that the machine is not suitable but runs
    for ever, whatever the number of steps. *)
Theorem mpinit_unknown_entry_loops m conf mp es t rest fuel (s : mpst) :
  mpconfig m = Some (conf, mp) → Forall entry_ok es → t ∉ [MPPROC; MPBUS; MPIOAPIC; MPIOINTR; MPLINTR] →
  conf_length m conf = sizeof_mpconf + Z.of_nat (length (table_bytes es ++ t :: rest)) →
  bytes_at m (conf + sizeof_mpconf) (length (table_bytes es ++ t :: rest)) = table_bytes es ++ t :: rest →
  mpinit fuel m s = Fail OutOfFuel.
Proof.
  intros Hm He Ht Hlen Hb. unfold mpinit. rewrite Hm. unfold mbind, M_bind, modify.
  apply bytes_at_app in Hb as [Hb1 Hb2]. rewrite length_app in Hlen. cbn [length bytes_at] in Hlen, Hb2. injection Hb2 as Hb2 _.
  enough (mpinit_loop fuel m (conf + sizeof_mpconf) (conf + conf_length m conf) true (set_lapic (conf_lapicaddr m conf) s) = Fail OutOfFuel) as -> by done.
  apply (mpinit_loop_less fuel (length es + fuel)); [lia|]. rewrite mpinit_loop_entries by (done || lia).
  apply mpinit_loop_unknown; [lia|by rewrite Hb2].
Qed.
End thms.

(** A machine with two processors and one I/O APIC, and one whose table has an
    entry of type 9. *)
#[local] Instance no_ports : Ports unit := {|
  port_in _ d := (0, d); port_out _ _ d := d; port_ins _ _ d := ([], d); port_outs _ _ d := d |}.
Definition demo_mp : list Z := [95; 77; 80; 95; 0; 16; 15; 0; 1; 4; 129; 0; 0; 0; 0; 0].
Definition demo_conf (len checksum : Z) : list Z :=
  bytes "PCMP" ++ [len; 0; 4; checksum] ++ replicate 24 0 ++ [0; 0; 4; 0; 0; 0; 224; 254; 0; 0; 0; 0].
Definition demo_entries : list entry :=
  [EProc 0 (replicate 18 0); EProc 1 (replicate 18 0); EOther MPBUS (replicate 7 0); EIoapic 5 (replicate 6 0)].
Definition demo_bios : mem :=
  store (store (λ _, 0) (P2V 983040) demo_mp) (P2V 987136) (demo_conf 100 125 ++ table_bytes demo_entries).
Definition demo_bios9 : mem :=
  store (store (λ _, 0) (P2V 983040) demo_mp) (P2V 987136)
    (demo_conf 72 153 ++ table_bytes [EProc 0 (replicate 18 0)] ++ 9 :: replicate 7 0).
Definition demo_mpst : mpst unit := Mpst 0 (replicate 8 0) 0 0 tt.
Lemma mpinit_finds_witness :
  wp (mpinit 9 demo_bios) (λ _ s', ncpu s' = Z.min NCPU (Z.of_nat (length (procs_of demo_entries))) ∧
    take (Z.to_nat (ncpu s')) (apicids s') = take (Z.to_nat NCPU) (procs_of demo_entries) ∧
    ioapicid s' = default 0 (last (ioapics_of demo_entries)) ∧ lapic s' = conf_lapicaddr demo_bios (P2V 987136)) demo_mpst.
Proof.
  apply (mpinit_finds demo_bios (P2V 987136) (P2V 983040) demo_entries 9 demo_mpst); try by vm_compute.
  - repeat constructor.
  - cbn. lia.
Defined.
Lemma mpinit_unknown_entry_loops_witness : mpinit 1000 demo_bios9 demo_mpst = Fail OutOfFuel.
Proof.
  apply (mpinit_unknown_entry_loops demo_bios9 (P2V 987136) (P2V 983040) [EProc 0 (replicate 18 0)] 9 (replicate 7 0)); try by vm_compute.
  - repeat constructor.
  - apply (bool_decide_unpack _). by vm_compute.
Defined.
