(* ===== verification/Ide.v ===== *)
(** * The disk driver: [ide.c]

    Buffers are those of the buffer cache, a pointer to one is an index, and
    [qnext] is the link of the queue of requests.  The disk is behind ports.
    All the code runs with [idelock] held, from where it is taken to where it
    is released or [sleep] lets it go: [ideintr] is one such piece, and
    [iderw] has two, up to its loop and the test of the loop. *)

From S2P Require Import Prelude Params Sleeplock Bio Ports Trap Apic.

Definition SECTOR_SIZE : Z := 512.
Definition IDE_BSY : Z := 128.
Definition IDE_DRDY : Z := 64.
Definition IDE_DF : Z := 32.
Definition IDE_ERR : Z := 1.
Definition IDE_CMD_READ : Z := 32.
Definition IDE_CMD_WRITE : Z := 48.
Definition IDE_CMD_RDMUL : Z := 196.
Definition IDE_CMD_WRMUL : Z := 197.

Section ide.
Context {D : Type} `{!Ports D}.
(** How often the status is read before the disk must be ready. *)
Context (polls : nat).

Record ist := Ist {
  i_bufs : list buf;
  qnext : nat → option nat;
  idequeue : option nat;
  havedisk1 : bool;
  i_dev : D;
  i_io : ioapic;
  wakes : list nat;          (* the channels that wakeup was called for *)
}.
Definition set_bufs (v : list buf) (s : ist) : ist := Ist v (qnext s) (idequeue s) (havedisk1 s) (i_dev s) (i_io s) (wakes s).
Definition set_qnext (i : nat) (v : option nat) (s : ist) : ist :=
  Ist (i_bufs s) (fupd (qnext s) i v) (idequeue s) (havedisk1 s) (i_dev s) (i_io s) (wakes s).
Definition set_queue (v : option nat) (s : ist) : ist := Ist (i_bufs s) (qnext s) v (havedisk1 s) (i_dev s) (i_io s) (wakes s).
Definition set_havedisk1 (v : bool) (s : ist) : ist := Ist (i_bufs s) (qnext s) (idequeue s) v (i_dev s) (i_io s) (wakes s).
Definition set_dev (v : D) (s : ist) : ist := Ist (i_bufs s) (qnext s) (idequeue s) (havedisk1 s) v (i_io s) (wakes s).
Definition set_io (v : ioapic) (s : ist) : ist := Ist (i_bufs s) (qnext s) (idequeue s) (havedisk1 s) (i_dev s) v (wakes s).
Definition wakeup (b : nat) (s : ist) : ist := Ist (i_bufs s) (qnext s) (idequeue s) (havedisk1 s) (i_dev s) (i_io s) (b :: wakes s).

Definition dev {A} (m : M D A) : M ist A := λ s,
  match m (i_dev s) with Ok a d => Ok a (set_dev d s) | Fail f => Fail f end.
Definition ioapic_do {A} (m : M ioapic A) : M ist A := λ s,
  match m (i_io s) with Ok a x => Ok a (set_io x s) | Fail f => Fail f end.
Definition buf_of (i : nat) : M ist buf := λ s,
  match i_bufs s !! i with Some b => Ok b s | None => Fail (Undef "buf") end.
Definition upd_buf (i : nat) (f : buf → buf) : M ist unit := modify (λ s, set_bufs (alter f i (i_bufs s)) s).

Fixpoint idewait_loop (fuel : nat) : M D Z :=
  match fuel with
  | O => fail OutOfFuel
  | S f =>
      r ← inb 503;
      if Z.land r (Z.lor IDE_BSY IDE_DRDY) =? IDE_DRDY then mret r else idewait_loop f
  end.
Definition idewait (checkerr : bool) : M D Z :=
  r ← idewait_loop polls;
  if checkerr && negb (Z.land r (Z.lor IDE_DF IDE_ERR) =? 0) then mret (-1) else mret 0.

(** Is disk 1 present: at most [n] reads of the status. *)
Fixpoint probe (n : nat) : M D bool :=
  match n with
  | O => mret false
  | S n' =>
      v ← inb 503;
      if negb (v =? 0) then mret true else probe n'
  end.
Definition ideinit (ncpu : Z) : M ist unit :=
  ioapic_do (ioapicenable IRQ_IDE (ncpu - 1));;
  _ ← dev (idewait false);
  dev (outb 502 (Z.lor 224 (Z.shiftl 1 4)));;
  found ← dev (probe 1000);
  when found (modify (set_havedisk1 true));;
  dev (outb 502 (Z.lor 224 (Z.shiftl 0 4))).

Definition idestart (p : option nat) : M ist unit :=
  match p with
  | None => panic "idestart"
  | Some i =>
      b ← buf_of i;
      if FSSIZE <=? blockno b then panic "incorrect blockno"
      else
        let sector_per_block := BSIZE / SECTOR_SIZE in
        let sector := blockno b *i sector_per_block in
        let read_cmd := if sector_per_block =? 1 then IDE_CMD_READ else IDE_CMD_RDMUL in
        let write_cmd := if sector_per_block =? 1 then IDE_CMD_WRITE else IDE_CMD_WRMUL in
        if 7 <? sector_per_block then panic "idestart"
        else
          _ ← dev (idewait false);
          dev (outb 1014 0);;
          dev (outb 498 sector_per_block);;
          dev (outb 499 (Z.land sector 255));;
          dev (outb 500 (Z.land (Z.shiftr sector 8) 255));;
          dev (outb 501 (Z.land (Z.shiftr sector 16) 255));;
          dev (outb 502 (Z.lor (Z.lor 224 (Z.shiftl (Z.land (Bio.dev b) 1) 4)) (Z.land (Z.shiftr sector 24) 15)));;
          if negb (Z.land (flags b) B_DIRTY =? 0) then
            dev (outb 503 write_cmd);;
            dev (outsl 496 (data b) (Z.to_nat (BSIZE / 4)))
          else dev (outb 503 read_cmd)
  end.

(** The part of [ideintr] for the request [i] that has been taken from the
    queue. *)
Definition intr_serve (i : nat) : M ist unit :=
  b ← buf_of i;
  (if Z.land (flags b) B_DIRTY =? 0 then
     r ← dev (idewait true);
     if 0 <=? r then
       d ← dev (insl 496 (Z.to_nat (BSIZE / 4)));
       upd_buf i (set_data d)
     else mret tt
   else mret tt);;
  upd_buf i (λ b, set_flags (Z.lor (flags b) B_VALID) b);;
  upd_buf i (λ b, set_flags (Z.ldiff (flags b) B_DIRTY) b);;
  modify (wakeup i).
Definition ideintr : M ist unit :=
  q ← gets idequeue;
  match q with
  | None => mret tt
  | Some i =>
      modify (λ s, set_queue (qnext s i) s);;
      intr_serve i;;
      q ← gets idequeue;
      match q with
      | None => mret tt
      | Some _ => idestart q
      end
  end.

(** The last buffer of the queue from [i] on. *)
Fixpoint queue_end (fuel : nat) (i : nat) : M ist nat :=
  match fuel with
  | O => fail OutOfFuel
  | S f =>
      n ← gets (λ s, qnext s i);
      match n with
      | None => mret i
      | Some j => queue_end f j
      end
  end.
(** Append [i] to the queue. *)
Definition enqueue (i : nat) : M ist unit :=
  modify (set_qnext i None);;
  s ← get;
  match idequeue s with
  | None => modify (set_queue (Some i))
  | Some h => l ← queue_end (S (length (i_bufs s))) h; modify (set_qnext l (Some i))
  end.
(** [iderw] of the process [me], up to the loop. *)
Definition iderw_submit (me : Z) (i : nat) : M ist unit :=
  b ← buf_of i;
  have ← gets havedisk1;
  if negb (holdingsleep me (lock b)) then panic "iderw: buf not locked"
  else if Z.land (flags b) (Z.lor B_VALID B_DIRTY) =? B_VALID then panic "iderw: nothing to do"
  else if negb (Bio.dev b =? 0) && negb have then panic "iderw: ide disk 1 not present"
  else
    enqueue i;;
    q ← gets idequeue;
    if bool_decide (q = Some i) then idestart (Some i) else mret tt.
(** The test of the loop: whether the request is done. *)
Definition iderw_done (i : nat) : M ist bool :=
  b ← buf_of i;
  mret (Z.land (flags b) (Z.lor B_VALID B_DIRTY) =? B_VALID).

End ide.
Arguments ist : clear implicits.
