(* ===== verification/IdeThms.v ===== *)
(** * The disk driver serves requests in order

    [disk_laws] is what the driver relies on of a disk and its controller.
    [istep] interleaves the processes that call [iderw], the interrupts of the
    disk, and the other users of the buffer cache. *)

From S2P Require Import Prelude Params Sleeplock Bio Ports Apic Ide.

(** ** The disk *)

Inductive dreq := RdReq (drv lba : Z) | WrReq (drv lba : Z) (bs : list Z).
(** Whether the disk takes a command, works on one, has the data of a read, or
    has ended the last command with an error. *)
Inductive phase := Ready | Running (r : dreq) | DataReady (drv lba : Z) | Failed.

Section laws.
Context {D : Type} `{!Ports D} (polls : nat).

(** The registers that describe a request: the number of sectors, the sector
    in four parts, and the drive with the last of them. *)
Definition issue (b0 b1 b2 hd : Z) (d : D) : D :=
  port_out 502 hd (port_out 501 b2 (port_out 500 b1 (port_out 499 b0 (port_out 498 1 (port_out 1014 0 d))))).

Record disk_laws (sectors : D → Z → Z → list Z) (ph : D → phase) (completes : D → D → Prop) : Prop := {
  (* unless it works on a command, the disk becomes ready *)
  law_poll d : (∀ r, ph d ≠ Running r) →
    ∃ r d', idewait_loop polls d = Ok r d' ∧ ph d' = ph d ∧ sectors d' = sectors d ∧
      (Z.land r (Z.lor IDE_DF IDE_ERR) = 0 ↔ ph d ≠ Failed);
  law_read d drv b0 b1 : (ph d = Ready ∨ ph d = Failed) → 0 ≤ drv ≤ 1 → is_u8 b0 → is_u8 b1 →
    let d' := port_out 503 IDE_CMD_READ (issue b0 b1 0 (224 + 16 * drv) d) in
    ph d' = Running (RdReq drv (b0 + 256 * b1)) ∧ sectors d' = sectors d;
  law_write d drv b0 b1 bs : (ph d = Ready ∨ ph d = Failed) → 0 ≤ drv ≤ 1 → is_u8 b0 → is_u8 b1 → length bs = 512%nat →
    let d' := port_outs 496 bs (port_out 503 IDE_CMD_WRITE (issue b0 b1 0 (224 + 16 * drv) d)) in
    ph d' = Running (WrReq drv (b0 + 256 * b1) bs) ∧ sectors d' = sectors d;
  law_ins d drv lba : ph d = DataReady drv lba →
    ∃ d', port_ins 496 512 d = (sectors d drv lba, d') ∧ ph d' = Ready ∧ sectors d' = sectors d;
  (* the disk has worked on a command and raises its interrupt *)
  law_done d d' : completes d d' →
    match ph d with
    | Running (RdReq drv lba) => sectors d' = sectors d ∧ (ph d' = DataReady drv lba ∨ ph d' = Failed)
    | Running (WrReq drv lba bs) =>
        (ph d' = Ready ∧ ∀ v n, sectors d' v n = if (v =? drv) && (n =? lba) then bs else sectors d v n) ∨
        (ph d' = Failed ∧ sectors d' = sectors d)
    | _ => False
    end;
}.
End laws.

Section driver.
Context {D : Type} `{!Ports D} (polls : nat) (sectors : D → Z → Z → list Z) (ph : D → phase) (completes : D → D → Prop).
Context (L : disk_laws polls sectors ph completes).
Abbreviation ist := (ist D).
Abbreviation idestart := (idestart polls).
Abbreviation ideintr := (ideintr polls).
Abbreviation iderw_submit := (iderw_submit polls).
Abbreviation intr_serve := (intr_serve polls).

(** ** One request *)

Definition drive (b : buf) : Z := Z.land (Bio.dev b) 1.
Definition dirty (b : buf) : bool := negb (Z.land (flags b) B_DIRTY =? 0).
Definition done (b : buf) : bool := Z.land (flags b) (Z.lor B_VALID B_DIRTY) =? B_VALID.
Definition req_of (b : buf) : dreq := if dirty b then WrReq (drive b) (blockno b) (data b) else RdReq (drive b) (blockno b).
(** A buffer that a request can be made for. *)
Definition request_ok (b : buf) : Prop := 0 ≤ blockno b < FSSIZE ∧ length (data b) = 512%nat.

Lemma drive_range b : 0 ≤ drive b ≤ 1.
Proof. unfold drive. change (Z.land (Bio.dev b) 1) with (Z.land (Bio.dev b) (Z.ones 1)). rewrite Z.land_ones by lia. pose proof (Z.mod_pos_bound (Bio.dev b) (2 ^ 1)). lia. Qed.
Lemma bind_run {S A B} (m : M S A) (k : A → M S B) s a s' : m s = Ok a s' → (m ≫= k) s = k a s'.
Proof. intros Hm. unfold mbind, M_bind. by rewrite Hm. Qed.
Lemma dev_run {A B} (m : M D A) (k : A → M ist B) s a d :
  m (i_dev s) = Ok a d → (dev m ≫= k) s = k a (set_dev d s).
Proof. intros Hm. unfold mbind, M_bind, dev. by rewrite Hm. Qed.
Lemma outb_run {B} p v (k : unit → M ist B) s : (dev (outb p v) ≫= k) s = k tt (set_dev (port_out p (u8 v) (i_dev s)) s).
Proof. done. Qed.
Lemma sector_bytes n dv : 0 ≤ n < FSSIZE → 0 ≤ dv ≤ 1 →
  u8 (Z.land (n *i 1) 255) = n mod 256 ∧ u8 (Z.land (Z.shiftr (n *i 1) 8) 255) = n / 256 ∧
  u8 (Z.land (Z.shiftr (n *i 1) 16) 255) = 0 ∧
  u8 (Z.lor (Z.lor 224 (Z.shiftl dv 4)) (Z.land (Z.shiftr (n *i 1) 24) 15)) = 224 + 16 * dv.
Proof.
  intros Hn Hd. assert (dv = 0 ∨ dv = 1) as Hdv by lia.
  assert (Hc : (u8 (Z.land (n *i 1) 255) =? n mod 256) && (u8 (Z.land (Z.shiftr (n *i 1) 8) 255) =? n / 256) &&
    (u8 (Z.land (Z.shiftr (n *i 1) 16) 255) =? 0) &&
    (u8 (Z.lor (Z.lor 224 (Z.shiftl 0 4)) (Z.land (Z.shiftr (n *i 1) 24) 15)) =? 224) &&
    (u8 (Z.lor (Z.lor 224 (Z.shiftl 1 4)) (Z.land (Z.shiftr (n *i 1) 24) 15)) =? 240) = true).
  { revert n Hn. apply (range_check _ 1000). by vm_compute. }
  rewrite !andb_true_iff, !Z.eqb_eq in Hc. destruct Hdv as [-> | ->]; tauto.
Qed.

Lemma idewait_false s : (∀ r, ph (i_dev s) ≠ Running r) →
  ∃ d', ∀ B (k : Z → M ist B), (dev (idewait polls false) ≫= k) s = k 0 (set_dev d' s) ∧
    ph d' = ph (i_dev s) ∧ sectors d' = sectors (i_dev s).
Proof.
  intros Hr. destruct (law_poll _ _ _ _ L _ Hr) as (r&d'&Hp&H1&H2&_). exists d'. intros B k. split; [|done].
  unfold mbind, M_bind, dev, idewait, mbind, M_bind. by rewrite Hp.
Qed.

Lemma idestart_ok s i b :
  i_bufs s !! i = Some b → request_ok b → (ph (i_dev s) = Ready ∨ ph (i_dev s) = Failed) →
  ∃ d', idestart (Some i) s = Ok tt (set_dev d' s) ∧ ph d' = Running (req_of b) ∧ sectors d' = sectors (i_dev s).
Proof.
  intros Hb [Hn Hlen] Hph. unfold Ide.idestart, mbind at 1, M_bind at 1, buf_of. rewrite Hb.
  destruct (Z.leb_spec FSSIZE (blockno b)); [lia|]. change (BSIZE / SECTOR_SIZE) with 1. cbn [Z.eqb Pos.eqb Z.ltb Z.compare Pos.compare Pos.compare_cont].
  destruct (idewait_false s) as (d1&Hw); [intros r; destruct Hph as [-> | ->]; done|].
  destruct (sector_bytes (blockno b) (drive b) Hn (drive_range b)) as (E1&E2&E3&E4).
  rewrite (proj1 (Hw _ _)). rewrite !outb_run. cbn [i_dev set_dev]. fold (drive b).
  rewrite E1, E2, E3, E4. destruct (Hw _ (λ _, mret tt)) as (_&P1&P2).
  assert (Hph1 : ph d1 = Ready ∨ ph d1 = Failed) by (by rewrite P1).
  assert (Hlba : blockno b mod 256 + 256 * (blockno b / 256) = blockno b) by zdm.
  assert (is_u8 (blockno b mod 256)) by (unfold is_u8; zdm). assert (is_u8 (blockno b / 256)) by (unfold is_u8, FSSIZE in *; zdm).
  unfold req_of, dirty. destruct (Z.land (flags b) B_DIRTY =? 0); cbn [negb].
  - destruct (law_read _ _ _ _ L d1 (drive b) (blockno b mod 256) (blockno b / 256)) as [R1 R2]; try done; [apply drive_range|].
    eexists. split; [done|]. rewrite Hlba in R1. split; [exact R1|]. rewrite <- P2. exact R2.
  - destruct (law_write _ _ _ _ L d1 (drive b) (blockno b mod 256) (blockno b / 256) (data b)) as [R1 R2]; try done; [apply drive_range|].
    eexists. split; [|rewrite Hlba in R1; split; [exact R1|rewrite <- P2; exact R2]].
    rewrite outb_run. unfold dev, outsl, modify. cbn [i_dev set_dev]. by rewrite take_ge by (rewrite Hlen; vm_compute; lia).
Qed.

(** ** The end of a request *)

(** The flags of a buffer when its request has been served. *)
Definition finish (b : buf) : buf := set_flags (Z.ldiff (Z.lor (flags b) B_VALID) B_DIRTY) b.
Lemma testbit6 n : 0 ≤ n → Z.testbit 6 n = (n =? 1) || (n =? 2).
Proof.
  intros Hn. destruct (decide (n < 3)) as [Hlt|Hge].
  - assert (n = 0 ∨ n = 1 ∨ n = 2) as [-> | [-> | ->]] by lia; done.
  - rewrite Z.bits_above_log2; [zcases|lia|]. change (Z.log2 6) with 2. lia.
Qed.
Lemma testbit_pow k n : 0 ≤ k → 0 ≤ n → Z.testbit (2 ^ k) n = (n =? k).
Proof. intros. rewrite Z.pow2_bits_eqb by lia. apply Z.eqb_sym. Qed.
Ltac flag_bits := apply Z.bits_inj'; intros n Hn;
  change B_VALID with (2 ^ 1) in *; change B_DIRTY with (2 ^ 2) in *;
  rewrite ?Z.land_spec, ?Z.lor_spec, ?Z.ldiff_spec, ?Z.land_spec, ?Z.lor_spec, ?testbit_pow by lia.
Lemma done_finish b : done (finish b) = true.
Proof.
  unfold done, finish. cbn [flags set_flags]. apply Z.eqb_eq. flag_bits.
  destruct (Z.testbit (flags b) n); zcases.
Qed.
Lemma finish_dirty b : flags (finish b) = Z.lor (Z.ldiff (flags b) B_DIRTY) B_VALID.
Proof. unfold finish. cbn [flags set_flags]. flag_bits. destruct (Z.testbit (flags b) n); zcases. Qed.
Lemma finish_clean b : dirty b = false → flags (finish b) = Z.lor (flags b) B_VALID.
Proof.
  unfold dirty. rewrite negb_false_iff, Z.eqb_eq. intros Hd. unfold finish. cbn [flags set_flags].
  assert (Hbit : Z.testbit (flags b) 2 = false).
  { apply (f_equal (λ x, Z.testbit x 2)) in Hd. rewrite Z.land_spec, Z.bits_0 in Hd. cbn in Hd. by rewrite andb_true_r in Hd. }
  flag_bits. destruct (Z.eqb_spec n 2) as [->|]; [by rewrite Hbit|]. by rewrite andb_true_r.
Qed.

(** The disk after the interrupt for a request, and what was transferred. *)
Definition transfer (d d1 d' : D) (b b' : buf) : Prop :=
  ph d1 ≠ Failed ∧ b' = finish b ∧ dirty b = true ∧ ph d' = Ready ∧
    (∀ v n, sectors d' v n = if (v =? drive b) && (n =? blockno b) then data b else sectors d v n) ∨
  ph d1 ≠ Failed ∧ b' = finish (set_data (sectors d (drive b) (blockno b)) b) ∧ dirty b = false ∧ ph d' = Ready ∧ sectors d' = sectors d ∨
  ph d1 = Failed ∧ b' = finish b ∧ ph d' = Failed ∧ sectors d' = sectors d.

Lemma idewait_true s :
  (∀ r, ph (i_dev s) ≠ Running r) →
  ∃ d', (∀ B (k : Z → M ist B), (dev (idewait polls true) ≫= k) s = k (match ph (i_dev s) with Failed => -1 | _ => 0 end) (set_dev d' s)) ∧
    ph d' = ph (i_dev s) ∧ sectors d' = sectors (i_dev s).
Proof.
  intros Hr. destruct (law_poll _ _ _ _ L _ Hr) as (r&d'&Hp&H1&H2&H3). exists d'. split; [|done]. intros B k.
  unfold mbind, M_bind, dev, idewait, mbind, M_bind. rewrite Hp. cbn [andb].
  destruct (Z.eqb_spec (Z.land r (Z.lor IDE_DF IDE_ERR)) 0) as [E|E]; cbn [negb].
  - apply H3 in E. by destruct (ph (i_dev s)).
  - destruct (ph (i_dev s)); try done; destruct E; by apply H3.
Qed.

Lemma upd_buf_run {B} i f (k : unit → M ist B) s b :
  i_bufs s !! i = Some b → (upd_buf i f ≫= k) s = k tt (set_bufs (<[i := f b]> (i_bufs s)) s).
Proof. intros Hb. unfold mbind, M_bind, upd_buf, modify. by rewrite (alter_insert _ _ _ b). Qed.
Lemma intr_flags (s : ist) i b :
  i_bufs s !! i = Some b →
  ((upd_buf i (λ b, set_flags (Z.lor (flags b) B_VALID) b);;
   upd_buf i (λ b, set_flags (Z.ldiff (flags b) B_DIRTY) b);; modify (wakeup i)) : M ist unit) s
  = Ok tt (wakeup i (set_bufs (<[i := finish b]> (i_bufs s)) s)).
Proof.
  intros Hb. pose proof (lookup_lt_Some _ _ _ Hb). rewrite (upd_buf_run _ _ _ _ b) by done.
  erewrite upd_buf_run; [|cbn; by apply list_lookup_insert_eq]. unfold modify. cbn. by rewrite list_insert_insert_eq.
Qed.
Lemma intr_serve_ok s d i b :
  i_bufs s !! i = Some b → ph d = Running (req_of b) → completes d (i_dev s) →
  ∃ b' d', intr_serve i s = Ok tt (wakeup i (set_bufs (<[i := b']> (i_bufs s)) (set_dev d' s))) ∧ transfer d (i_dev s) d' b b'.
Proof.
  intros Hb Hph Hc. pose proof (law_done _ _ _ _ L _ _ Hc) as Hd. rewrite Hph in Hd. pose proof (lookup_lt_Some _ _ _ Hb).
  unfold Ide.intr_serve. erewrite bind_run; [|unfold buf_of; by rewrite Hb]. unfold req_of in Hd.
  unfold transfer. destruct (dirty b) eqn:Hdirty; unfold dirty in Hdirty.
  - apply negb_true_iff in Hdirty. rewrite Hdirty. exists (finish b), (i_dev s). split.
    + erewrite bind_run; [|done]. rewrite (intr_flags _ _ b) by done. by destruct s.
    + destruct Hd as [[? ?]|[? ?]]; [left; split_and!; [congruence|done..]|right; right; done].
  - apply negb_false_iff in Hdirty. rewrite Hdirty. destruct Hd as [Hsec Hd].
    destruct (idewait_true s) as (d1&Hw&P1&P2). { intros r. destruct Hd as [-> | ->]; done. }
    destruct Hd as [Hd|Hd]; rewrite Hd in *.
    + destruct (law_ins _ _ _ _ L _ _ _ P1) as (d2&Hins&R1&R2).
      exists (finish (set_data (sectors d (drive b) (blockno b)) b)), d2. split; [|right; left; split_and!; try done; congruence].
      erewrite bind_run; cycle 1.
      { rewrite Hw. cbn [Z.leb Z.compare]. erewrite dev_run; cycle 1.
        { unfold insl. change (4 * Z.to_nat (BSIZE / 4))%nat with 512%nat. cbn [i_dev set_dev]. by rewrite Hins. }
        unfold upd_buf, modify. cbn [i_bufs set_dev]. by rewrite (alter_insert _ _ _ b). }
      erewrite intr_flags; [|cbn; by apply list_lookup_insert_eq]. cbn. rewrite list_insert_insert_eq. by rewrite P2, Hsec.
    + exists (finish b), d1. split; [|right; right; split_and!; try done; congruence].
      erewrite bind_run; [|rewrite Hw; done]. rewrite (intr_flags _ _ b) by done. done.
Qed.

(** ** The queue *)

Fixpoint links (nx : nat → option nat) (q : list nat) : Prop :=
  match q with
  | [] => True
  | i :: q' => nx i = head q' ∧ links nx q'
  end.
Definition queue_is (s : ist) (q : list nat) : Prop := idequeue s = head q ∧ links (qnext s) q.

Lemma links_upd nx q i v : i ∉ q → links nx q → links (fupd nx i v) q.
Proof.
  induction q as [|j q IH]; [done|]. intros Hi [H1 H2]. apply not_elem_of_cons in Hi as [Hij Hi].
  split; [by rewrite fupd_ne|]. by apply IH.
Qed.
Lemma links_snoc nx q l i : i ∉ q ++ [l] → l ∉ q → NoDup q → links nx (q ++ [l]) → links (fupd (fupd nx i None) l (Some i)) (q ++ [l; i]).
Proof.
  intros Hi Hl Hnd Hk. apply not_elem_of_app in Hi as [Hiq Hil%not_elem_of_cons].
  induction q as [|j q IH]; cbn in Hk |- *.
  - rewrite fupd_eq. rewrite fupd_ne by tauto. by rewrite fupd_eq.
  - apply not_elem_of_cons in Hiq as [??], Hl as [??]. apply NoDup_cons in Hnd as [??]. destruct Hk as [Hk1 Hk2].
    rewrite !fupd_ne by done. split; [by destruct q|]. by apply IH.
Qed.
Lemma queue_end_ok (s : ist) q l h fuel :
  links (qnext s) (q ++ [l]) → head (q ++ [l]) = Some h → (length q < fuel)%nat → queue_end fuel h s = Ok l s.
Proof.
  revert h fuel. induction q as [|j q IH]; intros h [|fuel] Hl Hh Hf; cbn in Hf; try lia; cbn in Hl, Hh; simplify_eq; cbn [queue_end].
  - destruct Hl as [Hl _]. erewrite bind_run; [|done]. cbn. by rewrite Hl.
  - destruct Hl as [Hj Hl]. erewrite bind_run; [|done]. cbn. rewrite Hj. destruct (q ++ [l]) as [|k r] eqn:E; [by destruct q|].
    cbn. apply IH; [done|done|lia].
Qed.

(** Adding a request at the end of the queue. *)
Lemma enqueue_ok (s : ist) q i :
  queue_is s q → NoDup q → i ∉ q → (∀ j, j ∈ q → (j < length (i_bufs s))%nat) →
  ∃ s', enqueue i s = Ok tt s' ∧ queue_is s' (q ++ [i]) ∧ i_bufs s' = i_bufs s ∧ i_dev s' = i_dev s ∧
    havedisk1 s' = havedisk1 s ∧ wakes s' = wakes s.
Proof.
  intros [Hh Hl] Hnd Hi Hr. unfold enqueue, mbind at 1 2, M_bind at 1 2, modify, get. cbn [idequeue set_qnext i_bufs].
  destruct q as [|l q _] using rev_ind.
  - cbn in Hh. rewrite Hh. eexists. split; [done|]. split; [|done]. split; [done|]. cbn. by rewrite fupd_eq.
  - assert (Hlen : (length q < S (length (i_bufs s)))%nat).
    { assert (length (q ++ [l]) ≤ length (i_bufs s))%nat; [|rewrite length_app in *; cbn in *; lia].
      trans (length (seq 0 (length (i_bufs s)))); [|by rewrite length_seq]. apply submseteq_length, NoDup_submseteq; [done|].
      intros j Hj%Hr. apply elem_of_seq. lia. }
    destruct (head (q ++ [l])) as [h|] eqn:Ehd; [|by destruct q]. rewrite Hh.
    erewrite bind_run; [|apply (queue_end_ok _ q); cbn; [apply links_upd; [done|exact Hl]|done|done]].
    eexists. split; [done|]. split; [|done]. apply NoDup_app in Hnd as (Hnq&Hd&_). rewrite <- app_assoc. cbn. split.
    + cbn. rewrite Hh, <- Ehd. by destruct q.
    + apply links_snoc; [done| |done|done]. intros ?. eapply Hd; [done|]. by apply list_elem_of_singleton.
Qed.

(** What a request has done to its buffer and to the disk, once served: a
    dirty buffer is on the disk, another has the contents of its block; or the
    command has failed. *)
Definition outcome (failed : Prop) (sec sec' : Z → Z → list Z) (b b' : buf) : Prop :=
  (¬ failed ∧ dirty b = true ∧ b' = finish b ∧
     ∀ v n, sec' v n = if (v =? drive b) && (n =? blockno b) then data b else sec v n) ∨
  (¬ failed ∧ dirty b = false ∧ b' = finish (set_data (sec (drive b) (blockno b)) b) ∧ sec' = sec) ∨
  (failed ∧ b' = finish b ∧ sec' = sec).
(** What the disk does, given the queue. *)
Definition dev_serves (s : ist) (q : list nat) : Prop :=
  match q with
  | [] => ph (i_dev s) = Ready ∨ ph (i_dev s) = Failed
  | i :: _ => ∃ b, i_bufs s !! i = Some b ∧ ph (i_dev s) = Running (req_of b)
  end.

Lemma submit_ok s q me i b s' :
  queue_is s q → NoDup q → i ∉ q → (∀ j, j ∈ q → (j < length (i_bufs s))%nat) → dev_serves s q →
  i_bufs s !! i = Some b → request_ok b → iderw_submit me i s = Ok tt s' →
  holdingsleep me (lock b) = true ∧ done b = false ∧ queue_is s' (q ++ [i]) ∧ i_bufs s' = i_bufs s ∧
  sectors (i_dev s') = sectors (i_dev s) ∧ dev_serves s' (q ++ [i]).
Proof.
  intros Hq Hnd Hi Hr Hd Hb Hok. unfold Ide.iderw_submit. erewrite bind_run; [|unfold buf_of; by rewrite Hb].
  erewrite bind_run; [|done]. destruct (holdingsleep me (lock b)); [|done]. cbn [negb]. fold (done b).
  destruct (done b); [done|]. destruct (negb _ && negb _); [done|].
  destruct (enqueue_ok s q i Hq Hnd Hi Hr) as (s1&He&Hq1&Hb1&Hd1&_). erewrite bind_run; [|exact He].
  erewrite bind_run; [|done]. cbn beta. destruct Hq1 as [Hh Hl]. rewrite Hh. intros Hrun.
  destruct q as [|h q]; cbn [head app] in *.
  - rewrite bool_decide_true in Hrun by done.
    destruct (idestart_ok s1 i b) as (d'&Hst&Hph&Hsec); [by rewrite Hb1|done|by rewrite Hd1|].
    rewrite Hst in Hrun. injection Hrun as <-. split_and!; try done.
    + by rewrite <- Hd1.
    + exists b. cbn. by rewrite Hb1.
  - rewrite bool_decide_false in Hrun by (intros [= ->]; apply Hi; left). injection Hrun as <-.
    split_and!; try done; [by rewrite Hd1|]. destruct Hd as (bh&Hbh&?). exists bh. by rewrite Hb1, Hd1.
Qed.

Lemma intr_ok (s : ist) d q i b :
  queue_is s (i :: q) → i ∉ q → i_bufs s !! i = Some b → ph d = Running (req_of b) → completes d (i_dev s) →
  (∀ j, j ∈ q → ∃ bj, i_bufs s !! j = Some bj ∧ request_ok bj) →
  ∃ s' b', ideintr s = Ok tt s' ∧ queue_is s' q ∧ i_bufs s' = <[i := b']> (i_bufs s) ∧ wakes s' = i :: wakes s ∧
    dev_serves s' q ∧ outcome (ph (i_dev s) = Failed) (sectors d) (sectors (i_dev s')) b b'.
Proof.
  intros [Hh [Hn Hl]] Hi Hb Hph Hc Hr. unfold Ide.ideintr. erewrite bind_run; [|done]. cbn beta. rewrite Hh. cbn [head].
  erewrite bind_run; [|done]. rewrite Hn. set (s1 := set_queue (head q) s).
  destruct (intr_serve_ok s1 d i b) as (b'&d'&Hs&Ht); [done..|]. erewrite bind_run; [|exact Hs].
  erewrite bind_run; [|done]. cbn beta. set (s2 := wakeup i _).
  assert (Hq2 : queue_is s2 q) by done. assert (Hb2 : i_bufs s2 = <[i := b']> (i_bufs s)) by done.
  assert (Hph2 : ph (i_dev s2) = Ready ∨ ph (i_dev s2) = Failed).
  { destruct Ht as [(_&_&_&?&_)|[(_&_&_&?&_)|(_&_&?&_)]]; tauto. }
  assert (Hout : outcome (ph (i_dev s) = Failed) (sectors d) (sectors (i_dev s2)) b b').
  { unfold outcome. destruct Ht as [(?&?&?&_&?)|[(?&?&?&_&?)|(?&?&_&?)]]; [left|right; left|right; right]; done. }
  destruct q as [|j q]; cbn [head].
  - exists s2, b'. by split_and!.
  - destruct (Hr j) as (bj&Hbj&Hokj); [left|]. apply not_elem_of_cons in Hi as [Hij _].
    destruct (idestart_ok s2 j bj) as (d3&Hst&Hph3&Hsec3); [by rewrite Hb2, list_lookup_insert_ne|done|done|].
    change (idequeue s2) with (Some j). cbn beta iota. rewrite Hst. exists (set_dev d3 s2), b'. split_and!; try done.
    + exists bj. split; [|done]. cbn. by rewrite list_lookup_insert_ne.
    + cbn [i_dev set_dev]. by rewrite Hsec3.
Qed.

(** ** Processes, interrupts and the rest of the kernel *)

Inductive ithread :=
| I_idle
| I_run (i : nat)                       (* in iderw, about to test the loop *)
| I_sleep (i : nat).                    (* asleep in it *)
Record isys := Isys {
  i_st : ist;
  i_thr : gmap Z ithread;                (* by pid *)
  submitted : list nat;                  (* the requests, in order *)
  served : list nat;
}.
Definition uses (t : option ithread) (i : nat) : Prop := t = Some (I_run i) ∨ t = Some (I_sleep i).
Definition wake (ws : list nat) (t : ithread) : ithread :=
  match t with I_sleep i => if bool_decide (i ∈ ws) then I_run i else t | _ => t end.
(** The state of the driver when the disk interrupts. *)
Definition at_interrupt (d : D) (s : ist) : ist := Ist (i_bufs s) (qnext s) (idequeue s) (havedisk1 s) d (i_io s) [].

Inductive istep : isys → isys → Prop :=
| IS_call y pid i b s' :
    i_thr y !! pid = Some I_idle → i_bufs (i_st y) !! i = Some b → request_ok b →
    iderw_submit pid i (i_st y) = Ok tt s' →
    istep y (Isys s' (<[pid := I_run i]> (i_thr y)) (submitted y ++ [i]) (served y))
| IS_return y pid i :
    i_thr y !! pid = Some (I_run i) → iderw_done i (i_st y) = Ok true (i_st y) →
    istep y (Isys (i_st y) (<[pid := I_idle]> (i_thr y)) (submitted y) (served y))
| IS_sleep y pid i :
    i_thr y !! pid = Some (I_run i) → iderw_done i (i_st y) = Ok false (i_st y) →
    istep y (Isys (i_st y) (<[pid := I_sleep i]> (i_thr y)) (submitted y) (served y))
| IS_intr y d s' :
    completes (i_dev (i_st y)) d → ideintr (at_interrupt d (i_st y)) = Ok tt s' →
    istep y (Isys s' (wake (wakes s') <$> i_thr y) (submitted y) (served y ++ wakes s'))
| IS_client y i f :                      (* other code changes a buffer that no request is for *)
    (∀ pid, ¬ uses (i_thr y !! pid) i) →
    istep y (Isys (set_bufs (alter f i (i_bufs (i_st y))) (i_st y)) (i_thr y) (submitted y) (served y)).

Definition init_isys (y : isys) : Prop :=
  idequeue (i_st y) = None ∧ ph (i_dev (i_st y)) = Ready ∧ submitted y = [] ∧ served y = [] ∧
  ∀ pid t, i_thr y !! pid = Some t → t = I_idle.

Record ide_inv (y : isys) (q : list nat) : Prop := {
  iv_queue : queue_is (i_st y) q;
  iv_nodup : NoDup q;
  iv_dev : dev_serves (i_st y) q;
  iv_req i : i ∈ q → ∃ b pid, i_bufs (i_st y) !! i = Some b ∧ done b = false ∧ request_ok b ∧ uses (i_thr y !! pid) i;
  iv_lock pid i : uses (i_thr y !! pid) i → ∃ b, i_bufs (i_st y) !! i = Some b ∧ holdingsleep pid (lock b) = true;
  iv_sleep pid i : i_thr y !! pid = Some (I_sleep i) → i ∈ q;
  iv_run pid i : i_thr y !! pid = Some (I_run i) → i ∈ q ∨ ∃ b, i_bufs (i_st y) !! i = Some b ∧ done b = true;
  iv_hist : submitted y = served y ++ q;
}.
Lemma init_inv y : init_isys y → ide_inv y [].
Proof.
  intros (H1&H2&H3&H4&H5). assert (Hu : ∀ pid i, ¬ uses (i_thr y !! pid) i). { intros pid i [H|H]; by apply H5 in H. }
  split; try done.
  - constructor.
  - by left.
  - intros i Hi. by apply not_elem_of_nil in Hi.
  - intros pid i H. by apply Hu in H.
  - intros pid i H. by apply H5 in H.
  - intros pid i H. by apply H5 in H.
  - by rewrite H3, H4.
Qed.
Lemma in_range y q j : ide_inv y q → j ∈ q → (j < length (i_bufs (i_st y)))%nat.
Proof. intros I Hj. destruct (iv_req _ _ I j Hj) as (b&_&Hb&_). by apply lookup_lt_Some in Hb. Qed.
(** A buffer is used by one process at a time: the one that has locked it. *)
Lemma uses_inj y q pid pid' i : ide_inv y q → uses (i_thr y !! pid) i → uses (i_thr y !! pid') i → pid = pid'.
Proof.
  intros I H1 H2. destruct (iv_lock _ _ I _ _ H1) as (b&Hb&Hl1). destruct (iv_lock _ _ I _ _ H2) as (b'&Hb'&Hl2).
  simplify_eq. unfold holdingsleep in *. rewrite !andb_true_iff, !Z.eqb_eq in *. destruct Hl1, Hl2. congruence.
Qed.

Lemma submit_lock me i s b s' :
  i_bufs s !! i = Some b → iderw_submit me i s = Ok tt s' → holdingsleep me (lock b) = true.
Proof.
  intros Hb. unfold Ide.iderw_submit. erewrite bind_run; [|unfold buf_of; by rewrite Hb].
  erewrite bind_run; [|done]. by destruct (holdingsleep me (lock b)).
Qed.
Lemma call_inv y q pid i b s' :
  ide_inv y q → i_thr y !! pid = Some I_idle → i_bufs (i_st y) !! i = Some b → request_ok b →
  iderw_submit pid i (i_st y) = Ok tt s' →
  ide_inv (Isys s' (<[pid := I_run i]> (i_thr y)) (submitted y ++ [i]) (served y)) (q ++ [i]).
Proof.
  intros I Hp Hb Hok Hrun. pose proof (submit_lock _ _ _ _ _ Hb Hrun) as Hlk.
  assert (Hfree : ∀ pid', ¬ uses (i_thr y !! pid') i).
  { intros pid' Hu. destruct (iv_lock _ _ I _ _ Hu) as (b'&Hb'&Hl'). simplify_eq.
    unfold holdingsleep in *. rewrite !andb_true_iff, !Z.eqb_eq in *. destruct Hlk as [_ Hlk], Hl' as [_ Hl'].
    rewrite Hlk in Hl'. subst pid'. rewrite Hp in Hu. by destruct Hu. }
  assert (Hiq : i ∉ q). { intros Hq. destruct (iv_req _ _ I i Hq) as (?&pid'&_&_&_&Hu). by eapply Hfree. }
  destruct (submit_ok (i_st y) q pid i b s') as (_&Hnd&Hq&Hbs&_&Hdev); try done; try apply I.
  { intros j. by apply in_range. }
  assert (Huse : ∀ pid' j, uses (<[pid := I_run i]> (i_thr y) !! pid') j → (pid' = pid ∧ j = i) ∨ uses (i_thr y !! pid') j).
  { intros pid' j. destruct (decide (pid' = pid)) as [->|]; [|rewrite lookup_insert_ne by done; by right].
    rewrite lookup_insert_eq. intros [[= ->]|[=]]. by left. }
  split; cbn [i_st i_thr submitted served]; try done.
  - apply NoDup_app. split_and!; [apply I| |by apply NoDup_singleton]. intros j Hj ->%list_elem_of_singleton. done.
  - intros j [Hj| ->%list_elem_of_singleton]%elem_of_app.
    + destruct (iv_req _ _ I j Hj) as (bj&pj&?&?&?&Hu). exists bj, pj. rewrite Hbs. split_and!; try done.
      rewrite lookup_insert_ne; [done|]. intros ->. rewrite Hp in Hu. by destruct Hu.
    + exists b, pid. rewrite Hbs. split_and!; try done. rewrite lookup_insert_eq. by left.
  - intros pid' j [[-> ->]|Hu]%Huse; rewrite Hbs; [by exists b|]. by eapply iv_lock.
  - intros pid' j Hs. apply elem_of_app. destruct (decide (pid' = pid)) as [->|]; [by rewrite lookup_insert_eq in Hs|].
    rewrite lookup_insert_ne in Hs by done. left. by eapply iv_sleep.
  - intros pid' j Hs. rewrite Hbs. destruct (decide (pid' = pid)) as [->|].
    + rewrite lookup_insert_eq in Hs. injection Hs as ->. left. set_solver.
    + rewrite lookup_insert_ne in Hs by done. destruct (iv_run _ _ I _ _ Hs) as [?|?]; [left; set_solver|by right].
  - by rewrite (iv_hist _ _ I), app_assoc.
Qed.

Lemma thread_inv y q pid i t :
  ide_inv y q → i_thr y !! pid = Some (I_run i) →
  (t = I_idle ∧ iderw_done i (i_st y) = Ok true (i_st y) ∨ t = I_sleep i ∧ iderw_done i (i_st y) = Ok false (i_st y)) →
  ide_inv (Isys (i_st y) (<[pid := t]> (i_thr y)) (submitted y) (served y)) q.
Proof.
  intros I Hp Ht. destruct (iv_lock _ _ I pid i) as (b&Hb&Hlk); [by left|].
  assert (Hdone : iderw_done i (i_st y) = Ok (done b) (i_st y)).
  { unfold iderw_done. erewrite bind_run; [|unfold buf_of; by rewrite Hb]. done. }
  assert (Huse : ∀ pid' j, uses (<[pid := t]> (i_thr y) !! pid') j → uses (i_thr y !! pid') j).
  { intros pid' j. destruct (decide (pid' = pid)) as [->|]; [|by rewrite lookup_insert_ne by done].
    rewrite lookup_insert_eq, Hp. destruct Ht as [[-> _]|[-> _]]; intros [[=]|[= ->]]. by left. }
  split; cbn [i_st i_thr submitted served]; try apply I.
  - intros j Hj. destruct (iv_req _ _ I j Hj) as (bj&pj&Hbj&Hdj&?&Hu). exists bj, pj. split_and!; try done.
    destruct (decide (pj = pid)) as [->|]; [|by rewrite lookup_insert_ne by done]. rewrite lookup_insert_eq.
    rewrite Hp in Hu. assert (j = i) as -> by (destruct Hu as [[= ->]|[=]]; done). simplify_eq. rewrite Hdone, Hdj in Ht.
    destruct Ht as [[_ [=]]|[-> _]]. by right.
  - intros pid' j Hu%Huse. by eapply iv_lock.
  - intros pid' j Hs. destruct (decide (pid' = pid)) as [->|]; [|rewrite lookup_insert_ne in Hs by done; by eapply iv_sleep].
    rewrite lookup_insert_eq in Hs. destruct Ht as [[-> _]|[-> Hd]]; simplify_eq. rewrite Hdone in Hd.
    destruct (iv_run _ _ I _ _ Hp) as [?|(b'&?&?)]; [done|]. simplify_eq. congruence.
  - intros pid' j Hs. destruct (decide (pid' = pid)) as [->|]; [|rewrite lookup_insert_ne in Hs by done; by eapply iv_run].
    rewrite lookup_insert_eq in Hs. destruct Ht as [[-> _]|[-> _]]; done.
Qed.

Lemma client_inv y q i f :
  ide_inv y q → (∀ pid, ¬ uses (i_thr y !! pid) i) →
  ide_inv (Isys (set_bufs (alter f i (i_bufs (i_st y))) (i_st y)) (i_thr y) (submitted y) (served y)) q.
Proof.
  intros I Hfree.
  assert (Hsame : ∀ j pid, uses (i_thr y !! pid) j → alter f i (i_bufs (i_st y)) !! j = i_bufs (i_st y) !! j).
  { intros j pid Hu. apply list_lookup_alter_ne. intros ->. by eapply Hfree. }
  split; cbn [i_st i_thr submitted served set_bufs i_bufs]; try apply I.
  - pose proof (iv_dev _ _ I) as Hd. unfold dev_serves in *. cbn. destruct q as [|j q]; [done|].
    destruct Hd as (b&Hb&?). exists b. split; [|done]. destruct (iv_req _ _ I j) as (?&pid&_&_&_&Hu); [left|]. by rewrite (Hsame _ pid).
  - intros j Hj. destruct (iv_req _ _ I j Hj) as (b&pid&?&?&?&Hu). exists b, pid. by rewrite (Hsame _ pid).
  - intros pid j Hu. rewrite (Hsame _ pid) by done. by eapply iv_lock.
  - intros pid j Hs. destruct (iv_run _ _ I _ _ Hs) as [?|(b&?&?)]; [by left|]. right. exists b. rewrite (Hsame _ pid); [done|by left].
Qed.

(** An interrupt serves the first request that was submitted and not yet
    served. *)
Lemma intr_inv y q d :
  ide_inv y q → completes (i_dev (i_st y)) d →
  ∃ i q' b b' s', q = i :: q' ∧ i_bufs (i_st y) !! i = Some b ∧ ideintr (at_interrupt d (i_st y)) = Ok tt s' ∧ wakes s' = [i] ∧
    i_bufs s' = <[i := b']> (i_bufs (i_st y)) ∧ outcome (ph d = Failed) (sectors (i_dev (i_st y))) (sectors (i_dev s')) b b' ∧
    ide_inv (Isys s' (wake [i] <$> i_thr y) (submitted y) (served y ++ [i])) q'.
Proof.
  intros I Hc. pose proof (law_done _ _ _ _ L _ _ Hc) as Hrun. pose proof (iv_dev _ _ I) as Hdev.
  destruct q as [|i q]; cbn in Hdev; [by destruct Hdev as [Hd|Hd]; rewrite Hd in Hrun|].
  destruct Hdev as (b&Hb&Hph). pose proof (iv_nodup _ _ I) as [Hi Hnd]%NoDup_cons.
  destruct (intr_ok (at_interrupt d (i_st y)) (i_dev (i_st y)) q i b) as (s'&b'&Hsr&Hq&Hbs&Hw&Hds&Hout); try done; try apply I.
  { intros j Hj. destruct (iv_req _ _ I j) as (bj&_&?&_&?&_); [by right|]. eauto. }
  exists i, q, b, b', s'. split_and!; try done. cbn [at_interrupt i_bufs] in Hbs.
  assert (Hb' : ∃ x, b' = finish x ∧ lock x = lock b).
  { destruct Hout as [(_&_&->&_)|[(_&_&->&_)|(_&->&_)]]; eexists; split; done. }
  destruct Hb' as (x&->&Hx). pose proof (lookup_lt_Some _ _ _ Hb) as Hlt.
  assert (Hthr : ∀ pid j, uses ((wake [i] <$> i_thr y) !! pid) j → uses (i_thr y !! pid) j).
  { intros pid j. rewrite lookup_fmap. destruct (i_thr y !! pid) as [[|k|k]|]; cbn; try case_bool_decide; unfold uses; naive_solver. }
  split; cbn [i_st i_thr submitted served]; try done.
  - intros j Hj. assert (j ≠ i) by (intros ->; done). destruct (iv_req _ _ I j) as (bj&pj&?&?&?&Hu); [by right|].
    exists bj, pj. rewrite Hbs, list_lookup_insert_ne by done. split_and!; try done. rewrite lookup_fmap.
    destruct Hu as [-> | ->]; cbn; [by left|]. rewrite bool_decide_false by set_solver. by right.
  - intros pid j Hu%Hthr. destruct (iv_lock _ _ I _ _ Hu) as (bj&Hbj&Hl). rewrite Hbs. destruct (decide (j = i)) as [->|].
    + simplify_eq. eexists. split; [by apply list_lookup_insert_eq|]. cbn. by rewrite Hx.
    + exists bj. by rewrite list_lookup_insert_ne.
  - intros pid j Hs. rewrite lookup_fmap in Hs. destruct (i_thr y !! pid) as [[|k|k]|] eqn:E; cbn in Hs; try done.
    case_bool_decide as Hin; [done|]. simplify_eq. pose proof (iv_sleep _ _ I _ _ E). set_solver.
  - intros pid j Hs. assert (Hu : uses (i_thr y !! pid) j) by (apply Hthr; by left). rewrite Hbs.
    destruct (decide (j = i)) as [->|Hne]; [right; eexists; split; [by apply list_lookup_insert_eq|apply done_finish]|].
    rewrite list_lookup_insert_ne by done. destruct Hu as [Hu|Hu].
    + destruct (iv_run _ _ I _ _ Hu) as [?|?]; [left; set_solver|by right].
    + left. pose proof (iv_sleep _ _ I _ _ Hu). set_solver.
  - by rewrite (iv_hist _ _ I), <- app_assoc.
Qed.

Lemma ide_reachable y0 y : init_isys y0 → rtc istep y0 y → ∃ q, ide_inv y q.
Proof.
  intros Hi Hr. refine (rtc_invariant istep (λ y, ∃ q, ide_inv y q) _ _ _ _ Hr); [|exists []; by apply init_inv].
  clear -L. intros y y' [q I] Hs. destruct Hs as [y pid i b s' ? ? ? ?|y pid i ? ?|y pid i ? ?|y d s' Hc Hrun|y i f ?].
  - exists (q ++ [i]). by eapply call_inv.
  - exists q. eapply thread_inv; eauto.
  - exists q. eapply thread_inv; eauto.
  - destruct (intr_inv y q d I Hc) as (i&q'&b&b'&s2&_&_&Hrun'&Hw&_&_&I'). rewrite Hrun in Hrun'. injection Hrun' as ->.
    rewrite Hw. by exists q'.
  - exists q. by apply client_inv.
Qed.

(** ** The properties *)

(** The same request, made to the disk that the buffer cache is verified
    with. *)
Lemma outcome_iderw sec sec' bs i b b' me w :
  bs !! i = Some b → holdingsleep me (lock b) = true → done b = false → Bio.dev b = 1 → blockno b < FSSIZE →
  outcome False sec sec' b b' →
  match Bio.iderw i (Bst bs (Disk (sec 1) FSSIZE w) me) with
  | Ok _ t => bufs t = <[i := b']> bs ∧ ∀ n, blocks (the_disk t) n = sec' 1 n
  | Fail _ => False
  end.
Proof.
  intros Hb Hlk Hdn Hdev Hbn Hout. assert (Hdrv : drive b = 1) by (unfold drive; by rewrite Hdev).
  unfold Bio.iderw. erewrite bind_run; [|unfold buf_get; cbn; by rewrite Hb]. do 2 (erewrite bind_run; [|done]).
  cbn beta. cbn [b_me the_disk disksize blocks]. rewrite Hlk. cbn [negb]. fold (done b). rewrite Hdn, Hdev. cbn [Z.eqb Pos.eqb negb].
  destruct (Z.leb_spec FSSIZE (blockno b)); [lia|]. fold (dirty b).
  assert (Hfin : ∀ x, set_flags (flags (finish x)) x = finish x) by done.
  destruct Hout as [(_&Hd&->&Hs)|[(_&Hd&->&->)|[[] _]]]; rewrite Hd.
  - erewrite bind_run; [|done]. unfold buf_upd. cbn. rewrite Hb. rewrite <- finish_dirty, Hfin. cbn.
    split; [done|]. intros n. unfold upd. by rewrite Hs, Hdrv.
  - unfold buf_upd. cbn. rewrite Hb. cbn. rewrite <- finish_clean by done. by rewrite Hdrv.
Qed.
End driver.

Section properties.
Context {D : Type} `{!Ports D}.
Context (polls : nat) (sectors : D → Z → Z → list Z) (ph : D → phase) (completes : D → D → Prop).
Context (L : disk_laws polls sectors ph completes).
Abbreviation istep := (istep polls completes).

(** C6. Every interrupt of the disk serves the first of the requests that
    were made and not yet served: the interrupt handler returns, wakes the
    process that waits for it, and the buffer and the disk are then as the
    disk of memide.c makes them, which the buffer cache is verified with, in
    one step; this in every interleaving of processes, interrupts and other
    users of the buffers, with a disk that obeys [disk_laws] and does not
    fail. *)
Theorem ide_refines_memide y0 y d w :
  init_isys ph y0 → rtc istep y0 y → completes (i_dev (i_st y)) d → ph d ≠ Failed →
  ∃ i rest pid b s', submitted y = served y ++ i :: rest ∧ uses (i_thr y !! pid) i ∧ i_bufs (i_st y) !! i = Some b ∧
    ideintr polls (at_interrupt d (i_st y)) = Ok tt s' ∧ (wake (wakes s') <$> i_thr y) !! pid = Some (I_run i) ∧
    (Bio.dev b = 1 →
     match Bio.iderw i (Bst (i_bufs (i_st y)) (Disk (sectors (i_dev (i_st y)) 1) FSSIZE w) pid) with
     | Ok _ t => bufs t = i_bufs s' ∧ ∀ n, blocks (the_disk t) n = sectors (i_dev s') 1 n
     | Fail _ => False
     end).
Proof.
  intros Hi Hr Hc Hok. destruct (ide_reachable polls _ _ _ L _ _ Hi Hr) as [q I].
  destruct (intr_inv polls _ _ _ L _ _ _ I Hc) as (i&q'&b&b'&s'&->&Hb&Hrun&Hw&Hbs&Hout&_).
  destruct (iv_req _ _ _ I i) as (b0&pid&Hb0&Hdn&[Hbn _]&Hu); [left|]. simplify_eq.
  destruct (iv_lock _ _ _ I _ _ Hu) as (b0&Hb0&Hlk). simplify_eq.
  exists i, q', pid, b, s'. split_and!; try done; [apply I| |].
  - rewrite lookup_fmap, Hw. destruct Hu as [-> | ->]; cbn; [done|]. by rewrite bool_decide_true by set_solver.
  - intros Hdev. rewrite Hbs. apply (outcome_iderw _ _ _ _ b b'); try done; [lia|].
    destruct Hout as [(_&?&?&?)|[(_&?&?&?)|(?&_)]]; [left|right; left|done]; split_and!; auto.
Qed.

(** A process that sleeps in iderw is never forgotten: its request is among
    those made and not yet served, each of which is there once, and while there
    is one the disk is at work. *)
Theorem ide_no_lost_request y0 y pid i :
  init_isys ph y0 → rtc istep y0 y → i_thr y !! pid = Some (I_sleep i) →
  ∃ q, submitted y = served y ++ q ∧ i ∈ q ∧ NoDup q ∧ ∃ r, ph (i_dev (i_st y)) = Running r.
Proof.
  intros Hi Hr Hs. destruct (ide_reachable polls _ _ _ L _ _ Hi Hr) as [q I]. exists q.
  pose proof (iv_sleep _ _ _ I _ _ Hs) as Hq. split_and!; [apply I|done|apply I|].
  pose proof (iv_dev _ _ _ I) as Hd. destruct q as [|j q]; [by apply not_elem_of_nil in Hq|]. destruct Hd as (b&_&?). eauto.
Qed.

(** An error of the disk is not reported: when a command fails, the handler
    marks the buffer valid and clean all the same, with the data that it had
    and the disk unchanged, and [iderw] returns to its caller as after a
    success. *)
Theorem ide_error_ignored y0 y d :
  init_isys ph y0 → rtc istep y0 y → completes (i_dev (i_st y)) d → ph d = Failed →
  ∃ i b s', i_bufs (i_st y) !! i = Some b ∧ ideintr polls (at_interrupt d (i_st y)) = Ok tt s' ∧
    i_bufs s' = <[i := finish b]> (i_bufs (i_st y)) ∧ data (finish b) = data b ∧
    sectors (i_dev s') = sectors (i_dev (i_st y)) ∧ iderw_done i s' = Ok true s'.
Proof.
  intros Hi Hr Hc Hf. destruct (ide_reachable polls _ _ _ L _ _ Hi Hr) as [q I].
  destruct (intr_inv polls _ _ _ L _ _ _ I Hc) as (i&q'&b&b'&s'&->&Hb&Hrun&Hw&Hbs&Hout&_).
  destruct Hout as [(Hn&_)|[(Hn&_)|(_&->&Hs)]]; [by destruct Hn..|]. exists i, b, s'. split_and!; try done.
  unfold iderw_done. erewrite bind_run; cycle 1.
  { unfold buf_of. rewrite Hbs, list_lookup_insert_eq by (by eapply lookup_lt_Some). done. }
  by rewrite <- (done_finish b).
Qed.
End properties.

(** ** A disk *)

(** A controller with its registers, whose commands succeed or fail. *)
Record sdev := Sdev {
  sd_sect : Z → Z → list Z;
  sd_b0 : Z; sd_b1 : Z; sd_b2 : Z; sd_hd : Z;
  sd_wr : bool;                          (* has a write command, waits for the data *)
  sd_ph : phase;
}.
Definition sd_drv (d : sdev) : Z := sd_hd d / 16 mod 2.
Definition sd_lba (d : sdev) : Z := sd_b0 d + 256 * sd_b1 d + 65536 * sd_b2 d + 16777216 * (sd_hd d mod 16).
Definition sd_status (p : phase) : Z := match p with Ready => 64 | DataReady _ _ => 72 | Running _ => 128 | Failed => 65 end.
Definition sd_set_ph (p : phase) (d : sdev) : sdev := Sdev (sd_sect d) (sd_b0 d) (sd_b1 d) (sd_b2 d) (sd_hd d) false p.
#[local] Instance sdev_ports : Ports sdev := {|
  port_in p d := (if p =? 503 then sd_status (sd_ph d) else 0, d);
  port_out p v d :=
    if p =? 499 then Sdev (sd_sect d) v (sd_b1 d) (sd_b2 d) (sd_hd d) (sd_wr d) (sd_ph d)
    else if p =? 500 then Sdev (sd_sect d) (sd_b0 d) v (sd_b2 d) (sd_hd d) (sd_wr d) (sd_ph d)
    else if p =? 501 then Sdev (sd_sect d) (sd_b0 d) (sd_b1 d) v (sd_hd d) (sd_wr d) (sd_ph d)
    else if p =? 502 then Sdev (sd_sect d) (sd_b0 d) (sd_b1 d) (sd_b2 d) v (sd_wr d) (sd_ph d)
    else if p =? 503 then
      if v =? IDE_CMD_READ then sd_set_ph (Running (RdReq (sd_drv d) (sd_lba d))) d
      else if v =? IDE_CMD_WRITE then Sdev (sd_sect d) (sd_b0 d) (sd_b1 d) (sd_b2 d) (sd_hd d) true (sd_ph d)
      else d
    else d;
  port_ins _ _ d := match sd_ph d with DataReady drv lba => (sd_sect d drv lba, sd_set_ph Ready d) | _ => ([], d) end;
  port_outs _ bs d := if sd_wr d then sd_set_ph (Running (WrReq (sd_drv d) (sd_lba d) bs)) d else d;
|}.
Definition sd_write (drv lba : Z) (bs : list Z) (d : sdev) : sdev :=
  Sdev (λ v n, if (v =? drv) && (n =? lba) then bs else sd_sect d v n) (sd_b0 d) (sd_b1 d) (sd_b2 d) (sd_hd d) false Ready.
Definition sd_end (d : sdev) : sdev :=
  match sd_ph d with
  | Running (RdReq drv lba) => sd_set_ph (DataReady drv lba) d
  | Running (WrReq drv lba bs) => sd_write drv lba bs d
  | _ => d
  end.
Definition sd_completes (d d' : sdev) : Prop :=
  (∃ r, sd_ph d = Running r) ∧ (d' = sd_end d ∨ d' = sd_set_ph Failed d).

Lemma sd_hd_drv drv : 0 ≤ drv ≤ 1 → (224 + 16 * drv) / 16 mod 2 = drv ∧ (224 + 16 * drv) mod 16 = 0.
Proof. intros. assert (drv = 0 ∨ drv = 1) as [-> | ->] by lia; done. Qed.
Lemma sdev_laws : disk_laws 1 sd_sect sd_ph sd_completes.
Proof.
  split.
  - intros d Hr. exists (sd_status (sd_ph d)), d. split_and!; try done.
    + unfold idewait_loop, mbind, M_bind, inb. cbn. destruct (sd_ph d) as [|r| |] eqn:E; try done. by destruct (Hr r).
    + by destruct (sd_ph d).
  - intros d drv b0 b1 Hp Hd H0 H1 d'. destruct (sd_hd_drv drv Hd) as [E1 E2]. split; [|done].
    subst d'. unfold issue. cbn -[Z.mul Z.add Z.div Z.modulo]. unfold sd_drv, sd_lba. cbn -[Z.mul Z.add Z.div Z.modulo]. rewrite E1, E2.
    do 2 f_equal. lia.
  - intros d drv b0 b1 bs Hp Hd H0 H1 Hlen d'. destruct (sd_hd_drv drv Hd) as [E1 E2]. split; [|done].
    subst d'. unfold issue. cbn -[Z.mul Z.add Z.div Z.modulo]. unfold sd_drv, sd_lba. cbn -[Z.mul Z.add Z.div Z.modulo]. rewrite E1, E2.
    do 2 f_equal. lia.
  - intros d drv lba Hp. cbn. rewrite Hp. by eexists.
  - intros d d' [[r Hr] [-> | ->]]; rewrite Hr; unfold sd_end; rewrite ?Hr; destruct r; cbn; tauto.
Qed.

(** A process reads block 7 of disk 1, where there are 512 nines. *)
Definition demo_sdev : sdev := Sdev (λ _ n, if n =? 7 then replicate 512 9 else replicate 512 0) 0 0 0 0 false Ready.
Definition demo_buf : buf := Buf 0 1 7 (SleepLock 1 3) 1 0 0 (replicate 512 1).
Definition demo_i0 : ist sdev := Ist [demo_buf] (λ _, None) None true demo_sdev (Ioapic 0 (λ _, 0)) [].
Definition demo_i1 : ist sdev := match iderw_submit 1 3 0 demo_i0 with Ok _ s => s | Fail _ => demo_i0 end.
Definition demo_y0 : isys := Isys demo_i0 {[3 := I_idle]} [] [].

Lemma demo_ide_init : init_isys sd_ph demo_y0.
Proof. repeat split. cbn. intros pid t Ht. apply lookup_singleton_Some in Ht as [_ <-]. done. Qed.
Definition demo_y1 : isys := Isys demo_i1 (<[3 := I_run 0]> (i_thr demo_y0)) [0%nat] [].
Definition demo_y2 : isys := Isys demo_i1 (<[3 := I_sleep 0]> (i_thr demo_y1)) [0%nat] [].
Lemma demo_ide_run : rtc (istep 1 sd_completes) demo_y0 demo_y2.
Proof.
  apply (rtc_l _ _ demo_y1).
  - apply (IS_call 1 sd_completes demo_y0 3 0%nat demo_buf demo_i1); [by vm_compute|done|done|by vm_compute].
  - apply rtc_once, (IS_sleep 1 sd_completes demo_y1 3 0%nat); by vm_compute.
Qed.
Lemma ide_refines_memide_witness :
  ∃ i rest pid b s', submitted demo_y2 = served demo_y2 ++ i :: rest ∧ uses (i_thr demo_y2 !! pid) i ∧ i_bufs (i_st demo_y2) !! i = Some b ∧
    ideintr 1 (at_interrupt (sd_end (i_dev demo_i1)) (i_st demo_y2)) = Ok tt s' ∧ (wake (wakes s') <$> i_thr demo_y2) !! pid = Some (I_run i) ∧
    (Bio.dev b = 1 →
     match Bio.iderw i (Bst (i_bufs (i_st demo_y2)) (Disk (sd_sect (i_dev (i_st demo_y2)) 1) FSSIZE []) pid) with
     | Ok _ t => bufs t = i_bufs s' ∧ ∀ n, blocks (the_disk t) n = sd_sect (i_dev s') 1 n
     | Fail _ => False
     end).
Proof.
  apply (ide_refines_memide 1 sd_sect sd_ph sd_completes sdev_laws demo_y0 demo_y2 (sd_end (i_dev demo_i1)) [] demo_ide_init demo_ide_run).
  - split; [by eexists|by left].
  - done.
Defined.
Lemma ide_no_lost_request_witness : ∃ q, [0%nat] = [] ++ q ∧ 0%nat ∈ q ∧ NoDup q ∧ ∃ r, sd_ph (i_dev demo_i1) = Running r.
Proof. apply (ide_no_lost_request 1 sd_sect sd_ph sd_completes sdev_laws demo_y0 demo_y2 3 0 demo_ide_init demo_ide_run). by vm_compute. Defined.
Lemma ide_error_ignored_witness :
  ∃ i b s', i_bufs demo_i1 !! i = Some b ∧ ideintr 1 (at_interrupt (sd_set_ph Failed (i_dev demo_i1)) demo_i1) = Ok tt s' ∧
    i_bufs s' = <[i := finish b]> (i_bufs demo_i1) ∧ data (finish b) = data b ∧
    sd_sect (i_dev s') = sd_sect (i_dev demo_i1) ∧ iderw_done i s' = Ok true s'.
Proof.
  apply (ide_error_ignored 1 sd_sect sd_ph sd_completes sdev_laws demo_y0 demo_y2 (sd_set_ph Failed (i_dev demo_i1)) demo_ide_init demo_ide_run).
  - split; [by eexists|by right].
  - done.
Defined.
