(* ===== verification/Boot.v ===== *)
(** * The boot loader: [bootmain.c], with [elf.h]

    The loader reads the kernel from the disk with the processor waiting for
    each sector.  Its state is the memory and the disk behind its ports.
    [boot_laws] is what it relies on of the disk. *)

From S2P Require Import Prelude CString Ports IdeThms.

Definition SECTSIZE : Z := 512.
Definition ELF_MAGIC : Z := 1179403647.

(** [struct elfhdr] and [struct proghdr] in memory, the fields that are used. *)
Definition elf_magic (m : mem) (elf : Z) : Z := load32 m elf.
Definition elf_entry (m : mem) (elf : Z) : Z := load32 m (elf + 24).
Definition elf_phoff (m : mem) (elf : Z) : Z := load32 m (elf + 28).
Definition elf_phnum (m : mem) (elf : Z) : Z := m (elf + 44) + 256 * m (elf + 45).
Definition sizeof_proghdr : Z := 32.
Definition ph_off (m : mem) (ph : Z) : Z := load32 m (ph + 4).
Definition ph_paddr (m : mem) (ph : Z) : Z := load32 m (ph + 12).
Definition ph_filesz (m : mem) (ph : Z) : Z := load32 m (ph + 16).
Definition ph_memsz (m : mem) (ph : Z) : Z := load32 m (ph + 20).

Section boot.
Context {D : Type} `{!Ports D} (polls : nat).
Record boot := Boot { b_mem : mem; b_dev : D }.
Abbreviation BM := (M boot).
Definition on_dev {A} (k : M D A) : BM A := λ s,
  match k (b_dev s) with Ok a d => Ok a (Boot (b_mem s) d) | Fail f => Fail f end.
Definition on_mem (f : mem → mem) : BM unit := modify (λ s, Boot (f (b_mem s)) (b_dev s)).

Fixpoint waitdisk_loop (fuel : nat) : M D unit :=
  match fuel with
  | O => fail OutOfFuel
  | S f =>
      v ← inb 503;
      if Z.land v 192 =? 64 then mret tt else waitdisk_loop f
  end.
Definition waitdisk : BM unit := on_dev (waitdisk_loop polls).

Definition readsect (dst offset : Z) : BM unit :=
  waitdisk;;
  on_dev (outb 498 1);;
  on_dev (outb 499 offset);;
  on_dev (outb 500 (Z.shiftr offset 8));;
  on_dev (outb 501 (Z.shiftr offset 16));;
  on_dev (outb 502 (Z.lor (Z.shiftr offset 24) 224));;
  on_dev (outb 503 32);;
  waitdisk;;
  l ← on_dev (insl 496 (Z.to_nat (SECTSIZE / 4)));
  on_mem (λ m, store m dst l).

Fixpoint readseg_loop (fuel : nat) (pa epa offset : Z) : BM unit :=
  match fuel with
  | O => fail OutOfFuel
  | S f =>
      if pa <? epa then
        readsect pa offset;;
        readseg_loop f (pa +u SECTSIZE) epa (offset +u 1)
      else mret tt
  end.
(** One iteration for each sector, and the last test. *)
Definition readseg (pa count offset : Z) : BM unit :=
  let epa := pa +u count in
  let pa := pa -u (offset mod SECTSIZE) in
  let offset := offset / SECTSIZE +u 1 in
  readseg_loop (S (S (Z.to_nat ((epa - pa) / SECTSIZE)))) pa epa offset.

Definition load_segment (ph : Z) : BM unit :=
  m ← gets b_mem;
  let pa := ph_paddr m ph in
  readseg pa (ph_filesz m ph) (ph_off m ph);;
  m ← gets b_mem;
  when (ph_filesz m ph <? ph_memsz m ph)
    (on_mem (λ m, stosb m (pa +u ph_filesz m ph) 0 (Z.to_nat (ph_memsz m ph - ph_filesz m ph)))).
Fixpoint load_segments (n : nat) (ph : Z) : BM unit :=
  match n with
  | O => mret tt
  | S n' => load_segment ph;; load_segments n' (ph +u sizeof_proghdr)
  end.
(** The address that is jumped to, or [None] when the loader returns. *)
Definition bootmain : BM (option Z) :=
  let elf := 65536 in
  readseg elf 4096 0;;
  m ← gets b_mem;
  if negb (elf_magic m elf =? ELF_MAGIC) then mret None
  else
    load_segments (Z.to_nat (elf_phnum m elf)) (elf +u elf_phoff m elf);;
    m ← gets b_mem;
    mret (Some (elf_entry m elf)).

(** ** What the loader relies on *)

Definition boot_issue (b0 b1 b2 hd : Z) (d : D) : D :=
  port_out 503 32 (port_out 502 hd (port_out 501 b2 (port_out 500 b1 (port_out 499 b0 (port_out 498 1 d))))).
Record boot_laws (sectors : D → Z → Z → list Z) (ph : D → phase) : Prop := {
  blaw_ready d : ph d = Ready → ∃ d', waitdisk_loop polls d = Ok tt d' ∧ ph d' = Ready ∧ sectors d' = sectors d;
  blaw_read d b0 b1 b2 b3 : ph d = Ready → is_u8 b0 → is_u8 b1 → is_u8 b2 → 0 ≤ b3 < 16 →
    let d' := boot_issue b0 b1 b2 (224 + b3) d in
    ph d' = Running (RdReq 0 (b0 + 256 * b1 + 65536 * b2 + 16777216 * b3)) ∧ sectors d' = sectors d;
  blaw_wait d drv lba : ph d = Running (RdReq drv lba) →
    ∃ d', waitdisk_loop polls d = Ok tt d' ∧ ph d' = DataReady drv lba ∧ sectors d' = sectors d;
  blaw_ins d drv lba : ph d = DataReady drv lba →
    ∃ d', port_ins 496 512 d = (sectors d drv lba, d') ∧ ph d' = Ready ∧ sectors d' = sectors d;
  blaw_len d drv lba : length (sectors d drv lba) = 512%nat;
}.

Context (sectors : D → Z → Z → list Z) (ph : D → phase) (L : boot_laws sectors ph).
(** The kernel starts at sector 1 of the disk. *)
Definition image (d : D) (i : Z) : Z := nth (Z.to_nat (i mod 512)) (sectors d 0 (i / 512 + 1)) 0.

Lemma readsect_ok s dst offset :
  ph (b_dev s) = Ready → 0 ≤ offset < 268435456 →
  ∃ d', readsect dst offset s = Ok tt (Boot (store (b_mem s) dst (sectors (b_dev s) 0 offset)) d') ∧ ph d' = Ready ∧
    sectors d' = sectors (b_dev s).
Proof.
  intros Hp Ho. destruct (blaw_ready _ _ L _ Hp) as (d1&Hw1&P1&S1).
  destruct (blaw_read _ _ L d1 (u8 offset) (u8 (Z.shiftr offset 8)) (u8 (Z.shiftr offset 16)) (offset / 16777216))
    as [P2 S2]; try done; try apply u8_range; [zdm|].
  assert (Hhd : u8 (Z.lor (Z.shiftr offset 24) 224) = 224 + offset / 16777216).
  { rewrite Z.shiftr_div_pow2 by lia. change (2 ^ 24) with 16777216. assert (Hq : 0 ≤ offset / 16777216 < 16) by zdm.
    revert Hq. generalize (offset / 16777216). intros q Hq. apply Z.eqb_eq.
    revert q Hq. apply (range_check (λ q, u8 (Z.lor q 224) =? 224 + q) 16). by vm_compute. }
  assert (Hlba : u8 offset + 256 * u8 (Z.shiftr offset 8) + 65536 * u8 (Z.shiftr offset 16) + 16777216 * (offset / 16777216) = offset).
  { rewrite !Z.shiftr_div_pow2 by lia. change (2 ^ 8) with 256. change (2 ^ 16) with 65536. unfold u8. zdm. }
  rewrite Hlba in P2. destruct (blaw_wait _ _ L _ _ _ P2) as (d3&Hw3&P3&S3).
  destruct (blaw_ins _ _ L _ _ _ P3) as (d4&Hi&P4&S4). exists d4.
  unfold readsect, waitdisk. erewrite bind_run; [|unfold on_dev; by rewrite Hw1].
  do 6 (erewrite bind_run; [|done]). cbn [b_dev b_mem]. change (u8 32) with 32. change (u8 1) with 1. rewrite Hhd.
  fold (boot_issue (u8 offset) (u8 (Z.shiftr offset 8)) (u8 (Z.shiftr offset 16)) (224 + offset / 16777216) d1).
  erewrite bind_run; [|unfold on_dev; cbn [b_dev]; by rewrite Hw3].
  erewrite bind_run; cycle 1.
  { unfold on_dev, insl. cbn [b_dev]. change (4 * Z.to_nat (SECTSIZE / 4))%nat with 512%nat. by rewrite Hi. }
  cbn [b_mem]. split; [|split; [done|congruence]]. unfold on_mem, modify. cbn [b_mem b_dev]. by rewrite S3, S2, S1.
Qed.

Lemma store_in (m : mem) a l x : a ≤ x < a + Z.of_nat (length l) → store m a l x = nth (Z.to_nat (x - a)) l 0.
Proof.
  revert m a. induction l as [|c l IH]; intros m a Hx; cbn [length] in Hx; [lia|]. cbn [store].
  destruct (decide (x = a)) as [->|Hne].
  - rewrite store_ne by lia. rewrite upd_eq. by rewrite Z.sub_diag.
  - rewrite IH by lia. replace (Z.to_nat (x - a)) with (S (Z.to_nat (x - (a + 1)))) by lia. done.
Qed.
Definition sector_byte (d : D) (sec i : Z) : Z := nth (Z.to_nat (i mod 512)) (sectors d 0 (sec + i / 512)) 0.
Lemma readseg_loop_ok n fuel pa epa offset s :
  ph (b_dev s) = Ready → 0 ≤ pa → pa + 512 * Z.of_nat n < 4294967296 → 1 ≤ offset → offset + Z.of_nat n < 268435456 →
  (n = O → epa ≤ pa) → (n ≠ O → pa + 512 * (Z.of_nat n - 1) < epa ≤ pa + 512 * Z.of_nat n) → (n < fuel)%nat →
  ∃ s', readseg_loop fuel pa epa offset s = Ok tt s' ∧ ph (b_dev s') = Ready ∧ sectors (b_dev s') = sectors (b_dev s) ∧
    ∀ x, b_mem s' x = if (pa <=? x) && (x <? pa + 512 * Z.of_nat n) then sector_byte (b_dev s) offset (x - pa) else b_mem s x.
Proof.
  revert fuel pa offset s. induction n as [|n IH]; intros [|fuel] pa offset s Hp Hpa Hpa2 Ho1 Ho2 H0 H1 Hf; try lia; cbn [readseg_loop].
  - destruct (Z.ltb_spec pa epa); [specialize (H0 eq_refl); lia|]. exists s. split_and!; try done. intros x. zcases.
  - destruct (Z.ltb_spec pa epa); [|lia]. destruct (readsect_ok s pa offset Hp ltac:(lia)) as (d'&Hr&P&S).
    erewrite bind_run; [|exact Hr]. unfold SECTSIZE. rewrite !u32_id by (unfold is_u32; lia).
    destruct (IH fuel (pa + 512) (offset + 1) (Boot (store (b_mem s) pa (sectors (b_dev s) 0 offset)) d')) as (s'&Hl&P'&S'&Hm); try done; try lia.
    exists s'. split_and!; try done; [by rewrite S'|]. intros x. rewrite Hm. cbn [b_mem b_dev]. unfold sector_byte. rewrite S.
    pose proof (blaw_len _ _ L (b_dev s) 0 offset) as Hlen.
    destruct (decide (pa ≤ x < pa + 512)) as [Hx|Hx].
    + destruct (Z.leb_spec (pa + 512) x); [lia|]. cbn [andb]. rewrite store_in by lia.
      rewrite (Z.mod_small (x - pa)), (Z.div_small (x - pa)), Z.add_0_r by lia. zcases.
    + rewrite store_ne by lia. destruct (Z.leb_spec (pa + 512) x).
      * replace (x - (pa + 512)) with (x - pa + (-1) * 512) by lia. rewrite Z_mod_plus_full, Z_div_plus_full by lia.
        replace (offset + 1 + ((x - pa) / 512 + -1)) with (offset + (x - pa) / 512) by lia. zcases.
      * zcases.
Qed.

(** The sectors that hold [count] bytes from [offset] on. *)
Definition seg_lo (pa offset : Z) : Z := pa - offset mod 512.
Definition seg_hi (pa count offset : Z) : Z := seg_lo pa offset + 512 * ((count + offset mod 512 + 511) / 512).
(** What [readseg] does to the memory: all of the sectors that hold the bytes
    are copied, so that the bytes of the image are where they belong. *)
Lemma readseg_ok pa count offset s :
  ph (b_dev s) = Ready → 0 ≤ count → 0 ≤ offset → offset + count < 100000000 → 512 ≤ pa → pa + count < 4294966784 →
  ∃ s', readseg pa count offset s = Ok tt s' ∧ ph (b_dev s') = Ready ∧ sectors (b_dev s') = sectors (b_dev s) ∧
    ∀ x, b_mem s' x = if (seg_lo pa offset <=? x) && (x <? seg_hi pa count offset) then image (b_dev s) (offset + (x - pa)) else b_mem s x.
Proof.
  intros Hp Hc Ho Ho2 Hpa Hpa2. unfold readseg, SECTSIZE. pose proof (Z.mod_pos_bound offset 512 ltac:(lia)) as Hm.
  rewrite !u32_id by (unfold is_u32; zdm). fold (seg_lo pa offset).
  set (n := (count + offset mod 512 + 511) / 512). assert (Hn : 0 ≤ n) by (apply Z.div_pos; lia).
  assert (Hnb : count + offset mod 512 ≤ 512 * n < count + offset mod 512 + 512) by (unfold n; zdm).
  destruct (readseg_loop_ok (Z.to_nat n) (S (S (Z.to_nat ((pa + count - seg_lo pa offset) / 512)))) (seg_lo pa offset) (pa + count) (offset / 512 + 1) s)
    as (s'&Hr&P&S&Hmem); try done; try (unfold seg_lo; zdm).
  exists s'. split_and!; try done. intros x. rewrite Hmem, Z2Nat.id by done. unfold seg_hi. fold n.
  unfold sector_byte, image. destruct (_ && _); [|done].
  replace (offset + (x - pa)) with (x - seg_lo pa offset + offset / 512 * 512) by (unfold seg_lo; zdm).
  rewrite Z_mod_plus_full, Z_div_plus_full by lia. f_equal. f_equal. lia.
Qed.

(** ** The segments of the kernel *)

Record segment := Segment { sg_pa : Z; sg_filesz : Z; sg_memsz : Z; sg_off : Z }.
Definition segment_at (m : mem) (p : Z) : segment := Segment (ph_paddr m p) (ph_filesz m p) (ph_memsz m p) (ph_off m p).
Fixpoint segments_at (m : mem) (p : Z) (n : nat) : list segment :=
  match n with
  | O => []
  | S n' => segment_at m p :: segments_at m (p + sizeof_proghdr) n'
  end.
(** The memory that loading a segment writes to. *)
Definition touches (g : segment) (x : Z) : Prop :=
  seg_lo (sg_pa g) (sg_off g) ≤ x < Z.max (seg_hi (sg_pa g) (sg_filesz g) (sg_off g)) (sg_pa g + sg_memsz g).
(** It lies above the page with the headers, at [65536], and within the
    address space. *)
Definition segment_ok (g : segment) : Prop :=
  0 ≤ sg_filesz g ≤ sg_memsz g ∧ 0 ≤ sg_off g ∧ sg_off g + sg_filesz g < 100000000 ∧
  69632 ≤ seg_lo (sg_pa g) (sg_off g) ∧ sg_pa g + sg_memsz g < 4294966784.
Definition loaded (d : D) (m : mem) (g : segment) : Prop :=
  (∀ x, sg_pa g ≤ x < sg_pa g + sg_filesz g → m x = image d (sg_off g + (x - sg_pa g))) ∧
  (∀ x, sg_pa g + sg_filesz g ≤ x < sg_pa g + sg_memsz g → m x = 0).
(** A later segment does not touch the memory of an earlier one. *)
Fixpoint in_order (l : list segment) : Prop :=
  match l with
  | [] => True
  | g :: l' => Forall (λ g', ∀ x, touches g' x → ¬ (sg_pa g ≤ x < sg_pa g + sg_memsz g)) l' ∧ in_order l'
  end.

Lemma segment_at_ext m m' p : 65536 ≤ p → p + 32 ≤ 69632 → (∀ x, 65536 ≤ x < 69632 → m' x = m x) → segment_at m' p = segment_at m p.
Proof.
  intros H1 H2 Hx. unfold segment_at, ph_paddr, ph_filesz, ph_memsz, ph_off.
  f_equal; apply load32_ext; intros y Hy; apply Hx; lia.
Qed.
Lemma load_one s p g :
  ph (b_dev s) = Ready → segment_at (b_mem s) p = g → segment_ok g → 65536 ≤ p → p + 32 ≤ 69632 →
  ∃ s', load_segment p s = Ok tt s' ∧
    ph (b_dev s') = Ready ∧ sectors (b_dev s') = sectors (b_dev s) ∧ loaded (b_dev s) (b_mem s') g ∧
    ∀ x, ¬ touches g x → b_mem s' x = b_mem s x.
Proof.
  intros Hp Hg Hok H1 H2. unfold load_segment. erewrite bind_run; [|done]. cbn beta zeta.
  assert (Hpa : ph_paddr (b_mem s) p = sg_pa g) by (by rewrite <- Hg). assert (Hfs : ph_filesz (b_mem s) p = sg_filesz g) by (by rewrite <- Hg).
  assert (Ho : ph_off (b_mem s) p = sg_off g) by (by rewrite <- Hg). rewrite Hpa, Hfs, Ho. destruct Hok as (K1&K2&K3&K4&K5).
  pose proof (Z.mod_pos_bound (sg_off g) 512 ltac:(lia)) as Hm. unfold seg_lo in K4.
  destruct (readseg_ok (sg_pa g) (sg_filesz g) (sg_off g) s) as (s1&Hr&P&S&Hmem); try done; try lia.
  erewrite bind_run; [|exact Hr]. erewrite bind_run; [|done]. cbn beta.
  assert (Hhi : sg_pa g + sg_filesz g ≤ seg_hi (sg_pa g) (sg_filesz g) (sg_off g)) by (unfold seg_hi, seg_lo; zdm).
  assert (Hsame : segment_at (b_mem s1) p = g).
  { rewrite <- Hg. apply segment_at_ext; [done..|]. intros x Hx. rewrite Hmem. unfold seg_lo. zcases. }
  assert (Hfs1 : ph_filesz (b_mem s1) p = sg_filesz g) by (by rewrite <- Hsame). assert (Hms1 : ph_memsz (b_mem s1) p = sg_memsz g) by (by rewrite <- Hsame).
  rewrite Hfs1, Hms1. unfold loaded, touches. unfold when.
  destruct (Z.ltb_spec (sg_filesz g) (sg_memsz g)).
  - eexists. split; [done|]. cbn [b_dev b_mem]. split; [done|]. split; [done|].
    rewrite Hfs1, Hms1. rewrite u32_id by (unfold is_u32; lia). setoid_rewrite stosb_spec. setoid_rewrite Hmem.
    rewrite Z2Nat.id by lia. unfold seg_lo in *. split; [split|]; intros x Hx; zcases.
  - exists s1. split; [done|]. split; [done|]. split; [done|]. setoid_rewrite Hmem. unfold seg_lo in *. split; [split|]; intros x Hx; zcases.
Qed.

Lemma load_segments_ok n p s l d :
  ph (b_dev s) = Ready → sectors (b_dev s) = sectors d → segments_at (b_mem s) p n = l → Forall segment_ok l → in_order l →
  65536 ≤ p → p + 32 * Z.of_nat n ≤ 69632 →
  ∃ s', load_segments n p s = Ok tt s' ∧ Forall (loaded d (b_mem s')) l ∧ ∀ x, Forall (λ g, ¬ touches g x) l → b_mem s' x = b_mem s x.
Proof.
  revert p s l. induction n as [|n IH]; intros p s l Hp Hs Hl Hok Hord H1 H2; cbn [segments_at] in Hl; subst l; [exists s; by repeat split|].
  apply Forall_cons in Hok as [Hg Hok]. destruct Hord as [Ho Hord]. set (g := segment_at (b_mem s) p) in *.
  destruct (load_one s p g) as (s1&Hrun&P&S&Hload&Hmem); try done; try lia.
  assert (Hpage : ∀ x, 65536 ≤ x < 69632 → b_mem s1 x = b_mem s x).
  { intros x Hx. apply Hmem. unfold touches. destruct Hg as (_&_&_&?&_). lia. }
  assert (Hsegs : ∀ k q, 65536 ≤ q → q + 32 * Z.of_nat k ≤ 69632 → segments_at (b_mem s1) q k = segments_at (b_mem s) q k).
  { intros k. induction k as [|k IHk]; intros q Hq Hq2; [done|]. cbn [segments_at]. unfold sizeof_proghdr.
    rewrite IHk by lia. by rewrite (segment_at_ext (b_mem s)) by (done || lia). }
  destruct (IH (p + 32) s1 (segments_at (b_mem s) (p + 32) n)) as (s'&Hr&Hall&Hrest); try done; try lia.
  { by rewrite S. }
  { apply Hsegs; lia. }
  exists s'. split; [|split].
  - cbn [load_segments]. erewrite bind_run; [|exact Hrun]. unfold sizeof_proghdr. rewrite u32_id by (unfold is_u32; lia). exact Hr.
  - constructor; [|done]. assert (Hd : ∀ x, sg_pa g ≤ x < sg_pa g + sg_memsz g → b_mem s' x = b_mem s1 x).
    { intros x Hx. apply Hrest. eapply Forall_impl; [exact Ho|]. cbn. intros g' Hg' Ht. by apply (Hg' x Ht). }
    destruct Hload as [L1 L2]. destruct Hg as (Hfs&_). assert (Hi : ∀ i, image (b_dev s) i = image d i) by (intros; unfold image; by rewrite Hs).
    split; intros x Hx; rewrite Hd by lia; [rewrite L1 by done; apply Hi|by apply L2].
  - intros x Hx. apply Forall_cons in Hx as [Hx1 Hx2]. rewrite Hrest by done. by apply Hmem.
Qed.
End boot.

(** C16. The boot loader: when the disk holds, from its second sector on, an
    executable whose program headers are in its first page, and whose segments
    lie above the loader's scratch page and do not run into one another in the
    order in which they are loaded, the loader ends at the entry point of the
    header, with every segment at its physical address: the bytes of the file
    and zeros after them. *)
Theorem bootmain_loads {D} `{!Ports D} polls (sectors : D → Z → Z → list Z) (ph : D → phase) (s : boot) :
  boot_laws polls sectors ph → ph (b_dev s) = Ready →
  let page : mem := λ x, image sectors (b_dev s) (x - 65536) in
  let segs := segments_at page (65536 + elf_phoff page 65536) (Z.to_nat (elf_phnum page 65536)) in
  elf_magic page 65536 = ELF_MAGIC → 0 ≤ elf_phoff page 65536 → 0 ≤ elf_phnum page 65536 →
  elf_phoff page 65536 + 32 * elf_phnum page 65536 ≤ 4096 → Forall segment_ok segs → in_order segs →
  wp (bootmain polls) (λ r s', r = Some (elf_entry page 65536) ∧ Forall (loaded sectors (b_dev s) (b_mem s')) segs) s.
Proof.
  intros L Hp page segs Hmagic Hoff0 Hnum0 Hoff Hok Hord. unfold bootmain. cbn zeta.
  destruct (readseg_ok polls sectors ph L 65536 4096 0 s) as (s1&Hr&P&S&Hmem); try done; try lia.
  assert (Hpage : ∀ x, 65536 ≤ x < 69632 → b_mem s1 x = page x).
  { intros x Hx. rewrite Hmem. unfold seg_hi, seg_lo, page. change (0 mod 512) with 0. change ((4096 + 0 + 511) / 512) with 8.
    replace (0 + (x - 65536)) with (x - 65536) by lia. zcases. }
  assert (H32 : ∀ a, 65536 ≤ a → a + 4 ≤ 69632 → load32 (b_mem s1) a = load32 page a).
  { intros a Ha Ha2. apply load32_ext. intros y Hy. apply Hpage. lia. }
  unfold wp. erewrite bind_run; [|exact Hr]. erewrite bind_run; [|done]. cbn beta.
  assert (elf_magic (b_mem s1) 65536 = elf_magic page 65536) as -> by (apply H32; lia).
  rewrite Hmagic. cbn [Z.eqb]. rewrite Z.eqb_refl. cbn [negb].
  assert (elf_phoff (b_mem s1) 65536 = elf_phoff page 65536) as -> by (apply H32; lia).
  assert (elf_phnum (b_mem s1) 65536 = elf_phnum page 65536) as -> by (unfold elf_phnum; by rewrite !Hpage by lia).
  rewrite u32_id by (unfold is_u32; lia).
  assert (Hsegs : ∀ k q, 65536 ≤ q → q + 32 * Z.of_nat k ≤ 69632 → segments_at (b_mem s1) q k = segments_at page q k).
  { intros k. induction k as [|k IHk]; intros q Hq Hq2; [done|]. cbn [segments_at]. unfold sizeof_proghdr.
    rewrite IHk by lia. by rewrite (segment_at_ext page) by (done || lia). }
  destruct (load_segments_ok polls sectors ph L (Z.to_nat (elf_phnum page 65536)) (65536 + elf_phoff page 65536) s1 segs (b_dev s))
    as (s2&Hl&Hall&Hrest); try done; try lia.
  { apply Hsegs; lia. }
  erewrite bind_run; [|exact Hl]. erewrite bind_run; [|done]. cbn. split; [|done]. f_equal. unfold elf_entry. rewrite <- H32 by lia.
  apply load32_ext. intros y Hy. apply Hrest. eapply Forall_impl; [exact Hok|]. cbn. unfold touches. intros g (_&_&_&?&_). lia.
Qed.

(** A disk for the loader, which has the data of a read at the second look. *)
Record bdev := Bdev { bd_b0 : Z; bd_b1 : Z; bd_b2 : Z; bd_hd : Z; bd_ph : phase }.
Definition bd_set_ph (p : phase) (d : bdev) : bdev := Bdev (bd_b0 d) (bd_b1 d) (bd_b2 d) (bd_hd d) p.
(** An executable with one segment of four bytes, loaded at [1048576]. *)
Definition demo_image (i : Z) : Z :=
  nth (Z.to_nat i) ([127; 69; 76; 70] ++ replicate 20 0 ++ [12; 0; 16; 0] ++ [52; 0; 0; 0] ++ replicate 12 0 ++ [1; 0] ++ replicate 6 0 ++
    [1; 0; 0; 0] ++ [0; 16; 0; 0] ++ replicate 4 0 ++ [0; 0; 16; 0] ++ [4; 0; 0; 0] ++ [8; 0; 0; 0] ++ replicate 8 0) (if i <? 4096 then 0 else i mod 7).
Definition bd_sectors (d : bdev) (drv n : Z) : list Z := (λ i, demo_image (512 * (n - 1) + Z.of_nat i)) <$> seq 0 512.
Arguments bd_sectors : simpl never.
#[local] Instance bdev_ports : Ports bdev := {|
  port_in p d :=
    match bd_ph d with
    | Running (RdReq drv lba) => (128, bd_set_ph (DataReady drv lba) d)
    | _ => (72, d)
    end;
  port_out p v d :=
    if p =? 499 then Bdev v (bd_b1 d) (bd_b2 d) (bd_hd d) (bd_ph d)
    else if p =? 500 then Bdev (bd_b0 d) v (bd_b2 d) (bd_hd d) (bd_ph d)
    else if p =? 501 then Bdev (bd_b0 d) (bd_b1 d) v (bd_hd d) (bd_ph d)
    else if p =? 502 then Bdev (bd_b0 d) (bd_b1 d) (bd_b2 d) v (bd_ph d)
    else if p =? 503 then
      bd_set_ph (Running (RdReq (bd_hd d / 16 mod 2) (bd_b0 d + 256 * bd_b1 d + 65536 * bd_b2 d + 16777216 * (bd_hd d mod 16)))) d
    else d;
  port_ins _ _ d := match bd_ph d with DataReady drv lba => (bd_sectors d drv lba, bd_set_ph Ready d) | _ => ([], d) end;
  port_outs _ _ d := d;
|}.
Lemma bdev_laws : boot_laws 2 bd_sectors bd_ph.
Proof.
  split.
  - intros d Hp. exists d. unfold waitdisk_loop, mbind, M_bind, inb. cbn. by rewrite Hp.
  - intros d b0 b1 b2 b3 Hp H0 H1 H2 H3 d'. split; [|done]. subst d'. unfold boot_issue. cbn -[Z.mul Z.add Z.div Z.modulo].
    replace ((224 + b3) / 16) with 14 by zdm. by replace ((224 + b3) mod 16) with b3 by zdm.
  - intros d drv lba Hp. eexists. unfold waitdisk_loop, mbind, M_bind, inb. cbn. by rewrite Hp.
  - intros d drv lba Hp. cbn. rewrite Hp. by eexists.
  - intros d drv lba. unfold bd_sectors. by rewrite length_fmap, length_seq.
Qed.
Definition demo_boot : boot := Boot (λ _, 7) (Bdev 0 0 0 0 Ready).
Abbreviation demo_page := ((λ x, image bd_sectors (b_dev demo_boot) (x - 65536)) : mem).
Lemma demo_segments :
  segments_at demo_page (65536 + elf_phoff demo_page 65536) (Z.to_nat (elf_phnum demo_page 65536)) = [Segment 1048576 4 8 4096].
Proof. by vm_compute. Qed.
Lemma bootmain_loads_witness :
  wp (bootmain 2) (λ r s', r = Some (elf_entry demo_page 65536) ∧
    Forall (loaded bd_sectors (b_dev demo_boot) (b_mem s'))
      (segments_at demo_page (65536 + elf_phoff demo_page 65536) (Z.to_nat (elf_phnum demo_page 65536)))) demo_boot.
Proof.
  apply (bootmain_loads 2 bd_sectors bd_ph demo_boot bdev_laws eq_refl).
  - by vm_compute.
  - by vm_compute.
  - by vm_compute.
  - by vm_compute.
  - rewrite demo_segments. apply Forall_singleton. repeat split; by vm_compute.
  - rewrite demo_segments. split; [apply Forall_nil_2|done].
Defined.
