(* ===== verification/Mkfs.v ===== *)
(** * The builder of the file system image: [mkfs.c]

    The image is a file of blocks, of which the program reads and writes whole
    ones; a program run is a function of the files that it is given, each with
    the parts of its contents that the calls of [read] return.  The program
    ends with [Panic] where an assertion fails or it calls [exit(1)].  On disk
    inodes are those of [Fs.v], with [load_dinode] and [store_dinode]. *)

From S2P Require Import Prelude Params CString Cprintf Sleeplock Blocks Log Fs.

Definition NINODES : Z := 200.
Definition nbitmap : Z := FSSIZE / (BSIZE * 8) + 1.
Definition ninodeblocks : Z := NINODES / IPB + 1.
Definition nlog : Z := LOGSIZE.
Definition nmeta : Z := 2 + nlog + ninodeblocks + nbitmap.
Definition nblocks : Z := FSSIZE - nmeta.

(** Conversion to the byte order of the disk: the number whose bytes, in the
    order of the machine, are those. *)
Definition xshort (x : Z) : Z := get16 (le16 x) 0.
Definition xint (x : Z) : Z := get32 (le32 x) 0.

Definition sb : superblock :=
  Superblock (xint FSSIZE) (xint nblocks) (xint NINODES) (xint nlog) (xint 2) (xint (2 + nlog)) (xint (2 + nlog + ninodeblocks)).
Definition sb_bytes (s : superblock) : list Z :=
  le32 (sb_size s) ++ le32 (Log.nblocks s) ++ le32 (ninodes s) ++ le32 (Log.nlog s) ++ le32 (logstart s) ++
  le32 (inodestart s) ++ le32 (bmapstart s).

Record mk := Mk {
  img : Z → list Z;
  img_len : Z;                (* in blocks *)
  freeinode : Z;
  freeblock : Z;
}.
Definition put_block (f : Z → list Z) (n : Z) (d : list Z) : Z → list Z := λ x, if x =? n then d else f x.
Abbreviation MK := (M mk).

Definition wsect (sec : Z) (buf : list Z) : MK unit :=
  modify (λ s, Mk (put_block (img s) sec buf) (Z.max (img_len s) (sec + 1)) (freeinode s) (freeblock s)).
(** Past the end of the image the read is short. *)
Definition rsect (sec : Z) : MK (list Z) := λ s,
  if img_len s <=? sec then Fail (Panic "read") else Ok (img s sec) s.

(** [freeblock++] and [freeinode++] *)
Definition next_block : MK Z := λ s, Ok (freeblock s) (Mk (img s) (img_len s) (freeinode s) (freeblock s +u 1)).
Definition next_inode : MK Z := λ s, Ok (freeinode s) (Mk (img s) (img_len s) (freeinode s +u 1) (freeblock s)).

(** A [struct dinode] of zeros. *)
Definition zero_dinode (inum : Z) : inode := Inode 1 inum 0 initsleeplock 0 0 0 0 0 0 (replicate 13 0).
Definition winode (inum : Z) (ip : inode) : MK unit :=
  let bn := IBLOCK inum sb in
  buf ← rsect bn;
  wsect bn (store_dinode buf (inum mod IPB * sizeof_dinode) ip).
Definition rinode (inum : Z) : MK inode :=
  let bn := IBLOCK inum sb in
  buf ← rsect bn;
  mret (load_dinode buf (inum mod IPB * sizeof_dinode) (zero_dinode inum)).

Definition ialloc (type : Z) : MK Z :=
  inum ← next_inode;
  let din := set_size (xint 0) (set_nlink (xshort 1) (set_type (xshort type) (zero_dinode inum))) in
  winode inum din;;
  mret inum.

Fixpoint balloc_loop (n : nat) (i : Z) (buf : list Z) : list Z :=
  match n with
  | O => buf
  | S n' => balloc_loop n' (i + 1) (set_bit buf i)
  end.
Definition balloc (used : Z) : MK unit :=
  if BSIZE * 8 <=? used then panic "used < BSIZE*8"
  else wsect (bmapstart sb) (balloc_loop (Z.to_nat used) 0 (replicate (Z.to_nat BSIZE) 0)).

(** Block [fbn] of the file, which is allocated if it does not exist. *)
Definition addr (din : inode) (k : Z) : Z := nth (Z.to_nat k) (i_addrs din) 0.
Definition set_addr (k v : Z) (din : inode) : inode := set_addrs (<[Z.to_nat k := v]> (i_addrs din)) din.
Definition map_direct (din : inode) (fbn : Z) : MK (inode * Z) :=
  din ← (if xint (addr din fbn) =? 0 then b ← next_block; mret (set_addr fbn (xint b) din) else mret din);
  mret (din, xint (addr din fbn)).
Definition map_indirect (din : inode) (fbn : Z) : MK (inode * Z) :=
  din ← (if xint (addr din NDIRECT) =? 0 then b ← next_block; mret (set_addr NDIRECT (xint b) din) else mret din);
  indirect ← rsect (xint (addr din NDIRECT));
  let k := 4 * (fbn - NDIRECT) in
  indirect ← (if get32 indirect k =? 0 then
                b ← next_block;
                let indirect := put32 indirect k (xint b) in
                wsect (xint (addr din NDIRECT)) indirect;;
                mret indirect
              else mret indirect);
  mret (din, xint (get32 indirect k)).

Fixpoint iappend_loop (fuel : nat) (p : list Z) (off : Z) (din : inode) : MK (inode * Z) :=
  match fuel with
  | O => fail OutOfFuel
  | S f =>
      let n := Z.of_nat (length p) in
      if n <=? 0 then mret (din, off)
      else
        let fbn := off / BSIZE in
        if MAXFILE <=? fbn then panic "fbn < MAXFILE"
        else
          '(din, x) ← (if fbn <? NDIRECT then map_direct din fbn else map_indirect din fbn);
          let n1 := Z.min n ((fbn + 1) * BSIZE - off) in
          buf ← rsect x;
          wsect x (splice (Z.to_nat (off - fbn * BSIZE)) (take (Z.to_nat n1) p) buf);;
          iappend_loop f (drop (Z.to_nat n1) p) (off +u n1) din
  end.
Definition iappend (inum : Z) (p : list Z) : MK unit :=
  din ← rinode inum;
  '(din, off) ← iappend_loop (S (length p)) p (xint (i_size din)) din;
  winode inum (set_size (xint off) din).

Definition dirent (inum : Z) (name : list Z) : list Z := le16 (xshort inum) ++ padded (Z.to_nat DIRSIZ) name.

Fixpoint zero_loop (n : nat) (i : Z) : MK unit :=
  match n with
  | O => mret tt
  | S n' => wsect i (replicate (Z.to_nat BSIZE) 0);; zero_loop n' (i + 1)
  end.
Fixpoint append_all (inum : Z) (parts : list (list Z)) : MK unit :=
  match parts with
  | [] => mret tt
  | buf :: parts' => iappend inum buf;; append_all inum parts'
  end.
(** A file: its name on the command line, and what the reads return. *)
Definition strip (name : list Z) : list Z := match name with c :: name' => if c =? 95 then name' else name | [] => [] end.
Fixpoint add_files (rootino : Z) (files : list (list Z * list (list Z))) : MK unit :=
  match files with
  | [] => mret tt
  | (name, parts) :: files' =>
      if bool_decide (47 ∈ name) then panic "index(argv[i], '/') == 0"
      else
        inum ← ialloc T_FILE;
        iappend rootino (dirent inum (strip name));;
        append_all inum parts;;
        add_files rootino files'
  end.

Definition main (files : list (list Z * list (list Z))) : MK unit :=
  modify (λ s, Mk (img s) (img_len s) (freeinode s) nmeta);;
  zero_loop (Z.to_nat FSSIZE) 0;;
  wsect 1 (sb_bytes sb ++ replicate (Z.to_nat (BSIZE - 28)) 0);;
  rootino ← ialloc T_DIR;
  if negb (rootino =? ROOTINO) then panic "rootino == ROOTINO"
  else
    iappend rootino (dirent rootino (bytes "."));;
    iappend rootino (dirent rootino (bytes ".."));;
    add_files rootino files;;
    din ← rinode rootino;
    let off := xint (i_size din) in
    let off := (off / BSIZE +u 1) *u BSIZE in
    winode rootino (set_size (xint off) din);;
    s ← get;
    balloc (freeblock s).

(** The image file is new and empty. *)
Definition mk0 : mk := Mk (λ _, []) 0 1 0.
