(* ===== verification/Dinode.v ===== *)
(** * Inodes in blocks

    What [store_dinode] writes into a block, [load_dinode] reads back, and the
    other inodes of the block are as before. *)

From S2P Require Import Prelude Params Sleeplock Blocks Fs FsWrite.

Lemma splice_app {A} (n : nat) (k1 k2 l : list A) :
  (n + length k1 + length k2 ≤ length l)%nat → splice (n + length k1) k2 (splice n k1 l) = splice n (k1 ++ k2) l.
Proof.
  intros Hl. unfold splice. rewrite <- !app_assoc. rewrite length_app.
  rewrite take_app_ge by (rewrite length_take; lia). rewrite drop_app_ge by (rewrite length_take; lia).
  rewrite length_take. replace (n + length k1 - n `min` length l)%nat with (length k1) by lia.
  replace (n + length k1 + length k2 - n `min` length l)%nat with (length k1 + length k2)%nat by lia.
  rewrite take_app_length. rewrite drop_app_ge by lia. rewrite drop_drop. rewrite <- app_assoc. do 3 f_equal. f_equal. lia.
Qed.

(** The 64 bytes of an inode. *)
Definition dinode_bytes (ip : inode) : list Z :=
  le16 (i_type ip) ++ le16 (i_major ip) ++ le16 (i_minor ip) ++ le16 (i_nlink ip) ++ le32 (i_size ip) ++ (i_addrs ip ≫= le32).
Lemma length_dinode_bytes ip : length (i_addrs ip) = 13%nat → length (dinode_bytes ip) = 64%nat.
Proof. intros Ha. unfold dinode_bytes. rewrite !length_app, length_le32s, Ha. done. Qed.
Lemma store_dinode_splice d off ip :
  length (i_addrs ip) = 13%nat → 0 ≤ off → off + 64 ≤ Z.of_nat (length d) →
  store_dinode d off ip = splice (Z.to_nat off) (dinode_bytes ip) d.
Proof.
  intros Ha Ho Hl. unfold store_dinode, put_addrs, put32, put16, dinode_bytes.
  replace (Z.to_nat (off + 2)) with (Z.to_nat off + length (le16 (i_type ip)))%nat by (cbn; lia).
  rewrite splice_app by (cbn; lia).
  replace (Z.to_nat (off + 4)) with (Z.to_nat off + length (le16 (i_type ip) ++ le16 (i_major ip)))%nat by (cbn; lia).
  rewrite splice_app by (cbn; lia).
  replace (Z.to_nat (off + 6)) with (Z.to_nat off + length ((le16 (i_type ip) ++ le16 (i_major ip)) ++ le16 (i_minor ip)))%nat by (cbn; lia).
  rewrite splice_app by (cbn; lia).
  replace (Z.to_nat (off + 8)) with (Z.to_nat off + length (((le16 (i_type ip) ++ le16 (i_major ip)) ++ le16 (i_minor ip)) ++ le16 (i_nlink ip)))%nat by (cbn; lia).
  rewrite splice_app by (cbn; lia).
  match goal with |- splice _ _ (splice _ ?k _) = _ => replace (Z.to_nat (off + 12)) with (Z.to_nat off + length k)%nat by (cbn; lia) end.
  rewrite splice_app by (rewrite length_le32s, Ha; cbn; lia). by rewrite <- !app_assoc.
Qed.

Lemma get32_le32s (a : list Z) k : (k < length a)%nat → get32 (a ≫= le32) (4 * Z.of_nat k) = u32 (nth k a 0).
Proof.
  revert k. induction a as [|x a IH]; intros k Hk; cbn [length] in Hk; [lia|]. destruct k as [|k].
  - change (get32 _ _) with (u8 x + 256 * u8 (x / 256) + 65536 * u8 (x / 65536) + 16777216 * u8 (x / 16777216)). cbn [nth]. unfold u8, u32. zdm.
  - cbn [nth]. rewrite <- IH by lia. change ((x :: a) ≫= le32) with (le32 x ++ (a ≫= le32)).
    assert (Hb : ∀ j, 0 ≤ j → byte_at (le32 x ++ (a ≫= le32)) (4 + j) = byte_at (a ≫= le32) j).
    { intros j Hj. unfold byte_at. rewrite app_nth2 by (cbn; lia). f_equal. cbn [le32 length]. lia. }
    unfold get32. replace (4 * Z.of_nat (S k)) with (4 + 4 * Z.of_nat k) by lia. by rewrite <- !Z.add_assoc, !Hb by lia.
Qed.
Lemma get_addrs_le32s (a : list Z) :
  length a = 13%nat → Forall is_u32 a → (λ k, get32 (a ≫= le32) (4 * Z.of_nat k)) <$> seq 0 13 = a.
Proof.
  intros Hl Ha. apply list_eq. intros k. rewrite list_lookup_fmap. destruct (decide (k < 13)%nat) as [Hk|Hk].
  - rewrite lookup_seq_lt by done. cbn [fmap option_fmap option_map Nat.add]. rewrite get32_le32s by lia.
    destruct (lookup_lt_is_Some_2 a k) as [x Hx]; [lia|]. rewrite Hx, (nth_lookup_Some _ _ _ _ Hx), u32_id; [done|].
    by eapply Forall_lookup_1.
  - rewrite lookup_seq_ge by lia. symmetry. apply lookup_ge_None. lia.
Qed.

(** An inode whose fields fit. *)
Record dinode_fits (ip : inode) : Prop := {
  df_type : -32768 ≤ i_type ip < 32768;
  df_major : -32768 ≤ i_major ip < 32768;
  df_minor : -32768 ≤ i_minor ip < 32768;
  df_nlink : -32768 ≤ i_nlink ip < 32768;
  df_size : is_u32 (i_size ip);
  df_addrs : length (i_addrs ip) = 13%nat;
  df_addr : Forall is_u32 (i_addrs ip);
}.
(** The fields on disk of [ip], in the inode [b] of the cache. *)
Definition with_fields (ip b : inode) : inode :=
  Inode (i_dev b) (i_inum b) (i_ref b) (i_lock b) (i_valid b) (i_type ip) (i_major ip) (i_minor ip) (i_nlink ip) (i_size ip) (i_addrs ip).

Lemma load_bytes d off ip b :
  dinode_fits ip → 0 ≤ off → off + 64 ≤ Z.of_nat (length d) →
  load_dinode (splice (Z.to_nat off) (dinode_bytes ip) d) off b = with_fields ip b.
Proof.
  intros [] Ho Hl. pose proof (length_dinode_bytes ip df_addrs0) as Hlen.
  assert (Hb : ∀ j, 0 ≤ j < 64 → byte_at (splice (Z.to_nat off) (dinode_bytes ip) d) (off + j) = byte_at (dinode_bytes ip) j).
  { intros j Hj. rewrite byte_at_splice_eq by lia. f_equal. lia. }
  unfold load_dinode, dinode_type, get_addrs, with_fields.
  assert (H16 : ∀ j, 0 ≤ j ≤ 62 → get16 (splice (Z.to_nat off) (dinode_bytes ip) d) (off + j) = get16 (dinode_bytes ip) j).
  { intros j Hj. unfold get16. rewrite <- Z.add_assoc. by rewrite !Hb by lia. }
  assert (H32 : ∀ j, 0 ≤ j ≤ 60 → get32 (splice (Z.to_nat off) (dinode_bytes ip) d) (off + j) = get32 (dinode_bytes ip) j).
  { intros j Hj. unfold get32. rewrite <- !Z.add_assoc. by rewrite !Hb by lia. }
  assert (Hs16 : ∀ x, -32768 ≤ x < 32768 → s16 (u8 x + 256 * u8 (x / 256)) = x) by (intros x Hx; unfold s16, u8; zdm).
  pose proof (H16 0 ltac:(lia)) as E0. rewrite Z.add_0_r in E0. rewrite E0, !H16, H32 by lia.
  assert (get16 (dinode_bytes ip) 0 = u8 (i_type ip) + 256 * u8 (i_type ip / 256)) as -> by done.
  assert (get16 (dinode_bytes ip) 2 = u8 (i_major ip) + 256 * u8 (i_major ip / 256)) as -> by done.
  assert (get16 (dinode_bytes ip) 4 = u8 (i_minor ip) + 256 * u8 (i_minor ip / 256)) as -> by done.
  assert (get16 (dinode_bytes ip) 6 = u8 (i_nlink ip) + 256 * u8 (i_nlink ip / 256)) as -> by done.
  assert (get32 (dinode_bytes ip) 8 = u32 (i_size ip)) as ->. { change (get32 _ _) with (u8 (i_size ip) + 256 * u8 (i_size ip / 256) + 65536 * u8 (i_size ip / 65536) + 16777216 * u8 (i_size ip / 16777216)).
    unfold u8, u32. zdm. }
  rewrite !Hs16, u32_id by done. unfold set_addrs, set_size, set_nlink, set_majmin, set_type.
  cbn [i_dev i_inum i_ref i_lock i_valid i_type i_major i_minor i_nlink i_size].
  f_equal. etrans; [|apply get_addrs_le32s; done]. apply list_fmap_ext. intros k x Hx. apply lookup_seq in Hx as [-> Hk].
  rewrite <- Z.add_assoc, H32 by lia. unfold get32. rewrite <- !Z.add_assoc.
  assert (Hp : ∀ j, 0 ≤ j → byte_at (dinode_bytes ip) (12 + j) = byte_at (i_addrs ip ≫= le32) j).
  { intros j Hj. unfold byte_at. replace (Z.to_nat (12 + j)) with (12 + Z.to_nat j)%nat by lia. done. }
  by rewrite !Hp by lia.
Qed.

(** An inode is read back from its block as it was written. *)
Theorem load_store_dinode d off ip b :
  dinode_fits ip → 0 ≤ off → off + 64 ≤ Z.of_nat (length d) →
  load_dinode (store_dinode d off ip) off b = with_fields ip b.
Proof. intros Hf Ho Hl. rewrite store_dinode_splice by (done || apply Hf). by apply load_bytes. Qed.
(** And the inodes in the other places of the block do not change. *)
Lemma load_store_other d off off' ip b :
  length (i_addrs ip) = 13%nat → 0 ≤ off → off + 64 ≤ Z.of_nat (length d) → 0 ≤ off' → off' + 64 ≤ off ∨ off + 64 ≤ off' →
  load_dinode (store_dinode d off ip) off' b = load_dinode d off' b.
Proof.
  intros Ha Ho Hl Ho' Hd. rewrite store_dinode_splice by done. pose proof (length_dinode_bytes ip Ha) as Hlen.
  assert (H16 : ∀ j, 0 ≤ j ≤ 62 → get16 (splice (Z.to_nat off) (dinode_bytes ip) d) (off' + j) = get16 d (off' + j)).
  { intros j Hj. apply get16_splice_ne; lia. }
  assert (H32 : ∀ j, 0 ≤ j ≤ 60 → get32 (splice (Z.to_nat off) (dinode_bytes ip) d) (off' + j) = get32 d (off' + j)).
  { intros j Hj. apply get32_splice_ne; lia. }
  unfold load_dinode, dinode_type, get_addrs. pose proof (H16 0 ltac:(lia)) as E0. rewrite Z.add_0_r in E0. rewrite E0, !H16, H32 by lia.
  f_equal. apply list_fmap_ext. intros k x Hx. apply lookup_seq in Hx as [-> Hk]. rewrite <- Z.add_assoc. apply H32. lia.
Qed.
