(* ===== verification/MkfsThms.v ===== *)
(** * The image that mkfs builds is one that the kernel accepts

    [minode] is what holds of an inode while the image is built: its blocks are
    below [freeblock], and hold the contents of the file, with zeros up to the
    end of the last block. *)

From S2P Require Import Prelude Params CString Cprintf Sleeplock Blocks Bio Log LogThms Fs BlockLaws FsBlocks FsFile FsWrite Dinode Mkfs.

Lemma put_block_eq f n d : put_block f n d n = d.
Proof. unfold put_block. by rewrite Z.eqb_refl. Qed.
Lemma put_block_ne f n d x : x ≠ n → put_block f n d x = f x.
Proof. unfold put_block. intros. by destruct (Z.eqb_spec x n). Qed.
Lemma xint_id x : is_u32 x → xint x = x.
Proof.
  intros Hx. change (xint x) with (u8 x + 256 * u8 (x / 256) + 65536 * u8 (x / 65536) + 16777216 * u8 (x / 16777216)).
  unfold u8, is_u32 in *. zdm.
Qed.
Lemma mbind_run {S A B} (m : M S A) (k : A → M S B) s a s' : m s = Ok a s' → (m ≫= k) s = k a s'.
Proof. intros Hm. unfold mbind, M_bind. by rewrite Hm. Qed.

Lemma byte_at_app a b k : 0 ≤ k → byte_at (a ++ b) k = if k <? Z.of_nat (length a) then byte_at a k else byte_at b (k - Z.of_nat (length a)).
Proof.
  intros Hk. unfold byte_at. rewrite !nth_lookup. destruct (Z.ltb_spec k (Z.of_nat (length a))).
  - by rewrite lookup_app_l by lia.
  - rewrite lookup_app_r by lia. do 2 f_equal. lia.
Qed.
Lemma byte_at_ge l k : Z.of_nat (length l) ≤ k → byte_at l k = 0.
Proof. intros Hk. unfold byte_at. apply nth_overflow. lia. Qed.

(** Arithmetic on the numbers of blocks. *)
Ltac mkl := change nmeta with 59 in *; change FSSIZE with 1000 in *; change MAXFILE with 140 in *; change NDIRECT with 12 in *; unfold is_u32, BSIZE in *; lia.

Ltac mrun := cbv [mbind M_bind mret M_ret rsect wsect next_block modify]; cbn [img img_len freeinode freeblock].

(** ** An inode of the image *)

Section minode.
Context (v : Z → list Z) (fb : Z) (ip : inode) (nb : Z) (bs : list Z).
Record minode : Prop := {
  mi_addrs : length (i_addrs ip) = 13%nat;
  mi_nb : 0 ≤ nb ≤ MAXFILE ∧ Z.of_nat (length bs) ≤ nb * BSIZE;
  mi_map bn : 0 ≤ bn < nb → nmeta ≤ fblk v ip bn < fb ∧ length (v (fblk v ip bn)) = Z.to_nat BSIZE;
  mi_none bn : nb ≤ bn < MAXFILE → fblk v ip bn = 0;
  mi_ind : NDIRECT < nb → nmeta ≤ addr_of ip NDIRECT < fb ∧ length (v (addr_of ip NDIRECT)) = Z.to_nat BSIZE;
  mi_noind : nb ≤ NDIRECT → addr_of ip NDIRECT = 0;
  mi_inj bn bn' : 0 ≤ bn < nb → 0 ≤ bn' < nb → fblk v ip bn = fblk v ip bn' → bn = bn';
  mi_ind_ne bn : 0 ≤ bn < nb → fblk v ip bn ≠ addr_of ip NDIRECT;
  mi_bytes k : 0 ≤ k < nb * BSIZE → fbyte v ip k = byte_at bs k;
}.
(** The blocks of the file. *)
Definition mowns (x : Z) : Prop := (NDIRECT < nb ∧ x = addr_of ip NDIRECT) ∨ ∃ bn, 0 ≤ bn < nb ∧ x = fblk v ip bn.
End minode.

Lemma fblk_same v v' ip bn :
  (NDIRECT ≤ bn → addr_of ip NDIRECT ≠ 0 → v' (addr_of ip NDIRECT) = v (addr_of ip NDIRECT)) → fblk v' ip bn = fblk v ip bn.
Proof.
  intros H. unfold fblk. destruct (Z.ltb_spec bn NDIRECT); [done|]. destruct (Z.eqb_spec (addr_of ip NDIRECT) 0); [done|].
  by rewrite H by lia.
Qed.
Lemma mowns_range v fb ip nb bs x : minode v fb ip nb bs → mowns v ip nb x → nmeta ≤ x < fb.
Proof. intros I [[H ->]|(bn&H&->)]; [by apply (mi_ind _ _ _ _ _ I)|by apply (mi_map _ _ _ _ _ I)]. Qed.

Section frame.
Context (v v' : Z → list Z) (fb fb' : Z) (ip : inode) (nb : Z) (bs : list Z) (I : minode v fb ip nb bs).
Context (Hv : ∀ x, mowns v ip nb x → v' x = v x) (Hfb : fb ≤ fb').

Lemma frame_fblk bn : fblk v' ip bn = fblk v ip bn.
Proof.
  apply fblk_same. intros _ Hz. apply Hv. left. split; [|done]. destruct (decide (NDIRECT < nb)); [done|].
  rewrite (mi_noind _ _ _ _ _ I) in Hz by lia. done.
Qed.
Lemma frame_mowns x : mowns v' ip nb x ↔ mowns v ip nb x.
Proof. unfold mowns. setoid_rewrite frame_fblk. done. Qed.
Lemma minode_frame : minode v' fb' ip nb bs.
Proof.
  assert (Hown : ∀ bn, 0 ≤ bn < nb → mowns v ip nb (fblk v ip bn)) by (intros; right; eauto).
  destruct I as [H1 H2 H3 H4 H5 H6 H7 H8 H9]. split; try done.
  - intros bn Hbn. rewrite frame_fblk, Hv by auto. specialize (H3 bn Hbn). split; [lia|tauto].
  - intros bn Hbn. rewrite frame_fblk. by apply H4.
  - intros Hn. rewrite Hv by (by left). specialize (H5 Hn). split; [lia|tauto].
  - intros bn bn'. rewrite !frame_fblk. apply H7.
  - intros bn. rewrite frame_fblk. apply H8.
  - intros k Hk. rewrite <- H9 by done. unfold fbyte. rewrite frame_fblk. rewrite Hv; [done|]. apply Hown. unfold BSIZE in *. zdm.
Qed.
End frame.

(** Writing into the last block of the file. *)
Lemma minode_write v fb ip nb bs part :
  minode v fb ip nb bs → let off := Z.of_nat (length bs) in
  off / BSIZE < nb → off mod BSIZE + Z.of_nat (length part) ≤ BSIZE →
  let x := fblk v ip (off / BSIZE) in
  let v' := put_block v x (splice (Z.to_nat (off mod BSIZE)) part (v x)) in
  minode v' fb ip nb (bs ++ part) ∧ ∀ y, mowns v' ip nb y ↔ mowns v ip nb y.
Proof.
  intros I off Hbn Hpart x v'. pose proof (Z.mod_pos_bound off BSIZE ltac:(unfold BSIZE; lia)) as Hm.
  assert (Hoff : 0 ≤ off / BSIZE) by (unfold BSIZE; zdm).
  destruct (mi_map _ _ _ _ _ I (off / BSIZE)) as [Hx Hlx]; [lia|]. fold x in Hx, Hlx.
  assert (Hblk : ∀ bn, fblk v' ip bn = fblk v ip bn).
  { intros bn. apply fblk_same. intros _ _. apply put_block_ne. intros E. by apply (mi_ind_ne _ _ _ _ _ I (off / BSIZE)). }
  assert (Hmo : ∀ y, mowns v' ip nb y ↔ mowns v ip nb y) by (intros y; unfold mowns; by setoid_rewrite Hblk).
  assert (Hlen : length (splice (Z.to_nat (off mod BSIZE)) part (v x)) = Z.to_nat BSIZE) by (rewrite length_splice; unfold BSIZE in *; lia).
  assert (Hlv : ∀ y, length (v y) = Z.to_nat BSIZE → length (v' y) = Z.to_nat BSIZE).
  { intros y Hy. unfold v', put_block. by destruct (y =? x). }
  split; [|done]. pose proof I as [H1 H2 H3 H4 H5 H6 H7 H8 H9]. split; try done.
  - rewrite length_app, Nat2Z.inj_add. fold off. unfold BSIZE in *. split; [lia|]. zdm.
  - intros bn Hb. rewrite Hblk. destruct (H3 bn Hb). split; [done|]. by apply Hlv.
  - intros bn Hb. rewrite Hblk. by apply H4.
  - intros Hn. destruct (H5 Hn). split; [done|]. by apply Hlv.
  - intros bn bn'. rewrite !Hblk. apply H7.
  - intros bn. rewrite Hblk. apply H8.
  - intros k Hk. unfold fbyte. rewrite Hblk. unfold v'. rewrite byte_at_app by lia. fold off.
    assert (Hkb : 0 ≤ k / BSIZE < nb) by (unfold BSIZE in *; zdm).
    pose proof (H9 k Hk) as Hold. unfold fbyte in Hold.
    destruct (decide (k / BSIZE = off / BSIZE)) as [E|E].
    + rewrite E in *. fold x. fold x in Hold. rewrite put_block_eq, byte_at_splice by (unfold BSIZE in *; zdm).
      replace (k - off) with (k mod BSIZE - off mod BSIZE) by (unfold BSIZE in *; zdm). rewrite Hold.
      destruct (Z.leb_spec (off mod BSIZE) (k mod BSIZE)), (Z.ltb_spec (k mod BSIZE) (off mod BSIZE + Z.of_nat (length part))),
        (Z.ltb_spec k off); cbn [andb]; try done; try (unfold BSIZE in *; zdm).
      rewrite (byte_at_ge part), (byte_at_ge bs) by (unfold off in *; unfold BSIZE in *; zdm). done.
    + rewrite put_block_ne by (intros E'; apply E, (H7 _ _ Hkb); [lia|exact E']). rewrite Hold.
      destruct (Z.ltb_spec k off); [done|]. rewrite (byte_at_ge part), (byte_at_ge bs); [done|unfold off in *; lia|].
      unfold BSIZE in *. zdm.
Qed.

(** ** Mapping a block *)

(** The blocks that [nb] blocks of a file take, with the indirect one. *)
Definition need (nb : Z) : Z := nb + (if NDIRECT <? nb then 1 else 0).
Definition zero_from (v : Z → list Z) (fb : Z) : Prop := ∀ y, fb ≤ y < FSSIZE → v y = zero_block.
Definition map_block (din : inode) (fbn : Z) : MK (inode * Z) := if fbn <? NDIRECT then map_direct din fbn else map_indirect din fbn.

Section extend.
Context (v v1 : Z → list Z) (fb fb1 : Z) (ip ip1 : inode) (nb x : Z) (bs : list Z) (I : minode v fb ip nb bs).
Context (Hnb : nb < MAXFILE) (Hla : length (i_addrs ip1) = 13%nat).
Context (Hblk : ∀ bn, 0 ≤ bn < MAXFILE → fblk v1 ip1 bn = if bn =? nb then x else fblk v ip bn).
Context (Hx : nmeta ≤ fb ≤ x ∧ x < fb1) (Hz : v1 x = zero_block).
Context (Hv1 : ∀ y, y < fb → y ≠ addr_of ip1 NDIRECT → v1 y = v y).
Context (Hind : NDIRECT < nb + 1 → nmeta ≤ addr_of ip1 NDIRECT < fb1 ∧ length (v1 (addr_of ip1 NDIRECT)) = Z.to_nat BSIZE).
Context (Hnoind : nb + 1 ≤ NDIRECT → addr_of ip1 NDIRECT = 0) (Hxne : x ≠ addr_of ip1 NDIRECT).
Context (Hne : ∀ bn, 0 ≤ bn < nb → fblk v ip bn ≠ addr_of ip1 NDIRECT).

Lemma minode_extend : minode v1 fb1 ip1 (nb + 1) bs.
Proof.
  pose proof I as [H1 H2 H3 H4 H5 H6 H7 H8 H9].
  assert (Hold : ∀ bn, 0 ≤ bn < nb + 1 → bn ≠ nb → fblk v1 ip1 bn = fblk v ip bn ∧ v1 (fblk v ip bn) = v (fblk v ip bn)).
  { intros bn Hb Hn. rewrite Hblk by lia. destruct (Z.eqb_spec bn nb); [done|]. destruct (H3 bn ltac:(lia)).
    split; [done|]. apply Hv1; [lia|]. apply Hne. lia. }
  assert (Hnew : fblk v1 ip1 nb = x) by (rewrite Hblk by lia; by rewrite Z.eqb_refl).
  split; try done.
  - unfold BSIZE in *. lia.
  - intros bn Hb. destruct (decide (bn = nb)) as [->|E].
    + rewrite Hnew, Hz. split; [lia|done].
    + destruct (Hold bn Hb E) as [-> ->]. destruct (H3 bn); [lia|]. split; [lia|done].
  - intros bn Hb. rewrite Hblk by lia. destruct (Z.eqb_spec bn nb); [lia|]. apply H4. lia.
  - intros bn bn' Hb Hb' E. destruct (decide (bn = nb)) as [->|N], (decide (bn' = nb)) as [->|N']; [done| | |].
    + destruct (Hold bn' Hb' N') as [E' _], (H3 bn' ltac:(lia)). rewrite Hnew, E' in E. lia.
    + destruct (Hold bn Hb N) as [E' _], (H3 bn ltac:(lia)). rewrite Hnew, E' in E. lia.
    + destruct (Hold bn Hb N) as [E1 _], (Hold bn' Hb' N') as [E2 _]. rewrite E1, E2 in E. apply H7; [lia..|done].
  - intros bn Hb. destruct (decide (bn = nb)) as [->|N]; [by rewrite Hnew|].
    destruct (Hold bn Hb N) as [-> _]. apply Hne. lia.
  - intros k Hk. unfold fbyte. assert (Hkb : 0 ≤ k / BSIZE < nb + 1) by (unfold BSIZE in *; zdm).
    destruct (decide (k / BSIZE = nb)) as [E|N].
    + rewrite E, Hnew, Hz. rewrite (byte_at_ge bs) by (unfold BSIZE in *; zdm).
      unfold byte_at, zero_block. rewrite nth_lookup. destruct (_ !! _) eqn:El; [|done].
      by apply lookup_replicate in El as [-> _].
    + destruct (Hold _ Hkb N) as [-> ->]. apply H9. unfold BSIZE in *. zdm.
Qed.
Lemma mowns_extend y : mowns v1 ip1 (nb + 1) y → mowns v ip nb y ∨ (NDIRECT < nb + 1 ∧ y = addr_of ip1 NDIRECT) ∨ fb ≤ y.
Proof using I Hblk Hx Hnb.
  clear -I Hblk Hx Hnb.
  intros [H|(bn&Hb&->)]; [by right; left|]. pose proof (mi_nb _ _ _ _ _ I). rewrite Hblk by lia.
  destruct (Z.eqb_spec bn nb); [right; right; lia|]. left. right. exists bn. split; [lia|done].
Qed.
End extend.

(** From [v], [fb], [ip] the file has grown to [nb'] blocks with the contents [bs']: only its own blocks and free ones have changed. *)
Record grown (v : Z → list Z) (fb : Z) (ip : inode) (nb : Z) (v1 : Z → list Z) (fb1 : Z) (ip1 : inode) (nb1 : Z) (bs1 : list Z) : Prop := {
  gw_inode : minode v1 fb1 ip1 nb1 bs1;
  gw_fb : fb1 = fb + need nb1 - need nb ∧ fb ≤ fb1;
  gw_zero : zero_from v1 fb1;
  gw_frame y : y < fb → ¬ mowns v ip nb y → v1 y = v y;
  gw_owns y : mowns v1 ip1 nb1 y → mowns v ip nb y ∨ fb ≤ y;
  gw_ip : ip1 = set_addrs (i_addrs ip1) ip;
}.
Abbreviation mapped v fb ip nb bs v1 fb1 ip1 := (grown v fb ip nb v1 fb1 ip1 (nb + 1) bs).

Lemma grown_refl v fb ip nb bs : minode v fb ip nb bs → zero_from v fb → grown v fb ip nb v fb ip nb bs.
Proof. intros I Hz. split; auto; [lia|by destruct ip]. Qed.
Lemma grown_trans v0 fb0 ip0 nb0 v1 fb1 ip1 nb1 bs1 v2 fb2 ip2 nb2 bs2 :
  grown v0 fb0 ip0 nb0 v1 fb1 ip1 nb1 bs1 → grown v1 fb1 ip1 nb1 v2 fb2 ip2 nb2 bs2 → grown v0 fb0 ip0 nb0 v2 fb2 ip2 nb2 bs2.
Proof.
  intros [I1 F1 Z1 V1 O1 P1] [I2 F2 Z2 V2 O2 P2]. split; auto; [lia| | |].
  - intros y Hy Hn. rewrite V2; [by apply V1|lia|]. intros H. apply O1 in H as [?|?]; [done|lia].
  - intros y H. apply O2 in H as [H|H]; [by apply O1|right; lia].
  - by rewrite P2, P1.
Qed.

Section mapping.
Context (v : Z → list Z) (fb : Z) (ip : inode) (nb : Z) (bs : list Z) (fi : Z) (I : minode v fb ip nb bs).
Context (Hfb : nmeta ≤ fb ≤ FSSIZE).

Lemma map_existing bn : 0 ≤ bn < nb → map_block ip bn (Mk v FSSIZE fi fb) = Ok (ip, fblk v ip bn) (Mk v FSSIZE fi fb).
Proof.
  intros Hb. destruct (mi_map _ _ _ _ _ I bn Hb) as [Hr _]. pose proof (mi_ind _ _ _ _ _ I) as Hi.
  unfold map_block, map_direct, map_indirect, fblk in *.
  destruct (Z.ltb_spec bn NDIRECT).
  - change (addr_of ip bn) with (addr ip bn) in *. rewrite xint_id by mkl.
    destruct (Z.eqb_spec (addr ip bn) 0); [mkl|]. mrun. by rewrite xint_id by mkl.
  - destruct Hi as [Hi _]; [lia|]. change (addr_of ip NDIRECT) with (addr ip NDIRECT) in *. rewrite xint_id by mkl.
    destruct (Z.eqb_spec (addr ip NDIRECT) 0); [mkl|]. mrun. rewrite xint_id by mkl.
    destruct (Z.leb_spec FSSIZE (addr ip NDIRECT)); [mkl|].
    destruct (Z.eqb_spec (get32 (v (addr ip NDIRECT)) (4 * (bn - NDIRECT))) 0); [mkl|]. mrun.
    by rewrite xint_id by mkl.
Qed.

Context (Hz : zero_from v fb) (Hnb : nb < MAXFILE).

Lemma map_new_direct :
  nb < NDIRECT → fb < FSSIZE → let ip1 := set_addr nb fb ip in
  map_block ip nb (Mk v FSSIZE fi fb) = Ok (ip1, fblk v ip1 nb) (Mk v FSSIZE fi (fb + 1)) ∧ mapped v fb ip nb bs v (fb + 1) ip1.
Proof.
  intros Hd Hf ip1. pose proof (mi_nb _ _ _ _ _ I) as [Hn _]. pose proof (mi_addrs _ _ _ _ _ I) as Hla.
  assert (Ha : ∀ j, 0 ≤ j → addr_of ip1 j = if j =? nb then fb else addr_of ip j).
  { intros j Hj. unfold ip1, set_addr. rewrite addr_of_set by mkl. done. }
  assert (Hx : fblk v ip1 nb = fb). { unfold fblk. destruct (Z.ltb_spec nb NDIRECT); [|lia]. rewrite Ha by lia. by rewrite Z.eqb_refl. }
  pose proof (mi_none _ _ _ _ _ I nb ltac:(lia)) as H0.
  split.
  - unfold map_block, map_direct. destruct (Z.ltb_spec nb NDIRECT); [|lia]. unfold fblk in H0.
    destruct (Z.ltb_spec nb NDIRECT); [|lia]. change (addr ip nb) with (addr_of ip nb). rewrite H0.
    change (xint 0 =? 0) with true. mrun. rewrite (xint_id fb) by mkl. fold ip1.
    change (addr ip1 nb) with (addr_of ip1 nb).
    rewrite Ha, Z.eqb_refl, xint_id, Hx by mkl. by rewrite u32_id by mkl.
  - assert (H12 : addr_of ip1 NDIRECT = 0). { rewrite Ha by done. destruct (Z.eqb_spec NDIRECT nb); [lia|]. apply (mi_noind _ _ _ _ _ I). lia. }
    assert (Hblk : ∀ bn, 0 ≤ bn < MAXFILE → fblk v ip1 bn = if bn =? nb then fb else fblk v ip bn).
    { intros bn Hb. unfold fblk. rewrite !Ha by (done || lia). destruct (Z.eqb_spec NDIRECT nb); [lia|].
      destruct (Z.ltb_spec bn NDIRECT); [done|]. destruct (Z.eqb_spec bn nb); [lia|done]. }
    assert (Hne : ∀ bn, 0 ≤ bn < nb → fblk v ip bn ≠ addr_of ip1 NDIRECT).
    { intros bn Hb. destruct (mi_map _ _ _ _ _ I bn Hb). rewrite H12. mkl. }
    split.
    + apply (minode_extend v v fb (fb + 1) ip ip1 nb fb bs I); try done; try lia.
      * unfold ip1, set_addr. cbn. by rewrite length_insert.
      * apply Hz. mkl.
      * rewrite H12. mkl.
    + unfold need. destruct (Z.ltb_spec NDIRECT (nb + 1)), (Z.ltb_spec NDIRECT nb); lia.
    + intros y Hy. apply Hz. lia.
    + done.
    + intros y Hy. destruct (mowns_extend v v fb (fb + 1) ip ip1 nb fb bs I) with y as [?|[[? ?]|?]]; try done; try lia; auto.
    + done.
Qed.

(** A new entry of the indirect block. *)
Section slot.
Context (ip1 : inode) (fbm : Z) (Hf : fb ≤ fbm < FSSIZE) (Hn12 : NDIRECT ≤ nb).
Let ind := addr_of ip1 NDIRECT.
Let v1 := put_block v ind (put32 (v ind) (4 * (nb - NDIRECT)) fbm).
Context (Hla : length (i_addrs ip1) = 13%nat) (Hip : ip1 = set_addrs (i_addrs ip1) ip).
Context (Hind : nmeta ≤ ind < fbm) (Hlind : length (v ind) = Z.to_nat BSIZE).
Context (Hsame : ∀ bn, 0 ≤ bn < MAXFILE → fblk v ip1 bn = fblk v ip bn).
Context (Hne : ∀ bn, 0 ≤ bn < nb → fblk v ip bn ≠ ind).
Context (Hown : (NDIRECT < nb ∧ ind = addr_of ip NDIRECT) ∨ fb ≤ ind).
Context (Hneed : fbm + 1 = fb + need (nb + 1) - need nb).

Lemma mk_slot_fblk bn : 0 ≤ bn < MAXFILE → fblk v1 ip1 bn = if bn =? nb then fbm else fblk v ip bn.
Proof.
  intros Hb. rewrite <- Hsame by done. unfold fblk. fold ind. destruct (Z.ltb_spec bn NDIRECT).
  { destruct (Z.eqb_spec bn nb); [mkl|done]. }
  destruct (Z.eqb_spec ind 0); [mkl|]. unfold v1. rewrite put_block_eq.
  destruct (Z.eqb_spec bn nb) as [->|].
  - rewrite get32_put32, u32_id; [done|mkl..].
  - apply get32_put32_ne; mkl.
Qed.
Lemma slot_mapped : mapped v fb ip nb bs v1 (fbm + 1) ip1.
Proof.
  assert (Hv1 : ∀ y, y ≠ ind → v1 y = v y) by (intros; by apply put_block_ne).
  assert (Hm : ∀ y, mowns v1 ip1 (nb + 1) y → mowns v ip nb y ∨ (NDIRECT < nb + 1 ∧ y = addr_of ip1 NDIRECT) ∨ fb ≤ y).
  { intros y Hy. eapply (mowns_extend v v1 fb (fbm + 1) ip ip1 nb fbm bs I); try done; [|lia]. apply mk_slot_fblk. }
  split; [|lia| | | |done].
  - apply (minode_extend v v1 fb (fbm + 1) ip ip1 nb fbm bs I); try done.
    + apply mk_slot_fblk.
    + lia.
    + rewrite Hv1 by lia. apply Hz. lia.
    + intros y _ Hy. by apply Hv1.
    + intros _. fold ind. split; [lia|]. unfold v1. rewrite put_block_eq, length_put32; [done|mkl..].
    + lia.
    + fold ind. lia.
  - intros y Hy. rewrite Hv1 by lia. apply Hz. lia.
  - intros y Hy Hno. apply Hv1. intros ->. destruct Hown as [[? ?]|?]; [|lia]. apply Hno. by left.
  - intros y Hy. destruct (Hm y Hy) as [?|[[? ->]|?]]; auto. fold ind. destruct Hown as [[? E]|?]; [|by right].
    left. by left.
Qed.
End slot.

Lemma map_new_indirect :
  NDIRECT ≤ nb → fb + need (nb + 1) - need nb ≤ FSSIZE →
  ∃ v1 ip1 fb1, map_block ip nb (Mk v FSSIZE fi fb) = Ok (ip1, fblk v1 ip1 nb) (Mk v1 FSSIZE fi fb1) ∧ mapped v fb ip nb bs v1 fb1 ip1.
Proof.
  intros Hn Hneed. pose proof (mi_nb _ _ _ _ _ I) as [Hn0 _]. pose proof (mi_addrs _ _ _ _ _ I) as Hla.
  assert (∃ ip1 fbm, (if xint (addr ip NDIRECT) =? 0 then b ← next_block; mret (set_addr NDIRECT (xint b) ip) else mret ip)
    (Mk v FSSIZE fi fb) = Ok ip1 (Mk v FSSIZE fi fbm) ∧ fb ≤ fbm < FSSIZE ∧ length (i_addrs ip1) = 13%nat ∧ ip1 = set_addrs (i_addrs ip1) ip ∧
    nmeta ≤ addr_of ip1 NDIRECT < fbm ∧ length (v (addr_of ip1 NDIRECT)) = Z.to_nat BSIZE ∧
    (∀ bn, 0 ≤ bn < MAXFILE → fblk v ip1 bn = fblk v ip bn) ∧ (∀ bn, 0 ≤ bn < nb → fblk v ip bn ≠ addr_of ip1 NDIRECT) ∧
    ((NDIRECT < nb ∧ addr_of ip1 NDIRECT = addr_of ip NDIRECT) ∨ fb ≤ addr_of ip1 NDIRECT) ∧ fbm + 1 = fb + need (nb + 1) - need nb)
    as (ip1&fbm&Hrun&Hf&Hl1&Hip&Hi&Hli&Hs&Hne&Ho&Hfm).
  { destruct (Z.eqb_spec nb NDIRECT) as [E|E].
    - assert (H0 : addr ip NDIRECT = 0) by (apply (mi_noind _ _ _ _ _ I); lia).
      assert (Ha : ∀ j, 0 ≤ j → addr_of (set_addr NDIRECT fb ip) j = if j =? NDIRECT then fb else addr_of ip j) by (intros; by apply addr_of_set).
      assert (need (nb + 1) - need nb = 2) as Hnd by (by rewrite E).
      exists (set_addr NDIRECT fb ip), (fb + 1). rewrite Ha, Z.eqb_refl by done.
      assert (Hzf : v fb = zero_block) by (apply Hz; mkl).
      repeat split; try mkl; try done.
      + rewrite H0. change (xint 0 =? 0) with true. mrun. by rewrite xint_id, u32_id by mkl.
      + cbn. by rewrite length_insert.
      + by rewrite Hzf.
      + intros bn Hb. unfold fblk. rewrite !Ha by (done || lia). change (addr_of ip NDIRECT) with (addr ip NDIRECT). rewrite H0.
        destruct (Z.ltb_spec bn NDIRECT); [destruct (Z.eqb_spec bn NDIRECT); [lia|done]|]. rewrite Z.eqb_refl. destruct (Z.eqb_spec fb 0); [mkl|].
        by rewrite Hzf, get32_zero.
      + intros bn Hb. destruct (mi_map _ _ _ _ _ I bn Hb). lia.
    - destruct (mi_ind _ _ _ _ _ I) as [Hi Hli]; [lia|]. exists ip, fb.
      assert (need (nb + 1) - need nb = 1) as Hnd.
      { unfold need. destruct (Z.ltb_spec NDIRECT (nb + 1)), (Z.ltb_spec NDIRECT nb); lia. }
      change (addr ip NDIRECT) with (addr_of ip NDIRECT). rewrite xint_id by mkl.
      destruct (Z.eqb_spec (addr_of ip NDIRECT) 0); [mkl|].
      repeat split; try mkl; try done; [by destruct ip|apply (mi_ind_ne _ _ _ _ _ I)]. }
  eexists _, ip1, (fbm + 1). split; [|apply slot_mapped; try done; mkl].
  unfold map_block, map_indirect. destruct (Z.ltb_spec nb NDIRECT); [lia|].
  rewrite (mbind_run _ _ _ _ _ Hrun). change (addr ip1 NDIRECT) with (addr_of ip1 NDIRECT).
  rewrite (xint_id (addr_of ip1 NDIRECT)) by mkl. mrun. destruct (Z.leb_spec FSSIZE (addr_of ip1 NDIRECT)); [lia|].
  pose proof (mi_none _ _ _ _ _ I nb ltac:(lia)) as Hno. rewrite <- Hs in Hno by lia. unfold fblk in Hno |- *.
  destruct (Z.ltb_spec nb NDIRECT); [lia|]. destruct (Z.eqb_spec (addr_of ip1 NDIRECT) 0); [mkl|].
  rewrite Hno, Z.eqb_refl. mrun. rewrite (xint_id fbm), put_block_eq, get32_put32, !u32_id, xint_id by mkl.
  do 2 f_equal. mkl.
Qed.
End mapping.

Lemma map_new v fb ip nb bs fi :
  minode v fb ip nb bs → nmeta ≤ fb → zero_from v fb → nb < MAXFILE → fb + need (nb + 1) - need nb ≤ FSSIZE →
  ∃ v1 ip1 fb1, map_block ip nb (Mk v FSSIZE fi fb) = Ok (ip1, fblk v1 ip1 nb) (Mk v1 FSSIZE fi fb1) ∧ mapped v fb ip nb bs v1 fb1 ip1.
Proof.
  intros I Hfb Hz Hnb Hneed. assert (Hmono : need nb + 1 ≤ need (nb + 1)).
  { unfold need. destruct (Z.ltb_spec NDIRECT (nb + 1)), (Z.ltb_spec NDIRECT nb); lia. }
  destruct (decide (nb < NDIRECT)).
  - eexists _, _, _. apply map_new_direct; try done; lia.
  - apply map_new_indirect; try done; lia.
Qed.
Lemma grown_write v fb ip nb bs part :
  minode v fb ip nb bs → zero_from v fb → let off := Z.of_nat (length bs) in
  off / BSIZE < nb → off mod BSIZE + Z.of_nat (length part) ≤ BSIZE →
  let x := fblk v ip (off / BSIZE) in
  grown v fb ip nb (put_block v x (splice (Z.to_nat (off mod BSIZE)) part (v x))) fb ip nb (bs ++ part).
Proof.
  intros I Hz off Hb Hp x. destruct (minode_write v fb ip nb bs part I Hb Hp) as [I' Ho]. fold off x in I', Ho.
  assert (Hx : mowns v ip nb x). { right. exists (off / BSIZE). split; [|done]. unfold BSIZE in *. split; [zdm|done]. }
  pose proof (mowns_range _ _ _ _ _ _ I Hx). split; [done|lia| | | |by destruct ip].
  - intros y Hy. rewrite put_block_ne by lia. by apply Hz.
  - intros y _ Hn. apply put_block_ne. by intros ->.
  - intros y Hy. left. by apply Ho.
Qed.

(** ** Appending to a file *)

Definition nbs (n : Z) : Z := (n + 511) / 512.
Abbreviation zlen l := (Z.of_nat (length l)).

Lemma need_mono a b : a ≤ b → need a ≤ need b.
Proof. intros. unfold need. destruct (Z.ltb_spec NDIRECT a), (Z.ltb_spec NDIRECT b); lia. Qed.

(** One round of the loop. *)
Lemma append_round v fb ip bs part fi :
  minode v fb ip (nbs (zlen bs)) bs → zero_from v fb → nmeta ≤ fb → let off := zlen bs in
  part ≠ [] → off mod BSIZE + zlen part ≤ BSIZE → off < MAXFILE * BSIZE →
  fb + need (nbs (off + zlen part)) - need (nbs off) ≤ FSSIZE →
  ∃ v1 ip1 fb1, map_block ip (off / BSIZE) (Mk v FSSIZE fi fb) = Ok (ip1, fblk v1 ip1 (off / BSIZE)) (Mk v1 FSSIZE fi fb1) ∧
    nmeta ≤ fblk v1 ip1 (off / BSIZE) < fb1 ∧ fb1 ≤ FSSIZE ∧
    let x := fblk v1 ip1 (off / BSIZE) in
    grown v fb ip (nbs off) (put_block v1 x (splice (Z.to_nat (off mod BSIZE)) part (v1 x))) fb1 ip1 (nbs (off + zlen part)) (bs ++ part).
Proof.
  intros I Hz Hfb off Hp Hpart Hmax Hneed. assert (Hp' : 1 ≤ zlen part) by (destruct part; [done|cbn; lia]).
  assert (Hnbs : nbs (off + zlen part) = off / BSIZE + 1) by (unfold nbs, BSIZE in *; zdm). rewrite Hnbs in *.
  assert (Hoff : 0 ≤ off / BSIZE < MAXFILE) by (change MAXFILE with 140 in *; unfold BSIZE in *; zdm).
  assert (∃ v1 ip1 fb1, map_block ip (off / BSIZE) (Mk v FSSIZE fi fb) = Ok (ip1, fblk v1 ip1 (off / BSIZE)) (Mk v1 FSSIZE fi fb1) ∧
    grown v fb ip (nbs off) v1 fb1 ip1 (off / BSIZE + 1) bs) as (v1&ip1&fb1&Hrun&G).
  { destruct (decide (off mod BSIZE = 0)) as [E|E].
    - assert (Hn : nbs off = off / BSIZE) by (unfold nbs, BSIZE in *; zdm). fold off in I. rewrite Hn in *.
      apply map_new; try done; lia.
    - assert (Hn : nbs off = off / BSIZE + 1) by (unfold nbs, BSIZE in *; zdm). fold off in I. rewrite Hn in *.
      exists v, ip, fb. split; [|by apply grown_refl]. eapply map_existing; [done|lia..]. }
  exists v1, ip1, fb1. split; [done|]. pose proof (gw_inode _ _ _ _ _ _ _ _ _ G) as I1. pose proof (gw_fb _ _ _ _ _ _ _ _ _ G).
  destruct (mi_map _ _ _ _ _ I1 (off / BSIZE)) as [Hr1 _]; [lia|].
  split; [done|]. split; [lia|]. intros x. eapply grown_trans; [exact G|].
  apply (grown_write v1 fb1 ip1 (off / BSIZE + 1) bs part I1); [apply (gw_zero _ _ _ _ _ _ _ _ _ G)|fold off; lia|done].
Qed.

Lemma iappend_loop_ok fuel p v fb ip bs fi :
  (length p < fuel)%nat → minode v fb ip (nbs (zlen bs)) bs → zero_from v fb → nmeta ≤ fb →
  zlen bs + zlen p ≤ MAXFILE * BSIZE → fb + need (nbs (zlen bs + zlen p)) - need (nbs (zlen bs)) ≤ FSSIZE →
  ∃ v' fb' ip', iappend_loop fuel p (zlen bs) ip (Mk v FSSIZE fi fb) = Ok (ip', zlen bs + zlen p) (Mk v' FSSIZE fi fb') ∧
    grown v fb ip (nbs (zlen bs)) v' fb' ip' (nbs (zlen bs + zlen p)) (bs ++ p).
Proof.
  revert p v fb ip bs. induction fuel as [|fuel IH]; intros p v fb ip bs Hf I Hz Hfb Hmax Hneed; [lia|].
  cbn [iappend_loop]. destruct (Z.leb_spec (zlen p) 0) as [H0|H0].
  { destruct p; [|cbn in H0; lia]. exists v, fb, ip. rewrite app_nil_r, Z.add_0_r. split; [done|by apply grown_refl]. }
  set (off := zlen bs) in *. set (n1 := Z.min (zlen p) ((off / BSIZE + 1) * BSIZE - off)).
  set (part := take (Z.to_nat n1) p). set (rest := drop (Z.to_nat n1) p).
  assert (Hn1 : 0 < n1 ∧ n1 ≤ zlen p ∧ off mod BSIZE + n1 ≤ BSIZE) by (unfold n1, BSIZE; zdm).
  assert (Hlp : zlen part = n1) by (unfold part; rewrite length_take; lia).
  assert (Hlr : zlen rest = zlen p - n1) by (unfold rest; rewrite length_drop; lia).
  assert (Hpr : p = part ++ rest) by (symmetry; apply take_drop).
  assert (Hm1 : need (nbs (off + n1)) ≤ need (nbs (off + zlen p))) by (apply need_mono; unfold nbs; zdm).
  assert (Hbn : off / BSIZE < MAXFILE) by (change MAXFILE with 140 in *; unfold BSIZE in *; zdm).
  destruct (Z.leb_spec MAXFILE (off / BSIZE)); [lia|].
  pose proof (append_round v fb ip bs part fi) as R. cbv zeta in R. fold off in R. rewrite Hlp in R.
  destruct R as (v1&ip1&fb1&Hrun&Hx&Hle&G); try done; try lia.
  { intros E. rewrite E in Hlp. cbn in Hlp. lia. }
  fold (map_block ip (off / BSIZE)). rewrite (mbind_run _ _ _ _ _ Hrun). mrun. set (x := fblk v1 ip1 (off / BSIZE)) in *.
  destruct (Z.leb_spec FSSIZE x); [lia|]. cbn [img img_len freeinode freeblock]. rewrite Z.max_l by lia. 
  replace (off - off / BSIZE * BSIZE) with (off mod BSIZE) by (unfold BSIZE; zdm).
  set (v2 := put_block v1 x _) in *.
  pose proof (gw_fb _ _ _ _ _ _ _ _ _ G) as [HF HFle].
  rewrite u32_id by (change MAXFILE with 140 in *; unfold is_u32, BSIZE in *; lia).
  assert (Hoff2 : off + n1 = zlen (bs ++ part)) by (rewrite length_app, Nat2Z.inj_add; lia).
  destruct (IH rest v2 fb1 ip1 (bs ++ part)) as (v'&fb'&ip'&Hr&G'); rewrite <- ?Hoff2; try lia.
  - apply G.
  - apply G.
  - replace (off + n1 + zlen rest) with (off + zlen p) by lia. lia.
  - rewrite <- Hoff2 in *. replace (off + n1 + zlen rest) with (off + zlen p) in * by lia.
    exists v', fb', ip'. split; [exact Hr|]. rewrite Hpr, app_assoc. rewrite <- Hpr. by eapply grown_trans.
Qed.

(** ** The inodes in their blocks *)

Definition inode_block (inum : Z) : Z := inum / 8 + 32.
Definition dnode (v : Z → list Z) (inum : Z) : inode := load_dinode (v (inode_block inum)) (inum mod 8 * 64) (zero_dinode inum).
Definition wview (v : Z → list Z) (inum : Z) (ip : inode) : Z → list Z :=
  put_block v (inode_block inum) (store_dinode (v (inode_block inum)) (inum mod 8 * 64) ip).

Lemma IBLOCK_sb inum : 0 ≤ inum < NINODES → IBLOCK inum sb = inode_block inum ∧ 32 ≤ inode_block inum < 58.
Proof.
  intros H. unfold NINODES in H. unfold IBLOCK, inode_block. change (inodestart sb) with 32. change IPB with 8.
  split; [apply u32_id; unfold is_u32; zdm|zdm].
Qed.
Lemma winode_run inum ip v fi fb :
  0 ≤ inum < NINODES → winode inum ip (Mk v FSSIZE fi fb) = Ok tt (Mk (wview v inum ip) FSSIZE fi fb).
Proof.
  intros H. destruct (IBLOCK_sb inum H) as [E Hr]. unfold winode. rewrite E. mrun.
  destruct (Z.leb_spec FSSIZE (inode_block inum)); [mkl|]. cbn [img img_len freeinode freeblock]. by rewrite Z.max_l by mkl.
Qed.
Lemma rinode_run inum v fi fb :
  0 ≤ inum < NINODES → rinode inum (Mk v FSSIZE fi fb) = Ok (dnode v inum) (Mk v FSSIZE fi fb).
Proof.
  intros H. destruct (IBLOCK_sb inum H) as [E Hr]. unfold rinode. rewrite E. mrun.
  by destruct (Z.leb_spec FSSIZE (inode_block inum)); [mkl|].
Qed.

Section wview.
Context (v : Z → list Z) (inum : Z) (ip : inode) (Hfit : dinode_fits ip).
Context (Hlen : length (v (inode_block inum)) = Z.to_nat BSIZE).
Lemma dnode_wview : dnode (wview v inum ip) inum = with_fields ip (zero_dinode inum).
Proof. unfold dnode, wview. rewrite put_block_eq. apply load_store_dinode; [done|zdm|]. rewrite Hlen. change (Z.of_nat (Z.to_nat BSIZE)) with 512. zdm. Qed.
Lemma dnode_wview_ne j : 0 ≤ j → j ≠ inum → dnode (wview v inum ip) j = dnode v j.
Proof.
  intros Hj Hne. unfold dnode, wview. destruct (decide (inode_block j = inode_block inum)) as [E|E]; [|by rewrite put_block_ne].
  rewrite E, put_block_eq. unfold inode_block in E. apply load_store_other; [apply Hfit|zdm| |zdm|zdm].
  rewrite Hlen. change (Z.of_nat (Z.to_nat BSIZE)) with 512. zdm.
Qed.
Lemma length_wview b : length (v b) = Z.to_nat BSIZE → length (wview v inum ip b) = Z.to_nat BSIZE.
Proof.
  intros Hb. unfold wview, put_block. destruct (b =? _); [|done].
  assert (inum mod 8 * 64 + 64 ≤ 512 ∧ 0 ≤ inum mod 8 * 64) as [? ?] by zdm. pose proof (df_addrs _ Hfit) as Ha.
  rewrite store_dinode_splice; [|done|done|rewrite Hlen; done].
  rewrite length_splice; [done|]. rewrite length_dinode_bytes, Hlen by done. change (Z.to_nat BSIZE) with 512%nat. lia.
Qed.
Lemma wview_other b : b ≠ inode_block inum → wview v inum ip b = v b.
Proof. apply put_block_ne. Qed.
End wview.

Lemma minode_ext v fb ip ip' nb bs : i_addrs ip' = i_addrs ip → minode v fb ip nb bs → minode v fb ip' nb bs.
Proof. destruct ip, ip'. cbn. intros -> []. by split. Qed.
Lemma mowns_ext v ip ip' nb y : i_addrs ip' = i_addrs ip → mowns v ip' nb y → mowns v ip nb y.
Proof. destruct ip, ip'. cbn. by intros ->. Qed.
Lemma minode_fits v fb ip nb bs : minode v fb ip nb bs → fb ≤ FSSIZE → Forall is_u32 (i_addrs ip).
Proof.
  intros I Hfb. pose proof (mi_nb _ _ _ _ _ I) as [Hn _]. apply Forall_lookup_2. intros k x Hx.
  pose proof (lookup_lt_Some _ _ _ Hx) as Hk. rewrite (mi_addrs _ _ _ _ _ I) in Hk.
  assert (Ha : addr_of ip (Z.of_nat k) = x) by (unfold addr_of; rewrite Nat2Z.id; by apply nth_lookup_Some).
  rewrite <- Ha. destruct (decide (Z.of_nat k < NDIRECT)) as [Hd|Hd].
  - assert (fblk v ip (Z.of_nat k) = addr_of ip (Z.of_nat k)) as <- by (unfold fblk; destruct (Z.ltb_spec (Z.of_nat k) NDIRECT); [done|lia]).
    destruct (decide (Z.of_nat k < nb)).
    + destruct (mi_map _ _ _ _ _ I (Z.of_nat k)); [lia|]. mkl.
    + rewrite (mi_none _ _ _ _ _ I) by mkl. done.
  - replace (Z.of_nat k) with NDIRECT by mkl. destruct (decide (NDIRECT < nb)).
    + destruct (mi_ind _ _ _ _ _ I); [done|]. mkl.
    + rewrite (mi_noind _ _ _ _ _ I) by lia. done.
Qed.
