(* ===== verification/MkfsImage.v ===== *)
(** * The whole image

    [image s fs] is the invariant of [main]: the image of [s] holds the files
    [fs], with the inode numbers from 1 on, in disjoint blocks.  It is
    preserved by [ialloc] and [iappend]; the last theorem says what the kernel
    relies on when it mounts the image. *)

From S2P Require Import Prelude Params CString Cprintf Sleeplock Blocks Bio Log LogThms Fs BlockLaws FsBlocks FsFile FsWrite FsThms Dinode Mkfs MkfsThms.

(** A file: its type and its contents. *)
Abbreviation mfile := (Z * list Z)%type.
Definition fneed (f : mfile) : Z := need (nbs (zlen f.2)).
Fixpoint total (fs : list mfile) : Z := match fs with [] => 0 | f :: fs' => fneed f + total fs' end.
Definition num (k : nat) : Z := Z.of_nat k + 1.
Abbreviation fowns v k f := (mowns v (dnode v (num k)) (nbs (zlen f.2))).

Record fnode (v : Z → list Z) (fb : Z) (k : nat) (f : mfile) : Prop := {
  fn_type : i_type (dnode v (num k)) = f.1;
  fn_nlink : i_nlink (dnode v (num k)) = 1;
  fn_major : i_major (dnode v (num k)) = 0;
  fn_minor : i_minor (dnode v (num k)) = 0;
  fn_size : i_size (dnode v (num k)) = zlen f.2;
  fn_inode : minode v fb (dnode v (num k)) (nbs (zlen f.2)) f.2;
}.

Definition sb_block : list Z := sb_bytes sb ++ replicate (Z.to_nat (BSIZE - 28)) 0.
Record head_ok (v : Z → list Z) : Prop := {
  hd_boot : v 0 = zero_block;
  hd_sb : v 1 = sb_block;
  hd_log b : 2 ≤ b < 32 → v b = zero_block;
  hd_inodes b : 32 ≤ b < 58 → length (v b) = Z.to_nat BSIZE;
}.
Record image (v : Z → list Z) (fb : Z) (fs : list mfile) : Prop := {
  im_num : zlen fs < NINODES;
  im_fb : fb = nmeta + total fs ∧ nmeta ≤ fb ≤ FSSIZE;
  im_zero : zero_from v fb;
  im_head : head_ok v;
  im_type k f : fs !! k = Some f → -32768 ≤ f.1 < 32768;
  im_file k f : fs !! k = Some f → fnode v fb k f;
  im_apart k k' f f' y : k ≠ k' → fs !! k = Some f → fs !! k' = Some f' → fowns v k f y → ¬ fowns v k' f' y;
}.

Lemma total_app fs fs' : total (fs ++ fs') = total fs + total fs'.
Proof. induction fs as [|f fs IH]; [done|]. cbn [app total]. lia. Qed.
Lemma total_insert fs k f f' : fs !! k = Some f → total (<[k := f']> fs) = total fs + fneed f' - fneed f.
Proof.
  revert k. induction fs as [|g fs IH]; intros k Hk; [done|]. destruct k as [|k]; [injection Hk as ->; cbn [insert list_insert total]; lia|].
  change (<[S k := f']> (g :: fs)) with (g :: <[k := f']> fs). cbn [total]. rewrite (IH k Hk). lia.
Qed.
Lemma need_nonneg n : 0 ≤ n → 0 ≤ need n.
Proof. intros. unfold need. destruct (NDIRECT <? n); lia. Qed.
Lemma fneed_nonneg f : 0 ≤ fneed f.
Proof. apply need_nonneg. unfold nbs. zdm. Qed.
Lemma total_size_nonneg fs : 0 ≤ total fs.
Proof. induction fs as [|f fs IH]; [done|]. cbn [total]. pose proof (fneed_nonneg f). lia. Qed.

(** ** Changes of the inode blocks *)

(** The files other than [k] are as they were, where their inodes and their blocks are. *)
Lemma fnode_frame v v' fb fb' k f :
  fnode v fb k f → fb ≤ fb' → dnode v' (num k) = dnode v (num k) → (∀ y, fowns v k f y → v' y = v y) →
  fnode v' fb' k f ∧ ∀ y, fowns v' k f y → fowns v k f y.
Proof.
  intros [H1 H2 H3 H4 H5 H6] Hfb Hd Hv. split.
  - split; rewrite Hd; try done. by eapply minode_frame.
  - intros y. rewrite Hd. by apply (frame_mowns v v' fb _ _ _ H6 Hv).
Qed.

Section step.
Context (v : Z → list Z) (fb : Z) (fs : list mfile) (Im : image v fb fs).

Lemma fnode_owns k f y : fs !! k = Some f → fowns v k f y → nmeta ≤ y < fb.
Proof. intros Hk Ho. by eapply mowns_range; [apply (im_file _ _ _ Im k f Hk)|]. Qed.

(** [v'] is [v] with a change of the blocks of file [k] and of its inode: [f] becomes [f']. *)
Lemma image_change v' fb' k f' fs' :
  (∀ j, j ≠ k → fs' !! j = fs !! j) → fs' !! k = Some f' → zlen fs' < NINODES → -32768 ≤ f'.1 < 32768 →
  fb' = nmeta + total fs' → fb ≤ fb' ≤ FSSIZE → zero_from v' fb' → head_ok v' →
  fnode v' fb' k f' →
  (∀ j f, j ≠ k → fs !! j = Some f → dnode v' (num j) = dnode v (num j)) →
  (∀ j f y, j ≠ k → fs !! j = Some f → fowns v j f y → v' y = v y ∧ ¬ fowns v' k f' y) →
  image v' fb' fs'.
Proof.
  intros Hfs Hk Hn Ht Hfb Hle Hz Hh Hf Hd Ho. pose proof (im_fb _ _ _ Im) as [_ Hr].
  assert (Hj : ∀ j f, j ≠ k → fs' !! j = Some f → fnode v' fb' j f ∧ ∀ y, fowns v' j f y → fowns v j f y).
  { intros j f Hj Hl. rewrite Hfs in Hl by done. apply (fnode_frame v v' fb); [by apply (im_file _ _ _ Im)|lia|by eapply Hd|].
    intros y Hy. by destruct (Ho j f y Hj Hl Hy). }
  split; try done.
  - lia.
  - intros j f Hl. destruct (decide (j = k)) as [->|]; [by replace f with f' by congruence|]. rewrite Hfs in Hl by done. by eapply (im_type _ _ _ Im).
  - intros j f Hl. destruct (decide (j = k)) as [->|]; [by replace f with f' by congruence|]. by apply Hj.
  - intros j j' f1 f2 y Hjj Hl Hl' H1 H2. destruct (decide (j = k)) as [->|Nj].
    + replace f1 with f' in * by congruence. rewrite Hfs in Hl' by done. destruct (Ho j' f2 y) as [_ Hno]; try done. apply Hj; [done|by rewrite Hfs|done].
    + rewrite Hfs in Hl by done. assert (H1' : fowns v j f1 y) by (apply Hj; [done|by rewrite Hfs|done]).
      destruct (decide (j' = k)) as [->|Nj'].
      * replace f2 with f' in * by congruence. by destruct (Ho j f1 y Nj Hl H1') as [_ Hno].
      * rewrite Hfs in Hl' by done. assert (fowns v j' f2 y) by (apply Hj; [done|by rewrite Hfs|done]).
        by eapply (im_apart _ _ _ Im j j').
Qed.
End step.

Lemma head_wview v v1 inum ip :
  head_ok v → (∀ y, y < nmeta → v1 y = v y) → dinode_fits ip → 0 ≤ inum < NINODES → head_ok (wview v1 inum ip).
Proof.
  intros [H0 H1 H2 H3] Hv Hf Hi. destruct (IBLOCK_sb inum Hi) as [_ Hr].
  split; try (intros; rewrite wview_other by lia; rewrite Hv by mkl; auto).
  intros b Hb. apply length_wview; [done|rewrite Hv by mkl; auto|rewrite Hv by mkl; auto].
Qed.
Lemma wview_high v inum ip y : 0 ≤ inum < NINODES → nmeta ≤ y → wview v inum ip y = v y.
Proof. intros Hi Hy. destruct (IBLOCK_sb inum Hi) as [_ Hr]. apply wview_other. mkl. Qed.
Lemma dnode_low v v1 inum : 0 ≤ inum < NINODES → (∀ y, y < nmeta → v1 y = v y) → dnode v1 inum = dnode v inum.
Proof. intros Hi Hv. destruct (IBLOCK_sb inum Hi) as [_ Hr]. unfold dnode. by rewrite Hv by mkl. Qed.
Lemma num_range k (fs : list mfile) f : fs !! k = Some f → zlen fs < NINODES → 0 ≤ num k < NINODES.
Proof. intros Hk Hn. apply lookup_lt_Some in Hk. unfold num. lia. Qed.

Section ops.
Context (v : Z → list Z) (fb fi : Z) (fs : list mfile) (Im : image v fb fs).

Section append.
Context (k : nat) (t : Z) (bs p : list Z) (Hk : fs !! k = Some (t, bs)).
Context (v1 : Z → list Z) (fb1 : Z) (ip1 : inode) (Hmax : zlen bs + zlen p ≤ MAXFILE * BSIZE) (Hfb1 : fb1 ≤ FSSIZE).
Context (G : grown v fb (dnode v (num k)) (nbs (zlen bs)) v1 fb1 ip1 (nbs (zlen bs + zlen p)) (bs ++ p)).
Let ip2 := set_size (zlen bs + zlen p) ip1.

Lemma append_low y : y < nmeta → v1 y = v y.
Proof.
  intros Hy. pose proof (im_fb _ _ _ Im). apply (gw_frame _ _ _ _ _ _ _ _ _ G); [lia|]. intros Ho.
  apply (fnode_owns v fb fs Im k (t, bs)) in Ho; [lia|done].
Qed.
Lemma append_fits : dinode_fits ip2.
Proof.
  destruct (im_file _ _ _ Im k _ Hk) as [H1 H2 H3 H4 H5 H6]. pose proof (gw_ip _ _ _ _ _ _ _ _ _ G) as E.
  pose proof (gw_inode _ _ _ _ _ _ _ _ _ G) as I1. pose proof (im_type _ _ _ Im k _ Hk) as Ht. unfold ip2.
  assert (i_type ip1 = t ∧ i_nlink ip1 = 1 ∧ i_major ip1 = 0 ∧ i_minor ip1 = 0) as (E1&E2&E3&E4) by (rewrite E; done).
  split; cbn [set_size i_type i_nlink i_major i_minor i_size i_addrs]; rewrite ?E1, ?E2, ?E3, ?E4; try done.
  - split; [lia|]. mkl.
  - apply I1.
  - by eapply minode_fits.
Qed.
Lemma append_dnode : dnode (wview v1 (num k) ip2) (num k) = with_fields ip2 (zero_dinode (num k)).
Proof.
  pose proof (num_range k fs _ Hk (im_num _ _ _ Im)) as Hn. destruct (IBLOCK_sb _ Hn) as [_ Hr].
  apply dnode_wview; [apply append_fits|]. rewrite append_low by mkl. apply (im_head _ _ _ Im). lia.
Qed.
Lemma append_image : image (wview v1 (num k) ip2) fb1 (<[k := (t, bs ++ p)]> fs).
Proof.
  pose proof (num_range k fs _ Hk (im_num _ _ _ Im)) as Hn. destruct (IBLOCK_sb _ Hn) as [_ Hr].
  pose proof (im_fb _ _ _ Im) as [Hfb Hfbr]. pose proof (gw_fb _ _ _ _ _ _ _ _ _ G) as [HF HFle].
  destruct (im_file _ _ _ Im k _ Hk) as [H1 H2 H3 H4 H5 H6]. pose proof (gw_ip _ _ _ _ _ _ _ _ _ G) as E.
  assert (E1 : i_type ip1 = t ∧ i_nlink ip1 = 1 ∧ i_major ip1 = 0 ∧ i_minor ip1 = 0) by (rewrite E; done).
  assert (Hl2 : zlen (bs ++ p) = zlen bs + zlen p) by (rewrite length_app; lia).
  pose proof (gw_inode _ _ _ _ _ _ _ _ _ G) as I1.
  assert (Hhigh : ∀ y, mowns v1 ip1 (nbs (zlen bs + zlen p)) y → wview v1 (num k) ip2 y = v1 y).
  { intros y Hy. apply wview_high; [done|]. by eapply (mowns_range _ _ _ _ _ _ I1) in Hy as [? _]. }
  apply (image_change v fb fs Im _ fb1 k (t, bs ++ p)).
  - intros j Hj. by apply list_lookup_insert_ne.
  - apply list_lookup_insert_eq. by eapply lookup_lt_Some.
  - rewrite length_insert. apply Im.
  - by apply (im_type _ _ _ Im k _ Hk).
  - rewrite (total_insert _ _ _ _ Hk). unfold fneed. cbn [snd]. rewrite Hl2. lia.
  - lia.
  - intros y Hy. rewrite wview_high by (done || lia). by apply G.
  - apply (head_wview v); [apply Im|apply append_low|apply append_fits|done].
  - split; rewrite append_dnode; try tauto; cbn [snd]; rewrite ?Hl2; [done|].
    apply (minode_ext _ _ ip1); [done|]. apply (minode_frame v1 _ fb1); [done|exact Hhigh|lia].
  - intros j f Hj Hl. pose proof (num_range j fs _ Hl (im_num _ _ _ Im)).
    rewrite dnode_wview_ne; [|apply append_fits|rewrite append_low by mkl; apply (im_head _ _ _ Im); lia|lia|unfold num; lia].
    apply dnode_low; [done|apply append_low].
  - intros j f y Hj Hl Hy. pose proof (fnode_owns v fb fs Im j f y Hl Hy) as Hyr.
    assert (Hno : ¬ mowns v (dnode v (num k)) (nbs (zlen bs)) y) by (eapply (im_apart _ _ _ Im j k f (t, bs)); done).
    split; [rewrite wview_high by (done || lia); apply G; [lia|done]|].
    cbn [snd]. rewrite append_dnode, Hl2. intros Ho. apply (mowns_ext _ ip1) in Ho; [|done].
    apply (frame_mowns v1 _ fb1 _ _ _ I1 Hhigh) in Ho. apply G in Ho as [?|?]; [done|lia].
Qed.
End append.

Lemma iappend_ok k t bs p :
  fs !! k = Some (t, bs) → zlen bs + zlen p ≤ MAXFILE * BSIZE → fb + need (nbs (zlen bs + zlen p)) - need (nbs (zlen bs)) ≤ FSSIZE →
  ∃ v' fb', iappend (num k) p (Mk v FSSIZE fi fb) = Ok tt (Mk v' FSSIZE fi fb') ∧ image v' fb' (<[k := (t, bs ++ p)]> fs).
Proof.
  intros Hk Hmax Hneed. pose proof (num_range k fs _ Hk (im_num _ _ _ Im)) as Hn.
  destruct (im_file _ _ _ Im k _ Hk) as [_ _ _ _ Hs Hi]. pose proof (im_fb _ _ _ Im) as [_ Hfb]. cbn [snd] in *.
  destruct (iappend_loop_ok (S (length p)) p v fb (dnode v (num k)) bs fi) as (v1&fb1&ip1&Hrun&G); try done; [lia|apply Im|lia|].
  pose proof (gw_fb _ _ _ _ _ _ _ _ _ G).
  eexists _, fb1. split; [|eapply append_image; [exact Hk|exact Hmax|lia|exact G]].
  unfold iappend. rewrite (mbind_run _ _ _ _ _ (rinode_run _ v fi fb Hn)), Hs, xint_id by mkl.
  rewrite (mbind_run _ _ _ _ _ Hrun), xint_id by mkl. by apply winode_run.
Qed.

Lemma zero_minode w c inum : nmeta ≤ c → minode w c (zero_dinode inum) 0 [].
Proof.
  intros Hc. assert (Ha : ∀ j, addr_of (zero_dinode inum) j = 0).
  { intros j. unfold addr_of. cbn [zero_dinode i_addrs]. rewrite nth_lookup. destruct (_ !! _) eqn:E; [|done]. by apply lookup_replicate in E as [-> _]. }
  split; try done; try (intros; cbn [length] in *; lia).
  - intros bn Hb. unfold fblk. rewrite !Ha. by destruct (bn <? NDIRECT).
Qed.
Lemma ialloc_ok t :
  zlen fs + 1 < NINODES → 0 ≤ t < 32768 → fi = zlen fs + 1 →
  ∃ v', ialloc t (Mk v FSSIZE fi fb) = Ok fi (Mk v' FSSIZE (fi + 1) fb) ∧ image v' fb (fs ++ [(t, [])]).
Proof.
  intros Hn Ht Hfi. pose proof (im_fb _ _ _ Im) as [Hfb Hfbr]. set (k := length fs).
  assert (Hk : num k = fi) by (unfold num; lia). assert (Hir : 0 ≤ num k < NINODES) by (unfold num; lia).
  destruct (IBLOCK_sb _ Hir) as [_ Hr].
  assert (Hxs : xshort t = t).
  { change (xshort t) with (u8 t + 256 * u8 (t / 256)). unfold u8. zdm. }
  set (din := set_size 0 (set_nlink 1 (set_type t (zero_dinode (num k))))).
  assert (Hfit : dinode_fits din) by (split; try done; cbn; [lia|]; by repeat constructor).
  assert (Hlen : length (v (inode_block (num k))) = Z.to_nat BSIZE) by (apply (im_head _ _ _ Im); lia).
  assert (Hdn : dnode (wview v (num k) din) (num k) = with_fields din (zero_dinode (num k))) by (by apply dnode_wview).
  exists (wview v (num k) din). split.
  - unfold ialloc. unfold next_inode. mrun. change (xint 0) with 0. change (xshort 1) with 1. rewrite Hxs, <- Hk. fold din.
    rewrite winode_run by done. by rewrite u32_id by (unfold NINODES in *; mkl).
  - apply (image_change v fb fs Im _ fb k (t, [])).
    + intros j Hj. destruct (decide (j < k)%nat); [by apply lookup_app_l|].
      rewrite (lookup_ge_None_2 fs) by (unfold k in *; lia). apply lookup_ge_None_2. rewrite length_app. cbn. unfold k in *. lia.
    + rewrite lookup_app_r by done. unfold k. by rewrite Nat.sub_diag.
    + rewrite length_app. cbn. lia.
    + cbn. lia.
    + rewrite total_app. change (total [(t, [])]) with 0. lia.
    + lia.
    + intros y Hy. rewrite wview_high by (done || lia). by apply (im_zero _ _ _ Im).
    + apply (head_wview v); [apply Im|done|done|done].
    + split; rewrite ?Hdn; try done. apply (minode_ext _ _ (zero_dinode 0)); [done|]. apply zero_minode. lia.
    + intros j f Hj Hl. apply dnode_wview_ne; try done; unfold num; lia.
    + intros j f y Hj Hl Hy. pose proof (fnode_owns v fb fs Im j f y Hl Hy). split; [apply wview_high; [done|lia]|].
      cbn [snd]. intros [[? _]|(bn&?&_)]; change (nbs (zlen [])) with 0 in *; [mkl|lia].
Qed.
End ops.

(** ** The files *)

Definition fits (f : list Z) : Prop := zlen f ≤ MAXFILE * BSIZE.

Lemma fneed_mono t t' a b : (length a ≤ length b)%nat → fneed (t, a) ≤ fneed (t', b).
Proof. intros. apply need_mono. unfold nbs. cbn [snd]. zdm. Qed.

Lemma append_all_ok parts k t bs v fb fi fs :
  image v fb fs → fs !! k = Some (t, bs) → fits (bs ++ concat parts) → nmeta + total (<[k := (t, bs ++ concat parts)]> fs) ≤ FSSIZE →
  ∃ v' fb', append_all (num k) parts (Mk v FSSIZE fi fb) = Ok tt (Mk v' FSSIZE fi fb') ∧ image v' fb' (<[k := (t, bs ++ concat parts)]> fs).
Proof.
  revert bs v fb fs. induction parts as [|p parts IH]; intros bs v fb fs Im Hk Hfit Htot.
  { exists v, fb. cbn [concat] in *. rewrite app_nil_r, list_insert_id by done. done. }
  cbn [concat] in *. rewrite app_assoc in *.
  pose proof (im_fb _ _ _ Im) as [Hfb _]. pose proof (lookup_lt_Some _ _ _ Hk) as Hlt.
  pose proof (fneed_mono t t (bs ++ p) ((bs ++ p) ++ concat parts) ltac:(rewrite !length_app; lia)) as Hm.
  assert (Hl2 : zlen (bs ++ p) = zlen bs + zlen p) by (rewrite length_app; lia).
  rewrite (total_insert _ _ _ _ Hk) in Htot.
  destruct (iappend_ok v fb fi fs Im k t bs p Hk) as (v1&fb1&Hrun&Im1).
  { unfold fits in Hfit. rewrite length_app in Hfit. lia. }
  { unfold fneed in *. cbn [snd] in *. rewrite Hl2 in Hm. lia. }
  cbn [append_all]. rewrite (mbind_run _ _ _ _ _ Hrun).
  destruct (IH (bs ++ p) v1 fb1 _ Im1) as (v2&fb2&Hrun2&Im2); [by apply list_lookup_insert_eq|done| |].
  { rewrite list_insert_insert_eq, (total_insert _ _ _ _ Hk). lia. }
  exists v2, fb2. by rewrite list_insert_insert_eq in Im2.
Qed.

(** The entries of the root directory for the files, whose inodes are numbered from [inum] on. *)
Fixpoint dirents (inum : Z) (files : list (list Z * list (list Z))) : list Z :=
  match files with [] => [] | f :: files' => dirent inum (strip f.1) ++ dirents (inum + 1) files' end.
Definition file_of (f : list Z * list (list Z)) : mfile := (T_FILE, concat f.2).

Lemma length_dirent inum name : length (dirent inum name) = 16%nat.
Proof. unfold dirent. rewrite length_app, length_padded. done. Qed.
Lemma length_dirents inum files : length (dirents inum files) = (16 * length files)%nat.
Proof. revert inum. induction files as [|f files IH]; intros inum; [done|]. cbn [dirents length]. rewrite length_app, length_dirent, IH. lia. Qed.

Lemma cons_snoc_lookup {A} (a : A) l x : (a :: (l ++ [x])) !! length (a :: l) = Some x.
Proof. change ((l ++ [x]) !! length l = Some x). by apply list_lookup_middle. Qed.
Lemma cons_snoc_insert {A} (a : A) l x y : <[length (a :: l) := y]> (a :: (l ++ [x])) = a :: (l ++ [y]).
Proof. change (a :: <[length l := y]> (l ++ [x]) = a :: (l ++ [y])). f_equal. rewrite insert_app_r_alt by done. by rewrite Nat.sub_diag. Qed.

Lemma add_files_ok files rb l v fb fi :
  image v fb ((T_DIR, rb) :: l) → fi = zlen ((T_DIR, rb) :: l) + 1 → zlen ((T_DIR, rb) :: l) + zlen files < NINODES →
  (∀ f, f ∈ files → (47 ∉ f.1) ∧ fits (concat f.2)) → fits (rb ++ dirents fi files) →
  let fs' := (T_DIR, rb ++ dirents fi files) :: (l ++ (file_of <$> files)) in
  nmeta + total fs' ≤ FSSIZE →
  ∃ v' fb', add_files ROOTINO files (Mk v FSSIZE fi fb) = Ok tt (Mk v' FSSIZE (fi + zlen files) fb') ∧ image v' fb' fs'.
Proof.
  revert rb l v fb fi. induction files as [|[name parts] files IH]; intros rb l v fb fi Im Hfi Hn Hall Hroot fs' Htot.
  { unfold fs'. cbn [dirents fmap list_fmap]. rewrite !app_nil_r, Z.add_0_r. by exists v, fb. }
  destruct (Hall (name, parts) ltac:(by left)) as [Hname Hfile]. cbn [fst snd] in *. cbn [length] in Hfi, Hn.
  cbn [add_files]. rewrite bool_decide_eq_false_2 by done. set (k := length ((T_DIR, rb) :: l)).
  set (d := dirent fi (strip name)). cbn [dirents fst] in Hroot. fold d in Hroot.
  assert (Htot' : nmeta + (fneed (T_DIR, (rb ++ d) ++ dirents (fi + 1) files) + (total l + (fneed (T_FILE, concat parts) + total (file_of <$> files)))) ≤ FSSIZE).
  { revert Htot. unfold fs'. cbn [dirents fst]. fold d. cbn [total]. rewrite total_app, app_assoc. cbn [fmap list_fmap total]. done. }
  clear Htot. pose proof (total_size_nonneg (file_of <$> files)). pose proof (fneed_nonneg (T_FILE, concat parts)).
  pose proof (fneed_mono T_DIR T_DIR (rb ++ d) ((rb ++ d) ++ dirents (fi + 1) files) ltac:(rewrite !length_app; lia)) as Hm.
  destruct (ialloc_ok v fb fi _ Im T_FILE) as (v1&Hrun1&Im1); [cbn [length]; lia|done|cbn [length]; lia|].
  rewrite (mbind_run _ _ _ _ _ Hrun1). change (image v1 fb ((T_DIR, rb) :: (l ++ [(T_FILE, [])]))) in Im1.
  pose proof (im_fb _ _ _ Im1) as [Hfb1 _]. cbn [total] in Hfb1. rewrite total_app in Hfb1. change (total [(T_FILE, [])]) with 0 in Hfb1.
  assert (Hld : zlen (rb ++ d) = zlen rb + zlen d) by (rewrite length_app; lia).
  destruct (iappend_ok v1 fb (fi + 1) _ Im1 0 T_DIR rb d eq_refl) as (v2&fb2&Hrun2&Im2).
  { unfold fits in Hroot. rewrite !length_app in Hroot. lia. }
  { unfold fneed in *. cbn [snd] in *. rewrite Hld in Hm. lia. }
  change ROOTINO with (num 0). rewrite (mbind_run _ _ _ _ _ Hrun2).
  change (image v2 fb2 ((T_DIR, rb ++ d) :: (l ++ [(T_FILE, [])]))) in Im2.
  pose proof (cons_snoc_lookup (T_DIR, rb ++ d) l (T_FILE, [])) as Hlk.
  pose proof (cons_snoc_insert (T_DIR, rb ++ d) l (T_FILE, [])) as Hins.
  change (length ((T_DIR, rb ++ d) :: l)) with k in Hlk, Hins.
  assert (Hnk : num k = fi) by (unfold num, k; cbn [length]; lia).
  destruct (append_all_ok parts k T_FILE [] v2 fb2 (fi + 1) _ Im2 Hlk Hfile) as (v3&fb3&Hrun3&Im3).
  { rewrite Hins. cbn [total app]. rewrite total_app. cbn [total]. lia. }
  rewrite Hnk in Hrun3. rewrite (mbind_run _ _ _ _ _ Hrun3). rewrite Hins in Im3. cbn [app] in Im3.
  destruct (IH (rb ++ d) (l ++ [(T_FILE, concat parts)]) v3 fb3 (fi + 1) Im3) as (v4&fb4&Hrun4&Im4).
  - cbn [length]. rewrite length_app. cbn. lia.
  - cbn [length]. rewrite length_app. cbn [length]. lia.
  - intros f Hf. apply Hall. by right.
  - by rewrite <- app_assoc.
  - cbn [total]. rewrite !total_app. cbn [total]. lia.
  - exists v4, fb4. change (num 0) with ROOTINO. rewrite Hrun4. split; [do 2 f_equal; cbn [length]; lia|].
    unfold fs'. cbn [dirents fst fmap list_fmap]. fold d. rewrite <- !app_assoc in Im4. exact Im4.
Qed.

(** ** What the kernel finds *)

Definition img_geo : bgeo := BGeo FSSIZE 2 nlog.
(** Inode [inum] is a file of type [t] with the contents [bs], as [readi] and [writei] need it. *)
Record file_is (v : Z → list Z) (inum t : Z) (bs : list Z) : Prop := {
  fs_type : i_type (dnode v inum) = t;
  fs_nlink : i_nlink (dnode v inum) = 1;
  fs_file : file_ok img_geo sb nmeta v (dnode v inum);
  fs_ino : ino_ok img_geo sb nmeta v (dnode v inum);
  fs_content : content v (dnode v inum) = bs;
}.

Lemma sb_eq : sb = Superblock 1000 941 200 30 2 32 58.
Proof. by vm_compute. Qed.
Lemma img_bmapblk b : 0 ≤ b < FSSIZE → bmapblk sb b = 58.
Proof. intros Hb. change FSSIZE with 1000 in Hb. rewrite sb_eq. unfold bmapblk. cbn [bmapstart]. change BPB with 4096. by rewrite Z.div_small by lia. Qed.
Lemma img_layout : layout img_geo sb nmeta.
Proof.
  split; cbn [g_size img_geo]; change FSSIZE with 1000.
  - rewrite sb_eq. split; cbn [g_size img_geo sb_size bmapstart]; unfold BPB, BSIZE; try done; try lia.
    intros b' Hb. change FSSIZE with 1000 in Hb. rewrite Z.div_small by lia. unfold home. cbn [g_size g_start g_nlog img_geo]. change nlog with 30. mkl.
  - mkl.
  - intros b' Hb. rewrite img_bmapblk by done. mkl.
  - intros b' Hb. unfold home. cbn [g_size g_start g_nlog img_geo]. change nlog with 30. mkl.
Qed.

Lemma byte_at_pad bs n k : byte_at (bs ++ replicate n 0) k = byte_at bs k ∨ k < 0.
Proof.
  destruct (decide (k < 0)); [by right|left]. rewrite byte_at_app by lia. destruct (Z.ltb_spec k (zlen bs)); [done|].
  rewrite (byte_at_ge bs) by done. unfold byte_at. rewrite nth_lookup. destruct (_ !! _) eqn:E; [|done]. by apply lookup_replicate in E as [-> _].
Qed.

Section mounted.
Context (v : Z → list Z) (fb : Z) (Hfb : fb ≤ FSSIZE) (Hused : ∀ b, 0 ≤ b < FSSIZE → used sb v b = (b <? fb)).

Lemma minode_content ip nb bs :
  minode v fb ip nb bs → zlen bs ≤ i_size ip ≤ nb * BSIZE →
  content v ip = bs ++ replicate (Z.to_nat (i_size ip - zlen bs)) 0.
Proof.
  intros I Hs. apply (nth_ext _ _ 0 0).
  { unfold content. rewrite length_fbytes, length_app, length_replicate. lia. }
  intros k Hk. unfold content in *. rewrite length_fbytes in Hk.
  pose proof (byte_at_fbytes v ip 0 (i_size ip) (Z.of_nat k) ltac:(lia)) as E1. rewrite Z.add_0_l, (mi_bytes _ _ _ _ _ I) in E1 by lia.
  destruct (byte_at_pad bs (Z.to_nat (i_size ip - zlen bs)) (Z.of_nat k)) as [E2|?]; [|lia].
  unfold byte_at in *. rewrite Nat2Z.id in *. by rewrite E1, E2.
Qed.
Lemma minode_data ip nb bs x : minode v fb ip nb bs → mowns v ip nb x → data_ok img_geo sb nmeta v x.
Proof.
  intros I Ho. pose proof (mowns_range _ _ _ _ _ _ I Ho) as Hr. split; cbn [g_size img_geo].
  - lia.
  - rewrite Hused by mkl. apply Z.ltb_lt. lia.
  - destruct Ho as [[Hn ->]|(bn&Hb&->)]; [by apply (mi_ind _ _ _ _ _ I)|by apply (mi_map _ _ _ _ _ I)].
Qed.
Lemma minode_mapped ip nb bs bn : minode v fb ip nb bs → 0 ≤ bn < MAXFILE → fblk v ip bn ≠ 0 → bn < nb.
Proof. intros I Hb Hn. destruct (decide (bn < nb)); [done|]. by rewrite (mi_none _ _ _ _ _ I) in Hn by lia. Qed.
Lemma minode_file ip nb bs :
  minode v fb ip nb bs → i_dev ip = 1 → 0 ≤ i_size ip ≤ nb * BSIZE → file_ok img_geo sb nmeta v ip.
Proof.
  intros I Hd Hs. pose proof I as [H1 H2 H3 H4 H5 H6 H7 H8 H9]. split; try done.
  - unfold BSIZE in *. lia.
  - intros bn Hb Hn. eapply minode_data; [exact I|]. right. exists bn. split; [|done]. split; [lia|]. by eapply minode_mapped.
  - intros Hn. eapply minode_data; [exact I|]. left. split; [|done]. destruct (decide (NDIRECT < nb)); [done|]. by rewrite H6 in Hn by lia.
  - intros bn Hb Hl. destruct (H3 bn) as [Hr _]; [unfold BSIZE in *; lia|]. mkl.
  - intros bn bn' Hb Hb' Hn E. pose proof (minode_mapped _ _ _ bn I Hb Hn). rewrite E in Hn.
    pose proof (minode_mapped _ _ _ bn' I Hb' Hn). apply H7; [lia..|done].
  - intros bn Hb Hn. apply H8. split; [lia|]. by eapply minode_mapped.
Qed.
Lemma minode_owns ip nb bs x : minode v fb ip nb bs → FsWrite.owns v ip x → mowns v ip nb x.
Proof.
  intros I [Hx [->|(bn&Hb&->)]].
  - left. split; [|done]. destruct (decide (NDIRECT < nb)); [done|]. by rewrite (mi_noind _ _ _ _ _ I) in Hx by lia.
  - right. exists bn. split; [|done]. split; [lia|]. by eapply minode_mapped.
Qed.
Lemma dnode_ino inum : 0 ≤ inum < NINODES → length (v (inode_block inum)) = Z.to_nat BSIZE → ino_ok img_geo sb nmeta v (dnode v inum).
Proof.
  intros Hi Hl. destruct (IBLOCK_sb inum Hi) as [_ Hr].
  assert (E : FsWrite.iblk sb (dnode v inum) = inode_block inum).
  { rewrite sb_eq. unfold FsWrite.iblk, inode_block, dnode. cbn. change IPB with 8. lia. }
  split; rewrite ?E; try done.
  - cbn. lia.
  - unfold home. cbn [g_size g_start g_nlog img_geo]. change nlog with 30. mkl.
  - mkl.
  - intros (b&Hb&Eb). cbn in Hb. rewrite img_bmapblk in Eb by done. lia.
Qed.
End mounted.

(** ** The end of the program *)

Lemma balloc_loop_bit n i buf b :
  length buf = Z.to_nat BSIZE → 0 ≤ i → i + Z.of_nat n ≤ BPB → 0 ≤ b →
  length (balloc_loop n i buf) = Z.to_nat BSIZE ∧
  bit (balloc_loop n i buf) b = ((i <=? b) && (b <? i + Z.of_nat n)) || bit buf b.
Proof.
  revert i buf. induction n as [|n IH]; intros i buf Hl Hi Hn Hb.
  { split; [done|]. cbn [balloc_loop]. destruct (Z.leb_spec i b), (Z.ltb_spec b (i + Z.of_nat 0)); cbn; try done; lia. }
  cbn [balloc_loop]. destruct (IH (i + 1) (set_bit buf i)) as [H1 H2]; [unfold set_bit; by rewrite length_insert|lia|lia|lia|].
  split; [done|]. rewrite H2, bit_set by (done || lia). destruct (bit buf b); [by rewrite !orb_true_r|]. rewrite !orb_false_r.
  destruct (Z.leb_spec (i + 1) b), (Z.ltb_spec b (i + 1 + Z.of_nat n)), (Z.eqb_spec b i), (Z.leb_spec i b), (Z.ltb_spec b (i + Z.of_nat (S n))); cbn; try done; lia.
Qed.
Lemma bit_zero_block b : bit zero_block b = false.
Proof. unfold bit. rewrite byte_at_zero. apply Z.testbit_0_l. Qed.

Section finish.
Context (v : Z → list Z) (fb : Z) (root : list Z) (l : list mfile) (Im : image v fb ((T_DIR, root) :: l)).
Let fs := (T_DIR, root) :: l.
Let off := (zlen root / BSIZE + 1) * BSIZE.
Let ip := set_size off (dnode v 1).
Definition finished : Z → list Z :=
  put_block (wview v 1 (set_size ((zlen root / BSIZE + 1) * BSIZE) (dnode v 1))) 58 (balloc_loop (Z.to_nat fb) 0 zero_block).
Context (Hroot : zlen root < MAXFILE * BSIZE).

Lemma finish_off : zlen root < off ≤ MAXFILE * BSIZE.
Proof. unfold off. change MAXFILE with 140 in *. unfold BSIZE in *. zdm. Qed.
Lemma finish_root : fnode v fb 0 (T_DIR, root).
Proof. by apply (im_file _ _ _ Im 0). Qed.
Lemma finish_fits : dinode_fits ip.
Proof.
  destruct finish_root as [H1 H2 H3 H4 H5 H6]. pose proof (im_fb _ _ _ Im). pose proof finish_off. change (num 0) with 1 in *. unfold ip.
  split; cbn [set_size i_type i_nlink i_major i_minor i_size i_addrs]; rewrite ?H1, ?H2, ?H3, ?H4; try done.
  - mkl.
  - apply (minode_fits v fb _ (nbs (zlen root)) root); [done|lia].
Qed.
Lemma finished_block y : y < 32 ∨ nmeta ≤ y → finished y = v y.
Proof.
  intros Hy. unfold finished. rewrite put_block_ne by mkl. destruct (IBLOCK_sb 1 ltac:(done)) as [_ Hr]. apply wview_other. mkl.
Qed.
Lemma finished_dnode j : 0 ≤ j < NINODES → dnode finished j = if j =? 1 then ip else dnode v j.
Proof.
  intros Hj. destruct (IBLOCK_sb j Hj) as [_ Hr], (IBLOCK_sb 1 ltac:(done)) as [_ Hr1].
  pose proof (hd_inodes _ (im_head _ _ _ Im) (inode_block 1) Hr1) as Hl.
  assert (dnode finished j = dnode (wview v 1 ip) j) as -> by (unfold dnode, finished; by rewrite put_block_ne by lia).
  destruct (Z.eqb_spec j 1) as [->|].
  - rewrite dnode_wview by (done || apply finish_fits). done.
  - apply dnode_wview_ne; [apply finish_fits|done|lia|done].
Qed.
Lemma finished_iblock j : 0 ≤ j < NINODES → length (finished (inode_block j)) = Z.to_nat BSIZE.
Proof.
  intros Hj. destruct (IBLOCK_sb j Hj) as [_ Hr], (IBLOCK_sb 1 ltac:(done)) as [_ Hr1].
  unfold finished. rewrite put_block_ne by lia. apply length_wview; [apply finish_fits| |]; by apply (im_head _ _ _ Im).
Qed.
Lemma finished_map : length (finished 58) = Z.to_nat BSIZE ∧ ∀ b, 0 ≤ b < FSSIZE → used sb finished b = (b <? fb).
Proof.
  pose proof (im_fb _ _ _ Im) as [_ Hfb]. unfold used. split.
  - unfold finished. rewrite put_block_eq. by apply (balloc_loop_bit _ 0 zero_block 0); [| |change BPB with 4096; mkl|].
  - intros b Hb. rewrite img_bmapblk by done. unfold finished. rewrite put_block_eq. rewrite Z.mod_small by (change BPB with 4096; mkl).
    destruct (balloc_loop_bit (Z.to_nat fb) 0 zero_block b) as [_ ->]; [done|lia|change BPB with 4096; mkl|lia|].
    rewrite bit_zero_block, orb_false_r. destruct (Z.leb_spec 0 b); [|lia]. cbn [andb]. f_equal. mkl.
Qed.
Lemma finished_meta : meta_ok img_geo sb nmeta finished.
Proof.
  destruct finished_map as [H1 H2]. pose proof (im_fb _ _ _ Im). split; cbn [g_size img_geo].
  - intros b Hb. by rewrite img_bmapblk.
  - intros b Hb. rewrite H2 by mkl. apply Z.ltb_lt. lia.
Qed.

Section file.
Context (k : nat) (t : Z) (bs : list Z) (Hk : fs !! k = Some (t, bs)).
Lemma finished_minode : minode finished fb (dnode finished (num k)) (nbs (zlen bs)) bs.
Proof.
  pose proof (num_range k fs _ Hk (im_num _ _ _ Im)) as Hn. destruct (im_file _ _ _ Im k _ Hk) as [H1 H2 H3 H4 H5 H6]. cbn [snd] in *.
  apply (minode_ext _ _ (dnode v (num k))).
  { rewrite finished_dnode by done. destruct (Z.eqb_spec (num k) 1) as [->|]; done. }
  apply (minode_frame v _ fb); [done| |lia]. intros y Hy. apply finished_block. right. by eapply (mowns_range _ _ _ _ _ _ H6) in Hy as [? _].
Qed.
Lemma finished_owns y : FsWrite.owns finished (dnode finished (num k)) y → mowns v (dnode v (num k)) (nbs (zlen bs)) y.
Proof.
  intros Ho. apply (minode_owns finished fb _ _ _ _ finished_minode) in Ho.
  pose proof (num_range k fs _ Hk (im_num _ _ _ Im)) as Hn. destruct (im_file _ _ _ Im k _ Hk) as [_ _ _ _ _ H6]. cbn [snd] in *.
  apply (mowns_ext _ (dnode v (num k))) in Ho; [|rewrite finished_dnode by done; by destruct (Z.eqb_spec (num k) 1) as [->|]].
  apply (frame_mowns v _ fb _ _ _ H6) in Ho; [done|]. intros x Hx. apply finished_block. right.
  by eapply (mowns_range _ _ _ _ _ _ H6) in Hx as [? _].
Qed.
Lemma finished_file_is (Hs : zlen bs ≤ i_size (dnode finished (num k)) ≤ nbs (zlen bs) * BSIZE) :
  file_is finished (num k) t (bs ++ replicate (Z.to_nat (i_size (dnode finished (num k)) - zlen bs)) 0).
Proof.
  pose proof (num_range k fs _ Hk (im_num _ _ _ Im)) as Hn. destruct (im_file _ _ _ Im k _ Hk) as [H1 H2 H3 H4 H5 H6].
  pose proof (im_fb _ _ _ Im) as [_ Hfb]. destruct finished_map as [_ Hu].
  assert (Hf : ∀ A (g : inode → A), (∀ n i, g (set_size n i) = g i) → g (dnode finished (num k)) = g (dnode v (num k))).
  { intros A g Hg. rewrite finished_dnode by done. destruct (Z.eqb_spec (num k) 1) as [->|]; [apply Hg|done]. }
  split.
  - by rewrite (Hf _ i_type).
  - by rewrite (Hf _ i_nlink).
  - eapply (minode_file finished fb); [lia|done|apply finished_minode|by rewrite (Hf _ i_dev)|lia].
  - apply dnode_ino; [done|by apply finished_iblock].
  - eapply minode_content; [apply finished_minode|done].
Qed.
End file.
End finish.

(** ** The program *)

Definition root_of (files : list (list Z * list (list Z))) : list Z := dirent 1 (bytes ".") ++ dirent 1 (bytes "..") ++ dirents 2 files.
Definition all_files (files : list (list Z * list (list Z))) : list mfile := (T_DIR, root_of files) :: (file_of <$> files).

(** The files can be put in an image. *)
Record inputs_ok (files : list (list Z * list (list Z))) : Prop := {
  in_count : zlen files + 1 < NINODES;
  in_file f : f ∈ files → (47 ∉ f.1) ∧ fits (concat f.2);
  in_space : nmeta + total (all_files files) ≤ FSSIZE;
}.

Lemma zero_loop_run n i v len fi fb :
  0 ≤ i → 0 ≤ len → ∃ v', zero_loop n i (Mk v len fi fb) = Ok tt (Mk v' (Z.max len (if (0 <? n)%nat then i + Z.of_nat n else len)) fi fb) ∧
    ∀ b, v' b = if (i <=? b) && (b <? i + Z.of_nat n) then zero_block else v b.
Proof.
  revert i v len. induction n as [|n IH]; intros i v len Hi Hlen.
  - exists v. cbn [zero_loop]. rewrite Z.max_id. split; [done|]. intros b.
    destruct (Z.leb_spec i b), (Z.ltb_spec b (i + Z.of_nat 0)); cbn; try done; lia.
  - destruct (IH (i + 1) (put_block v i zero_block) (Z.max len (i + 1))) as (v'&Hrun&Hv); [lia..|].
    exists v'. cbn [zero_loop]. split.
    + unfold wsect, modify. mrun. cbn [img img_len freeinode freeblock]. unfold zero_block in Hrun. rewrite Hrun. do 2 f_equal.
      destruct n; cbn; lia.
    + intros b. rewrite Hv. unfold put_block.
      destruct (Z.leb_spec (i + 1) b), (Z.ltb_spec b (i + 1 + Z.of_nat n)), (Z.leb_spec i b), (Z.ltb_spec b (i + Z.of_nat (S n))), (Z.eqb_spec b i);
        cbn [andb]; try done; lia.
Qed.

Lemma image_empty v : (∀ b, 0 ≤ b < FSSIZE → v b = zero_block) → image (put_block v 1 sb_block) nmeta [].
Proof.
  intros Hv. split; try done.
  - intros y Hy. rewrite put_block_ne by mkl. apply Hv. mkl.
  - split.
    + rewrite put_block_ne by done. by apply Hv.
    + by rewrite put_block_eq.
    + intros b Hb. rewrite put_block_ne by lia. apply Hv. mkl.
    + intros b Hb. rewrite put_block_ne by lia. rewrite Hv by mkl. done.
Qed.

Lemma root_length files : zlen (root_of files) = 16 * (zlen files + 2).
Proof. unfold root_of. rewrite !length_app, !length_dirent, length_dirents. lia. Qed.
Lemma root_small files : inputs_ok files → zlen (root_of files) < MAXFILE * BSIZE.
Proof. intros [Hc _ _]. rewrite root_length. unfold NINODES in Hc. mkl. Qed.

(** Up to the entries of the root directory for itself. *)
Lemma main_zero : ∃ v, zero_loop (Z.to_nat FSSIZE) 0 (Mk (img mk0) 0 1 nmeta) = Ok tt (Mk v FSSIZE 1 nmeta) ∧
  image (put_block v 1 sb_block) nmeta [].
Proof.
  destruct (zero_loop_run (Z.to_nat FSSIZE) 0 (img mk0) 0 1 nmeta) as (v&Hrun&Hv); [lia..|]. exists v. split; [exact Hrun|].
  clear Hrun. apply image_empty. intros b Hb. rewrite Hv. rewrite Z2Nat.id, Z.add_0_l by done.
  by rewrite (proj2 (Z.leb_le 0 b)), (proj2 (Z.ltb_lt b FSSIZE)) by lia.
Qed.
Lemma main_dots v : image v nmeta [] → ∃ v1 v2 v3 fb2 fb3, ialloc T_DIR (Mk v FSSIZE 1 nmeta) = Ok 1 (Mk v1 FSSIZE 2 nmeta) ∧
  iappend 1 (dirent 1 (bytes ".")) (Mk v1 FSSIZE 2 nmeta) = Ok tt (Mk v2 FSSIZE 2 fb2) ∧
  iappend 1 (dirent 1 (bytes "..")) (Mk v2 FSSIZE 2 fb2) = Ok tt (Mk v3 FSSIZE 2 fb3) ∧
  image v3 fb3 [(T_DIR, dirent 1 (bytes ".") ++ dirent 1 (bytes ".."))].
Proof.
  intros Im0. destruct (ialloc_ok _ _ 1 _ Im0 T_DIR) as (v1&Hrun1&Im1); [done..|].
  destruct (iappend_ok _ _ 2 _ Im1 0 T_DIR [] (dirent 1 (bytes ".")) eq_refl) as (v2&fb2&Hrun2&Im2); [by vm_compute..|].
  pose proof (im_fb _ _ _ Im2) as [Hfb2 _].
  destruct (iappend_ok _ _ 2 _ Im2 0 T_DIR (dirent 1 (bytes ".")) (dirent 1 (bytes "..")) eq_refl) as (v3&fb3&Hrun3&Im3);
    [by vm_compute|rewrite Hfb2; by vm_compute|].
  by exists v1, v2, v3, fb2, fb3.
Qed.
Lemma main_run files :
  inputs_ok files → ∃ v fb fi, main files mk0 = Ok tt (Mk (finished v fb (root_of files)) FSSIZE fi fb) ∧ image v fb (all_files files).
Proof.
  intros Hin. pose proof Hin as [Hcount Hfile Hspace]. pose proof (root_small files Hin) as Hsmall.
  assert (H1 : 0 ≤ 1 < NINODES) by done.
  destruct main_zero as (v0&Hrun0&Im0). destruct (main_dots _ Im0) as (v1&v2&v3&fb2&fb3&Hrun1&Hrun2&Hrun3&Im3).
  destruct (add_files_ok files _ [] v3 fb3 2 Im3) as (v&fb&Hrun4&Im);
    [reflexivity|cbn [length]; lia|exact Hfile|unfold fits; rewrite <- app_assoc; fold (root_of files); lia|rewrite <- app_assoc; exact Hspace|].
  rewrite <- app_assoc in Im. fold (root_of files) in Im. change (image v fb (all_files files)) in Im.
  pose proof (im_fb _ _ _ Im) as [_ Hfb]. destruct (im_file _ _ _ Im 0 (T_DIR, root_of files) eq_refl) as [_ _ _ _ Hs _].
  change (num 0) with 1 in Hs. cbn [snd] in Hs. exists v, fb, (2 + zlen files). split; [|exact Im]. unfold main.
  rewrite (mbind_run _ _ mk0 tt (Mk (img mk0) 0 1 nmeta)) by reflexivity. rewrite (mbind_run _ _ _ _ _ Hrun0).
  rewrite (mbind_run _ _ _ tt (Mk (put_block v0 1 sb_block) FSSIZE 1 nmeta)) by reflexivity.
  rewrite (mbind_run _ _ _ _ _ Hrun1). change (negb (1 =? ROOTINO)) with false. cbn match.
  rewrite (mbind_run _ _ _ _ _ Hrun2), (mbind_run _ _ _ _ _ Hrun3), (mbind_run _ _ _ _ _ Hrun4).
  rewrite (mbind_run _ _ _ _ _ (rinode_run 1 v _ fb H1)). rewrite Hs.
  pose proof (Z.div_pos (zlen (root_of files)) BSIZE ltac:(lia) ltac:(done)).
  pose proof (finish_off (root_of files) Hsmall) as Hoff.
  rewrite (xint_id (zlen (root_of files))) by mkl.
  rewrite (u32_id (_ / BSIZE + 1)), (u32_id (_ * _)), xint_id by mkl.
  rewrite (mbind_run _ _ _ _ _ (winode_run 1 _ v _ fb H1)). clear Hrun0 Hrun1 Hrun2 Hrun3 Hrun4.
  unfold get. mrun.
  unfold balloc. cbn [freeblock]. destruct (Z.leb_spec (BSIZE * 8) fb); [mkl|]. reflexivity.
Qed.

(** The kernel can mount the image [v], with [files] in the root directory. *)
Record mounts (v : Z → list Z) (fb : Z) (files : list (list Z * list (list Z))) : Prop := {
  mt_sb : decode_sb (v 1) = sb;
  mt_log : has_log 2 nlog (Disk v FSSIZE []) ∧ hn v 2 = 0%nat;
  mt_layout : layout img_geo sb nmeta;
  mt_meta : meta_ok img_geo sb nmeta v;
  mt_used b : 0 ≤ b < FSSIZE → used sb v b = (b <? fb);
  mt_file k f : files !! k = Some f → file_is v (Z.of_nat k + 2) T_FILE (concat f.2);
  mt_apart i j : 1 ≤ i ≤ zlen files + 1 → 1 ≤ j ≤ zlen files + 1 → i ≠ j → apart v (dnode v i) (dnode v j);
}.

Lemma sb_block_decodes : decode_sb sb_block = sb.
Proof. by vm_compute. Qed.
Lemma head_log v : v 1 = sb_block → v 2 = zero_block → has_log 2 nlog (Disk v FSSIZE []) ∧ hn v 2 = 0%nat.
Proof.
  intros H1 H2. assert (Hn : hdr_n (v 2) = 0) by (rewrite H2; by vm_compute).
  split; [|unfold hn; by rewrite Hn]. split; cbn [blocks disksize]; rewrite ?H1, ?sb_block_decodes; try done.
  - by rewrite H2.
  - split; cbn [blocks]; rewrite ?Hn; [done|]. intros i Hi. unfold hn in Hi. cbn [blocks] in Hi. rewrite Hn in Hi. cbn in Hi. lia.
  - intros i Hi. unfold hn in Hi. rewrite Hn in Hi. cbn in Hi. lia.
Qed.
Lemma all_files_lookup files i :
  1 ≤ i ≤ zlen files + 1 → ∃ k t bs, i = num k ∧ all_files files !! k = Some (t, bs).
Proof.
  intros Hi. destruct (lookup_lt_is_Some_2 (all_files files) (Z.to_nat (i - 1))) as [[t bs] H].
  { unfold all_files. cbn [length]. rewrite length_fmap. lia. }
  exists (Z.to_nat (i - 1)), t, bs. split; [unfold num; lia|done].
Qed.

Section image_theorems.
Context (files : list (list Z * list (list Z))) (Hin : inputs_ok files) (v : Z → list Z) (fb : Z) (Im : image v fb (all_files files)).
Let w := finished v fb (root_of files).

Lemma finished_mounts : mounts w fb files.
Proof.
  pose proof (root_small files Hin) as Hs. pose proof (im_head _ _ _ Im) as [_ H1 H2 _].
  assert (E1 : w 1 = sb_block) by (unfold w; rewrite finished_block by lia; done).
  assert (E2 : w 2 = zero_block) by (unfold w; rewrite finished_block by lia; apply H2; lia).
  split.
  - rewrite E1. apply sb_block_decodes.
  - by apply head_log.
  - apply img_layout.
  - by eapply finished_meta.
  - by eapply finished_map.
  - intros k f Hk. assert (Hl : all_files files !! S k = Some (T_FILE, concat f.2)).
    { unfold all_files. cbn [lookup list_lookup]. change ((file_of <$> files) !! k = Some (T_FILE, concat f.2)). by rewrite list_lookup_fmap, Hk. }
    replace (Z.of_nat k + 2) with (num (S k)) by (unfold num; lia).
    assert (Hsz : i_size (dnode w (num (S k))) = zlen (concat f.2)).
    { unfold w. erewrite finished_dnode; [|exact Im|done|by eapply num_range; [exact Hl|apply Im]].
      destruct (Z.eqb_spec (num (S k)) 1); [unfold num in *; lia|]. by apply (im_file _ _ _ Im _ _ Hl). }
    pose proof (finished_file_is v fb (root_of files) _ Im Hs (S k) T_FILE _ Hl) as Hf. fold w in Hf. rewrite Hsz in Hf.
    rewrite Z.sub_diag, app_nil_r in Hf. apply Hf. unfold nbs, BSIZE. zdm.
  - intros i j Hi Hj Hne. destruct (all_files_lookup files i Hi) as (k&t&bs&->&Hk), (all_files_lookup files j Hj) as (k'&t'&bs'&->&Hk').
    intros x Hx Hx'. apply (finished_owns v fb (root_of files) _ Im Hs k t bs Hk) in Hx.
    apply (finished_owns v fb (root_of files) _ Im Hs k' t' bs' Hk') in Hx'.
    assert (k ≠ k') by congruence. by apply (im_apart _ _ _ Im k k' _ _ x ltac:(done) Hk Hk' Hx).
Qed.
Lemma finished_root :
  let off := (zlen (root_of files) / BSIZE + 1) * BSIZE in
  i_size (dnode w 1) = off ∧
  (zlen (root_of files) mod BSIZE ≠ 0 → file_is w 1 T_DIR (root_of files ++ replicate (Z.to_nat (off - zlen (root_of files))) 0)) ∧
  (zlen (root_of files) mod BSIZE = 0 → fblk w (dnode w 1) (off / BSIZE - 1) = 0).
Proof.
  intros off. pose proof (root_small files Hin) as Hs.
  assert (Hsz : i_size (dnode w 1) = off) by (unfold w; erewrite finished_dnode; [|exact Im|done|done]; done).
  pose proof (finished_file_is v fb (root_of files) _ Im Hs 0 T_DIR _ eq_refl) as Hf. fold w in Hf. change (num 0) with 1 in Hf. rewrite Hsz in Hf.
  pose proof (finished_minode v fb (root_of files) _ Im Hs 0 T_DIR _ eq_refl) as Hm. fold w in Hm. change (num 0) with 1 in Hm.
  split; [done|]. split.
  - intros Hmod. apply Hf. unfold off, nbs, BSIZE in *. zdm.
  - intros Hmod. apply (mi_none _ _ _ _ _ Hm). unfold off, nbs. change MAXFILE with 140 in *. unfold BSIZE in *. zdm.
Qed.
End image_theorems.

(** C9. For files that fit (fewer than 199 of them, no slash in a name, each at
    most 140 blocks long, all within the 1000 blocks), the program returns, and the
    image that it leaves is one that the kernel mounts: the superblock reads back,
    the log is empty, the free map marks exactly the blocks below
    [freeblock], and each inode is a well-formed file with exactly the
    contents of the file given, in blocks of its own; the root directory
    holds the entries for the files, with zeros up to the end of its last
    block.  (For a directory that ends with its last block see
    [mkfs_root_hole].) *)
Theorem mkfs_image_mounts files :
  inputs_ok files → (zlen files + 2) mod 32 ≠ 0 →
  wp (main files) (λ _ s,
    img_len s = FSSIZE ∧ freeblock s = nmeta + total (all_files files) ∧ mounts (img s) (freeblock s) files ∧
    file_is (img s) 1 T_DIR (root_of files ++ replicate (Z.to_nat (512 - 16 * ((zlen files + 2) mod 32))) 0)) mk0.
Proof.
  intros Hin Hmod. destruct (main_run files Hin) as (v&fb&fi&Hrun&Im). apply wp_intro with tt (Mk (finished v fb (root_of files)) FSSIZE fi fb); [exact Hrun|].
  cbn [img img_len freeblock]. split; [done|]. split; [apply Im|]. split; [by apply finished_mounts|].
  destruct (finished_root files Hin v fb Im) as (_&Hr&_). rewrite root_length in Hr.
  replace (512 - 16 * ((zlen files + 2) mod 32)) with ((16 * (zlen files + 2) / BSIZE + 1) * BSIZE - 16 * (zlen files + 2)) by (unfold BSIZE; zdm).
  apply Hr. unfold BSIZE. zdm.
Qed.

(** Where the entries of the root directory fill its last block (as with 30
    files), the size of the directory is still rounded up to the next block:
    the root directory then has a block within its size that does not exist. *)
Theorem mkfs_root_hole files :
  inputs_ok files → (zlen files + 2) mod 32 = 0 →
  wp (main files) (λ _ s, let ip := dnode (img s) ROOTINO in
    ∃ bn, 0 ≤ bn ∧ (bn + 1) * BSIZE = i_size ip ∧ fblk (img s) ip bn = 0) mk0.
Proof.
  intros Hin Hmod. destruct (main_run files Hin) as (v&fb&fi&Hrun&Im). apply wp_intro with tt (Mk (finished v fb (root_of files)) FSSIZE fi fb); [exact Hrun|].
  cbn [img]. destruct (finished_root files Hin v fb Im) as (Hs&_&Hr). rewrite root_length in *. change ROOTINO with 1. cbv zeta.
  exists ((16 * (zlen files + 2) / BSIZE + 1) * BSIZE / BSIZE - 1). rewrite Hs. split; [unfold BSIZE; zdm|]. split; [unfold BSIZE; zdm|].
  apply Hr. unfold BSIZE. zdm.
Qed.

Definition demo_files (n : nat) : list (list Z * list (list Z)) :=
  replicate n (bytes "_cat", [bytes "hello, "; bytes "world"]).
Lemma demo_inputs n : (n ≤ 40)%nat → inputs_ok (demo_files n).
Proof.
  intros Hn. split; unfold demo_files.
  - rewrite length_replicate. unfold NINODES. lia.
  - intros f [-> _]%elem_of_replicate. split; [|by vm_compute]. cbn [fst]. by apply (bool_decide_unpack (47 ∉ bytes "_cat")).
  - unfold all_files. cbn [total]. rewrite fmap_replicate.
    assert (∀ m, total (replicate m (file_of (bytes "_cat", [bytes "hello, "; bytes "world"]))) = Z.of_nat m) as ->.
    { induction m as [|m IH]; [done|]. cbn [replicate total]. rewrite IH. change (fneed _) with 1. lia. }
    unfold fneed. cbn [snd]. rewrite root_length, length_replicate. unfold need, nbs. change NDIRECT with 12.
    destruct (Z.ltb_spec 12 ((16 * (Z.of_nat n + 2) + 511) / 512)); [zdm|]. mkl.
Qed.
Lemma mkfs_image_mounts_witness :
  wp (main (demo_files 2)) (λ _ s,
    img_len s = FSSIZE ∧ freeblock s = 62 ∧ mounts (img s) (freeblock s) (demo_files 2) ∧
    file_is (img s) 1 T_DIR (root_of (demo_files 2) ++ replicate 448 0)) mk0.
Proof. exact (mkfs_image_mounts (demo_files 2) (demo_inputs 2 ltac:(lia)) ltac:(by vm_compute)). Defined.
Lemma mkfs_root_hole_witness :
  wp (main (demo_files 30)) (λ _ s, let ip := dnode (img s) ROOTINO in
    ∃ bn, 0 ≤ bn ∧ (bn + 1) * BSIZE = i_size ip ∧ fblk (img s) ip bn = 0) mk0.
Proof. exact (mkfs_root_hole (demo_files 30) (demo_inputs 30 ltac:(lia)) ltac:(by vm_compute)). Defined.
