(* ===== verification/Asm.v ===== *)
(** * Context switch and trap entry: [swtch.S], [trapasm.S], [usys.S],
      [vectors.pl], and the interrupt table of [trap.c]

    The part of the x86 that these files use: the general and the segment
    registers, the stack, and the way the cpu enters and leaves the kernel
    ([interrupt], [iret]).  Code is a list of instructions.  A push of a segment
    register writes the low half of its slot, as the cpu may do, so that the
    padding of [struct trapframe] is whatever was there.  The checks of the
    segment descriptors and paging are not modelled: addresses are those of
    the kernel's memory. *)

From S2P Require Import Prelude Params CString ProcState Trap Apic.

(** ** The machine *)

Inductive reg := EAX | ECX | EDX | EBX | ESP | EBP | ESI | EDI.
Inductive seg := CS | DS | ES | FS | GS | SS.
#[export] Instance reg_eq_dec : EqDecision reg.
Proof. solve_decision. Defined.
Record gregs := Gregs { g_eax : Z; g_ecx : Z; g_edx : Z; g_ebx : Z; g_esp : Z; g_ebp : Z; g_esi : Z; g_edi : Z }.
Record sregs := Sregs { s_cs : Z; s_ds : Z; s_es : Z; s_fs : Z; s_gs : Z; s_ss : Z }.

Record machine := Mach {
  gr : gregs;
  sr : sregs;
  eip : Z;
  eflags : Z;
  mm : mem;
}.
Definition rg (m : machine) (r : reg) : Z :=
  match r with
  | EAX => g_eax (gr m) | ECX => g_ecx (gr m) | EDX => g_edx (gr m) | EBX => g_ebx (gr m)
  | ESP => g_esp (gr m) | EBP => g_ebp (gr m) | ESI => g_esi (gr m) | EDI => g_edi (gr m)
  end.
Definition sg (m : machine) (s : seg) : Z :=
  match s with
  | CS => s_cs (sr m) | DS => s_ds (sr m) | ES => s_es (sr m) | FS => s_fs (sr m) | GS => s_gs (sr m) | SS => s_ss (sr m)
  end.
Definition set_rg (r : reg) (v : Z) (m : machine) : machine :=
  let '(Gregs a c d b sp bp si di) := gr m in
  Mach (match r with
        | EAX => Gregs v c d b sp bp si di | ECX => Gregs a v d b sp bp si di | EDX => Gregs a c v b sp bp si di
        | EBX => Gregs a c d v sp bp si di | ESP => Gregs a c d b v bp si di | EBP => Gregs a c d b sp v si di
        | ESI => Gregs a c d b sp bp v di | EDI => Gregs a c d b sp bp si v
        end) (sr m) (eip m) (eflags m) (mm m).
Definition set_sg (s : seg) (v : Z) (m : machine) : machine :=
  let '(Sregs c d e f g t) := sr m in
  Mach (gr m) (match s with
        | CS => Sregs v d e f g t | DS => Sregs c v e f g t | ES => Sregs c d v f g t
        | FS => Sregs c d e v g t | GS => Sregs c d e f v t | SS => Sregs c d e f g v
        end) (eip m) (eflags m) (mm m).
Definition set_eip (v : Z) (m : machine) : machine := Mach (gr m) (sr m) v (eflags m) (mm m).
Definition set_eflags (v : Z) (m : machine) : machine := Mach (gr m) (sr m) (eip m) v (mm m).
Definition set_mm (v : mem) (m : machine) : machine := Mach (gr m) (sr m) (eip m) (eflags m) v.
(** The privilege level at which the cpu runs. *)
Definition cpl (m : machine) : Z := sg m CS mod 4.

Definition load16 (m : mem) (a : Z) : Z := m a + 256 * m (a + 1).

Definition push32 (v : Z) (m : machine) : machine :=
  let sp := rg m ESP -u 4 in set_mm (store32 (mm m) sp v) (set_rg ESP sp m).
Definition push16 (v : Z) (m : machine) : machine :=
  let sp := rg m ESP -u 4 in set_mm (store16 (mm m) sp v) (set_rg ESP sp m).
Definition top32 (m : machine) : Z := load32 (mm m) (rg m ESP).
Definition top16 (m : machine) : Z := load16 (mm m) (rg m ESP).
Definition drop4 (m : machine) : machine := set_rg ESP (rg m ESP +u 4) m.

Inductive instr :=
  | pushl (r : reg) | pushl_seg (s : seg) | pushl_i (v : Z) | pushal
  | popl (r : reg) | popl_seg (s : seg) | popal
  | movl (src dst : reg) | movl_i (v : Z) (dst : reg)
  | movl_load (disp : Z) (base dst : reg) | movl_store (src base : reg)
  | movw_i (v : Z) (dst : reg) | movw_seg (src : reg) (dst : seg)
  | addl_i (v : Z) (dst : reg)
  | ret | iret.

Definition pop_reg (r : reg) (m : machine) : machine := let v := top32 m in set_rg r v (drop4 m).
Definition pop_seg (s : seg) (m : machine) : machine := let v := top16 m in set_sg s v (drop4 m).
Definition pop_eip (m : machine) : machine := let v := top32 m in set_eip v (drop4 m).
Definition pop_eflags (m : machine) : machine := let v := top32 m in set_eflags v (drop4 m).

(** [iret] to code of the same level, and to an outer level, where the stack
    pointer is popped as well. *)
Definition same_level (m : machine) : machine := pop_eflags (pop_seg CS (pop_eip m)).
Definition outer_level (m : machine) : machine :=
  let m1 := same_level m in set_rg ESP (top32 m1) (pop_seg SS (drop4 m1)).

Definition exec (i : instr) (m : machine) : machine :=
  match i with
  | pushl r => push32 (rg m r) m
  | pushl_seg s => push16 (sg m s) m
  | pushl_i v => push32 v m
  | pushal => let sp := rg m ESP in
      push32 (rg m EDI) (push32 (rg m ESI) (push32 (rg m EBP) (push32 sp
        (push32 (rg m EBX) (push32 (rg m EDX) (push32 (rg m ECX) (push32 (rg m EAX) m)))))))
  | popl r => pop_reg r m
  | popl_seg s => pop_seg s m
  | popal =>
      pop_reg EAX (pop_reg ECX (pop_reg EDX (pop_reg EBX (drop4 (pop_reg EBP (pop_reg ESI (pop_reg EDI m)))))))
  | movl src dst => set_rg dst (rg m src) m
  | movl_i v dst => set_rg dst v m
  | movl_load disp base dst => set_rg dst (load32 (mm m) (rg m base +u disp)) m
  | movl_store src base => set_mm (store32 (mm m) (rg m base) (rg m src)) m
  | movw_i v dst => set_rg dst (rg m dst - rg m dst mod 65536 + v) m
  | movw_seg src dst => set_sg dst (rg m src mod 65536) m
  | addl_i v dst => set_rg dst (rg m dst +u v) m
  | ret => pop_eip m
  | iret => if cpl m <? cpl (same_level m) then outer_level m else same_level m
  end.
Definition run (code : list instr) (m : machine) : machine := foldl (λ m i, exec i m) m code.

(** ** swtch.S *)

Definition swtch : list instr :=
  [ movl_load 4 ESP EAX; movl_load 8 ESP EDX;
    pushl EBP; pushl EBX; pushl ESI; pushl EDI;
    movl_store ESP EAX; movl EDX ESP;
    popl EDI; popl ESI; popl EBX; popl EBP; ret ].

(** ** The interrupt table: mmu.h and [tvinit] *)

Definition STS_IG32 : Z := 14.
Definition STS_TG32 : Z := 15.
Record gatedesc := GateDesc {
  off_15_0 : Z; gd_cs : Z; gd_args : Z; gd_rsv1 : Z; gd_type : Z; gd_s : Z; gd_dpl : Z; gd_p : Z; off_31_16 : Z;
}.
Definition SETGATE (istrap : bool) (sel off d : Z) : gatedesc :=
  GateDesc (Z.land off 65535) sel 0 0 (if istrap then STS_TG32 else STS_IG32) 0 d 1 (Z.shiftr off 16).
Definition gate_off (g : gatedesc) : Z := off_15_0 g + 65536 * off_31_16 g.

Fixpoint tvinit_loop (vectors : Z → Z) (n : nat) (i : Z) : list gatedesc :=
  match n with
  | O => []
  | S n' => SETGATE false (Z.shiftl SEG_KCODE 3) (vectors i) 0 :: tvinit_loop vectors n' (i + 1)
  end.
Definition tvinit (vectors : Z → Z) : list gatedesc :=
  <[Z.to_nat T_SYSCALL := SETGATE true (Z.shiftl SEG_KCODE 3) (vectors T_SYSCALL) DPL_USER]> (tvinit_loop vectors 256 0).

(** ** Entering the kernel *)

(** The stack of the task state that [switchuvm] sets. *)
Record tss := Tss { t_esp0 : Z; t_ss0 : Z }.

(** The exceptions for which the cpu pushes an error code. *)
Definition has_err (n : Z) : bool := (n =? 8) || ((10 <=? n) && (n <=? 14)) || (n =? 17).

(** The cpu enters the kernel through gate [g]; [err] is the error code that
    it pushes, if any. *)
Definition interrupt (t : tss) (g : gatedesc) (err : option Z) (m : machine) : machine :=
  let m1 := if cpl m =? 0 then m
            else push32 (rg m ESP) (push16 (sg m SS) (set_sg SS (t_ss0 t) (set_rg ESP (t_esp0 t) m))) in
  let m2 := push32 (eip m) (push16 (sg m CS) (push32 (eflags m) m1)) in
  let m3 := match err with Some e => push32 e m2 | None => m2 end in
  set_eip (gate_off g) (set_sg CS (gd_cs g)
    (if gd_type g =? STS_IG32 then set_eflags (Z.ldiff (eflags m) FL_IF) m3 else m3)).
(** [int n]: a program may use only gates of its level; for others the cpu
    raises the general protection exception, 13. *)
Definition int_n (t : tss) (idt : list gatedesc) (n : Z) (m : machine) : option (Z * machine) :=
  g ← idt !! Z.to_nat n;
  if gd_dpl g <? cpl m then
    gp ← idt !! 13%nat;
    Some (13, interrupt t gp (Some (8 * n + 2)) m)
  else Some (n, interrupt t g None m).

(** ** vectors.pl and trapasm.S *)

Definition vector (i : Z) : list instr := (if has_err i then [] else [pushl_i 0]) ++ [pushl_i i].
(** Up to the call of [trap], whose argument is the trap frame. *)
Definition alltraps : list instr :=
  [ pushl_seg DS; pushl_seg ES; pushl_seg FS; pushl_seg GS; pushal;
    movw_i (Z.shiftl SEG_KDATA 3) EAX; movw_seg EAX DS; movw_seg EAX ES;
    pushl ESP ].
Definition trapret : list instr :=
  [ popal; popl_seg GS; popl_seg FS; popl_seg ES; popl_seg DS; addl_i 8 ESP; iret ].
(** After the call. *)
Definition after_trap : list instr := addl_i 4 ESP :: trapret.

(** ** usys.S *)

(** The instructions of a stub before and after [int]. *)
Definition SYSCALL (num : Z) : list instr := [ movl_i num EAX ].
Definition SYSCALL_ret : list instr := [ ret ].

(** The trap frame that C code sees at address [a]. *)
Definition frame_at (m : mem) (a : Z) : trapframe :=
  TrapFrame (load32 m a) (load32 m (a + 4)) (load32 m (a + 8)) (load32 m (a + 12)) (load32 m (a + 16)) (load32 m (a + 20))
    (load32 m (a + 24)) (load32 m (a + 28)) (load16 m (a + 32)) (load16 m (a + 36)) (load16 m (a + 40)) (load16 m (a + 44))
    (load32 m (a + 48)) (load32 m (a + 52)) (load32 m (a + 56)) (load16 m (a + 60)) (load32 m (a + 64)) (load32 m (a + 68)) (load16 m (a + 72)).
(** And the context. *)
Record ctx := Ctx { x_edi : Z; x_esi : Z; x_ebx : Z; x_ebp : Z; x_eip : Z }.
Definition ctx_at (m : mem) (a : Z) : ctx :=
  Ctx (load32 m a) (load32 m (a + 4)) (load32 m (a + 8)) (load32 m (a + 12)) (load32 m (a + 16)).
