(* ===== verification/AsmThms.v ===== *)
(** * What the assembly does

    The stack as a list of slots; the context switch as a coroutine; the trap
    frame that C code sees and the return to the interrupted program; a
    system call from a user stub and back. *)

From S2P Require Import Prelude Params CString ProcState Trap Apic Asm.

(** Runs the instructions of the goal on explicit registers. *)
Ltac regs := cbv [run foldl exec push32 push16 pop_reg pop_seg pop_eip pop_eflags top32 top16 drop4 set_rg set_sg set_eip set_eflags set_mm rg sg gr sr eip eflags mm g_eax g_ecx g_edx g_ebx g_esp g_ebp g_esi g_edi s_cs s_ds s_es s_fs s_gs s_ss].
Ltac regs_in H := cbv [run foldl exec push32 push16 pop_reg pop_seg pop_eip pop_eflags top32 top16 drop4 set_rg set_sg set_eip set_eflags set_mm rg sg gr sr eip eflags mm g_eax g_ecx g_edx g_ebx g_esp g_ebp g_esi g_edi s_cs s_ds s_es s_fs s_gs s_ss] in H.

(** ** Slots of the stack *)

Inductive slot := W32 (v : Z) | W16 (v : Z).
Definition put_slot (m : mem) (a : Z) (s : slot) : mem := match s with W32 v => store32 m a v | W16 v => store16 m a v end.
Fixpoint put_slots (l : list slot) (b : Z) (m : mem) : mem :=
  match l with [] => m | s :: l' => put_slots l' (b - 4) (put_slot m (b - 4) s) end.
Definition is_u16 (v : Z) : Prop := 0 ≤ v < 65536.
(** Slot [s] is at address [a]. *)
Definition has_slot (m : mem) (a : Z) (s : slot) : Prop := match s with W32 v => load32 m a = v | W16 v => load16 m a = v end.
Definition slot_ok (s : slot) : Prop := match s with W32 v => is_u32 v | W16 v => is_u16 v end.

Lemma put_slot_ne m a s x : x < a ∨ a + 4 ≤ x → put_slot m a s x = m x.
Proof. intros Hx. destruct s; cbn [put_slot]; [by apply store32_ne|]. unfold store16. by rewrite !upd_ne by lia. Qed.
Lemma put_slots_ne l b m x : x < b - 4 * Z.of_nat (length l) ∨ b ≤ x → put_slots l b m x = m x.
Proof.
  revert b m. induction l as [|s l IH]; intros b m Hx; [done|]. cbn [put_slots length] in *.
  rewrite IH by lia. apply put_slot_ne. lia.
Qed.
Lemma put_slots_snoc l s b m : put_slots (l ++ [s]) b m = put_slot (put_slots l b m) (b - 4 * Z.of_nat (length l) - 4) s.
Proof.
  revert b m. induction l as [|s' l IH]; intros b m; cbn [app put_slots length]; [f_equal; lia|].
  rewrite IH. f_equal. lia.
Qed.
Lemma has_slot_ext m m' a s : (∀ x, a ≤ x < a + 4 → m' x = m x) → has_slot m a s → has_slot m' a s.
Proof.
  intros Hx. destruct s; cbn [has_slot]; intros <-; [by apply load32_ext|]. unfold load16. by rewrite !Hx by lia.
Qed.
Lemma has_put_slot m a s : slot_ok s → has_slot (put_slot m a s) a s.
Proof.
  destruct s; cbn [slot_ok has_slot put_slot]; [apply load32_store32|]. unfold is_u16, load16, store16. intros Hv.
  rewrite upd_eq, upd_ne, upd_eq by lia. unfold u8. zdm.
Qed.
Lemma put_slots_lookup l b m k s : l !! k = Some s → slot_ok s → has_slot (put_slots l b m) (b - 4 * Z.of_nat k - 4) s.
Proof.
  revert b m k. induction l as [|s' l IH]; intros b m k Hk Hs; [done|]. cbn [put_slots]. destruct k as [|k].
  - injection Hk as ->. eapply has_slot_ext; [|apply has_put_slot; done]. intros x Hx.
    rewrite put_slots_ne by lia. f_equal. lia.
  - replace (b - 4 * Z.of_nat (S k) - 4) with (b - 4 - 4 * Z.of_nat k - 4) by lia. by apply IH.
Qed.

(** The slots [l] have been pushed from [b] downwards, onto a memory [m0]. *)
Definition pushed (l : list slot) (b : Z) (m0 : mem) (m : machine) : Prop :=
  mm m = put_slots l b m0 ∧ rg m ESP = b - 4 * Z.of_nat (length l).
Section pushes.
Context (l : list slot) (b : Z) (m0 : mem) (Hb : is_u32 b).
Lemma pushed_32 v m : pushed l b m0 m → 4 * Z.of_nat (length l) + 4 ≤ b → pushed (l ++ [W32 v]) b m0 (push32 v m).
Proof.
  intros [Hm Hs] Hr. unfold pushed, push32. destruct m as [[a0 c0 d0 b0 sp0 bp0 si0 di0] sr0 e f mem]. regs. cbn [mm rg gr g_esp] in Hm, Hs. rewrite put_slots_snoc, Hm, Hs, length_app.
  cbn [length]. unfold is_u32 in *. rewrite u32_id by (unfold is_u32; lia). split; [done|lia].
Qed.
Lemma pushed_16 v m : pushed l b m0 m → 4 * Z.of_nat (length l) + 4 ≤ b → pushed (l ++ [W16 v]) b m0 (push16 v m).
Proof.
  intros [Hm Hs] Hr. unfold pushed, push16. destruct m as [[a0 c0 d0 b0 sp0 bp0 si0 di0] sr0 e f mem]. regs. cbn [mm rg gr g_esp] in Hm, Hs. rewrite put_slots_snoc, Hm, Hs, length_app.
  cbn [length]. unfold is_u32 in *. rewrite u32_id by (unfold is_u32; lia). split; [done|lia].
Qed.
Lemma pushed_same m m' : pushed l b m0 m → mm m' = mm m → rg m' ESP = rg m ESP → pushed l b m0 m'.
Proof. unfold pushed. by intros [-> ->] -> ->. Qed.
End pushes.

(** Words on the stack are read by pops. *)
Lemma drop4_esp m : 0 ≤ rg m ESP → rg m ESP + 4 < 4294967296 → rg (drop4 m) ESP = rg m ESP + 4.
Proof. intros H0 H. destruct m as [[a0 c0 d0 b0 sp0 bp0 si0 di0] sr0 e f mem]. regs. cbn [rg gr g_esp] in *. apply u32_id. unfold is_u32. lia. Qed.

(** ** The context switch *)


Ltac nowrap := repeat match goal with |- context [u32 ?x] => lazymatch x with context [u32 _] => fail | _ => rewrite (u32_id x) by (unfold is_u32 in *; lia) end end.

Lemma pop_context m a : rg m ESP = a → 0 ≤ a → a + 20 < 4294967296 → let c := ctx_at (mm m) a in
  let m' := run [popl EDI; popl ESI; popl EBX; popl EBP; ret] m in
  rg m' EDI = x_edi c ∧ rg m' ESI = x_esi c ∧ rg m' EBX = x_ebx c ∧ rg m' EBP = x_ebp c ∧ eip m' = x_eip c ∧
  rg m' ESP = a + 20 ∧ mm m' = mm m ∧ eflags m' = eflags m ∧ sg m' = sg m.
Proof.
  intros Ha H0 H1. cbv zeta. destruct m as [[a0 c0 d0 b0 sp0 bp0 si0 di0] [cs0 ds0 es0 fs0 gs0 ss0] e f mem]. cbn [rg gr g_esp] in Ha. regs. rewrite Ha.
  nowrap. rewrite <- !Z.add_assoc. done.
Qed.

(** [swtch(old, new)], called with a return address on top of the stack. *)
Section swtch.
Context (m : machine) (sp : Z) (Hsp : rg m ESP = sp) (Hr : 16 ≤ sp ∧ sp + 12 < 4294967296).
Let old := load32 (mm m) (sp + 4).
Let new := load32 (mm m) (sp + 8).
Definition saved_stack : mem := put_slots [W32 (rg m EBP); W32 (rg m EBX); W32 (rg m ESI); W32 (rg m EDI)] sp (mm m).

Lemma swtch_save : let m' := run (take 6 swtch) m in
  rg m' EAX = old ∧ rg m' EDX = new ∧ rg m' ESP = sp - 16 ∧ mm m' = saved_stack ∧ eflags m' = eflags m ∧ sg m' = sg m.
Proof.
  cbv zeta. unfold old, new, saved_stack. destruct m as [[a0 c0 d0 b0 sp0 bp0 si0 di0] [cs0 ds0 es0 fs0 gs0 ss0] e f mem]. cbn [rg gr g_esp mm] in *. cbn [take swtch].
  regs. rewrite !Hsp. nowrap. split_and!; try done. lia.
Qed.
Lemma swtch_run : new + 20 < 4294967296 → 0 ≤ new →
  let mem' := store32 saved_stack old (sp - 16) in let c := ctx_at mem' new in let m' := run swtch m in
  rg m' EDI = x_edi c ∧ rg m' ESI = x_esi c ∧ rg m' EBX = x_ebx c ∧ rg m' EBP = x_ebp c ∧ eip m' = x_eip c ∧
  rg m' ESP = new + 20 ∧ mm m' = mem' ∧ eflags m' = eflags m ∧ sg m' = sg m.
Proof.
  intros Hn H0 mem'. destruct swtch_save as (E1&E2&E3&E4&E5&E6). set (m1 := run (take 6 swtch) m) in *.
  assert (E : run swtch m = run [popl EDI; popl ESI; popl EBX; popl EBP; ret] (exec (movl EDX ESP) (exec (movl_store ESP EAX) m1))).
  { unfold m1, run. rewrite <- (take_drop 6 swtch) at 1. rewrite foldl_app. reflexivity. }
  clearbody m1. set (m2 := exec (movl EDX ESP) (exec (movl_store ESP EAX) m1)) in *.
  assert (Hm2 : rg m2 ESP = new ∧ mm m2 = mem' ∧ eflags m2 = eflags m ∧ sg m2 = sg m).
  { unfold m2. destruct m1 as [[a0 c0 d0 b0 sp0 bp0 si0 di0] sr0 e f mem]. cbn [rg gr g_eax g_edx g_esp mm eflags] in *. regs. subst a0 d0 sp0 mem.
    by split_and!. }
  destruct Hm2 as (F1&F2&F3&F4). clearbody m2. pose proof (pop_context m2 new F1 H0 Hn) as P. cbv zeta in *. rewrite E. by rewrite F2, F3, F4 in P.
Qed.
End swtch.

(** The context that [swtch] leaves on the stack of its caller. *)
Lemma swtch_saved m sp :
  rg m ESP = sp → 16 ≤ sp ∧ sp + 12 < 4294967296 → is_u32 (rg m EBP) ∧ is_u32 (rg m EBX) ∧ is_u32 (rg m ESI) ∧ is_u32 (rg m EDI) →
  ctx_at (saved_stack m sp) (sp - 16) = Ctx (rg m EDI) (rg m ESI) (rg m EBX) (rg m EBP) (load32 (mm m) sp).
Proof.
  intros Hsp Hr (H1&H2&H3&H4). unfold saved_stack, ctx_at. set (l := [W32 _; W32 _; W32 _; W32 _]).
  pose proof (put_slots_lookup l sp (mm m) 0 (W32 (rg m EBP)) eq_refl H1) as E0.
  pose proof (put_slots_lookup l sp (mm m) 1 (W32 (rg m EBX)) eq_refl H2) as E1.
  pose proof (put_slots_lookup l sp (mm m) 2 (W32 (rg m ESI)) eq_refl H3) as E2.
  pose proof (put_slots_lookup l sp (mm m) 3 (W32 (rg m EDI)) eq_refl H4) as E3.
  cbn [has_slot] in *.
  replace (sp - 4 * Z.of_nat 0 - 4) with (sp - 16 + 12) in E0 by lia. replace (sp - 4 * Z.of_nat 1 - 4) with (sp - 16 + 8) in E1 by lia.
  replace (sp - 4 * Z.of_nat 2 - 4) with (sp - 16 + 4) in E2 by lia. replace (sp - 4 * Z.of_nat 3 - 4) with (sp - 16) in E3 by lia.
  rewrite E0, E1, E2, E3. f_equal. replace (sp - 16 + 16) with sp by lia. apply load32_ext. intros x Hx. apply put_slots_ne. lia.
Qed.
Lemma ctx_at_ext m m' a : (∀ x, a ≤ x < a + 20 → m' x = m x) → ctx_at m' a = ctx_at m a.
Proof. intros H. unfold ctx_at. f_equal; apply load32_ext; intros x Hx; apply H; lia. Qed.

(** C24. [swtch] is a coroutine switch: after A has called [swtch(&a, b)], and
    as long as nobody writes to the part of A's stack from its saved registers up
    to the return address, a later [swtch(&b, a)] from any other stack makes
    A's call return: A continues at its return address, with its stack
    pointer and its callee-saved registers as they were. *)
Theorem swtch_resumes mA mB sA sB :
  rg mA ESP = sA → 16 ≤ sA ∧ sA + 12 < 4294967296 →
  is_u32 (rg mA EBP) ∧ is_u32 (rg mA EBX) ∧ is_u32 (rg mA ESI) ∧ is_u32 (rg mA EDI) →
  let oldA := load32 (mm mA) (sA + 4) in let newA := load32 (mm mA) (sA + 8) in
  0 ≤ newA ∧ newA + 20 < 4294967296 → oldA + 4 ≤ sA - 16 ∨ sA + 4 ≤ oldA →
  let m1 := run swtch mA in
  rg mB ESP = sB → 16 ≤ sB ∧ sB + 12 < 4294967296 → (∀ x, sA - 16 ≤ x < sA + 4 → mm mB x = mm m1 x) →
  load32 (mm mB) (sB + 8) = load32 (mm m1) oldA →
  let oldB := load32 (mm mB) (sB + 4) in
  sB ≤ sA - 16 ∨ sA + 4 ≤ sB - 16 → oldB + 4 ≤ sA - 16 ∨ sA + 4 ≤ oldB →
  let m2 := run swtch mB in
  eip m2 = load32 (mm mA) sA ∧ rg m2 ESP = sA + 4 ∧
  rg m2 EBP = rg mA EBP ∧ rg m2 EBX = rg mA EBX ∧ rg m2 ESI = rg mA ESI ∧ rg m2 EDI = rg mA EDI.
Proof.
  intros HA RA Hu oldA newA Hnew HoldA m1 HB RB Hsame Harg oldB HBA HoldB m2.
  destruct (swtch_run mA sA HA RA ltac:(lia) ltac:(lia)) as (_&_&_&_&_&_&Em1&_&_). fold m1 oldA in Em1.
  rewrite Em1, load32_store32 in Harg by (unfold is_u32; lia).
  pose proof (swtch_run mB sB HB RB) as RunB. rewrite Harg in RunB. destruct RunB as (E1&E2&E3&E4&E5&E6&_&_&_); [lia..|].
  fold m2 oldB in E1, E2, E3, E4, E5, E6.
  assert (Ec : ctx_at (store32 (saved_stack mB sB) oldB (sB - 16)) (sA - 16) = ctx_at (saved_stack mA sA) (sA - 16)).
  { apply ctx_at_ext. intros x Hx. rewrite store32_ne by lia. unfold saved_stack at 1. rewrite put_slots_ne by (cbn [length]; lia).
    rewrite Hsame by lia. rewrite Em1. apply store32_ne. lia. }
  rewrite Ec, (swtch_saved mA sA HA RA Hu) in *. cbn [x_edi x_esi x_ebx x_ebp x_eip] in *.
  repeat split; try done. lia.
Qed.

(** ** Returning from a trap *)

(** [m] runs with the registers of the frame [f] at address [a]; the stack
    of the kernel code that was interrupted, if any, has segment [ss]. *)
Record resumed (f : trapframe) (a ss : Z) (m : machine) : Prop := {
  re_edi : rg m EDI = tf_edi f; re_esi : rg m ESI = tf_esi f; re_ebp : rg m EBP = tf_ebp f; re_ebx : rg m EBX = tf_ebx f;
  re_edx : rg m EDX = tf_edx f; re_ecx : rg m ECX = tf_ecx f; re_eax : rg m EAX = tf_eax f;
  re_gs : sg m GS = tf_gs f; re_fs : sg m FS = tf_fs f; re_es : sg m ES = tf_es f; re_ds : sg m DS = tf_ds f;
  re_eip : eip m = tf_eip f; re_cs : sg m CS = tf_cs f; re_eflags : eflags m = tf_eflags f;
  re_stack : if tf_cs f mod 4 =? 0 then rg m ESP = a + 68 ∧ sg m SS = ss else rg m ESP = tf_esp f ∧ sg m SS = tf_ss f;
}.

(** The frame up to [err] popped, and then the return to the inner or to the outer level. *)
Definition popped (m : machine) : machine := run [popal; popl_seg GS; popl_seg FS; popl_seg ES; popl_seg DS; addl_i 8 ESP] m.
Lemma trapret_split m : run trapret m = let m' := popped m in if cpl m' <? cpl (same_level m') then outer_level m' else same_level m'.
Proof.
  assert (E : run trapret m = exec iret (popped m)) by (unfold trapret, popped, run; cbn [foldl]; reflexivity).
  rewrite E. unfold exec. reflexivity.
Qed.

Ltac frame_reg a Ha := regs; rewrite ?Ha; nowrap; rewrite <- ?Z.add_assoc; reflexivity.

Ltac frame_field a Ha := unfold frame_at, outer_level, same_level, popped;
  cbn [tf_edi tf_esi tf_ebp tf_ebx tf_edx tf_ecx tf_eax tf_gs tf_fs tf_es tf_ds tf_eip tf_cs tf_eflags]; frame_reg a Ha.

Section trapret.
Context (m : machine) (a : Z) (Ha : rg m ESP = a) (H0 : 0 ≤ a) (H1 : a + 76 < 4294967296).
Let f := frame_at (mm m) a.
Lemma same_cs : sg (same_level (popped m)) CS = tf_cs f.
Proof. unfold f, frame_at, same_level, popped. cbn [tf_cs]. destruct m as [[a0 c0 d0 b0 sp0 bp0 si0 di0] [cs0 ds0 es0 fs0 gs0 ss0] e fl mem]. cbn [rg gr g_esp mm] in *. frame_reg a Ha. Qed.
Lemma popped_cpl : cpl (popped m) = cpl m.
Proof. unfold cpl, popped. destruct m as [[a0 c0 d0 b0 sp0 bp0 si0 di0] [cs0 ds0 es0 fs0 gs0 ss0] e fl mem]. regs. reflexivity. Qed.
Lemma popped_mm : mm (same_level (popped m)) = mm m ∧ mm (outer_level (popped m)) = mm m.
Proof. unfold outer_level, same_level, popped. destruct m as [[a0 c0 d0 b0 sp0 bp0 si0 di0] [cs0 ds0 es0 fs0 gs0 ss0] e fl mem]. regs. done. Qed.
Lemma trapret_same : tf_cs f mod 4 = 0 → resumed f a (sg m SS) (same_level (popped m)) ∧ mm (same_level (popped m)) = mm m.
Proof.
  intros Hcs. split; [|apply popped_mm]. pose proof same_cs as Ecs. unfold f in *. clear f. destruct m as [[a0 c0 d0 b0 sp0 bp0 si0 di0] [cs0 ds0 es0 fs0 gs0 ss0] e fl mem]. cbn [rg gr g_esp mm] in *.
  split; [frame_field a Ha..|exact Ecs|frame_field a Ha|].
  rewrite Hcs. cbn [Z.eqb]. split; [|unfold same_level, popped; regs; reflexivity]. unfold same_level, popped. regs. rewrite Ha. nowrap. lia.
Qed.
Lemma trapret_outer : tf_cs f mod 4 ≠ 0 → resumed f a (sg m SS) (outer_level (popped m)) ∧ mm (outer_level (popped m)) = mm m.
Proof.
  intros Hcs. split; [|apply popped_mm]. unfold f in *. clear f. destruct m as [[a0 c0 d0 b0 sp0 bp0 si0 di0] [cs0 ds0 es0 fs0 gs0 ss0] e fl mem]. cbn [rg gr g_esp mm] in *.
  split; [frame_field a Ha..|frame_field a Ha|frame_field a Ha|].
  apply Z.eqb_neq in Hcs. rewrite Hcs. unfold frame_at, outer_level, same_level, popped. cbn [tf_esp tf_ss]. split; frame_reg a Ha.
Qed.
Lemma trapret_run : cpl m = 0 → resumed f a (sg m SS) (run trapret m) ∧ mm (run trapret m) = mm m.
Proof.
  intros Hc. rewrite trapret_split. cbv zeta. rewrite popped_cpl, Hc. unfold cpl. rewrite same_cs.
  destruct (Z.ltb_spec 0 (tf_cs f mod 4)); [apply trapret_outer; lia|]. apply trapret_same.
  pose proof (Z.mod_pos_bound (tf_cs f) 4). lia.
Qed.
End trapret.

(** ** Entering the kernel *)

(** What the cpu pushes when it leaves user mode, and what it and the code push in every case. *)
Definition outer_slots (m : machine) : list slot := if cpl m =? 0 then [] else [W16 (sg m SS); W32 (rg m ESP)].
Definition entry_base (t : tss) (m : machine) : Z := if cpl m =? 0 then rg m ESP else t_esp0 t.
(** The address of the trap frame. *)
Definition frame_addr (t : tss) (m : machine) : Z := entry_base t m - 4 * Z.of_nat (length (outer_slots m)) - 68.
Definition enter (t : tss) (g : gatedesc) (n : Z) (err : option Z) (m : machine) : machine :=
  run alltraps (run (vector n) (interrupt t g err m)).


Definition push_slot (s : slot) (m : machine) : machine := match s with W32 v => push32 v m | W16 v => push16 v m end.
Definition push_all (l : list slot) (m : machine) : machine := foldl (λ m s, push_slot s m) m l.
Lemma pushed_all l' l b m0 m :
  is_u32 b → pushed l b m0 m → 4 * Z.of_nat (length l + length l') ≤ b → pushed (l ++ l') b m0 (push_all l' m).
Proof.
  intros Hb. revert l m. induction l' as [|s l' IH]; intros l m Hp Hr; [by rewrite app_nil_r|].
  cbn [length] in Hr. change (push_all (s :: l') m) with (push_all l' (push_slot s m)).
  rewrite (app_assoc l [s] l' : l ++ s :: l' = _). apply IH; [|rewrite length_app; cbn [length]; lia].
  destruct s; [apply pushed_32|apply pushed_16]; done || lia.
Qed.

(** The code of the kernel pushes slots, with the registers at its start. *)
Definition reg_slots (m : machine) (oesp : Z) : list slot :=
  [W32 (rg m EAX); W32 (rg m ECX); W32 (rg m EDX); W32 (rg m EBX); W32 oesp; W32 (rg m EBP); W32 (rg m ESI); W32 (rg m EDI)].
Definition seg_slots (m : machine) : list slot := [W16 (sg m DS); W16 (sg m ES); W16 (sg m FS); W16 (sg m GS)].
Lemma alltraps_push m :
  let m1 := push_all (seg_slots m) m in let m2 := push_all (reg_slots m (rg m1 ESP)) m1 in
  let m3 := push32 (rg m2 ESP) m2 in let m' := run alltraps m in
  mm m' = mm m3 ∧ rg m' ESP = rg m3 ESP ∧ sg m' CS = sg m CS ∧ sg m' SS = sg m SS.
Proof.
  destruct m as [[a0 c0 d0 b0 sp0 bp0 si0 di0] [cs0 ds0 es0 fs0 gs0 ss0] e fl mem]. cbv zeta.
  cbv [push_all push_slot seg_slots reg_slots alltraps]. regs. split_and!; reflexivity.
Qed.
Lemma alltraps_run m l b m0 :
  is_u32 b → pushed l b m0 m → 4 * Z.of_nat (length l) + 52 ≤ b →
  let tf := b - 4 * Z.of_nat (length l) - 48 in let m' := run alltraps m in
  pushed (l ++ seg_slots m ++ reg_slots m (tf + 32) ++ [W32 tf]) b m0 m' ∧ sg m' CS = sg m CS ∧ sg m' SS = sg m SS.
Proof.
  intros Hb Hp Hr tf m'. destruct (alltraps_push m) as (E1&E2&E3&E4). fold m' in E1, E2, E3, E4. split; [|done].
  pose proof (pushed_all (seg_slots m) l b m0 m Hb Hp ltac:(cbn [seg_slots length]; lia)) as P1.
  set (m1 := push_all (seg_slots m) m) in *. destruct P1 as [P1m P1s]. rewrite length_app in P1s. cbn [seg_slots length] in P1s.
  assert (Eo : rg m1 ESP = tf + 32) by (unfold tf; lia). rewrite Eo in E1, E2.
  pose proof (pushed_all (reg_slots m (tf + 32)) (l ++ seg_slots m) b m0 m1 Hb) as P2.
  destruct P2 as [P2m P2s]; [split; [done|rewrite length_app; cbn [seg_slots length]; lia]|rewrite length_app; cbn [seg_slots reg_slots length]; lia|].
  set (m2 := push_all (reg_slots m (tf + 32)) m1) in *. rewrite !length_app in P2s. cbn [seg_slots reg_slots length] in P2s.
  assert (Et : rg m2 ESP = tf) by (unfold tf; lia). rewrite Et in E1, E2. rewrite !app_assoc. unfold pushed. rewrite E1, E2.
  apply pushed_32; [done| |rewrite !length_app; cbn [seg_slots reg_slots length]; lia].
  split; [done|]. rewrite !length_app. cbn [seg_slots reg_slots length]. lia.
Qed.

Definition start (t : tss) (m : machine) : machine :=
  if cpl m =? 0 then m else set_sg SS (t_ss0 t) (set_rg ESP (t_esp0 t) m).
Definition hw_slots (m : machine) (n err : Z) : list slot :=
  outer_slots m ++ [W32 (eflags m); W16 (sg m CS); W32 (eip m); W32 err; W32 n].
Lemma vector_push t g n e m :
  let m1 := run (vector n) (interrupt t g (if has_err n then Some e else None) m) in
  let m2 := push_all (hw_slots m n (if has_err n then e else 0)) (start t m) in
  mm m1 = mm m2 ∧ rg m1 ESP = rg m2 ESP ∧ sg m1 CS = gd_cs g ∧ sg m1 SS = (if cpl m =? 0 then sg m SS else t_ss0 t) ∧
  seg_slots m1 = seg_slots m ∧ ∀ o, reg_slots m1 o = reg_slots m o.
Proof.
  destruct m as [[a0 c0 d0 b0 sp0 bp0 si0 di0] [cs0 ds0 es0 fs0 gs0 ss0] ei fl mem]. destruct t as [esp0 ss1].
  cbv zeta. unfold hw_slots, outer_slots, start, interrupt, vector. set (k := cpl _ =? 0). clearbody k.
  destruct k, (has_err n), (gd_type g =? STS_IG32); cbn [app t_esp0 t_ss0];
    cbv [push_all push_slot seg_slots reg_slots]; regs; by split_and!.
Qed.
Lemma start_pushed t m : pushed [] (entry_base t m) (mm m) (start t m).
Proof.
  unfold start, entry_base, pushed. destruct (cpl m =? 0); cbn [length put_slots]; [split; [done|lia]|].
  destruct m as [[a0 c0 d0 b0 sp0 bp0 si0 di0] [cs0 ds0 es0 fs0 gs0 ss0] ei fl mem]. regs. split; [done|lia].
Qed.

(** All that is pushed on the way to [trap]. *)
Definition frame_slots (m : machine) (n err oesp : Z) : list slot := hw_slots m n err ++ seg_slots m ++ reg_slots m oesp.
Lemma enter_run t g n e m :
  is_u32 (entry_base t m) → 100 ≤ entry_base t m →
  let tf := frame_addr t m in let err := if has_err n then Some e else None in let m' := enter t g n err m in
  pushed (frame_slots m n (default 0 err) (tf + 32) ++ [W32 tf]) (entry_base t m) (mm m) m' ∧
  sg m' CS = gd_cs g ∧ sg m' SS = (if cpl m =? 0 then sg m SS else t_ss0 t).
Proof.
  intros Hu Hr tf err m'. destruct (vector_push t g n e m) as (E1&E2&E3&E4&E5&E6). fold err in E1, E2, E3, E4, E5, E6.
  set (m1 := run (vector n) (interrupt t g err m)) in *.
  assert (Hl : length (hw_slots m n (default 0 err)) = (length (outer_slots m) + 5)%nat ∧ (length (outer_slots m) ≤ 2)%nat).
  { unfold hw_slots. rewrite length_app. split; [done|]. unfold outer_slots. by destruct (cpl m =? 0); cbn; lia. }
  assert (P1 : pushed (hw_slots m n (default 0 err)) (entry_base t m) (mm m) m1).
  { assert (Ee : default 0 err = if has_err n then e else 0) by (unfold err; by destruct (has_err n)).
    rewrite Ee in *. unfold pushed. rewrite E1, E2.
    apply (pushed_all _ [] _ (mm m) (start t m) Hu (start_pushed t m)). cbn [length]. lia. }
  destruct (alltraps_run m1 _ _ _ Hu P1) as (P2&E7&E8); [lia|]. change (run alltraps m1) with m' in P2, E7, E8.
  rewrite E7, E8. split; [|done]. rewrite E5, E6 in P2.
  assert (Et : entry_base t m - 4 * Z.of_nat (length (hw_slots m n (default 0 err))) - 48 = tf) by (unfold tf, frame_addr; lia).
  rewrite Et in P2. unfold frame_slots. rewrite <- !app_assoc. exact P2.
Qed.

Record machine_ok (m : machine) : Prop := {
  mo_rg r : is_u32 (rg m r);
  mo_sg s : is_u16 (sg m s);
  mo_eip : is_u32 (eip m);
  mo_eflags : is_u32 (eflags m);
}.
(** The frame [f] describes the interrupted state [m], trap [n] and its error code. *)
Record frame_of (m : machine) (n err : Z) (f : trapframe) : Prop := {
  fo_edi : tf_edi f = rg m EDI; fo_esi : tf_esi f = rg m ESI; fo_ebp : tf_ebp f = rg m EBP; fo_ebx : tf_ebx f = rg m EBX;
  fo_edx : tf_edx f = rg m EDX; fo_ecx : tf_ecx f = rg m ECX; fo_eax : tf_eax f = rg m EAX;
  fo_gs : tf_gs f = sg m GS; fo_fs : tf_fs f = sg m FS; fo_es : tf_es f = sg m ES; fo_ds : tf_ds f = sg m DS;
  fo_trapno : tf_trapno f = n; fo_err : tf_err f = err;
  fo_eip : tf_eip f = eip m; fo_cs : tf_cs f = sg m CS; fo_eflags : tf_eflags f = eflags m;
  fo_stack : cpl m ≠ 0 → tf_esp f = rg m ESP ∧ tf_ss f = sg m SS;
}.

Section frame.
Context (t : tss) (m : machine) (n err : Z) (Hm : machine_ok m) (Hn : is_u32 n) (He : is_u32 err).
Context (Hb : is_u32 (entry_base t m)) (H100 : 100 ≤ entry_base t m).
Let tf := frame_addr t m.
Let l := frame_slots m n err (tf + 32) ++ [W32 tf].
Let mem' := put_slots l (entry_base t m) (mm m).

Lemma frame_length : length l = (length (outer_slots m) + 18)%nat.
Proof. unfold l, frame_slots, hw_slots, seg_slots, reg_slots. rewrite !length_app. cbn [length]. lia. Qed.
Lemma frame_slot k s a :
  l !! (length (outer_slots m) + k)%nat = Some s → slot_ok s → a = tf + 64 - 4 * Z.of_nat k → has_slot mem' a s.
Proof.
  intros Hk Hs ->. pose proof (put_slots_lookup l (entry_base t m) (mm m) _ s Hk Hs) as P.
  replace (tf + 64 - 4 * Z.of_nat k) with (entry_base t m - 4 * Z.of_nat (length (outer_slots m) + k) - 4) by (unfold tf, frame_addr; lia).
  exact P.
Qed.
Lemma frame_lookup k :
  l !! (length (outer_slots m) + k)%nat = ([W32 (eflags m); W16 (sg m CS); W32 (eip m); W32 err; W32 n] ++ seg_slots m ++ reg_slots m (tf + 32) ++ [W32 tf]) !! k.
Proof.
  unfold l, frame_slots, hw_slots. rewrite <- !app_assoc. rewrite lookup_app_r by lia. f_equal. lia.
Qed.
Lemma built_frame : frame_of m n err (frame_at mem' tf) ∧ load32 mem' (tf - 4) = tf.
Proof.
  destruct Hm as [Hr Hs Hei Hef].
  assert (F : ∀ k s a, ([W32 (eflags m); W16 (sg m CS); W32 (eip m); W32 err; W32 n] ++ seg_slots m ++ reg_slots m (tf + 32) ++ [W32 tf]) !! k = Some s →
    slot_ok s → a = tf + 64 - 4 * Z.of_nat k → has_slot mem' a s).
  { intros k s a Hk. apply frame_slot. by rewrite frame_lookup. }
  assert (Htf : is_u32 tf). { unfold tf, frame_addr, outer_slots. unfold is_u32 in *. destruct (cpl m =? 0); cbn [length]; lia. }
  split; [split; unfold frame_at; cbn [tf_edi tf_esi tf_ebp tf_ebx tf_edx tf_ecx tf_eax tf_gs tf_fs tf_es tf_ds tf_trapno tf_err tf_eip tf_cs tf_eflags tf_esp tf_ss]|].
  - apply (F 16%nat (W32 (rg m EDI))); [done|apply Hr|lia].
  - apply (F 15%nat (W32 (rg m ESI))); [done|apply Hr|lia].
  - apply (F 14%nat (W32 (rg m EBP))); [done|apply Hr|lia].
  - apply (F 12%nat (W32 (rg m EBX))); [done|apply Hr|lia].
  - apply (F 11%nat (W32 (rg m EDX))); [done|apply Hr|lia].
  - apply (F 10%nat (W32 (rg m ECX))); [done|apply Hr|lia].
  - apply (F 9%nat (W32 (rg m EAX))); [done|apply Hr|lia].
  - apply (F 8%nat (W16 (sg m GS))); [done|apply Hs|lia].
  - apply (F 7%nat (W16 (sg m FS))); [done|apply Hs|lia].
  - apply (F 6%nat (W16 (sg m ES))); [done|apply Hs|lia].
  - apply (F 5%nat (W16 (sg m DS))); [done|apply Hs|lia].
  - apply (F 4%nat (W32 n)); [done|done|lia].
  - apply (F 3%nat (W32 err)); [done|done|lia].
  - apply (F 2%nat (W32 (eip m))); [done|done|lia].
  - apply (F 1%nat (W16 (sg m CS))); [done|apply Hs|lia].
  - apply (F 0%nat (W32 (eflags m))); [done|done|lia].
  - intros Hc. assert (Ho : outer_slots m = [W16 (sg m SS); W32 (rg m ESP)]) by (unfold outer_slots; by destruct (Z.eqb_spec (cpl m) 0)).
    assert (Ht : tf = entry_base t m - 76) by (unfold tf, frame_addr; rewrite Ho; cbn [length]; lia).
    assert (L1 : l !! 1%nat = Some (W32 (rg m ESP))) by (unfold l, frame_slots, hw_slots; by rewrite Ho).
    assert (L0 : l !! 0%nat = Some (W16 (sg m SS))) by (unfold l, frame_slots, hw_slots; by rewrite Ho).
    pose proof (put_slots_lookup l (entry_base t m) (mm m) 1 _ L1 (Hr _)) as P1.
    pose proof (put_slots_lookup l (entry_base t m) (mm m) 0 _ L0 (Hs _)) as P0. fold mem' in P0, P1. cbn [has_slot] in P0, P1.
    replace (tf + 68) with (entry_base t m - 4 * Z.of_nat 1 - 4) by lia. by replace (tf + 72) with (entry_base t m - 4 * Z.of_nat 0 - 4) by lia.
  - apply (F 17%nat (W32 tf)); [done|done|lia].
Qed.
End frame.

(** ** Traps and their return *)

Lemma run_cons i l m : run (i :: l) m = run l (exec i m).
Proof. reflexivity. Qed.
Lemma after_trap_run m tf :
  rg m ESP = tf - 4 → 4 ≤ tf → tf + 76 < 4294967296 → cpl m = 0 →
  resumed (frame_at (mm m) tf) tf (sg m SS) (run after_trap m) ∧ mm (run after_trap m) = mm m.
Proof.
  intros He H4 Hr Hc. set (m1 := exec (addl_i 4 ESP) m).
  assert (E : rg m1 ESP = tf ∧ mm m1 = mm m ∧ cpl m1 = 0 ∧ sg m1 SS = sg m SS).
  { unfold m1, cpl in *. destruct m as [[a0 c0 d0 b0 sp0 bp0 si0 di0] [cs0 ds0 es0 fs0 gs0 ss0] ei fl mem].
    cbn [rg gr g_esp sg sr s_cs] in *. regs. nowrap. split_and!; done || lia. }
  destruct E as (E1&E2&E3&E4). unfold after_trap. rewrite run_cons. fold m1. clearbody m1. rewrite <- E2, <- E4.
  apply trapret_run; done || lia.
Qed.
Lemma frame_at_ext m m' a : (∀ x, a ≤ x < a + 76 → m' x = m x) → frame_at m' a = frame_at m a.
Proof.
  intros H. assert (H32 : ∀ k, 0 ≤ k ≤ 72 → load32 m' (a + k) = load32 m (a + k)) by (intros; apply load32_ext; intros; apply H; lia).
  assert (H16 : ∀ k, 0 ≤ k ≤ 72 → load16 m' (a + k) = load16 m (a + k)) by (intros; unfold load16; rewrite !H by lia; done).
  pose proof (H32 0 ltac:(lia)) as E0. rewrite Z.add_0_r in E0. unfold frame_at. by rewrite E0, !H32, !H16 by lia.
Qed.

Lemma frame_addr_range t m :
  is_u32 (entry_base t m) → 100 ≤ entry_base t m →
  24 ≤ frame_addr t m ∧ frame_addr t m + 68 ≤ entry_base t m ∧ (cpl m ≠ 0 → frame_addr t m + 76 = entry_base t m) ∧
  (cpl m = 0 → frame_addr t m + 68 = entry_base t m).
Proof. intros Hu H. unfold frame_addr, outer_slots. destruct (Z.eqb_spec (cpl m) 0); cbn [length]; lia. Qed.

(** The registers of the frame of [m] are those of [m]. *)
Lemma resumed_same m n err f tf ss m4 :
  frame_of m n err f → resumed f tf (if cpl m =? 0 then sg m SS else ss) m4 → (cpl m = 0 → tf + 68 = rg m ESP) →
  (∀ r, rg m4 r = rg m r) ∧ (∀ s, sg m4 s = sg m s) ∧ eip m4 = eip m ∧ eflags m4 = eflags m.
Proof.
  intros [] R Hk. assert (Hst : rg m4 ESP = rg m ESP ∧ sg m4 SS = sg m SS).
  { pose proof (re_stack _ _ _ _ R) as Hs. rewrite fo_cs0 in Hs. fold (cpl m) in Hs.
    destruct (Z.eqb_spec (cpl m) 0) as [E|E]; [by rewrite <- (Hk E)|]. destruct (fo_stack0 E). split; etrans; [apply Hs|done|apply Hs|done]. }
  destruct R, Hst. split_and!; [intros []; congruence|intros []; congruence|congruence|congruence].
Qed.

(** The state in which [trap] is called. *)
Lemma enter_frame t g n e m :
  machine_ok m → 0 ≤ n < 256 → is_u32 e → is_u32 (entry_base t m) → 100 ≤ entry_base t m →
  let err := if has_err n then Some e else None in
  let m' := enter t g n err m in let tf := frame_addr t m in
  frame_of m n (default 0 err) (frame_at (mm m') tf) ∧ load32 (mm m') (tf - 4) = tf ∧ rg m' ESP = tf - 4 ∧
  (∀ x, x < tf - 4 ∨ entry_base t m ≤ x → mm m' x = mm m x) ∧
  sg m' CS = gd_cs g ∧ sg m' SS = (if cpl m =? 0 then sg m SS else t_ss0 t).
Proof.
  intros Hm Hn He Hu H100 err m' tf.
  assert (Hee : is_u32 (default 0 err)) by (unfold err; destruct (has_err n); done).
  destruct (enter_run t g n e m Hu H100) as ([Pm Ps]&Pcs&Pss). fold err m' tf in Pm, Ps, Pcs, Pss.
  destruct (built_frame t m n (default 0 err) Hm ltac:(unfold is_u32; lia) Hee Hu H100) as [Hf Harg]. fold tf in Hf, Harg. rewrite <- Pm in Hf, Harg.
  pose proof (frame_length t m n (default 0 err)) as Hlen. fold tf in Hlen.
  split_and!; try done; [rewrite Ps, Hlen; unfold tf, frame_addr; lia|].
  intros x Hx. rewrite Pm. apply put_slots_ne. rewrite Hlen. unfold tf, frame_addr in Hx. lia.
Qed.

(** C22. A trap is transparent to the program it interrupts, in user and in
    kernel mode.  The code of vector [n] and [alltraps] pass to [trap] the
    address of a [struct trapframe] whose fields, at the offsets of the C struct,
    are the registers of the interrupted program, the number of the trap and
    the error code (0 if the cpu has none); only the stack below the entry
    point is written.  If [trap] returns without changing the frame, the
    return path restores all registers, whatever [trap] did to them. *)
Theorem trap_transparent t g n e m m3 :
  machine_ok m → 0 ≤ n < 256 → is_u32 e → is_u32 (entry_base t m) ∧ 100 ≤ entry_base t m ∧ entry_base t m + 8 < 4294967296 →
  gd_cs g mod 4 = 0 →
  let err := if has_err n then Some e else None in
  let m' := enter t g n err m in let tf := frame_addr t m in
  frame_of m n (default 0 err) (frame_at (mm m') tf) ∧ load32 (mm m') (rg m' ESP) = tf ∧
  (∀ x, x < tf - 4 ∨ entry_base t m ≤ x → mm m' x = mm m x) ∧
  (rg m3 ESP = rg m' ESP → sg m3 CS = sg m' CS → sg m3 SS = sg m' SS → (∀ x, tf ≤ x < tf + 76 → mm m3 x = mm m' x) →
   let m4 := run after_trap m3 in
   (∀ r, rg m4 r = rg m r) ∧ (∀ s, sg m4 s = sg m s) ∧ eip m4 = eip m ∧ eflags m4 = eflags m ∧ mm m4 = mm m3).
Proof.
  intros Hm Hn He (Hu&H100&Htop) Hg err m' tf.
  destruct (enter_frame t g n e m Hm Hn He Hu H100) as (Hf&Harg&Hesp&Hout&Pcs&Pss). fold err m' tf in Hf, Harg, Hesp, Hout, Pcs, Pss.
  destruct (frame_addr_range t m Hu H100) as (R1&R2&R3&R4). fold tf in R1, R2, R3, R4.
  split; [done|]. split; [by rewrite Hesp|]. split; [done|].
  intros E1 E2 E3 Hsame m4. destruct (after_trap_run m3 tf) as [R Em]; [by rewrite E1|lia|lia|unfold cpl; by rewrite E2, Pcs|].
  fold m4 in R, Em. rewrite (frame_at_ext _ _ _ Hsame), E3, Pss in R.
  destruct (resumed_same m n (default 0 err) _ tf _ m4 Hf R) as (G1&G2&G3&G4); [|done].
  intros Hc. rewrite R4 by done. unfold entry_base. by rewrite Hc.
Qed.

(** ** The interrupt table *)

Lemma tvinit_loop_lookup vectors n i k : (k < n)%nat →
  tvinit_loop vectors n i !! k = Some (SETGATE false (Z.shiftl SEG_KCODE 3) (vectors (i + Z.of_nat k)) 0).
Proof.
  revert i k. induction n as [|n IH]; intros i k Hk; [lia|]. cbn [tvinit_loop]. destruct k as [|k]; [by rewrite Z.add_0_r|].
  change ((?a :: ?b) !! S k) with (b !! k). rewrite IH by lia. do 3 f_equal. lia.
Qed.
Lemma tvinit_gate vectors n : 0 ≤ n < 256 →
  tvinit vectors !! Z.to_nat n = Some (SETGATE (n =? T_SYSCALL) 8 (vectors n) (if n =? T_SYSCALL then DPL_USER else 0)).
Proof.
  intros Hn. unfold tvinit. destruct (Z.eqb_spec n T_SYSCALL) as [->|Hne].
  - apply list_lookup_insert_eq. apply lookup_lt_is_Some. rewrite tvinit_loop_lookup by (vm_compute; lia). by eexists.
  - rewrite list_lookup_insert_ne by (unfold T_SYSCALL in *; lia). rewrite tvinit_loop_lookup by lia. do 3 f_equal. lia.
Qed.
Lemma gate_off_SETGATE b s off d : is_u32 off → gate_off (SETGATE b s off d) = off.
Proof.
  unfold is_u32. intros Ho. unfold gate_off, SETGATE. cbn [off_15_0 off_31_16]. change 65535 with (Z.ones 16).
  rewrite Z.land_ones, Z.shiftr_div_pow2 by lia. change (2 ^ 16) with 65536. zdm.
Qed.

Lemma interrupt_regs t g err m :
  let m' := interrupt t g err m in eip m' = gate_off g ∧ sg m' CS = gd_cs g ∧
  eflags m' = if gd_type g =? STS_IG32 then Z.ldiff (eflags m) FL_IF else eflags m.
Proof.
  cbv zeta. unfold interrupt. destruct m as [[a0 c0 d0 b0 sp0 bp0 si0 di0] [cs0 ds0 es0 fs0 gs0 ss0] ei fl mem].
  set (k := cpl _ =? 0). clearbody k. destruct k, err, (gd_type g =? STS_IG32); regs; by split_and!.
Qed.

(** A user program can enter the kernel with [int] only through the system
    call vector, with interrupts left on; [int n] for every other [n] raises the
    general protection exception, with interrupts off.  In both cases the cpu
    runs the handler that [tvinit] put in the table, at kernel level. *)
Theorem int_from_user vectors t n m :
  (∀ i, is_u32 (vectors i)) → 0 ≤ n < 256 → cpl m = 3 →
  let v := if n =? T_SYSCALL then T_SYSCALL else 13 in
  ∃ m', int_n t (tvinit vectors) n m = Some (v, m') ∧ eip m' = vectors v ∧ cpl m' = 0 ∧
    eflags m' = if n =? T_SYSCALL then eflags m else Z.ldiff (eflags m) FL_IF.
Proof.
  intros Hv Hn Hc v. unfold int_n. rewrite tvinit_gate by done. cbn [mbind option_bind SETGATE gd_dpl]. rewrite Hc. unfold v.
  pose proof (tvinit_gate vectors 13 ltac:(lia)) as H13. change (Z.to_nat 13) with 13%nat in H13. change (13 =? T_SYSCALL) with false in H13. cbv iota in H13.
  destruct (n =? T_SYSCALL) eqn:E.
  - apply Z.eqb_eq in E as ->. cbn [Z.ltb Z.compare DPL_USER]. eexists. split; [done|].
    destruct (interrupt_regs t (SETGATE true 8 (vectors T_SYSCALL) DPL_USER) None m) as (E1&E2&E3). unfold cpl. rewrite E1, E2, E3.
    by rewrite gate_off_SETGATE by auto.
  - cbn [Z.ltb Z.compare]. rewrite H13. cbn [mbind option_bind]. eexists. split; [done|].
    destruct (interrupt_regs t (SETGATE false 8 (vectors 13) 0) (Some (8 * n + 2)) m) as (E1&E2&E3). unfold cpl.
    rewrite E1, E2, E3. by rewrite gate_off_SETGATE by auto.
Qed.

(** ** System calls *)

Lemma frame_at_eax m m' a r :
  (∀ x, a ≤ x < a + 76 → x < a + 28 ∨ a + 32 ≤ x → m' x = m x) → load32 m' (a + 28) = r → frame_at m' a = set_tf_eax r (frame_at m a).
Proof.
  intros H Hr.
  assert (H32 : ∀ k, 0 ≤ k ≤ 72 → k ≤ 24 ∨ 32 ≤ k → load32 m' (a + k) = load32 m (a + k)) by (intros; apply load32_ext; intros; apply H; lia).
  assert (H16 : ∀ k, 32 ≤ k ≤ 72 → load16 m' (a + k) = load16 m (a + k)) by (intros; unfold load16; rewrite !H by lia; done).
  pose proof (H32 0 ltac:(lia) ltac:(lia)) as E0. rewrite Z.add_0_r in E0. unfold frame_at, set_tf_eax. rewrite Hr, E0, !H32, !H16 by lia. done.
Qed.
Lemma ret_run m : let m' := run SYSCALL_ret m in
  eip m' = load32 (mm m) (rg m ESP) ∧ rg m' ESP = rg m ESP +u 4 ∧ (∀ r, r ≠ ESP → rg m' r = rg m r) ∧ (∀ s, sg m' s = sg m s) ∧ eflags m' = eflags m.
Proof.
  cbv zeta. unfold SYSCALL_ret. destruct m as [[a0 c0 d0 b0 sp0 bp0 si0 di0] [cs0 ds0 es0 fs0 gs0 ss0] ei fl mem]. regs.
  split_and!; try done; by intros [].
Qed.
Lemma mov_eax_run v m : let m' := run (SYSCALL v) m in
  mm m' = mm m ∧ rg m' EAX = v ∧ (∀ r, r ≠ EAX → rg m' r = rg m r) ∧ (∀ s, sg m' s = sg m s) ∧ eflags m' = eflags m ∧ eip m' = eip m.
Proof.
  cbv zeta. unfold SYSCALL. destruct m as [[a0 c0 d0 b0 sp0 bp0 si0 di0] [cs0 ds0 es0 fs0 gs0 ss0] ei fl mem]. regs.
  split_and!; try done; by intros [].
Qed.

Lemma mov_eax_ok v m : machine_ok m → is_u32 v → machine_ok (run (SYSCALL v) m).
Proof.
  intros [Hr Hs He Hf] Hv. destruct (mov_eax_run v m) as (_&M2&M3&M4&M5&M6). split; [|by intros s; rewrite M4|by rewrite M6|by rewrite M5].
  intros q. destruct (decide (q = EAX)) as [->|]; [by rewrite M2|by rewrite M3].
Qed.

Lemma stub_exit m m1 n err f r tf ss m4 :
  cpl m = 3 → rg m ESP + 4 < 4294967296 → 0 ≤ rg m ESP → (∀ q, q ≠ EAX → rg m1 q = rg m q) → (∀ s, sg m1 s = sg m s) → eflags m1 = eflags m →
  frame_of m1 n err f → tf_esp f = rg m ESP → tf_ss f = sg m SS → resumed (set_tf_eax r f) tf ss m4 →
  let m5 := run SYSCALL_ret m4 in
  eip m5 = load32 (mm m4) (rg m ESP) ∧ rg m5 EAX = r ∧ rg m5 ESP = rg m ESP + 4 ∧
  (∀ q, q ≠ EAX → q ≠ ESP → rg m5 q = rg m q) ∧ (∀ s, sg m5 s = sg m s) ∧ eflags m5 = eflags m.
Proof.
  intros Hc Hs1 Hs0 M3 M4 M5 Hf Fesp Fss R m5. destruct (ret_run m4) as (G1&G2&G3&G4&G5). fold m5 in G1, G2, G3, G4, G5. clearbody m5.
  destruct Hf, R. cbn [set_tf_eax tf_edi tf_esi tf_ebp tf_ebx tf_edx tf_ecx tf_eax tf_gs tf_fs tf_es tf_ds tf_eip tf_cs tf_eflags tf_esp tf_ss] in *.
  rewrite fo_cs0, M4 in re_stack0. unfold cpl in Hc. rewrite Hc in re_stack0. cbn [Z.eqb] in re_stack0.
  destruct re_stack0 as [Sesp Sss]. rewrite G1, G2, G5, Sesp, Fesp.
  split; [done|]. split; [by rewrite G3|]. split; [rewrite u32_id by (unfold is_u32; lia); done|].
  split; [intros [] ? ?; try done; rewrite G3 by done; rewrite <- M3 by done; congruence|].
  split; [intros []; rewrite G4; rewrite <- ?M4; congruence|congruence].
Qed.

(** C23. A system call, from the stub of the user library and back.  The stub for
    call number [num] enters the kernel through the system call vector, with
    [num] in the field [eax] of the frame, and with the stack pointer of the
    frame at the return address of the stub, so that argument [k] is the word at
    [esp + 4 + 4 k], where [argint] reads it.  If the kernel stores [r] into
    the field [eax] and leaves the rest of the frame, the stub returns [r] to
    its caller with all other registers as they were. *)
Theorem syscall_stub vectors t num m m3 r :
  machine_ok m → cpl m = 3 → is_u32 num → 0 ≤ rg m ESP ∧ rg m ESP + 4 < 4294967296 → (∀ i, is_u32 (vectors i)) →
  100 ≤ t_esp0 t ∧ t_esp0 t < 4294967296 →
  let tf := t_esp0 t - 76 in
  ∃ mi, int_n t (tvinit vectors) T_SYSCALL (run (SYSCALL num) m) = Some (T_SYSCALL, mi) ∧ eip mi = vectors T_SYSCALL ∧
  let m' := run alltraps (run (vector T_SYSCALL) mi) in let f := frame_at (mm m') tf in
  tf_trapno f = T_SYSCALL ∧ tf_eax f = num ∧ tf_esp f = rg m ESP ∧
  (rg m3 ESP = rg m' ESP → sg m3 CS = sg m' CS →
   (∀ x, tf ≤ x < tf + 76 → x < tf + 28 ∨ tf + 32 ≤ x → mm m3 x = mm m' x) → load32 (mm m3) (tf + 28) = r →
   load32 (mm m3) (rg m ESP) = load32 (mm m) (rg m ESP) →
   let m5 := run SYSCALL_ret (run after_trap m3) in
   eip m5 = load32 (mm m) (rg m ESP) ∧ rg m5 EAX = r ∧ rg m5 ESP = rg m ESP + 4 ∧
   (∀ q, q ≠ EAX → q ≠ ESP → rg m5 q = rg m q) ∧ (∀ s, sg m5 s = sg m s) ∧ eflags m5 = eflags m).
Proof.
  intros Hm Hc Hnum Hsp Hv Ht tf. destruct (mov_eax_run num m) as (M1&M2&M3&M4&M5&M6). set (m1 := run (SYSCALL num) m) in *.
  pose proof (mov_eax_ok num m Hm Hnum) as Hm1. fold m1 in Hm1.
  assert (Hc1 : cpl m1 = 3) by (unfold cpl in *; by rewrite M4). clearbody m1.
  set (g := SETGATE true 8 (vectors T_SYSCALL) DPL_USER). exists (interrupt t g None m1).
  assert (Hb : entry_base t m1 = t_esp0 t ∧ frame_addr t m1 = tf).
  { unfold frame_addr, entry_base, outer_slots. rewrite Hc1. cbn [Z.eqb length]. split; [done|]. unfold tf. lia. }
  destruct Hb as [Hb Hfa]. split.
  { unfold int_n. rewrite tvinit_gate by done. cbn [mbind option_bind]. change (T_SYSCALL =? T_SYSCALL) with true. cbv iota. by rewrite Hc1. }
  split; [rewrite (proj1 (interrupt_regs t g None m1)); by apply gate_off_SETGATE|].
  change (run alltraps (run (vector T_SYSCALL) (interrupt t g None m1))) with (enter t g T_SYSCALL (if has_err T_SYSCALL then Some 0 else None) m1).
  set (m' := enter t g T_SYSCALL _ m1).
  destruct (enter_frame t g T_SYSCALL 0 m1 Hm1 ltac:(done) ltac:(done)) as (Hf&_&Hesp&_&Pcs&Pss); [rewrite Hb; unfold is_u32; lia|rewrite Hb; lia|].
  fold m' in Hf, Hesp, Pcs, Pss. rewrite Hfa in *. cbv zeta. set (f := frame_at (mm m') tf) in *.
  pose proof (fo_stack _ _ _ _ Hf ltac:(by rewrite Hc1)) as [Fesp Fss]. rewrite M3 in Fesp by done. rewrite M4 in Fss.
  split; [by apply Hf|]. split; [rewrite <- M2; by apply Hf|]. split; [done|].
  intros E1 E2 Hsame Hr Hret. destruct (after_trap_run m3 tf) as [R Em]; [by rewrite E1|unfold tf; lia|unfold tf; lia|unfold cpl; by rewrite E2, Pcs|].
  rewrite (frame_at_eax _ _ _ _ Hsame Hr) in R. fold f in R. rewrite <- Hret, <- Em. apply (stub_exit m m1 T_SYSCALL 0 f r tf (sg m3 SS)); try done; lia.
Qed.

(** ** A new process *)

(** C25. The stack that [allocproc] prepares (a context of zeros with [forkret],
    the address of [trapret], the trap frame) works as intended: the first
    [swtch] to it runs [forkret], [forkret] returns to [trapret], and that
    enters user mode with the registers of the trap frame. *)
Theorem first_run m sp ctx forkret trapret_addr mF :
  rg m ESP = sp → 16 ≤ sp ∧ sp + 12 < 4294967296 → load32 (mm m) (sp + 8) = ctx → 0 ≤ ctx ∧ ctx + 100 < 4294967296 →
  ctx_at (mm m) ctx = Ctx 0 0 0 0 forkret → load32 (mm m) (ctx + 20) = trapret_addr →
  sp ≤ ctx ∨ ctx + 100 ≤ sp - 16 → let old := load32 (mm m) (sp + 4) in old + 4 ≤ ctx ∨ ctx + 100 ≤ old →
  let tf := ctx + 24 in let f := frame_at (mm m) tf in tf_cs f mod 4 = 3 →
  let m1 := run swtch m in
  eip m1 = forkret ∧
  (rg mF ESP = rg m1 ESP → cpl mF = 0 → (∀ x, ctx + 20 ≤ x < ctx + 100 → mm mF x = mm m1 x) →
   let m2 := run [ret] mF in eip m2 = trapret_addr ∧
   let m3 := run trapret m2 in resumed f tf (sg mF SS) m3 ∧ cpl m3 = 3 ∧ rg m3 ESP = tf_esp f).
Proof.
  intros Hsp Hr Hnew Hc Hctx Htr Hd1 old Hd2 tf f Hcs m1.
  pose proof (swtch_run m sp Hsp Hr) as R. rewrite Hnew in R. destruct R as (_&_&_&_&Ei&Es&Em&_&_); [lia..|]. fold m1 old in Ei, Es, Em.
  assert (Hmem : ∀ x, ctx ≤ x < ctx + 100 → mm m1 x = mm m x).
  { intros x Hx. rewrite Em. rewrite store32_ne by lia. unfold saved_stack. apply put_slots_ne. cbn [length]. lia. }
  split. { rewrite Ei, <- Em. rewrite (ctx_at_ext (mm m)) by (intros; apply Hmem; lia). by rewrite Hctx. }
  intros HF HcF HmF m2. rewrite Es in HF. destruct (ret_run mF) as (G1&G2&_&G4&_). change (run SYSCALL_ret mF) with m2 in G1, G2, G4.
  assert (G6 : mm m2 = mm mF). { unfold m2. destruct mF as [[a0 c0 d0 b0 sp0 bp0 si0 di0] [cs0 ds0 es0 fs0 gs0 ss0] ei fl mem]. reflexivity. }
  clearbody m2. rewrite HF in G1, G2. rewrite u32_id in G2 by (unfold is_u32; lia).
  split. { rewrite G1, <- Htr. apply load32_ext. intros x Hx. rewrite HmF, Hmem by lia. done. }
  destruct (trapret_run m2 tf) as [R _]; [unfold tf; lia|unfold tf; lia|unfold tf; lia|unfold cpl in *; by rewrite G4|].
  assert (Ef : frame_at (mm m2) tf = f) by (apply frame_at_ext; unfold tf; intros x Hx; rewrite G6, HmF, Hmem by lia; done).
  rewrite Ef, G4 in R. split; [done|]. unfold cpl. rewrite (re_cs _ _ _ _ R). split; [done|].
  pose proof (re_stack _ _ _ _ R) as Hst. rewrite Hcs in Hst. cbn [Z.eqb] in Hst. apply Hst.
Qed.

(** ** Instances *)

Definition demo_user : machine := Mach (Gregs 1 2 3 4 20000 5 6 7) (Sregs 27 35 35 35 35 35) 4096 514 (λ x, x mod 251).
Definition demo_tss : tss := Tss 9000 16.
Definition demo_gate : gatedesc := SETGATE false 8 1048576 0.
Lemma demo_user_ok : machine_ok demo_user.
Proof. split; [intros []| intros []| |]; unfold is_u32, is_u16; vm_compute; split; congruence. Qed.

Lemma trap_transparent_witness :
  let m' := enter demo_tss demo_gate 14 (Some 6) demo_user in let m4 := run after_trap m' in
  frame_of demo_user 14 6 (frame_at (mm m') (frame_addr demo_tss demo_user)) ∧ (∀ r, rg m4 r = rg demo_user r) ∧ eip m4 = 4096.
Proof.
  destruct (trap_transparent demo_tss demo_gate 14 6 demo_user (enter demo_tss demo_gate 14 (Some 6) demo_user)
    demo_user_ok ltac:(lia) ltac:(done) ltac:(unfold is_u32; vm_compute; done) eq_refl) as (A&_&_&B).
  destruct (B eq_refl eq_refl eq_refl (λ _ _, eq_refl)) as (B1&_&B3&_). exact (conj A (conj B1 B3)).
Defined.
Lemma int_from_user_witness : ∃ m', int_n demo_tss (tvinit (λ i, 1048576 + 16 * (i mod 256))) 3 demo_user = Some (13, m') ∧ eip m' = 1048784 ∧ cpl m' = 0.
Proof.
  destruct (int_from_user (λ i, 1048576 + 16 * (i mod 256)) demo_tss 3 demo_user) as (m'&A&B&C&_); [|lia|done|by exists m'].
  intros i. unfold is_u32. zdm.
Defined.
Definition demo_vectors (i : Z) : Z := 1048576 + 16 * (i mod 256).
Definition demo_enter : machine := enter demo_tss (SETGATE true 8 (demo_vectors T_SYSCALL) DPL_USER) T_SYSCALL None (run (SYSCALL 5) demo_user).
(** The handler stores 77. *)
Definition demo_handled : machine := set_mm (store32 (mm demo_enter) 8952 77) demo_enter.
Lemma demo_handled_ok :
  rg demo_handled ESP = rg demo_enter ESP ∧ sg demo_handled CS = sg demo_enter CS ∧
  (∀ x, 8924 ≤ x < 8924 + 76 → x < 8924 + 28 ∨ 8924 + 32 ≤ x → mm demo_handled x = mm demo_enter x) ∧ load32 (mm demo_handled) (8924 + 28) = 77 ∧
  load32 (mm demo_handled) (rg demo_user ESP) = load32 (mm demo_user) (rg demo_user ESP).
Proof.
  split; [by vm_compute|]. split; [by vm_compute|]. split; [|split; by vm_compute].
  unfold demo_handled. generalize demo_enter. intros d x Hx Hx'. apply store32_ne. lia.
Qed.
Lemma syscall_stub_witness :
  let m5 := run SYSCALL_ret (run after_trap demo_handled) in
  rg m5 EAX = 77 ∧ rg m5 ESP = 20004 ∧ rg m5 EBX = 4 ∧ eip m5 = load32 (λ x, x mod 251) 20000.
Proof.
  destruct (syscall_stub demo_vectors demo_tss 5 demo_user demo_handled 77 demo_user_ok eq_refl ltac:(done) ltac:(vm_compute; done))
    as (mi&E&_&_&_&_&B); [intros i; unfold is_u32, demo_vectors; zdm|vm_compute; done|].
  unfold int_n in E. rewrite tvinit_gate in E by done. cbn [mbind option_bind] in E. injection E as <-.
  change (run alltraps (run (vector T_SYSCALL) _)) with demo_enter in B. change (t_esp0 demo_tss - 76) with 8924 in B.
  destruct demo_handled_ok as (H1&H2&H3&H4&H5). destruct (B H1 H2 H3 H4 H5) as (B1&B2&B3&B4&_).
  exact (conj B2 (conj B3 (conj (B4 EBX ltac:(done) ltac:(done)) B1))).
Defined.

(** A stack of 100 bytes at 3000 for the new process, the scheduler on a stack below 2000. *)
Definition demo_frame_mem : mem :=
  store16 (store32 (store32 (store32 (store32 (λ _, 0) 1000 1048576) 1004 1500) 1008 3000) 3016 70000) 3084 27.
Definition demo_sched : machine := Mach (Gregs 1 2 3 4 1000 5 6 7) (Sregs 8 16 16 0 0 16) 4096 2 (store32 demo_frame_mem 3020 80000).
Lemma first_run_witness : eip (run swtch demo_sched) = 70000 ∧
  eip (run [ret] (run swtch demo_sched)) = 80000 ∧ cpl (run trapret (run [ret] (run swtch demo_sched))) = 3.
Proof.
  destruct (first_run demo_sched 1000 3000 70000 80000 (run swtch demo_sched) eq_refl ltac:(lia) ltac:(vm_compute; done) ltac:(lia)
    ltac:(vm_compute; done) ltac:(vm_compute; done) ltac:(lia) ltac:(left; by vm_compute) ltac:(vm_compute; done)) as [A B].
  destruct (B eq_refl eq_refl (λ _ _, eq_refl)) as (B1&_&B2&_). exact (conj A (conj B1 B2)).
Defined.

(** Two threads: A on a stack at 1000 calls [swtch(1500, 3000)], B on a stack at 5000 calls [swtch(1504, 984)]. *)
Definition demo_A : machine := Mach (Gregs 1 2 3 4 1000 5 6 7) (Sregs 8 16 16 0 0 16) 4096 2
  (store32 (store32 (store32 (store32 (λ _, 0) 1000 70000) 1004 1500) 1008 3000) 3016 80000).
Definition demo_B : machine := Mach (Gregs 0 0 0 0 5000 0 0 0) (Sregs 8 16 16 0 0 16) 80000 2
  (store32 (store32 (mm (run swtch demo_A)) 5004 1504) 5008 984).
Lemma demo_AB_ok : (∀ x, 1000 - 16 ≤ x < 1000 + 4 → mm demo_B x = mm (run swtch demo_A) x) ∧
  load32 (mm demo_A) (1000 + 4) = 1500 ∧ load32 (mm demo_A) (1000 + 8) = 3000 ∧ load32 (mm demo_B) (5000 + 4) = 1504.
Proof.
  split; [|split_and!; by vm_compute]. unfold demo_B. cbn [mm]. generalize (mm (run swtch demo_A)). intros d x Hx. by rewrite !store32_ne by lia.
Qed.
Lemma swtch_resumes_witness :
  eip (run swtch demo_B) = load32 (mm demo_A) 1000 ∧ rg (run swtch demo_B) ESP = 1000 + 4 ∧ rg (run swtch demo_B) EBP = rg demo_A EBP ∧
  rg (run swtch demo_B) EBX = rg demo_A EBX ∧ rg (run swtch demo_B) ESI = rg demo_A ESI ∧ rg (run swtch demo_B) EDI = rg demo_A EDI.
Proof.
  destruct demo_AB_ok as (S&L1&L2&L3).
  exact (swtch_resumes demo_A demo_B 1000 5000 eq_refl ltac:(lia) ltac:(vm_compute; done) ltac:(rewrite L2; lia) ltac:(rewrite L1; right; lia)
    eq_refl ltac:(lia) S ltac:(rewrite L1; by vm_compute) ltac:(right; lia) ltac:(rewrite L3; right; lia)).
Defined.
