(* ===== verification/FileRead.v ===== *)
(** * Programs that read files of the kernel

    [fileread] of file.c, from the system call down to the blocks of the disk,
    is a stream of the contents of the file, as programs expect of [read]:
    the laws against which the user programs are verified hold of the kernel. *)

From S2P Require Import Prelude Params CString Cprintf Uprintf Ulib Grep Upgms UpgmThms Sleeplock Blocks Bio Log LogThms Fs BlockLaws FsBlocks FsFile FsWrite FsThms Pipe Kalloc File.

Section read.
Context {B K : Type} `{!BlockOps B, !BlockLaws B} (devsw : Z → devops (B := B)).
Context (g : bgeo) (base : view) (ds : Z) (sb : superblock) (v : view) (lg : list Z).
Context (Hla : layout g sb ds) (Hlg : (length lg < Z.to_nat NBUF)%nat).

(** The inode is in memory, in use and not locked. *)
Record idle_inode (ip : inode) : Prop := {
  id_file : file_ok g sb ds v ip;
  id_type : i_type ip ≠ T_DEV;
  id_valid : i_valid ip ≠ 0;
  id_ref : 1 ≤ i_ref ip;
  id_lock : locked (i_lock ip) = 0;
}.
(** Slot [fi] of the file table is open for reading on the inode in slot [i] of
    the cache, whose contents are [c], at offset [off]. *)
Record reading (fi i : nat) (c : list Z) (off : Z) (w : flst B K) : Prop := {
  re_open : ∃ f, ftable w !! fi = Some f ∧ fd_type f = FD_INODE ∧ fd_readable f ≠ 0 ∧ fd_ip f = Some i ∧ fd_off f = off;
  re_inode : ∃ s0 ip, at_fs g base s0 (fl_fs w) v lg ∅ ∧ f_sb s0 = sb ∧ icache s0 !! i = Some ip ∧ idle_inode ip ∧ content v ip = c;
  re_off : 0 ≤ off ≤ Z.of_nat (length c);
}.

Lemma wp_fsm {A} (m : M (fss B) A) (Q : A → flst B K → Prop) w :
  wp m (λ a x, Q a (on_fs (λ _, x) w)) (fl_fs w) → wp (fsm m) Q w.
Proof. unfold wp, fsm. by destruct (m (fl_fs w)). Qed.
Lemma file_ok_lock ip l : file_ok g sb ds v ip → file_ok g sb ds v (set_ilock l ip).
Proof. by intros []; split. Qed.

Lemma ilock_wp s0 s i ip (Q : unit → fss B → Prop) :
  at_fs g base s0 s v lg ∅ → icache s0 !! i = Some ip → idle_inode ip →
  (∀ s', at_fs g base (put_inode i (set_ilock (SleepLock 1 (f_me s0)) ip) s0) s' v lg ∅ → Q tt s') →
  wp (ilock (Some i)) Q s.
Proof.
  intros Ha Hi [Hf Ht Hv Hr Hl] HQ. cbn [ilock]. apply wp_bind. eapply wp_inode_get; [done|done|].
  destruct (Z.ltb_spec (i_ref ip) 1); [lia|]. apply wp_bind. unfold ilk_acquire. apply wp_bind. eapply wp_inode_get; [done|done|].
  apply wp_bind, wp_gets. unfold acquiresleep. rewrite Hl, Z.eqb_refl.
  assert (f_me s = f_me s0) as -> by (by rewrite (at_rest _ _ _ _ _ _ _ Ha)).
  eapply wp_inode_upd; [done|done|]. intros s' Ha'. apply wp_bind. eapply wp_inode_get; [done|by eapply put_inode_lookup|].
  cbn [i_valid set_ilock]. destruct (Z.eqb_spec (i_valid ip) 0); [done|]. by apply wp_ret, HQ.
Qed.
Lemma iunlock_wp s0 s i ip (Q : unit → fss B → Prop) :
  at_fs g base s0 s v lg ∅ → icache s0 !! i = Some ip → i_lock ip = SleepLock 1 (f_me s0) → 1 ≤ i_ref ip →
  (∀ s', at_fs g base (put_inode i (set_ilock (SleepLock 0 0) ip) s0) s' v lg ∅ → Q tt s') →
  wp (iunlock (Some i)) Q s.
Proof.
  intros Ha Hi El Hr HQ. cbn [iunlock]. apply wp_bind. eapply wp_inode_get; [done|done|]. apply wp_bind, wp_gets.
  assert (f_me s = f_me s0) as -> by (by rewrite (at_rest _ _ _ _ _ _ _ Ha)).
  rewrite El. unfold holdingsleep. cbn [locked lk_pid]. rewrite Z.eqb_refl. destruct (Z.ltb_spec (i_ref ip) 1); [lia|]. cbn [negb andb orb Z.eqb].
  unfold ilk_release. eapply wp_inode_upd; [done|done|]. intros s' Ha'. by apply HQ.
Qed.

Lemma content_length ip : file_ok g sb ds v ip → Z.of_nat (length (content v ip)) = i_size ip.
Proof. intros Hf. unfold content. rewrite length_fbytes. pose proof (fo_size _ _ _ _ _ Hf). lia. Qed.

(** The part of [fileread] under the lock of the inode. *)
Lemma locked_read_wp fi i c off w f s0 ip n (Q : Z * list Z → flst B K → Prop) :
  at_fs g base s0 (fl_fs w) v lg ∅ → f_sb s0 = sb → icache s0 !! i = Some ip → i_type ip ≠ T_DEV → file_ok g sb ds v ip → content v ip = c →
  i_lock ip = SleepLock 1 (f_me s0) → 1 ≤ i_ref ip → ftable w !! fi = Some f → fd_off f = off → fd_ip f = Some i →
  0 ≤ off ≤ Z.of_nat (length c) → 0 ≤ n < 2147483648 →
  (∀ s', let r := Z.min n (Z.of_nat (length c) - off) in
     at_fs g base (put_inode i (set_ilock (SleepLock 0 0) ip) s0) s' v lg ∅ →
     Q (r, take (Z.to_nat n) (drop (Z.to_nat off) c)) (on_fs (λ _, s') (on_ftable (<[fi := set_foff (off + r) f]>) w))) →
  wp ('(r, l) ← fsm (readi devsw i (fd_off f) (u32 n));
      when (0 <? r) (file_upd fi (λ f, set_foff (fd_off f +u r) f));;
      fsm (iunlock (fd_ip f));;
      mret (r, l)) Q w.
Proof.
  intros Ha Esb Hi Ht Hf Ec El Hr Efi Eo Eip Hoff Hn HQ. pose proof (content_length ip Hf) as Hlen. rewrite Ec in Hlen.
  pose proof (fo_size _ _ _ _ _ Hf) as Hsz. unfold MAXFILE, NDIRECT, NINDIRECT, BSIZE in Hsz. change (512 / 4) with 128 in Hsz.
  rewrite u32_id by (unfold is_u32; lia). rewrite Eo. rewrite <- Esb in *.
  apply wp_bind, wp_fsm. eapply wp_mono; [apply (readi_contents devsw g base ds s0 _ i ip v lg off n); try done; lia|].
  cbn beta. intros [r0 l0] s1 [[= -> ->] H1]. rewrite Ec, <- Hlen. set (r := Z.min n (Z.of_nat (length c) - off)) in *.
  set (w1 := on_fs (λ _, s1) w). set (w2 := on_ftable (<[fi := set_foff (off + r) f]>) w1).
  assert (Hw2 : when (0 <? r) (file_upd fi (λ f, set_foff (fd_off f +u r) f)) w1 = Ok tt w2).
  { unfold when, file_upd. destruct (Z.ltb_spec 0 r).
    - change (ftable w1) with (ftable w). rewrite Efi, Eo, u32_id by (unfold is_u32, r; lia). done.
    - assert (r = 0) as Er by lia. unfold w2. rewrite Er, Z.add_0_r. unfold on_ftable, w1. rewrite list_insert_id; [done|].
      cbn. rewrite Efi. f_equal. destruct f. cbn in *. by subst off. }
  apply wp_bind. eapply wp_intro; [exact Hw2|]. rewrite Eip. apply wp_bind, wp_fsm. change (fl_fs w2) with s1.
  eapply iunlock_wp; [exact H1|done|done|done|]. intros s2 H2. apply wp_ret. by apply (HQ s2).
Qed.

(** [fileread] of an open file returns the bytes of its contents from the
    offset on, up to the number asked for and the end of the file, and advances
    the offset; the file stays open and no other file changes. *)
Theorem fileread_reads fi i c off w n :
  reading fi i c off w → 0 ≤ n < 2147483648 →
  let r := Z.min n (Z.of_nat (length c) - off) in
  wp (fileread devsw fi n) (λ x w', x = (r, take (Z.to_nat n) (drop (Z.to_nat off) c)) ∧ reading fi i c (off + r) w' ∧
    ∀ j, j ≠ fi → ftable w' !! j = ftable w !! j) w.
Proof.
  intros [(f&Efi&Ety&Erd&Eip&Eo) (s0&ip&Ha&Esb&Hi&Hid&Ec) Hoff] Hn r. unfold fileread.
  apply wp_bind. eapply wp_intro; [unfold file_get; by rewrite Efi|]. destruct (Z.eqb_spec (fd_readable f) 0); [done|]. rewrite Ety.
  apply wp_bind, wp_fsm. rewrite Eip. eapply ilock_wp; [exact Ha|exact Hi|done|]. intros s1 H1.
  apply wp_bind. unfold the_ip. rewrite Eip. apply wp_ret. rewrite <- Eip.
  set (ip1 := set_ilock (SleepLock 1 (f_me s0)) ip) in *. set (t0 := put_inode i ip1 s0) in *.
  assert (Ei1 : icache t0 !! i = Some ip1) by (by eapply put_inode_lookup).
  eapply (locked_read_wp fi i c off (on_fs (λ _, s1) w) f t0 ip1); try done; [by apply Hid|by apply file_ok_lock, Hid|apply Hid|].
  intros s2 r' H2. fold r in r'. subst r'. split; [done|]. split.
  - split.
    + exists (set_foff (off + r) f). split; [|done]. cbn. apply list_lookup_insert_eq. by eapply lookup_lt_Some.
    + exists (put_inode i (set_ilock (SleepLock 0 0) ip1) t0), (set_ilock (SleepLock 0 0) ip1).
      split_and!; [exact H2|done|by eapply put_inode_lookup| |done]. destruct Hid. split; try done. by do 2 apply file_ok_lock.
    + unfold r. lia.
  - intros j Hj. cbn. by rewrite list_lookup_insert_ne.
Qed.

(** ** Programs over [fileread] *)

(** The state of the kernel and what has been written to descriptor 1. *)
Record ksys := KSys { k_fl : flst B K; k_out : list Z }.
(** Descriptor [fd] is slot [fd] of the file table. *)
#[export] Instance ksys_sys : Usys ksys := {|
  u_open _ _ := no_call;
  u_close _ := no_call;
  u_read fd n := λ s,
    match fileread devsw (Z.to_nat fd) n (k_fl s) with
    | Ok r w => Ok r (KSys w (k_out s))
    | Fail f => Fail f
    end;
  u_write _ l := modify (λ s, KSys (k_fl s) (k_out s ++ l));; mret (Z.of_nat (length l));
  u_fstat _ := mret (-1, Ustat 0 0 0);
  u_mkdir _ := no_call;
  u_unlink _ := no_call;
  u_link _ _ := no_call;
  u_kill _ := no_call;
  u_ps := no_call;
  u_print_syscalls := no_call;
  u_read_registers := no_call;
  u_set_edx _ := no_call;
|}.
Definition k_stream (fi i : nat) (c : list Z) (rest out : list Z) (s : ksys) : Prop :=
  k_out s = out ∧ ∃ off, reading fi i c off (k_fl s) ∧ rest = drop (Z.to_nat off) c.
#[export] Instance k_stream_full fi i c : FullStream (Z.of_nat fi) (k_stream fi i c).
Proof.
  split.
  - intros rest out s n [<- (off&Hr&->)] Hn. pose proof (re_off _ _ _ _ _ Hr) as Hoff.
    destruct (wp_elim _ _ _ (fileread_reads fi i c off (k_fl s) n Hr ltac:(lia))) as (x&w'&E&->&Hr'&_).
    exists (KSys w' (k_out s)). cbn [u_read ksys_sys]. rewrite Nat2Z.id, E. rewrite length_drop.
    replace (Z.of_nat (length c - Z.to_nat off)) with (Z.of_nat (length c) - off) by lia. split; [done|]. split; [done|].
    eexists. split; [exact Hr'|]. rewrite drop_drop.
    destruct (Z.min_spec n (Z.of_nat (length c) - off)) as [[? ->]|[? ->]]; [f_equal; lia|]. by rewrite !drop_ge by lia.
  - intros rest out s l [<- Hr]. eexists. split; [reflexivity|]. by split.
Qed.

(** C32. A program that copies a file of the kernel: reading it with [fileread]
    until the end, the loop of cat prints exactly the contents of the inode, as
    its blocks on the disk and in the log give them, in as many reads as it
    takes, and then returns. *)
Theorem cat_kernel_file fi i c w fuel :
  reading fi i c 0 w → (length c < fuel)%nat →
  wp (cat fuel (Z.of_nat fi)) (λ r s', r = Some tt ∧ k_out s' = c) (KSys w []).
Proof.
  intros Hr Hf. eapply wp_mono; [apply (cat_wp (Z.of_nat fi) (k_stream fi i c) fuel c []); [|done]|].
  - split; [done|]. by exists 0.
  - cbn beta. by intros r s' [-> [-> _]].
Qed.
End read.

(** A disk of 60 blocks with a file of five bytes in block 35, after boot and
    outside of any transaction. *)
Definition read_map : list Z := [255; 255; 255; 255; 15] ++ replicate 507 0.
Definition read_fs : disk :=
  Disk (λ n, if n =? 1 then small_super else if n =? 34 then read_map else if n =? 35 then hello ++ replicate 507 0
             else replicate 512 0) 60 [].
Definition read_geo : bgeo := BGeo 60 2 0.
Definition hello_file : inode := Inode 1 1 1 (SleepLock 0 0) 1 T_FILE 0 0 1 5 (35 :: replicate 12 0).
Definition hello_open (b : lst) : flst lst kst :=
  Flst (Fss b small_sb [hello_file] 1 None []) [File FD_INODE 1 1 0 0 (Some 0%nat) 0] ∅ (Kst (λ _, 0) 0 0 false) false.

Lemma read_rel : ∃ b v base, rel read_geo b v base [] ∅ ∧ ∀ x, ¬ (2 ≤ x < 32) → v x = blocks read_fs x.
Proof.
  assert (has_log 2 30 read_fs) as Hl.
  { split; [done|done|lia|unfold LOGSIZE, MAXOPBLOCKS; lia|cbn; lia|done| |].
    - split; [by vm_compute|]. intros i Hi. exfalso. vm_compute in Hi. lia.
    - intros i Hi. exfalso. vm_compute in Hi. lia. }
  destruct (wp_elim _ _ _ (boot_ready 2 30 read_fs 1 Hl)) as ([]&b&_&v&Hr&En&Eo&Ec&Est&Esz&Em&Eds&Hv).
  exists b, v, (blocks (the_disk (l_bio b))). split.
  - split; try done. unfold logged, nlogged. by rewrite En.
  - intros x Hx. rewrite Hv by lia. unfold recovered, rec_writes.
    assert (hdr_writes 2 (blocks read_fs) = []) as -> by (by vm_compute).
    cbn [app]. unfold vwrites. cbn [foldl fst snd]. apply fupd_off. lia.
Qed.
Lemma read_layout : layout read_geo small_sb 35.
Proof.
  split; cbn [g_size read_geo].
  - rewrite small_sb_eq. split; cbn [g_size read_geo sb_size bmapstart]; unfold BPB, BSIZE; try done; try lia.
    intros b' Hb. rewrite Z.div_small by lia. unfold home. cbn. lia.
  - lia.
  - intros b' Hb. rewrite small_bmapblk; lia.
  - intros b' Hb. unfold home. cbn. lia.
Qed.

Section hello.
Context (v : view) (Hv : ∀ x, ¬ (2 ≤ x < 32) → v x = blocks read_fs x).
Lemma hello_addr k : 0 ≤ k → addr_of hello_file k = if k =? 0 then 35 else 0.
Proof.
  intros Hk. unfold addr_of. cbn [i_addrs hello_file]. destruct (Z.eqb_spec k 0) as [->|]; [done|].
  replace (Z.to_nat k) with (S (Z.to_nat (k - 1))) by lia. cbn [nth]. rewrite nth_lookup. destruct (_ !! _) eqn:E; [|done].
  by apply lookup_replicate in E as [-> _].
Qed.
Lemma hello_fblk bn : 0 ≤ bn → fblk v hello_file bn = if bn =? 0 then 35 else 0.
Proof.
  intros Hb. unfold fblk. rewrite (hello_addr NDIRECT), hello_addr by done. destruct (Z.ltb_spec bn NDIRECT); [done|].
  unfold NDIRECT in *. destruct (Z.eqb_spec bn 0); [lia|done].
Qed.
Lemma hello_content : content v hello_file = hello.
Proof.
  unfold content, fbytes. cbn [i_size hello_file]. change (seqZ 0 5) with [0; 1; 2; 3; 4]. unfold fbyte. cbn [fmap list_fmap].
  repeat rewrite hello_fblk by done. change (0 / BSIZE =? 0) with true. change (1 / BSIZE =? 0) with true.
  change (2 / BSIZE =? 0) with true. change (3 / BSIZE =? 0) with true. change (4 / BSIZE =? 0) with true.
  rewrite Hv by lia. by vm_compute.
Qed.
Lemma hello_ok : file_ok read_geo small_sb 35 v hello_file.
Proof.
  split; cbn [i_addrs i_dev i_size hello_file]; try done.
  - intros bn Hb Hn. rewrite hello_fblk in * by lia. destruct (bn =? 0); [|done].
    split; [cbn; lia| |by rewrite Hv by lia]. unfold used. rewrite small_bmapblk, Hv by lia. by vm_compute.
  - intros bn Hb Hs. rewrite hello_fblk by done. unfold BSIZE in Hs. destruct (Z.eqb_spec bn 0); [done|lia].
  - intros bn bn' Hb Hb' Hn E. rewrite !hello_fblk in * by lia. destruct (Z.eqb_spec bn 0), (Z.eqb_spec bn' 0); try done. lia.
Qed.
End hello.

Lemma cat_kernel_file_witness :
  ∃ b, wp (cat (W := ksys (B := lst) (K := kst)) (Usys0 := ksys_sys no_dev) 6 (Z.of_nat 0))
    (λ r s', r = Some tt ∧ k_out s' = hello) (KSys (hello_open b) []).
Proof.
  destruct read_rel as (b&v&base&Hr&Hv). exists b.
  refine (cat_kernel_file no_dev read_geo base 35 small_sb v [] read_layout _ 0 0 hello (hello_open b) 6 _ _); [vm_compute; lia| |cbn; lia].
  split.
  - eexists. split; [reflexivity|]. by split_and!.
  - exists (fl_fs (hello_open b)), hello_file. split_and!; [by split|done|done| |by apply hello_content]. split; try done. by apply hello_ok.
  - cbn. lia.
Defined.
