(* ===== verification/ExecFile.v ===== *)
(** * Programs of the file system

    [exec] opens, reads and closes the program through fs.c and log.c.  Inside
    an operation of the log that writes nothing, these do what the theorems on
    [exec] rely on: [namei] finds the file, [readi] returns its contents, and
    closing it leaves the inode cache and the log as they were. *)

From S2P Require Import Prelude Params CString Cprintf Sleeplock Blocks Bio Log LogThms Fs BlockLaws FsBlocks FsFile FsWrite FsThms File FileRead Kalloc Vm VmThms VmSpace VmCopy VmGrow ExecVm Exec ExecThms.

(** ** Operations that only read *)

(** The log is not committing, and [o] operations have begun, none of which
    writes: as no block can be logged the log area of the geometry is empty. *)
Definition op_rel (o : Z) (g : bgeo) (b : lst) (v base : view) (lg : list Z) (hold : gmap nat Z) : Prop :=
  log_rel g b v base lg hold ∧ outstanding b = o ∧ committing b = 0 ∧ g_nlog g = 0.

Lemma bio_op {A} (m : M bst A) (Q : A → lst → Prop) s :
  wp (bio m) Q s → wp (bio m) (λ a s', Q a s' ∧ outstanding s' = outstanding s ∧ committing s' = committing s) s.
Proof. unfold wp, bio. by destruct (m (l_bio s)). Qed.

#[local] Obligation Tactic := idtac.
Program Definition op_laws (o : Z) : BlockLaws lst := {| rel := op_rel o |}.
Next Obligation.
  intros o g s v base lg hold n (Hr&Eo&Ec&Eg) Hn Hh Hroom.
  eapply wp_mono; [apply bio_op; by apply (bl_read (BlockLaws := log_laws) g s v base lg hold n)|].
  intros i s' [[Hi Hr'] [Eo' Ec']]. split; [done|]. split_and!; [done|congruence|congruence|done].
Qed.
Next Obligation. intros o g s v base lg hold i n [Hr _]. by apply (bl_data (BlockLaws := log_laws) g s v base lg hold). Qed.
Next Obligation.
  intros o g s v base lg hold i n d (Hr&Eo&Ec&Eg) Hi.
  eapply wp_mono; [apply bio_op; by apply (bl_store (BlockLaws := log_laws) g s v base lg hold i n d)|].
  intros [] s' [Hr' [Eo' Ec']]. split_and!; [done|congruence|congruence|done].
Qed.
Next Obligation. intros o g s v base lg hold i n (_&_&_&Eg) _ _ Hl. lia. Qed.
Next Obligation.
  intros o g s v base lg hold i n (Hr&Eo&Ec&Eg) Hi Hc.
  eapply wp_mono; [apply bio_op; by apply (bl_relse (BlockLaws := log_laws) g s v base lg hold i n)|].
  intros [] s' [Hr' [Eo' Ec']]. split_and!; [done|congruence|congruence|done].
Qed.
Next Obligation. intros o g s v base lg hold n [Hr _]. by apply (bl_clean (BlockLaws := log_laws) g s v base lg hold). Qed.

Section op.
Context (g : bgeo) (base v : view).
Lemma op_flags o o' b : op_rel o g b v base [] ∅ → op_rel o' g (set_committing 0 (set_outstanding o' b)) v base [] ∅.
Proof.
  intros ([H1 H2 H3 H4 H5 H6]&_&_&Eg). split_and!; [|done..]. split; try done.
  by apply (log_rep_flags b v).
Qed.
Lemma op_empty o b : op_rel o g b v base [] ∅ → lh_n b = 0.
Proof.
  intros ([H1 H2 _ _ _ _]&_). pose proof (ly_n _ _ _ H1). pose proof (length_logged _ _ _ H1) as E. rewrite H2 in E.
  unfold nlogged in E. cbn in E. lia.
Qed.
Lemma op_begin b : op_rel 0 g b v base [] ∅ → wp Log.begin_op (λ _ b', op_rel 1 g b' v base [] ∅) b.
Proof.
  intros Hr. pose proof Hr as (_&Eo&Ec&_). pose proof (op_empty _ _ Hr) as En.
  eapply wp_mono; [apply begin_op_wp; rewrite ?Ec, ?En, ?Eo; done|]. intros [] b' ->. rewrite Eo.
  pose proof (op_flags 0 1 b Hr) as H. destruct b; cbn in *. by subst.
Qed.
Lemma op_end b : op_rel 1 g b v base [] ∅ → wp Log.end_op (λ _ b', op_rel 0 g b' v base [] ∅) b.
Proof.
  intros Hr. pose proof Hr as (_&Eo&Ec&_). pose proof (op_empty _ _ Hr) as En.
  unfold Log.end_op. apply wp_bind, wp_gets. apply wp_bind, wp_modify. apply wp_bind, wp_gets. cbn [committing set_outstanding]. rewrite Ec, Eo.
  cbn [Z.eqb negb]. change (1 -i 1 =? 0) with true. cbn beta iota. apply wp_bind, wp_modify. apply wp_bind. unfold commit.
  apply wp_bind, wp_gets. cbn [lh_n set_committing set_outstanding]. rewrite En. apply wp_ret. apply wp_modify.
  pose proof (op_flags 1 0 b Hr) as H. by destruct b.
Qed.
End op.

(** ** Finding a file *)

Section find.
Context {B : Type} `{!BlockOps B, !BlockLaws B} (devsw : Z → devops (B := B)).
Context (g : bgeo) (base : view) (ds : Z) (sb : superblock) (v : view).
Context (Hla : layout g sb ds).

(** A file or directory that is not locked and has a link; the reference count
    has room for one more. *)
Record linked (ip : inode) : Prop := {
  ln_file : file_ok g sb ds v ip;
  ln_type : i_type ip ≠ T_DEV;
  ln_valid : i_valid ip ≠ 0;
  ln_nlink : i_nlink ip ≠ 0;
  ln_ref : 0 ≤ i_ref ip < 2147483647;
  ln_lock : i_lock ip = SleepLock 0 0;
}.
Definition add_ref (ip : inode) : inode := set_ref (i_ref ip + 1) ip.
Definition lock_by (me : Z) (ip : inode) : inode := set_ilock (SleepLock 1 me) ip.
Lemma unlock_lock me ip : linked ip → set_ilock (SleepLock 0 0) (lock_by me (add_ref ip)) = add_ref ip.
Proof. intros Hl. pose proof (ln_lock _ Hl). destruct ip; cbn in *. by subst. Qed.

Lemma iget_wp s0 s i ip dev inum (Q : nat → fss B → Prop) :
  at_fs g base s0 s v [] ∅ → list_find (is_cached dev inum) (icache s0) = Some (i, ip) → linked ip →
  (∀ s', at_fs g base (put_inode i (add_ref ip) s0) s' v [] ∅ → Q i s') → wp (iget dev inum) Q s.
Proof.
  intros Ha Hf Hl HQ. unfold iget. apply wp_bind, wp_gets.
  assert (icache s = icache s0) as -> by (by rewrite (at_rest _ _ _ _ _ _ _ Ha)). rewrite Hf.
  apply list_find_Some in Hf as (Hi&_&_). apply wp_bind. eapply wp_inode_upd; [done|done|].
  intros s' Ha'. apply wp_ret, HQ. pose proof (ln_ref _ Hl). rewrite s32_id in Ha' by (unfold is_i32; lia). done.
Qed.
Lemma iput_wp s0 s i ip (Q : unit → fss B → Prop) :
  at_fs g base s0 s v [] ∅ → icache s0 !! i = Some (add_ref ip) → linked ip →
  (∀ s', at_fs g base (put_inode i ip s0) s' v [] ∅ → Q tt s') → wp (iput i) Q s.
Proof.
  intros Ha Hi Hl HQ. destruct Hl as [_ _ Hv Hn Hr Elk]. unfold iput, ilk_acquire. apply wp_bind, wp_bind. eapply wp_inode_get; [done|done|].
  apply wp_bind, wp_gets. unfold acquiresleep. cbn [i_lock add_ref set_ref]. rewrite Elk. cbn [locked Z.eqb].
  eapply wp_inode_upd; [done|done|]. intros s1 H1. apply wp_bind. eapply wp_inode_get; [done|by eapply put_inode_lookup|].
  apply wp_bind. cbn [i_valid i_nlink set_ilock add_ref set_ref].
  rewrite (proj2 (Z.eqb_neq (i_nlink ip) 0) Hn), andb_false_r. apply wp_ret. apply wp_bind. unfold ilk_release.
  eapply wp_inode_upd; [done|by eapply put_inode_lookup|]. intros s2 H2. eapply wp_inode_upd; [done|by do 2 eapply put_inode_lookup|].
  intros s3 H3. apply HQ. rewrite !put_inode_twice in H3. cbn in H3. rewrite s32_id in H3 by (unfold is_i32; lia).
  replace (i_ref ip + 1 - 1) with (i_ref ip) in H3 by lia. destruct ip; cbn in *. by subst.
Qed.
Lemma ilock_linked s0 s i ip (Q : unit → fss B → Prop) :
  at_fs g base s0 s v [] ∅ → icache s0 !! i = Some (add_ref ip) → linked ip →
  (∀ s', at_fs g base (put_inode i (lock_by (f_me s0) (add_ref ip)) s0) s' v [] ∅ → Q tt s') → wp (ilock (Some i)) Q s.
Proof.
  intros Ha Hi [Hf Ht Hv Hn Hr Hl] HQ. eapply (ilock_wp g base ds sb v []); [vm_compute; lia|exact Ha|exact Hi| |done].
  split; cbn; try done; [by destruct Hf; split|lia|by rewrite Hl].
Qed.
Lemma iunlockput_wp s0 s i ip (Q : unit → fss B → Prop) :
  at_fs g base s0 s v [] ∅ → icache s0 !! i = Some (lock_by (f_me s0) (add_ref ip)) → linked ip →
  (∀ s', at_fs g base (put_inode i ip s0) s' v [] ∅ → Q tt s') → wp (iunlockput i) Q s.
Proof.
  intros Ha Hi Hl HQ. pose proof (ln_ref _ Hl). unfold iunlockput. apply wp_bind. eapply (iunlock_wp g base v []); [vm_compute; lia|exact Ha|exact Hi|done|cbn; lia|].
  intros s1 H1. rewrite unlock_lock in H1 by done. eapply iput_wp; [exact H1|by eapply put_inode_lookup|done|].
  intros s2 H2. rewrite put_inode_twice in H2. by apply HQ.
Qed.

(** What a read of a locked file returns. *)
Lemma read_linked s0 s i ip off n :
  at_fs g base s0 s v [] ∅ → f_sb s0 = sb → icache s0 !! i = Some (lock_by (f_me s0) (add_ref ip)) → linked ip →
  is_u32 off → is_u32 n →
  wp (readi devsw i off n) (λ r s', r = read_at (content v ip) off n ∧ at_fs g base s0 s' v [] ∅) s.
Proof.
  intros Ha Esb Hi Hl Ho Hn. pose proof (ln_file _ Hl) as Hf. pose proof (content_length g ds sb v [] ltac:(vm_compute; lia) ip Hf) as Ec.
  set (ip1 := lock_by (f_me s0) (add_ref ip)) in *. unfold read_at. rewrite Ec.
  destruct ((i_size ip <? off) || (off +u n <? off)) eqn:E.
  - unfold readi. apply wp_bind. eapply wp_inode_get; [done|done|]. cbn [ip1 lock_by add_ref set_ilock set_ref i_type i_size].
    rewrite (proj2 (Z.eqb_neq _ _) (ln_type _ Hl)), E. by apply wp_ret.
  - apply orb_false_iff in E as [E1%Z.ltb_ge E2%Z.ltb_ge].
    assert (off + n < 4294967296) by (unfold is_u32, u32 in *; zdm).
    rewrite <-Esb in *. eapply (readi_wp devsw g base ds i s0 Hla ip1 v []); try done; unfold is_u32 in *; try lia.
    + by destruct Hf; split.
    + apply Hl.
    + vm_compute. lia.
    + intros s' H'. split; [|done]. f_equal. exact (take_drop_content v ip1 off n ltac:(cbn; lia) ltac:(lia)).
Qed.

(** The entries of a directory with contents [c], and where a name is. *)
Definition entry (c : list Z) (k : nat) : list Z := take 16 (drop (16 * k) c).
Definition is_name (name de : list Z) : Prop := dirent_inum de ≠ 0 ∧ namecmp name (dirent_name de) = 0.
Definition found (c name : list Z) (k : nat) : Prop :=
  (16 * k + 16 ≤ length c)%nat ∧ is_name name (entry c k) ∧ ∀ j, (j < k)%nat → ¬ is_name name (entry c j).

Section lookup.
Context (s0 : fss B) (Hsb : f_sb s0 = sb) (i t : nat) (dp ip : inode) (name : list Z) (k : nat).
Context (Hi : icache s0 !! i = Some (lock_by (f_me s0) (add_ref dp))) (Hdp : linked dp) (Hip : linked ip).
Context (Hk : found (content v dp) name k).
Context (Ht : list_find (is_cached 1 (dirent_inum (entry (content v dp) k))) (icache s0) = Some (t, ip)).

Lemma dirlookup_loop_wp n j fuel s (Q : option (nat * Z) → fss B → Prop) :
  at_fs g base s0 s v [] ∅ → (j + n = k)%nat → (n < fuel)%nat →
  (∀ s', at_fs g base (put_inode t (add_ref ip) s0) s' v [] ∅ → Q (Some (t, 16 * Z.of_nat k)) s') →
  wp (dirlookup_loop devsw i name fuel (16 * Z.of_nat j)) Q s.
Proof.
  revert j fuel s. induction n as [|n IH]; intros j fuel s Ha Hj Hf HQ; (destruct fuel as [|fuel]; [lia|]); cbn [dirlookup_loop].
  all: destruct Hk as (Hlen&[Hin Hnm]&Hno); pose proof (content_length g ds sb v [] ltac:(vm_compute; lia) dp (ln_file _ Hdp)) as Ec.
  all: pose proof (fo_size _ _ _ _ _ (ln_file _ Hdp)) as Hsz; change (MAXFILE * BSIZE) with 71680 in Hsz.
  all: apply wp_bind; (eapply wp_inode_get; [done|done|]); cbn [lock_by add_ref set_ilock set_ref i_size i_dev].
  all: rewrite (proj2 (Z.ltb_lt _ _)) by lia; apply wp_bind.
  all: eapply wp_mono; [apply (read_linked s0 s i dp); [done|done|done|done|unfold is_u32; lia|done]|].
  all: intros [r de] s1 [E H1]; unfold read_at in E; rewrite Ec, u32_id, !(proj2 (Z.ltb_ge _ _)) in E by (unfold is_u32, sizeof_dirent; lia).
  all: cbn [orb] in E; rewrite Z.min_l in E by (unfold sizeof_dirent; lia); injection E as -> ->; cbn [Z.eqb sizeof_dirent negb Pos.eqb].
  all: replace (take _ _) with (entry (content v dp) j) by (unfold entry; do 2 f_equal; lia).
  - replace j with k by lia. rewrite (proj2 (Z.eqb_neq _ _) Hin), Hnm. cbn [Z.eqb]. apply wp_bind.
    rewrite (fo_dev _ _ _ _ _ (ln_file _ Hdp)). eapply iget_wp; [done|done|done|]. intros s2 H2. by apply wp_ret, HQ.
  - assert (wp (dirlookup_loop devsw i name fuel (16 * Z.of_nat j +u sizeof_dirent)) Q s1) as Hnext.
    { rewrite u32_id by (unfold is_u32, sizeof_dirent; lia). replace (16 * Z.of_nat j + sizeof_dirent) with (16 * Z.of_nat (S j)) by (unfold sizeof_dirent; lia).
      apply IH; [done|lia|lia|done]. }
    destruct (Z.eqb_spec (dirent_inum (entry (content v dp) j)) 0); [done|].
    destruct (Z.eqb_spec (namecmp name (dirent_name (entry (content v dp) j))) 0); [|done]. destruct (Hno j ltac:(lia)). by split.
Qed.
Lemma dirlookup_wp s (Q : option (nat * Z) → fss B → Prop) :
  at_fs g base s0 s v [] ∅ → i_type dp = T_DIR →
  (∀ s', at_fs g base (put_inode t (add_ref ip) s0) s' v [] ∅ → Q (Some (t, 16 * Z.of_nat k)) s') →
  wp (dirlookup devsw i name) Q s.
Proof.
  intros Ha Hd HQ. unfold dirlookup. apply wp_bind. eapply wp_inode_get; [done|done|]. cbn [lock_by add_ref set_ilock set_ref i_type i_size].
  rewrite Hd. cbn [Z.eqb T_DIR negb Pos.eqb]. apply (dirlookup_loop_wp k 0); [done|lia| |done].
  destruct Hk as [Hlen _]. pose proof (content_length g ds sb v [] ltac:(vm_compute; lia) dp (ln_file _ Hdp)) as Ec. unfold sizeof_dirent. zdm.
Qed.
End lookup.
End find.

(** ** Names in the root directory *)

Section root.
Context {B : Type} `{!BlockOps B, !BlockLaws B} (devsw : Z → devops (B := B)).
Context (g : bgeo) (base : view) (ds : Z) (v : view) (s0 : fss B).
Abbreviation sb := (f_sb s0).

(** In the directory in slot [r] of the cache, the name that the path gives is
    that of the inode in slot [t]; both are in use. *)
Record in_root (path : list Z) (r t : nat) (dp ip : inode) : Prop := {
  ir_root : list_find (is_cached ROOTDEV ROOTINO) (icache s0) = Some (r, dp);
  ir_dir : linked g ds sb v dp;
  ir_type : i_type dp = T_DIR;
  ir_file : linked g ds sb v ip;
  ir_ne : r ≠ t;
  ir_abs : head path = Some SLASH;
  ir_name : ∃ name k, skipelem path (replicate (Z.to_nat DIRSIZ) 0) = Some ([], name) ∧ found (content v dp) name k ∧
    list_find (is_cached 1 (dirent_inum (entry (content v dp) k))) (icache s0) = Some (t, ip);
}.

Lemma cached_insert dev inum (l : list inode) r t x x' ip :
  list_find (is_cached dev inum) l = Some (t, ip) → l !! r = Some x → 0 < i_ref x →
  i_dev x' = i_dev x → i_inum x' = i_inum x → r ≠ t → list_find (is_cached dev inum) (<[r := x']> l) = Some (t, ip).
Proof.
  intros (Ht&Hc&Hb)%list_find_Some Hr Hx Ed En Hne. apply list_find_Some. split; [by rewrite list_lookup_insert_ne|]. split; [done|].
  intros j y Hj Hlt. destruct (decide (j = r)) as [->|Hjr].
  - rewrite list_lookup_insert_eq in Hj by (by eapply lookup_lt_Some). injection Hj as <-. intros (_&E1&E2).
    eapply (Hb r x Hr Hlt). split_and!; [done|congruence|congruence].
  - rewrite list_lookup_insert_ne in Hj by done. by eapply Hb.
Qed.

Context (Hla : layout g sb ds).
Lemma namei_wp path r t dp ip s (Q : option nat → fss B → Prop) :
  in_root path r t dp ip → at_fs g base s0 s v [] ∅ →
  (∀ s', at_fs g base (put_inode t (add_ref ip) s0) s' v [] ∅ → Q (Some t) s') → wp (namei devsw path) Q s.
Proof.
  intros [Hroot Hdp Hty Hip Hne Habs (name&k&Esk&Hk&Ht)] Ha HQ. unfold namei, namex. destruct path as [|c p]; [done|]. injection Habs as ->.
  rewrite Z.eqb_refl. apply wp_bind, wp_bind. eapply iget_wp; [done|done|done|]. intros s1 H1.
  pose proof Hroot as (Hr&(Hrf&_)&_)%list_find_Some. pose proof Ht as (Hti&_)%list_find_Some.
  replace (length (SLASH :: p) + 1)%nat with (S (S (length p))) by (cbn; lia).
  set (f := S (length p)). cbn [namex_loop]. rewrite Esk. apply wp_bind.
  eapply ilock_linked; [exact H1|by eapply put_inode_lookup|done|]. intros s2 H2. rewrite put_inode_twice in H2.
  change (f_me (put_inode r (add_ref dp) s0)) with (f_me s0) in H2. set (s3 := put_inode r (lock_by (f_me s0) (add_ref dp)) s0) in *.
  assert (Hr3 : icache s3 !! r = Some (lock_by (f_me s0) (add_ref dp))) by (by eapply put_inode_lookup).
  apply wp_bind. eapply wp_inode_get; [exact H2|exact Hr3|]. cbn [i_type lock_by add_ref set_ilock set_ref]. rewrite Hty. cbn [Z.eqb T_DIR negb Pos.eqb andb].
  apply wp_bind. eapply (dirlookup_wp devsw g base ds sb v Hla s3 eq_refl r t dp ip name k Hr3 Hdp Hip Hk); [|exact H2|done|].
  { eapply cached_insert; [exact Ht|exact Hr|done|done|done|done]. }
  intros s4 H4. apply wp_bind. eapply (iunlockput_wp g base ds sb v _ _ r dp); [exact H4| |done|].
  { unfold put_inode at 1. cbn [icache on_icache]. rewrite list_lookup_insert_ne by done. exact Hr3. }
  intros s5 H5. unfold f. cbn [namex_loop]. cbn. apply wp_ret, HQ.
  replace (put_inode t (add_ref ip) s0) with (put_inode r dp (put_inode t (add_ref ip) s3)); [done|].
  unfold s3, put_inode, on_icache. cbn. f_equal.
  rewrite list_insert_insert_ne by done. by rewrite list_insert_insert_eq, (list_insert_id _ r).
Qed.
End root.

(** ** The file system under [exec] *)

Section prog.
Context (devsw : Z → devops (B := lst)) (g : bgeo) (base : view) (ds : Z) (v : view) (s0 : fss lst).
Context (Hla : layout g (f_sb s0) ds).

(** [s0] is the state when no file is open; in it the log is empty. *)
Definition prog_closed (fs : fss lst) : Prop := at_fs (BlockLaws0 := op_laws 0) g base s0 fs v [] ∅.
Definition prog_opened (i : nat) (c : list Z) (fs : fss lst) : Prop :=
  ∃ ip, icache s0 !! i = Some ip ∧ linked g ds (f_sb s0) v ip ∧ content v ip = c ∧
    at_fs (BlockLaws0 := op_laws 1) g base (put_inode i (lock_by (f_me s0) (add_ref ip)) s0) fs v [] ∅.

Lemma prog_file : ProgFile devsw prog_opened prog_closed.
Proof.
  split.
  - intros i c fs (ip&_&Hl&<-&_). rewrite (content_length g ds (f_sb s0) v [] ltac:(vm_compute; lia) ip (ln_file _ _ _ _ _ Hl)).
    pose proof (fo_size _ _ _ _ _ (ln_file _ _ _ _ _ Hl)) as H. change (MAXFILE * BSIZE) with 71680 in H. lia.
  - intros i c fs off n (ip&Hi&Hl&<-&Ha) Ho Hn.
    eapply wp_mono; [apply (read_linked (BlockLaws0 := op_laws 1) devsw g base ds (f_sb s0) v Hla _ fs i ip off n Ha); try done|].
    { by eapply put_inode_lookup. }
    intros r fs' [-> Ha']. split; [done|]. by exists ip.
  - intros i c fs (ip&Hi&Hl&_&Ha). apply wp_bind.
    eapply (iunlockput_wp (BlockLaws0 := op_laws 1) g base ds (f_sb s0) v _ fs i ip); [exact Ha|by eapply put_inode_lookup|done|].
    intros fs1 H1. rewrite put_inode_twice, put_inode_same in H1 by done. apply wp_blk.
    eapply wp_mono; [apply (op_end g base v), H1|]. intros [] b Hb. split; [done|]. by rewrite (at_rest _ _ _ _ _ _ _ H1).
Qed.

Lemma root_names path r t dp ip fs :
  in_root g ds v s0 path r t dp ip → prog_closed fs → names devsw prog_opened prog_closed path (Some (content v ip)) fs.
Proof.
  intros Hin Ha. unfold names, open_prog. apply wp_bind, wp_blk. eapply wp_mono; [apply (op_begin g base v), Ha|]. intros [] b Hb.
  assert (H1 : at_fs (BlockLaws0 := op_laws 1) g base s0 (on_blk (λ _, b) fs) v [] ∅) by (split; [done|by rewrite (at_rest _ _ _ _ _ _ _ Ha)]).
  apply wp_bind. eapply (namei_wp (BlockLaws0 := op_laws 1)); [done|done|exact H1|]. intros fs2 H2.
  destruct Hin as [_ _ _ Hip _ _ (nm&k&_&_&(Ht&_)%list_find_Some)]. apply wp_bind.
  eapply (ilock_linked (BlockLaws0 := op_laws 1)); [exact H2|by eapply put_inode_lookup|done|]. intros fs3 H3. rewrite put_inode_twice in H3.
  apply wp_ret. by exists ip.
Qed.
End prog.

(** ** A program on a disk *)

(** The root directory in block 35, with the file [a] in block 36: one segment
    of eight bytes at address 0, with eight more bytes of zeroes. *)
Definition prog_elf : list Z :=
  [127; 69; 76; 70] ++ replicate 12 0 ++ le16 2 ++ le16 3 ++ le32 1 ++ le32 4 ++ le32 52 ++ le32 0 ++ le32 0 ++
    le16 52 ++ le16 32 ++ le16 1 ++ le16 0 ++ le16 0 ++ le16 0 ++
  le32 1 ++ le32 84 ++ le32 0 ++ le32 0 ++ le32 8 ++ le32 16 ++ le32 7 ++ le32 4096 ++
  [1; 2; 3; 4; 5; 6; 7; 8].
Definition prog_dir : list Z :=
  le16 1 ++ 46 :: replicate 13 0 ++ le16 1 ++ 46 :: 46 :: replicate 12 0 ++ le16 2 ++ 97 :: replicate 13 0.
Definition prog_map : list Z := [255; 255; 255; 255; 31] ++ replicate 507 0.
Definition pad (l : list Z) : list Z := l ++ replicate (512 - length l) 0.
Definition prog_disk : disk :=
  Disk (λ n, if n =? 1 then small_super else if n =? 34 then prog_map else if n =? 35 then pad prog_dir
             else if n =? 36 then pad prog_elf else replicate 512 0) 60 [].
Definition root_inode : inode := Inode 1 1 1 (SleepLock 0 0) 1 T_DIR 0 0 1 48 (35 :: replicate 12 0).
Definition prog_inode : inode := Inode 1 2 1 (SleepLock 0 0) 1 T_FILE 0 0 1 92 (36 :: replicate 12 0).
Definition prog_fs (b : lst) : fss lst := Fss b small_sb [root_inode; prog_inode] 1 (Some 0%nat) [].

Section one_block.
Context (v : view) (a n ty sz : Z) (Ha : 35 ≤ a < 37) (Hty : ty ≠ T_DEV) (Hsz : 0 < sz ≤ 512).
Context (Hv : ∀ x, ¬ (2 ≤ x < 32) → v x = blocks prog_disk x).
Let ip := Inode 1 n 1 (SleepLock 0 0) 1 ty 0 0 1 sz (a :: replicate 12 0).
Lemma one_addr k : 0 ≤ k → addr_of ip k = if k =? 0 then a else 0.
Proof.
  intros Hk. unfold addr_of. cbn [i_addrs ip]. destruct (Z.eqb_spec k 0) as [->|]; [done|].
  replace (Z.to_nat k) with (S (Z.to_nat (k - 1))) by lia. cbn [nth]. rewrite nth_lookup. destruct (_ !! _) eqn:E; [|done].
  by apply lookup_replicate in E as [-> _].
Qed.
Lemma one_fblk bn : 0 ≤ bn → fblk v ip bn = if bn =? 0 then a else 0.
Proof.
  intros Hb. unfold fblk. rewrite (one_addr NDIRECT), one_addr by done. destruct (Z.ltb_spec bn NDIRECT); [done|].
  unfold NDIRECT in *. destruct (Z.eqb_spec bn 0); [lia|done].
Qed.
Lemma one_content : content v ip = byte_at (blocks prog_disk a) <$> seqZ 0 sz.
Proof.
  unfold content, fbytes. cbn [i_size ip]. apply list_fmap_ext. intros j x Hx. apply lookup_seqZ in Hx as [-> Hj]. unfold fbyte.
  unfold BSIZE. rewrite Z.div_small, Z.mod_small, one_fblk by lia. cbn [Z.eqb]. by rewrite Hv by lia.
Qed.
Lemma one_linked : linked read_geo 35 small_sb v ip.
Proof.
  split; try done. split; cbn [i_addrs i_dev i_size ip]; try done.
  - change (MAXFILE * BSIZE) with 71680. lia.
  - intros bn Hb Hn. rewrite one_fblk in * by lia. destruct (bn =? 0); [|done].
    split; [cbn; lia| |].
    + unfold used. rewrite small_bmapblk, Hv by lia. assert (a = 35 ∨ a = 36) as [->| ->] by lia; by vm_compute.
    + rewrite Hv by lia. assert (a = 35 ∨ a = 36) as [->| ->] by lia; by vm_compute.
  - intros bn Hb Hs. rewrite one_fblk by done. unfold BSIZE in Hs. destruct (Z.eqb_spec bn 0); [lia|lia].
  - intros bn bn' Hb Hb' Hn E. rewrite !one_fblk in * by lia. destruct (Z.eqb_spec bn 0), (Z.eqb_spec bn' 0); try done; lia.
Qed.
End one_block.

Lemma prog_rel : ∃ b v base, op_rel 0 read_geo b v base [] ∅ ∧ ∀ x, ¬ (2 ≤ x < 32) → v x = blocks prog_disk x.
Proof.
  assert (has_log 2 30 prog_disk) as Hl.
  { split; [done|done|lia|unfold LOGSIZE, MAXOPBLOCKS; lia|cbn; lia|done| |].
    - split; [by vm_compute|]. intros i Hi. exfalso. vm_compute in Hi. lia.
    - intros i Hi. exfalso. vm_compute in Hi. lia. }
  destruct (wp_elim _ _ _ (boot_ready 2 30 prog_disk 1 Hl)) as ([]&b&_&v&Hr&En&Eo&Ec&Est&Esz&Em&Eds&Hv).
  exists b, v, (blocks (the_disk (l_bio b))). split; [split_and!; [|done..]|].
  - split; try done. unfold logged, nlogged. by rewrite En.
  - intros x Hx. rewrite Hv by lia. unfold recovered, rec_writes.
    assert (hdr_writes 2 (blocks prog_disk) = []) as -> by (by vm_compute).
    cbn [app]. unfold vwrites. cbn [foldl fst snd]. apply fupd_off. lia.
Qed.

Definition prog_path : list Z := [47; 97].
Lemma prog_in_root b v : (∀ x, ¬ (2 ≤ x < 32) → v x = blocks prog_disk x) →
  in_root read_geo 35 v (prog_fs b) prog_path 0 1 root_inode prog_inode ∧ content v prog_inode = prog_elf.
Proof.
  intros Hv. assert (Ed : content v root_inode = prog_dir).
  { unfold root_inode. rewrite one_content by (done || lia). by vm_compute. }
  split; [|unfold prog_inode; rewrite one_content by (done || lia); by vm_compute].
  split; try done; try (apply one_linked; (done || lia)).
  exists (97 :: replicate 13 0), 2%nat. split; [by vm_compute|]. rewrite Ed. split; [|by vm_compute]. split; [vm_compute; lia|]. split.
  - split; by vm_compute.
  - intros j Hj [_ Hn]. assert (j = 0 ∨ j = 1)%nat as [->| ->] by lia; by vm_compute in Hn.
Qed.

Definition prog_proc : uproc := UProc demo_dir PGSIZE (KERNBASE + 4096) 0 0 (replicate 16 0) 0.

(** The program is started with the arguments [a] and [xyz]: its memory is a
    page with the segment, the guard page and the stack. *)
Lemma exec_loads_witness :
  ∃ b, wp (exec no_dev demo_end demo_data 0 prog_path [[97]; [120; 121; 122]]) (λ r s', r = 0 ∧ ∃ pd fl',
      e_proc s' = exec_proc prog_proc pd 12288 4 12256 prog_path ∧ alloc_ok demo_end fl' (e_vm s') ∧
      ubyte (v_mem (e_vm s')) pd 7 = 8 ∧ uword (v_mem (e_vm s')) pd 12260 = 2 ∧ f_me (e_fs s') = 1 ∧ icache (e_fs s') = [root_inode; prog_inode])
    (Est (prog_fs b) (demo_space 1100) prog_proc).
Proof.
  destruct prog_rel as (b&v&base&Hr&Hv). exists b. destruct (prog_in_root b v Hv) as [Hin Ec].
  assert (Hn : names no_dev (prog_opened read_geo base 35 v (prog_fs b)) (prog_closed read_geo base v (prog_fs b)) prog_path (Some prog_elf) (prog_fs b)).
  { rewrite <-Ec. by eapply root_names; [apply read_layout|exact Hin|split]. }
  pose proof (prog_file no_dev read_geo base 35 v (prog_fs b) read_layout) as Hp.
  eapply wp_mono; [refine (exec_loads no_dev demo_end demo_data 0 _ _ _ _ _ prog_path [[97]; [120; 121; 122]] (Some prog_elf)
    (Est (prog_fs b) (demo_space 1100) prog_proc) (free_list 1100) Hn _ _ _ _ _)|].
  - done.
  - done.
  - split; done.
  - intros c [= <-]. repeat constructor; done.
  - apply demo_alloc. lia.
  - apply demo_space_ok. lia.
  - done.
  - repeat constructor; cbn; try done; unfold is_u8; lia.
  - cbn beta. cbn [e_proc e_vm e_fs]. intros r s' (Hcl&fl'&Ha&[(_&Hwhy&_)|(->&c&sz&bb&pd&[= <-]&Epr&Hres)]).
    + exfalso. unfold cannot_exec in Hwhy. destruct (mbind program (Some prog_elf)) as [[sz bb]|] eqn:Epr; [|by vm_compute in Epr].
      assert (sz = 16) as -> by (by vm_compute in Epr; injection Epr). unfold too_large in Hwhy.
      change (PGROUNDUP 16 + 2 * PGSIZE) with 12288 in Hwhy. destruct Hwhy as [H|[H|H]].
      * by vm_compute in H.
      * apply H. split; vm_compute; discriminate.
      * rewrite free_list_length in H. change (12288 / PGSIZE) with 3 in H. lia.
    + assert (sz = 16 ∧ bb 7 = 8) as [-> Eb]. { injection Epr as <- <-. split; by vm_compute. }
      cbv zeta in Hres. change (PGROUNDUP 16 + 2 * PGSIZE) with 12288 in Hres.
      change (stack_sp 12288 [[97]; [120; 121; 122]]) with 12256 in Hres. destruct Hres as (Ep&_&_&_&Hst&_).
      split; [done|]. exists pd, fl'. split; [done|]. split; [done|]. split; [|split].
      * destruct (st_prog _ _ _ _ _ _ _ Hst 7) as (_&_&E); [unfold PGSIZE; lia|]. congruence.
      * apply (st_argc _ _ _ _ _ _ _ Hst).
      * by rewrite (at_rest _ _ _ _ _ _ _ Hcl).
Defined.
