(* ===== verification/Startup.v ===== *)
(** * Starting the other processors: [startothers], [mpenter] and [mpmain] of
    [main.c], and [entryother.S]

    The boot processor copies the code of entryother.S to 0x7000, and for each
    other processor it allocates a stack, writes the three words below the
    code that say what stack, function and page directory to use, and sends
    the interrupts that start it.  The processors then run at the same time:
    [bsp_step] is the next action of the boot processor, [ap_step] that of
    another one, and any interleaving of them is an execution.  The memory and
    its allocator are those of [Vm], the local APICs those of [Apic]. *)

From S2P Require Import Prelude Params CString Cprintf Kalloc Vm VmThms VmSpace VmCopy Ports Trap Apic.

(** ** The boot page directory *)

Definition PTE_PS : Z := 128.
Definition entrypgdir (i : Z) : Z :=
  if (i =? 0) || (i =? Z.shiftr KERNBASE 22) then Z.lor (Z.lor PTE_P PTE_W) PTE_PS else 0.
(** The translation of an address by a directory of 4 Mbyte pages. *)
Definition big_page (dir : Z → Z) (va : Z) : option Z :=
  let e := dir (PDX va) in
  if negb (Z.land e PTE_P =? 0) && negb (Z.land e PTE_PS =? 0) then Some (e / 4194304 * 4194304 + va mod 4194304) else None.

Definition CR0_PE : Z := 1.
Definition CR0_WP : Z := 65536.
Definition CR0_PG : Z := 2147483648.
Definition CR4_PSE : Z := 16.

(** ** Processors *)

(** Where a processor is in entryother.S, which is at [base], or in main.c. *)
Inductive apc :=
  | Halted                       (* waits for a STARTUP *)
  | Start (base : Z)             (* at [start], in real mode *)
  | Start32 (base : Z)           (* at [start32], in protected mode *)
  | Cr3 (base : Z)               (* the page directory is loaded *)
  | Paged (base : Z)             (* paging is on *)
  | OnStack (base : Z)           (* %esp is loaded *)
  | Called (eip : Z)             (* after the call *)
  | Mpmain
  | Starting                     (* before the [xchg] of mpmain *)
  | Up                           (* in the scheduler *)
  | Fault.
Record cpu := Cpu {
  apicid : Z;
  started : Z;
  c_pc : apc;
  c_cr0 : Z;
  c_cr3 : Z;
  c_cr4 : Z;
  c_esp : Z;
  c_gdt : list segdesc;
  c_idt : Z * Z;                 (* limit and base *)
  c_lapic : lapicst;
}.
Definition set_pc (pc : apc) (c : cpu) : cpu :=
  Cpu (apicid c) (started c) pc (c_cr0 c) (c_cr3 c) (c_cr4 c) (c_esp c) (c_gdt c) (c_idt c) (c_lapic c).
Definition set_started (v : Z) (c : cpu) : cpu :=
  Cpu (apicid c) v (c_pc c) (c_cr0 c) (c_cr3 c) (c_cr4 c) (c_esp c) (c_gdt c) (c_idt c) (c_lapic c).
Definition set_crs (cr0 cr3 cr4 : Z) (c : cpu) : cpu :=
  Cpu (apicid c) (started c) (c_pc c) cr0 cr3 cr4 (c_esp c) (c_gdt c) (c_idt c) (c_lapic c).
Definition set_esp (v : Z) (c : cpu) : cpu :=
  Cpu (apicid c) (started c) (c_pc c) (c_cr0 c) (c_cr3 c) (c_cr4 c) v (c_gdt c) (c_idt c) (c_lapic c).
Definition set_local (cr3 : Z) (gdt : list segdesc) (l : lapicst) (c : cpu) : cpu :=
  Cpu (apicid c) (started c) (c_pc c) (c_cr0 c) cr3 (c_cr4 c) (c_esp c) gdt (c_idt c) l.
Definition set_idt (v : Z * Z) (c : cpu) : cpu :=
  Cpu (apicid c) (started c) (c_pc c) (c_cr0 c) (c_cr3 c) (c_cr4 c) (c_esp c) (c_gdt c) v (c_lapic c).

(** ** Interrupts between processors *)

(** The commands that writes to the registers of a local APIC send: the
    destination, and the address to start at or [None] for a reset. *)
Fixpoint ipis (hi : Z) (l : list (Z * Z)) : list (Z * option Z) :=
  match l with
  | [] => []
  | (r, v) :: l' =>
      if r =? ICRHI then ipis v l'
      else if r =? ICRLO then
        let dest := Z.shiftr hi 24 in
        let mode := Z.land v 1792 in
        if (mode =? INIT) && negb (Z.land v ASSERT =? 0) then (dest, None) :: ipis hi l'
        else if mode =? STARTUP then (dest, Some (Z.shiftl (Z.land v 255) 12)) :: ipis hi l'
        else ipis hi l'
      else ipis hi l'
  end.
(** A processor only accepts a STARTUP when it is halted after a reset. *)
Definition accept (i : Z * option Z) (c : cpu) : cpu :=
  if apicid c =? i.1 then
    match i.2, c_pc c with
    | None, _ => set_pc Halted c
    | Some base, Halted => set_pc (Start base) c
    | Some _, _ => c
    end
  else c.
Definition deliver (l : list (Z * option Z)) (cs : list cpu) : list cpu := foldl (λ cs i, accept i <$> cs) cs l.
Definition sent (a a' : lapicst) : list (Z * option Z) := ipis 0 (drop (length (lapic_log a)) (lapic_log a')).

(** *** What lapicinit and lapicstartap send *)

(** A write that starts or resets no processor. *)
Definition quiet_write (w : Z * Z) : Prop :=
  w.1 ≠ ICRLO ∨ Z.land w.2 1792 ≠ STARTUP ∧ (Z.land w.2 1792 = INIT → Z.land w.2 ASSERT = 0).
Definition quiet (a a' : lapicst) : Prop := ∃ l, lapic_log a' = lapic_log a ++ l ∧ Forall quiet_write l.
Lemma quiet_refl a : quiet a a.
Proof. exists []. by rewrite app_nil_r. Qed.
Lemma quiet_trans a b c : quiet a b → quiet b c → quiet a c.
Proof. intros (l&E1&H1) (k&E2&H2). exists (l ++ k). split; [by rewrite E2, E1, app_assoc|by apply Forall_app]. Qed.
Lemma ipis_quiet hi l : Forall quiet_write l → ipis hi l = [].
Proof.
  intros H. revert hi. induction H as [|[r v] l Hw _ IH]; intros hi; [done|]. cbn [ipis].
  destruct (r =? ICRHI); [done|]. destruct (Z.eqb_spec r ICRLO) as [E|E]; [|done]. destruct Hw as [?|[H1 H2]]; [done|]. cbn [fst snd] in *.
  destruct (Z.eqb_spec (Z.land v 1792) INIT) as [Ei|Ei]; cbn [andb].
  - rewrite (H2 Ei). cbn [Z.eqb negb]. by rewrite (proj2 (Z.eqb_neq _ _) H1).
  - by rewrite (proj2 (Z.eqb_neq _ _) H1).
Qed.
Lemma sent_quiet a a' : quiet a a' → sent a a' = [].
Proof. intros (l&E&H). unfold sent. rewrite E, drop_app_length. by apply ipis_quiet. Qed.

Lemma lapicw_quiet r v a (Q : unit → lapicst → Prop) :
  quiet_write (r, u32 v) → (∀ a', quiet a a' → Q tt a') → wp (lapicw r v) Q a.
Proof. intros Hw HQ. apply wp_modify. apply HQ. exists [(r, u32 v)]. split; [done|]. by constructor. Qed.
Lemma wait_quiet n b : lapic_polls b = n → wp (wait_delivered (S n)) (λ _ b', quiet b b') b.
Proof.
  revert b. induction n as [|n IH]; intros b Hb; cbn [wait_delivered]; apply wp_bind; unfold wp at 1, read_icrlo; rewrite Hb.
  - rewrite Z.land_ldiff. cbn [Z.eqb]. apply wp_ret, quiet_refl.
  - destruct (Z.land _ DELIVS =? 0) eqn:E.
    { exfalso. revert E. rewrite Z.land_lor_distr_l, Z.land_diag. intros E%Z.eqb_eq%Z.lor_eq_0_iff. by destruct E. }
    eapply wp_mono; [by apply IH|]. intros _ b' (l&El&Hl). by exists l.
Qed.
Lemma lapicinit_quiet a : wp lapicinit (λ _ a', quiet a a') a.
Proof.
  unfold lapicinit. apply wp_bind, wp_gets. destruct (lapic_on a); cbn [negb]; [|apply wp_ret, quiet_refl].
  assert (Hstep : ∀ r v (k : M lapicst unit) b, quiet a b → quiet_write (r, u32 v) → (∀ b', quiet a b' → wp k (λ _ a', quiet a a') b') →
    wp (lapicw r v;; k) (λ _ a', quiet a a') b).
  { intros r v k b Hb Hw Hk. apply wp_bind, lapicw_quiet; [done|]. intros b' Hb'. apply Hk. by eapply quiet_trans. }
  do 6 (apply Hstep; [solve [eauto using quiet_refl]|by left|intros ? ?]).
  apply wp_bind, wp_gets, wp_bind. apply wp_when; intros _; [apply lapicw_quiet; [by left|]; intros ? ?|].
  all: do 4 (apply Hstep; [solve [eauto using quiet_refl, quiet_trans]|by left|intros ? ?]).
  all: apply Hstep; [done|by left|intros ? ?].
  all: apply Hstep; [done|right; split; [vm_compute; discriminate|by vm_compute]|intros b Hb].
  all: apply wp_bind; unfold get, wp at 1; apply wp_bind.
  all: eapply wp_mono; [by apply wait_quiet|]; cbn beta; intros _ b2 Hb2.
  all: apply lapicw_quiet; [by left|]; intros ? ?; eauto using quiet_trans.
Qed.

Lemma dest_id id : 0 ≤ id < 256 → Z.shiftr (u32 (Z.shiftl id 24)) 24 = id.
Proof.
  intros H. rewrite Z.shiftl_mul_pow2, Z.shiftr_div_pow2 by lia. rewrite u32_id by (unfold is_u32; lia). apply Z.div_mul. lia.
Qed.
Section sends.
Context {D : Type} `{!Ports D}.
Lemma wp_port_outb p v (Q : unit → hw → Prop) (h : hw (D := D)) :
  (∀ h', h_lapic h' = h_lapic h → h_mem h' = h_mem h → Q tt h') → wp (port (outb p v)) Q h.
Proof. intros HQ. unfold wp, port, lift, outb, modify. by apply HQ. Qed.
Lemma wp_mem_upd f (Q : unit → hw → Prop) (h : hw (D := D)) :
  (∀ h', h_lapic h' = h_lapic h → h_mem h' = f (h_mem h) → Q tt h') → wp (mem_upd f) Q h.
Proof. intros HQ. apply wp_modify. by apply HQ. Qed.
Lemma wp_lap_w r v (Q : unit → hw → Prop) (h : hw (D := D)) :
  (∀ h', lapic_log (h_lapic h') = lapic_log (h_lapic h) ++ [(r, u32 v)] → h_mem h' = h_mem h → Q tt h') → wp (lap (lapicw r v)) Q h.
Proof. intros HQ. unfold wp, lap, lift, lapicw, modify. by apply HQ. Qed.

Lemma wp_lift_bind {A B} (m : M lapicst A) (k : A → M lapicst B) (Q : B → hw → Prop) (h : hw (D := D)) :
  wp (lap m) (λ a h', wp (lap (k a)) Q h') h → wp (lap (m ≫= k)) Q h.
Proof. unfold wp, lap, lift, mbind, M_bind. destruct (m (h_lapic h)) as [a l|]; [|done]. done. Qed.

Lemma lapicstartap_sends id (h : hw (D := D)) :
  0 ≤ id < 256 → wp (lapicstartap id 28672) (λ _ h',
    h_mem h' = store16 (store16 (h_mem h) (P2V 1127) 0) (P2V 1127 + 2) 1792 ∧
    sent (h_lapic h) (h_lapic h') = [(id, None); (id, Some 28672); (id, Some 28672)]) h.
Proof.
  intros Hid. unfold lapicstartap. apply wp_bind, wp_port_outb. intros h1 L1 M1. apply wp_bind, wp_port_outb. intros h2 L2 M2. cbv zeta.
  apply wp_bind, wp_mem_upd. intros h3 L3 M3. apply wp_bind, wp_mem_upd. intros h4 L4 M4.
  apply wp_bind, wp_lap_w. intros h5 L5 M5. apply wp_bind, wp_lap_w. intros h6 L6 M6. apply wp_bind, wp_lap_w. intros h7 L7 M7.
  cbn [startup_ipis]. apply wp_lift_bind, wp_lap_w. intros h8 L8 M8. apply wp_lift_bind, wp_lap_w. intros h9 L9 M9.
  apply wp_lift_bind, wp_lap_w. intros h10 L10 M10. apply wp_lift_bind, wp_lap_w. intros h11 L11 M11. unfold wp, lap, lift, mret, M_ret.
  cbn [h_lapic h_mem]. split; [by rewrite M11, M10, M9, M8, M7, M6, M5, M4, M3, M2, M1|].
  rewrite L10, L9, L8, L7, L6, L5, L4, L3, L2, L1 in L11.
  unfold sent. rewrite L11, <-!app_assoc, drop_app_length. cbn [app ipis].
  change (u32 (Z.lor (Z.lor INIT LEVEL) ASSERT)) with 50432. change (u32 (Z.lor INIT LEVEL)) with 34048.
  change (u32 (Z.lor STARTUP (Z.shiftr 28672 12))) with 1543. cbn -[Z.shiftr Z.shiftl u32]. by rewrite dest_id.
Qed.
End sends.

(** The three commands start the processor they are for, and no other. *)
Lemma start_one cs i c base :
  cs !! i = Some c → NoDup (apicid <$> cs) →
  deliver [(apicid c, None); (apicid c, Some base); (apicid c, Some base)] cs = <[i := set_pc (Start base) c]> cs.
Proof.
  intros Hc Hnd. apply list_eq. intros j. cbn [deliver foldl]. rewrite !list_lookup_fmap. destruct (decide (i = j)) as [<-|Hne].
  - rewrite list_lookup_insert_eq by (by eapply lookup_lt_Some). rewrite Hc. cbn. unfold accept. cbn. by rewrite !Z.eqb_refl; cbn; rewrite ?Z.eqb_refl.
  - rewrite list_lookup_insert_ne by done. destruct (cs !! j) as [d|] eqn:Hd; cbn; [|done]. f_equal.
    assert (apicid d ≠ apicid c) as Hid.
    { intros E. apply Hne. eapply (NoDup_lookup _ i j (apicid c)); [exact Hnd| |]; rewrite list_lookup_fmap; [by rewrite Hc|]. rewrite Hd. cbn. by rewrite E. }
    unfold accept. cbn. by rewrite !(proj2 (Z.eqb_neq _ _) Hid).
Qed.

(** ** The machine *)

Section startup.
Context {D : Type} `{!Ports D}.
(** The image of entryother.S, the addresses of [mpenter], [entrypgdir] and
    the interrupt table, and the offset in entryother.S of the instruction
    after the call, which the linker sets. *)
Context (entryother : list Z) (mpenter_at entrypgdir_at idt_at after_call : Z).
(** The index of the boot processor. *)
Context (me : nat).

Definition code : Z := P2V 28672.

(** Where the boot processor is in [startothers]. *)
Inductive bpc :=
  | Copy
  | Loop (i : nat)
  | SetStack (i : nat) (stack : Z)
  | SetEntry (i : nat)
  | SetPgdir (i : nat)
  | Ipi (i : nat)
  | Wait (i : nat)
  | Done.
Record sst := Sst { s_vm : vst; s_hw : hw (D := D); s_cpus : list cpu; s_pc : bpc }.
Definition with_pc (pc : bpc) (s : sst) : sst := Sst (s_vm s) (s_hw s) (s_cpus s) pc.
Definition with_mem (f : mem → mem) (s : sst) : sst := Sst (on_mem f (s_vm s)) (s_hw s) (s_cpus s) (s_pc s).
Definition with_cpu (j : nat) (c : cpu) (s : sst) : sst := Sst (s_vm s) (s_hw s) (<[j := c]> (s_cpus s)) (s_pc s).

(** The boot processor, a statement of [startothers] at a time; [None] when it
    has finished or waits. *)
Definition bsp_step (s : sst) : option sst :=
  match s_pc s with
  | Copy => Some (with_pc (Loop 0) (with_mem (λ m, store m code entryother) s))
  | Loop i =>
      match s_cpus s !! i with
      | None => Some (with_pc Done s)
      | Some c =>
          if Nat.eqb i me then Some (with_pc (Loop (S i)) s)
          else
            match vm_kalloc (s_vm s) with
            | Ok stack v => Some (Sst v (s_hw s) (s_cpus s) (SetStack i stack))
            | Fail _ => None
            end
      end
  | SetStack i stack => Some (with_pc (SetEntry i) (with_mem (λ m, store32 m (code - 4) (stack +u KSTACKSIZE)) s))
  | SetEntry i => Some (with_pc (SetPgdir i) (with_mem (λ m, store32 m (code - 8) mpenter_at) s))
  | SetPgdir i => Some (with_pc (Ipi i) (with_mem (λ m, store32 m (code - 12) (V2P entrypgdir_at)) s))
  | Ipi i =>
      match s_cpus s !! i with
      | None => None
      | Some c =>
          let h := s_hw s in
          match lapicstartap (apicid c) (V2P code) (Hw (h_io h) (h_lapic h) (v_mem (s_vm s)) (h_uart h) (h_dev h)) with
          | Ok _ h' => Some (Sst (on_mem (λ _, h_mem h') (s_vm s)) h' (deliver (sent (h_lapic h) (h_lapic h')) (s_cpus s)) (Wait i))
          | Fail _ => None
          end
      end
  | Wait i =>
      match s_cpus s !! i with
      | None => None
      | Some c => if started c =? 0 then None else Some (with_pc (Loop (S i)) s)
      end
  | Done => None
  end.

(** [mpenter] up to the call of [mpmain], on the registers of the processor. *)
Definition mpenter (c : cpu) (v : vst) : option cpu :=
  match (switchkvm;; seginit) (set_cr3 (c_cr3 c) (on_gdt (λ _, c_gdt c) v)), lapicinit (c_lapic c) with
  | Ok _ v', Ok _ l => Some (set_local (v_cr3 v') (v_gdt v') l c)
  | _, _ => None
  end.
Definition idtinit (c : cpu) : cpu := set_idt (2048 - 1, idt_at) c.

(** [mpmain] on the processor [j] up to the [xchg]. *)
Definition mpmain (j : nat) (c : cpu) (v : vst) : option (cpu * vst) :=
  match cprintf (lit "cpu%d: starting %d\n") [AInt (Z.of_nat j); AInt (Z.of_nat j)] with
  | Some out => Some (idtinit c, on_out (λ o, (o ++ out)%list) v)
  | None => None
  end.

(** The next action of the processor [j]. *)
Definition ap_step (j : nat) (s : sst) : option sst :=
  match s_cpus s !! j with
  | None => None
  | Some c =>
      let m := v_mem (s_vm s) in
      let go c' := Some (with_cpu j c' s) in
      match c_pc c with
      | Halted | Up | Fault => None
      | Start base => go (set_pc (Start32 base) (set_crs (Z.lor (c_cr0 c) CR0_PE) (c_cr3 c) (c_cr4 c) c))
      | Start32 base => go (set_pc (Cr3 base) (set_crs (c_cr0 c) (load32 m (P2V (base - 12))) (Z.lor (c_cr4 c) CR4_PSE) c))
      | Cr3 base =>
          (* any other directory is not one of the kernel's *)
          if c_cr3 c =? V2P entrypgdir_at then
            go (set_pc (Paged base) (set_crs (Z.lor (c_cr0 c) (Z.lor (Z.lor CR0_PE CR0_PG) CR0_WP)) (c_cr3 c) (c_cr4 c) c))
          else go (set_pc Fault c)
      | Paged base =>
          match big_page entrypgdir (base - 4) with
          | Some pa => go (set_pc (OnStack base) (set_esp (load32 m (P2V pa)) c))
          | None => go (set_pc Fault c)
          end
      | OnStack base =>
          match big_page entrypgdir (base - 8), big_page entrypgdir (c_esp c -u 4) with
          | Some pf, Some pa =>
              Some (with_mem (λ m, store32 m (P2V pa) (base + after_call))
                (with_cpu j (set_pc (Called (load32 m (P2V pf))) (set_esp (c_esp c -u 4) c)) s))
          | _, _ => go (set_pc Fault c)
          end
      | Called eip =>
          match (if eip =? mpenter_at then mpenter c (s_vm s) else None) with
          | Some c' =>
              Some (Sst (s_vm s) (s_hw s) (<[j := set_pc Mpmain c']> (deliver (sent (c_lapic c) (c_lapic c')) (s_cpus s))) (s_pc s))
          | None => go (set_pc Fault c)
          end
      | Mpmain =>
          match mpmain j c (s_vm s) with
          | Some (c', v) => Some (Sst v (s_hw s) (<[j := set_pc Starting c']> (s_cpus s)) (s_pc s))
          | None => None
          end
      | Starting => go (set_pc Up (set_started 1 c))
      end
  end.

Definition step (s s' : sst) : Prop := bsp_step s = Some s' ∨ ∃ j, j ≠ me ∧ ap_step j s = Some s'.

(** ** The invariant *)

Section inv.
Context (end_ : Z).
(** The kernel ends above the first megabyte, and entryother.S fits in its
    page. *)
Context (He : KERNLINK ≤ end_) (Hlen : Z.of_nat (length entryother) ≤ PGSIZE) (Hbytes : Forall is_u8 entryother).
Context (Hmp : is_u32 mpenter_at).
Abbreviation kp := (kpage end_).

(** The words that tell a processor what to do. *)
Definition word4 (m : mem) (st : Z) : Prop := load32 m (code - 4) = st + KSTACKSIZE.
Definition word8 (m : mem) : Prop := load32 m (code - 8) = mpenter_at.
Definition word12 (m : mem) : Prop := load32 m (code - 12) = V2P entrypgdir_at.

(** A processor that is being started or has been, with the stack [st]. *)
Definition ap_ok (st kpg : Z) (c : cpu) : Prop :=
  match c_pc c with
  | Halted | Fault => False
  | Start b | Start32 b => b = 28672
  | Cr3 b | Paged b => b = 28672 ∧ c_cr3 c = V2P entrypgdir_at
  | OnStack b => b = 28672 ∧ c_esp c = st + KSTACKSIZE
  | Called e => e = mpenter_at ∧ c_esp c = st + KSTACKSIZE - 4
  | Mpmain => c_cr3 c = V2P kpg ∧ c_esp c = st + KSTACKSIZE - 4
  | Starting | Up => c_cr3 c = V2P kpg ∧ c_esp c = st + KSTACKSIZE - 4 ∧ c_idt c = (2047, idt_at)
  end ∧ started c = match c_pc c with Up => 1 | _ => 0 end.
Definition fresh_ap (c : cpu) : Prop := c_pc c = Halted ∧ started c = 0.

(** The processor whose turn it is, and how many have been given a stack. *)
Definition turn (pc : bpc) (n : nat) : nat :=
  match pc with
  | Copy => 0
  | Loop i | SetStack i _ | SetEntry i | SetPgdir i | Ipi i | Wait i => i
  | Done => n
  end.
Definition given (pc : bpc) (n : nat) : nat :=
  match pc with
  | Copy => 0
  | Loop i => i
  | SetStack i _ | SetEntry i | SetPgdir i | Ipi i | Wait i => S i
  | Done => n
  end.
Definition waiting (pc : bpc) : bool := match pc with Wait _ => true | _ => false end.

Definition words (pc : bpc) (stk : nat → Z) (m : mem) : Prop :=
  match pc with
  | Copy | Loop _ | Done => True
  | SetStack i st => i ≠ me ∧ st = stk i
  | SetEntry i => i ≠ me ∧ word4 m (stk i)
  | SetPgdir i => i ≠ me ∧ word4 m (stk i) ∧ word8 m
  | Ipi i | Wait i => i ≠ me ∧ word4 m (stk i) ∧ word8 m ∧ word12 m
  end.

Record start_inv (ids : list Z) (kpg : Z) (stk : nat → Z) (fl : list Z) (s : sst) : Prop := {
  si_alloc : alloc_ok end_ fl (s_vm s);
  si_low q : q ∈ fl → q < KERNBASE + 4194304;
  si_kpg : v_kpgdir (s_vm s) = kpg;
  si_ids : apicid <$> s_cpus s = ids;
  si_enough : (length ids ≤ given (s_pc s) (length ids) + length fl)%nat;
  si_turn : (given (s_pc s) (length ids) ≤ length ids)%nat;
  si_stack j : (j < given (s_pc s) (length ids))%nat → j ≠ me → kp (stk j) ∧ (stk j ∉ fl) ∧ stk j < KERNBASE + 4194304;
  si_inj j k : (j < given (s_pc s) (length ids))%nat → (k < given (s_pc s) (length ids))%nat → j ≠ me → k ≠ me → stk j = stk k → j = k;
  si_cpu j c : s_cpus s !! j = Some c → j ≠ me →
    if (j <? turn (s_pc s) (length ids))%nat then c_pc c = Up ∧ ap_ok (stk j) kpg c
    else if (j =? turn (s_pc s) (length ids))%nat && waiting (s_pc s) then ap_ok (stk j) kpg c
    else fresh_ap c;
  si_words : words (s_pc s) stk (v_mem (s_vm s));
}.

(** Writing outside the free pages. *)
Lemma free_write fl v (f : mem → mem) :
  alloc_ok end_ fl v → bytes_ok (f (v_mem v)) → (∀ q x, q ∈ fl → q ≤ x < q + PGSIZE → f (v_mem v) x = v_mem v x) → alloc_ok end_ fl (on_mem f v).
Proof.
  intros [Hf Hh Hb] Hb' Hx. split; [|done|done]. apply (free_pages_frame end_ (v_k v) fl (f (v_mem v)) Hf).
  intros q x Hq Hxx. apply (Hx q x Hq). unfold PGSIZE. lia.
Qed.
Lemma low_write fl v (f : mem → mem) :
  alloc_ok end_ fl v → bytes_ok (f (v_mem v)) → (∀ x, end_ ≤ x → f (v_mem v) x = v_mem v x) → alloc_ok end_ fl (on_mem f v).
Proof.
  intros Ha Hb Hx. apply free_write; [done|done|]. intros q x Hq Hxx. apply Hx.
  pose proof (fp_pages _ _ _ (ao_free _ _ _ Ha)) as Hp. rewrite Forall_forall in Hp. specialize (Hp q Hq). unfold kpage in Hp. lia.
Qed.
Lemma code_eq : code = KERNBASE + 28672.
Proof. done. Qed.

Section steps.
Context (ids : list Z) (kpg : Z) (Hids : NoDup ids) (Hid : Forall (λ x, 0 ≤ x < 256) ids).
Abbreviation n := (length ids).

(** A write by the boot processor below the kernel, which takes it from one
    statement to the next for the same processor. *)
Lemma inv_write stk fl s pc f :
  start_inv ids kpg stk fl s → turn pc n = turn (s_pc s) n → given pc n = given (s_pc s) n → waiting pc = waiting (s_pc s) →
  bytes_ok (f (v_mem (s_vm s))) → (∀ x, end_ ≤ x → f (v_mem (s_vm s)) x = v_mem (s_vm s) x) → words pc stk (f (v_mem (s_vm s))) →
  start_inv ids kpg stk fl (with_pc pc (with_mem f s)).
Proof.
  intros [] Et Eg Ew Hb Hx Hw. split; cbn [s_pc s_cpus s_vm with_pc with_mem]; rewrite ?Et, ?Eg, ?Ew; try done. by apply low_write.
Qed.
Lemma store32_low m a v x : a + 4 ≤ end_ → end_ ≤ x → store32 m a v x = m x.
Proof. intros Ha Hx. apply store32_ne. lia. Qed.

Lemma bsp_loop stk fl s s' i :
  start_inv ids kpg stk fl s → s_pc s = Loop i → bsp_step s = Some s' → ∃ stk' fl', start_inv ids kpg stk' fl' s'.
Proof.
  intros Hs Hpc E. unfold bsp_step in E. rewrite Hpc in E. pose proof Hs as [A L K I En T S J C W]. rewrite Hpc in *. cbn [turn given waiting] in *.
  assert (Hn : length (s_cpus s) = n) by (by rewrite <-I, length_fmap).
  destruct (s_cpus s !! i) as [c|] eqn:Hc.
  - pose proof (lookup_lt_Some _ _ _ Hc) as Hlt. destruct (Nat.eqb_spec i me) as [->|Hne].
    + injection E as <-. exists stk, fl. split; cbn [s_pc s_cpus s_vm with_pc turn given waiting]; try done; [lia|lia|intros j Hj ?; apply S; lia|intros; apply J; try done; lia|].
      intros j d Hd Hj. specialize (C j d Hd Hj). destruct (Nat.ltb_spec j me), (Nat.ltb_spec j (Datatypes.S me)); try lia; [done|].
      by rewrite andb_false_r in *.
    + destruct (wp_elim _ _ _ (vm_kalloc_alloc end_ (s_vm s) fl A)) as (r&v&Ek&Em&Hr). rewrite Ek in E. injection E as <-.
      destruct fl as [|q fl]; [cbn in En; lia|]. destruct Hr as (->&Hq&Hnq&A').
      assert (Ekp : v_kpgdir v = kpg).
      { rewrite <-K. unfold vm_kalloc, lift_k in Ek. by destruct (kalloc (v_k (s_vm s))); simplify_eq. }
      exists (λ j, if (j =? i)%nat then q else stk j), fl.
      split; cbn [s_pc s_cpus s_vm turn given waiting]; try done.
      * intros x Hx. apply L. by right.
      * cbn in En. lia.
      * lia.
      * intros j Hj Hjm. destruct (Nat.eqb_spec j i) as [->|Hji]; [split_and!; [done|done|apply L; by left]|].
        destruct (S j ltac:(lia) Hjm) as (?&Hn'&?). split_and!; [done| |done]. rewrite elem_of_cons in Hn'. tauto.
      * intros j k Hj Hk Hjm Hkm. destruct (Nat.eqb_spec j i), (Nat.eqb_spec k i); subst; try done.
        -- intros ->. destruct (S k ltac:(lia) Hkm) as (_&Hn'&_). destruct Hn'. by left.
        -- intros <-. destruct (S j ltac:(lia) Hjm) as (_&Hn'&_). destruct Hn'. by left.
        -- apply J; try done; lia.
      * intros j d Hd Hj. specialize (C j d Hd Hj). destruct (Nat.ltb_spec j i); [|by rewrite andb_false_r in *].
        destruct (Nat.eqb_spec j i); [lia|done].
      * cbn. by rewrite Nat.eqb_refl.
  - injection E as <-. assert (i = n) as -> by (apply lookup_ge_None in Hc; lia). exists stk, fl.
    split; cbn [s_pc s_cpus s_vm with_pc turn given waiting]; done.
Qed.

Lemma code_words m a b v : a ∈ [code - 4; code - 8; code - 12] → b ∈ [code - 4; code - 8; code - 12] → a ≠ b → load32 (store32 m a v) b = load32 m b.
Proof.
  rewrite !elem_of_cons, !elem_of_nil. intros Ha Hb Hne. apply load32_store32_ne. unfold code in *. lia.
Qed.
Lemma code_low k : 4 ≤ k → code - k + 4 ≤ end_.
Proof. intros Hk. rewrite code_eq. unfold KERNLINK, KERNBASE, EXTMEM in *. lia. Qed.
Lemma stack_u32 st : kp st → is_u32 (st + KSTACKSIZE) ∧ st +u KSTACKSIZE = st + KSTACKSIZE.
Proof.
  intros (_&_&Hst). assert (is_u32 (st + KSTACKSIZE)) by (unfold is_u32, KSTACKSIZE, KERNBASE, PHYSTOP in *; lia). split; [done|by apply u32_id].
Qed.

Lemma store_bytes m a l : bytes_ok m → Forall is_u8 l → bytes_ok (store m a l).
Proof.
  intros Hm Hl. revert m a Hm. induction Hl as [|b l Hb _ IH]; intros m a Hm; cbn [store]; [done|]. apply IH.
  intros x. unfold upd. by destruct (x =? a).
Qed.

Lemma bsp_words stk fl s s' :
  start_inv ids kpg stk fl s → match s_pc s with Copy | SetStack _ _ | SetEntry _ | SetPgdir _ => True | _ => False end →
  bsp_step s = Some s' → start_inv ids kpg stk fl s'.
Proof.
  intros Hs Hpc E. pose proof (ao_bytes _ _ _ (si_alloc _ _ _ _ _ Hs)) as Hb. pose proof (si_words _ _ _ _ _ Hs) as W.
  pose proof (si_stack _ _ _ _ _ Hs) as S. unfold bsp_step in E. destruct (s_pc s) eqn:P; try done; injection E as <-; cbn [words given] in *.
  - apply (inv_write stk fl s (Loop 0) _ Hs); rewrite ?P; try done.
    + by apply store_bytes.
    + intros x Hx. apply store_ne. rewrite code_eq. unfold KERNLINK, KERNBASE, EXTMEM, PGSIZE in *. lia.
  - destruct W as [Hi ->]. destruct (stack_u32 (stk i)) as [Hu Eu]; [by apply S; [lia|]|].
    apply (inv_write stk fl s (SetEntry i) _ Hs); rewrite ?P; try done; [by apply store32_bytes|intros x Hx; apply store32_low; [by apply code_low|done]|].
    split; [done|]. unfold word4. rewrite Eu. by apply load32_store32.
  - destruct W as [Hi W4].
    apply (inv_write stk fl s (SetPgdir i) _ Hs); rewrite ?P; try done; [by apply store32_bytes|intros x Hx; apply store32_low; [by apply code_low|done]|].
    split_and!; [done| |by apply load32_store32]. unfold word4. by rewrite code_words by set_solver.
  - destruct W as (Hi&W4&W8).
    apply (inv_write stk fl s (Ipi i) _ Hs); rewrite ?P; try done; [by apply store32_bytes|intros x Hx; apply store32_low; [by apply code_low|done]|].
    split_and!; [done| | |apply load32_store32; apply u32_range]; unfold word4, word8; by rewrite code_words by set_solver.
Qed.

Lemma reset_vector m : bytes_ok m →
  let m' := store16 (store16 m (P2V 1127) 0) (P2V 1127 + 2) 1792 in
  bytes_ok m' ∧ ∀ x, P2V 2048 ≤ x → m' x = m x.
Proof.
  intros Hm. unfold store16. change (P2V 1127) with 2147484775. change (P2V 2048) with 2147485696. split.
  - intros x. unfold upd. repeat (case_match; [by vm_compute|]). apply Hm.
  - intros x Hx. unfold upd. zcases.
Qed.
Lemma code_above m m' k : (∀ x, P2V 2048 ≤ x → m' x = m x) → 4 ≤ k ≤ 12 → load32 m' (code - k) = load32 m (code - k).
Proof.
  intros Hm Hk. apply load32_ext. intros x Hx. apply Hm. change (P2V 2048) with 2147485696. rewrite code_eq in Hx. unfold KERNBASE in *. lia.
Qed.

Lemma bsp_ipi stk fl s s' i :
  start_inv ids kpg stk fl s → s_pc s = Ipi i → bsp_step s = Some s' → start_inv ids kpg stk fl s'.
Proof.
  intros Hs Hpc E. unfold bsp_step in E. rewrite Hpc in E. pose proof Hs as [A L K I En T S J C W]. rewrite Hpc in *. cbn [turn given waiting words] in *.
  destruct W as (Hi&W4&W8&W12). destruct (s_cpus s !! i) as [c|] eqn:Hc; [|done].
  assert (Hci : ids !! i = Some (apicid c)) by (by rewrite <-I, list_lookup_fmap, Hc).
  change (V2P code) with 28672 in E. set (h0 := Hw _ _ _ _ _) in E.
  destruct (wp_elim _ _ _ (lapicstartap_sends (apicid c) h0 (Forall_lookup_1 _ _ _ _ Hid Hci))) as ([]&h'&Eh&Hm&Hsent).
  rewrite Eh in E. injection E as <-. change (h_lapic h0) with (h_lapic (s_hw s)) in Hsent. rewrite Hsent, (start_one (s_cpus s) i c) by (done || by rewrite I).
  change (h_mem h0) with (v_mem (s_vm s)) in Hm. destruct (reset_vector (v_mem (s_vm s)) (ao_bytes _ _ _ A)) as [Hb Hx]. rewrite <-Hm in Hb, Hx.
  split; cbn [s_pc s_cpus s_vm turn given waiting words]; try done.
  - apply low_write; [done|done|]. intros x Hxe. apply Hx. change (P2V 2048) with 2147485696. unfold KERNLINK, KERNBASE, EXTMEM in *. lia.
  - rewrite list_fmap_insert. cbn. rewrite list_insert_id; [done|]. by rewrite list_lookup_fmap, Hc.
  - intros j d Hd Hj. destruct (decide (i = j)) as [<-|Hne].
    + rewrite list_lookup_insert_eq in Hd by (by eapply lookup_lt_Some). injection Hd as <-. rewrite Nat.ltb_irrefl, Nat.eqb_refl. cbn.
      specialize (C i c Hc Hi). rewrite Nat.ltb_irrefl, andb_false_r in C. destruct C as [_ C]. split; [done|exact C].
    + rewrite list_lookup_insert_ne in Hd by done. specialize (C j d Hd Hj). destruct (Nat.ltb_spec j i); [done|].
      rewrite andb_false_r in C. destruct (Nat.eqb_spec j i); [by subst|done].
  - change (v_mem (on_mem (λ _, h_mem h') (s_vm s))) with (h_mem h'). unfold word4, word8, word12.
    rewrite !(λ k, code_above _ _ k Hx) by lia. done.
Qed.

Lemma bsp_wait stk fl s s' i :
  start_inv ids kpg stk fl s → s_pc s = Wait i → bsp_step s = Some s' → start_inv ids kpg stk fl s'.
Proof.
  intros Hs Hpc E. unfold bsp_step in E. rewrite Hpc in E. pose proof Hs as [A L K I En T S J C W]. rewrite Hpc in *. cbn [turn given waiting words] in *.
  destruct W as (Hi&_). destruct (s_cpus s !! i) as [c|] eqn:Hc; [|done]. destruct (Z.eqb_spec (started c) 0) as [|Hst]; [done|].
  injection E as <-. split; cbn [s_pc s_cpus s_vm with_pc turn given waiting words]; try done.
  intros j d Hd Hj. specialize (C j d Hd Hj). rewrite andb_false_r. destruct (Nat.ltb_spec j (Datatypes.S i)) as [Hlt|Hge].
  - destruct (Nat.ltb_spec j i); [done|]. assert (j = i) as -> by lia. rewrite Nat.eqb_refl in C. cbn in C. assert (d = c) as -> by congruence.
    split; [|done]. destruct C as [_ C]. by destruct (c_pc c).
  - destruct (Nat.ltb_spec j i); [lia|]. destruct (Nat.eqb_spec j i); [lia|done].
Qed.

Lemma bsp_inv stk fl s s' :
  start_inv ids kpg stk fl s → bsp_step s = Some s' → ∃ stk' fl', start_inv ids kpg stk' fl' s'.
Proof.
  intros Hs E. destruct (s_pc s) eqn:P; [|by eapply bsp_loop|..].
  1-4: exists stk, fl; apply (bsp_words stk fl s s' Hs); [by rewrite P|done].
  - exists stk, fl. by eapply bsp_ipi.
  - exists stk, fl. by eapply bsp_wait.
  - unfold bsp_step in E. by rewrite P in E.
Qed.

(** Only the processor that the boot processor waits for takes steps. *)
Lemma ap_turn stk fl s s' j :
  start_inv ids kpg stk fl s → j ≠ me → ap_step j s = Some s' → s_pc s = Wait j ∧ ∃ c, s_cpus s !! j = Some c ∧ ap_ok (stk j) kpg c.
Proof.
  intros Hs Hj E. unfold ap_step in E. destruct (s_cpus s !! j) as [c|] eqn:Hc; [|done]. pose proof (si_cpu _ _ _ _ _ Hs j c Hc Hj) as C.
  destruct (Nat.ltb_spec j (turn (s_pc s) n)); [destruct C as [C _]; by rewrite C in E|].
  destruct (Nat.eqb_spec j (turn (s_pc s) n)) as [Ej|]; cbn [andb] in C; [|destruct C as [C _]; by rewrite C in E].
  destruct (waiting (s_pc s)) eqn:Ew; [|destruct C as [C _]; by rewrite C in E].
  destruct (s_pc s); try done. cbn in Ej. subst. split; [done|]. by exists c.
Qed.
Lemma inv_ap stk fl s j c c' v' :
  start_inv ids kpg stk fl s → s_pc s = Wait j → j ≠ me → s_cpus s !! j = Some c → apicid c' = apicid c → ap_ok (stk j) kpg c' →
  alloc_ok end_ fl v' → v_kpgdir v' = kpg → words (Wait j) stk (v_mem v') →
  start_inv ids kpg stk fl (Sst v' (s_hw s) (<[j := c']> (s_cpus s)) (s_pc s)).
Proof.
  intros [A L K I En T S J C W] Hpc Hj Hc Hid' Hok A' K' W'. rewrite Hpc in *.
  split; cbn [s_pc s_cpus s_vm]; try done.
  - rewrite list_fmap_insert, Hid', list_insert_id; [done|]. by rewrite list_lookup_fmap, Hc.
  - intros k d Hd Hk. destruct (decide (j = k)) as [<-|Hne].
    + rewrite list_lookup_insert_eq in Hd by (by eapply lookup_lt_Some). injection Hd as <-. cbn [turn waiting]. by rewrite Nat.ltb_irrefl, Nat.eqb_refl.
    + rewrite list_lookup_insert_ne in Hd by done. by apply C.
Qed.

Lemma entry_high va : KERNBASE ≤ va < KERNBASE + 4194304 → big_page entrypgdir va = Some (va - KERNBASE) ∧ P2V (va - KERNBASE) = va.
Proof.
  intros Hva. split.
  - unfold big_page. assert (PDX va = 512) as -> by (rewrite PDX_eq; unfold KERNBASE in *; zdm).
    change (entrypgdir 512) with 131. cbv zeta. change (131 / 4194304 * 4194304) with 0.
    change (negb (Z.land 131 PTE_P =? 0) && negb (Z.land 131 PTE_PS =? 0)) with true. cbv iota. f_equal. unfold KERNBASE in *. zdm.
  - unfold P2V. replace (va - KERNBASE + KERNBASE) with va by lia. apply u32_id. unfold is_u32, KERNBASE in *. lia.
Qed.
(** The push of the call goes to the processor's own stack. *)
Lemma push_ok stk fl s j w :
  start_inv ids kpg stk fl s → s_pc s = Wait j → j ≠ me →
  let f m := store32 m (stk j + KSTACKSIZE - 4) w in
  alloc_ok end_ fl (on_mem f (s_vm s)) ∧ words (Wait j) stk (f (v_mem (s_vm s))).
Proof.
  intros Hs Hpc Hj f. destruct (si_stack _ _ _ _ _ Hs j) as (Hk&Hn&Hl); [rewrite Hpc; cbn; lia|done|].
  pose proof (si_alloc _ _ _ _ _ Hs) as A. pose proof (si_words _ _ _ _ _ Hs) as W. rewrite Hpc in W. destruct W as (_&W4&W8&W12).
  assert (Hb : ∀ k, 4 ≤ k ≤ 12 → load32 (f (v_mem (s_vm s))) (code - k) = load32 (v_mem (s_vm s)) (code - k)).
  { intros k Hkk. apply load32_store32_ne. right. pose proof (code_low 4). rewrite code_eq in *. destruct Hk as (_&Hk&_). unfold KSTACKSIZE, KERNLINK, KERNBASE, EXTMEM in *. lia. }
  split.
  - apply free_write; [done|by apply store32_bytes, A|]. intros q x Hq Hx. apply store32_ne.
    pose proof (fp_pages _ _ _ (ao_free _ _ _ A)) as Hp. rewrite Forall_forall in Hp.
    destruct (kpage_disjoint end_ (stk j) q Hk (Hp q Hq)) as [?|?]; [by intros <-|unfold KSTACKSIZE, PGSIZE in *; lia..].
  - split; [done|]. unfold word4, word8, word12. by rewrite !Hb by lia.
Qed.

Lemma mpenter_ok c v : ∃ c', mpenter c v = Some c' ∧ apicid c' = apicid c ∧ started c' = started c ∧ c_esp c' = c_esp c ∧
  c_cr3 c' = V2P (v_kpgdir v) ∧ sent (c_lapic c) (c_lapic c') = [].
Proof.
  destruct (wp_elim _ _ _ (lapicinit_quiet (c_lapic c))) as ([]&l&E&Hq). unfold mpenter. rewrite E.
  eexists. split; [reflexivity|]. split_and!; try done. by apply sent_quiet.
Qed.

Lemma ap_inv stk fl s s' j :
  start_inv ids kpg stk fl s → j ≠ me → ap_step j s = Some s' → start_inv ids kpg stk fl s'.
Proof.
  intros Hs Hj E. destruct (ap_turn stk fl s s' j Hs Hj E) as (Hpc&c&Hc&Hok). pose proof (inv_ap stk fl s j c) as Hgo.
  pose proof Hs as [A _ K _ _ _ S _ _ W]. rewrite Hpc in W, S. destruct (S j) as (Hk&_&Hlow); [cbn; lia|done|].
  assert (Hlocal : ∀ c', apicid c' = apicid c → ap_ok (stk j) kpg c' → start_inv ids kpg stk fl (with_cpu j c' s)) by (intros c' H1 H2; by apply Hgo).
  unfold ap_step in E. rewrite Hc in E. destruct Hok as [Hok Hst]. destruct W as (_&W4&W8&W12). destruct (c_pc c) eqn:P; try done.
  - injection E as <-. apply Hlocal; [done|]. by split.
  - injection E as <-. apply Hlocal; [done|]. subst base. split; [|done]. split; [done|exact W12].
  - destruct Hok as [-> E3]. rewrite E3, Z.eqb_refl in E. injection E as <-. apply Hlocal; [done|]. by split.
  - destruct Hok as [-> E3]. change (big_page entrypgdir (28672 - 4)) with (Some 28668) in E. injection E as <-. apply Hlocal; [done|].
    split; [|done]. split; [done|exact W4].
  - destruct Hok as [-> E4]. change (big_page entrypgdir (28672 - 8)) with (Some 28664) in E.
    assert (c_esp c -u 4 = stk j + KSTACKSIZE - 4) as Ee.
    { rewrite E4. apply u32_id. unfold kpage, is_u32, KSTACKSIZE, KERNBASE, PHYSTOP in *. lia. }
    destruct (entry_high (stk j + KSTACKSIZE - 4)) as [B1 B2]; [unfold kpage, KSTACKSIZE, KERNBASE, PGSIZE in *; zdm|].
    rewrite Ee, B1, B2 in E. injection E as <-. destruct (push_ok stk fl s j (28672 + after_call) Hs Hpc Hj) as [H1 H2].
    apply (Hgo _ (on_mem _ (s_vm s))); try done.
  - destruct Hok as [-> E4]. rewrite Z.eqb_refl in E. destruct (mpenter_ok c (s_vm s)) as (c'&Em&H1&H2&H3&H4&H5).
    rewrite Em, H5 in E. injection E as <-. apply (Hgo (set_pc Mpmain c')); try done. rewrite K in H4. split; [|by rewrite <-Hst, <-H2].
    split; [done|]. cbn. by rewrite H3.
  - unfold mpmain in E. destruct (cprintf _ _) as [out|]; [|done]. injection E as <-. destruct Hok as [H1 H2].
    apply (Hgo (set_pc Starting (idtinit c)) (on_out _ (s_vm s))); [done..| |destruct A as [A1 A2 A3]; by split|done|done]. split; [|exact Hst]. by split_and!.
  - injection E as <-. apply Hlocal; [done|]. by split.
Qed.

(** ** Progress and termination *)

Lemma ap_moves stk fl s j c :
  start_inv ids kpg stk fl s → s_cpus s !! j = Some c → ap_ok (stk j) kpg c → c_pc c ≠ Up → ∃ s', ap_step j s = Some s'.
Proof.
  intros Hs Hc [Hok _] Hup. unfold ap_step. rewrite Hc. destruct (c_pc c); try done; cbv zeta; repeat case_match; eauto.
  unfold mpmain in *. by destruct (cprintf _ _) eqn:Ecp.
Qed.
Lemma start_progress stk fl s : start_inv ids kpg stk fl s → s_pc s = Done ∨ ∃ s', step s s'.
Proof.
  intros Hs. pose proof Hs as [A _ _ I _ T _ _ C W].
  assert (Hcpu : ∀ i, (i < n)%nat → ∃ c, s_cpus s !! i = Some c) by (intros i Hi; apply lookup_lt_is_Some; by rewrite <-(length_fmap apicid), I).
  assert (Hb : s_pc s = Done ∨ (∃ i c, s_pc s = Wait i ∧ s_cpus s !! i = Some c ∧ started c = 0) ∨ ∃ s', bsp_step s = Some s').
  { unfold bsp_step. destruct (s_pc s) as [|i|i st|i|i|i|i|] eqn:P; cbn [given] in *; eauto.
    - right. right. destruct (s_cpus s !! i); [|eauto]. destruct (Nat.eqb i me); [eauto|].
      destruct (wp_elim _ _ _ (vm_kalloc_alloc end_ (s_vm s) fl A)) as (r&v&->&_). eauto.
    - right. right. destruct (Hcpu i) as [c Hc]; [lia|]. rewrite Hc. change (V2P code) with 28672. set (h0 := Hw _ _ _ _ _).
      assert (Hci : ids !! i = Some (apicid c)) by (by rewrite <-I, list_lookup_fmap, Hc).
      destruct (wp_elim _ _ _ (lapicstartap_sends (apicid c) h0 (Forall_lookup_1 _ _ _ _ Hid Hci))) as ([]&h'&->&_). eauto.
    - right. destruct (Hcpu i) as [c Hc]; [lia|]. destruct (Z.eq_dec (started c) 0) as [E|E]; [left; eauto|right].
      rewrite Hc. rewrite (proj2 (Z.eqb_neq _ 0) E). eauto. }
  destruct Hb as [?|[(i&c&P&Hc&E)|(s'&E)]]; [by left| |right; exists s'; by left]. right. rewrite P in W, C. destruct W as [Hi _].
  specialize (C i c Hc Hi). cbn [turn waiting] in C. rewrite Nat.ltb_irrefl, Nat.eqb_refl in C.
  destruct (ap_moves stk fl s i c Hs Hc C) as [s' Es]; [destruct C as [_ C]; intros U; rewrite U in C; lia|].
  exists s'. right. eauto.
Qed.

(** The steps a processor has left, and those of the boot processor. *)
Definition ap_left (c : cpu) : nat :=
  match c_pc c with
  | Halted | Start _ => 8 | Start32 _ => 7 | Cr3 _ => 6 | Paged _ => 5 | OnStack _ => 4 | Called _ => 3
  | Mpmain => 2 | Starting => 1 | Up | Fault => 0
  end.
Definition bsp_left (pc : bpc) : nat :=
  match pc with
  | Copy => 6 * n + 2 | Loop i => 6 * (n - i) + 1 | SetStack i _ => 6 * (n - i) | SetEntry i => 6 * (n - i) - 1
  | SetPgdir i => 6 * (n - i) - 2 | Ipi i => 6 * (n - i) - 3 | Wait i => 6 * (n - i) - 4 | Done => 0
  end.
Definition left_ (s : sst) : nat := bsp_left (s_pc s) + sum_list_with ap_left (s_cpus s).

Lemma sum_insert {A} (f : A → nat) l i x y : l !! i = Some x → (sum_list_with f (<[i := y]> l) + f x = sum_list_with f l + f y)%nat.
Proof.
  revert i. induction l as [|z l IH]; intros [|i] E; try done; [simplify_eq/=; lia|].
  change (<[S i := y]> (z :: l)) with (z :: <[i := y]> l). cbn [sum_list_with]. specialize (IH i E). lia.
Qed.

Lemma ap_decreases stk fl s s' j : start_inv ids kpg stk fl s → j ≠ me → ap_step j s = Some s' → (left_ s' < left_ s)%nat.
Proof.
  intros Hs Hj E. destruct (ap_turn stk fl s s' j Hs Hj E) as (Hpc&c&Hc&Hok).
  assert (Hlt : ∀ c', (ap_left c' < ap_left c)%nat → (sum_list_with ap_left (<[j := c']> (s_cpus s)) < sum_list_with ap_left (s_cpus s))%nat).
  { intros c' Hlt. pose proof (sum_insert ap_left (s_cpus s) j c c' Hc). lia. }
  assert (∃ c', s_cpus s' = <[j := c']> (s_cpus s) ∧ s_pc s' = s_pc s ∧ (ap_left c' < ap_left c)%nat) as (c'&Ec&Ep&Hl).
  { destruct Hok as [Hok _]. unfold ap_step in E. rewrite Hc in E. unfold ap_left at 2. destruct (c_pc c) as [|b|b|b|b|b|e| | | |] eqn:P; try done; cbv zeta in E; unfold mpmain in E.
    all: try (repeat case_match; simplify_eq; eexists; (split_and!; [done|done|cbn; lia])).
    destruct (e =? mpenter_at).
    - destruct (mpenter_ok c (s_vm s)) as (c'&Em&_&_&_&_&H5). rewrite Em, H5 in E. simplify_eq. eexists. split_and!; [done|done|cbn; lia].
    - simplify_eq. eexists. split_and!; [done|done|cbn; lia]. }
  unfold left_. rewrite Ec, Ep. specialize (Hlt c' Hl). lia.
Qed.
Lemma bsp_decreases stk fl s s' : start_inv ids kpg stk fl s → bsp_step s = Some s' → (left_ s' < left_ s)%nat.
Proof.
  intros Hs E. pose proof Hs as [A _ _ I _ T _ _ C W]. unfold bsp_step in E. unfold left_. destruct (s_pc s) as [|i|i st|i|i|i|i|] eqn:P; cbn [given turn waiting words] in *; try done.
  - simplify_eq. cbn. lia.
  - destruct (s_cpus s !! i) as [c|] eqn:Hc; [|simplify_eq; cbn; lia].
    pose proof (lookup_lt_Some _ _ _ Hc) as Hlt. rewrite <-(length_fmap apicid), I in Hlt.
    destruct (Nat.eqb i me); [|destruct (vm_kalloc (s_vm s)); [|done]]; simplify_eq; cbn [s_pc s_cpus with_pc bsp_left]; lia.
  - simplify_eq. cbn [s_pc s_cpus with_pc with_mem bsp_left]. lia.
  - simplify_eq. cbn [s_pc s_cpus with_pc with_mem bsp_left]. lia.
  - simplify_eq. cbn [s_pc s_cpus with_pc with_mem bsp_left]. lia.
  - destruct (s_cpus s !! i) as [c|] eqn:Hc; [|done]. destruct W as (Hi&_). specialize (C i c Hc Hi). rewrite Nat.ltb_irrefl, andb_false_r in C.
    assert (Hci : ids !! i = Some (apicid c)) by (by rewrite <-I, list_lookup_fmap, Hc).
    change (V2P code) with 28672 in E. set (h0 := Hw _ _ _ _ _) in E.
    destruct (wp_elim _ _ _ (lapicstartap_sends (apicid c) h0 (Forall_lookup_1 _ _ _ _ Hid Hci))) as ([]&h'&Eh&_&Hsent).
    rewrite Eh in E. change (h_lapic h0) with (h_lapic (s_hw s)) in Hsent. rewrite Hsent, (start_one (s_cpus s) i c) in E by (done || by rewrite I). simplify_eq.
    cbn [s_pc s_cpus bsp_left]. pose proof (sum_insert ap_left (s_cpus s) i c (set_pc (Start 28672) c) Hc) as Hsum.
    unfold ap_left at 2 4 in Hsum. rewrite (proj1 C) in Hsum. cbn [c_pc set_pc] in Hsum. lia.
  - destruct (s_cpus s !! i) as [c|] eqn:Hc; [|done]. destruct (started c =? 0); [done|]. simplify_eq. cbn [s_pc s_cpus with_pc bsp_left]. lia.
Qed.

(** The state in which startothers is called. *)
Record start_ready (fl : list Z) (s : sst) : Prop := {
  sr_pc : s_pc s = Copy;
  sr_alloc : alloc_ok end_ fl (s_vm s);
  sr_low q : q ∈ fl → q < KERNBASE + 4194304;
  sr_pages : (n ≤ length fl)%nat;
  sr_kpg : v_kpgdir (s_vm s) = kpg;
  sr_ids : apicid <$> s_cpus s = ids;
  sr_halted j c : s_cpus s !! j = Some c → j ≠ me → fresh_ap c;
}.
(** All processors run, each on a page of its own. *)
Definition all_up (s : sst) : Prop :=
  s_pc s = Done ∧ ∃ (stk : nat → Z) fl, alloc_ok end_ fl (s_vm s) ∧
    (∀ j k, (j < n)%nat → (k < n)%nat → j ≠ me → k ≠ me → stk j = stk k → j = k) ∧
    ∀ j c, s_cpus s !! j = Some c → j ≠ me → c_pc c = Up ∧ started c = 1 ∧ c_cr3 c = V2P kpg ∧ c_idt c = (2047, idt_at) ∧
      kp (stk j) ∧ (stk j ∉ fl) ∧ c_esp c = stk j + KSTACKSIZE - 4.

Lemma ready_inv fl s : start_ready fl s → start_inv ids kpg (λ _, 0) fl s.
Proof.
  intros [P A L En K I C]. split; rewrite ?P; cbn [turn given waiting words]; try done; try lia.
  intros j c Hc Hj. rewrite andb_false_r. destruct (Nat.ltb_spec j 0); [lia|]. by apply (C j).
Qed.
Lemma inv_all_up stk fl s : start_inv ids kpg stk fl s → s_pc s = Done → all_up s.
Proof.
  intros [A L K I En T S J C W] P. rewrite P in *. cbn [turn given waiting words] in *. split; [done|]. exists stk, fl. split_and!; [done|done|].
  intros j c Hc Hj. assert (j < n)%nat as Hlt by (rewrite <-I, length_fmap; by eapply lookup_lt_Some).
  specialize (C j c Hc Hj). destruct (Nat.ltb_spec j n); [|lia]. destruct C as [U [C1 C2]]. rewrite U in C1, C2. destruct C1 as (H1&H2&H3).
  destruct (S j Hlt Hj) as (H4&H5&_). by split_and!.
Qed.
Lemma steps_inv k s s' stk fl :
  start_inv ids kpg stk fl s → nsteps step k s s' → (∃ stk' fl', start_inv ids kpg stk' fl' s') ∧ (left_ s' + k ≤ left_ s)%nat.
Proof.
  intros Hs Hk. revert stk fl Hs. induction Hk as [s|k s s1 s' Hst Hk IH]; intros stk fl Hs; [split; [eauto|lia]|].
  assert ((∃ stk' fl', start_inv ids kpg stk' fl' s1) ∧ (left_ s1 < left_ s)%nat) as [(stk'&fl'&Hs1) Hlt].
  { destruct Hst as [E|(j&Hj&E)].
    - split; [by eapply bsp_inv|by eapply bsp_decreases].
    - split; [exists stk, fl; by eapply ap_inv|by eapply ap_decreases]. }
  destruct (IH stk' fl' Hs1) as [? ?]. split; [done|lia].
Qed.

(** C15. The start of the other processors, whatever the interleaving of the
    boot processor with them: with a free page in the first 4 Mbytes for each,
    every execution ends, after at most 14 steps for each processor and two
    more, with startothers done and every processor in the scheduler, on the
    kernel's page table and on a stack page that no other processor has and
    that is not free; before that some processor can always go on, and none
    ever faults or takes the stack, the function or the page directory that is
    meant for another. *)
Theorem startothers_starts_all fl s0 k s :
  start_ready fl s0 → nsteps step k s0 s →
  (k ≤ 14 * n + 2)%nat ∧ (∀ j c, s_cpus s !! j = Some c → j ≠ me → c_pc c ≠ Fault) ∧ (all_up s ∨ ∃ s', step s s').
Proof.
  intros Hr Hk. pose proof (ready_inv fl s0 Hr) as Hs0. destruct (steps_inv k s0 s _ fl Hs0 Hk) as [(stk&fl'&Hs) Hl]. split_and!.
  - enough (left_ s0 ≤ 14 * n + 2)%nat by lia. unfold left_. rewrite (sr_pc _ _ Hr). cbn [bsp_left].
    assert (∀ l, (sum_list_with ap_left l ≤ 8 * length l)%nat) as Hsum.
    { induction l as [|c l IH]; cbn [sum_list_with length]; [done|]. assert (ap_left c ≤ 8)%nat by (unfold ap_left; case_match; lia). lia. }
    specialize (Hsum (s_cpus s0)). rewrite <-(length_fmap apicid), (sr_ids _ _ Hr) in Hsum. lia.
  - intros j c Hc Hj U. pose proof (si_cpu _ _ _ _ _ Hs j c Hc Hj) as C. unfold ap_ok, fresh_ap in C. rewrite U in C.
    destruct (_ <? _)%nat; [by destruct C|]. destruct (_ && _); by destruct C.
  - destruct (start_progress stk fl' s Hs) as [P|?]; [left; by eapply inv_all_up|by right].
Qed.
End steps.
End inv.
End startup.

(** ** Witness *)

(** Three processors, of which the first boots; the image of entryother.S is
    not looked at. *)
Module Demo.
#[local] Instance no_ports : Ports unit := {
  port_in := λ _ d, (0, d); port_out := λ _ _ d, d; port_ins := λ _ _ d, ([], d); port_outs := λ _ _ d, d;
}.
Definition lapic0 : lapicst := Lapic true (λ _, 0) 2 [].
Definition cpu0 (id : Z) (pc : apc) : cpu := Cpu id 0 pc 16 0 0 0 [] (0, 0) lapic0.
Definition start0 : sst (D := unit) :=
  Sst (demo_space 10) (Hw (Ioapic 0 (λ _, 0)) lapic0 (λ _, 0) false tt) [cpu0 0 Up; cpu0 1 Halted; cpu0 4 Halted] Copy.
Abbreviation bstep := (bsp_step [250] 2148532224 2148597760 0).
Abbreviation astep := (ap_step 2148532224 2148597760 2148663296 80).

(** A run in which the other processors only move when they must. *)
Definition next (s : sst (D := unit)) : option (sst (D := unit)) :=
  match bstep s, astep 1%nat s with
  | Some s', _ => Some s'
  | None, Some s' => Some s'
  | None, None => astep 2%nat s
  end.
Fixpoint go (fuel : nat) (s : sst (D := unit)) : nat * sst (D := unit) :=
  match fuel with
  | O => (0%nat, s)
  | S f => match next s with Some s' => let r := go f s' in (S r.1, r.2) | None => (0%nat, s) end
  end.
Abbreviation dstep := (step [250] 2148532224 2148597760 2148663296 80 0).
Lemma go_steps fuel s : nsteps dstep (go fuel s).1 s (go fuel s).2.
Proof.
  revert s. induction fuel as [|f IH]; intros s; cbn [go]; [constructor|]. destruct (next s) as [s'|] eqn:E; [|constructor].
  cbn [fst snd]. econstructor; [|apply IH]. unfold next in E. destruct (bstep s) eqn:E1; [left; congruence|].
  right. destruct (astep 1%nat s) eqn:E2; [exists 1%nat|exists 2%nat]; (split; [done|congruence]).
Qed.
Lemma start0_ready : start_ready 0 demo_end [0; 1; 4] 0 (free_list 10) start0.
Proof.
  split; try done.
  - apply demo_alloc. lia.
  - intros q (k&Hk&->)%free_list_in. unfold demo_free, demo_end, PGSIZE. lia.
  - cbn. lia.
  - intros [|[|[|j]]] c Hc Hj; simplify_eq/=; done.
Qed.

Lemma ids_ok : NoDup [0; 1; 4] ∧ Forall (λ x, 0 ≤ x < 256) [0; 1; 4].
Proof. split; [apply (bool_decide_unpack _); by vm_compute|repeat (constructor; [lia|]); constructor]. Qed.
Lemma image_ok : Z.of_nat (length [250]) ≤ PGSIZE ∧ Forall is_u8 [250].
Proof. split; [by vm_compute|]. constructor; [unfold is_u8; lia|constructor]. Qed.
Lemma go_ends s' : dstep (go 50 start0).2 s' → False.
Proof.
  intros [E|([|[|[|j]]]&Hj&E)].
  - assert (bstep (go 50 start0).2 = None) as E' by (vm_compute; reflexivity). discriminate (eq_trans (eq_sym E') E).
  - exact (Hj eq_refl).
  - assert (astep 1%nat (go 50 start0).2 = None) as E' by (vm_compute; reflexivity). discriminate (eq_trans (eq_sym E') E).
  - assert (astep 2%nat (go 50 start0).2 = None) as E' by (vm_compute; reflexivity). discriminate (eq_trans (eq_sym E') E).
  - assert (length (s_cpus (go 50 start0).2) = 3%nat) as Hl by (vm_compute; reflexivity). revert Hl E. generalize (go 50 start0).2. intros s Hl E.
    unfold ap_step in E. rewrite (lookup_ge_None_2 (s_cpus s)) in E by lia. discriminate E.
Qed.

Lemma startothers_starts_all_witness :
  ((go 50 start0).1 ≤ 44)%nat ∧ all_up 2148663296 0 demo_end [0; 1; 4] 0 (go 50 start0).2.
Proof.
  pose proof (go_steps 50 start0) as Hg. pose proof go_ends as Hend. revert Hg Hend. generalize (go 50 start0). intros [k s] Hg Hend.
  destruct (startothers_starts_all [250] 2148532224 2148597760 2148663296 80 0 demo_end ltac:(by vm_compute) (proj1 image_ok) (proj2 image_ok)
    ltac:(by vm_compute) [0; 1; 4] 0 (proj1 ids_ok) (proj2 ids_ok) (free_list 10) start0 k s start0_ready Hg) as (Hk&_&[Hu|(s'&Hs)]).
  - split; [exact Hk|exact Hu].
  - destruct (Hend s' Hs).
Defined.
End Demo.
